(* ===== verification/_CoqProject ===== *)
-Q . S2P
Prelude.v
GoString.v
GoValue.v
GoTime.v
Filter.v
FilterEval.v
FilterConv.v
FilterRoundTrip.v
FilterRegistry.v
Mailbox.v
Supervisor.v
ActorSystem.v
Schema.v
Stats.v
GroupExecutor.v
GroupLifecycle.v
ConfigV2.v
Processor.v
Dedup.v
Stream.v
ResilientClient.v
Pipeline.v
StreamSink.v
StreamActor.v
Hierarchy.v
Execution.v
Scheduler.v
RedisService.v
ConfigV1.v
Runner.v
Agent.v
Api.v
Graph.v
WorkflowApi.v
Auth.v
Users.v
ActorKinds.v
ActorFlow.v
Dispatcher.v
Table.v
Projects.v
DataTypes.v
ScheduleApi.v
PipelineApi.v
StatsApi.v
FilterApi.v
Sources.v
EventSources.v
Provisioners.v
KafkaService.v
Subscriptions.v
FanIn.v
Partitions.v
Monitoring.v
BentoAdapter.v
ActorContext.v
RegistryLock.v
Startup.v
ConfigText.v
ServerShell.v
