(* ===== verification/Prelude.v ===== *)
(** * Conduix pipeline platform: a verification development

    Conduix moves records from sources through processing steps to sinks. Its engine
    (src/pipeline-core) exists in several forms that share their filters and schemas:
    actor pipelines run by a supervised actor system, stream pipelines that call
    stages directly, version 2 pipelines with deduplication, and groups of pipelines
    run together. src/shared holds the types and a Redis client with a circuit
    breaker; src/control-plane and src/pipeline-agent schedule and distribute the
    work. This development models the engine with its sources and provisioners, the
    Redis client, the agent and the services and handlers of the control plane.

    ** Files and what they model

    - [Prelude]: results of Go calls ([Ok], [Err] and [Panic] for a nil dereference, a
      write to a nil map or a send on a closed channel), loops that stop early, 64-bit
      arithmetic and equality modulo its width, tactics and hints.
    - [GoString], [GoValue], [GoTime]: what the code uses of Go's strings, fmt, reflect
      and time. Records are maps from strings to [GoValue]; floats are IEEE 754 values.
      The printing and reading of floats, regular expressions and JSON are the class
      [GoRuntime], the conversion of out-of-range floats the class [GoArch]: theorems
      hold for every instance.
    - [Filter], [FilterEval], [FilterConv], [FilterRoundTrip], [FilterRegistry],
      [RegistryLock] (pkg/filter): filters as conditions and groups, [Validate]; the
      evaluator of structured filters and of expressions; the converter between both
      forms; the operator registry; its lock under any number of goroutines, and its
      exports.
    - [Mailbox], [Supervisor], [ActorSystem], [ActorContext] (pkg/actor): bounded
      mailboxes, both as whole calls and as interleaved steps; restart decisions; the
      actor system as a heap of actors with the registry of paths, and the
      supervisor's message handler; contexts, checkpoints and questions with replies.
    - [ActorKinds], [ActorFlow], [Dispatcher] (pkg/actor/types, pkg/actor/factory.go,
      pkg/adapter/bento, pkg/actor/system.go): sources, transforms, routers and sinks
      as actors and the factory that makes them; whole systems of actors whose receive
      loops take turns; the pool of workers that handles the messages.
    - [Sources], [EventSources] (pkg/source, pkg/executor/config_helper.go): files, SQL
      queries, HTTP with its pages and tokens; polled event tables, change data capture
      and Kafka; the two factories of sources. What files, databases, servers and
      clients answer are arguments.
    - [FanIn], [Partitions] (pkg/executor/group_executor.go, pkg/source/kafka.go): the
      join of goroutines into one channel, with a consumer that may cancel; the
      sources of partitions and the readers of Kafka as its instances.
    - [BentoAdapter] (pkg/adapter/bento/adapter.go): the adapters around objects of the
      Bento library, which are the class [BentoMessage] with its laws.
    - [Provisioners] (pkg/provisioner): the interface of provisioners as a record with
      the laws [ProvisionerLaws], its seven implementations over a [World] that stands
      for the outside, the registry and the manager with its shared results.
    - [Schema] (pkg/schema): record validation and schemas from configurations.
    - [Stats], [GroupExecutor], [GroupLifecycle] (pkg/executor): counters and hourly
      buckets; one pipeline of a group, and the parallel, sequential and
      dependency-ordered modes; the executor's state machine, with the execution
      records as a heap because runs write through a shared pointer.
    - [ConfigV2], [Processor], [Dedup], [Pipeline] (pkg/config/v2_config.go,
      pkg/processor, pkg/dedup, pkg/sink, pkg/pipeline/pipeline.go): the version 2
      pipeline. [DedupService] is the interface and [DedupLaws] what a pipeline relies
      on; the memory service has the laws, the Redis placeholder cannot have them.
    - [Stream], [StreamSink], [StreamActor] (pkg/stream): stages and the stream
      processor; the sinks with their batches, as whole calls and as interleaved steps;
      the sources, the construction of a stream pipeline and the actor around it.
    - [ConfigV1], [Runner] (pkg/config/config.go, simple_config.go,
      pkg/pipeline/runner.go): validation of flat and actor pipelines, the short form
      and its conversion; the runner on top of [ActorSystem], [Stream] and [StreamSink].
    - [ConfigText] (pkg/config, pkg/filter/model.go): configurations as files, the
      substitution of environment variables, filters as YAML and JSON.
    - [ResilientClient], [Subscriptions] (shared/redis): circuit breaker, local cache,
      requests, reconnection; subscriptions as goroutines that step between calls.
    - [Hierarchy], [Execution], [Scheduler], [RedisService], [KafkaService],
      [Monitoring] (control-plane/internal/services): the order of a batch and its expansion; the
      executions of workflows as a heap of goroutines that step between calls; the
      scheduler over [CronLib], an interface of the cron library with its laws; the
      queue of commands to agents with its retries; the topics of the Kafka service;
      checkpoints, metrics and heartbeats read and written through [ResilientClient].
    - [Agent] (pipeline-agent/internal/agent): the pipelines of an agent, each with its
      [Runner], the heartbeat and the command loop over [ResilientClient], and the
      switch to REST when Redis is lost.
    - [Api], [Graph], [WorkflowApi], [Auth], [Users] (control-plane/internal/api,
      pkg/config): replies and error codes; the graph editor; workflows and the Kafka
      topics between their pipelines; login, tokens, the middleware and the table of
      routes; users, permissions and the audit log. A handler is a function from the
      database tables and the request to a reply and the tables; decoding of requests
      and the failures of the database are in its arguments.
    - [Table], [Projects], [DataTypes], [ScheduleApi], [PipelineApi], [StatsApi],
      [FilterApi] (control-plane/internal/api/handlers): tables of rows with soft
      deletion and unique indexes, where each write may fail, and over them the
      handlers for projects and their owners, data types and their preworks, schedules
      (on top of [Scheduler]), pipelines and provisioning, statistics and filters.
    - [ServerShell], [Startup] (control-plane/internal/api, cmd/server, pkg/config): the
      middleware in front of every route and the envelopes of responses; the start of
      the server, its users and login providers, and its shutdown.

    Definitions have the names of the source. Goroutines appear as interleavings:
    every sequence of their steps ([Mailbox.world_step], [GroupLifecycle.event],
    [Stream.StreamEvent], [Pipeline.RunEvent]). Where Go leaves an order open, such as
    the order of a range over a map or of goroutines that finish, it is an argument
    with the hypothesis that it is a permutation. The clock is an argument in
    nanoseconds. Counters wrap around; statements about sums are modulo [2^64].

    ** What is shown

    - Filters: what [Validate] accepts never panics; its value is the boolean formula of
      the filter and its error that of a condition; the dual filter negates it; the converter terminates and printing
      followed by parsing gives the filter back on the fragment the text can express;
      the registry refines an ordered list and agrees with the evaluator on the operators
      there are and with [Validate] on those that need a value, though [Validate] accepts
      any operator; calls on it never deadlock, except with its exports. The evaluator and the converter
      disagree on precedence.
    - Actors: a mailbox is a bounded FIFO in every interleaving, loses messages only by
      its strategy and makes up zero messages only when it is closed and empty; the
      restarts of a child for its own failures are limited in every time window, and with
      the unrecorded ones of [one_for_all] by the limit times the number of children; the
      registry holds exactly the running actors; a restart replaces the child; the
      supervisor never panics; failures of nested children are lost. Messages taken
      from mailboxes are handled once, though not in their order; the actors of a flat
      pipeline deliver nothing, because nobody connects them. A question gets the
      first reply of its actor or the default one; checkpoints of actors stay apart.
    - Sources: CSV rows and pages arrive as they are and in order, requests for pages
      are bounded, a token is reused until it expires; polling an append-only table by
      the default order, with numbers as ids and over a database that takes the text of
      the query as SQL does, delivers each row once and in order; with texts as ids every
      poll repeats them; change events keep their order and are lost only when the channel
      is full; Kafka messages are handed over in order with the checkpoint at the last
      one fetched; the two factories agree. Joined sources hand over the records of each
      in order and all of them unless cancelled, and every run ends, apart from rounds
      that receive nil from a closed channel; their errors can be lost, and with a full
      channel of errors a cancelled goroutine stays for ever.
    - Bento: a record comes back from a message as it was; an output is closed once in
      every interleaving, though a write can come after.
    - Provisioners: a result is completed exactly when the outside accepted what the
      configuration asks for; what [Validate] accepts is not refused later, though an
      Elasticsearch refusal in text panics; the manager keeps the open results of its
      requests and closes each once.
    - Schemas: [Validate] decides a conformance relation and names what violates it.
    - Groups: dependency-ordered runs end, respect dependencies and, when all pipelines
      succeed, succeed exactly on acyclic graphs within the group; sequential and parallel runs have their specification; results of
      different runs stay apart unless runs overlap, which the status does not
      prevent; the hourly buckets follow a ledger of the samples cut at the hours.
    - Version 2: validation accepts exactly the well-formed configurations and is
      idempotent; processors never panic or touch metadata; in realtime mode, over a
      deduplication service with the laws, an event is written once per time to live and
      updates follow creates; every record is accounted for. The Redis storage never deduplicates.
    - Streams: counters of processor and stages form a balanced flow in every
      interleaving; records that arrive while paused are dropped. A sink neither loses
      nor duplicates a record on the way to its backend, and after a stop the records
      counted as output are those delivered.
    - Runner and configurations: a flat pipeline starts exactly when its names differ;
      an actor pipeline starts its root alone; a stopped runner never blocks in [Wait]
      again; a short configuration converts to the chain of its steps, which is valid; variables in braces
      are replaced by their values and texts without a dollar are left alone.
    - Control plane: the batch order is topological and the sort ends on every input;
      executions are tracked, but their offsets do not survive a restart, because they
      are encoded twice; what monitoring reads is what Redis answers or the last text
      this process wrote or read; the scheduler and the cron library agree, and a running
      workflow is not started again; commands are
      not lost before they are a day old; an edit of a graph does what it says and
      nothing else; running and paused workflows are those with running executions,
      unless a write fails whose error is ignored; new children are connected by their
      topic; requests that write carry a token with the role for it; roles and
      permissions stay consistent. The tables of projects stay consistent whichever
      writes fail; the hierarchy of data types is bounded until an update names a
      parent, which can close a cycle; a provisioning request is closed once; totals
      of statistics agree with their rows; valid filters can be tested. Requests carry
      an identifier into every response. The providers one can log in with are those
      with credentials in the environment, and none when a named file is broken.
    - Agent: each of its calls is the labelled step of an abstract agent that moves
      pipelines between three states; with the REST fallback every heartbeat arrives
      somewhere and it listens until it is stopped.
    - Redis client: a closed breaker opens exactly on consecutive failures and shields
      Redis while open, but does not reopen from half-open; the cache is bounded and
      serves as a fallback; the reconnect loop ends. Each registered channel has
      exactly one goroutine at work, and a cancelled one can end.

    ** Fuel

    Recursion that is not structural has fuel, and lemmas show that it is enough: three
    levels for expressions ([FilterEval.expr_fuel]), one more than the length of the
    text for the parser, one more than the number of pipelines for the dependency
    loop, the nesting of the configuration for schemas, the length of the text for
    durations (each component takes at least one character) and for the substitution
    of variables ([ConfigText.expand_fuel]).

    The sort of a hierarchy has one level of fuel more than there are identifiers
    ([Hierarchy.sort_fuel]), since the identifiers on a path of visits differ.

    ** What is not modelled

    Libraries are interfaces or arguments: the YAML and JSON decoders, the database, the
    clients of Redis, Kafka and HTTP, Bento, cron and OAuth. Schema migrations, the
    parsing of flags and environment into a configuration, logging and the command
    line tools only call such libraries. Plain data types without operations are
    modelled only as far as something uses them, and so are accessors that copy
    counters (statistics of Kafka readers, of streams and of stages). The loops of
    files, queries and pages are followed to their end: a cancelled context only cuts
    them short. The HTTP handlers of the agent assign texts to a field that is a
    structured error and do not compile. *)

From stdpp Require Export base gmap strings list fin_maps sorting.
From Stdlib Require Export ZArith Lia.

#[export] Set Warnings "-register-all,-clear-no-such-hyp".

(** ** Results of Go calls

    A Go call that returns [(v, error)] yields [Ok v] or [Err e]; a nil
    dereference, a failed type assertion or a send on a closed channel
    yields [Panic]. *)
Inductive res (E A : Type) : Type :=
| Ok (a : A)
| Err (e : E)
| Panic.
Arguments Ok {E A} a.
Arguments Err {E A} e.
Arguments Panic {E A}.

#[export] Instance res_ret (E : Type) : MRet (res E) := fun A a => Ok a.
#[export] Instance res_bind (E : Type) : MBind (res E) := fun A B f m =>
  match m with
  | Ok a => f a
  | Err e => Err e
  | Panic => Panic
  end.
#[export] Instance res_fmap (E : Type) : FMap (res E) := fun A B f m =>
  match m with
  | Ok a => Ok (f a)
  | Err e => Err e
  | Panic => Panic
  end.

(** [fmt.Errorf("...: %w", err)]: wrap the error of a failed call. *)
Definition wrap_err {E E' A} (f : E -> E') (m : res E A) : res E' A :=
  match m with
  | Ok a => Ok a
  | Err e => Err (f e)
  | Panic => Panic
  end.

Definition is_ok {E A} (m : res E A) : bool :=
  match m with Ok _ => true | _ => false end.
Definition is_err {E A} (m : res E A) : bool :=
  match m with Err _ => true | _ => false end.
Definition is_panic {E A} (m : res E A) : bool :=
  match m with Panic => true | _ => false end.

Lemma bind_ok {E A B} (m : res E A) (f : A -> res E B) b :
  (m ≫= f) = Ok b -> exists a, m = Ok a /\ f a = Ok b.
Proof. destruct m; simpl; intros; eauto; discriminate. Qed.

Lemma bind_panic {E A B} (m : res E A) (f : A -> res E B) :
  (m ≫= f) = Panic -> m = Panic \/ exists a, m = Ok a /\ f a = Panic.
Proof. destruct m; simpl; intros; eauto; discriminate. Qed.

Lemma wrap_err_ok {E E' A} (f : E -> E') (m : res E A) a :
  wrap_err f m = Ok a <-> m = Ok a.
Proof. destruct m; simpl; split; congruence. Qed.

Lemma wrap_err_panic {E E' A} (f : E -> E') (m : res E A) :
  wrap_err f m = Panic <-> m = Panic.
Proof. destruct m; simpl; split; congruence. Qed.

(** ** Tactics of the development *)

Create HintDb conduix.
Create Rewrite HintDb conduix.

(** Split every [match], [if] and boolean test of the goal or of a hypothesis,
    and close the branches that contradict each other. *)
Ltac split_matches :=
  repeat match goal with
  | |- context [match ?x with _ => _ end] => destruct x eqn:?; simplify_eq/=
  | H : context [match ?x with _ => _ end] |- _ => destruct x eqn:?; simplify_eq/=
  end.

(** Turn boolean comparisons on strings, integers and naturals into
    propositions. *)
Ltac bool_props :=
  repeat match goal with
  | H : (_ && _) = true |- _ => apply andb_true_iff in H as [? ?]
  | H : (_ && _) = false |- _ => apply andb_false_iff in H
  | H : (_ || _) = true |- _ => apply orb_true_iff in H
  | H : (_ || _) = false |- _ => apply orb_false_iff in H as [? ?]
  | H : negb _ = true |- _ => apply negb_true_iff in H
  | H : negb _ = false |- _ => apply negb_false_iff in H
  | H : String.eqb _ _ = true |- _ => apply String.eqb_eq in H
  | H : String.eqb _ _ = false |- _ => apply String.eqb_neq in H
  | H : Z.ltb _ _ = true |- _ => apply Z.ltb_lt in H
  | H : Z.ltb _ _ = false |- _ => apply Z.ltb_ge in H
  | H : Z.leb _ _ = true |- _ => apply Z.leb_le in H
  | H : Z.leb _ _ = false |- _ => apply Z.leb_gt in H
  | H : Z.eqb _ _ = true |- _ => apply Z.eqb_eq in H
  | H : Z.eqb _ _ = false |- _ => apply Z.eqb_neq in H
  | H : Nat.ltb _ _ = true |- _ => apply Nat.ltb_lt in H
  | H : Nat.ltb _ _ = false |- _ => apply Nat.ltb_ge in H
  | H : Nat.leb _ _ = true |- _ => apply Nat.leb_le in H
  | H : Nat.leb _ _ = false |- _ => apply Nat.leb_gt in H
  | H : Nat.eqb _ _ = true |- _ => apply Nat.eqb_eq in H
  | H : Nat.eqb _ _ = false |- _ => apply Nat.eqb_neq in H
  end.

(** ** Loops over slices that stop early *)

(** [for _, x := range l { if err := f(x); err != nil { return err } }]. *)
Definition for_each {E A} (f : A -> res E unit) : list A -> res E unit :=
  fix loop l :=
    match l with
    | [] => Ok tt
    | x :: l' => f x ≫= fun _ => loop l'
    end.

Lemma for_each_ok {E A} (f : A -> res E unit) l :
  for_each f l = Ok tt <-> Forall (fun x => f x = Ok tt) l.
Proof.
  induction l as [|x l IH]; simpl; [by split|].
  rewrite Forall_cons, <- IH. destruct (f x) as [[]| |]; simpl; naive_solver.
Qed.

(** The same loop with the index, as [for i, x := range l] gives it. *)
Definition for_each_i {E A} (f : nat -> A -> res E unit)
  : nat -> list A -> res E unit :=
  fix loop i l :=
    match l with
    | [] => Ok tt
    | x :: l' => f i x ≫= fun _ => loop (S i) l'
    end.

Lemma for_each_i_ok {E A} (f : nat -> A -> res E unit) (P : A -> Prop) i l :
  (forall i x, f i x = Ok tt <-> P x) ->
  for_each_i f i l = Ok tt <-> Forall P l.
Proof.
  intros Hf. revert i. induction l as [|x l IH]; intros i; simpl; [by split|].
  rewrite Forall_cons, <- (IH (S i)), <- (Hf i x).
  destruct (f i x) as [[]| |]; simpl; naive_solver.
Qed.

Lemma for_each_i_no_panic {E A} (f : nat -> A -> res E unit) i l :
  Forall (fun x => forall i, f i x <> Panic) l -> for_each_i f i l <> Panic.
Proof.
  intros H. revert i. induction H as [|x l Hx _ IH]; intros i; simpl; [done|].
  intros [H|([] & _ & H)]%bind_panic; [by eapply Hx | by eapply IH].
Qed.

(** Membership in a list filtered by a boolean test. *)
Lemma elem_of_bfilter {A} (f : A -> bool) x (l : list A) :
  x ∈ List.filter f l <-> x ∈ l /\ f x = true.
Proof. by rewrite !list_elem_of_In, filter_In. Qed.

Lemma NoDup_bfilter {A} (f : A -> bool) (l : list A) : NoDup l -> NoDup (List.filter f l).
Proof. rewrite !NoDup_ListNoDup. apply List.NoDup_filter. Qed.

(** ** Machine integers

    [int] and [int64] are 64 bit; a counter increment wraps around. *)
Definition int64_wrap (z : Z) : Z :=
  ((z + 2 ^ 63) mod 2 ^ 64 - 2 ^ 63)%Z.

Definition int64_ok (z : Z) : Prop := (- 2 ^ 63 <= z < 2 ^ 63)%Z.

Lemma int64_wrap_small z : int64_ok z -> int64_wrap z = z.
Proof.
  unfold int64_ok, int64_wrap. intros [H1 H2].
  rewrite Z.mod_small; lia.
Qed.

Lemma int64_wrap_ok z : int64_ok (int64_wrap z).
Proof.
  unfold int64_ok, int64_wrap.
  pose proof (Z.mod_pos_bound (z + 2 ^ 63) (2 ^ 64) ltac:(lia)). lia.
Qed.

(** Equality modulo the width. *)

Definition eqm (a b : Z) : Prop := exists k, (a = b + k * 2 ^ 64)%Z.

#[export] Instance eqm_equiv : Equivalence eqm.
Proof.
  split.
  - intros a. exists 0%Z. lia.
  - intros a b [k ->]. exists (- k)%Z. lia.
  - intros a b c [k ->] [k' ->]. exists (k + k')%Z. lia.
Qed.

#[export] Instance add_eqm : Proper (eqm ==> eqm ==> eqm) Z.add.
Proof. intros a a' [k ->] b b' [k' ->]. exists (k + k')%Z. lia. Qed.

Lemma wrap_eqm z : eqm (int64_wrap z) z.
Proof.
  exists (- ((z + 2 ^ 63) / 2 ^ 64))%Z. unfold int64_wrap.
  rewrite Z.mod_eq by lia. lia.
Qed.

#[export] Hint Resolve int64_wrap_ok : conduix.
#[export] Hint Rewrite @length_app @length_map @length_fmap : conduix.

Lemma size_list_to_set_le (l : list string) : size (list_to_set l : gset string) <= length l.
Proof.
  induction l as [|x l IH]; [by rewrite list_to_set_nil, size_empty|].
  rewrite list_to_set_cons. cbn [length]. rewrite size_union_alt, size_singleton.
  pose proof (subseteq_size ((list_to_set l : gset string) ∖ {[x]}) (list_to_set l)
    ltac:(set_solver)). lia.
Qed.
