(* ===== verification/GoString.v ===== *)
(** * Go strings

    The functions of Go's [strings] package that the pipeline code calls, on
    byte strings (Rocq's [string]; a Go string is a sequence of bytes too).
    [TrimSpace] removes the UTF-8 encodings of every rune that
    [unicode.IsSpace] accepts. *)

From Stdlib Require Import Ascii String.
From S2P Require Import Prelude.
Local Open Scope string_scope.

(** ** Prefixes and suffixes *)

Fixpoint strip_prefix (p s : string) : option string :=
  match p, s with
  | EmptyString, _ => Some s
  | String a p', String b s' => if Ascii.eqb a b then strip_prefix p' s' else None
  | String _ _, EmptyString => None
  end.

(** [strings.HasPrefix] and [strings.TrimPrefix]. *)
Definition HasPrefix (s p : string) : bool :=
  match strip_prefix p s with Some _ => true | None => false end.
Definition TrimPrefix (s p : string) : string :=
  match strip_prefix p s with Some r => r | None => s end.

(** [strings.HasSuffix] and [strings.TrimSuffix]. *)
Definition HasSuffix (s p : string) : bool :=
  HasPrefix (String.rev s) (String.rev p).
Definition TrimSuffix (s p : string) : string :=
  String.rev (TrimPrefix (String.rev s) (String.rev p)).

(** ** Searching and splitting *)

(** [strings.Cut]: the text before and after the first occurrence. *)
Fixpoint cut (sep s : string) : option (string * string) :=
  match strip_prefix sep s with
  | Some rest => Some ("", rest)
  | None =>
      match s with
      | EmptyString => None
      | String c s' =>
          match cut sep s' with
          | Some (a, b) => Some (String c a, b)
          | None => None
          end
      end
  end.

(** [strings.Contains] and [strings.Index] ([None] is Go's [-1]). *)
Definition Contains (s sep : string) : bool :=
  match cut sep s with Some _ => true | None => false end.
Definition Index (s sep : string) : option nat :=
  match cut sep s with Some (a, _) => Some (String.length a) | None => None end.

(** [strings.SplitN(s, sep, 2)]. *)
Definition SplitN2 (s sep : string) : list string :=
  match cut sep s with Some (a, b) => [a; b] | None => [s] end.

(** [strings.Split(s, sep)] for a non-empty separator. *)
Fixpoint split_fuel (n : nat) (sep s : string) : list string :=
  match n with
  | O => [s]
  | S n' =>
      match cut sep s with
      | Some (a, b) => a :: split_fuel n' sep b
      | None => [s]
      end
  end.
Definition Split (s sep : string) : list string :=
  split_fuel (String.length s) sep s.

(** [strings.Join]. *)
Fixpoint Join (l : list string) (sep : string) : string :=
  match l with
  | [] => ""
  | [x] => x
  | x :: l' => x +:+ sep +:+ Join l' sep
  end.

(** ** Trimming *)

(** Remove the given strings from the front as long as one of them matches. *)
Fixpoint trim_front (ps : list string) (n : nat) (s : string) : string :=
  match n with
  | O => s
  | S n' =>
      match list_find (fun p => HasPrefix s p = true) ps with
      | Some (_, p) => trim_front ps n' (TrimPrefix s p)
      | None => s
      end
  end.

Definition trim_left (ps : list string) (s : string) : string :=
  trim_front ps (String.length s) s.
Definition trim_right (ps : list string) (s : string) : string :=
  String.rev (trim_left (String.rev <$> ps) (String.rev s)).
Definition trim_both (ps : list string) (s : string) : string :=
  trim_right ps (trim_left ps s).

Definition bytes (l : list nat) : string :=
  string_of_list_ascii (ascii_of_nat <$> l).

(** A text in double quotes. *)
Definition quoted (s : string) : string := bytes [34] +:+ s +:+ bytes [34].

(** The encodings of the runes [unicode.IsSpace] accepts. *)
Definition space_runes : list string :=
  bytes <$>
  [ [9]; [10]; [11]; [12]; [13]; [32]; [194; 133]; [194; 160];
    [225; 154; 128]; [226; 128; 128]; [226; 128; 129]; [226; 128; 130];
    [226; 128; 131]; [226; 128; 132]; [226; 128; 133]; [226; 128; 134];
    [226; 128; 135]; [226; 128; 136]; [226; 128; 137]; [226; 128; 138];
    [226; 128; 168]; [226; 128; 169]; [226; 128; 175]; [226; 129; 159];
    [227; 128; 128] ].

(** [strings.TrimSpace]. *)
Definition TrimSpace (s : string) : string := trim_both space_runes s.

(** [strings.Trim(s, cutset)] for a cutset of ASCII characters. *)
Definition Trim (s cutset : string) : string :=
  trim_both ((fun c => String c "") <$> list_ascii_of_string cutset) s.

(** ** String comparison: Go compares strings byte by byte. *)
Definition str_lt (a b : string) : bool := String.ltb a b.

Example trim_space_ex : TrimSpace "  a b  " = "a b".
Proof. vm_compute. reflexivity. Qed.
Example split_ex : Split "a&&b&&" "&&" = ["a"; "b"; ""].
Proof. reflexivity. Qed.
Example suffix_ex : TrimSuffix ".x exists" " exists" = ".x".
Proof. reflexivity. Qed.

(** ** Laws of append and length *)

Lemma str_app_cons c a b : String c a +:+ b = String c (a +:+ b).
Proof. reflexivity. Qed.
Lemma str_app_nil_l a : "" +:+ a = a.
Proof. reflexivity. Qed.

Lemma str_app_nil_r s : s +:+ "" = s.
Proof. induction s as [|c s IH]; [done|]. by rewrite str_app_cons, IH. Qed.

Lemma str_app_assoc a b c : (a +:+ b) +:+ c = a +:+ b +:+ c.
Proof. induction a as [|x a IH]; [done|]. by rewrite !str_app_cons, IH. Qed.

Lemma str_length_app a b :
  String.length (a +:+ b) = String.length a + String.length b.
Proof.
  induction a as [|x a IH]; [done|]. rewrite str_app_cons. simpl. by rewrite IH.
Qed.

Lemma str_length_0 s : String.length s = 0 -> s = "".
Proof. by destruct s. Qed.

Lemma str_rev_app_spec a b : String.rev_app a b = String.rev a +:+ b.
Proof.
  unfold String.rev. revert b.
  induction a as [|c a IH]; intros b; simpl; [done|].
  rewrite IH, (IH (String c "")), str_app_assoc. done.
Qed.

Lemma str_rev_cons c a : String.rev (String c a) = String.rev a +:+ String c "".
Proof. unfold String.rev at 1. simpl. apply str_rev_app_spec. Qed.

Lemma str_rev_append a b : String.rev (a +:+ b) = String.rev b +:+ String.rev a.
Proof.
  induction a as [|c a IH]; [by rewrite str_app_nil_l, str_app_nil_r|].
  by rewrite str_app_cons, !str_rev_cons, IH, str_app_assoc.
Qed.

Lemma str_rev_involutive a : String.rev (String.rev a) = a.
Proof.
  induction a as [|c a IH]; [done|].
  by rewrite str_rev_cons, str_rev_append, IH.
Qed.

Lemma str_length_rev a : String.length (String.rev a) = String.length a.
Proof.
  induction a as [|c a IH]; [done|].
  rewrite str_rev_cons, str_length_app, IH. simpl. lia.
Qed.

Create Rewrite HintDb gostr.
#[export] Hint Rewrite str_app_cons str_app_nil_l str_app_nil_r str_app_assoc
  str_length_app str_rev_append str_rev_involutive str_length_rev : gostr.

(** ** Occurrence of one string in another *)

Definition infix (a s : string) : Prop := exists x y, s = x +:+ a +:+ y.

Lemma infix_refl a : infix a a.
Proof. exists "", "". by rewrite str_app_nil_l, str_app_nil_r. Qed.

Lemma infix_trans a b c : infix a b -> infix b c -> infix a c.
Proof.
  intros (x & y & ->) (x' & y' & ->).
  exists (x' +:+ x), (y +:+ y'). by rewrite !str_app_assoc.
Qed.

#[export] Instance infix_preorder : PreOrder infix.
Proof. split; [exact infix_refl | exact infix_trans]. Qed.

Lemma infix_length a s : infix a s -> String.length a <= String.length s.
Proof. intros (x & y & ->). rewrite !str_length_app. lia. Qed.

Lemma infix_rev a s : infix a s -> infix (String.rev a) (String.rev s).
Proof.
  intros (x & y & ->). exists (String.rev y), (String.rev x).
  by rewrite !str_rev_append, str_app_assoc.
Qed.

Lemma infix_rev_inv a s : infix (String.rev a) (String.rev s) -> infix a s.
Proof.
  intros H%infix_rev. by rewrite !str_rev_involutive in H.
Qed.

Lemma strip_prefix_Some p s r : strip_prefix p s = Some r <-> s = p +:+ r.
Proof.
  revert s. induction p as [|a p IH]; intros [|b s]; simpl;
    rewrite ?str_app_cons, ?str_app_nil_l; try naive_solver.
  destruct (Ascii.eqb_spec a b) as [->|Hne]; [rewrite IH|]; naive_solver.
Qed.

Lemma HasPrefix_spec s p : HasPrefix s p = true <-> exists r, s = p +:+ r.
Proof.
  unfold HasPrefix. destruct (strip_prefix p s) as [r|] eqn:E.
  - split; [|done]. intros _. exists r. by apply strip_prefix_Some.
  - split; [done|]. intros [r Hr]. apply strip_prefix_Some in Hr. congruence.
Qed.

Lemma TrimPrefix_infix s p : infix (TrimPrefix s p) s.
Proof.
  unfold TrimPrefix. destruct (strip_prefix p s) as [r|] eqn:E; [|apply infix_refl].
  apply strip_prefix_Some in E as ->.
  exists p, "". by rewrite str_app_nil_r.
Qed.

Lemma TrimSuffix_infix s p : infix (TrimSuffix s p) s.
Proof.
  apply infix_rev_inv. unfold TrimSuffix. rewrite str_rev_involutive.
  apply TrimPrefix_infix.
Qed.

Lemma cut_Some sep s a b : cut sep s = Some (a, b) -> s = a +:+ sep +:+ b.
Proof.
  revert a b. induction s as [|c s IH]; intros a b; simpl.
  - destruct sep; simpl; naive_solver.
  - destruct (strip_prefix sep (String c s)) as [r|] eqn:E; intros H.
    + simplify_eq. by apply strip_prefix_Some in E.
    + destruct (cut sep s) as [[a' b']|]; simplify_eq.
      rewrite str_app_cons. f_equal. by apply IH.
Qed.

(** [cut] finds the first occurrence: any occurrence starts no earlier. *)
Lemma cut_complete sep x y :
  exists a b, cut sep (x +:+ sep +:+ y) = Some (a, b) /\
    String.length a <= String.length x.
Proof.
  induction x as [|c x (a & b & Hc & Hl)].
  - exists "", y. rewrite str_app_nil_l. split; [|simpl; lia].
    destruct (sep +:+ y) as [|d t] eqn:E; unfold cut; fold cut; rewrite <- ?E;
      by rewrite (proj2 (strip_prefix_Some sep (sep +:+ y) y) eq_refl).
  - rewrite str_app_cons. cbn [cut].
    destruct (strip_prefix sep (String c (x +:+ sep +:+ y))) as [r|].
    + exists "", r. split; [done | simpl; lia].
    + rewrite Hc. exists (String c a), b. split; [done | simpl; lia].
Qed.

Lemma Contains_spec s sep : Contains s sep = true <-> infix sep s.
Proof.
  unfold Contains. split.
  - destruct (cut sep s) as [[a b]|] eqn:E; [|done]. intros _.
    exists a, b. by apply cut_Some.
  - intros (x & y & ->). destruct (cut_complete sep x y) as (a & b & -> & _). done.
Qed.

Lemma Contains_false s sep : Contains s sep = false <-> ~ infix sep s.
Proof. rewrite <- Contains_spec. by destruct (Contains s sep). Qed.

Lemma cut_None sep s : cut sep s = None <-> ~ infix sep s.
Proof.
  rewrite <- Contains_false. unfold Contains. by destruct (cut sep s).
Qed.

Lemma Contains_mono a s sep :
  infix a s -> Contains s sep = false -> Contains a sep = false.
Proof.
  rewrite !Contains_false. intros Ha Hs Hsep. apply Hs. by etrans.
Qed.

(** The text before the first occurrence does not contain the separator. *)
Lemma cut_before sep s a b :
  sep <> "" -> cut sep s = Some (a, b) -> Contains a sep = false.
Proof.
  intros Hsep Hc. apply Contains_false. intros (x & y & ->).
  pose proof (cut_Some _ _ _ _ Hc) as ->.
  destruct (cut_complete sep x (y +:+ sep +:+ b)) as (a' & b' & Hc' & Hl).
  autorewrite with gostr in Hc. rewrite Hc in Hc'. simplify_eq.
  autorewrite with gostr in Hl. destruct sep; [done|]. simpl in Hl. lia.
Qed.

(** ** Splitting *)

Lemma split_fuel_parts n sep s p :
  sep <> "" -> String.length s <= n -> p ∈ split_fuel n sep s ->
  infix p s /\ Contains p sep = false.
Proof.
  intros Hsep. revert s.
  assert (forall s, String.length s = 0 -> Contains s sep = false) as H0.
  { intros s ->%str_length_0. apply Contains_false. intros H%infix_length.
    destruct sep; simpl in H; [done | lia]. }
  induction n as [|n IH]; intros s Hn Hp; simpl in Hp.
  - apply list_elem_of_singleton in Hp as ->. split; [done|]. apply H0. lia.
  - destruct (cut sep s) as [[a b]|] eqn:E.
    + pose proof (cut_Some _ _ _ _ E) as ->.
      apply elem_of_cons in Hp as [->|Hp].
      * split; [|by eapply cut_before]. by exists "", (sep +:+ b).
      * apply IH in Hp as [Hi Hc].
        -- split; [|done]. etrans; [done|]. exists (a +:+ sep), "".
           by autorewrite with gostr.
        -- autorewrite with gostr in Hn. destruct sep; [done|]. simpl in Hn. lia.
    + apply list_elem_of_singleton in Hp as ->. split; [done|].
      by apply Contains_false, cut_None.
Qed.

(** Every part is a piece of the string and holds no separator. *)
Lemma Split_parts s sep p :
  sep <> "" -> p ∈ Split s sep -> infix p s /\ Contains p sep = false.
Proof. intros Hsep. by apply split_fuel_parts. Qed.

Lemma split_fuel_join n sep s :
  sep <> "" -> String.length s <= n -> Join (split_fuel n sep s) sep = s.
Proof.
  intros Hsep. revert s. induction n as [|n IH]; intros s Hn; simpl; [done|].
  destruct (cut sep s) as [[a b]|] eqn:E; [|done].
  apply cut_Some in E as ->. autorewrite with gostr in Hn.
  assert (Join (split_fuel n sep b) sep = b) as Hb.
  { apply IH. destruct sep; [done|]. simpl in Hn. lia. }
  rewrite <- Hb at 2.
  destruct (split_fuel n sep b) eqn:Eb; [|done].
  destruct n; simpl in Eb; [done|]. by destruct (cut sep b) as [[??]|].
Qed.

(** [Join] undoes [Split]. *)
Lemma Join_Split s sep : sep <> "" -> Join (Split s sep) sep = s.
Proof. intros Hsep. by apply split_fuel_join. Qed.

(** ** Trimming *)

Lemma trim_front_infix ps n s : infix (trim_front ps n s) s.
Proof.
  revert s. induction n as [|n IH]; intros s; simpl; [done|].
  destruct (list_find _ ps) as [[i p]|]; [|done].
  etrans; [apply IH | apply TrimPrefix_infix].
Qed.

Lemma trim_left_infix ps s : infix (trim_left ps s) s.
Proof. apply trim_front_infix. Qed.

Lemma trim_right_infix ps s : infix (trim_right ps s) s.
Proof.
  apply infix_rev_inv. unfold trim_right. rewrite str_rev_involutive.
  apply trim_left_infix.
Qed.

Lemma trim_both_infix ps s : infix (trim_both ps s) s.
Proof. etrans; [apply trim_right_infix | apply trim_left_infix]. Qed.

Lemma TrimSpace_infix s : infix (TrimSpace s) s.
Proof. apply trim_both_infix. Qed.

Lemma TrimSpace_length s : String.length (TrimSpace s) <= String.length s.
Proof. apply infix_length, TrimSpace_infix. Qed.

(** A string no trimmed string starts stays as it is. *)
Definition untrimmable (ps : list string) (s : string) : bool :=
  forallb (fun p => negb (HasPrefix s p)) ps.

Lemma trim_left_id ps s : untrimmable ps s = true -> trim_left ps s = s.
Proof.
  intros H. unfold trim_left. destruct (String.length s); simpl; [done|].
  destruct (list_find _ ps) as [[i p]|] eqn:E; [|done].
  apply list_find_Some in E as (Hp & Hs & _).
  apply list_elem_of_lookup_2, list_elem_of_In in Hp.
  eapply forallb_forall in H; [|exact Hp]. by rewrite Hs in H.
Qed.

Lemma trim_right_id ps s :
  untrimmable (String.rev <$> ps) (String.rev s) = true -> trim_right ps s = s.
Proof.
  intros H. unfold trim_right. rewrite trim_left_id; [|done].
  apply str_rev_involutive.
Qed.

Lemma trim_both_id ps s :
  untrimmable ps s = true ->
  untrimmable (String.rev <$> ps) (String.rev s) = true -> trim_both ps s = s.
Proof. intros H1 H2. unfold trim_both. by rewrite trim_left_id, trim_right_id. Qed.

Lemma substring_length n m s : String.length (String.substring n m s) <= m.
Proof.
  revert n m. induction s as [|c s IH]; intros [|n] [|m]; simpl; try lia; try apply IH.
  specialize (IH 0 m). lia.
Qed.

(** ** Numbers as texts

    An encoding that can be undone, for concrete instances of encoders. *)
Fixpoint bits (p : positive) : string :=
  match p with
  | xH => "H"
  | xO p => String "O"%char (bits p)
  | xI p => String "I"%char (bits p)
  end.
Fixpoint unbits (s : string) : positive :=
  match s with
  | String "O"%char s => xO (unbits s)
  | String "I"%char s => xI (unbits s)
  | _ => xH
  end.
Lemma unbits_bits p : unbits (bits p) = p.
Proof. induction p as [p IH|p IH|]; simpl; by rewrite ?IH. Qed.
