(* ===== verification/GoValue.v ===== *)
(** * Dynamic Go values

    A record of the pipeline is a [map[string]any]. [GoValue] has the dynamic
    types that decoded JSON and YAML and the code's own literals give: nil,
    bool, the sized integers, both float widths, string, [[]string], [[]any]
    and [map[string]any]. Floats are IEEE 754 values ([spec_float]).

    What the code takes from [fmt] for floats, from [fmt.Sscanf], from [regexp]
    and from [encoding/json] is the class [GoRuntime]: every theorem holds for
    each implementation of it. *)

From Stdlib Require Import SpecFloat String.
From stdpp Require Import strings pretty.
From S2P Require Import Prelude GoString.
Local Open Scope string_scope.

Inductive IntKind :=
| KInt | KInt8 | KInt16 | KInt32 | KInt64
| KUint | KUint8 | KUint16 | KUint32 | KUint64.

#[export] Instance IntKind_eq_dec : EqDecision IntKind.
Proof. solve_decision. Defined.

Inductive GoValue :=
| VNil
| VBool (b : bool)
| VInt (k : IntKind) (z : Z)
| VFloat32 (f : spec_float)
| VFloat64 (f : spec_float)
| VString (s : string)
| VStrings (l : list string)
| VSlice (l : list GoValue)
| VMap (m : gmap string GoValue).

Abbreviation Data := (gmap string GoValue).

(** [reflect.TypeOf]: the dynamic type of a value ([None] for nil). *)
Inductive GoType :=
| TBool | TInt (k : IntKind) | TFloat32 | TFloat64 | TString | TStrings | TSlice | TMap.

#[export] Instance GoType_eq_dec : EqDecision GoType.
Proof. solve_decision. Defined.

Definition TypeOf (v : GoValue) : option GoType :=
  match v with
  | VNil => None
  | VBool _ => Some TBool
  | VInt k _ => Some (TInt k)
  | VFloat32 _ => Some TFloat32
  | VFloat64 _ => Some TFloat64
  | VString _ => Some TString
  | VStrings _ => Some TStrings
  | VSlice _ => Some TSlice
  | VMap _ => Some TMap
  end.

(** ** Floats *)

Definition float64_prec : Z := 53.
Definition float64_emax : Z := 1024.

(** [float64(n)] for an integer [n]: round to nearest, ties to even. *)
Definition float64_of_Z (z : Z) : spec_float :=
  binary_normalize float64_prec float64_emax z 0 false.

(** [float64(f)] for a [float32]: exact. *)
Definition float64_of_float32 (f : spec_float) : spec_float :=
  match f with
  | S754_finite s m e =>
      binary_normalize float64_prec float64_emax (cond_Zopp s (Zpos m)) e s
  | _ => f
  end.

Definition float_lt (a b : spec_float) : bool := SFltb a b.
Definition float_eq (a b : spec_float) : bool := SFeqb a b.

(** ** What the code takes from the standard library *)
Class GoRuntime := {
  fmt_float64 : spec_float -> string;           (* [%v] of a float64 *)
  fmt_float32 : spec_float -> string;           (* [%v] of a float32 *)
  sscanf_float : string -> option spec_float;   (* [fmt.Sscanf(s, "%f", &f)] *)
  regexp_compile : string -> option (string -> bool);
  json_object : string -> option Data           (* [json.Unmarshal] into a map *)
}.

(** ** [fmt.Sprintf("%v", v)] *)
Section Format.
Context `{GoRuntime}.

(** Keys of a map are printed in increasing order. *)
Fixpoint insert_kv (k v : string) (l : list (string * string))
  : list (string * string) :=
  match l with
  | [] => [(k, v)]
  | (k', v') :: l' =>
      if str_lt k' k then (k', v') :: insert_kv k v l' else (k, v) :: l
  end.

Fixpoint fmt_v (v : GoValue) : string :=
  match v with
  | VNil => "<nil>"
  | VBool true => "true"
  | VBool false => "false"
  | VInt _ z => pretty z
  | VFloat32 f => fmt_float32 f
  | VFloat64 f => fmt_float64 f
  | VString s => s
  | VStrings l => "[" +:+ Join l " " +:+ "]"
  | VSlice l => "[" +:+ Join (map fmt_v l) " " +:+ "]"
  | VMap m =>
      let kvs := map_fold (fun k w acc => insert_kv k (fmt_v w) acc) [] m in
      "map[" +:+ Join (map (fun kv => kv.1 +:+ ":" +:+ kv.2) kvs) " " +:+ "]"
  end.

(** evaluator.go, [toString]. *)
Definition toString (v : GoValue) : string :=
  match v with
  | VNil => ""
  | _ => fmt_v v
  end.
End Format.

(** ** [reflect.DeepEqual]

    Values are trees here: two occurrences of one map or slice are compared by
    their contents. *)
Fixpoint DeepEqual (a b : GoValue) {struct a} : bool :=
  match a, b with
  | VNil, VNil => true
  | VBool x, VBool y => Bool.eqb x y
  | VInt k x, VInt k' y => bool_decide (k = k') && Z.eqb x y
  | VFloat32 x, VFloat32 y => float_eq x y
  | VFloat64 x, VFloat64 y => float_eq x y
  | VString x, VString y => String.eqb x y
  | VStrings x, VStrings y => bool_decide (x = y)
  | VSlice x, VSlice y =>
      (fix go (x y : list GoValue) : bool :=
         match x, y with
         | [], [] => true
         | u :: x', w :: y' => DeepEqual u w && go x' y'
         | _, _ => false
         end) x y
  | VMap x, VMap y =>
      (size x =? size y)%nat &&
      map_fold (fun k u acc =>
        acc && match y !! k with Some w => DeepEqual u w | None => false end) true x
  | _, _ => false
  end.

(** A nil, bool, integer, string or [[]string] value: DeepEqual is equality there. *)
Definition is_scalar (v : GoValue) : bool :=
  match v with
  | VNil | VBool _ | VInt _ _ | VString _ | VStrings _ => true
  | _ => false
  end.

Lemma DeepEqual_type a b : DeepEqual a b = true -> TypeOf a = TypeOf b.
Proof.
  destruct a, b; simpl; try done. intros [H _]%andb_true_iff.
  apply bool_decide_eq_true in H. congruence.
Qed.

Lemma DeepEqual_scalar a b :
  is_scalar a = true -> DeepEqual a b = true <-> a = b.
Proof.
  destruct a, b; simpl; intros Ha; try done; try naive_solver.
  - destruct b, b0; naive_solver.
  - rewrite andb_true_iff, bool_decide_eq_true, Z.eqb_eq. naive_solver.
  - rewrite String.eqb_eq. naive_solver.
  - rewrite bool_decide_eq_true. naive_solver.
Qed.

(** ** Type assertions *)
Definition as_string (v : option GoValue) : option string :=
  match v with Some (VString s) => Some s | _ => None end.
Definition as_bool (v : option GoValue) : option bool :=
  match v with Some (VBool b) => Some b | _ => None end.
Definition as_float64 (v : option GoValue) : option spec_float :=
  match v with Some (VFloat64 f) => Some f | _ => None end.
Definition as_int (v : option GoValue) : option Z :=
  match v with Some (VInt KInt z) => Some z | _ => None end.
Definition as_slice (v : option GoValue) : option (list GoValue) :=
  match v with Some (VSlice l) => Some l | _ => None end.
Definition as_map (v : option GoValue) : option Data :=
  match v with Some (VMap m) => Some m | _ => None end.

(** A runtime for concrete evaluations: it prints integral floats, reads
    nothing and takes a pattern for the text to find. *)
Definition demo_runtime : GoRuntime := {|
  fmt_float64 f :=
    match f with
    | S754_finite s m e =>
        if (0 <=? e)%Z then pretty (cond_Zopp s (Zpos m) * 2 ^ e)%Z
        else pretty (Z.quot (cond_Zopp s (Zpos m)) (2 ^ (- e)))
    | _ => "0"
    end;
  fmt_float32 f := "0";
  sscanf_float s := None;
  regexp_compile p :=
    if HasPrefix p "(" then None else Some (fun s => Contains s p);
  json_object s := None
|}.
