(* ===== verification/GoTime.v ===== *)
(** * Durations of Go's package time

    [ParseDuration] as the package documents and implements it: a sign, then
    decimal numbers with an optional fraction, each followed by a unit. A duration is
    a number of nanoseconds in an int64; the sum is kept in a uint64 and every step
    that would pass [2^63] is refused. *)

From Stdlib Require Import String Ascii SpecFloat.
From S2P Require Import Prelude GoString GoValue.
Local Open Scope string_scope.
Local Open Scope Z_scope.

Definition Nanosecond : Z := 1.
Definition Microsecond : Z := 1000.
Definition Millisecond : Z := 1000000.
Definition Second : Z := 1000000000.
Definition Minute : Z := 60 * Second.
Definition Hour : Z := 60 * Minute.

Definition digit (c : ascii) : option Z :=
  let n := Z.of_nat (nat_of_ascii c) in
  if (48 <=? n) && (n <=? 57) then Some (n - 48) else None.

Definition is_dot (c : ascii) : bool := Ascii.eqb c "."%char.

(** The leading digits as a number of at most [2^63]; [None] on overflow. *)
Fixpoint leadingInt (x : Z) (s : string) : option (Z * string) :=
  match s with
  | EmptyString => Some (x, s)
  | String c s' =>
      match digit c with
      | None => Some (x, s)
      | Some d =>
          if 2 ^ 63 / 10 <? x then None
          else let y := x * 10 + d in
               if 2 ^ 63 <? y then None else leadingInt y s'
      end
  end.

(** The digits of a fraction and the power of ten they are scaled by; once the
    number would overflow the remaining digits are skipped. *)
Fixpoint leadingFraction (x : Z) (scale : spec_float) (overflow : bool) (s : string)
  : Z * spec_float * string :=
  match s with
  | EmptyString => (x, scale, s)
  | String c s' =>
      match digit c with
      | None => (x, scale, s)
      | Some d =>
          if overflow then leadingFraction x scale true s'
          else if (2 ^ 63 - 1) / 10 <? x then leadingFraction x scale true s'
          else let y := x * 10 + d in
               if 2 ^ 63 <? y then leadingFraction x scale true s'
               else leadingFraction y
                      (SFmul float64_prec float64_emax scale (float64_of_Z 10)) false s'
      end
  end.

(** The unit: everything up to the next digit or dot. *)
Fixpoint take_unit (s : string) : string * string :=
  match s with
  | EmptyString => ("", "")
  | String c s' =>
      if is_dot c then ("", s)
      else match digit c with
           | Some _ => ("", s)
           | None => let '(u, r) := take_unit s' in (String c u, r)
           end
  end.

(** The bytes of the two micro signs, U+00B5 and U+03BC. *)
Definition micro_sign : string := bytes [194; 181]%nat.
Definition greek_mu : string := bytes [206; 188]%nat.

Definition unitMap (u : string) : option Z :=
  if String.eqb u "ns" then Some Nanosecond
  else if String.eqb u "us" then Some Microsecond
  else if String.eqb u (micro_sign +:+ "s") then Some Microsecond
  else if String.eqb u (greek_mu +:+ "s") then Some Microsecond
  else if String.eqb u "ms" then Some Millisecond
  else if String.eqb u "s" then Some Second
  else if String.eqb u "m" then Some Minute
  else if String.eqb u "h" then Some Hour
  else None.

(** [uint64(f)] of a finite non-negative float. *)
Definition uint64_of_float (f : spec_float) : Z :=
  match f with
  | S754_finite _ m e => if 0 <=? e then Zpos m * 2 ^ e else Zpos m / 2 ^ (- e)
  | _ => 0
  end.

(** One number with its unit: its nanoseconds and the rest of the text. *)
Definition parse_component (s : string) : option (Z * string) :=
  match s with
  | EmptyString => None
  | String c _ =>
      if negb (is_dot c || match digit c with Some _ => true | None => false end) then None
      else
        match leadingInt 0 s with
        | None => None
        | Some (v, s1) =>
            let pre := negb (String.length s =? String.length s1)%nat in
            let '(f, scale, s2, post) :=
              match s1 with
              | String c1 s1' =>
                  if is_dot c1 then
                    let '(f, scale, s2) := leadingFraction 0 (float64_of_Z 1) false s1' in
                    (f, scale, s2, negb (String.length s1' =? String.length s2)%nat)
                  else (0, float64_of_Z 1, s1, false)
              | EmptyString => (0, float64_of_Z 1, s1, false)
              end in
            if negb pre && negb post then None
            else
              let '(u, s3) := take_unit s2 in
              match unitMap u with
              | None => None
              | Some unit_ =>
                  if 2 ^ 63 / unit_ <? v then None
                  else
                    let v := v * unit_ in
                    let v := if 0 <? f
                             then v + uint64_of_float (SFmul float64_prec float64_emax
                                    (float64_of_Z f)
                                    (SFdiv float64_prec float64_emax (float64_of_Z unit_) scale))
                             else v in
                    if 2 ^ 63 <? v then None else Some (v, s3)
              end
        end
  end.

Fixpoint parse_components (fuel : nat) (d : Z) (s : string) : option Z :=
  match s, fuel with
  | EmptyString, _ => Some d
  | _, O => None
  | _, S fuel' =>
      match parse_component s with
      | None => None
      | Some (v, s') => if 2 ^ 63 <? d + v then None else parse_components fuel' (d + v) s'
      end
  end.

Definition ParseDuration (s : string) : option Z :=
  let '(neg, t) := match s with
                   | String c s' => if Ascii.eqb c "-"%char then (true, s')
                                    else if Ascii.eqb c "+"%char then (false, s')
                                    else (false, s)
                   | EmptyString => (false, s)
                   end in
  if String.eqb t "0" then Some 0
  else if String.eqb t "" then None
  else match parse_components (String.length t) 0 t with
       | None => None
       | Some d => if neg then Some (- d)
                   else if 2 ^ 63 - 1 <? d then None else Some d
       end.

Example duration_day : ParseDuration "24h" = Some (24 * Hour).
Proof. vm_compute. reflexivity. Qed.
Example duration_mixed : ParseDuration "-1h30m2.5s" = Some (- (Hour + 30 * Minute + 2500 * Millisecond)).
Proof. vm_compute. reflexivity. Qed.
Example duration_no_unit : ParseDuration "30" = None.
Proof. vm_compute. reflexivity. Qed.
Example duration_too_long : ParseDuration "3000000h" = None.
Proof. vm_compute. reflexivity. Qed.
