(* ===== verification/Filter.v ===== *)
(** * Filters: the model (pipeline-core/pkg/filter/model.go)

    Conditions, condition groups and filter nodes, their constructors and the
    validation that the GUI and the YAML loader run. A node carries a type tag
    and two pointers, as in the source: a tag can disagree with the pointers,
    and [Validate] is what rules that out. *)

From Stdlib Require Import String.
From S2P Require Import Prelude GoString GoValue.
Local Open Scope string_scope.

(** ** Operators: [type Operator string] *)
Definition Operator := string.
Definition OpEqual : Operator := "eq".
Definition OpNotEqual : Operator := "neq".
Definition OpGreaterThan : Operator := "gt".
Definition OpGreaterOrEqual : Operator := "gte".
Definition OpLessThan : Operator := "lt".
Definition OpLessOrEqual : Operator := "lte".
Definition OpContains : Operator := "contains".
Definition OpStartsWith : Operator := "startswith".
Definition OpEndsWith : Operator := "endswith".
Definition OpRegex : Operator := "regex".
Definition OpExists : Operator := "exists".
Definition OpNotExists : Operator := "notexists".
Definition OpIn : Operator := "in".
Definition OpNotIn : Operator := "notin".
Definition OpIsNull : Operator := "null".
Definition OpIsNotNull : Operator := "notnull".

Definition LogicalOperator := string.
Definition LogicalAnd : LogicalOperator := "and".
Definition LogicalOr : LogicalOperator := "or".

(** ** Data *)
Record Condition := MkCondition {
  CondID : string;
  Field : string;
  Op : Operator;
  Value : GoValue
}.

Inductive FilterNode :=
| MkFilterNode (Type_ : string) (Condition_ : option Condition)
    (Group_ : option ConditionGroup)
with ConditionGroup :=
| MkConditionGroup (ID : string) (Operator_ : LogicalOperator)
    (Conditions : list FilterNode).

Definition NodeType (n : FilterNode) : string :=
  let 'MkFilterNode t _ _ := n in t.
Definition NodeCondition (n : FilterNode) : option Condition :=
  let 'MkFilterNode _ c _ := n in c.
Definition NodeGroup (n : FilterNode) : option ConditionGroup :=
  let 'MkFilterNode _ _ g := n in g.
Definition GroupOperator (g : ConditionGroup) : LogicalOperator :=
  let 'MkConditionGroup _ o _ := g in o.
Definition GroupConditions (g : ConditionGroup) : list FilterNode :=
  let 'MkConditionGroup _ _ cs := g in cs.

Record Filter := MkFilter {
  Version : string;
  Root : option FilterNode;
  Expression : string
}.

(** ** Constructors *)

Definition NewCondition (field : string) (op : Operator) (value : GoValue)
  : FilterNode :=
  MkFilterNode "condition" (Some (MkCondition "" field op value)) None.

Definition NewGroup (op : LogicalOperator) (conditions : list FilterNode)
  : FilterNode :=
  MkFilterNode "group" None (Some (MkConditionGroup "" op conditions)).

Definition And (conditions : list FilterNode) : FilterNode :=
  NewGroup LogicalAnd conditions.
Definition Or (conditions : list FilterNode) : FilterNode :=
  NewGroup LogicalOr conditions.

(** ** Validation *)

Inductive FilterError :=
| ErrBothExpressionAndRoot
| ErrNeitherExpressionNorRoot
| ErrNoCondition                       (* type is condition, pointer is nil *)
| ErrNoGroup                           (* type is group, pointer is nil *)
| ErrNodeType (t : string)
| ErrFieldRequired
| ErrOperatorRequired
| ErrValueRequired (op : Operator)
| ErrLogicalOperator (op : LogicalOperator)
| ErrEmptyGroup
| ErrAtCondition (i : nat) (e : FilterError).

Definition noValueOps (op : Operator) : bool :=
  (op =? OpExists) || (op =? OpNotExists) || (op =? OpIsNull) || (op =? OpIsNotNull).

Definition is_nil (v : GoValue) : bool :=
  match v with VNil => true | _ => false end.

Definition ConditionValidate (c : Condition) : res FilterError unit :=
  if Field c =? "" then Err ErrFieldRequired
  else if Op c =? "" then Err ErrOperatorRequired
  else if negb (noValueOps (Op c)) && is_nil (Value c) then Err (ErrValueRequired (Op c))
  else Ok tt.

(** The methods [FilterNode.Validate] and [ConditionGroup.Validate]. *)
Fixpoint NodeValidate (n : FilterNode) : res FilterError unit :=
  match n with
  | MkFilterNode t c g =>
      if t =? "condition" then
        match c with
        | None => Err ErrNoCondition
        | Some c' => ConditionValidate c'
        end
      else if t =? "group" then
        match g with
        | None => Err ErrNoGroup
        | Some g' => GroupValidate g'
        end
      else Err (ErrNodeType t)
  end
with GroupValidate (g : ConditionGroup) : res FilterError unit :=
  match g with
  | MkConditionGroup _ op cs =>
      if negb (op =? LogicalAnd) && negb (op =? LogicalOr) then
        Err (ErrLogicalOperator op)
      else
        match cs with
        | [] => Err ErrEmptyGroup
        | _ =>
            for_each_i (fun i c => wrap_err (ErrAtCondition i) (NodeValidate c)) 0 cs
        end
  end.

Definition FilterValidate (f : Filter) : res FilterError unit :=
  let has_root := bool_decide (is_Some (Root f)) in
  if negb (Expression f =? "") && has_root then Err ErrBothExpressionAndRoot
  else if (Expression f =? "") && negb has_root then Err ErrNeitherExpressionNorRoot
  else match Root f with
       | Some r => NodeValidate r
       | None => Ok tt
       end.

(** ** The configuration wrapper [FilterConfig] *)

(** A YAML or JSON document is either a scalar or a structured object; decoding
    the object is the YAML or JSON library's work. *)
Inductive ConfigNode :=
| ScalarNode (s : string)
| ObjectNode (f : Filter)
| InvalidNode.

Record FilterConfig := MkFilterConfig {
  fc_filter : option Filter;
  fc_raw : string
}.

Definition Unmarshal (fc : FilterConfig) (n : ConfigNode) : res unit FilterConfig :=
  match n with
  | ScalarNode s => Ok (MkFilterConfig (Some (MkFilter "" None s)) s)
  | ObjectNode f => Ok (MkFilterConfig (Some f) (fc_raw fc))
  | InvalidNode => Err tt
  end.

Definition MarshalYAML (fc : FilterConfig) : option ConfigNode :=
  match fc_filter fc with
  | None => None
  | Some f =>
      match Root f with
      | None => if negb (Expression f =? "") then Some (ScalarNode (Expression f))
                else Some (ObjectNode f)
      | Some _ => Some (ObjectNode f)
      end
  end.

Definition IsStructured (fc : FilterConfig) : bool :=
  match fc_filter fc with
  | Some f => match Root f with Some _ => true | None => false end
  | None => false
  end.

Definition GetExpression (fc : FilterConfig) : string :=
  match fc_filter fc with
  | Some f => Expression f
  | None => fc_raw fc
  end.

(** ** Induction over nodes *)

Section NodeInd.
Context (P : FilterNode -> Prop).
Context (Hnode : forall t c g,
  (forall id op cs, g = Some (MkConditionGroup id op cs) -> Forall P cs) ->
  P (MkFilterNode t c g)).

Fixpoint node_ind (n : FilterNode) : P n.
Proof.
  destruct n as [t c [[id op cs]|]]; apply Hnode; [|done].
  intros id' op' cs' [= <- <- <-].
  induction cs as [|n cs IH]; constructor; [apply node_ind | apply IH].
Defined.
End NodeInd.

(** ** What a valid node looks like *)

(** The tags agree with the pointers, groups are non-empty and carry a known
    connective. *)
Inductive valid_node : FilterNode -> Prop :=
| valid_condition c g :
    Field c <> "" -> Op c <> "" ->
    (noValueOps (Op c) = true \/ Value c <> VNil) ->
    valid_node (MkFilterNode "condition" (Some c) g)
| valid_group c id op cs :
    (op = LogicalAnd \/ op = LogicalOr) -> cs <> [] -> Forall valid_node cs ->
    valid_node (MkFilterNode "group" c (Some (MkConditionGroup id op cs))).

Lemma ConditionValidate_ok c :
  ConditionValidate c = Ok tt <->
  Field c <> "" /\ Op c <> "" /\ (noValueOps (Op c) = true \/ Value c <> VNil).
Proof.
  unfold ConditionValidate.
  destruct (String.eqb_spec (Field c) ""); [naive_solver|].
  destruct (String.eqb_spec (Op c) ""); [naive_solver|].
  destruct (noValueOps (Op c)), (Value c); simpl; naive_solver.
Qed.

Lemma GroupValidate_ok id op cs :
  GroupValidate (MkConditionGroup id op cs) = Ok tt <->
  (op = LogicalAnd \/ op = LogicalOr) /\ cs <> [] /\
  Forall (fun c => NodeValidate c = Ok tt) cs.
Proof.
  cbn [GroupValidate].
  rewrite <- (for_each_i_ok
    (fun i c => wrap_err (ErrAtCondition i) (NodeValidate c)) _ 0 cs)
    by (intros; apply wrap_err_ok).
  destruct (String.eqb_spec op LogicalAnd), (String.eqb_spec op LogicalOr);
    cbn [negb andb]; destruct cs; naive_solver.
Qed.

Lemma NodeValidate_valid n : NodeValidate n = Ok tt <-> valid_node n.
Proof.
  induction n as [t c g IH] using node_ind.
  cbn [NodeValidate].
  destruct (String.eqb_spec t "condition") as [->|Ht].
  { destruct c as [c|]; [rewrite ConditionValidate_ok|]; split; try done.
    - intros (?&?&?). by constructor.
    - inversion 1; subst; done.
    - inversion 1. }
  destruct (String.eqb_spec t "group") as [->|Ht'].
  - destruct g as [[id op cs]|]; [|split; [done|inversion 1]].
    fold GroupValidate. rewrite GroupValidate_ok.
    specialize (IH id op cs eq_refl).
    assert (Forall (fun n => NodeValidate n = Ok tt) cs <-> Forall valid_node cs) as ->.
    { rewrite !Forall_forall. rewrite Forall_forall in IH.
      split; intros H n Hn; by apply IH, H. }
    split; [intros (?&?&?); by constructor | inversion 1; subst; eauto].
  - split; [done|]. inversion 1; subst; done.
Qed.

(** A node never panics on validation. *)
Lemma NodeValidate_no_panic n : NodeValidate n <> Panic.
Proof.
  induction n as [t c g IH] using node_ind. cbn [NodeValidate].
  destruct (t =? "condition").
  { destruct c as [c|]; [|done]. unfold ConditionValidate. by repeat case_match. }
  destruct (t =? "group"); [|done].
  destruct g as [[id op cs]|]; [|done].
  specialize (IH id op cs eq_refl). cbn [GroupValidate].
  destruct (negb (op =? LogicalAnd) && negb (op =? LogicalOr)); [done|].
  destruct cs as [|n cs]; [done|]. apply for_each_i_no_panic.
  eapply Forall_impl; [exact IH|]. by intros n' Hn' i H%wrap_err_panic.
Qed.
