(* ===== verification/FilterEval.v ===== *)
(** * Filters: the evaluator (pipeline-core/pkg/filter/evaluator.go)

    [Evaluate] on structured filters and on the string expressions kept for
    compatibility. A nil [Condition] or [Group] pointer behind a matching type
    tag is a panic, as in the source. *)

From Stdlib Require Import String SpecFloat.
From S2P Require Import Prelude GoString GoValue Filter.
Local Open Scope string_scope.

Inductive EvalError :=
| EvNilFilter
| EvNodeType (t : string)
| EvLogicalOperator (op : LogicalOperator)
| EvBadRegexp
| EvUnsupportedOperator (op : Operator)
| EvUnparsable (expr : string)
| EvOutOfFuel.                       (* of the model's recursion, not of the code *)

(** ** Field access: [getNestedValue] *)

(** The loop over the parts of a dotted path; empty parts are skipped. *)
Fixpoint walk_path (parts : list string) (current : GoValue) : option GoValue :=
  match parts with
  | [] => Some current
  | part :: parts' =>
      if part =? "" then walk_path parts' current
      else match current with
           | VMap m =>
               match m !! part with
               | Some v => walk_path parts' v
               | None => None
               end
           | _ => None
           end
  end.

Definition getNestedValue (data : Data) (field : string) : option GoValue :=
  walk_path (Split field ".") (VMap data).

(** ** Loops of [evaluateGroup] and [evaluateExpression] *)

(** Stop at the first error or at the first [false]. *)
Definition eval_all {E A} (f : A -> res E bool) : list A -> res E bool :=
  fix loop l :=
    match l with
    | [] => Ok true
    | x :: l' => f x ≫= fun b : bool => if negb b then Ok false else loop l'
    end.

(** Stop at the first error or at the first [true]. *)
Definition eval_any {E A} (f : A -> res E bool) : list A -> res E bool :=
  fix loop l :=
    match l with
    | [] => Ok false
    | x :: l' => f x ≫= fun b : bool => if b then Ok true else loop l'
    end.

Section Evaluator.
Context `{GoRuntime}.

(** ** Comparisons *)

Definition equals (a b : GoValue) : bool :=
  if bool_decide (TypeOf a <> TypeOf b) then toString a =? toString b
  else DeepEqual a b.

Definition toFloat64 (v : GoValue) : option spec_float :=
  match v with
  | VInt KInt n | VInt KInt32 n | VInt KInt64 n => Some (float64_of_Z n)
  | VFloat32 f => Some (float64_of_float32 f)
  | VFloat64 f => Some f
  | VString s => sscanf_float s
  | _ => None
  end.

Definition compareNumbers (a b : GoValue) : Z :=
  match toFloat64 a, toFloat64 b with
  | Some x, Some y => if float_lt x y then -1 else if float_lt y x then 1 else 0
  | _, _ =>
      if str_lt (toString a) (toString b) then -1
      else if str_lt (toString b) (toString a) then 1 else 0
  end.

Definition inArray (value arr : GoValue) : bool :=
  match arr with
  | VSlice a => existsb (fun item => equals value item) a
  | VStrings a => existsb (fun item => toString value =? item) a
  | _ => false
  end.

Definition compare (fieldValue : GoValue) (op : Operator) (compareValue : GoValue)
  : res EvalError bool :=
  if op =? OpEqual then Ok (equals fieldValue compareValue)
  else if op =? OpNotEqual then Ok (negb (equals fieldValue compareValue))
  else if op =? OpGreaterThan then Ok (0 <? compareNumbers fieldValue compareValue)%Z
  else if op =? OpGreaterOrEqual then Ok (0 <=? compareNumbers fieldValue compareValue)%Z
  else if op =? OpLessThan then Ok (compareNumbers fieldValue compareValue <? 0)%Z
  else if op =? OpLessOrEqual then Ok (compareNumbers fieldValue compareValue <=? 0)%Z
  else if op =? OpContains then Ok (Contains (toString fieldValue) (toString compareValue))
  else if op =? OpStartsWith then Ok (HasPrefix (toString fieldValue) (toString compareValue))
  else if op =? OpEndsWith then Ok (HasSuffix (toString fieldValue) (toString compareValue))
  else if op =? OpRegex then
    match regexp_compile (toString compareValue) with
    | None => Err EvBadRegexp
    | Some re => Ok (re (toString fieldValue))
    end
  else if op =? OpIn then Ok (inArray fieldValue compareValue)
  else if op =? OpNotIn then Ok (negb (inArray fieldValue compareValue))
  else Err (EvUnsupportedOperator op).

(** ** Structured filters *)

Definition evaluateCondition (cond : option Condition) (data : Data)
  : res EvalError bool :=
  match cond with
  | None => Panic
  | Some c =>
      let fv := getNestedValue data (Field c) in
      let exists_ := bool_decide (is_Some fv) in
      if Op c =? OpExists then Ok exists_
      else if Op c =? OpNotExists then Ok (negb exists_)
      else if Op c =? OpIsNull then
        Ok (match fv with Some v => is_nil v | None => true end)
      else if Op c =? OpIsNotNull then
        Ok (match fv with Some v => negb (is_nil v) | None => false end)
      else match fv with
           | None => Ok false
           | Some v => compare v (Op c) (Value c)
           end
  end.

Fixpoint evaluateNode (node : FilterNode) (data : Data) : res EvalError bool :=
  match node with
  | MkFilterNode t c g =>
      if t =? "condition" then evaluateCondition c data
      else if t =? "group" then
        match g with
        | None => Panic
        | Some g' => evaluateGroup g' data
        end
      else Err (EvNodeType t)
  end
with evaluateGroup (group : ConditionGroup) (data : Data) : res EvalError bool :=
  match group with
  | MkConditionGroup _ op cs =>
      match cs with
      | [] => Ok true
      | _ =>
          if op =? LogicalAnd then eval_all (fun n => evaluateNode n data) cs
          else if op =? LogicalOr then eval_any (fun n => evaluateNode n data) cs
          else Err (EvLogicalOperator op)
      end
  end.

(** ** String expressions *)

Definition expr_operators : list (string * Operator) :=
  [("~=", OpRegex); ("!=", OpNotEqual); (">=", OpGreaterOrEqual);
   ("<=", OpLessOrEqual); ("==", OpEqual); (">", OpGreaterThan); ("<", OpLessThan)].

(** The double quote is [ascii 34]. *)
Definition quotes : string := "'" +:+ bytes [34].

Fixpoint evaluateOperators (ops : list (string * Operator)) (expr : string)
  (data : Data) : res EvalError bool :=
  match ops with
  | [] => Err (EvUnparsable expr)
  | (symbol, op) :: ops' =>
      match SplitN2 expr symbol with
      | [p0; p1] =>
          let field := TrimPrefix (TrimSpace p0) "." in
          let value := Trim (TrimSpace p1) quotes in
          match getNestedValue data field with
          | None => Ok false
          | Some v => compare v op (VString value)
          end
      | _ => evaluateOperators ops' expr data
      end
  end.

Definition evaluateSingleExpression (expr : string) (data : Data)
  : res EvalError bool :=
  let expr := TrimSpace expr in
  if HasSuffix expr " exists" then
    let field := TrimPrefix (TrimSpace (TrimSuffix expr " exists")) "." in
    Ok (bool_decide (is_Some (getNestedValue data field)))
  else evaluateOperators expr_operators expr data.

Fixpoint evaluateExpression (fuel : nat) (expr : string) (data : Data)
  : res EvalError bool :=
  match fuel with
  | O => Err EvOutOfFuel
  | S fuel' =>
      let expr := TrimSpace expr in
      if Contains expr "&&" then
        eval_all (fun part => evaluateExpression fuel' (TrimSpace part) data)
          (Split expr "&&")
      else if Contains expr "||" then
        eval_any (fun part => evaluateExpression fuel' (TrimSpace part) data)
          (Split expr "||")
      else evaluateSingleExpression expr data
  end.

(** Splitting at the conjunctions, then at the disjunctions, leaves single
    conditions: three levels are enough (see [evaluateExpression_total]). *)
Definition expr_fuel : nat := 3.

(** [NewEvaluator] followed by [Evaluate]. *)
Definition Evaluate (f : option Filter) (data : Data) : res EvalError bool :=
  match f with
  | None => Err EvNilFilter
  | Some f =>
      match Root f with
      | Some r => evaluateNode r data
      | None =>
          if negb (Expression f =? "") then
            evaluateExpression expr_fuel (Expression f) data
          else Ok true
      end
  end.
End Evaluator.

(** ** Lemmas on the loops *)

Section Loops.
Context {E A : Type} (f : A -> res E bool).

Lemma eval_all_ext (g : A -> res E bool) l :
  Forall (fun x => f x = g x) l -> eval_all f l = eval_all g l.
Proof. induction 1 as [|x l Hx _ IH]; simpl; [done|]. by rewrite Hx, IH. Qed.

Lemma eval_any_ext (g : A -> res E bool) l :
  Forall (fun x => f x = g x) l -> eval_any f l = eval_any g l.
Proof. induction 1 as [|x l Hx _ IH]; simpl; [done|]. by rewrite Hx, IH. Qed.

(** When no element errs, the loops are the boolean quantifiers. *)
Lemma eval_all_total (g : A -> bool) l :
  Forall (fun x => f x = Ok (g x)) l -> eval_all f l = Ok (forallb g l).
Proof.
  induction 1 as [|x l Hx _ IH]; simpl; [done|].
  rewrite Hx, IH. simpl. by destruct (g x).
Qed.

Lemma eval_any_total (g : A -> bool) l :
  Forall (fun x => f x = Ok (g x)) l -> eval_any f l = Ok (existsb g l).
Proof.
  induction 1 as [|x l Hx _ IH]; simpl; [done|].
  rewrite Hx, IH. simpl. by destruct (g x).
Qed.

Lemma eval_all_no_panic l :
  Forall (fun x => f x <> Panic) l -> eval_all f l <> Panic.
Proof.
  induction 1 as [|x l Hx _ IH]; simpl; [done|].
  destruct (f x) as [[]| |]; simpl; [exact IH | done | done | congruence].
Qed.

Lemma eval_any_no_panic l :
  Forall (fun x => f x <> Panic) l -> eval_any f l <> Panic.
Proof.
  induction 1 as [|x l Hx _ IH]; simpl; [done|].
  destruct (f x) as [[]| |]; simpl; [done | exact IH | done | congruence].
Qed.

Lemma eval_all_err (e : E) l :
  Forall (fun x => f x <> Err e) l -> eval_all f l <> Err e.
Proof.
  induction 1 as [|x l Hx _ IH]; simpl; [done|].
  destruct (f x) as [[]| |]; simpl; [exact IH | done | congruence | done].
Qed.

Lemma eval_any_err (e : E) l :
  Forall (fun x => f x <> Err e) l -> eval_any f l <> Err e.
Proof.
  induction 1 as [|x l Hx _ IH]; simpl; [done|].
  destruct (f x) as [[]| |]; simpl; [done | exact IH | congruence | done].
Qed.
End Loops.

(** De Morgan for the loops: the dual loop over negated answers. *)
Lemma eval_dual {E A B} (f : A -> res E bool) (g : B -> res E bool) l l' :
  Forall2 (fun x y => exists b, f x = Ok b /\ g y = Ok (negb b)) l l' ->
  (exists b, eval_all f l = Ok b /\ eval_any g l' = Ok (negb b)) /\
  (exists b, eval_any f l = Ok b /\ eval_all g l' = Ok (negb b)).
Proof.
  induction 1 as [|x y l l' (b & Hx & Hy) _ [(b1 & IH1 & IH1') (b2 & IH2 & IH2')]];
    simpl; [split; eexists; eauto|].
  rewrite Hx, Hy. simpl. destruct b; simpl; split; eauto.
Qed.

Section Properties.
Context `{GoRuntime}.

Lemma compare_no_panic v op w : compare v op w <> Panic.
Proof. unfold compare. by repeat case_match. Qed.

Lemma evaluateCondition_no_panic c data : evaluateCondition (Some c) data <> Panic.
Proof.
  unfold evaluateCondition.
  repeat (case_match; [done|]). case_match; [apply compare_no_panic | done].
Qed.

Lemma evaluateNode_valid n data : valid_node n -> evaluateNode n data <> Panic.
Proof.
  induction n as [t c g IH] using node_ind. inversion 1; subst; cbn [evaluateNode].
  - apply evaluateCondition_no_panic.
  - simpl. destruct cs as [|n cs]; [done|].
    assert (Forall (fun n => evaluateNode n data <> Panic) (n :: cs)) as Hall.
    { apply Forall_forall. intros n' Hn'.
      specialize (IH _ _ _ eq_refl). rewrite Forall_forall in IH.
      apply IH; [done|].
      match goal with Hv : Forall valid_node _ |- _ => rewrite Forall_forall in Hv end.
      eauto. }
    destruct (op =? LogicalAnd); [by apply eval_all_no_panic|].
    destruct (op =? LogicalOr); [by apply eval_any_no_panic | done].
Qed.

Lemma evaluateSingle_no_fuel e data : 
  evaluateSingleExpression e data <> Err EvOutOfFuel /\
  evaluateSingleExpression e data <> Panic.
Proof.
  unfold evaluateSingleExpression.
  destruct (HasSuffix _ _); [done|]. generalize expr_operators as ops.
  induction ops as [|[s o] ops IH]; simpl; [done|].
  destruct (SplitN2 (TrimSpace e) s) as [|p0 [|p1 [|]]]; try exact IH.
  destruct (getNestedValue _ _); [|done]. unfold compare. by repeat case_match.
Qed.

(** One more unit of fuel changes nothing once the expression is split as far
    as it can be. *)
Lemma evaluateExpression_atom n e data :
  Contains e "&&" = false -> Contains e "||" = false ->
  evaluateExpression (S n) e data = evaluateSingleExpression (TrimSpace e) data.
Proof.
  intros Ha Ho. simpl.
  rewrite (Contains_mono _ _ _ (TrimSpace_infix e) Ha).
  by rewrite (Contains_mono _ _ _ (TrimSpace_infix e) Ho).
Qed.

Lemma part_contains s sep other p :
  sep <> "" -> p ∈ Split (TrimSpace s) sep ->
  (Contains (TrimSpace p) sep = false) /\
  (Contains (TrimSpace s) other = false -> Contains (TrimSpace p) other = false).
Proof.
  intros Hsep Hp. apply Split_parts in Hp as [Hi Hc]; [|done]. split.
  - eapply Contains_mono; [apply TrimSpace_infix | done].
  - apply Contains_mono. etrans; [apply TrimSpace_infix | done].
Qed.

Lemma evaluateExpression_or n e data :
  Contains e "&&" = false ->
  evaluateExpression (S (S n)) e data = evaluateExpression 2 e data.
Proof.
  intros Ha. cbn [evaluateExpression].
  rewrite (Contains_mono _ _ _ (TrimSpace_infix e) Ha).
  destruct (Contains (TrimSpace e) "||") eqn:Ho; [|done].
  apply eval_any_ext, Forall_forall. intros p Hp.
  destruct (part_contains e "||" "&&" p) as [Hp1 Hp2]; [done..|].
  rewrite (Contains_mono _ _ _ (TrimSpace_infix e) Ha) in Hp2.
  rewrite (Contains_mono _ _ _ (TrimSpace_infix _) Hp1).
  by rewrite (Contains_mono _ _ _ (TrimSpace_infix _) (Hp2 eq_refl)).
Qed.

Lemma evaluateExpression_fuel_irrel n e data :
  evaluateExpression (3 + n) e data = evaluateExpression 3 e data.
Proof.
  change (3 + n) with (S (S (S n))).
  cbn [evaluateExpression].
  destruct (Contains (TrimSpace e) "&&") eqn:Ha; [|].
  - apply eval_all_ext, Forall_forall. intros p Hp.
    destruct (part_contains e "&&" "||" p) as [Hp1 _]; [done..|].
    apply (evaluateExpression_or n). done.
  - destruct (Contains (TrimSpace e) "||") eqn:Ho; [|done].
    apply eval_any_ext, Forall_forall. intros p Hp.
    destruct (part_contains e "||" "&&" p) as [Hp1 Hp2]; [done..|].
    apply (evaluateExpression_or n). by apply Hp2.
Qed.

Definition settled (r : res EvalError bool) : Prop :=
  r <> Err EvOutOfFuel /\ r <> Panic.

Lemma settled_all {A} (f : A -> res EvalError bool) l :
  Forall (fun x => settled (f x)) l -> settled (eval_all f l).
Proof.
  intros Hl. split; [apply eval_all_err | apply eval_all_no_panic];
    eapply Forall_impl; [exact Hl | by intros x [] | exact Hl | by intros x []].
Qed.

Lemma settled_any {A} (f : A -> res EvalError bool) l :
  Forall (fun x => settled (f x)) l -> settled (eval_any f l).
Proof.
  intros Hl. split; [apply eval_any_err | apply eval_any_no_panic];
    eapply Forall_impl; [exact Hl | by intros x [] | exact Hl | by intros x []].
Qed.

Lemma evaluateExpression_or_settled e data :
  Contains e "&&" = false -> settled (evaluateExpression 2 e data).
Proof.
  intros Ha. cbn [evaluateExpression].
  rewrite (Contains_mono _ _ _ (TrimSpace_infix e) Ha).
  destruct (Contains (TrimSpace e) "||") eqn:Ho; [|apply evaluateSingle_no_fuel].
  apply settled_any, Forall_forall. intros p Hp.
  destruct (part_contains e "||" "&&" p) as [Hp1 Hp2]; [done..|].
  rewrite (Contains_mono _ _ _ (TrimSpace_infix e) Ha) in Hp2.
  rewrite (Contains_mono _ _ _ (TrimSpace_infix _) Hp1).
  rewrite (Contains_mono _ _ _ (TrimSpace_infix _) (Hp2 eq_refl)).
  apply evaluateSingle_no_fuel.
Qed.

Lemma evaluateExpression_settled e data :
  settled (evaluateExpression expr_fuel e data).
Proof.
  unfold expr_fuel. cbn [evaluateExpression].
  destruct (Contains (TrimSpace e) "&&") eqn:Ha.
  - apply settled_all, Forall_forall. intros p Hp.
    destruct (part_contains e "&&" "||" p) as [Hp1 _]; [done..|].
    by apply evaluateExpression_or_settled.
  - destruct (Contains (TrimSpace e) "||") eqn:Ho; [|apply evaluateSingle_no_fuel].
    apply settled_any, Forall_forall. intros p Hp.
    destruct (part_contains e "||" "&&" p) as [Hp1 Hp2]; [done..|].
    apply evaluateExpression_or_settled. by apply Hp2.
Qed.

(** ** Negation of a structured filter *)

Definition complement (op : Operator) : option Operator :=
  if op =? OpEqual then Some OpNotEqual
  else if op =? OpNotEqual then Some OpEqual
  else if op =? OpGreaterThan then Some OpLessOrEqual
  else if op =? OpLessOrEqual then Some OpGreaterThan
  else if op =? OpLessThan then Some OpGreaterOrEqual
  else if op =? OpGreaterOrEqual then Some OpLessThan
  else if op =? OpIn then Some OpNotIn
  else if op =? OpNotIn then Some OpIn
  else if op =? OpExists then Some OpNotExists
  else if op =? OpNotExists then Some OpExists
  else if op =? OpIsNull then Some OpIsNotNull
  else if op =? OpIsNotNull then Some OpIsNull
  else None.

(** [dual data n n']: [n'] has the connectives of [n] exchanged and its
    operators complemented, and every compared field is in [data]. *)
Inductive dual (data : Data) : FilterNode -> FilterNode -> Prop :=
| dual_condition c c' g g' :
    Field c' = Field c -> Value c' = Value c ->
    complement (Op c) = Some (Op c') ->
    (noValueOps (Op c) = true \/ is_Some (getNestedValue data (Field c))) ->
    dual data (MkFilterNode "condition" (Some c) g)
      (MkFilterNode "condition" (Some c') g')
| dual_group c c' id id' op op' cs cs' :
    (op, op') ∈ [(LogicalAnd, LogicalOr); (LogicalOr, LogicalAnd)] ->
    cs <> [] -> Forall2 (dual data) cs cs' ->
    dual data (MkFilterNode "group" c (Some (MkConditionGroup id op cs)))
      (MkFilterNode "group" c' (Some (MkConditionGroup id' op' cs'))).

Lemma evaluateCondition_dual data c c' :
  Field c' = Field c -> Value c' = Value c -> complement (Op c) = Some (Op c') ->
  (noValueOps (Op c) = true \/ is_Some (getNestedValue data (Field c))) ->
  exists b, evaluateCondition (Some c) data = Ok b /\
    evaluateCondition (Some c') data = Ok (negb b).
Proof.
  intros HF HV Hop Hex. unfold evaluateCondition. rewrite HF, HV.
  destruct c as [id fld op val], c' as [id' fld' op' val']; simpl in *.
  unfold complement in Hop.
  repeat match type of Hop with
  | (if (op =? ?s) then _ else _) = _ =>
      destruct (String.eqb_spec op s) as [->|?]; [injection Hop as <-; simpl|]
  end; [..|done].
  all: destruct (getNestedValue data fld) as [v|];
    [|try (destruct Hex as [Hex|[? Hex]]; [done | discriminate Hex])];
    (eexists; split; [reflexivity | f_equal]);
    rewrite ?negb_involutive; try reflexivity.
  all: cbn; try by case_bool_decide.
  all: repeat match goal with |- context [(?a <? ?b)%Z] => destruct (Z.ltb_spec a b) end;
    repeat match goal with |- context [(?a <=? ?b)%Z] => destruct (Z.leb_spec a b) end;
    simpl; try reflexivity; lia.
Qed.

Lemma evaluateNode_dual data n n' :
  dual data n n' ->
  exists b, evaluateNode n data = Ok b /\ evaluateNode n' data = Ok (negb b).
Proof.
  revert n'. induction n as [t c g IH] using node_ind. intros n'.
  inversion 1 as [? ? ? ? HF HV Hop Hex | ? ? ? ? op op' cs cs' Hops Hne Hcs]; subst.
  { simpl. by apply evaluateCondition_dual. }
  specialize (IH _ _ _ eq_refl).
  assert (Forall2 (fun x y => exists b,
    evaluateNode x data = Ok b /\ evaluateNode y data = Ok (negb b)) cs cs') as H2.
  { clear -IH Hcs. induction Hcs; constructor; decompose_Forall; eauto. }
  apply eval_dual in H2 as [Hall Hany].
  destruct Hcs as [|x y cs cs' Hxy Hcs]; [done|].
  apply list_elem_of_In in Hops as [[= <- <-]|[[= <- <-]|[]]]; assumption.
Qed.
End Properties.

(** ** The boolean formula a node stands for *)

Section Formula.
Context (leaf : Condition -> bool).

Fixpoint node_formula (n : FilterNode) : bool :=
  match n with
  | MkFilterNode t c g =>
      if t =? "condition" then
        match c with Some c' => leaf c' | None => false end
      else match g with
           | Some (MkConditionGroup _ op cs) =>
               if op =? LogicalAnd then forallb node_formula cs
               else existsb node_formula cs
           | None => false
           end
  end.
End Formula.

(** The conditions at the leaves of a node. *)
Fixpoint node_leaves (n : FilterNode) : list Condition :=
  match n with
  | MkFilterNode t c g =>
      if t =? "condition" then
        match c with Some c' => [c'] | None => [] end
      else match g with
           | Some (MkConditionGroup _ _ cs) => flat_map node_leaves cs
           | None => []
           end
  end.

(** A result that a formula explains: the value whatever the conditions that are not
    settled would say, or the error of a condition. *)
Definition explained `{GoRuntime} (data : Data) (leaves : list Condition)
    (formula : (Condition -> bool) -> bool) (x : res EvalError bool) : Prop :=
  match x with
  | Ok b => forall leaf : Condition -> bool,
      (forall c b', c ∈ leaves -> evaluateCondition (Some c) data = Ok b' -> leaf c = b') ->
      formula leaf = b
  | Err e => exists c, c ∈ leaves /\ evaluateCondition (Some c) data = Err e
  | Panic => False
  end.

(** The loops over a group, on members that are explained. *)
Lemma eval_loops_explained `{GoRuntime} data (cs : list FilterNode) :
  Forall (fun n => explained data (node_leaves n) (fun leaf => node_formula leaf n)
    (evaluateNode n data)) cs ->
  explained data (flat_map node_leaves cs) (fun leaf => forallb (node_formula leaf) cs)
    (eval_all (fun n => evaluateNode n data) cs) /\
  explained data (flat_map node_leaves cs) (fun leaf => existsb (node_formula leaf) cs)
    (eval_any (fun n => evaluateNode n data) cs).
Proof.
  induction 1 as [|n cs Hn Hcs [IHa IHo]]; [done|]. simpl.
  unfold explained in Hn. destruct (evaluateNode n data) as [b|e|]; [|..|done].
  2: { destruct Hn as (c & Hc & He). split; exists c; (split; [apply elem_of_app; by left|done]). }
  assert (forall leaf : Condition -> bool,
    (forall c b', c ∈ (node_leaves n ++ flat_map node_leaves cs)%list ->
       evaluateCondition (Some c) data = Ok b' -> leaf c = b') ->
    node_formula leaf n = b /\
    (forall c b', c ∈ flat_map node_leaves cs ->
       evaluateCondition (Some c) data = Ok b' -> leaf c = b')) as Hsplit.
  { intros leaf Hl. split; [apply Hn|]; intros c b' Hc; apply Hl, elem_of_app; auto. }
  split; destruct b; simpl.
  - unfold explained in *. destruct (eval_all _ cs).
    + intros leaf Hl. destruct (Hsplit leaf Hl) as [-> Hr]. by apply IHa.
    + destruct IHa as (c & Hc & He). exists c. split; [apply elem_of_app; by right|done].
    + done.
  - intros leaf Hl. by destruct (Hsplit leaf Hl) as [-> _].
  - intros leaf Hl. by destruct (Hsplit leaf Hl) as [-> _].
  - unfold explained in *. destruct (eval_any _ cs).
    + intros leaf Hl. destruct (Hsplit leaf Hl) as [-> Hr]. by apply IHo.
    + destruct IHo as (c & Hc & He). exists c. split; [apply elem_of_app; by right|done].
    + done.
Qed.

Lemma evaluateNode_explained `{GoRuntime} n data :
  valid_node n ->
  explained data (node_leaves n) (fun leaf => node_formula leaf n) (evaluateNode n data).
Proof.
  induction n as [t c g IH] using node_ind.
  inversion 1 as [c' g' | c' id op cs Hop Hne Hcs]; subst.
  { change (node_leaves _) with [c']. change (evaluateNode _ data) with (evaluateCondition (Some c') data).
    pose proof (evaluateCondition_no_panic c' data) as Hp. unfold explained.
    destruct (evaluateCondition (Some c') data) as [b|e|] eqn:E; [|by exists c'; set_solver|done].
    intros leaf Hl. apply Hl; [set_solver|done]. }
  specialize (IH _ _ _ eq_refl).
  assert (Forall (fun n => explained data (node_leaves n) (fun leaf => node_formula leaf n)
    (evaluateNode n data)) cs) as [Ha Ho]%eval_loops_explained.
  { apply Forall_forall. intros n Hn. rewrite Forall_forall in IH, Hcs.
    apply IH; [done | by apply Hcs]. }
  destruct cs as [|n cs]; [done|].
  destruct Hop as [->| ->]; [exact Ha | exact Ho].
Qed.

(** ** Properties *)

(** C3: A filter that passes [Filter.Validate] is evaluated without a panic on
    every record: no nil condition or group pointer is followed. *)
Theorem validated_filter_never_panics `{GoRuntime} (f : Filter) (data : Data) :
  FilterValidate f = Ok tt -> Evaluate (Some f) data <> Panic.
Proof.
  unfold FilterValidate, Evaluate. intros Hv.
  destruct (Root f) as [r|].
  - apply evaluateNode_valid, NodeValidate_valid.
    rewrite bool_decide_eq_true_2 in Hv by done. by destruct (Expression f =? "").
  - destruct (Expression f =? ""); [done|]. apply evaluateExpression_settled.
Qed.

Definition demo_filter : Filter :=
  MkFilter "1" (Some (And [NewCondition "level" OpEqual (VString "error");
    Or [NewCondition "code" OpGreaterThan (VInt KInt 499);
        NewCondition "user.name" OpExists VNil]])) "".

Definition demo_data : Data :=
  {["level" := VString "error"; "code" := VInt KInt 404;
    "user" := VMap {["name" := VString "kim"]}]}.

Lemma validated_filter_never_panics_witness :
  FilterValidate demo_filter = Ok tt /\
  @Evaluate demo_runtime (Some demo_filter) demo_data <> Panic.
Proof.
  split; [vm_compute; reflexivity|].
  apply (@validated_filter_never_panics demo_runtime). vm_compute. reflexivity.
Defined.

(** C25: On every valid node the short-circuit loops compute the boolean formula of the
    node, conjunction for [and] groups and disjunction for [or] groups, from the conditions
    that evaluate without error. If the answer is a value, it is the value of the formula
    whatever the conditions that err (they were not reached) are taken to be; if it is an
    error, it is the error of one of the conditions; it never panics. So when no condition
    errs, the answer is the formula. *)
Theorem evaluate_is_formula `{GoRuntime} (n : FilterNode) (data : Data) :
  NodeValidate n = Ok tt ->
  match Evaluate (Some (MkFilter "1" (Some n) "")) data with
  | Ok b => forall leaf : Condition -> bool,
      (forall c b', c ∈ node_leaves n -> evaluateCondition (Some c) data = Ok b' -> leaf c = b') ->
      node_formula leaf n = b
  | Err e => exists c, c ∈ node_leaves n /\ evaluateCondition (Some c) data = Err e
  | Panic => False
  end /\
  (forall leaf : Condition -> bool,
     (forall c, c ∈ node_leaves n -> evaluateCondition (Some c) data = Ok (leaf c)) ->
     Evaluate (Some (MkFilter "1" (Some n) "")) data = Ok (node_formula leaf n)).
Proof.
  intros Hv%NodeValidate_valid. apply (evaluateNode_explained n data) in Hv as Hx.
  unfold explained in Hx. change (Evaluate _ data) with (evaluateNode n data).
  split; [exact Hx|]. intros leaf Hl. destruct (evaluateNode n data) as [b|e|]; [|..|done].
  - f_equal. symmetry. apply Hx. intros c b' Hc Hb. specialize (Hl c Hc). congruence.
  - destruct Hx as (c & Hc & He). specialize (Hl c Hc). congruence.
Qed.

Definition demo_leaf (c : Condition) : bool := negb (Op c =? OpGreaterThan).

Lemma evaluate_is_formula_witness :
  @Evaluate demo_runtime (Some demo_filter) demo_data
  = Ok (node_formula demo_leaf (default (Or []) (Root demo_filter))).
Proof.
  apply (@evaluate_is_formula demo_runtime (default (Or []) (Root demo_filter)) demo_data);
    [vm_compute; reflexivity|].
  intros c Hc. simpl in Hc. set_unfold in Hc.
  destruct Hc as [->|[->|[->|[]]]]; vm_compute; reflexivity.
Defined.

(** Evaluation of a string expression terminates: three levels of recursion
    always reach a result, more change nothing, and the result is never a panic. *)
Theorem evaluateExpression_total `{GoRuntime} (n : nat) (expr : string) (data : Data) :
  evaluateExpression (expr_fuel + n) expr data = evaluateExpression expr_fuel expr data /\
  evaluateExpression expr_fuel expr data <> Err EvOutOfFuel /\
  evaluateExpression expr_fuel expr data <> Panic.
Proof.
  split; [apply evaluateExpression_fuel_irrel | apply evaluateExpression_settled].
Qed.

(** Complementing every operator and exchanging [and] with [or] negates the
    answer, on records that have the compared fields; in particular neither side
    errs. *)
Theorem dual_filter_negates `{GoRuntime} (data : Data) (n n' : FilterNode) :
  dual data n n' ->
  exists b, Evaluate (Some (MkFilter "1" (Some n) "")) data = Ok b /\
    Evaluate (Some (MkFilter "1" (Some n') "")) data = Ok (negb b).
Proof. apply evaluateNode_dual. Qed.

Lemma dual_filter_negates_witness :
  exists b, @Evaluate demo_runtime (Some demo_filter) demo_data = Ok b /\
    @Evaluate demo_runtime (Some (MkFilter "1"
      (Some (Or [NewCondition "level" OpNotEqual (VString "error");
        And [NewCondition "code" OpLessOrEqual (VInt KInt 499);
             NewCondition "user.name" OpNotExists VNil]])) "")) demo_data = Ok (negb b).
Proof.
  apply (@dual_filter_negates demo_runtime).
  apply dual_group; [left | done | constructor; [|constructor; [|constructor]]].
  - apply dual_condition; [done | done | done | right; vm_compute; eauto].
  - apply dual_group; [right; left | done | constructor; [|constructor; [|constructor]]].
    + apply dual_condition; [done | done | done | right; vm_compute; eauto].
    + apply dual_condition; [done | done | done | left; reflexivity].
Defined.
