(* ===== verification/FilterConv.v ===== *)
(** * Filters: the converter (pipeline-core/pkg/filter/converter.go)

    Conversion between string expressions and structured filters. The parser
    recurses on shorter strings: the model gives it fuel and shows that the
    length of the input is enough. Fresh GUI identifiers come from the UUID
    library: the model threads a counter and takes the [n]-th identifier from
    the parameter [newID]. *)

From Stdlib Require Import String Ascii.
From S2P Require Import Prelude GoString GoValue Filter FilterEval.
Local Open Scope string_scope.

Inductive ConvError :=
| CvEmptyExpression
| CvNilFilter
| CvNoRoot
| CvUnparsable (expr : string)
| CvNodeType (t : string)
| CvUnsupportedOperator (op : Operator)
| CvLogicalOperator (op : LogicalOperator)
| CvOutOfFuel.                       (* of the model's recursion, not of the code *)

(** ** Splitting at top level: [splitLogical]

    [skip] counts the bytes of a separator that the loop has yet to step over
    ([i += len(sep) - 1]). *)
Fixpoint split_loop (sep : string) (skip : nat) (depth : Z) (current s : string)
  : list string :=
  match s with
  | EmptyString => if current =? "" then [] else [current]
  | String ch s' =>
      match skip with
      | S k => split_loop sep k depth current s'
      | O =>
          if Ascii.eqb ch "("%char then
            split_loop sep 0 (depth + 1) (current +:+ String ch "") s'
          else if Ascii.eqb ch ")"%char then
            split_loop sep 0 (depth - 1) (current +:+ String ch "") s'
          else if (depth =? 0)%Z && HasPrefix s sep then
            current :: split_loop sep (String.length sep - 1) depth "" s'
          else split_loop sep 0 depth (current +:+ String ch "") s'
      end
  end.

Definition splitLogical (expr sep : string) : list string :=
  split_loop sep 0 0 "" expr.

(** ** Parsing *)

(** The loop of [parseLogicalGroup], threading the identifier counter. *)
Definition parse_parts {A} (f : nat -> string -> res ConvError (A * nat))
  : nat -> list string -> res ConvError (list A * nat) :=
  fix loop (st : nat) (parts : list string) {struct parts} :=
    match parts with
    | [] => Ok ([], st)
    | p :: parts' =>
        f st p ≫= fun '(node, st') =>
        loop st' parts' ≫= fun '(nodes, st'') => Ok (node :: nodes, st'')
    end.

Section Converter.
Context (newID : nat -> string).

(** The loop over the operator table: [strings.Index(...) > 0]. *)
Fixpoint parseOperators (ops : list (string * Operator)) (st : nat) (expr : string)
  : res ConvError (FilterNode * nat) :=
  match ops with
  | [] => Err (CvUnparsable expr)
  | (symbol, op) :: ops' =>
      match cut symbol expr with
      | Some (String c before, after) =>
          let field := TrimPrefix (TrimSpace (String c before)) "." in
          let value := Trim (TrimSpace after) quotes in
          Ok (MkFilterNode "condition"
                (Some (MkCondition (newID st) field op (VString value))) None, S st)
      | _ => parseOperators ops' st expr
      end
  end.

(** [parseSingleCondition]; [paren] is the recursive call for a parenthesised
    expression. *)
Definition parseSingleCondition
  (paren : string -> res ConvError (FilterNode * nat)) (st : nat) (expr : string)
  : res ConvError (FilterNode * nat) :=
  let expr := TrimSpace expr in
  if HasPrefix expr "(" && HasSuffix expr ")" then
    paren (String.substring 1 (String.length expr - 2) expr)
  else if HasSuffix expr " exists" then
    let field := TrimPrefix (TrimSpace (TrimSuffix expr " exists")) "." in
    Ok (MkFilterNode "condition"
          (Some (MkCondition (newID st) field OpExists VNil)) None, S st)
  else parseOperators expr_operators st expr.

Fixpoint parseExpression (fuel st : nat) (expr : string)
  : res ConvError (FilterNode * nat) :=
  match fuel with
  | O => Err CvOutOfFuel
  | S fuel' =>
      let expr := TrimSpace expr in
      let parseLogicalGroup parts op :=
        parse_parts (fun st p => parseExpression fuel' st (TrimSpace p)) st parts
          ≫= fun '(conditions, st') =>
        Ok (MkFilterNode "group" None
              (Some (MkConditionGroup (newID st') op conditions)), S st') in
      let ors := splitLogical expr "||" in
      let ands := splitLogical expr "&&" in
      if Contains expr "||" && (1 <? List.length ors)%nat then
        parseLogicalGroup ors LogicalOr
      else if Contains expr "&&" && (1 <? List.length ands)%nat then
        parseLogicalGroup ands LogicalAnd
      else parseSingleCondition (parseExpression fuel' st) st expr
  end.

Definition parse_fuel (expr : string) : nat := S (String.length expr).

Definition ExpressionToStructured (expr : string) : res ConvError Filter :=
  let expr := TrimSpace expr in
  if expr =? "" then Err CvEmptyExpression
  else parseExpression (parse_fuel expr) 0 expr ≫= fun '(root, _) =>
       Ok (MkFilter "1" (Some root) "").
End Converter.

(** ** Printing *)

Section Printer.
Context `{GoRuntime}.

Definition conditionToExpression (cond : option Condition) : res ConvError string :=
  match cond with
  | None => Panic
  | Some c =>
      let field := "." +:+ Field c in
      let v := fmt_v (Value c) in
      if Op c =? OpExists then Ok (field +:+ " exists")
      else if Op c =? OpNotExists then Ok ("!(" +:+ field +:+ " exists)")
      else if Op c =? OpIsNull then Ok (field +:+ " == null")
      else if Op c =? OpIsNotNull then Ok (field +:+ " != null")
      else if Op c =? OpEqual then Ok (field +:+ " == '" +:+ v +:+ "'")
      else if Op c =? OpNotEqual then Ok (field +:+ " != '" +:+ v +:+ "'")
      else if Op c =? OpGreaterThan then Ok (field +:+ " > " +:+ v)
      else if Op c =? OpGreaterOrEqual then Ok (field +:+ " >= " +:+ v)
      else if Op c =? OpLessThan then Ok (field +:+ " < " +:+ v)
      else if Op c =? OpLessOrEqual then Ok (field +:+ " <= " +:+ v)
      else if Op c =? OpContains then Ok (field +:+ " contains '" +:+ v +:+ "'")
      else if Op c =? OpStartsWith then Ok (field +:+ " startswith '" +:+ v +:+ "'")
      else if Op c =? OpEndsWith then Ok (field +:+ " endswith '" +:+ v +:+ "'")
      else if Op c =? OpRegex then Ok (field +:+ " ~= '" +:+ v +:+ "'")
      else if Op c =? OpIn then Ok (field +:+ " in " +:+ v)
      else if Op c =? OpNotIn then Ok (field +:+ " notin " +:+ v)
      else Err (CvUnsupportedOperator (Op c))
  end.

(** Whether the printer puts a child of a group with connective [op] in
    parentheses. *)
Definition needs_parens (op : LogicalOperator) (n : FilterNode) : res ConvError bool :=
  if NodeType n =? "group" then
    match NodeGroup n with
    | None => Panic
    | Some g => Ok (negb (GroupOperator g =? op))
    end
  else Ok false.

Definition print_parts (f : FilterNode -> res ConvError string) (op : LogicalOperator)
  : list FilterNode -> res ConvError (list string) :=
  fix loop cs :=
    match cs with
    | [] => Ok []
    | c :: cs' =>
        f c ≫= fun e =>
        needs_parens op c ≫= fun b : bool =>
        loop cs' ≫= fun es =>
        Ok ((if b then "(" +:+ e +:+ ")" else e) :: es)
    end.

Definition separator (op : LogicalOperator) : option string :=
  if op =? LogicalAnd then Some " && "
  else if op =? LogicalOr then Some " || "
  else None.

Fixpoint nodeToExpression (node : FilterNode) : res ConvError string :=
  match node with
  | MkFilterNode t c g =>
      if t =? "condition" then conditionToExpression c
      else if t =? "group" then
        match g with
        | None => Panic
        | Some g' => groupToExpression g'
        end
      else Err (CvNodeType t)
  end
with groupToExpression (group : ConditionGroup) : res ConvError string :=
  match group with
  | MkConditionGroup _ op cs =>
      match cs with
      | [] => Ok ""
      | [c] => nodeToExpression c
      | _ =>
          match separator op with
          | None => Err (CvLogicalOperator op)
          | Some sep =>
              print_parts nodeToExpression op cs ≫= fun parts => Ok (Join parts sep)
          end
      end
  end.

Definition StructuredToExpression (f : option Filter) : res ConvError string :=
  match f with
  | None => Err CvNilFilter
  | Some f =>
      if negb (Expression f =? "") then Ok (Expression f)
      else match Root f with
           | None => Err CvNoRoot
           | Some r => nodeToExpression r
           end
  end.
End Printer.

Definition no_id (n : nat) : string := "".

Example parse_ex : ExpressionToStructured no_id ".a == 'x' && (.b > 3 || .c exists)"
  = Ok (MkFilter "1" (Some (And [NewCondition "a" OpEqual (VString "x");
      Or [NewCondition "b" OpGreaterThan (VString "3"); NewCondition "c" OpExists VNil]])) "").
Proof. vm_compute. reflexivity. Qed.

(** ** The parser's recursion *)

Lemma split_loop_shorter sep skip d cur s :
  let bound := String.length cur + String.length s in
  let parts := split_loop sep skip d cur s in
  Forall (fun p => String.length p <= bound) parts /\
  (1 < List.length parts -> Forall (fun p => String.length p < bound) parts).
Proof.
  revert skip d cur. induction s as [|ch s IH]; intros skip d cur; simpl.
  { destruct (String.eqb_spec cur ""); simpl; split; try lia; repeat constructor; lia. }
  assert (forall c, String.length (cur +:+ String c "") + String.length s
                    = String.length cur + S (String.length s)) as Hc.
  { intros c. rewrite str_length_app. simpl. lia. }
  destruct skip as [|k].
  2:{ destruct (IH k d cur) as [H1 H2]. split.
      - eapply Forall_impl; [exact H1|]. simpl. lia.
      - intros H%H2. eapply Forall_impl; [exact H|]. simpl. lia. }
  destruct (Ascii.eqb ch "("%char); [rewrite <- (Hc ch); apply IH|].
  destruct (Ascii.eqb ch ")"%char); [rewrite <- (Hc ch); apply IH|].
  destruct ((d =? 0)%Z && HasPrefix (String ch s) sep); [|rewrite <- (Hc ch); apply IH].
  destruct (IH (String.length sep - 1) d "") as [H _]. simpl in H.
  split; [|intros _]; constructor; try lia; eapply Forall_impl; try exact H; simpl; lia.
Qed.

Lemma splitLogical_shorter expr sep p :
  1 < List.length (splitLogical expr sep) -> p ∈ splitLogical expr sep ->
  String.length (TrimSpace p) < String.length expr.
Proof.
  intros Hlen Hp. eapply Nat.le_lt_trans; [apply TrimSpace_length|].
  destruct (split_loop_shorter sep 0 0 "" expr) as [_ H].
  specialize (H Hlen). rewrite Forall_forall in H. apply H, Hp.
Qed.

Lemma parse_parts_ext {A} (f g : nat -> string -> res ConvError (A * nat)) st parts :
  (forall st p, p ∈ parts -> f st p = g st p) ->
  parse_parts f st parts = parse_parts g st parts.
Proof.
  revert st. induction parts as [|p parts IH]; intros st H; simpl; [done|].
  rewrite H by set_solver. destruct (g st p) as [[n st']| |]; simpl; [|done..].
  rewrite IH; [done|]. intros; apply H; set_solver.
Qed.

Lemma paren_shorter expr :
  HasPrefix expr "(" && HasSuffix expr ")" = true ->
  String.length (String.substring 1 (String.length expr - 2) expr) < String.length expr.
Proof.
  intros [H _]%andb_true_iff. pose proof (substring_length 1 (String.length expr - 2) expr).
  apply HasPrefix_spec in H as [r ->]. autorewrite with gostr in *. simpl in *. lia.
Qed.

(** Beyond the length of the expression, fuel makes no difference. *)
Lemma parseExpression_fuel_irrel newID n m st expr :
  String.length expr < n -> String.length expr < m ->
  parseExpression newID n st expr = parseExpression newID m st expr.
Proof.
  revert m st expr. induction n as [|n IH]; intros [|m] st expr Hn Hm; try lia.
  cbn [parseExpression].
  pose proof (TrimSpace_length expr). set (e := TrimSpace expr) in *.
  destruct (Contains e "||" && _) eqn:Eor.
  { bool_props. f_equal. apply parse_parts_ext. intros st' p Hp.
    apply splitLogical_shorter in Hp; [|done]. apply IH; lia. }
  destruct (Contains e "&&" && _) eqn:Eand.
  { bool_props. f_equal. apply parse_parts_ext. intros st' p Hp.
    apply splitLogical_shorter in Hp; [|done]. apply IH; lia. }
  unfold parseSingleCondition. pose proof (TrimSpace_length e).
  destruct (HasPrefix _ _ && _) eqn:Ep; [|done].
  apply paren_shorter in Ep. apply IH; lia.
Qed.

(** *** What the parser returns *)

(** A node as the parser builds it: tags agree with the pointers. *)
Inductive parsed : FilterNode -> Prop :=
| parsed_condition c : parsed (MkFilterNode "condition" (Some c) None)
| parsed_group id op cs :
    (op = LogicalAnd \/ op = LogicalOr) -> 2 <= List.length cs -> Forall parsed cs ->
    parsed (MkFilterNode "group" None (Some (MkConditionGroup id op cs))).

Definition good_parse (r : res ConvError (FilterNode * nat)) : Prop :=
  match r with
  | Ok (n, _) => parsed n
  | Err e => e <> CvOutOfFuel
  | Panic => False
  end.

Lemma parseOperators_good newID ops st expr : good_parse (parseOperators newID ops st expr).
Proof.
  induction ops as [|[symbol op] ops IH]; simpl; [done|].
  destruct (cut symbol expr) as [[[|c before] after]|]; simpl; try apply IH.
  constructor.
Qed.

Lemma parse_parts_good f st parts :
  (forall st p, p ∈ parts -> good_parse (f st p)) ->
  match parse_parts f st parts with
  | Ok (ns, _) => Forall parsed ns /\ List.length ns = List.length parts
  | Err e => e <> CvOutOfFuel
  | Panic => False
  end.
Proof.
  revert st. induction parts as [|p parts IH]; intros st H; simpl; [done|].
  pose proof (H st p ltac:(set_solver)) as Hp.
  destruct (f st p) as [[n st']| |]; simpl in *; [|done..].
  specialize (IH st' ltac:(intros; apply H; set_solver)).
  destruct (parse_parts f st' parts) as [[ns st'']| |]; simpl in *; [|done..].
  destruct IH as [? ->]. split; [by constructor | done].
Qed.

Lemma parse_group_good newID f st parts op :
  (op = LogicalAnd \/ op = LogicalOr) -> 1 < List.length parts ->
  (forall st p, p ∈ parts -> good_parse (f st p)) ->
  good_parse (parse_parts f st parts ≫= fun '(conditions, st') =>
    Ok (MkFilterNode "group" None
          (Some (MkConditionGroup (newID st') op conditions)), S st')).
Proof.
  intros Hop Hlen Hf. apply parse_parts_good with (st := st) in Hf.
  destruct (parse_parts f st parts) as [[ns st']| |]; simpl in *; [|done..].
  destruct Hf as [? ?]. constructor; [done | lia | done].
Qed.

Lemma parseExpression_good newID n st expr :
  String.length expr < n -> good_parse (parseExpression newID n st expr).
Proof.
  revert st expr. induction n as [|n IH]; intros st expr Hn; [lia|].
  cbn [parseExpression].
  pose proof (TrimSpace_length expr). set (e := TrimSpace expr) in *.
  destruct (Contains e "||" && _) eqn:Eor.
  { bool_props. apply parse_group_good; [by right | done|]. intros st' p Hp.
    apply splitLogical_shorter in Hp; [|done]. apply IH; lia. }
  destruct (Contains e "&&" && _) eqn:Eand.
  { bool_props. apply parse_group_good; [by left | done|]. intros st' p Hp.
    apply splitLogical_shorter in Hp; [|done]. apply IH; lia. }
  unfold parseSingleCondition. pose proof (TrimSpace_length e).
  destruct (HasPrefix _ _ && _) eqn:Ep.
  { apply paren_shorter in Ep. apply IH; lia. }
  clear Ep. destruct (HasSuffix _ _); [apply parsed_condition | apply parseOperators_good].
Qed.

Lemma parsed_never_panics `{GoRuntime} n data :
  parsed n -> evaluateNode n data <> Panic.
Proof.
  induction n as [t c g IH] using node_ind. inversion 1 as [c'|id op cs Hop Hlen Hcs]; subst.
  { apply evaluateCondition_no_panic. }
  specialize (IH _ _ _ eq_refl). cbn [evaluateNode evaluateGroup].
  assert (Forall (fun n => evaluateNode n data <> Panic) cs) as Hno.
  { rewrite Forall_forall in IH, Hcs |- *. eauto. }
  destruct cs as [|n cs]; [simpl in Hlen; lia|].
  destruct Hop as [-> | ->]; [by apply eval_all_no_panic | by apply eval_any_no_panic].
Qed.

(** ** Properties *)

(** Parsing an expression always ends: fuel beyond the length of the text
    changes nothing, the model never runs out of it, and what the parser accepts
    is evaluated without a panic. *)
Theorem parse_terminates `{GoRuntime} (newID : nat -> string) (expr : string) (k : nat) :
  parseExpression newID (parse_fuel expr + k) 0 expr
    = parseExpression newID (parse_fuel expr) 0 expr /\
  ExpressionToStructured newID expr <> Err CvOutOfFuel /\
  ExpressionToStructured newID expr <> Panic /\
  forall f data, ExpressionToStructured newID expr = Ok f -> Evaluate (Some f) data <> Panic.
Proof.
  split; [apply parseExpression_fuel_irrel; unfold parse_fuel; lia|].
  unfold ExpressionToStructured. destruct (TrimSpace expr =? ""); [done|].
  pose proof (parseExpression_good newID (parse_fuel (TrimSpace expr)) 0 (TrimSpace expr)
    ltac:(unfold parse_fuel; lia)) as Hg.
  destruct (parseExpression _ _ _ _) as [[n st]|e|]; simpl in *; [|by split; [congruence|]|done].
  split; [done|]. split; [done|]. intros f data [= <-].
  by apply (parsed_never_panics n data).
Qed.

(** The two readers of string expressions disagree on precedence. The
    evaluator splits at the conjunctions first and rejects the record, the
    converter splits at the disjunctions first and its filter accepts it. *)
Theorem precedence_disagrees `{GoRuntime} :
  let expr := ".a exists || .b exists && .c exists" in
  let data : Data := {["a" := VBool true]} in
  Evaluate (Some (MkFilter "1" None expr)) data = Ok false /\
  exists f, ExpressionToStructured no_id expr = Ok f /\ Evaluate (Some f) data = Ok true.
Proof.
  split; [vm_compute; reflexivity|]. eexists. split; [vm_compute; reflexivity|].
  vm_compute. reflexivity.
Qed.
