(* ===== verification/FilterRoundTrip.v ===== *)
(** * Filters: printing and parsing back

    On filters whose fields and values are made of unreserved characters, the
    parser reads back what the printer wrote, up to the generated identifiers. *)

From Stdlib Require Import String Ascii.
From S2P Require Import Prelude GoString GoValue Filter FilterEval FilterConv.
Local Open Scope string_scope.

(** ** Strings over a set of characters *)

Fixpoint all_chars (P : ascii -> bool) (s : string) : bool :=
  match s with
  | EmptyString => true
  | String c s' => P c && all_chars P s'
  end.

Lemma all_chars_app P a b : all_chars P (a +:+ b) = all_chars P a && all_chars P b.
Proof.
  induction a as [|c a IH]; [done|]. rewrite str_app_cons. simpl.
  by rewrite IH, andb_assoc.
Qed.
#[export] Hint Rewrite all_chars_app : gostr.

Lemma all_chars_impl (P Q : ascii -> bool) s :
  (forall c, P c = true -> Q c = true) -> all_chars P s = true -> all_chars Q s = true.
Proof.
  intros HPQ. induction s as [|c s IH]; simpl; [done|].
  rewrite !andb_true_iff. naive_solver.
Qed.

Lemma all_chars_rev P s : all_chars P (String.rev s) = all_chars P s.
Proof.
  induction s as [|c s IH]; [done|]. rewrite str_rev_cons, all_chars_app, IH. simpl.
  by rewrite andb_true_r, andb_comm.
Qed.

Definition is_not (c : ascii) (x : ascii) : bool := negb (Ascii.eqb x c).

(** A separator with a character the string lacks does not occur. *)
Lemma cut_absent c sep s :
  all_chars (is_not c) s = true -> all_chars (is_not c) sep = false -> cut sep s = None.
Proof.
  intros Hs Hsep. apply cut_None. intros (x & y & ->).
  rewrite !all_chars_app, Hsep in Hs. by destruct (all_chars _ x).
Qed.

Lemma Contains_absent c sep s :
  all_chars (is_not c) s = true -> all_chars (is_not c) sep = false ->
  Contains s sep = false.
Proof. intros. unfold Contains. by rewrite (cut_absent c). Qed.

(** The first occurrence of a separator whose first character is new. *)
Lemma cut_first c sep a b :
  all_chars (is_not c) a = true ->
  cut (String c sep) (a +:+ String c sep +:+ b) = Some (a, b).
Proof.
  intros Ha. induction a as [|x a IH].
  - rewrite str_app_nil_l.
    assert (strip_prefix (String c sep) (String c sep +:+ b) = Some b) as Hp
      by by apply strip_prefix_Some.
    rewrite str_app_cons in *. unfold cut; fold cut. by rewrite Hp.
  - simpl in Ha. apply andb_true_iff in Ha as [Hx Ha].
    rewrite str_app_cons. simpl.
    rewrite Ascii.eqb_sym. unfold is_not in Hx. apply negb_true_iff in Hx as ->.
    by rewrite IH.
Qed.

(** ** Unreserved characters *)

(** Printable ASCII without the characters the grammar uses. *)
Definition reserved : list ascii :=
  ascii_of_nat 34 :: list_ascii_of_string "()&|'=!<>~".

Definition safe_char (c : ascii) : bool :=
  let n := nat_of_ascii c in
  (33 <=? n)%nat && (n <=? 126)%nat && negb (existsb (Ascii.eqb c) reserved).

(** Quoted values may hold spaces too. *)
Definition quoted_char (c : ascii) : bool := safe_char c || Ascii.eqb c " "%char.

Definition word (s : string) : bool := negb (s =? "") && all_chars safe_char s.

Ltac by_ascii := intros c; destruct c as [[] [] [] [] [] [] [] []]; vm_compute; congruence.

Lemma safe_is_quoted c : safe_char c = true -> quoted_char c = true.
Proof. unfold quoted_char. by intros ->. Qed.

Lemma quoted_not c x :
  quoted_char x = false -> quoted_char c = true -> is_not x c = true.
Proof.
  intros Hx Hc. unfold is_not. destruct (Ascii.eqb_spec c x); [congruence | done].
Qed.

Lemma word_chars x s : quoted_char x = false -> word s = true -> all_chars (is_not x) s = true.
Proof.
  unfold word. intros Hx [_ H]%andb_true_iff. eapply all_chars_impl; [|exact H].
  intros c Hc. apply quoted_not; [done | by apply safe_is_quoted].
Qed.

Lemma quoted_chars x s :
  quoted_char x = false -> all_chars quoted_char s = true -> all_chars (is_not x) s = true.
Proof. intros Hx. apply all_chars_impl. intros c. by apply quoted_not. Qed.

Lemma word_no_space s : word s = true -> all_chars (is_not " "%char) s = true.
Proof.
  unfold word. intros [_ H]%andb_true_iff. eapply all_chars_impl; [|exact H]. by_ascii.
Qed.

(** ** Trimming printed text *)

(** A character at which neither [TrimSpace] nor [Trim] on quotes trims. *)
Definition solid (c : ascii) : bool :=
  safe_char c || Ascii.eqb c "("%char || Ascii.eqb c ")"%char || Ascii.eqb c "'"%char.

Definition starts_solid (s : string) : bool :=
  match s with String c _ => solid c | "" => false end.
Definition ends_solid (s : string) : bool := starts_solid (String.rev s).

Lemma solid_front c s : solid c = true -> untrimmable space_runes (String c s) = true.
Proof. destruct c as [[] [] [] [] [] [] [] []]; vm_compute; congruence. Qed.
Lemma solid_back c s :
  solid c = true -> untrimmable (String.rev <$> space_runes) (String c s) = true.
Proof. destruct c as [[] [] [] [] [] [] [] []]; vm_compute; congruence. Qed.

Lemma starts_solid_app a b : starts_solid a = true -> starts_solid (a +:+ b) = true.
Proof. by destruct a. Qed.
Lemma ends_solid_app a b : ends_solid b = true -> ends_solid (a +:+ b) = true.
Proof. unfold ends_solid. rewrite str_rev_append. apply starts_solid_app. Qed.

Lemma trim_right_solid s : ends_solid s = true -> trim_right space_runes s = s.
Proof.
  unfold ends_solid. intros H. apply trim_right_id.
  destruct (String.rev s) as [|c r]; [done|]. by apply solid_back.
Qed.

Lemma TrimSpace_solid s :
  starts_solid s = true -> ends_solid s = true -> TrimSpace s = s.
Proof.
  intros H1 H2. unfold TrimSpace, trim_both.
  rewrite trim_left_id; [by apply trim_right_solid|].
  destruct s; [done|]. by apply solid_front.
Qed.

Lemma trim_left_space s :
  starts_solid s = true -> trim_left space_runes (" " +:+ s) = s.
Proof.
  intros H. destruct s as [|c s]; [done|].
  change (" " +:+ String c s) with (String " " (String c s)).
  unfold trim_left. cbn [String.length].
  change (trim_front space_runes (S (S (String.length s))) (String " " (String c s)))
    with (trim_left space_runes (String c s)).
  by apply trim_left_id, solid_front.
Qed.

Lemma trim_right_space s :
  ends_solid s = true -> trim_right space_runes (s +:+ " ") = s.
Proof.
  unfold ends_solid. intros H. unfold trim_right. rewrite str_rev_append.
  change (String.rev " ") with " ".
  assert (trim_left (String.rev <$> space_runes) (" " +:+ String.rev s) = String.rev s) as ->.
  { destruct (String.rev s) as [|c r]; [done|].
    change (" " +:+ String c r) with (String " " (String c r)).
    unfold trim_left. cbn [String.length].
    change (trim_front (String.rev <$> space_runes) (S (S (String.length r)))
      (String " " (String c r))) with (trim_left (String.rev <$> space_runes) (String c r)).
    by apply trim_left_id, solid_back. }
  apply str_rev_involutive.
Qed.

(** Text with optional spaces around it. *)
Definition padded (b : bool) : string := if b then " " else "".

Lemma TrimSpace_padded l r s :
  starts_solid s = true -> ends_solid s = true ->
  TrimSpace (padded l +:+ s +:+ padded r) = s.
Proof.
  intros H1 H2. unfold TrimSpace, trim_both.
  assert (trim_left space_runes (padded l +:+ s +:+ padded r) = s +:+ padded r) as ->.
  { destruct l; simpl; rewrite ?str_app_nil_l.
    - apply trim_left_space, starts_solid_app, H1.
    - apply trim_left_id. destruct s; [done|]. by apply solid_front. }
  destruct r; simpl; rewrite ?str_app_nil_r;
    [by apply trim_right_space | by apply trim_right_solid].
Qed.

Definition quote_set : list string :=
  (fun c => String c "") <$> list_ascii_of_string quotes.

Lemma quote_front c s : quoted_char c = true -> untrimmable quote_set (String c s) = true.
Proof. destruct c as [[] [] [] [] [] [] [] []]; vm_compute; congruence. Qed.
Lemma quote_back c s :
  quoted_char c = true -> untrimmable (String.rev <$> quote_set) (String c s) = true.
Proof. destruct c as [[] [] [] [] [] [] [] []]; vm_compute; congruence. Qed.

Lemma Trim_plain s : all_chars quoted_char s = true -> Trim s quotes = s.
Proof.
  intros H. unfold Trim. fold quote_set. destruct s as [|c s]; [done|].
  apply trim_both_id.
  - simpl in H. apply andb_true_iff in H as [H _]. by apply quote_front.
  - rewrite <- all_chars_rev in H. destruct (String.rev (String c s)) as [|x r]; [done|].
    simpl in H. apply andb_true_iff in H as [H _]. by apply quote_back.
Qed.

Lemma Trim_quoted s :
  all_chars quoted_char s = true -> Trim ("'" +:+ s +:+ "'") quotes = s.
Proof.
  intros H. destruct s as [|c s]; [done|].
  unfold Trim. fold quote_set. unfold trim_both.
  assert (trim_left quote_set ("'" +:+ String c s +:+ "'") = String c s +:+ "'") as ->.
  { change ("'" +:+ String c s +:+ "'") with (String "'" (String c (s +:+ "'"))).
    unfold trim_left. cbn [String.length].
    change (trim_front quote_set (S (S (String.length (s +:+ "'"))))
      (String "'" (String c (s +:+ "'")))) with (trim_left quote_set (String c (s +:+ "'"))).
    simpl in H. apply andb_true_iff in H as [H _]. by apply trim_left_id, quote_front. }
  unfold trim_right. rewrite str_rev_append. change (String.rev "'") with "'".
  rewrite <- all_chars_rev in H.
  assert (trim_left (String.rev <$> quote_set) ("'" +:+ String.rev (String c s))
          = String.rev (String c s)) as ->; [|apply str_rev_involutive].
  destruct (String.rev (String c s)) as [|x r]; [done|].
  change ("'" +:+ String x r) with (String "'" (String x r)).
  unfold trim_left. cbn [String.length].
  change (trim_front (String.rev <$> quote_set) (S (S (String.length r)))
    (String "'" (String x r))) with (trim_left (String.rev <$> quote_set) (String x r)).
  simpl in H. apply andb_true_iff in H as [H _]. by apply trim_left_id, quote_back.
Qed.

(** ** Text that [splitLogical] steps over *)

Definition opaque (sep : string) (d : Z) (s : string) : Prop :=
  forall cur t, split_loop sep 0 d cur (s +:+ t) = split_loop sep 0 d (cur +:+ s) t.

Lemma opaque_app sep d a b : opaque sep d a -> opaque sep d b -> opaque sep d (a +:+ b).
Proof. intros Ha Hb cur t. by rewrite str_app_assoc, Ha, Hb, str_app_assoc. Qed.

Definition no_paren (c : ascii) : bool := is_not "("%char c && is_not ")"%char c.

Lemma opaque_nil sep d : opaque sep d "".
Proof. intros cur t. by rewrite str_app_nil_l, str_app_nil_r. Qed.

Lemma opaque_char sep d c :
  no_paren c = true ->
  (d <> 0%Z \/ exists x sep', sep = String x sep' /\ x <> c) ->
  opaque sep d (String c "").
Proof.
  unfold no_paren, is_not. intros H Hd cur t. bool_props. rewrite str_app_cons, str_app_nil_l.
  cbn [split_loop]. rewrite H, H0.
  assert ((d =? 0)%Z && HasPrefix (String c t) sep = false) as ->; [|done].
  destruct Hd as [Hd|(x & sep' & -> & Hx)].
  - apply andb_false_iff. left. by apply Z.eqb_neq.
  - apply andb_false_iff. right. unfold HasPrefix. simpl.
    by apply Ascii.eqb_neq in Hx as ->.
Qed.

Lemma opaque_chars sep d s :
  all_chars no_paren s = true ->
  (d <> 0%Z \/ exists x sep', sep = String x sep' /\ all_chars (is_not x) s = true) ->
  opaque sep d s.
Proof.
  induction s as [|c s IH]; intros H Hd; [apply opaque_nil|].
  simpl in H. apply andb_true_iff in H as [Hc Hs].
  change (String c s) with (String c "" +:+ s). apply opaque_app.
  - apply opaque_char; [done|]. destruct Hd as [Hd|(x & sep' & -> & Hx)]; [by left|].
    right. exists x, sep'. split; [done|]. simpl in Hx. unfold is_not in Hx.
    destruct (Ascii.eqb_spec c x); [done | congruence].
  - apply IH; [done|]. destruct Hd as [Hd|(x & sep' & -> & Hx)]; [by left|].
    right. exists x, sep'. split; [done|]. simpl in Hx. by apply andb_true_iff in Hx as [_ ?].
Qed.

Lemma opaque_parens sep d s : opaque sep (d + 1) s -> opaque sep d ("(" +:+ s +:+ ")").
Proof.
  intros Hs cur t. rewrite !str_app_assoc.
  change ("(" +:+ s +:+ ")" +:+ t) with (String "(" (s +:+ String ")" t)).
  cbn [split_loop]. rewrite Hs. cbn [split_loop].
  change (Ascii.eqb "(" "(") with true. change (Ascii.eqb ")" "(") with false.
  change (Ascii.eqb ")" ")") with true. cbv iota.
  replace (d + 1 - 1)%Z with d by lia. by rewrite !str_app_assoc.
Qed.

Lemma splitLogical_opaque sep s :
  opaque sep 0 s -> s <> "" -> splitLogical s sep = [s].
Proof.
  intros Hs Hne. unfold splitLogical. rewrite <- (str_app_nil_r s) at 1.
  rewrite Hs, str_app_nil_l. simpl.
  by apply String.eqb_neq in Hne as ->.
Qed.

(** The separators the printer writes. *)
Definition is_sep (sep : string) : Prop := sep = "&&" \/ sep = "||".

Lemma split_at_sep sep cur t :
  is_sep sep -> split_loop sep 0 0 cur (sep +:+ t) = cur :: split_loop sep 0 0 "" t.
Proof. by intros [-> | ->]. Qed.

Lemma opaque_space sep d : is_sep sep -> opaque sep d " ".
Proof. intros H. apply opaque_char; [done|]. right. destruct H as [-> | ->]; eauto. Qed.

(** Splitting a joined list gives the parts back, with the spaces of the
    separator around them. *)
Lemma split_joined sep (parts : list string) (l : bool) :
  is_sep sep -> parts <> [] -> Forall (fun p => opaque sep 0 p /\ p <> "") parts ->
  exists pads : list (bool * bool),
    split_loop sep 0 0 (padded l) (Join parts (" " +:+ sep +:+ " "))
    = zip_with (fun lr p => padded lr.1 +:+ p +:+ padded lr.2) pads parts /\
    List.length pads = List.length parts.
Proof.
  intros Hsep. revert l. induction parts as [|p parts IH]; intros l Hne HF; [done|].
  apply Forall_cons in HF as [[Hp Hpne] HF].
  destruct parts as [|q parts].
  - exists [(l, false)]. split; [|done]. cbn [Join zip_with fst snd].
    rewrite <- (str_app_nil_r p) at 1. rewrite Hp. cbn [padded].
    rewrite str_app_nil_r. cbn [split_loop].
    destruct (String.eqb_spec (padded l +:+ p) ""); [|done].
    destruct l, p; simpl in *; done.
  - destruct (IH true ltac:(done) HF) as (pads & Heq & Hlen).
    exists ((l, true) :: pads). split; [|simpl in *; lia].
    cbn [zip_with fst snd].
    change (Join (p :: q :: parts) (" " +:+ sep +:+ " "))
      with (p +:+ (" " +:+ sep +:+ " ") +:+ Join (q :: parts) (" " +:+ sep +:+ " ")).
    revert Heq. generalize (Join (q :: parts) (" " +:+ sep +:+ " ")). intros J Heq.
    rewrite Hp, str_app_assoc. rewrite opaque_space, !str_app_assoc, split_at_sep by done. cbn [padded] in *. f_equal.
    rewrite opaque_space, str_app_nil_l by done. exact Heq.
Qed.

(** ** One condition *)

Definition body_char (c : ascii) : bool := quoted_char c || Ascii.eqb c "'"%char.

(** The text of a comparison: [.field op body]. *)
Definition cmp_text (f sym body : string) : string :=
  ("." +:+ f +:+ " ") +:+ sym +:+ " " +:+ body.

Lemma word_solid s : word s = true -> starts_solid s = true /\ ends_solid s = true.
Proof.
  unfold word, ends_solid. intros H. bool_props.
  assert (forall c, safe_char c = true -> solid c = true) as Hs
    by (unfold solid; by intros c ->).
  split.
  - destruct s as [|c s]; [done|]. simpl in *. bool_props. by apply Hs.
  - rewrite <- all_chars_rev in H0. destruct (String.rev s) as [|c r] eqn:E.
    + apply (f_equal String.length) in E. rewrite str_length_rev in E.
      by apply str_length_0 in E.
    + simpl in *. bool_props. by apply Hs.
Qed.

Lemma body_absent x b :
  body_char x = false -> all_chars body_char b = true -> all_chars (is_not x) b = true.
Proof.
  intros Hx. apply all_chars_impl. intros c Hc. unfold is_not.
  destruct (Ascii.eqb_spec c x); [congruence | done].
Qed.

Lemma body_char_quoted x : body_char x = false -> quoted_char x = false.
Proof. unfold body_char. by intros [? _]%orb_false_iff. Qed.

Lemma field_absent x f :
  body_char x = false -> x <> "."%char -> word f = true ->
  all_chars (is_not x) ("." +:+ f +:+ " ") = true.
Proof.
  intros Hx Hdot Hf. pose proof (body_char_quoted _ Hx) as Hq.
  rewrite !all_chars_app, (word_chars x f) by done. simpl.
  rewrite (quoted_not " "%char x) by done. unfold is_not.
  by destruct (Ascii.eqb_spec "." x).
Qed.

Lemma cmp_absent x f sym body :
  body_char x = false -> x <> "."%char -> word f = true -> all_chars body_char body = true ->
  all_chars (is_not x) sym = true -> all_chars (is_not x) (cmp_text f sym body) = true.
Proof.
  intros Hx Hd Hf Hb Hs. unfold cmp_text.
  rewrite (all_chars_app _ ("." +:+ f +:+ " ")), field_absent by done.
  rewrite !all_chars_app, Hs, (body_absent x body) by done. simpl.
  by rewrite (quoted_not " "%char x) by (done || by apply body_char_quoted).
Qed.

(** The operator table finds the printed operator and no other. *)
Lemma parseOperators_cmp newID st f sym op body :
  (sym, op) ∈ expr_operators -> word f = true -> all_chars body_char body = true ->
  starts_solid body = true -> ends_solid body = true ->
  parseOperators newID expr_operators st (cmp_text f sym body)
  = Ok (MkFilterNode "condition"
          (Some (MkCondition (newID st) f op (VString (Trim body quotes)))) None, S st).
Proof.
  intros Hop Hf Hb Hb1 Hb2.
  assert (TrimPrefix (TrimSpace ("." +:+ f +:+ " ")) "." = f) as Hfield.
  { destruct (word_solid f Hf) as [_ He].
    pose proof (TrimSpace_padded false true ("." +:+ f)) as Ht.
    cbn [padded] in Ht. rewrite str_app_nil_l, str_app_assoc in Ht.
    rewrite Ht; [done | done | by apply ends_solid_app]. }
  assert (TrimSpace (" " +:+ body) = body) as Hbody.
  { pose proof (TrimSpace_padded true false body Hb1 Hb2) as Ht.
    cbn [padded] in Ht. by rewrite str_app_nil_r in Ht. }
  assert (forall c sep, sym = String c sep -> body_char c = false -> c <> "."%char ->
    cut sym (cmp_text f sym body) = Some ("." +:+ f +:+ " ", " " +:+ body)) as Hcut.
  { intros c sep -> Hc Hd. apply cut_first. by apply field_absent. }
  assert (forall x s, body_char x = false -> x <> "."%char ->
    all_chars (is_not x) sym = true -> all_chars (is_not x) s = false ->
    cut s (cmp_text f sym body) = None) as Hno.
  { intros x s Hx Hd Hsym Hs. apply (cut_absent x); [by apply cmp_absent | done]. }
  unfold expr_operators in *. cbn [parseOperators].
  repeat (apply elem_of_cons in Hop as [[= -> ->]|Hop]); [..|by apply elem_of_nil in Hop].
  all: repeat first
    [ rewrite (Hno "~"%char "~=") by done
    | rewrite (Hno "!"%char "!=") by done
    | rewrite (Hno ">"%char ">=") by done
    | rewrite (Hno "="%char ">=") by done
    | rewrite (Hno "<"%char "<=") by done
    | rewrite (Hno "="%char "<=") by done
    | rewrite (Hno "="%char "~=") by done
    | rewrite (Hno "="%char "!=") by done
    | rewrite (Hno "="%char "==") by done
    | rewrite (Hno ">"%char ">") by done ].
  all: erewrite Hcut by done.
  all: change ("." +:+ f +:+ " ") with (String "." (f +:+ " ")) in *.
  all: cbv iota beta zeta.
  all: by rewrite Hfield, Hbody.
Qed.

Lemma HasSuffix_spec s p : HasSuffix s p = true <-> exists r, s = r +:+ p.
Proof.
  unfold HasSuffix. rewrite HasPrefix_spec. split; intros [r Hr].
  - exists (String.rev r). apply (f_equal String.rev) in Hr.
    by rewrite str_rev_append, !str_rev_involutive in Hr.
  - exists (String.rev r). by rewrite Hr, str_rev_append.
Qed.

(** The last word of a text is determined by the text. *)
Lemma last_word x v y w :
  all_chars (is_not " "%char) v = true -> all_chars (is_not " "%char) w = true ->
  x +:+ " " +:+ v = y +:+ " " +:+ w -> v = w.
Proof.
  intros Hv Hw H. apply (f_equal String.rev) in H.
  rewrite !str_rev_append, !str_app_assoc in H. change (String.rev " ") with " " in H.
  rewrite <- all_chars_rev in Hv, Hw.
  pose proof (cut_first " "%char "" (String.rev v) (String.rev x) Hv) as H1.
  pose proof (cut_first " "%char "" (String.rev w) (String.rev y) Hw) as H2.
  rewrite H in H1. rewrite H2 in H1. injection H1 as H1 _.
  apply (f_equal String.rev) in H1. rewrite !str_rev_involutive in H1. congruence.
Qed.

Lemma not_exists_suffix f sym v :
  word v = true -> v <> "exists" -> HasSuffix (cmp_text f sym v) " exists" = false.
Proof.
  intros Hv Hne. destruct (HasSuffix _ _) eqn:E; [|done].
  apply HasSuffix_spec in E as [r E]. unfold cmp_text in E.
  rewrite <- (str_app_assoc _ sym) in E.
  apply (last_word _ _ r "exists") in E; [done | by apply word_no_space | done].
Qed.

(** Text without parentheses and connectives, that trimming leaves alone. *)
Record atomic (e : string) : Prop := {
  atomic_no_paren : all_chars no_paren e = true;
  atomic_no_or : all_chars (is_not "|"%char) e = true;
  atomic_no_and : all_chars (is_not "&"%char) e = true;
  atomic_start : starts_solid e = true;
  atomic_end : ends_solid e = true
}.

Lemma atomic_opaque sep d e : atomic e -> is_sep sep -> opaque sep d e.
Proof.
  intros [] Hsep. apply opaque_chars; [done|]. right.
  destruct Hsep as [-> | ->]; eauto.
Qed.

Lemma no_paren_not c : is_not "("%char c = true -> is_not ")"%char c = true -> no_paren c = true.
Proof. unfold no_paren. by intros -> ->. Qed.

Lemma all_no_paren s :
  all_chars (is_not "("%char) s = true -> all_chars (is_not ")"%char) s = true ->
  all_chars no_paren s = true.
Proof.
  induction s as [|c s IH]; simpl; [done|]. intros. bool_props.
  rewrite no_paren_not, IH by done. done.
Qed.

Lemma starts_solid_no_paren e :
  starts_solid e = true -> all_chars no_paren e = true -> HasPrefix e "(" = false.
Proof.
  destruct e as [|c e]; [done|]. intros _ H. simpl in H.
  unfold no_paren, is_not in H. bool_props. unfold HasPrefix. cbn [strip_prefix].
  rewrite Ascii.eqb_sym. by replace (Ascii.eqb c "(") with false.
Qed.

Lemma parse_atomic newID n st e :
  atomic e ->
  parseExpression newID (S n) st e =
    if HasSuffix e " exists" then
      Ok (MkFilterNode "condition" (Some (MkCondition (newID st)
        (TrimPrefix (TrimSpace (TrimSuffix e " exists")) ".") OpExists VNil)) None, S st)
    else parseOperators newID expr_operators st e.
Proof.
  intros [Hp Ho Ha Hs He]. cbn [parseExpression].
  rewrite (TrimSpace_solid e) by done.
  rewrite (Contains_absent "|"%char "||" e), (Contains_absent "&"%char "&&" e) by done.
  cbn [andb]. unfold parseSingleCondition. rewrite (TrimSpace_solid e) by done.
  by rewrite starts_solid_no_paren by done.
Qed.

Lemma cmp_atomic f sym op body :
  (sym, op) ∈ expr_operators -> word f = true -> all_chars body_char body = true ->
  ends_solid body = true -> atomic (cmp_text f sym body).
Proof.
  intros Hop Hf Hb He.
  assert (forall x, body_char x = false -> x <> "."%char ->
    all_chars (is_not x) sym = true -> all_chars (is_not x) (cmp_text f sym body) = true)
    as H by (intros; by apply cmp_absent).
  assert (forall x, x ∈ ["("%char; ")"%char; "|"%char; "&"%char] ->
    all_chars (is_not x) sym = true) as Hsym.
  { intros x Hx. unfold expr_operators in Hop.
    repeat (apply elem_of_cons in Hx as [-> | Hx]); [..|by apply elem_of_nil in Hx].
    all: repeat (apply elem_of_cons in Hop as [[= -> ->]|Hop]); [..|by apply elem_of_nil in Hop].
    all: done. }
  constructor.
  - apply all_no_paren; apply H; try done; apply Hsym; set_solver.
  - apply H; try done; apply Hsym; set_solver.
  - apply H; try done; apply Hsym; set_solver.
  - done.
  - unfold cmp_text. by repeat apply ends_solid_app.
Qed.

(** ** The fragment that survives printing *)

Definition quoted_ops : list Operator := [OpEqual; OpNotEqual; OpRegex].
Definition plain_ops : list Operator :=
  [OpGreaterThan; OpGreaterOrEqual; OpLessThan; OpLessOrEqual].

Definition printable_cond (c : Condition) : bool :=
  word (Field c) &&
  (if Op c =? OpExists then is_nil (Value c)
   else match Value c with
        | VString v =>
            if existsb (String.eqb (Op c)) quoted_ops then all_chars quoted_char v
            else existsb (String.eqb (Op c)) plain_ops && word v && negb (v =? "exists")
        | _ => false
        end).

Definition node_op (n : FilterNode) : string :=
  match NodeGroup n with Some g => GroupOperator g | None => "" end.

(** Groups have two children or more, none of which is a group with the same
    connective: the printer would merge the two levels. *)
Fixpoint printable (n : FilterNode) : bool :=
  match n with
  | MkFilterNode t c g =>
      match c, g with
      | Some c', None => (t =? "condition") && printable_cond c'
      | None, Some (MkConditionGroup _ op cs) =>
          (t =? "group") && ((op =? LogicalAnd) || (op =? LogicalOr)) &&
          (2 <=? List.length cs)%nat &&
          forallb (fun n => negb (node_op n =? op) && printable n) cs
      | _, _ => false
      end
  end.

(** Forget the generated identifiers. *)
Definition erase_cond (c : Condition) : Condition :=
  MkCondition "" (Field c) (Op c) (Value c).
Fixpoint erase (n : FilterNode) : FilterNode :=
  match n with
  | MkFilterNode t c g =>
      MkFilterNode t (erase_cond <$> c)
        (match g with
         | Some (MkConditionGroup _ op cs) => Some (MkConditionGroup "" op (map erase cs))
         | None => None
         end)
  end.

(** *** Conditions *)

Section RoundTrip.
Context `{GoRuntime} (newID : nat -> string).

Definition reads_back (e : string) (n : FilterNode) : Prop :=
  forall fuel st, String.length e < fuel ->
    exists n' st', parseExpression newID fuel st e = Ok (n', st') /\ erase n' = erase n.

Lemma cmp_reads_back f sym op body v :
  (sym, op) ∈ expr_operators -> word f = true -> all_chars body_char body = true ->
  starts_solid body = true -> ends_solid body = true ->
  HasSuffix (cmp_text f sym body) " exists" = false -> Trim body quotes = v ->
  forall id, reads_back (cmp_text f sym body)
    (MkFilterNode "condition" (Some (MkCondition id f op (VString v))) None).
Proof.
  intros Hop Hf Hb H1 H2 Hex <- id [|fuel] st Hlen; [lia|].
  rewrite parse_atomic by by eapply cmp_atomic. rewrite Hex.
  erewrite parseOperators_cmp by done. eauto.
Qed.

Lemma exists_reads_back f id :
  word f = true ->
  atomic ("." +:+ f +:+ " exists") /\
  reads_back ("." +:+ f +:+ " exists")
    (MkFilterNode "condition" (Some (MkCondition id f OpExists VNil)) None).
Proof.
  intros Hf.
  assert (forall x, quoted_char x = false -> x <> "."%char ->
    all_chars (is_not x) ("." +:+ f +:+ " exists") = true) as Habs.
  { intros x Hx Hd. rewrite !all_chars_app, (word_chars x f) by done. simpl.
    rewrite !(quoted_not _ x) by done. unfold is_not. by destruct (Ascii.eqb_spec "." x). }
  assert (atomic ("." +:+ f +:+ " exists")) as Ha.
  { constructor; try (by apply Habs); [by apply all_no_paren; apply Habs | done|].
    by repeat apply ends_solid_app. }
  split; [done|]. intros [|fuel] st Hlen; [lia|]. rewrite parse_atomic by done.
  assert (HasSuffix ("." +:+ f +:+ " exists") " exists" = true) as ->.
  { apply HasSuffix_spec. exists ("." +:+ f). by rewrite str_app_assoc. }
  assert (TrimSuffix ("." +:+ f +:+ " exists") " exists" = "." +:+ f) as ->.
  { rewrite <- str_app_assoc. unfold TrimSuffix. rewrite str_rev_append.
    unfold TrimPrefix.
    rewrite (proj2 (strip_prefix_Some _ _ (String.rev ("." +:+ f))) eq_refl).
    apply str_rev_involutive. }
  destruct (word_solid f Hf) as [_ He].
  rewrite TrimSpace_solid by (done || by apply ends_solid_app).
  change (TrimPrefix ("." +:+ f) ".") with f. eauto.
Qed.

Lemma quoted_body v :
  all_chars quoted_char v = true ->
  all_chars body_char ("'" +:+ v +:+ "'") = true /\
  starts_solid ("'" +:+ v +:+ "'") = true /\ ends_solid ("'" +:+ v +:+ "'") = true /\
  forall f sym, HasSuffix (cmp_text f sym ("'" +:+ v +:+ "'")) " exists" = false.
Proof.
  intros Hv. split; [|split; [done|split]].
  - rewrite !all_chars_app. simpl. rewrite andb_true_r.
    eapply all_chars_impl; [|exact Hv]. unfold body_char. by intros c ->.
  - by repeat apply ends_solid_app.
  - intros f sym. unfold cmp_text. rewrite <- !str_app_assoc.
    unfold HasSuffix. rewrite str_rev_append. done.
Qed.

Lemma plain_body v :
  word v = true -> all_chars body_char v = true /\ Trim v quotes = v.
Proof.
  unfold word. intros Hv. bool_props.
  assert (all_chars quoted_char v = true) as Hq
    by (eapply all_chars_impl; [exact safe_is_quoted | done]).
  split; [|by apply Trim_plain].
  eapply all_chars_impl; [|exact Hq]. unfold body_char. by intros c ->.
Qed.

Lemma condition_round_trip c :
  printable_cond c = true ->
  exists e, conditionToExpression (Some c) = Ok e /\ atomic e /\
    reads_back e (MkFilterNode "condition" (Some c) None).
Proof.
  destruct c as [id f op w]. unfold printable_cond. cbn [Field Op Value].
  intros [Hf Hc]%andb_true_iff.
  destruct (String.eqb_spec op OpExists) as [->|Hne].
  { destruct w; try done. exists ("." +:+ f +:+ " exists"). split; [done|].
    by apply exists_reads_back. }
  destruct w as [| | | | |v| | |]; try done.
  destruct (existsb (String.eqb op) quoted_ops) eqn:Eq.
  - destruct (quoted_body v Hc) as (Hb & H1 & H2 & Hex).
    apply existsb_exists in Eq as (op' & Hop & <-%String.eqb_eq).
    assert (exists sym, (sym, op) ∈ expr_operators /\
      conditionToExpression (Some (MkCondition id f op (VString v)))
      = Ok (cmp_text f sym ("'" +:+ v +:+ "'"))) as (sym & Hsym & ->).
    { destruct Hop as [<-|[<-|[<-|[]]]];
        [exists "==" | exists "!=" | exists "~="];
        (split; [set_solver | unfold cmp_text; rewrite !str_app_assoc; reflexivity]). }
    eexists; split; [done|]. split; [by eapply cmp_atomic|].
    apply cmp_reads_back; try done. by apply Trim_quoted.
  - apply andb_true_iff in Hc as [[Hc Hw]%andb_true_iff Hn]. bool_props.
    apply existsb_exists in Hc as (op' & Hop & <-%String.eqb_eq).
    destruct (plain_body v) as [Hb Ht]; [done|].
    destruct (word_solid v) as [H1' H2']; [done|].
    assert (exists sym, (sym, op) ∈ expr_operators /\
      conditionToExpression (Some (MkCondition id f op (VString v)))
      = Ok (cmp_text f sym v)) as (sym & Hsym & ->).
    { destruct Hop as [<-|[<-|[<-|[<-|[]]]]];
        [exists ">" | exists ">=" | exists "<" | exists "<="];
        (split; [set_solver | unfold cmp_text; rewrite !str_app_assoc; reflexivity]). }
    eexists; split; [done|]. split; [by eapply cmp_atomic|].
    apply cmp_reads_back; try done. by apply not_exists_suffix.
Qed.

(** *** Groups *)

(** The text of a child inside a group. *)
Record good_part (p : string) (n : FilterNode) : Prop := {
  part_start : starts_solid p = true;
  part_end : ends_solid p = true;
  part_opaque : forall sep d, is_sep sep -> (0 <= d)%Z -> opaque sep d p;
  part_reads : reads_back p n
}.

(** The text of a node: at depth zero only its own connective may show. *)
Record good_text (e : string) (n : FilterNode) : Prop := {
  text_start : starts_solid e = true;
  text_end : ends_solid e = true;
  text_deep : forall sep d, is_sep sep -> (0 < d)%Z -> opaque sep d e;
  text_reads : reads_back e n
}.

Lemma atomic_good_part e n : atomic e -> reads_back e n -> good_part e n.
Proof.
  intros Ha Hr. split; try apply Ha; [|done]. intros sep d Hsep _. by apply atomic_opaque.
Qed.

Lemma part_good_text e n : good_part e n -> good_text e n.
Proof. intros []. split; auto with lia. Qed.

Lemma substring_front a b : String.substring 0 (String.length a) (a +:+ b) = a.
Proof.
  induction a as [|c a IH]; [by destruct b|]. rewrite str_app_cons. simpl. by rewrite IH.
Qed.

Lemma paren_inner e :
  String.substring 1 (String.length ("(" +:+ e +:+ ")") - 2) ("(" +:+ e +:+ ")") = e.
Proof.
  rewrite !str_length_app. simpl.
  replace (String.length e + 1 - 1) with (String.length e) by lia.
  exact (substring_front e ")").
Qed.

Lemma paren_good_part e n : good_text e n -> good_part ("(" +:+ e +:+ ")") n.
Proof.
  intros [Hs He Hdeep Hr].
  assert (ends_solid ("(" +:+ e +:+ ")") = true) as Hend by by repeat apply ends_solid_app.
  assert (forall sep d, is_sep sep -> (0 <= d)%Z -> opaque sep d ("(" +:+ e +:+ ")")) as Ho.
  { intros sep d Hsep Hd. apply opaque_parens, Hdeep; [done | lia]. }
  split; [done | done | done |]. intros [|fuel] st Hlen; [lia|].
  cbn [parseExpression]. rewrite (TrimSpace_solid ("(" +:+ e +:+ ")")) by done.
  rewrite !splitLogical_opaque by (done || (apply Ho; [by left + by right | lia])).
  rewrite !andb_false_r. unfold parseSingleCondition.
  rewrite (TrimSpace_solid ("(" +:+ e +:+ ")")) by done.
  assert (HasSuffix ("(" +:+ e +:+ ")") ")" = true) as ->.
  { apply HasSuffix_spec. exists ("(" +:+ e). by rewrite str_app_assoc. }
  change (HasPrefix ("(" +:+ e +:+ ")") "(") with true. cbn [andb].
  rewrite paren_inner. apply Hr. rewrite !str_length_app in Hlen. simpl in Hlen. lia.
Qed.

Lemma parse_padded_parts fuel parts cs pads st :
  Forall2 good_part parts cs -> List.length pads = List.length parts ->
  Forall (fun p => String.length p < fuel) parts ->
  exists ns st',
    parse_parts (fun st p => parseExpression newID fuel st (TrimSpace p)) st
      (zip_with (fun lr p => padded lr.1 +:+ p +:+ padded lr.2) pads parts) = Ok (ns, st') /\
    map erase ns = map erase cs.
Proof.
  intros H2. revert pads st. induction H2 as [|p n parts cs Hp H2 IH];
    intros [|[l r] pads] st Hlen HF; simplify_eq/=; [by exists [], st|].
  apply Forall_cons in HF as [Hf HF]. destruct Hp as [Hs He _ Hr].
  rewrite TrimSpace_padded by done.
  destruct (Hr fuel st Hf) as (n' & st1 & -> & Hn'). simpl.
  destruct (IH pads st1) as (ns & st2 & -> & Hns); [done..|]. simpl.
  exists (n' :: ns), st2. simpl. by rewrite Hn', Hns.
Qed.

Definition sep_text (op : LogicalOperator) : string :=
  if op =? LogicalAnd then "&&" else "||".

Lemma join_opaque sep d text parts :
  opaque sep d text -> Forall (opaque sep d) parts -> opaque sep d (Join parts text).
Proof.
  intros Ht. induction 1 as [|p parts Hp HF IH]; [apply opaque_nil|].
  destruct parts; [done|]. by repeat apply opaque_app.
Qed.

Lemma join_solid text parts :
  parts <> [] -> Forall (fun p => starts_solid p = true /\ ends_solid p = true) parts ->
  starts_solid (Join parts text) = true /\ ends_solid (Join parts text) = true.
Proof.
  intros Hne. induction 1 as [|p parts [Hs He] HF IH]; [done|].
  destruct parts as [|q parts]; [done|].
  change (Join (p :: q :: parts) text) with (p +:+ text +:+ Join (q :: parts) text).
  split; [by apply starts_solid_app|]. apply ends_solid_app, ends_solid_app, IH. done.
Qed.

Lemma join_infix text p q parts : infix text (Join (p :: q :: parts) text).
Proof. exists p, (Join (q :: parts) text). done. Qed.

Lemma sep_text_deep sep op d :
  is_sep sep -> (0 < d)%Z -> opaque sep d (" " +:+ sep_text op +:+ " ").
Proof.
  intros _ Hd. apply opaque_chars; [|left; lia]. unfold sep_text. by destruct (op =? LogicalAnd).
Qed.

Lemma group_text_shorter parts op p :
  is_sep (sep_text op) -> 2 <= List.length parts -> p ∈ parts ->
  Forall (fun p => opaque (sep_text op) 0 p /\ p <> "") parts ->
  String.length p < String.length (Join parts (" " +:+ sep_text op +:+ " ")).
Proof.
  intros Hsep. destruct parts as [|a [|b parts]]; simpl; try lia. intros _.
  revert a. generalize (" " +:+ sep_text op +:+ " ") as text. intros text a Hp HF.
  assert (forall q l, q ∈ l -> String.length q <= String.length (Join l text)) as Hle.
  { intros q l. induction l as [|x l IH]; intros Hq; [by apply elem_of_nil in Hq|].
    destruct l as [|y l].
    { by apply list_elem_of_singleton in Hq as ->. }
    change (Join (x :: y :: l) text) with (x +:+ text +:+ Join (y :: l) text).
    rewrite !str_length_app. apply elem_of_cons in Hq as [->|Hq]; [lia|].
    specialize (IH Hq). lia. }
  apply Forall_cons in HF as [[_ Ha] HF].
  change (String.length p < String.length (a +:+ text +:+ Join (b :: parts) text)).
  rewrite !str_length_app. apply elem_of_cons in Hp as [->|Hp].
  - apply Forall_cons in HF as [[_ Hb] _]. pose proof (Hle b (b :: parts) ltac:(set_solver)).
    assert (String.length b <> 0) by (by intros ->%str_length_0). lia.
  - specialize (Hle p _ Hp).
    assert (String.length a <> 0) by (by intros ->%str_length_0). lia.
Qed.

Lemma solid_nonempty p : starts_solid p = true -> p <> "".
Proof. by destruct p. Qed.

(** The parser takes a printed group apart again. *)
Lemma group_reads_back id op parts cs :
  (op = LogicalAnd \/ op = LogicalOr) -> 2 <= List.length cs ->
  Forall2 good_part parts cs ->
  reads_back (Join parts (" " +:+ sep_text op +:+ " "))
    (MkFilterNode "group" None (Some (MkConditionGroup id op cs))).
Proof.
  intros Hop Hlen H2. pose proof (Forall2_length _ _ _ H2) as Hl.
  assert (Forall (fun p => exists n, good_part p n) parts) as HF.
  { eapply Forall2_Forall_l; [exact H2|]. apply Forall_true. eauto. }
  assert (is_sep (sep_text op)) as Hsep by (destruct Hop as [-> | ->]; [by left | by right]).
  set (text := Join parts (" " +:+ sep_text op +:+ " ")).
  assert (starts_solid text = true /\ ends_solid text = true) as [Hs He].
  { apply join_solid; [by destruct parts; simpl in *; [lia|]|].
    eapply Forall_impl; [exact HF|]. by intros p [n []]. }
  assert (Forall (fun p => opaque (sep_text op) 0 p /\ p <> "") parts) as Hop0.
  { eapply Forall_impl; [exact HF|]. intros p [n []]. split; [by auto with lia|].
    by apply solid_nonempty. }
  destruct (split_joined (sep_text op) parts false Hsep) as (pads & Hsplit & Hpads);
    [by destruct parts; simpl in *; [lia|] | done |].
  assert (Contains text (sep_text op) = true) as Hcont.
  { apply Contains_spec. destruct parts as [|p [|q parts]]; simpl in *; try lia.
    etrans; [|apply join_infix]. exists " ", " ". done. }
  assert (1 < List.length (splitLogical text (sep_text op))) as Hmany.
  { unfold splitLogical. cbn [padded] in Hsplit. unfold text. rewrite Hsplit.
    rewrite length_zip_with. lia. }
  intros [|fuel] st Hfuel; [lia|].
  destruct (parse_padded_parts fuel parts cs pads st) as (ns & st' & Hparse & Hns);
    [done | done | |].
  { apply Forall_forall. intros p Hp. apply (group_text_shorter parts op) in Hp;
      [|done | lia | done]. fold text in Hp. lia. }
  exists (MkFilterNode "group" None (Some (MkConditionGroup (newID st') op ns))), (S st').
  split; [|by cbn [erase]; rewrite Hns].
  cbn [parseExpression]. rewrite (TrimSpace_solid text) by done.
  unfold splitLogical in *. cbn [padded] in Hsplit. fold text in Hsplit.
  apply Nat.ltb_lt in Hmany.
  destruct Hop as [-> | ->]; cbn [sep_text] in *.
  - assert (splitLogical text "||" = [text]) as Hor.
    { apply splitLogical_opaque; [|by apply solid_nonempty].
      apply join_opaque.
      - apply opaque_chars; [done|]. right. eauto.
      - eapply Forall_impl; [exact HF|]. intros p [n []].
        apply part_opaque0; [by right | lia]. }
    unfold splitLogical in Hor. rewrite Hor, andb_false_r.
    change (sep_text LogicalAnd) with "&&" in *.
    rewrite Hcont, Hmany. cbn [andb]. rewrite Hsplit, Hparse. done.
  - change (sep_text LogicalOr) with "||" in *.
    rewrite Hcont, Hmany. cbn [andb]. rewrite Hsplit, Hparse. done.
Qed.

(** *** Nodes *)

(** The text of a child as the printer puts it into a group. *)
Lemma child_part op n e :
  printable n = true -> node_op n <> op -> good_text e n ->
  (NodeType n = "condition" -> atomic e) ->
  exists b, needs_parens op n = Ok b /\
    good_part (if b then "(" +:+ e +:+ ")" else e) n.
Proof.
  intros Hp Hop Hg Ha. destruct n as [t [c|] [[id op' cs]|]]; simpl in Hp; try done.
  - bool_props. subst t. exists false. split; [done|].
    apply atomic_good_part; [by apply Ha | apply Hg].
  - bool_props. subst t. exists true. unfold needs_parens. simpl.
    cbn in Hop. apply String.eqb_neq in Hop. rewrite Hop.
    split; [done | by apply paren_good_part].
Qed.

Lemma node_round_trip n :
  printable n = true ->
  exists e, nodeToExpression n = Ok e /\ good_text e n /\
    (NodeType n = "condition" -> atomic e).
Proof.
  induction n as [t c g IH] using node_ind. intros Hp.
  destruct c as [c|], g as [[id op cs]|]; simpl in Hp; try done.
  { apply andb_true_iff in Hp as [->%String.eqb_eq Hc].
    destruct (condition_round_trip c Hc) as (e & He & Ha & Hr).
    exists e. split; [done|]. split; [|done]. by apply part_good_text, atomic_good_part. }
  specialize (IH id op cs eq_refl).
  apply andb_true_iff in Hp as [[[->%String.eqb_eq Hop]%andb_true_iff Hlen]%andb_true_iff Hcs].
  apply orb_true_iff in Hop. rewrite !String.eqb_eq in Hop.
  change ((2 <=? List.length cs)%nat = true) in Hlen. apply Nat.leb_le in Hlen.
  assert (exists parts, print_parts nodeToExpression op cs = Ok parts /\
    Forall2 good_part parts cs) as (parts & Hparts & H2).
  { clear Hlen Hop. induction IH as [|n cs Hn _ IH]; [by exists []|].
    simpl in Hcs. apply andb_true_iff in Hcs as [[Hne Hp]%andb_true_iff Hcs].
    destruct (IH Hcs) as (parts & Hparts & H2).
    destruct (Hn Hp) as (e & He & Hg & Ha).
    destruct (child_part op n e Hp) as (b & Hb & Hpart);
      [by apply negb_true_iff, String.eqb_neq in Hne | done | done |].
    exists ((if b then "(" +:+ e +:+ ")" else e) :: parts). simpl.
    rewrite He. simpl. rewrite Hb. simpl. rewrite Hparts. by split; [|constructor]. }
  exists (Join parts (" " +:+ sep_text op +:+ " ")).
  assert (nodeToExpression (MkFilterNode "group" None (Some (MkConditionGroup id op cs)))
          = Ok (Join parts (" " +:+ sep_text op +:+ " "))) as Hnode.
  { cbn [nodeToExpression groupToExpression]. destruct cs as [|a [|b cs]]; simpl in Hlen; try lia.
    destruct Hop as [-> | ->]; simpl separator; cbv iota; by rewrite Hparts. }
  split; [done|]. split; [|done]. pose proof (Forall2_length _ _ _ H2) as Hl.
  assert (Forall (fun p => exists n, good_part p n) parts) as HF.
  { eapply Forall2_Forall_l; [exact H2|]. apply Forall_true. eauto. }
  destruct (join_solid (" " +:+ sep_text op +:+ " ") parts) as [Hs He].
  { destruct parts; simpl in *; [lia | done]. }
  { eapply Forall_impl; [exact HF|]. by intros p [n []]. }
  split; [done | done | | by apply group_reads_back].
  intros sep d Hsep Hd. apply join_opaque; [by apply sep_text_deep|].
  eapply Forall_impl; [exact HF|]. intros p [n []]. apply part_opaque0; [done | lia].
Qed.
End RoundTrip.

(** ** Properties *)

(** C7: Printing a filter and parsing the text gives the same filter back, up to
    the generated identifiers, for every filter built from the operators the
    grammar has, with unreserved characters in fields and values and with groups
    that alternate connectives. *)
Theorem print_parse_round_trip `{GoRuntime} (newID : nat -> string) (n : FilterNode) :
  printable n = true ->
  exists e n', StructuredToExpression (Some (MkFilter "1" (Some n) "")) = Ok e /\
    ExpressionToStructured newID e = Ok (MkFilter "1" (Some n') "") /\
    erase n' = erase n.
Proof.
  intros Hp. destruct (node_round_trip newID n Hp) as (e & He & [Hs Hend _ Hr] & _).
  destruct (Hr (parse_fuel e) 0) as (n' & st' & Hparse & Hn'); [unfold parse_fuel; lia|].
  exists e, n'. split; [done|]. split; [|done].
  unfold ExpressionToStructured. rewrite TrimSpace_solid by done.
  destruct (String.eqb_spec e "") as [->|_]; [done|]. by rewrite Hparse.
Qed.

Definition demo_printable : FilterNode :=
  Or [ And [NewCondition "level" OpEqual (VString "disk full");
            Or [NewCondition "code" OpGreaterOrEqual (VString "500");
                NewCondition "user.name" OpExists VNil]];
       NewCondition "host" OpRegex (VString "^web-[0-9]+$") ].

Lemma print_parse_round_trip_witness :
  exists e n',
    @StructuredToExpression demo_runtime (Some (MkFilter "1" (Some demo_printable) "")) = Ok e /\
    ExpressionToStructured no_id e = Ok (MkFilter "1" (Some n') "") /\
    erase n' = erase demo_printable.
Proof.
  apply (@print_parse_round_trip demo_runtime no_id). vm_compute. reflexivity.
Defined.

(** The null test does not survive the text form: printed and parsed back it
    has become a comparison with the text [null], which fails on the nil value
    the original accepts. *)
Theorem null_test_lost_in_text `{GoRuntime} (f : string) :
  word f = true -> all_chars (is_not "."%char) f = true ->
  let cond := NewCondition f OpIsNull VNil in
  let data : Data := {[f := VNil]} in
  evaluateNode cond data = Ok true /\
  exists e n', nodeToExpression cond = Ok e /\
    ExpressionToStructured no_id e = Ok (MkFilter "1" (Some n') "") /\
    evaluateNode n' data = Ok false.
Proof.
  intros Hf Hd cond data.
  assert (getNestedValue data f = Some VNil) as Hget.
  { assert (f <> "") as Hne by (intros ->; done).
    unfold getNestedValue, Split. destruct (String.length f) eqn:E.
    { by apply str_length_0 in E. }
    simpl. rewrite (cut_absent "."%char) by done. simpl.
    apply String.eqb_neq in Hne as ->. unfold data. by rewrite lookup_singleton_eq. }
  split.
  { change (evaluateCondition (Some (MkCondition "" f OpIsNull VNil)) data = Ok true).
    unfold evaluateCondition. cbn [Field]. by rewrite Hget. }
  exists (cmp_text f "==" "null"). eexists.
  assert (word "null" = true) as Hn by reflexivity.
  assert (atomic (cmp_text f "==" "null")) as Ha.
  { apply (cmp_atomic _ _ OpEqual); try done. unfold expr_operators. set_solver. }
  split; [unfold cmp_text; by rewrite !str_app_assoc|]. split.
  - unfold ExpressionToStructured. rewrite TrimSpace_solid by apply Ha.
    change (cmp_text f "==" "null" =? "") with false. cbv iota.
    unfold parse_fuel. rewrite parse_atomic by done.
    rewrite not_exists_suffix by done.
    rewrite (parseOperators_cmp _ _ _ _ OpEqual); try done.
    unfold expr_operators. set_solver.
  - change (evaluateCondition (Some (MkCondition "" f OpEqual (VString "null"))) data
      = Ok false).
    unfold evaluateCondition. cbn [Field]. by rewrite Hget.
Qed.

Lemma null_test_lost_in_text_witness :
  @evaluateNode demo_runtime (NewCondition "a" OpIsNull VNil) {["a" := VNil]} = Ok true /\
  exists e n', @nodeToExpression demo_runtime (NewCondition "a" OpIsNull VNil) = Ok e /\
    ExpressionToStructured no_id e = Ok (MkFilter "1" (Some n') "") /\
    @evaluateNode demo_runtime n' {["a" := VNil]} = Ok false.
Proof. apply (@null_test_lost_in_text demo_runtime "a"); reflexivity. Defined.
