(* ===== verification/FilterRegistry.v ===== *)
(** * Filters: the operator registry (pipeline-core/pkg/filter/registry.go)

    The registry keeps a map from identifiers to operator definitions and the
    order of registration beside it. Calls hold the registry's lock, so a run is
    a sequence of operations. *)

From Stdlib Require Import String.
From S2P Require Import Prelude GoString GoValue Filter FilterEval.
Local Open Scope string_scope.

Record OperatorDef := MkOperatorDef {
  ID : string;
  Label : string;
  Description : string;
  NeedsValue : bool;
  ValueType : string;
  Category : string
}.

Record FilterRegistry := MkRegistry {
  operators : gmap string OperatorDef;
  order : list string
}.

Inductive RegistryError :=
| AlreadyRegistered (id : string)
| NotRegistered (id : string).

(** ** Operations: a failed call leaves the registry as it was. *)

Definition Register (r : FilterRegistry) (op : OperatorDef)
  : res RegistryError FilterRegistry :=
  match operators r !! ID op with
  | Some _ => Err (AlreadyRegistered (ID op))
  | None => Ok (MkRegistry (<[ID op := op]> (operators r)) (order r ++ [ID op]))
  end.

Definition Unregister (r : FilterRegistry) (id : string)
  : res RegistryError FilterRegistry :=
  match operators r !! id with
  | None => Err (NotRegistered id)
  | Some _ =>
      Ok (MkRegistry (delete id (operators r))
            (List.filter (fun oid => negb (oid =? id)) (order r)))
  end.

Definition Get (r : FilterRegistry) (id : string) : option OperatorDef :=
  operators r !! id.

Definition List_ (r : FilterRegistry) : list OperatorDef :=
  omap (fun id => operators r !! id) (order r).

Definition ListByCategory (r : FilterRegistry) (category : string) : list OperatorDef :=
  omap (fun id =>
    match operators r !! id with
    | Some op => if Category op =? category then Some op else None
    | None => None
    end) (order r).

(** The loop of [Categories] with the set of categories seen. *)
Fixpoint categories_loop (ops : gmap string OperatorDef) (seen : gset string)
  (ids : list string) : list string :=
  match ids with
  | [] => []
  | id :: ids' =>
      match ops !! id with
      | Some op =>
          if bool_decide (Category op ∈ seen) then categories_loop ops seen ids'
          else Category op :: categories_loop ops ({[Category op]} ∪ seen) ids'
      | None => categories_loop ops seen ids'
      end
  end.
Definition Categories (r : FilterRegistry) : list string :=
  categories_loop (operators r) ∅ (order r).

Definition IsValid (r : FilterRegistry) (id : string) : bool :=
  bool_decide (is_Some (operators r !! id)).

(** ** The built-in operators *)

Definition builtin_operators : list OperatorDef :=
  [ MkOperatorDef "eq" "같음 (==)" "값이 동일한 경우" true "string" "comparison";
    MkOperatorDef "neq" "다름 (!=)" "값이 다른 경우" true "string" "comparison";
    MkOperatorDef "gt" "초과 (>)" "값보다 큰 경우" true "number" "comparison";
    MkOperatorDef "gte" "이상 (>=)" "값 이상인 경우" true "number" "comparison";
    MkOperatorDef "lt" "미만 (<)" "값보다 작은 경우" true "number" "comparison";
    MkOperatorDef "lte" "이하 (<=)" "값 이하인 경우" true "number" "comparison";
    MkOperatorDef "contains" "포함" "문자열에 값이 포함된 경우" true "string" "string";
    MkOperatorDef "startswith" "시작" "문자열이 값으로 시작하는 경우" true "string" "string";
    MkOperatorDef "endswith" "끝" "문자열이 값으로 끝나는 경우" true "string" "string";
    MkOperatorDef "regex" "정규식" "정규식 패턴과 일치하는 경우" true "regex" "string";
    MkOperatorDef "exists" "존재함" "필드가 존재하는 경우" false "" "existence";
    MkOperatorDef "notexists" "존재안함" "필드가 존재하지 않는 경우" false "" "existence";
    MkOperatorDef "null" "NULL" "값이 null인 경우" false "" "existence";
    MkOperatorDef "notnull" "NOT NULL" "값이 null이 아닌 경우" false "" "existence";
    MkOperatorDef "in" "목록 포함" "값이 목록에 포함된 경우" true "array" "collection";
    MkOperatorDef "notin" "목록 미포함" "값이 목록에 포함되지 않은 경우" true "array" "collection"
  ].

(** [_ = r.Register(op)]: the error is discarded. *)
Definition register_ (r : FilterRegistry) (op : OperatorDef) : FilterRegistry :=
  match Register r op with Ok r' => r' | _ => r end.

Definition registerBuiltinOperators (r : FilterRegistry) : FilterRegistry :=
  foldl register_ r builtin_operators.

Definition NewRegistry : FilterRegistry :=
  registerBuiltinOperators (MkRegistry ∅ []).

(** ** Runs *)

Inductive RegistryCall :=
| CallRegister (op : OperatorDef)
| CallUnregister (id : string).

Definition step (r : FilterRegistry) (c : RegistryCall) : FilterRegistry :=
  match c with
  | CallRegister op => register_ r op
  | CallUnregister id => match Unregister r id with Ok r' => r' | _ => r end
  end.

Definition run (r : FilterRegistry) (calls : list RegistryCall) : FilterRegistry :=
  foldl step r calls.

(** ** The invariant: the map and the order hold the same identifiers *)

Record registry_ok (r : FilterRegistry) : Prop := {
  ok_nodup : NoDup (order r);
  ok_dom : forall id, id ∈ order r <-> is_Some (operators r !! id);
  ok_id : forall id op, operators r !! id = Some op -> ID op = id
}.

Lemma elem_of_filter_ids id x (l : list string) :
  x ∈ List.filter (fun oid => negb (oid =? id)) l <-> x <> id /\ x ∈ l.
Proof. rewrite elem_of_bfilter, negb_true_iff, String.eqb_neq. tauto. Qed.

Lemma Register_ok r op r' : registry_ok r -> Register r op = Ok r' -> registry_ok r'.
Proof.
  intros [Hnd Hdom Hid]. unfold Register.
  destruct (operators r !! ID op) eqn:E; [done|]. intros [= <-]. split; simpl.
  - apply NoDup_app. split; [done|]. split; [|apply NoDup_singleton].
    intros x Hx ->%list_elem_of_singleton. apply Hdom in Hx as [? Hx]. congruence.
  - intros id. rewrite elem_of_app, list_elem_of_singleton, Hdom, lookup_insert_is_Some'.
    naive_solver.
  - intros id op'. rewrite lookup_insert_Some. naive_solver.
Qed.

Lemma Unregister_ok r id r' : registry_ok r -> Unregister r id = Ok r' -> registry_ok r'.
Proof.
  intros [Hnd Hdom Hid]. unfold Unregister.
  destruct (operators r !! id) eqn:E; [|done]. intros [= <-]. split; simpl.
  - by apply NoDup_bfilter.
  - intros x. rewrite elem_of_filter_ids, Hdom, lookup_delete_is_Some. naive_solver.
  - intros x op'. rewrite lookup_delete_Some. naive_solver.
Qed.

Lemma step_ok r c : registry_ok r -> registry_ok (step r c).
Proof.
  intros Hr. destruct c as [op|id]; simpl; unfold register_.
  - destruct (Register r op) eqn:E; [by eapply Register_ok | done..].
  - destruct (Unregister r id) eqn:E; [by eapply Unregister_ok | done..].
Qed.

Lemma run_ok r calls : registry_ok r -> registry_ok (run r calls).
Proof.
  revert r. induction calls as [|c calls IH]; intros r Hr; [done|].
  apply IH, step_ok, Hr.
Qed.

Lemma empty_ok : registry_ok (MkRegistry ∅ []).
Proof.
  split; simpl; [constructor| |done]. intros id. rewrite lookup_empty.
  split; [by intros ?%elem_of_nil | by intros [??]].
Qed.

Lemma NewRegistry_ok : registry_ok NewRegistry.
Proof.
  unfold NewRegistry, registerBuiltinOperators. generalize empty_ok.
  generalize (MkRegistry ∅ []). induction builtin_operators as [|op ops IH]; [done|].
  intros r Hr. apply IH, (step_ok r (CallRegister op)), Hr.
Qed.

(** ** Against an ordered list of operators *)

(** What the registry promises: an ordered list without duplicate identifiers. *)
Definition spec_step (l : list OperatorDef) (c : RegistryCall) : list OperatorDef :=
  match c with
  | CallRegister op =>
      if existsb (fun x => ID x =? ID op) l then l else l ++ [op]
  | CallUnregister id => List.filter (fun x => negb (ID x =? id)) l
  end.

Definition spec_get (l : list OperatorDef) (id : string) : option OperatorDef :=
  List.find (fun x => ID x =? id) l.

Lemma List_elem r op : registry_ok r -> op ∈ List_ r <-> operators r !! ID op = Some op.
Proof.
  intros [Hnd Hdom Hid]. unfold List_. rewrite list_elem_of_omap. split.
  - intros (id & _ & H). by rewrite (Hid _ _ H).
  - intros H. exists (ID op). split; [apply Hdom; eauto | done].
Qed.

Lemma omap_ext_in {A B} (f g : A -> option B) (l : list A) :
  (forall x, x ∈ l -> f x = g x) -> omap f l = omap g l.
Proof.
  induction l as [|x l IH]; intros H; [done|]. simpl.
  rewrite (H x) by set_solver. destruct (g x); [f_equal|]; apply IH; set_solver.
Qed.

Lemma List_step r c : registry_ok r -> List_ (step r c) = spec_step (List_ r) c.
Proof.
  intros Hr. pose proof Hr as [Hnd Hdom Hid]. destruct c as [op|id]; simpl.
  - unfold register_, Register.
    assert (existsb (fun x => ID x =? ID op) (List_ r)
            = bool_decide (is_Some (operators r !! ID op))) as ->.
    { apply eq_true_iff_eq. rewrite existsb_exists, bool_decide_eq_true. split.
      - intros (x & Hx & E%String.eqb_eq). apply list_elem_of_In, (List_elem _ _ Hr) in Hx.
        rewrite <- E. eauto.
      - intros [x Hx]. exists x. rewrite <- list_elem_of_In, (List_elem _ _ Hr).
        rewrite (Hid _ _ Hx), String.eqb_refl. done. }
    destruct (operators r !! ID op) eqn:E; simpl; [done|].
    unfold List_ at 1. simpl. rewrite omap_app. simpl. rewrite lookup_insert_eq.
    f_equal. apply omap_ext_in. intros x Hx. apply lookup_insert_ne.
    intros <-. apply Hdom in Hx as [? Hx]. congruence.
  - unfold Unregister. destruct (operators r !! id) eqn:E.
    + unfold List_. simpl. clear Hnd E Hr. 
      assert (forall x, x ∈ order r -> is_Some (operators r !! x)) as Hin by (intros; by apply Hdom).
      clear Hdom. induction (order r) as [|x l IH]; [done|]. simpl.
      destruct (Hin x) as [op0 Ho]; [set_solver|]. rewrite Ho. simpl.
      rewrite (Hid _ _ Ho). destruct (String.eqb_spec x id) as [->|Hne]; simpl.
      * apply IH. set_solver.
      * rewrite lookup_delete_ne, Ho by done. f_equal. apply IH. set_solver.
    + symmetry. apply List.forallb_filter_id, forallb_forall. intros x Hx.
      apply negb_true_iff, String.eqb_neq. intros <-.
      apply list_elem_of_In, (List_elem _ _ Hr) in Hx. congruence.
Qed.

(** After any sequence of registrations and removals, starting from the
    built-in operators, [List] is the registration order kept as a plain list
    without duplicates, and [Get] and [IsValid] look identifiers up in it. *)
Theorem registry_refines_list (calls : list RegistryCall) (id : string) :
  let r := run NewRegistry calls in
  List_ r = foldl spec_step (List_ NewRegistry) calls /\
  NoDup (ID <$> List_ r) /\
  Get r id = spec_get (List_ r) id /\
  IsValid r id = existsb (fun x => ID x =? id) (List_ r).
Proof.
  set (r := run NewRegistry calls). cbv zeta.
  assert (registry_ok r) as Hr by apply run_ok, NewRegistry_ok.
  assert (Get r id = spec_get (List_ r) id) as Hget.
  { unfold Get, spec_get. destruct (List.find _ _) as [x|] eqn:E.
    - apply List.find_some in E as [Hx <-%String.eqb_eq].
      by apply list_elem_of_In, (List_elem _ _ Hr) in Hx.
    - destruct (operators r !! id) as [x|] eqn:Ex; [|done].
      pose proof (ok_id _ Hr _ _ Ex) as <-. apply (List_elem _ _ Hr), list_elem_of_In in Ex.
      eapply List.find_none in E; [|done]. by rewrite String.eqb_refl in E. }
  split; [|split; [|split; [done|]]].
  - subst r. generalize NewRegistry_ok. generalize NewRegistry. clear.
    induction calls as [|c calls IH]; intros r Hr; [done|]. simpl.
    rewrite <- List_step by done. apply IH, step_ok, Hr.
  - assert (ID <$> List_ r = order r) as ->; [|apply Hr]. clear Hget.
    destruct Hr as [_ Hdom Hid]. unfold List_.
    assert (forall x, x ∈ order r -> is_Some (operators r !! x)) as Hin by (intros; by apply Hdom).
    clear Hdom. induction (order r) as [|x l IH]; [done|]. simpl.
    destruct (Hin x) as [op0 Ho]; [set_solver|]. rewrite Ho. simpl.
    rewrite (Hid _ _ Ho). f_equal. apply IH. set_solver.
  - unfold Get, spec_get in Hget. unfold IsValid. rewrite Hget. clear Hget Hr.
    induction (List_ r) as [|x l IH]; [done|]. simpl. by destruct (ID x =? id).
Qed.

(** ** Categories *)

Lemma categories_loop_spec ops seen ids c :
  c ∈ categories_loop ops seen ids <->
  (c ∉ seen) /\ exists id op, id ∈ ids /\ ops !! id = Some op /\ Category op = c.
Proof.
  revert seen. induction ids as [|id ids IH]; intros seen; simpl; [set_solver|].
  destruct (ops !! id) as [op|] eqn:E.
  - case_bool_decide as Hs; rewrite ?elem_of_cons, IH, ?not_elem_of_union,
      ?not_elem_of_singleton; setoid_rewrite elem_of_cons; [naive_solver|].
    destruct (decide (c = Category op)) as [->|]; naive_solver.
  - rewrite IH. setoid_rewrite elem_of_cons. naive_solver.
Qed.

Lemma categories_loop_nodup ops seen ids : NoDup (categories_loop ops seen ids).
Proof.
  revert seen. induction ids as [|id ids IH]; intros seen; simpl; [constructor|].
  destruct (ops !! id) as [op|]; [|apply IH].
  case_bool_decide; [apply IH|]. constructor; [|apply IH].
  rewrite categories_loop_spec. set_solver.
Qed.

Lemma ListByCategory_spec r op c :
  op ∈ ListByCategory r c <-> op ∈ List_ r /\ Category op = c.
Proof.
  unfold ListByCategory, List_. rewrite !list_elem_of_omap. split.
  - intros (id & Hid & H). destruct (operators r !! id) eqn:E; [|done].
    destruct (String.eqb_spec (Category o) c); simplify_eq. eauto 6.
  - intros [(id & Hid & H) <-]. exists id. rewrite H, String.eqb_refl. done.
Qed.

(** [Categories] and [ListByCategory] partition the operators: categories are
    listed once each and are exactly those in use, and every operator listed is in
    the list of one listed category, its own. *)
Theorem categories_partition (calls : list RegistryCall) (op : OperatorDef) (c : string) :
  let r := run NewRegistry calls in
  NoDup (Categories r) /\
  (c ∈ Categories r <-> ListByCategory r c <> []) /\
  (op ∈ List_ r <-> exists c', c' ∈ Categories r /\ op ∈ ListByCategory r c') /\
  (op ∈ ListByCategory r c -> Category op = c).
Proof.
  set (r := run NewRegistry calls). cbv zeta.
  assert (forall c, c ∈ Categories r <-> exists op, op ∈ ListByCategory r c) as Hc.
  { intros c'. unfold Categories. rewrite categories_loop_spec.
    setoid_rewrite ListByCategory_spec. unfold List_.
    setoid_rewrite list_elem_of_omap. set_solver. }
  split; [apply categories_loop_nodup|]. split; [|split].
  - rewrite Hc. destruct (ListByCategory r c) as [|x l]; [set_solver|].
    split; [done|]. intros _. exists x. set_solver.
  - split.
    + intros Hop. assert (op ∈ ListByCategory r (Category op)) as H
        by (by apply ListByCategory_spec). exists (Category op). split; [|done].
      apply Hc. eauto.
    + intros (c' & _ & [H _]%ListByCategory_spec). done.
  - by intros [_ H]%ListByCategory_spec.
Qed.

(** ** The registry, the evaluator and the validator *)

Definition evaluates (op : Operator) : Prop :=
  forall (rt : GoRuntime) id f v data,
    evaluateCondition (Some (MkCondition id f op v)) data <> Err (EvUnsupportedOperator op).

Lemma List_NewRegistry : List_ NewRegistry = builtin_operators.
Proof. vm_compute. reflexivity. Qed.

Lemma Get_List r op d :
  registry_ok r -> Get r op = Some d <-> d ∈ List_ r /\ ID d = op.
Proof.
  intros Hr. rewrite (List_elem _ _ Hr). unfold Get. split.
  - intros Hd. by rewrite (ok_id _ Hr _ _ Hd).
  - by intros [Hd <-].
Qed.

Lemma Get_builtin op d :
  Get NewRegistry op = Some d <-> d ∈ builtin_operators /\ ID d = op.
Proof. rewrite <- List_NewRegistry. apply Get_List, NewRegistry_ok. Qed.

Lemma builtin_needs_value d :
  d ∈ builtin_operators -> NeedsValue d = negb (noValueOps (ID d)).
Proof.
  revert d. apply Forall_forall. repeat (constructor; [reflexivity|]). constructor.
Qed.

(** A builtin operator is one of the evaluator's cases. *)
Lemma builtin_compare `{GoRuntime} d a v :
  d ∈ builtin_operators -> noValueOps (ID d) = false ->
  compare a (ID d) v <> Err (EvUnsupportedOperator (ID d)).
Proof.
  revert d. apply (proj1 (Forall_forall (fun d => noValueOps (ID d) = false ->
    compare a (ID d) v <> Err (EvUnsupportedOperator (ID d))) _)).
  repeat (constructor; [intros Hn; try discriminate Hn; cbn; first [discriminate | by case_match]|]).
  constructor.
Qed.

Ltac builtin := apply (bool_decide_unpack _); vm_compute; exact I.

Lemma unknown_compare `{GoRuntime} op a v :
  op ∉ ID <$> builtin_operators ->
  noValueOps op = false /\ compare a op v = Err (EvUnsupportedOperator op).
Proof.
  intros Hnin.
  assert (forall x, x ∈ ID <$> builtin_operators -> (op =? x) = false) as Hne.
  { intros x Hx. apply String.eqb_neq. intros ->. by apply Hnin. }
  unfold noValueOps, compare.
  rewrite !(Hne OpExists), !(Hne OpNotExists), !(Hne OpIsNull), !(Hne OpIsNotNull),
    (Hne OpEqual), (Hne OpNotEqual), (Hne OpGreaterThan), (Hne OpGreaterOrEqual),
    (Hne OpLessThan), (Hne OpLessOrEqual), (Hne OpContains), (Hne OpStartsWith),
    (Hne OpEndsWith), (Hne OpRegex), (Hne OpIn), (Hne OpNotIn) by builtin.
  done.
Qed.

Lemma evaluateCondition_compare `{GoRuntime} id f op v data :
  noValueOps op = false ->
  evaluateCondition (Some (MkCondition id f op v)) data =
    match getNestedValue data f with Some a => compare a op v | None => Ok false end.
Proof.
  unfold noValueOps, evaluateCondition. cbn [Op Field Value].
  destruct (op =? OpExists); [done|]. destruct (op =? OpNotExists); [done|].
  destruct (op =? OpIsNull); [done|]. by destruct (op =? OpIsNotNull).
Qed.

Lemma evaluateCondition_no_value `{GoRuntime} id f op v data :
  noValueOps op = true ->
  evaluateCondition (Some (MkCondition id f op v)) data <> Err (EvUnsupportedOperator op).
Proof.
  unfold noValueOps. intros Hn. unfold evaluateCondition. cbn [Op Field Value].
  destruct (op =? OpExists); [done|]. destruct (op =? OpNotExists); [done|].
  destruct (op =? OpIsNull); [done|]. by destruct (op =? OpIsNotNull).
Qed.

Lemma demo_field : getNestedValue {["a" := VNil]} "a" = Some VNil.
Proof. vm_compute. reflexivity. Qed.

Lemma builtin_named d : d ∈ builtin_operators -> ID d <> "".
Proof.
  revert d. apply Forall_forall. unfold builtin_operators. repeat constructor; done.
Qed.

#[local] Opaque NewRegistry builtin_operators.

(** C34: The registry and the evaluator agree on which operators exist: the built-in
    operators are exactly those the evaluator supports. The registry and
    [Condition.Validate] agree on which of them need a value: a condition on a named
    field that has no value is refused for that reason exactly when the definition
    says so, and is accepted otherwise. The validator does not look operators up: it
    accepts every operator that is not empty when the condition has a field and a
    value, also one the evaluator refuses. *)
Theorem builtin_operators_agree (op : Operator) :
  (IsValid NewRegistry op = true <-> evaluates op) /\
  (forall d id f, Get NewRegistry op = Some d -> f <> "" ->
     ConditionValidate (MkCondition id f op VNil) =
       if NeedsValue d then Err (ErrValueRequired op) else Ok tt) /\
  (forall id f v, f <> "" -> op <> "" -> v <> VNil ->
     ConditionValidate (MkCondition id f op v) = Ok tt).
Proof.
  split; [|split].
  2: { intros d id f [Hd <-]%Get_builtin Hf. unfold ConditionValidate. cbn [Field Op Value is_nil].
    rewrite (proj2 (String.eqb_neq f "") Hf), (proj2 (String.eqb_neq _ "") (builtin_named d Hd)).
    rewrite (builtin_needs_value d Hd). by destruct (noValueOps (ID d)). }
  2: { intros id f v Hf Ho Hv. apply ConditionValidate_ok. cbn. by split; [|split; [|right]]. }
  unfold IsValid. rewrite bool_decide_eq_true. fold (Get NewRegistry op). split.
  - intros [d [Hd <-]%Get_builtin] rt id f v data.
    destruct (noValueOps (ID d)) eqn:E; [by apply evaluateCondition_no_value|].
    rewrite evaluateCondition_compare by done.
    destruct (getNestedValue data f) as [a|]; [by apply builtin_compare | done].
  - intros Hev. destruct (decide (op ∈ ID <$> builtin_operators)) as [Hin|Hnin].
    { apply list_elem_of_fmap in Hin as (d & -> & Hd). exists d. by apply Get_builtin. }
    destruct (Hev demo_runtime "" "a" VNil {["a" := VNil]}).
    destruct (@unknown_compare demo_runtime op VNil VNil Hnin) as [Hn Hc].
    by rewrite evaluateCondition_compare, demo_field.
Qed.
