(* ===== verification/Mailbox.v ===== *)
(** * Actors: the mailbox (pipeline-core/pkg/actor/mailbox.go)

    A mailbox is a buffered channel with a policy for what happens when the
    buffer is full. The first part gives each method as a call that runs alone.
    The second part is the interleaving semantics: [Push] reads the closed flag
    under the lock and sends after it has released the lock, so a call is several
    atomic steps and other goroutines run in between. *)

From Stdlib Require Import String.
From stdpp Require Import relations.
From S2P Require Import Prelude.
Local Open Scope string_scope.
Local Open Scope list_scope.

Definition OverflowStrategy := string.
Definition OverflowBackpressure : OverflowStrategy := "backpressure".
Definition OverflowDropOldest : OverflowStrategy := "drop_oldest".
Definition OverflowDropNewest : OverflowStrategy := "drop_newest".

Record MailboxConfig := MkMailboxConfig {
  Capacity : Z;
  Strategy : OverflowStrategy
}.

Inductive MailboxError := ErrMailboxFull | ErrMailboxClosed.

(** [closed] is the flag of the struct and the state of the channel: [Close] sets
    both in one critical section. *)
Record Mailbox (M : Type) := MkMailbox {
  capacity : nat;
  overflowStrategy : OverflowStrategy;
  messages : list M;
  closed : bool
}.
Arguments MkMailbox {M}.
Arguments capacity {M}.
Arguments overflowStrategy {M}.
Arguments messages {M}.
Arguments closed {M}.

(** The effect of a call: it returns, or it blocks on the channel. *)
Inductive outcome (A S : Type) :=
| Returns (a : A) (s : S)
| Blocks
| Panics.
Arguments Returns {A S}.
Arguments Blocks {A S}.
Arguments Panics {A S}.

Definition default_capacity : nat := Z.to_nat 10000.

Section Methods.
Context {M : Type} (zero : M).

Definition NewMailbox (config : option MailboxConfig) : Mailbox M :=
  let cap := match config with
             | Some c => if (0 <? Capacity c)%Z then Z.to_nat (Capacity c) else default_capacity
             | None => default_capacity
             end in
  let strategy := match config with
                  | Some c => if negb (Strategy c =? "") then Strategy c
                              else OverflowBackpressure
                  | None => OverflowBackpressure
                  end in
  MkMailbox cap strategy [] false.

Definition full (m : Mailbox M) : bool :=
  (capacity m <=? List.length (messages m))%nat.

Definition set_messages (m : Mailbox M) (l : list M) : Mailbox M :=
  MkMailbox (capacity m) (overflowStrategy m) l (closed m).

(** [m.messages <- msg] when there is room. *)
Definition enqueue (m : Mailbox M) (msg : M) : Mailbox M :=
  set_messages m (messages m ++ [msg]).

(** [Push], with no other goroutine running. *)
Definition Push (m : Mailbox M) (msg : M)
  : outcome (res MailboxError unit) (Mailbox M) :=
  if closed m then Returns (Err ErrMailboxClosed) m
  else if overflowStrategy m =? OverflowBackpressure then
    if negb (full m) then Returns (Ok tt) (enqueue m msg) else Blocks
  else if overflowStrategy m =? OverflowDropOldest then
    if negb (full m) then Returns (Ok tt) (enqueue m msg)
    else
      let m' := set_messages m (tail (messages m)) in
      if negb (full m') then Returns (Ok tt) (enqueue m' msg) else Blocks
  else if overflowStrategy m =? OverflowDropNewest then
    if negb (full m) then Returns (Ok tt) (enqueue m msg)
    else Returns (Err ErrMailboxFull) m
  else
    if negb (full m) then Returns (Ok tt) (enqueue m msg)
    else Returns (Err ErrMailboxFull) m.

(** [Pop]: a receive; a closed and empty channel gives the zero value. *)
Definition Pop (m : Mailbox M) : outcome (M * bool) (Mailbox M) :=
  match messages m with
  | msg :: rest => Returns (msg, true) (set_messages m rest)
  | [] => if closed m then Returns (zero, false) m else Blocks
  end.

(** [TryPop]: the receive case of the select is ready on a closed channel too,
    and the method answers [true] whenever that case is taken. *)
Definition TryPop (m : Mailbox M) : M * bool * Mailbox M :=
  match messages m with
  | msg :: rest => (msg, true, set_messages m rest)
  | [] => if closed m then (zero, true, m) else (zero, false, m)
  end.

Definition Len (m : Mailbox M) : nat := List.length (messages m).

Definition Close (m : Mailbox M) : Mailbox M :=
  if negb (closed m) then
    MkMailbox (capacity m) (overflowStrategy m) (messages m) true
  else m.

Definition IsClosed (m : Mailbox M) : bool := closed m.

(** The loop of [Drain]; the buffer shrinks on every round. *)
Fixpoint drain_loop (fuel : nat) (acc : list M) (m : Mailbox M)
  : option (list M * Mailbox M) :=
  match fuel with
  | O => None
  | S fuel' =>
      match messages m with
      | msg :: rest => drain_loop fuel' (acc ++ [msg]) (set_messages m rest)
      | [] => Some (acc, m)
      end
  end.
Definition Drain (m : Mailbox M) : option (list M * Mailbox M) :=
  drain_loop (S (List.length (messages m))) [] m.

(** A sequence of pushes by one goroutine; the results are collected. *)
Fixpoint push_all (m : Mailbox M) (l : list M)
  : outcome (list (res MailboxError unit)) (Mailbox M) :=
  match l with
  | [] => Returns [] m
  | msg :: l' =>
      match Push m msg with
      | Returns r m' =>
          match push_all m' l' with
          | Returns rs m'' => Returns (r :: rs) m''
          | Blocks => Blocks
          | Panics => Panics
          end
      | Blocks => Blocks
      | Panics => Panics
      end
  end.
End Methods.

(** ** Interleaving *)

(** Where a goroutine is inside [Push]. *)
Inductive PushState (M : Type) :=
| PStart (msg : M)                    (* before the closed check *)
| PSelect (msg : M)                   (* check passed, at the first select *)
| PDropping (msg : M)                 (* drop_oldest, at the inner select *)
| PSending (msg : M)                  (* at the blocking send *)
| PDone (r : res MailboxError unit)
| PPanicked.
Arguments PStart {M}.
Arguments PSelect {M}.
Arguments PDropping {M}.
Arguments PSending {M}.
Arguments PDone {M}.
Arguments PPanicked {M}.

(** The mailbox, the pushing goroutines and three logs: what entered the channel,
    what left it, and the messages that [Pop] and [TryPop] answered with [true]. *)
Record World (M : Type) := MkWorld {
  box : Mailbox M;
  pushers : gmap nat (PushState M);
  sent : list M;
  removed : list M;
  received : list M
}.
Arguments MkWorld {M}.
Arguments box {M}.
Arguments pushers {M}.
Arguments sent {M}.
Arguments removed {M}.
Arguments received {M}.

Section Interleaving.
Context {M : Type} (zero : M).
Implicit Types (w : World M) (msg : M).

Definition goto w (t : nat) (s : PushState M) : World M :=
  MkWorld (box w) (<[t := s]> (pushers w)) (sent w) (removed w) (received w).

Definition deliver w (t : nat) msg : World M :=
  MkWorld (enqueue (box w) msg) (<[t := PDone (Ok tt)]> (pushers w))
    (sent w ++ [msg]) (removed w) (received w).

(** What the first select of [Push] does on a full buffer. *)
Definition on_full (s : OverflowStrategy) msg : PushState M :=
  if s =? OverflowBackpressure then PSending msg
  else if s =? OverflowDropOldest then PDropping msg
  else PDone (Err ErrMailboxFull).

Inductive world_step : World M -> World M -> Prop :=
| step_start w t msg :
    pushers w !! t = None -> world_step w (goto w t (PStart msg))
| step_check w t msg :
    pushers w !! t = Some (PStart msg) ->
    world_step w (goto w t
      (if closed (box w) then PDone (Err ErrMailboxClosed) else PSelect msg))
| step_select_send w t msg :
    pushers w !! t = Some (PSelect msg) -> closed (box w) = false ->
    full (box w) = false -> world_step w (deliver w t msg)
| step_select_full w t msg :
    pushers w !! t = Some (PSelect msg) -> closed (box w) = false ->
    full (box w) = true ->
    world_step w (goto w t (on_full (overflowStrategy (box w)) msg))
| step_select_panic w t msg :
    pushers w !! t = Some (PSelect msg) -> closed (box w) = true ->
    world_step w (goto w t PPanicked)
| step_drop w t msg x rest :
    pushers w !! t = Some (PDropping msg) -> messages (box w) = x :: rest ->
    world_step w (MkWorld (set_messages (box w) rest)
      (<[t := PSending msg]> (pushers w)) (sent w) (removed w ++ [x]) (received w))
| step_drop_nothing w t msg :
    pushers w !! t = Some (PDropping msg) -> messages (box w) = [] ->
    world_step w (goto w t (PSending msg))
| step_send w t msg :
    pushers w !! t = Some (PSending msg) -> closed (box w) = false ->
    full (box w) = false -> world_step w (deliver w t msg)
| step_send_panic w t msg :
    pushers w !! t = Some (PSending msg) -> closed (box w) = true ->
    world_step w (goto w t PPanicked)
| step_receive w x rest :
    messages (box w) = x :: rest ->
    world_step w (MkWorld (set_messages (box w) rest) (pushers w)
      (sent w) (removed w ++ [x]) (received w ++ [x]))
| step_pop_end w :
    messages (box w) = [] -> closed (box w) = true -> world_step w w
| step_try_pop_empty w :
    messages (box w) = [] -> closed (box w) = false -> world_step w w
| step_try_pop_closed w :
    messages (box w) = [] -> closed (box w) = true ->
    world_step w (MkWorld (box w) (pushers w)
      (sent w) (removed w) (received w ++ [zero]))
| step_close w :
    world_step w (MkWorld (Close (box w)) (pushers w)
      (sent w) (removed w) (received w)).

Definition initial (config : option MailboxConfig) : World M :=
  MkWorld (NewMailbox config) ∅ [] [] [].

Definition reachable (config : option MailboxConfig) (w : World M) : Prop :=
  rtc world_step (initial config) w.
End Interleaving.

(** ** Invariants of every interleaving *)

Section Invariants.
Context {M : Type} (zero : M).
Implicit Types (w : World M) (msg : M).

(** What receivers got: messages that left the channel, in order, and then the
    zero messages of [TryPop], which need a closed and empty channel. *)
Definition received_ok w : Prop :=
  exists real n, received w = real ++ replicate n zero /\
    real `sublist_of` removed w /\
    (overflowStrategy (box w) <> OverflowDropOldest -> real = removed w) /\
    (n = 0 \/ (closed (box w) = true /\ messages (box w) = [])).

Record world_ok (w : World M) : Prop := {
  wk_capacity : 0 < capacity (box w);
  wk_bounded : List.length (messages (box w)) <= capacity (box w);
  wk_fifo : sent w = removed w ++ messages (box w);
  wk_received : received_ok w;
  wk_no_drop : overflowStrategy (box w) <> OverflowDropOldest ->
    forall t msg, pushers w !! t <> Some (PDropping msg);
  wk_panic : forall t, pushers w !! t = Some PPanicked -> closed (box w) = true
}.

Lemma NewMailbox_capacity config : 0 < capacity (@NewMailbox M config).
Proof.
  assert (0 < default_capacity) by (unfold default_capacity; lia).
  destruct config as [c|]; simpl; [|done].
  destruct (Capacity c) eqn:E; simpl; [done | lia | done].
Qed.

Lemma initial_ok config : world_ok (initial config).
Proof.
  split; simpl; try done; try apply NewMailbox_capacity; try lia.
  exists [], 0. auto.
Qed.

Lemma full_false (m : Mailbox M) :
  full m = false -> List.length (messages m) < capacity m.
Proof. unfold full. intros H. by bool_props. Qed.

Lemma goto_ok w t s :
  world_ok w ->
  (overflowStrategy (box w) <> OverflowDropOldest -> forall msg, s <> PDropping msg) ->
  (s = PPanicked -> closed (box w) = true) ->
  world_ok (goto w t s).
Proof.
  intros [] Hs Hp. split; simpl; try done.
  - intros H t' msg [[<- ?]|[? ?]]%lookup_insert_Some;
      [by eapply Hs | by eapply wk_no_drop0].
  - intros t' [[<- ?]|[? ?]]%lookup_insert_Some; eauto.
Qed.

Lemma deliver_ok w t msg :
  world_ok w -> closed (box w) = false -> full (box w) = false ->
  world_ok (deliver w t msg).
Proof.
  intros [] Hopen Hfull%full_false. split; simpl; try done.
  - rewrite length_app. simpl. lia.
  - by rewrite wk_fifo0, app_assoc.
  - destruct wk_received0 as (real & n & Hr & Hsub & Hall & [->|[? _]]); [|congruence].
    exists real, 0. auto.
  - intros H t' msg' [[<- ?]|[? ?]]%lookup_insert_Some; [done | by eapply wk_no_drop0].
  - intros t' [[<- ?]|[? ?]]%lookup_insert_Some; [done | eauto].
Qed.

Lemma Close_fields (m : Mailbox M) :
  capacity (Close m) = capacity m /\ messages (Close m) = messages m /\
  overflowStrategy (Close m) = overflowStrategy m /\ closed (Close m) = true.
Proof. unfold Close. by destruct (closed m) eqn:E. Qed.

(** A message is in the channel: no zero message was answered yet. *)
Lemma received_ok_open w :
  received_ok w -> messages (box w) <> [] ->
  received w `sublist_of` removed w /\
  (overflowStrategy (box w) <> OverflowDropOldest -> received w = removed w).
Proof.
  intros (real & n & -> & Hsub & Hall & [->|[_ ?]]) Hm; [|done].
  simpl. rewrite app_nil_r. auto.
Qed.

Lemma world_step_ok w w' : world_ok w -> world_step zero w w' -> world_ok w'.
Proof.
  intros Hw Hstep. destruct Hstep as
    [w t msg Ht | w t msg Ht | w t msg Ht Hc Hf | w t msg Ht Hc Hf | w t msg Ht Hc
    | w t msg x rest Ht Hm | w t msg Ht Hm | w t msg Ht Hc Hf | w t msg Ht Hc
    | w x rest Hm | w Hm Hc | w Hm Hc | w Hm Hc | w].
  - by apply goto_ok.
  - apply goto_ok; [done|..]; by destruct (closed (box w)).
  - by apply deliver_ok.
  - apply goto_ok; [done|..]; unfold on_full; [|by repeat case_match].
    intros Hs msg'. apply String.eqb_neq in Hs. rewrite Hs. by case_match.
  - by apply goto_ok.
  - destruct Hw. destruct (received_ok_open w) as [Hsub Hall]; [done | by rewrite Hm|].
    rewrite Hm in *. split; simpl in *; try done; try lia.
    + by rewrite wk_fifo0, <- app_assoc.
    + exists (received w), 0. simpl. rewrite app_nil_r. split; [done|].
      split; [by apply sublist_inserts_r|]. split; [|auto].
      intros H. by destruct (wk_no_drop0 H t msg).
    + intros H t' msg' [[<- ?]|[? ?]]%lookup_insert_Some; [done | by eapply wk_no_drop0].
    + intros t' [[<- ?]|[? ?]]%lookup_insert_Some; [done | eauto].
  - apply goto_ok; [done|..]; done.
  - by apply deliver_ok.
  - by apply goto_ok.
  - destruct Hw. destruct (received_ok_open w) as [Hsub Hall]; [done | by rewrite Hm|].
    rewrite Hm in *. split; simpl in *; try done; try lia.
    + by rewrite wk_fifo0, <- app_assoc.
    + exists (received w ++ [x]), 0. simpl. rewrite app_nil_r. split; [done|].
      split; [by apply sublist_app|]. split; [|auto]. intros H. by rewrite Hall.
  - done.
  - done.
  - destruct Hw. split; simpl; try done.
    destruct wk_received0 as (real & n & Hr & Hsub & Hall & _).
    exists real, (S n). cbn [received removed box]. rewrite Hr, <- app_assoc, replicate_S_end.
    by auto 7.
  - destruct (Close_fields (box w)) as (Hc1 & Hc2 & Hc3 & Hc4), Hw.
    split; unfold received_ok; simpl; rewrite ?Hc1, ?Hc2, ?Hc3, ?Hc4; try done.
    destruct wk_received0 as (real & n & Hr & Hsub & Hall & [->|[_ ?]]);
      exists real; eauto 7.
Qed.

Lemma reachable_ok config w : reachable zero config w -> world_ok w.
Proof.
  unfold reachable. intros H. pose proof (initial_ok config) as H0.
  induction H; eauto using world_step_ok.
Qed.
End Invariants.

(** C5: In every interleaving of pushes, [Pop]s, [TryPop]s and closes, the buffer
    never exceeds its capacity and messages leave the channel in the order they
    entered it, none invented or duplicated. What [Pop] and [TryPop] answer with
    [true] is a subsequence of what left the channel (everything that left, unless
    the policy is [drop_oldest]), followed by [n] zero messages: [TryPop] makes them
    up, once the mailbox is closed and empty and never before. *)
Theorem mailbox_is_bounded_fifo {M} (zero : M) (config : option MailboxConfig)
    (w : World M) :
  reachable zero config w ->
  List.length (messages (box w)) <= capacity (box w) /\
  sent w = removed w ++ messages (box w) /\
  exists real n, received w = real ++ replicate n zero /\
    real `sublist_of` removed w /\
    (overflowStrategy (box w) <> OverflowDropOldest -> real = removed w) /\
    (n = 0 \/ (closed (box w) = true /\ messages (box w) = [])).
Proof. by intros []%reachable_ok. Qed.

(** The receives of the interleaving are the methods: [TryPop] run on the mailbox
    is a step, and so is [Pop] when it does not block. *)
Theorem receives_are_steps {M} (zero : M) (w : World M) :
  (let '(msg, ok, b) := TryPop zero (box w) in
   exists w', world_step zero w w' /\ box w' = b /\ pushers w' = pushers w /\
     received w' = received w ++ (if ok then [msg] else [])) /\
  (forall msg ok b, Pop zero (box w) = Returns (msg, ok) b ->
   exists w', world_step zero w w' /\ box w' = b /\ pushers w' = pushers w /\
     received w' = received w ++ (if ok then [msg] else [])).
Proof.
  unfold TryPop, Pop. destruct (messages (box w)) as [|x rest] eqn:Hm.
  - destruct (closed (box w)) eqn:Hc; (split; [|intros msg ok b [= <- <- <-]]).
    + eexists. split; [by apply step_try_pop_closed|]. done.
    + exists w. split; [by apply step_pop_end|]. by rewrite app_nil_r.
    + exists w. split; [by apply step_try_pop_empty|]. by rewrite app_nil_r.
  - split; [|intros msg ok b [= <- <- <-]];
      (eexists; split; [by eapply step_receive|]; done).
Qed.

(** A run of two pushes with a receive in between, on a mailbox for one message,
    then a close, a receive of the last message and one more [TryPop]. *)
Definition small_config : MailboxConfig := MkMailboxConfig 1 OverflowDropNewest.

Definition demo_world : World nat :=
  MkWorld (MkMailbox 1 OverflowDropNewest [8] false)
    {[0 := PDone (Ok tt); 1 := PDone (Ok tt)]} [7; 8] [7] [7].

Definition demo_closed_world : World nat :=
  MkWorld (MkMailbox 1 OverflowDropNewest [] true)
    {[0 := PDone (Ok tt); 1 := PDone (Ok tt)]} [7; 8] [7; 8] [7; 8; 0].

Lemma demo_reachable : reachable 0 (Some small_config) demo_world.
Proof.
  unfold reachable.
  eapply rtc_l; [by apply (step_start _ _ 0 7)|].
  eapply rtc_l; [by eapply (step_check _ _ 0 7)|].
  eapply rtc_l; [by eapply (step_select_send _ _ 0 7)|].
  eapply rtc_l; [by eapply (step_receive _ _ 7 [])|].
  eapply rtc_l; [by apply (step_start _ _ 1 8)|].
  eapply rtc_l; [by eapply (step_check _ _ 1 8)|].
  eapply rtc_l; [by eapply (step_select_send _ _ 1 8)|].
  match goal with |- rtc _ ?a ?b => replace a with b; [apply rtc_refl|] end.
  vm_compute. reflexivity.
Defined.

Lemma demo_closed_reachable : reachable 0 (Some small_config) demo_closed_world.
Proof.
  unfold reachable. etrans; [apply demo_reachable|].
  eapply rtc_l; [apply step_close|].
  eapply rtc_l; [by eapply (step_receive _ _ 8 [])|].
  eapply rtc_l; [by apply step_try_pop_closed|]. apply rtc_refl.
Defined.

Lemma mailbox_is_bounded_fifo_witness :
  let w := demo_closed_world in
  List.length (messages (box w)) <= capacity (box w) /\
  sent w = removed w ++ messages (box w) /\
  exists real n, received w = real ++ replicate n 0 /\
    real `sublist_of` removed w /\
    (overflowStrategy (box w) <> OverflowDropOldest -> real = removed w) /\
    (n = 0 \/ (closed (box w) = true /\ messages (box w) = [])).
Proof. apply (mailbox_is_bounded_fifo 0 (Some small_config)), demo_closed_reachable. Defined.

(** A push panics only when the mailbox is closed, and it can: [Push] tests
    the flag before it sends, so a close in between makes the send hit a closed
    channel. *)
Theorem push_panics_only_after_close (config : option MailboxConfig) :
  (forall (w : World nat) t, reachable 0 config w -> pushers w !! t = Some PPanicked ->
     closed (box w) = true) /\
  exists w : World nat, reachable 0 config w /\ pushers w !! 0 = Some PPanicked.
Proof.
  split; [intros w t []%reachable_ok; eauto|].
  eexists. split.
  - eapply rtc_l; [by apply (step_start _ _ 0 7)|].
    eapply rtc_l; [by eapply (step_check _ _ 0 7)|].
    eapply rtc_l; [apply step_close|].
    eapply rtc_l; [by eapply (step_select_panic _ _ 0 7)|]. apply rtc_refl.
  - reflexivity.
Qed.

(** ** Calls that run alone *)

Lemma rtc_step2 {A} (R : A -> A -> Prop) a b c : R a b -> R b c -> rtc R a c.
Proof. intros. eapply rtc_l; [done|]. by apply rtc_once. Qed.

Lemma goto_goto {M} (w : World M) t s s' : goto (goto w t s) t s' = goto w t s'.
Proof. unfold goto. simpl. by rewrite insert_insert_eq. Qed.

Lemma deliver_goto {M} (w : World M) t s msg : deliver (goto w t s) t msg = deliver w t msg.
Proof. unfold deliver. simpl. by rewrite insert_insert_eq. Qed.

Lemma push_to_select {M} (zero : M) (w : World M) t msg :
  pushers w !! t = None -> closed (box w) = false ->
  rtc (world_step zero) w (goto w t (PSelect msg)).
Proof.
  intros Ht Hc. eapply rtc_step2; [by apply (step_start zero w t msg)|].
  pose proof (step_check zero (goto w t (PStart msg)) t msg) as H.
  rewrite goto_goto in H. simpl in H. rewrite Hc in H. apply H. by rewrite lookup_insert_eq.
Qed.

Lemma push_delivers {M} (zero : M) (w : World M) t msg :
  pushers w !! t = None -> closed (box w) = false -> full (box w) = false ->
  rtc (world_step zero) w (deliver w t msg).
Proof.
  intros Ht Hc Hf. etrans; [by apply (push_to_select zero w t msg)|].
  apply rtc_once. rewrite <- (deliver_goto w t (PSelect msg)).
  apply step_select_send; simpl; try done. by rewrite lookup_insert_eq.
Qed.

Lemma push_meets_full {M} (zero : M) (w : World M) t msg :
  pushers w !! t = None -> closed (box w) = false -> full (box w) = true ->
  rtc (world_step zero) w (goto w t (on_full (overflowStrategy (box w)) msg)).
Proof.
  intros Ht Hc Hf. etrans; [by apply (push_to_select zero w t msg)|].
  apply rtc_once. pose proof (step_select_full zero (goto w t (PSelect msg)) t msg) as H.
  rewrite goto_goto in H. apply H; simpl; try done. by rewrite lookup_insert_eq.
Qed.

(** [Push] as a call that runs alone agrees with the interleaving semantics:
    when it returns, the goroutine's steps lead to that result and that mailbox. *)
Theorem push_call_refines_steps {M} (zero : M) (w : World M) (t : nat) (msg : M)
    (r : res MailboxError unit) (m' : Mailbox M) :
  pushers w !! t = None -> Push (box w) msg = Returns r m' ->
  exists w', rtc (world_step zero) w w' /\ box w' = m' /\ pushers w' !! t = Some (PDone r) /\
    received w' = received w.
Proof.
  intros Ht HP. unfold Push in HP.
  destruct (closed (box w)) eqn:Hc.
  { injection HP as <- <-. exists (goto w t (PDone (Err ErrMailboxClosed))). split.
    - eapply rtc_step2; [by apply (step_start zero w t msg)|].
      pose proof (step_check zero (goto w t (PStart msg)) t msg) as H.
      rewrite goto_goto in H. simpl in H. rewrite Hc in H. apply H. by rewrite lookup_insert_eq.
    - simpl. by rewrite lookup_insert_eq. }
  destruct (full (box w)) eqn:Hf.
  2:{ assert (r = Ok tt /\ m' = enqueue (box w) msg) as [-> ->]
        by (cbn [negb] in HP; repeat case_match; naive_solver).
      exists (deliver w t msg). split; [by apply push_delivers|]. simpl.
      by rewrite lookup_insert_eq. }
  pose proof (push_meets_full zero w t msg Ht Hc Hf) as Hrun. unfold on_full in Hrun.
  cbn [negb] in HP. destruct (overflowStrategy (box w) =? OverflowBackpressure); [done|].
  destruct (overflowStrategy (box w) =? OverflowDropOldest).
  - destruct (full (set_messages _ _)) eqn:Hf'; [done|]. injection HP as <- <-.
    destruct (messages (box w)) as [|x rest] eqn:Hm.
    { unfold full, set_messages in *. rewrite Hm in Hf.
      cbn [messages capacity tail] in Hf'. congruence. }
    set (w1 := goto w t (PDropping msg)) in *.
    set (w2 := MkWorld (set_messages (box w) rest) (<[t := PSending msg]> (pushers w1))
      (sent w) (removed w ++ [x]) (received w)).
    exists (deliver w2 t msg). split.
    + etrans; [exact Hrun|]. apply (rtc_step2 _ _ w2).
      * apply (step_drop zero w1 t msg x rest); [by simpl; rewrite lookup_insert_eq | done].
      * apply step_send; [by simpl; rewrite lookup_insert_eq | done | done].
    + simpl. by rewrite lookup_insert_eq.
  - assert (r = Err ErrMailboxFull /\ m' = box w) as [-> ->]
      by (repeat case_match; naive_solver).
    eexists. split; [exact Hrun|]. simpl. by rewrite lookup_insert_eq.
Qed.

Lemma push_call_refines_steps_witness :
  exists w', rtc (world_step 0) demo_world w' /\ box w' = box demo_world /\
    pushers w' !! 5 = Some (PDone (Err ErrMailboxFull)) /\
    received w' = received demo_world.
Proof. apply (push_call_refines_steps 0 demo_world 5 9); reflexivity. Defined.

(** *** What each policy keeps *)

Section Policies.
Context {M : Type}.
Implicit Types (m : Mailbox M) (l : list M).

(** The last [n] elements. *)
Definition last_n (n : nat) l : list M := drop (List.length l - n) l.

Lemma push_drop_oldest m msg :
  closed m = false -> overflowStrategy m = OverflowDropOldest -> 0 < capacity m ->
  List.length (messages m) <= capacity m ->
  Push m msg = Returns (Ok tt) (set_messages m (last_n (capacity m) (messages m ++ [msg]))).
Proof.
  intros Hc Hs Hcap Hlen. unfold Push. rewrite Hc, Hs. cbn.
  unfold full, last_n. rewrite length_app. simpl.
  destruct (Nat.leb_spec (capacity m) (List.length (messages m))); simpl.
  - destruct (messages m) as [|x rest] eqn:Hm; simpl in *; [lia|].
    destruct (Nat.leb_spec (capacity m) (List.length rest)); [lia|]. simpl.
    replace (S (List.length rest + 1) - capacity m) with 1 by lia. done.
  - replace (List.length (messages m) + 1 - capacity m) with 0 by lia. done.
Qed.

Lemma last_n_idemp n l msg :
  0 < n -> last_n n (last_n n l ++ [msg]) = last_n n (l ++ [msg]).
Proof.
  intros Hn. unfold last_n. rewrite !length_app, length_drop. simpl.
  destruct (decide (List.length l <= n)) as [Hle|Hgt].
  - replace (List.length l - n) with 0 by lia. rewrite drop_0.
    f_equal. lia.
  - rewrite !drop_app_le by (rewrite ?length_drop; lia). rewrite drop_drop.
    f_equal. f_equal. lia.
Qed.

Lemma length_last_n n l : List.length (last_n n l) <= n.
Proof. unfold last_n. rewrite length_drop. lia. Qed.

Lemma push_all_drop_oldest m l acc :
  closed m = false -> overflowStrategy m = OverflowDropOldest -> 0 < capacity m ->
  messages m = last_n (capacity m) acc ->
  push_all m l = Returns ((fun _ => Ok tt) <$> l) (set_messages m (last_n (capacity m) (acc ++ l))).
Proof.
  revert m acc. induction l as [|msg l IH]; intros m acc Hc Hs Hcap Hm.
  { simpl. rewrite app_nil_r, <- Hm. by destruct m. }
  simpl. rewrite push_drop_oldest by (try done; rewrite Hm; apply length_last_n).
  rewrite Hm, last_n_idemp by done. rewrite (IH _ (acc ++ [msg])) by done.
  simpl. by rewrite <- app_assoc.
Qed.

Lemma push_all_drop_newest m l :
  closed m = false -> overflowStrategy m = OverflowDropNewest ->
  List.length (messages m) <= capacity m ->
  exists rs, push_all m l = Returns rs
    (set_messages m (messages m ++ take (capacity m - List.length (messages m)) l)) /\
    List.length rs = List.length l /\
    forall i, i < List.length l -> rs !! i = Some
      (if decide (List.length (messages m) + i < capacity m) then Ok tt
       else Err ErrMailboxFull).
Proof.
  revert m. induction l as [|msg l IH]; intros m Hc Hs Hlen.
  { exists []. simpl. rewrite take_nil, app_nil_r. split; [by destruct m|].
    split; [done|]. intros; lia. }
  simpl. unfold Push. rewrite Hc, Hs. cbn. unfold full.
  destruct (Nat.leb_spec (capacity m) (List.length (messages m))); simpl.
  - destruct (IH m Hc Hs Hlen) as (rs & -> & Hl & Hr). exists (Err ErrMailboxFull :: rs).
    replace (capacity m - List.length (messages m)) with 0 by lia. simpl.
    rewrite take_0. split; [done|]. split; [lia|]. intros [|i] Hi; simpl.
    + by rewrite decide_False by lia.
    + rewrite Hr by lia. by rewrite !decide_False by lia.
  - destruct (IH (enqueue m msg)) as (rs & -> & Hl & Hr); [done | done | |].
    { simpl. rewrite length_app. simpl. lia. }
    simpl in *. rewrite length_app in *. simpl in *. exists (Ok tt :: rs).
    replace (capacity m - List.length (messages m))
      with (S (capacity m - (List.length (messages m) + 1))) by lia.
    rewrite <- app_assoc. split; [done|]. split; [simpl; lia|].
    intros [|i] Hi; simpl; [by rewrite decide_True by lia|].
    rewrite Hr by lia. by replace (List.length (messages m) + 1 + i)
      with (List.length (messages m) + S i) by lia.
Qed.

Lemma drain_loop_all fuel acc m :
  List.length (messages m) < fuel ->
  drain_loop fuel acc m = Some (acc ++ messages m, set_messages m []).
Proof.
  revert acc m. induction fuel as [|fuel IH]; intros acc m Hf; [lia|]. simpl.
  destruct (messages m) as [|x rest] eqn:Hm.
  - rewrite app_nil_r. unfold set_messages. rewrite <- Hm. by destruct m.
  - rewrite IH by (simpl in *; lia). simpl. by rewrite <- app_assoc.
Qed.
End Policies.

(** From an empty mailbox, pushing a list under [drop_oldest] always succeeds
    and leaves the newest messages, as many as fit; [Drain] then returns exactly
    those, in order, and leaves the mailbox empty. *)
Theorem drop_oldest_keeps_newest {M} (cap : Z) (l : list M) :
  (0 < cap)%Z ->
  let m := NewMailbox (Some (MkMailboxConfig cap OverflowDropOldest)) in
  let kept := drop (List.length l - Z.to_nat cap) l in
  exists m', push_all m l = Returns ((fun _ => Ok tt) <$> l) m' /\ messages m' = kept /\
    Drain m' = Some (kept, set_messages m' []).
Proof.
  intros Hcap m kept. assert (capacity m = Z.to_nat cap) as Hc.
  { subst m. simpl. apply Z.ltb_lt in Hcap. by rewrite Hcap. }
  eexists. split; [apply (push_all_drop_oldest m l []); try done; rewrite Hc; lia|].
  rewrite app_nil_l, Hc. split; [done|].
  unfold Drain. rewrite drain_loop_all by lia. done.
Qed.

Lemma drop_oldest_keeps_newest_witness :
  exists m', push_all (NewMailbox (Some (MkMailboxConfig 2 OverflowDropOldest))) [1; 2; 3]
      = Returns [Ok tt; Ok tt; Ok tt] m' /\
    messages m' = [2; 3] /\ Drain m' = Some ([2; 3], set_messages m' []).
Proof. apply (drop_oldest_keeps_newest 2 [1; 2; 3]). lia. Defined.

(** From an empty mailbox, pushing a list under [drop_newest] keeps its first
    messages, as many as fit; the calls answer success for those and
    [ErrMailboxFull] for the others. *)
Theorem drop_newest_keeps_oldest {M} (cap : Z) (l : list M) (i : nat) :
  (0 < cap)%Z -> i < List.length l ->
  let m := NewMailbox (Some (MkMailboxConfig cap OverflowDropNewest)) in
  exists rs m', push_all m l = Returns rs m' /\ messages m' = take (Z.to_nat cap) l /\
    rs !! i = Some (if decide (i < Z.to_nat cap) then Ok tt else Err ErrMailboxFull).
Proof.
  intros Hcap Hi m. assert (capacity m = Z.to_nat cap) as Hc.
  { subst m. simpl. apply Z.ltb_lt in Hcap. by rewrite Hcap. }
  destruct (push_all_drop_newest m l) as (rs & -> & _ & Hr); [done | done | simpl; lia |].
  exists rs. eexists. split; [done|]. simpl in *. rewrite Hr by done.
  change (match cap with Z.pos _ => _ | _ => _ end) with (capacity m).
  rewrite Hc, Nat.sub_0_r. done.
Qed.

Lemma drop_newest_keeps_oldest_witness :
  exists rs m', push_all (NewMailbox (Some (MkMailboxConfig 2 OverflowDropNewest))) [1; 2; 3]
      = Returns rs m' /\ messages m' = [1; 2] /\ rs !! 2 = Some (Err ErrMailboxFull).
Proof. apply (drop_newest_keeps_oldest 2 [1; 2; 3] 2); simpl; lia. Defined.

(** On a closed and drained mailbox [Pop] reports the end of the messages,
    while [TryPop], which the actor loop polls, keeps answering [true] with a zero
    message. *)
Theorem try_pop_after_close {M} (zero : M) (m : Mailbox M) :
  exists ms m', Drain (Close m) = Some (ms, m') /\ ms = messages m /\
    Pop zero m' = Returns (zero, false) m' /\ TryPop zero m' = (zero, true, m') /\
    forall msg, Push m' msg = Returns (Err ErrMailboxClosed) m'.
Proof.
  destruct (Close_fields m) as (_ & Hm & _ & Hc).
  unfold Drain. rewrite drain_loop_all by lia. rewrite Hm. eexists _, _.
  split; [done|]. split; [done|].
  unfold Pop, TryPop, Push. simpl. by rewrite Hc.
Qed.
