(* ===== verification/Supervisor.v ===== *)
(** * Actors: the supervisor's bookkeeping (pipeline-core/pkg/actor/supervisor.go)

    The children a supervisor watches and the decision it takes when one fails:
    restart, as long as the child has not been restarted [maxRestarts] times
    within the window. Times are nanoseconds. What a decision does to the actor
    system is in ActorSystem.v. *)

From Stdlib Require Import String.
From S2P Require Import Prelude GoValue Mailbox.
Local Open Scope string_scope.
Local Open Scope list_scope.

Definition SupervisionStrategy := string.
Definition OneForOne : SupervisionStrategy := "one_for_one".
Definition OneForAll : SupervisionStrategy := "one_for_all".
Definition RestForOne : SupervisionStrategy := "rest_for_one".

Record SupervisionConfig := MkSupervisionConfig {
  SupStrategy : SupervisionStrategy;
  MaxRestarts : Z;
  WithinSeconds : Z
}.

(** The function stored in [Props.Factory]: which constructor it calls, with its
    arguments. *)
Inductive Factory :=
| SupervisorActor (config : option SupervisionConfig)
| SourceActor (name : string) (config : Data)
| TransformActor (name : string) (config : Data)
| SinkActor (name : string) (config : Data)
| RouterActor (name : string) (config : Data).

Record Props := MkProps {
  PropsName : string;
  PropsFactory : option Factory;          (* [None] is a nil function *)
  PropsParallelism : Z;
  PropsSupervision : option SupervisionConfig;
  PropsMailbox : option MailboxConfig;
  PropsOutputs : list string
}.

(** An actor reference points to an actor; here it is the actor's number. *)
Abbreviation ActorRef := nat (only parsing).

Record ChildInfo := MkChildInfo {
  Ref : ActorRef;
  ChildProps : Props;
  RestartCount : Z;
  LastRestart : Z;
  RestartTimes : list Z
}.

Record Supervisor := MkSupervisor {
  sup_name : string;
  strategy : SupervisionStrategy;
  maxRestarts : Z;
  withinWindow : Z;
  children : gmap string ChildInfo
}.

Definition second : Z := 1000000000.

Definition NewSupervisor (name : string) (config : option SupervisionConfig) : Supervisor :=
  match config with
  | None => MkSupervisor name OneForOne 3 (60 * second) ∅
  | Some c =>
      MkSupervisor name
        (if negb (SupStrategy c =? "") then SupStrategy c else OneForOne)
        (if (0 <? MaxRestarts c)%Z then MaxRestarts c else 3)
        (if (0 <? WithinSeconds c)%Z then int64_wrap (WithinSeconds c * second)
         else (60 * second)%Z) ∅
  end.

Definition set_children (s : Supervisor) (cs : gmap string ChildInfo) : Supervisor :=
  MkSupervisor (sup_name s) (strategy s) (maxRestarts s) (withinWindow s) cs.

Definition AddChild (s : Supervisor) (ref : ActorRef) (props : Props) : Supervisor :=
  set_children s (<[PropsName props := MkChildInfo ref props 0 0 []]> (children s)).

Definition RemoveChild (s : Supervisor) (name : string) : Supervisor :=
  set_children s (delete name (children s)).

Definition GetChild (s : Supervisor) (name : string) : option ActorRef :=
  Ref <$> children s !! name.

Inductive SupervisionDecision :=
| DecisionRestart
| DecisionResume
| DecisionStop
| DecisionEscalate.

#[export] Instance SupervisionDecision_eq_dec : EqDecision SupervisionDecision.
Proof. solve_decision. Defined.

(** The loop that drops the restarts before the window; [now] is the clock. *)
Definition valid_restarts (window_start : Z) (times : list Z) : list Z :=
  List.filter (fun t => (window_start <? t)%Z) times.

Definition HandleFailure (s : Supervisor) (childName : string) (now : Z)
  : SupervisionDecision * Supervisor :=
  match children s !! childName with
  | None => (DecisionStop, s)
  | Some info =>
      let valid := valid_restarts (now - withinWindow s) (RestartTimes info) in
      let info := MkChildInfo (Ref info) (ChildProps info) (RestartCount info)
                    (LastRestart info) valid in
      if (maxRestarts s <=? Z.of_nat (List.length valid))%Z then
        (DecisionStop, set_children s (<[childName := info]> (children s)))
      else
        let info := MkChildInfo (Ref info) (ChildProps info)
                      (int64_wrap (RestartCount info + 1)) now (valid ++ [now]) in
        (DecisionRestart, set_children s (<[childName := info]> (children s)))
  end.

(** The children that a decision to restart [childName] restarts: [restartChild]
    restarts the child itself, and under [one_for_all] every child. [restartAll]
    does not record the restart with the siblings. *)
Definition restart_targets (s : Supervisor) (childName : string) : list string :=
  if strategy s =? OneForOne then [childName]
  else if strategy s =? OneForAll then (map_to_list (children s)).*1
  else if strategy s =? RestForOne then [childName]
  else [].

(** A restart: when, because of whose failure, and who is restarted. *)
Record RestartEvent := MkRestartEvent {
  re_time : Z;
  re_failed : string;
  re_restarted : list string
}.

(** Failures of children, one after the other, with the restarts they lead to. *)
Fixpoint failures (s : Supervisor) (events : list (string * Z))
  : list RestartEvent * Supervisor :=
  match events with
  | [] => ([], s)
  | (childName, now) :: events' =>
      let '(d, s') := HandleFailure s childName now in
      let '(rs, s'') := failures s' events' in
      (if decide (d = DecisionRestart)
       then MkRestartEvent now childName (restart_targets s' childName) :: rs
       else rs, s'')
  end.

(** When a child was restarted for its own failures, and when for any reason. *)
Definition own_restarts (name : string) (rs : list RestartEvent) : list Z :=
  List.map re_time (List.filter (fun r => re_failed r =? name) rs).
Definition all_restarts (name : string) (rs : list RestartEvent) : list Z :=
  List.map re_time (List.filter (fun r => bool_decide (name ∈ re_restarted r)) rs).

(** ** Restarts are bounded in every window *)

Definition in_window (w t x : Z) : bool := ((t - w <? x) && (x <=? t))%Z.

Definition count_in (w t : Z) (l : list Z) : nat :=
  List.length (List.filter (in_window w t) l).

Lemma count_in_app w t a b : count_in w t (a ++ b) = count_in w t a + count_in w t b.
Proof. unfold count_in. by rewrite List.filter_app, length_app. Qed.

Lemma filter_filter_sub {A} (f g : A -> bool) (l : list A) :
  (forall x, x ∈ l -> f x = true -> g x = true) ->
  List.length (List.filter f l) <= List.length (List.filter g l).
Proof.
  induction l as [|x l IH]; intros H; [done|]. simpl.
  specialize (IH ltac:(intros; apply H; set_solver)).
  pose proof (H x ltac:(set_solver)) as Hx.
  destruct (f x), (g x); simpl; try lia; by specialize (Hx eq_refl).
Qed.

(** What the bookkeeping knows at time [now]: [past] are all restarts so far. *)
Record tracked (s : Supervisor) (name : string) (past : list Z) (now : Z) : Prop := {
  tr_child : exists info, children s !! name = Some info /\
    (forall t, (now <= t)%Z ->
       count_in (withinWindow s) t past <= count_in (withinWindow s) t (RestartTimes info));
  tr_past : forall x, x ∈ past -> (x <= now)%Z;
  tr_bound : forall t, (Z.of_nat (count_in (withinWindow s) t past) <= maxRestarts s)%Z
}.

Lemma count_valid w start t l :
  (start <= t - w)%Z -> count_in w t (valid_restarts start l) = count_in w t l.
Proof.
  intros Hs. unfold count_in, valid_restarts. induction l as [|x l IH]; [done|]. simpl.
  destruct (Z.ltb_spec start x); simpl; destruct (in_window w t x) eqn:E; simpl;
    rewrite ?IH; try done.
  unfold in_window in E. bool_props. lia.
Qed.

Lemma count_le_length w t l : count_in w t l <= List.length l.
Proof. unfold count_in. induction l as [|x l IH]; simpl; [done|]. destruct (in_window w t x); simpl; lia. Qed.

(** A window over the past that ends later than a restart at [now] holds no more
    than the window that ends at [now]. *)
Lemma count_shrinks w t now l :
  (now <= t)%Z -> (forall x, x ∈ l -> (x <= now)%Z) -> count_in w t l <= count_in w now l.
Proof.
  intros Ht Hl. apply filter_filter_sub. intros x Hx E. unfold in_window in *.
  apply Hl in Hx. bool_props. apply andb_true_intro. split; [apply Z.ltb_lt | apply Z.leb_le]; lia.
Qed.

Lemma HandleFailure_tracked s name past now now' d s' :
  (0 < withinWindow s)%Z -> tracked s name past now -> (now <= now')%Z ->
  HandleFailure s name now' = (d, s') ->
  withinWindow s' = withinWindow s /\ maxRestarts s' = maxRestarts s /\
  tracked s' name (if decide (d = DecisionRestart) then past ++ [now'] else past) now'.
Proof.
  intros Hw [(info & Hinfo & Hcount) Hpast Hbound] Hnow HF.
  unfold HandleFailure in HF. rewrite Hinfo in HF. simpl in HF.
  set (valid := valid_restarts (now' - withinWindow s) (RestartTimes info)) in *.
  assert (forall t, (now' <= t)%Z -> count_in (withinWindow s) t past
      <= count_in (withinWindow s) t valid) as Hvalid.
  { intros t Ht. unfold valid. rewrite count_valid by lia. apply Hcount. lia. }
  destruct (Z.leb_spec (maxRestarts s) (Z.of_nat (List.length valid))) as [Hmax|Hmax];
    injection HF as <- <-; (split; [done|]; split; [done|]).
  - rewrite decide_False by done. split; simpl; [|intros x Hx; apply Hpast in Hx; lia|done].
    eexists. rewrite lookup_insert_eq. by split.
  - rewrite decide_True by done. split; simpl.
    + eexists. rewrite lookup_insert_eq. split; [done|]. simpl. intros t Ht.
      rewrite !count_in_app. specialize (Hvalid t Ht). lia.
    + intros x [Hx|Hx]%elem_of_app; [apply Hpast in Hx; lia|].
      apply list_elem_of_singleton in Hx. lia.
    + intros t. rewrite count_in_app. destruct (Z_lt_le_dec t now') as [Hlt|Hge].
      * assert (count_in (withinWindow s) t [now'] = 0) as ->.
        { unfold count_in, in_window. simpl.
          destruct (Z.leb_spec now' t); [lia|]. by rewrite andb_false_r. }
        specialize (Hbound t). lia.
      * pose proof (count_shrinks (withinWindow s) t now' past Hge
          ltac:(intros x Hx; apply Hpast in Hx; lia)).
        specialize (Hvalid now' ltac:(lia)).
        pose proof (count_le_length (withinWindow s) now' valid).
        pose proof (count_le_length (withinWindow s) t [now']). simpl in *. lia.
Qed.

Lemma tracked_later s name past now now' :
  tracked s name past now -> (now <= now')%Z -> tracked s name past now'.
Proof.
  intros [(info & Hi & Hc) Hp Hb] Hle. split; [|intros x Hx; apply Hp in Hx; lia|done].
  exists info. split; [done|]. intros t Ht. apply Hc. lia.
Qed.

(** A failure changes nothing but the record of the child that failed. *)
Lemma HandleFailure_frame s name now d s' :
  HandleFailure s name now = (d, s') ->
  strategy s' = strategy s /\ withinWindow s' = withinWindow s /\
  maxRestarts s' = maxRestarts s /\ dom (children s') = dom (children s) /\
  (forall other, other <> name -> children s' !! other = children s !! other) /\
  (d = DecisionRestart -> name ∈ dom (children s)).
Proof.
  unfold HandleFailure. intros HF.
  destruct (children s !! name) as [info|] eqn:E; [|by injection HF as <- <-].
  assert (name ∈ dom (children s)) as Hd by (by apply elem_of_dom_2 in E).
  cbv zeta in HF. destruct (_ <=? _)%Z in HF; injection HF as <- <-; simpl;
    rewrite dom_insert_lookup_L by (by eexists);
    repeat (split; [done|]); (split; [|done]); intros other Ho; by rewrite lookup_insert_ne.
Qed.

(** A failure of another child does not disturb the record of this one. *)
Lemma HandleFailure_other s name past now other now' d s' :
  tracked s name past now -> (now <= now')%Z -> other <> name ->
  HandleFailure s other now' = (d, s') -> tracked s' name past now'.
Proof.
  intros Htr Hle Ho HF. destruct (tracked_later _ _ _ _ _ Htr Hle) as [(info & Hi & Hc) Hp Hb].
  destruct (HandleFailure_frame _ _ _ _ _ HF) as (_ & Hw & Hm & _ & Hframe & _).
  split; rewrite ?Hw, ?Hm; [|done..].
  exists info. split; [by rewrite Hframe | done].
Qed.

(** The bookkeeping through a run of failures of any children. *)
Lemma failures_tracked s name past now events rs s' :
  (0 < withinWindow s)%Z -> tracked s name past now ->
  Forall (fun t => (now <= t)%Z) (snd <$> events) -> StronglySorted Z.le (snd <$> events) ->
  failures s events = (rs, s') ->
  exists now', tracked s' name (past ++ own_restarts name rs) now' /\
    withinWindow s' = withinWindow s /\ maxRestarts s' = maxRestarts s.
Proof.
  revert s past now rs.
  induction events as [|[c t] events IH]; intros s past now rs Hw Htr Hle Hs HF.
  { simpl in HF. injection HF as <- <-. exists now. by rewrite app_nil_r. }
  simpl in HF. destruct (HandleFailure s c t) as [d s1] eqn:E1.
  destruct (failures s1 events) as [rs1 s2] eqn:E2. injection HF as <- <-.
  apply Forall_cons in Hle as [Ht _]. apply StronglySorted_inv in Hs as [Hs Hall].
  assert (exists past1, tracked s1 name past1 t /\
    past ++ own_restarts name (if decide (d = DecisionRestart)
      then MkRestartEvent t c (restart_targets s1 c) :: rs1 else rs1)
    = past1 ++ own_restarts name rs1) as (past1 & Htr1 & ->).
  { unfold own_restarts. destruct (String.eqb_spec c name) as [->|Hne].
    - eexists. split; [by eapply HandleFailure_tracked|].
      destruct (decide _); simpl; rewrite ?String.eqb_refl; [by rewrite <- app_assoc | done].
    - exists past. split; [by eapply HandleFailure_other|].
      destruct (decide _); [|done]. simpl. by apply String.eqb_neq in Hne as ->. }
  destruct (HandleFailure_frame _ _ _ _ _ E1) as (_ & Hw1 & Hm1 & _).
  rewrite <- Hw1, <- Hm1. eapply IH; eauto. lia.
Qed.

(** Who a run restarts: the child that failed, and under [one_for_all] children of
    the supervisor. *)
Lemma failures_targets s events rs s' :
  failures s events = (rs, s') ->
  Forall (fun r => re_failed r ∈ dom (children s) /\
    (strategy s <> OneForAll -> forall x, x ∈ re_restarted r -> x = re_failed r)) rs.
Proof.
  revert s rs. induction events as [|[c t] events IH]; intros s rs HF.
  { simpl in HF. injection HF as <- <-. constructor. }
  simpl in HF. destruct (HandleFailure s c t) as [d s1] eqn:E1.
  destruct (failures s1 events) as [rs1 s2] eqn:E2. injection HF as <- <-.
  destruct (HandleFailure_frame _ _ _ _ _ E1) as (Hst & _ & _ & Hdom & _ & Hin).
  specialize (IH _ _ E2). rewrite Hst, Hdom in IH.
  destruct (decide _) as [->|]; [|done]. constructor; [|done]. simpl. split; [by apply Hin|].
  intros Hne x. unfold restart_targets. rewrite Hst. apply String.eqb_neq in Hne as ->.
  repeat case_match; rewrite ?list_elem_of_singleton; [done..|]. by intros ?%elem_of_nil.
Qed.

Lemma count_filter_le w t f g rs :
  (forall r, r ∈ rs -> f r = true -> g r = true) ->
  count_in w t (List.map re_time (List.filter f rs)) <=
  count_in w t (List.map re_time (List.filter g rs)).
Proof.
  unfold count_in. induction rs as [|r rs IH]; intros H; [done|]. simpl.
  specialize (IH ltac:(intros; apply H; set_solver)).
  pose proof (H r ltac:(set_solver)) as Hr.
  destruct (f r), (g r); simpl; try destruct (in_window w t (re_time r)); simpl; try lia;
    by specialize (Hr eq_refl).
Qed.

Lemma count_filter_split w t f rs :
  count_in w t (List.map re_time rs) =
  count_in w t (List.map re_time (List.filter f rs)) +
  count_in w t (List.map re_time (List.filter (fun r => negb (f r)) rs)).
Proof.
  unfold count_in. induction rs as [|r rs IH]; [done|]. simpl.
  destruct (f r); simpl; destruct (in_window w t (re_time r)); simpl; lia.
Qed.

(** When the restarts for each of [cs] are bounded, so are all of them together. *)
Lemma count_by_child w t (B : nat) cs rs :
  (forall c, count_in w t (own_restarts c rs) <= B) ->
  (forall r, r ∈ rs -> re_failed r ∈ cs) ->
  count_in w t (List.map re_time rs) <= List.length cs * B.
Proof.
  revert rs. induction cs as [|c cs IH]; intros rs HB Hin.
  { destruct rs as [|r rs]; [done|].
    by destruct (not_elem_of_nil (re_failed r) (Hin r ltac:(set_solver))). }
  rewrite (count_filter_split w t (fun r => re_failed r =? c)).
  specialize (IH (List.filter (fun r => negb (re_failed r =? c)) rs)).
  pose proof (HB c) as Hc. unfold own_restarts in Hc. simpl. etrans; [apply Nat.add_le_mono|].
  - exact Hc.
  - apply IH.
    + intros c'. etrans; [|apply (HB c')]. unfold own_restarts.
      clear. induction rs as [|r rs IH]; [done|]. unfold count_in in *. simpl.
      destruct (re_failed r =? c), (re_failed r =? c') eqn:E; simpl; rewrite ?E; simpl;
        try destruct (in_window w t (re_time r)); simpl; lia.
    + intros r Hr. apply list_elem_of_In, List.filter_In in Hr as [Hr Hne].
      apply list_elem_of_In, Hin, elem_of_cons in Hr as [E|]; [|done].
      by rewrite E, String.eqb_refl in Hne.
  - lia.
Qed.

(** Starting without recorded restarts, a child's own restarts are bounded. *)
Lemma own_restarts_bounded s events rs s' name t :
  (0 < withinWindow s)%Z -> (0 <= maxRestarts s)%Z ->
  map_Forall (fun _ info => RestartTimes info = []) (children s) ->
  StronglySorted Z.le (snd <$> events) -> failures s events = (rs, s') ->
  (Z.of_nat (count_in (withinWindow s) t (own_restarts name rs)) <= maxRestarts s)%Z.
Proof.
  intros Hw Hm Hfresh Hs E. destruct events as [|[c t0] events].
  { simpl in E. by injection E as <- <-. }
  destruct (children s !! name) as [info|] eqn:Hn.
  - assert (tracked s name [] t0) as Htr.
    { split; [|by intros ? ?%elem_of_nil | by intros ?].
      exists info. split; [done|]. intros; unfold count_in; simpl; lia. }
    assert (Forall (fun t => (t0 <= t)%Z) (snd <$> (c, t0) :: events)) as Hall.
    { simpl in *. apply StronglySorted_inv in Hs as [_ Hs]. constructor; [lia | done]. }
    destruct (failures_tracked s name [] t0 _ rs s' Hw Htr Hall Hs E)
      as (now' & [_ _ Hb] & Hw' & Hm').
    specialize (Hb t). by rewrite Hw', Hm' in Hb.
  - assert (own_restarts name rs = []) as ->; [|by unfold count_in].
    pose proof (failures_targets _ _ _ _ E) as Htg. unfold own_restarts. clear E.
    induction Htg as [|r rs' [Hr _] _ IH]; [done|]. simpl.
    destruct (String.eqb_spec (re_failed r) name) as [<-|]; [|done].
    apply elem_of_dom in Hr as [? ?]. congruence.
Qed.

(** C6: Children of a supervisor fail in any order, none of them added, removed or
    restarted before, the clock not running backwards and the window positive. No
    window of [withinWindow] contains more than [maxRestarts] restarts of a child
    for its own failures. Counting also the restarts it shares with a sibling that
    failed, which the code does not record, the bound is [maxRestarts] under
    [one_for_one] and [rest_for_one], and [maxRestarts] times the number of children
    under [one_for_all]. *)
Theorem restarts_are_rate_limited (s : Supervisor) (events : list (string * Z))
    (name : string) (t : Z) :
  (0 < withinWindow s)%Z -> (0 <= maxRestarts s)%Z ->
  map_Forall (fun _ info => RestartTimes info = []) (children s) ->
  StronglySorted Z.le (snd <$> events) ->
  let '(restarts, _) := failures s events in
  (Z.of_nat (count_in (withinWindow s) t (own_restarts name restarts)) <= maxRestarts s /\
   Z.of_nat (count_in (withinWindow s) t (all_restarts name restarts))
     <= maxRestarts s * (if (strategy s =? OneForAll)%string then Z.of_nat (size (children s)) else 1))%Z.
Proof.
  intros Hw Hm Hfresh Hs. destruct (failures s events) as [rs s'] eqn:E.
  pose proof (failures_targets _ _ _ _ E) as Htg. rewrite Forall_forall in Htg.
  assert (forall c, (Z.of_nat (count_in (withinWindow s) t (own_restarts c rs))
    <= maxRestarts s)%Z) as Hown by (intros c; by eapply own_restarts_bounded).
  split; [done|]. destruct (String.eqb_spec (strategy s) OneForAll) as [Ha|Ha].
  - assert (count_in (withinWindow s) t (all_restarts name rs)
      <= List.length (elements (dom (children s))) * Z.to_nat (maxRestarts s)) as Hall.
    { etrans; [|apply count_by_child].
      - pose proof (count_filter_split (withinWindow s) t
          (fun r => bool_decide (name ∈ re_restarted r)) rs) as ->.
        unfold all_restarts. apply Nat.le_add_r.
      - intros c. specialize (Hown c). lia.
      - intros r Hr. apply elem_of_elements. by apply Htg. }
    change (List.length (elements (dom (children s)))) with (size (dom (children s))) in Hall.
    rewrite size_dom in Hall. nia.
  - rewrite Z.mul_1_r. etrans; [|apply (Hown name)]. apply Nat2Z.inj_le, count_filter_le.
    intros r Hr Hin%bool_decide_eq_true_1. apply String.eqb_eq. symmetry.
    by apply (proj2 (Htg r Hr)).
Qed.

Definition demo_props : Props :=
  MkProps "sink" (Some (SinkActor "sink" ∅)) 1 None None [].
Definition demo_source_props : Props :=
  MkProps "source" (Some (SourceActor "source" ∅)) 1 None None [].

(** Two children under [one_for_all], one restart allowed in ten seconds: each may
    fail once, and the sink is restarted twice. *)
Definition demo_all : Supervisor :=
  AddChild (AddChild (NewSupervisor "sup" (Some (MkSupervisionConfig OneForAll 1 10)))
    7 demo_props) 8 demo_source_props.

Lemma restarts_are_rate_limited_witness :
  all_restarts "sink" (fst (failures demo_all [("sink", 1); ("source", 2); ("sink", 3)]))%Z
    = [1; 2]%Z /\
  let '(restarts, _) := failures demo_all [("sink", 1); ("source", 2); ("sink", 3)]%Z in
  (Z.of_nat (count_in (withinWindow demo_all) 3 (own_restarts "sink" restarts))
     <= maxRestarts demo_all /\
   Z.of_nat (count_in (withinWindow demo_all) 3 (all_restarts "sink" restarts))
     <= maxRestarts demo_all *
        (if (strategy demo_all =? OneForAll)%string
         then Z.of_nat (size (children demo_all)) else 1))%Z.
Proof.
  split; [vm_compute; reflexivity|].
  apply (restarts_are_rate_limited demo_all).
  - vm_compute. reflexivity.
  - vm_compute. discriminate.
  - intros n info. unfold demo_all. simpl.
    intros [[_ <-]|[_ [[_ <-]|[_ ?]]%lookup_insert_Some]]%lookup_insert_Some; done.
  - repeat constructor; vm_compute; discriminate.
Defined.
