(* ===== verification/ActorSystem.v ===== *)
(** * Actors: the actor system (pipeline-core/pkg/actor/system.go, actor.go,
      supervisor.go)

    The registry of running actors, spawning and stopping, message delivery to
    mailboxes, and what a supervisor does to the system when a child fails. Actor
    objects are shared through pointers: the state keeps them in a heap, numbered
    in the order of creation; a reference is such a number. An operation runs
    under the system's lock; it returns, blocks on a full mailbox, or panics. *)

From Stdlib Require Import String.
From S2P Require Import Prelude GoString GoValue Mailbox Supervisor.
Local Open Scope string_scope.
Local Open Scope list_scope.

Definition MessageType := string.
Definition MessageTypeData : MessageType := "data".
Definition MessageTypeCommand : MessageType := "command".
Definition MessageTypeError : MessageType := "error".
Definition MessageTypeLifecycle : MessageType := "lifecycle".

(** The dynamic types of a payload the actor package tells apart. *)
Inductive Payload :=
| ChildTerminated (name : string)
| ChildFailed (name : string) (err : option string)
| DataPayload (v : GoValue)
| RouteRequest (target : string) (message : MessageType * GoValue).

Record Message := MkMessage {
  MsgType : MessageType;
  MsgPayload : Payload
}.

Inductive ActorImpl :=
| SupervisorImpl (s : Supervisor)
| OtherImpl (f : Factory).

(** Calling the factory. *)
Definition create (f : Factory) : ActorImpl :=
  match f with
  | SupervisorActor config => SupervisorImpl (NewSupervisor "supervisor" config)
  | _ => OtherImpl f
  end.

(** The events a sink actor buffers before it flushes. *)
Definition buffer_events (config : Data) : Z :=
  default 5000%Z (as_map (config !! "buffer") ≫= fun buf => as_int (buf !! "max_events")).

(** [props.Factory()]: a nil function panics, and so does the constructor of a sink that
    makes a buffer of negative capacity. *)
Definition call_factory (props : Props) : option ActorImpl :=
  match PropsFactory props with
  | None => None
  | Some f =>
      match f with
      | SinkActor _ config => if (buffer_events config <? 0)%Z then None else Some (create f)
      | _ => Some (create f)
      end
  end.

(** An [ActorRef] with its [actorContext] and its [actorInfo]. *)
Record ActorInfo := MkActorInfo {
  ai_path : string;
  ai_name : string;
  ai_parent : option ActorRef;
  ai_children : gmap string ActorRef;
  ai_mailbox : Mailbox Message;
  ai_actor : ActorImpl;
  ai_running : bool;
  ai_cancelled : bool
}.

Record System := MkSystem {
  sys_name : string;
  sys_mailbox : option MailboxConfig;
  actors : gmap string ActorRef;
  heap : gmap nat ActorInfo;
  next : nat;
  running : bool;
  cancelled : bool
}.

Inductive SysError :=
| ErrActorNotFound
| ErrSystemStopped
| ErrActorExists
| ErrMailbox (e : MailboxError).

(** ** Operations that return, fail, block or panic *)

Definition act (A : Type) : Type := System -> outcome (SysError + A) System.

Definition ret {A} (a : A) : act A := fun s => Returns (inr a) s.
Definition fail {A} (e : SysError) : act A := fun s => Returns (inl e) s.
Definition bind {A B} (m : act A) (f : A -> act B) : act B := fun s =>
  match m s with
  | Returns (inr a) s' => f a s'
  | Returns (inl e) s' => Returns (inl e) s'
  | Blocks => Blocks
  | Panics => Panics
  end.
Definition get : act System := fun s => Returns (inr s) s.
Definition put (s : System) : act unit := fun _ => Returns (inr tt) s.
Definition panic {A} : act A := fun _ => Panics.

(** Log the error of a call and go on. *)
Definition ignore {A} (m : act A) : act unit := fun s =>
  match m s with
  | Returns _ s' => Returns (inr tt) s'
  | Blocks => Blocks
  | Panics => Panics
  end.

Notation "'let*' x ':=' m 'in' k" := (bind m (fun x => k))
  (at level 10, x name, m at level 100, k at level 200).
Notation "m ';*' k" := (bind m (fun _ => k)) (at level 199, right associativity).

(** [for _, x := range l], ending at the first error. *)
Definition for_all {A} (f : A -> act unit) : list A -> act unit :=
  fix loop l :=
    match l with
    | [] => ret tt
    | x :: l' => f x ;* loop l'
    end.

(** ** The heap *)

Definition set_heap (s : System) (h : gmap nat ActorInfo) : System :=
  MkSystem (sys_name s) (sys_mailbox s) (actors s) h (next s) (running s) (cancelled s).
Definition set_actors (s : System) (a : gmap string ActorRef) : System :=
  MkSystem (sys_name s) (sys_mailbox s) a (heap s) (next s) (running s) (cancelled s).

(** Following a pointer; a dangling number does not occur (see [system_ok]). *)
Definition deref (r : ActorRef) : act ActorInfo := fun s =>
  match heap s !! r with
  | Some i => Returns (inr i) s
  | None => Panics
  end.

Definition update (r : ActorRef) (f : ActorInfo -> ActorInfo) : act unit := fun s =>
  Returns (inr tt) (set_heap s (alter f r (heap s))).

Definition with_mailbox (m : Mailbox Message) (i : ActorInfo) : ActorInfo :=
  MkActorInfo (ai_path i) (ai_name i) (ai_parent i) (ai_children i) m (ai_actor i)
    (ai_running i) (ai_cancelled i).
Definition with_actor (a : ActorImpl) (i : ActorInfo) : ActorInfo :=
  MkActorInfo (ai_path i) (ai_name i) (ai_parent i) (ai_children i) (ai_mailbox i) a
    (ai_running i) (ai_cancelled i).
Definition with_children (cs : gmap string ActorRef) (i : ActorInfo) : ActorInfo :=
  MkActorInfo (ai_path i) (ai_name i) (ai_parent i) cs (ai_mailbox i) (ai_actor i)
    (ai_running i) (ai_cancelled i).
Definition close_mailbox (i : ActorInfo) : ActorInfo := with_mailbox (Close (ai_mailbox i)) i.
Definition cancel_ (i : ActorInfo) : ActorInfo :=
  MkActorInfo (ai_path i) (ai_name i) (ai_parent i) (ai_children i) (ai_mailbox i)
    (ai_actor i) (ai_running i) true.
Definition not_running (i : ActorInfo) : ActorInfo :=
  MkActorInfo (ai_path i) (ai_name i) (ai_parent i) (ai_children i) (ai_mailbox i)
    (ai_actor i) false (ai_cancelled i).

(** ** The system: [Start], [Stop], [spawn], [stop], [Get] *)

Definition NewSystem (name : string) (config : option MailboxConfig) : System :=
  MkSystem name config ∅ ∅ 0 false false.

Definition Start : act unit :=
  let* s := get in
  if running s then ret tt
  else put (MkSystem (sys_name s) (sys_mailbox s) (actors s) (heap s) (next s) true
              (cancelled s)).

(** [s.cancel()] cancels every context derived from the system's; the loop then
    closes the mailboxes of the registered actors. *)
Definition Stop : act unit :=
  let* s := get in
  if negb (running s) then ret tt
  else
    let registered r := bool_decide (r ∈ map snd (map_to_list (actors s))) in
    let h := map_imap (fun r i =>
               Some (cancel_ (if registered r then close_mailbox i else i))) (heap s) in
    put (MkSystem (sys_name s) (sys_mailbox s) (actors s) h (next s) false true).

Definition actor_path (s : System) (parent : option ActorInfo) (name : string) : string :=
  match parent with
  | Some p => (ai_path p +:+ "/" +:+ name)%string
  | None => ("/" +:+ sys_name s +:+ "/" +:+ name)%string
  end.

Definition spawn (props : Props) (parent : option ActorRef) : act ActorRef :=
  let* s := get in
  if negb (running s) then fail ErrSystemStopped
  else
    let* p := match parent with
              | Some r => let* i := deref r in ret (Some i)
              | None => ret None
              end in
    let path := actor_path s p (PropsName props) in
    match actors s !! path with
    | Some _ => fail ErrActorExists
    | None =>
        let mailboxConfig := match PropsMailbox props with
                             | Some c => Some c
                             | None => sys_mailbox s
                             end in
        match call_factory props with
        | None => panic
        | Some a =>
            let r := next s in
            let info := MkActorInfo path (PropsName props) parent ∅
                          (NewMailbox mailboxConfig) a true (cancelled s) in
            put (MkSystem (sys_name s) (sys_mailbox s) (<[path := r]> (actors s))
                   (<[r := info]> (heap s)) (S r) (running s) (cancelled s)) ;*
            ret r
        end
    end.

(** [stop]: the registered actor at the path is cancelled, the mailbox of the
    given reference is closed. *)
Definition stop (ref : ActorRef) : act unit :=
  let* i := deref ref in
  let* s := get in
  match actors s !! ai_path i with
  | None => fail ErrActorNotFound
  | Some r =>
      update r not_running ;*
      update r cancel_ ;*
      update ref close_mailbox ;*
      let* s' := get in
      put (set_actors s' (delete (ai_path i) (actors s')))
  end.

Definition Get (path : string) : act ActorRef :=
  let* s := get in
  match actors s !! path with
  | None => fail ErrActorNotFound
  | Some r => ret r
  end.

(** [ActorRef.Tell]. *)
Definition Tell (ref : ActorRef) (msg : Message) : act unit :=
  let* i := deref ref in
  match Push (ai_mailbox i) msg with
  | Returns (Ok _) m => update ref (with_mailbox m)
  | Returns (Err e) m => fail (ErrMailbox e)
  | Returns Panic _ | Panics => panic
  | Blocks => fun _ => Blocks
  end.

(** [actorContext.Spawn]. *)
Definition ctx_Spawn (self : ActorRef) (props : Props) : act ActorRef :=
  let* ref := spawn props (Some self) in
  update self (fun i => with_children (<[PropsName props := ref]> (ai_children i)) i) ;*
  ret ref.

(** The parent's mailbox gets a [ChildFailed]; an error of [Tell] is dropped. *)
Definition notifyParentOfFailure (ref : ActorRef) : act unit :=
  let* i := deref ref in
  match ai_parent i with
  | Some parent =>
      ignore (Tell parent (MkMessage MessageTypeLifecycle
        (ChildFailed (ai_name i) (Some "actor failed"))))
  | None => ret tt
  end.

(** ** Supervisors *)

(** The supervisor object behind a reference. *)
Definition get_supervisor (self : ActorRef) : act (option Supervisor) :=
  let* i := deref self in
  ret (match ai_actor i with SupervisorImpl s => Some s | OtherImpl _ => None end).
Definition put_supervisor (self : ActorRef) (s : Supervisor) : act unit :=
  update self (with_actor (SupervisorImpl s)).

Section Supervision.
(** The order in which Go ranges over a map. *)
Context (range_children : gmap string ChildInfo -> list (string * ChildInfo)).
Context (range_refs : gmap string ActorRef -> list (string * ActorRef)).

Definition set_ref (r : ActorRef) (i : ChildInfo) : ChildInfo :=
  MkChildInfo r (ChildProps i) (RestartCount i) (LastRestart i) (RestartTimes i).

(** [restartSingle]: the error of the stop is only logged. *)
Definition restartSingle (self : ActorRef) (name : string) (info : ChildInfo) : act unit :=
  ignore (stop (Ref info)) ;*
  let* newRef := ctx_Spawn self (ChildProps info) in
  let* os := get_supervisor self in
  match os with
  | Some s => put_supervisor self (set_children s (alter (set_ref newRef) name (children s)))
  | None => panic
  end.

Definition restartAll (self : ActorRef) (s : Supervisor) : act unit :=
  for_all (fun '(name, info) => ignore (restartSingle self name info))
    (range_children (children s)).

Definition restartRest := restartSingle.

Definition restartChild (self : ActorRef) (s : Supervisor) (name : string)
  (info : ChildInfo) : act unit :=
  if strategy s =? OneForOne then restartSingle self name info
  else if strategy s =? OneForAll then restartAll self s
  else if strategy s =? RestForOne then restartRest self name info
  else ret tt.

Definition executeDecision (self : ActorRef) (childName : string)
  (decision : SupervisionDecision) : act unit :=
  let* os := get_supervisor self in
  match os with
  | None => panic
  | Some s =>
      match children s !! childName with
      | None => ret tt
      | Some info =>
          match decision with
          | DecisionRestart => restartChild self s childName info
          | DecisionStop => stop (Ref info)
          | DecisionEscalate =>
              let* i := deref self in
              match ai_parent i with
              | Some parent =>
                  Tell parent (MkMessage MessageTypeError (ChildFailed (sup_name s) None))
              | None => ret tt
              end
          | DecisionResume => ret tt
          end
      end
  end.

(** [HandleFailure] followed by [executeDecision]. *)
Definition on_failure (now : Z) (self : ActorRef) (name : string) : act unit :=
  let* os := get_supervisor self in
  match os with
  | None => panic
  | Some s =>
      let '(decision, s') := HandleFailure s name now in
      put_supervisor self s' ;* executeDecision self name decision
  end.

Definition handleLifecycle (now : Z) (self : ActorRef) (msg : Message) : act unit :=
  match MsgPayload msg with
  | ChildTerminated name =>
      let* os := get_supervisor self in
      match os with
      | Some s => put_supervisor self (RemoveChild s name)
      | None => panic
      end
  | ChildFailed name _ => on_failure now self name
  | DataPayload _ | RouteRequest _ _ => ret tt
  end.

Definition handleError (now : Z) (self : ActorRef) (msg : Message) : act unit :=
  match MsgPayload msg with
  | ChildFailed name _ => on_failure now self name
  | _ => ret tt
  end.

Definition routeMessage (self : ActorRef) (msg : Message) : act unit :=
  let* i := deref self in
  for_all (fun '(_, child) => ignore (Tell child msg)) (range_refs (ai_children i)).

(** [Supervisor.Receive]; [now] is the clock. *)
Definition Receive (now : Z) (self : ActorRef) (msg : Message) : act unit :=
  if MsgType msg =? MessageTypeLifecycle then handleLifecycle now self msg
  else if MsgType msg =? MessageTypeError then handleError now self msg
  else routeMessage self msg.
End Supervision.

(** ** Starting a tree of actors *)

Inductive ActorDefinition := MkActorDefinition {
  DefName : string;
  DefType : string;
  DefParallelism : Z;
  DefSupervision : option SupervisionConfig;
  DefConfig : Data;
  DefOutputs : list string;
  DefChildren : list ActorDefinition
}.

Definition def_factory (t name : string) (sup : option SupervisionConfig) (config : Data)
  : option Factory :=
  if t =? "supervisor" then Some (SupervisorActor sup)
  else if t =? "source" then Some (SourceActor name config)
  else if t =? "transform" then Some (TransformActor name config)
  else if t =? "sink" then Some (SinkActor name config)
  else if t =? "router" then Some (RouterActor name config)
  else None.

Definition def_props (d : ActorDefinition) : Props :=
  MkProps (DefName d) (def_factory (DefType d) (DefName d) (DefSupervision d) (DefConfig d))
    (DefParallelism d) (DefSupervision d) None (DefOutputs d).

(** One round of the loop of [StartChildren]; [sup] is the supervisor whose method
    runs, [ctx] the context that spawns. The nested supervisor runs the same loop
    with the same context. *)
Fixpoint start_child (ctx sup : ActorRef) (d : ActorDefinition) : act unit :=
  match d with
  | MkActorDefinition name t par supervision config outputs cs =>
      let props := MkProps name (def_factory t name supervision config) par supervision
                     None outputs in
      let* ref := ctx_Spawn ctx props in
      let* os := get_supervisor sup in
      match os with
      | None => panic
      | Some s =>
          put_supervisor sup (AddChild s ref props) ;*
          match cs with
          | [] => ret tt
          | _ =>
              let* on := get_supervisor ref in
              match on with
              | Some _ => for_all (start_child ctx ref) cs
              | None => ret tt
              end
          end
      end
  end.

Definition StartChildren (ctx sup : ActorRef) (defs : list ActorDefinition) : act unit :=
  for_all (start_child ctx sup) defs.

(** ** The invariant *)

Definition is_supervisor (i : ActorInfo) : bool :=
  match ai_actor i with SupervisorImpl _ => true | OtherImpl _ => false end.

(** Every reference an actor holds points into the heap, and a supervised child
    can be created again. *)
Record refs_ok (h : gmap nat ActorInfo) (i : ActorInfo) : Prop := {
  ro_children : forall n r, ai_children i !! n = Some r -> is_Some (h !! r);
  ro_supervised : forall s n c, ai_actor i = SupervisorImpl s -> children s !! n = Some c ->
    is_Some (h !! Ref c) /\ call_factory (ChildProps c) <> None
}.

Definition path_ok (s : System) (r : ActorRef) (i : ActorInfo) : Prop :=
  match ai_parent i with
  | None => ai_path i = actor_path s None (ai_name i)
  | Some pr => exists p, heap s !! pr = Some p /\ pr < r /\
                 ai_path i = actor_path s (Some p) (ai_name i)
  end.

Record system_ok (s : System) : Prop := {
  so_registered : forall p r, actors s !! p = Some r ->
    exists i, heap s !! r = Some i /\ ai_path i = p /\ ai_running i = true;
  so_running : forall r i, heap s !! r = Some i -> ai_running i = true ->
    actors s !! ai_path i = Some r;
  so_next : forall r, is_Some (heap s !! r) -> r < next s;
  so_path : forall r i, heap s !! r = Some i -> path_ok s r i;
  so_refs : forall r i, heap s !! r = Some i -> refs_ok (heap s) i
}.

(** What no operation changes: actors stay, with their path and their kind. *)
Definition same_actor (i i' : ActorInfo) : Prop :=
  ai_path i' = ai_path i /\ ai_name i' = ai_name i /\ ai_parent i' = ai_parent i /\
  is_supervisor i' = is_supervisor i.

Definition extends (s s' : System) : Prop :=
  sys_name s' = sys_name s /\
  forall r i, heap s !! r = Some i -> exists i', heap s' !! r = Some i' /\ same_actor i i'.

#[export] Instance extends_preorder : PreOrder extends.
Proof.
  split.
  - intros s. split; [done|]. intros r i Hi. by exists i.
  - intros s1 s2 s3 [Hn1 H1] [Hn2 H2]. split; [congruence|]. intros r i Hi.
    destruct (H1 r i Hi) as (i2 & Hi2 & E1). destruct (H2 r i2 Hi2) as (i3 & Hi3 & E2).
    exists i3. unfold same_actor in *. split; [done|]. naive_solver congruence.
Qed.

Lemma extends_is_Some s s' r : extends s s' -> is_Some (heap s !! r) -> is_Some (heap s' !! r).
Proof. intros [_ H] [i Hi]. destruct (H r i Hi) as (i' & ? & _). eauto. Qed.

(** An operation is safe when it never panics, keeps the invariant and forgets no
    actor. *)
Definition safe {A} (m : act A) (s : System) (Q : A -> System -> Prop) : Prop :=
  match m s with
  | Returns r s' => system_ok s' /\ extends s s' /\ forall a, r = inr a -> Q a s'
  | Blocks => True
  | Panics => False
  end.

Lemma safe_ret {A} (a : A) s (Q : A -> System -> Prop) :
  system_ok s -> Q a s -> safe (ret a) s Q.
Proof. intros. split; [done|]. split; [done|]. by intros ? [= <-]. Qed.

Lemma safe_fail {A} e s (Q : A -> System -> Prop) : system_ok s -> safe (fail e) s Q.
Proof. intros. split; [done|]. by split. Qed.

Lemma safe_bind {A B} (m : act A) (f : A -> act B) s Q Q' :
  safe m s Q ->
  (forall a s', system_ok s' -> extends s s' -> Q a s' -> safe (f a) s' Q') ->
  safe (bind m f) s Q'.
Proof.
  unfold safe at 1 3, bind. destruct (m s) as [[e|a] s1| |]; [..|done|done].
  - intros (Hok & Hext & _) _. split; [done|]. by split.
  - intros (Hok & Hext & HQ) Hf. specialize (Hf a s1 Hok Hext (HQ a eq_refl)).
    unfold safe in Hf. destruct (f a s1) as [r s2| |]; [|done..].
    destruct Hf as (Hok2 & Hext2 & HQ2). split; [done|]. split; [by etrans | done].
Qed.

Lemma safe_ignore {A} (m : act A) s Q :
  safe m s Q -> safe (ignore m) s (fun _ _ => True).
Proof.
  unfold safe, ignore. destruct (m s); [|done..]. by intros (? & ? & _).
Qed.

Lemma safe_weaken {A} (m : act A) s (Q Q' : A -> System -> Prop) :
  (forall a s', extends s s' -> Q a s' -> Q' a s') -> safe m s Q -> safe m s Q'.
Proof. unfold safe. destruct (m s); [|done..]. naive_solver. Qed.

Lemma safe_get s : system_ok s -> safe get s (fun a s' => a = s /\ s' = s).
Proof. intros. split; [done|]. split; [done|]. by intros ? [= <-]. Qed.

Lemma safe_deref r s :
  system_ok s -> is_Some (heap s !! r) -> safe (deref r) s (fun i s' => s' = s /\ heap s !! r = Some i).
Proof.
  intros Hok [i Hi]. unfold safe, deref. rewrite Hi. split; [done|]. split; [done|].
  by intros ? [= <-].
Qed.

Lemma safe_for_all {A} (f : A -> act unit) l s (P : A -> System -> Prop) :
  system_ok s ->
  (forall x s s', extends s s' -> P x s -> P x s') ->
  (forall x s, x ∈ l -> system_ok s -> P x s -> safe (f x) s (fun _ _ => True)) ->
  (forall x, x ∈ l -> P x s) ->
  safe (for_all f l) s (fun _ _ => True).
Proof.
  intros Hok Hmono Hf. revert s Hok. induction l as [|x l IH]; intros s Hok HP; simpl.
  { by apply safe_ret. }
  eapply safe_bind; [apply Hf; [set_solver | done | apply HP; set_solver]|].
  intros a s' Hok' Hext _. apply IH; [intros; apply Hf; [set_solver | done | done] | done|].
  intros y Hy. eapply Hmono; [done|]. apply HP. set_solver.
Qed.

(** ** Operations keep the invariant *)

Lemma refs_ok_mono s s' i : extends s s' -> refs_ok (heap s) i -> refs_ok (heap s') i.
Proof.
  intros Hext [H1 H2]. split.
  - intros n r Hr. eapply extends_is_Some; eauto.
  - intros sp n c Ha Hc. destruct (H2 sp n c Ha Hc). split; [|done].
    by eapply extends_is_Some.
Qed.

Lemma path_ok_mono s s' r i i' :
  extends s s' -> same_actor i i' -> path_ok s r i -> path_ok s' r i'.
Proof.
  intros [Hn Hext] (Hp & Hname & Hpar & _). unfold path_ok. rewrite Hp, Hname, Hpar.
  destruct (ai_parent i) as [pr|].
  - intros (p & Hpr & Hlt & Hpath). destruct (Hext pr p Hpr) as (p' & Hp' & Hsame & _).
    exists p'. unfold actor_path in *. by rewrite Hsame.
  - unfold actor_path. by rewrite Hn.
Qed.

Lemma alter_extends s r f :
  (forall i, heap s !! r = Some i -> same_actor i (f i)) ->
  extends s (set_heap s (alter f r (heap s))).
Proof.
  intros Hf. split; [done|]. intros r' i Hi. simpl.
  destruct (decide (r = r')) as [<-|Hne].
  - rewrite lookup_alter_eq, Hi. simpl. eauto.
  - rewrite lookup_alter_ne by done. by exists i.
Qed.

Lemma alter_ok s r f :
  system_ok s ->
  (forall i, heap s !! r = Some i ->
     same_actor i (f i) /\ ai_running (f i) = ai_running i /\ refs_ok (heap s) (f i)) ->
  system_ok (set_heap s (alter f r (heap s))).
Proof.
  intros [Hreg Hrun Hnext Hpath Hrefs] Hf.
  assert (extends s (set_heap s (alter f r (heap s)))) as Hext
    by (apply alter_extends; intros; by apply Hf).
  assert (forall r' i', alter f r (heap s) !! r' = Some i' -> exists i,
    heap s !! r' = Some i /\ same_actor i i' /\ ai_running i' = ai_running i /\
    refs_ok (heap s) i') as Hlook.
  { intros r' i'. destruct (decide (r = r')) as [<-|Hne].
    - rewrite lookup_alter_eq. destruct (heap s !! r) as [i|] eqn:E; [|done].
      intros [= <-]. exists i. split; [done | by apply Hf].
    - rewrite lookup_alter_ne by done. intros Hi. exists i'. by split; [|split; [|split; [|eauto]]]. }
  split; simpl.
  - intros p r' Hr'. destruct (Hreg p r' Hr') as (i & Hi & Hp & Hr).
    destruct (decide (r = r')) as [<-|Hne].
    + rewrite lookup_alter_eq, Hi. destruct (Hf i Hi) as (Hs & Hrun' & _).
      eexists. split; [done|]. destruct Hs as (Hpp & _). by rewrite Hpp, Hrun'.
    + rewrite lookup_alter_ne by done. eauto.
  - intros r' i' (i & Hi & Hs & Hr & _)%Hlook Hr'. destruct Hs as (Hpp & _).
    rewrite Hpp. apply Hrun; [done | congruence].
  - intros r' [i' (i & Hi & _)%Hlook]. eauto.
  - intros r' i' (i & Hi & Hs & _)%Hlook. eapply path_ok_mono; eauto.
  - intros r' i' (i & Hi & _ & _ & Hro)%Hlook. by apply (refs_ok_mono s _ i' Hext).
Qed.

Lemma safe_update r f s :
  system_ok s ->
  (forall i, heap s !! r = Some i ->
     same_actor i (f i) /\ ai_running (f i) = ai_running i /\ refs_ok (heap s) (f i)) ->
  safe (update r f) s (fun _ _ => True).
Proof.
  intros Hok Hf. split; [by apply alter_ok|]. split; [|done].
  apply alter_extends. intros. by apply Hf.
Qed.

Lemma call_factory_create props a :
  call_factory props = Some a -> exists f, PropsFactory props = Some f /\ a = create f.
Proof.
  unfold call_factory. intros Ha. destruct (PropsFactory props) as [f|]; [|done]. exists f.
  split; [done|]. destruct f; try congruence. by case_match; simplify_eq.
Qed.

Lemma create_refs_ok h path name parent m props a run c :
  call_factory props = Some a -> refs_ok h (MkActorInfo path name parent ∅ m a run c).
Proof.
  intros (f & _ & ->)%call_factory_create. split; simpl.
  - intros n r. by rewrite lookup_empty.
  - intros s n ci Hs Hc. destruct f as [cfg| | | |]; simplify_eq/=.
    assert (children (NewSupervisor "supervisor" cfg) = ∅) as E by by destruct cfg.
    by rewrite E, lookup_empty in Hc.
Qed.

Lemma insert_extends s r i a nx :
  heap s !! r = None ->
  extends s (MkSystem (sys_name s) (sys_mailbox s) a (<[r := i]> (heap s)) nx (running s) (cancelled s)).
Proof.
  intros Hr. split; [done|]. simpl. intros r' i' Hi'. exists i'.
  rewrite lookup_insert_ne by congruence. by split.
Qed.

Definition parent_is (s : System) (parent : option ActorRef) (p : option ActorInfo) : Prop :=
  match parent, p with
  | Some r, Some i => heap s !! r = Some i
  | None, None => True
  | _, _ => False
  end.

Lemma spawn_ok s props parent p a :
  system_ok s -> parent_is s parent p -> call_factory props = Some a ->
  actors s !! actor_path s p (PropsName props) = None ->
  let info := MkActorInfo (actor_path s p (PropsName props)) (PropsName props) parent ∅
                (NewMailbox (match PropsMailbox props with Some c => Some c | None => sys_mailbox s end))
                a true (cancelled s) in
  system_ok (MkSystem (sys_name s) (sys_mailbox s)
    (<[actor_path s p (PropsName props) := next s]> (actors s))
    (<[next s := info]> (heap s)) (S (next s)) (running s) (cancelled s)).
Proof.
  intros Hok Hpar Ha Hnone info. pose proof Hok as [Hreg Hrun Hnext Hpath Hrefs].
  assert (heap s !! next s = None) as Hfresh.
  { destruct (heap s !! next s) eqn:E; [|done].
    specialize (Hnext (next s) ltac:(eauto)). lia. }
  set (s' := MkSystem _ _ _ _ _ _ _).
  assert (extends s s') as Hext by by apply insert_extends.
  split; simpl.
  - intros q r [[<- <-]|[Hne Hr]]%lookup_insert_Some.
    + exists info. by rewrite lookup_insert_eq.
    + destruct (Hreg q r Hr) as (i & Hi & ? & ?). exists i.
      rewrite lookup_insert_ne by congruence. by split.
  - intros r i [[<- <-]|[Hne Hi]]%lookup_insert_Some Hri; simpl.
    + by rewrite lookup_insert_eq.
    + pose proof (Hrun r i Hi Hri). rewrite lookup_insert_ne; [done|]. congruence.
  - intros r [i [[<- _]|[_ Hi]]%lookup_insert_Some]; [lia|].
    specialize (Hnext r ltac:(eauto)). lia.
  - intros r i [[<- <-]|[Hne Hi]]%lookup_insert_Some.
    + unfold path_ok. simpl. destruct parent as [pr|], p as [pi|]; try done.
      exists pi. rewrite lookup_insert_ne by congruence. split; [done|].
      split; [apply Hnext; eauto | done].
    + eapply (path_ok_mono s); [done | by repeat split | by apply Hpath].
  - intros r i [[<- <-]|[Hne Hi]]%lookup_insert_Some.
    + by apply (create_refs_ok _ _ _ _ _ props).
    + apply (refs_ok_mono s s'); eauto.
Qed.

Lemma safe_spawn props parent s :
  system_ok s -> (forall r, parent = Some r -> is_Some (heap s !! r)) ->
  call_factory props <> None ->
  safe (spawn props parent) s (fun r s' => is_Some (heap s' !! r)).
Proof.
  intros Hok Hpar Hf. unfold spawn. eapply safe_bind; [by apply safe_get|].
  intros ? ? _ _ [-> ->]. destruct (negb (running s)); [by apply safe_fail|].
  eapply (safe_bind _ _ _ (fun p s' => s' = s /\ parent_is s parent p)).
  { destruct parent as [r|]; [|by apply safe_ret].
    eapply safe_bind; [apply safe_deref; [done | by apply Hpar]|].
    intros i s' _ _ [-> Hi]. by apply safe_ret. }
  intros p ? _ _ [-> Hp]. cbv zeta.
  destruct (actors s !! _) eqn:Hnone; [by apply safe_fail|].
  destruct (call_factory props) as [a|] eqn:Ha; [|done].
  pose proof (spawn_ok s props parent p a Hok Hp Ha Hnone) as Hok'.
  split; [exact Hok'|]. split.
  - apply insert_extends. destruct (heap s !! next s) eqn:E; [|done].
    pose proof (so_next s Hok (next s) ltac:(eauto)). lia.
  - intros ? [= <-]. simpl. rewrite lookup_insert_eq. eauto.
Qed.

Lemma unregister_ok s path r :
  system_ok s -> actors s !! path = Some r ->
  let s' := set_actors (set_heap s (alter (fun i => cancel_ (not_running i)) r (heap s)))
              (delete path (actors s)) in
  system_ok s' /\ extends s s'.
Proof.
  intros Hok Hr s'. pose proof Hok as [Hreg Hrun Hnext Hpath Hrefs].
  assert (extends s s') as Hext.
  { apply (alter_extends s r (fun i => cancel_ (not_running i))). by repeat split. }
  assert (forall r' i', heap s' !! r' = Some i' -> exists i,
    heap s !! r' = Some i /\ same_actor i i' /\ (r' <> r -> i' = i) /\
    (r' = r -> ai_running i' = false) /\ (refs_ok (heap s) i -> refs_ok (heap s) i')) as Hlook.
  { intros r' i'. simpl. destruct (decide (r = r')) as [<-|Hne].
    - rewrite lookup_alter_eq. destruct (heap s !! r) as [i|]; [|done]. intros [= <-].
      exists i. split; [done|]. split; [by repeat split|]. split; [done|]. split; [done|].
      by intros [].
    - rewrite lookup_alter_ne by done. intros Hi. exists i'. split; [done|].
      split; [by repeat split|]. split; [done|]. split; [congruence | done]. }
  split; [|done]. split; simpl.
  - intros p r' [Hne Hr']%lookup_delete_Some. destruct (Hreg p r' Hr') as (i & Hi & Hp & Hri).
    assert (r <> r') as Hrr.
    { intros <-. destruct (Hreg path r Hr) as (i2 & Hi2 & Hp2 & _). congruence. }
    exists i. rewrite lookup_alter_ne by done. by split.
  - intros r' i' (i & Hi & Hs & Hsame & Hdead & _)%Hlook Hri.
    destruct (decide (r' = r)) as [->|Hne]; [by rewrite Hdead in Hri|].
    rewrite (Hsame Hne) in *. pose proof (Hrun r' i Hi Hri).
    rewrite lookup_delete_ne; [done|]. congruence.
  - intros r' [i' (i & Hi & _)%Hlook]. eauto.
  - intros r' i' (i & Hi & Hs & _)%Hlook. eapply path_ok_mono; eauto.
  - intros r' i' (i & Hi & _ & _ & _ & Hro)%Hlook.
    apply (refs_ok_mono s s' i' Hext), Hro. eauto.
Qed.

Lemma close_mailbox_ok s ref :
  system_ok s ->
  let s' := set_heap s (alter close_mailbox ref (heap s)) in system_ok s' /\ extends s s'.
Proof.
  intros Hok. split.
  - apply alter_ok; [done|]. intros i Hi. split; [by repeat split|]. split; [done|].
    destruct (so_refs s Hok _ _ Hi). by split.
  - apply alter_extends. by repeat split.
Qed.

(** [stop] as one update of the state. *)
Lemma stop_eq ref s i r :
  heap s !! ref = Some i -> actors s !! ai_path i = Some r ->
  stop ref s = Returns (inr tt)
    (let s1 := set_actors (set_heap s (alter (fun i => cancel_ (not_running i)) r (heap s)))
                 (delete (ai_path i) (actors s)) in
     set_heap s1 (alter close_mailbox ref (heap s1))).
Proof.
  intros Hi Hr. unfold stop, bind, deref. rewrite Hi. cbn [get]. rewrite Hr. simpl.
  unfold set_heap, set_actors. simpl. by rewrite alter_alter_eq.
Qed.

Lemma safe_stop ref s :
  system_ok s -> is_Some (heap s !! ref) -> safe (stop ref) s (fun _ _ => True).
Proof.
  intros Hok [i Hi]. destruct (actors s !! ai_path i) as [r|] eqn:Hr.
  - unfold safe. rewrite (stop_eq ref s i r Hi Hr). cbv zeta.
    destruct (unregister_ok s (ai_path i) r Hok Hr) as [Hok1 Hext1].
    destruct (close_mailbox_ok _ ref Hok1) as [Hok2 Hext2].
    split; [exact Hok2|]. split; [by etrans | done].
  - unfold safe, stop, bind, deref. rewrite Hi. cbn [get]. rewrite Hr. simpl.
    split; [done|]. by split.
Qed.

Lemma safe_Tell ref msg s :
  system_ok s -> is_Some (heap s !! ref) -> safe (Tell ref msg) s (fun _ _ => True).
Proof.
  intros Hok Href. unfold Tell. eapply safe_bind; [by apply safe_deref|].
  intros i ? _ _ [-> Hi].
  destruct (Push (ai_mailbox i) msg) as [[[]|e|] m| |] eqn:HP.
  - apply safe_update; [done|]. intros i' Hi'. split; [by repeat split|]. split; [done|].
    destruct (so_refs s Hok _ _ Hi'). by split.
  - by apply safe_fail.
  - exfalso. unfold Push in HP. by repeat case_match.
  - done.
  - exfalso. unfold Push in HP. by repeat case_match.
Qed.

Lemma safe_ctx_Spawn self props s :
  system_ok s -> is_Some (heap s !! self) -> call_factory props <> None ->
  safe (ctx_Spawn self props) s (fun r s' => is_Some (heap s' !! r)).
Proof.
  intros Hok Hself Hf. unfold ctx_Spawn.
  eapply safe_bind; [apply safe_spawn; [done | by intros ? [= <-] | done]|].
  intros r s1 Hok1 Hext1 Hr. eapply safe_bind.
  - apply safe_update; [done|]. intros i Hi. split; [by repeat split|]. split; [done|].
    destruct (so_refs s1 Hok1 _ _ Hi) as [H1 H2]. split; [|done].
    intros n r'. simpl. rewrite lookup_insert_Some. naive_solver.
  - intros [] s2 Hok2 Hext2 _. apply safe_ret; [done|]. by eapply extends_is_Some.
Qed.

(** *** Supervisors *)

Definition is_sup (s : System) (self : ActorRef) : Prop :=
  exists i, heap s !! self = Some i /\ is_supervisor i = true.

Lemma is_sup_mono s s' self : extends s s' -> is_sup s self -> is_sup s' self.
Proof.
  intros [_ H] (i & Hi & Hs). destruct (H self i Hi) as (i' & Hi' & _ & _ & _ & E).
  exists i'. split; [done | congruence].
Qed.

Definition child_ok (s : System) (c : ChildInfo) : Prop :=
  is_Some (heap s !! Ref c) /\ call_factory (ChildProps c) <> None.

Definition children_ok (s : System) (sp : Supervisor) : Prop :=
  forall n c, children sp !! n = Some c -> child_ok s c.

Lemma child_ok_mono s s' c : extends s s' -> child_ok s c -> child_ok s' c.
Proof. intros Hext [H1 H2]. split; [by eapply extends_is_Some | done]. Qed.

Lemma safe_get_supervisor self s :
  system_ok s -> is_sup s self ->
  safe (get_supervisor self) s
    (fun o s' => s' = s /\ exists sp, o = Some sp /\ children_ok s sp).
Proof.
  intros Hok (i & Hi & Hs). unfold get_supervisor.
  eapply safe_bind; [apply safe_deref; [done | eauto]|].
  intros i' ? _ _ [-> Hi']. apply safe_ret; [done|]. split; [done|].
  assert (i' = i) as -> by congruence. unfold is_supervisor in Hs.
  destruct (ai_actor i) as [sp|] eqn:Ha; [|done]. exists sp. split; [done|].
  intros n c Hc. by apply (ro_supervised _ _ (so_refs s Hok _ _ Hi) sp n c).
Qed.

Lemma safe_put_supervisor self sp s :
  system_ok s -> is_sup s self -> children_ok s sp ->
  safe (put_supervisor self sp) s (fun _ _ => True).
Proof.
  intros Hok (i & Hi & Hs) Hcs. apply safe_update; [done|]. intros i' Hi'.
  assert (i' = i) as -> by congruence.
  split; [repeat split; by rewrite Hs|]. split; [done|].
  destruct (so_refs s Hok _ _ Hi) as [H1 _]. split; [done|].
  intros sp' n c [= <-] Hc. by apply (Hcs n c).
Qed.

Lemma HandleFailure_children s sp name now d sp' :
  HandleFailure sp name now = (d, sp') -> children_ok s sp -> children_ok s sp'.
Proof.
  unfold HandleFailure. intros HF Hok.
  destruct (children sp !! name) as [info|] eqn:E; [|by injection HF as <- <-].
  case_match; injection HF as <- <-; intros n c; simpl;
    intros [[<- <-]|[_ Hc]]%lookup_insert_Some; try by apply (Hok n c).
  - by apply (Hok name info).
  - by apply (Hok name info).
Qed.

Lemma safe_restartSingle self name info s :
  system_ok s -> is_sup s self -> child_ok s info ->
  safe (restartSingle self name info) s (fun _ _ => True).
Proof.
  intros Hok Hsup [Href Hf]. unfold restartSingle.
  eapply safe_bind; [eapply safe_ignore; by apply safe_stop|].
  intros [] s1 Hok1 Hext1 _. pose proof (is_sup_mono _ _ _ Hext1 Hsup) as Hsup1.
  eapply safe_bind; [apply safe_ctx_Spawn; [done| |done]|].
  { destruct Hsup1 as (i & -> & _). eauto. }
  intros r s2 Hok2 Hext2 Hr. pose proof (is_sup_mono _ _ _ Hext2 Hsup1) as Hsup2.
  eapply safe_bind; [by apply safe_get_supervisor|].
  intros os ? _ _ (-> & sp & -> & Hcs). apply safe_put_supervisor; [done | done|].
  intros n c. simpl. destruct (decide (name = n)) as [<-|Hne].
  - rewrite lookup_alter_eq. destruct (children sp !! name) as [c'|] eqn:E; [|done].
    intros [= <-]. destruct (Hcs name c' E). by split.
  - rewrite lookup_alter_ne by done. apply Hcs.
Qed.

Section SupervisorSafety.
Context (range_children : gmap string ChildInfo -> list (string * ChildInfo)).
Context (range_refs : gmap string ActorRef -> list (string * ActorRef)).
Context (range_children_ok : forall m x, x ∈ range_children m -> m !! x.1 = Some x.2).
Context (range_refs_ok : forall m x, x ∈ range_refs m -> m !! x.1 = Some x.2).

Lemma safe_restartAll self sp s :
  system_ok s -> is_sup s self -> children_ok s sp ->
  safe (restartAll range_children self sp) s (fun _ _ => True).
Proof.
  intros Hok Hsup Hcs. unfold restartAll.
  apply (safe_for_all _ _ _ (fun x s => is_sup s self /\ child_ok s x.2)); [done|..].
  - intros x s1 s2 Hext [H1 H2].
    split; [by eapply is_sup_mono | by eapply child_ok_mono].
  - intros [n c] s1 _ Hok1 [H1 H2]. eapply safe_ignore. by apply safe_restartSingle.
  - intros [n c] Hx. split; [done|]. by apply (Hcs n), (range_children_ok _ (n, c)).
Qed.

(** [restartChild] restarts the children [restart_targets] names: one of them with
    [restartSingle], or all of them in the order of the range over the map. *)
Lemma restartChild_targets self s name info :
  range_children (children s) ≡ₚ map_to_list (children s) ->
  children s !! name = Some info ->
  exists l, l.*1 ≡ₚ restart_targets s name /\
    (forall x, x ∈ l -> children s !! x.1 = Some x.2) /\
    (restartChild range_children self s name info
       = for_all (fun '(n, i) => ignore (restartSingle self n i)) l \/
     (l = [(name, info)] /\
      restartChild range_children self s name info = restartSingle self name info)).
Proof.
  intros Hp Hi. unfold restartChild, restart_targets, restartAll, restartRest.
  destruct (strategy s =? OneForOne); [|destruct (strategy s =? OneForAll)];
    [..|destruct (strategy s =? RestForOne)].
  - exists [(name, info)]. split; [done|]. split; [|auto].
    by intros x ->%list_elem_of_singleton.
  - exists (range_children (children s)). split; [by apply Permutation_map|].
    split; [apply range_children_ok | auto].
  - exists [(name, info)]. split; [done|]. split; [|auto].
    by intros x ->%list_elem_of_singleton.
  - exists []. split; [done|]. split; [by intros x ?%elem_of_nil | auto].
Qed.

Lemma safe_executeDecision self name d s :
  system_ok s -> is_sup s self ->
  safe (executeDecision range_children self name d) s (fun _ _ => True).
Proof.
  intros Hok Hsup. unfold executeDecision.
  eapply safe_bind; [by apply safe_get_supervisor|].
  intros os ? _ _ (-> & sp & -> & Hcs).
  destruct (children sp !! name) as [info|] eqn:Hc; [|by apply safe_ret].
  pose proof (Hcs name info Hc) as Hinfo. destruct d.
  - unfold restartChild, restartRest.
    repeat case_match; try by apply safe_restartSingle.
    + by apply safe_restartAll.
    + by apply safe_ret.
  - by apply safe_ret.
  - apply safe_stop; [done | apply Hinfo].
  - destruct Hsup as (i & Hi & _).
    eapply safe_bind; [apply safe_deref; [done | eauto]|].
    intros i' ? _ _ [-> Hi']. destruct (ai_parent i') as [pr|] eqn:Hp; [|by apply safe_ret].
    apply safe_Tell; [done|]. pose proof (so_path s Hok _ _ Hi') as Hpath.
    unfold path_ok in Hpath. rewrite Hp in Hpath. destruct Hpath as (p & Hpr & _). eauto.
Qed.

Lemma safe_on_failure now self name s :
  system_ok s -> is_sup s self ->
  safe (on_failure range_children now self name) s (fun _ _ => True).
Proof.
  intros Hok Hsup. unfold on_failure.
  eapply safe_bind; [by apply safe_get_supervisor|].
  intros os ? _ _ (-> & sp & -> & Hcs).
  destruct (HandleFailure sp name now) as [d sp'] eqn:HF.
  eapply safe_bind.
  - apply safe_put_supervisor; [done | done | by eapply HandleFailure_children].
  - intros [] s1 Hok1 Hext1 _. apply safe_executeDecision; [done|]. by eapply is_sup_mono.
Qed.

Lemma safe_Receive now self msg s :
  system_ok s -> is_sup s self ->
  safe (Receive range_children range_refs now self msg) s (fun _ _ => True).
Proof.
  intros Hok Hsup. unfold Receive. case_match; [|case_match].
  - unfold handleLifecycle. destruct (MsgPayload msg) as [name|name e|v|target m].
    + eapply safe_bind; [by apply safe_get_supervisor|].
      intros os ? _ _ (-> & sp & -> & Hcs). apply safe_put_supervisor; [done | done|].
      intros n c Hc. simpl in Hc. apply lookup_delete_Some in Hc as [_ Hc]. by apply (Hcs n).
    + by apply safe_on_failure.
    + by apply safe_ret.
    + by apply safe_ret.
  - unfold handleError. destruct (MsgPayload msg); try by apply safe_ret.
    by apply safe_on_failure.
  - unfold routeMessage. destruct Hsup as (i & Hi & _).
    eapply safe_bind; [apply safe_deref; [done | eauto]|].
    intros i' ? _ _ [-> Hi'].
    apply (safe_for_all _ _ _ (fun x s => is_Some (heap s !! x.2))); [done|..].
    + intros x s1 s2 Hext. by apply extends_is_Some.
    + intros [n r] s1 _ Hok1 Hr. eapply safe_ignore. by apply safe_Tell.
    + intros [n r] Hx. apply (ro_children _ _ (so_refs s Hok _ _ Hi') n).
      by apply (range_refs_ok _ (n, r)).
Qed.
End SupervisorSafety.

(** *** Starting a tree *)

(** Every type in the tree is one that has a factory, and no factory panics. *)
Fixpoint known_types (d : ActorDefinition) : bool :=
  match d with
  | MkActorDefinition name t par sup config outputs cs =>
      match call_factory (MkProps name (def_factory t name sup config) par sup None outputs) with
      | Some _ => forallb known_types cs
      | None => false
      end
  end.

Lemma definition_ind (P : ActorDefinition -> Prop) :
  (forall name t par sup config outputs cs, Forall P cs ->
     P (MkActorDefinition name t par sup config outputs cs)) ->
  forall d, P d.
Proof.
  intros Hd. fix IH 1. intros [name t par sup config outputs cs]. apply Hd.
  induction cs as [|c cs IHcs]; constructor; [apply IH | apply IHcs].
Qed.

Lemma safe_start_child ctx d sup s :
  known_types d = true -> system_ok s -> is_Some (heap s !! ctx) -> is_sup s sup ->
  safe (start_child ctx sup d) s (fun _ _ => True).
Proof.
  revert sup s. induction d as [name t par supervision config outputs cs IH] using definition_ind.
  intros sup s Hk Hok Hctx Hsup. cbn [known_types] in Hk. cbn [start_child].
  set (props := MkProps _ _ _ _ _ _) in *.
  destruct (call_factory props) as [a|] eqn:Hf; [|done].
  eapply safe_bind; [apply safe_ctx_Spawn; [done|done|congruence]|].
  intros ref s1 Hok1 Hext1 Href. pose proof (is_sup_mono _ _ _ Hext1 Hsup) as Hsup1.
  eapply safe_bind; [by apply safe_get_supervisor|].
  intros os ? _ _ (-> & sp & -> & Hcs).
  eapply safe_bind.
  { apply safe_put_supervisor; [done | done|]. intros n c. simpl.
    intros [[<- <-]|[_ Hc]]%lookup_insert_Some; [|by apply (Hcs n)].
    split; [done|]. simpl. congruence. }
  intros [] s2 Hok2 Hext2 _. destruct cs as [|c cs]; [by apply safe_ret|].
  pose proof (extends_is_Some _ _ _ Hext2 Href) as Href2.
  unfold get_supervisor. eapply safe_bind.
  { eapply safe_bind; [by apply safe_deref|]. intros i ? _ _ [-> Hi].
    apply (safe_ret _ _ (fun on s' => s' = s2 /\
      (forall nested, on = Some nested -> is_sup s2 ref))); [done|].
    split; [done|]. intros nested Hn. exists i. split; [done|].
    unfold is_supervisor. by destruct (ai_actor i). }
  intros on ? _ _ (-> & Hon). destruct on as [nested|]; [|by apply safe_ret].
  specialize (Hon nested eq_refl).
  apply (safe_for_all _ _ _ (fun d s => is_Some (heap s !! ctx) /\ is_sup s ref)); [done|..].
  - intros x s3 s4 Hext [H1 H2].
    split; [by eapply extends_is_Some | by eapply is_sup_mono].
  - intros x s3 Hx Hok3 [H1 H2]. rewrite Forall_forall in IH.
    apply IH; [done| |done|done|done].
    eapply forallb_forall in Hk; [exact Hk|]. by apply list_elem_of_In.
  - intros x _. split; [|done]. eapply extends_is_Some; [|exact Hctx]. by etrans.
Qed.

(** ** Every run *)

Lemma Stop_ok s r s' : system_ok s -> Stop s = Returns r s' -> system_ok s'.
Proof.
  intros Hok. pose proof Hok as [Hreg Hrun Hnext Hpath Hrefs]. unfold Stop, bind, get.
  destruct (negb (running s)); [by intros [= <- <-]|]. cbv zeta. intros [= <- <-].
  set (h := map_imap _ _).
  assert (forall r i', h !! r = Some i' -> exists i, heap s !! r = Some i /\
    same_actor i i' /\ ai_running i' = ai_running i /\ (refs_ok (heap s) i -> refs_ok (heap s) i'))
    as Hlook.
  { intros r0 i'. unfold h. rewrite map_lookup_imap. destruct (heap s !! r0) as [i|]; [|done].
    simpl. intros [= <-]. exists i. split; [done|].
    case_bool_decide; (split; [by repeat split|]; split; [done|]; by intros []). }
  assert (extends s (MkSystem (sys_name s) (sys_mailbox s) (actors s) h (next s) false true)) as Hext.
  { split; [done|]. intros r0 i Hi. simpl. unfold h. rewrite map_lookup_imap, Hi. simpl.
    eexists. split; [done|]. case_bool_decide; by repeat split. }
  split; simpl.
  - intros p r0 Hr. destruct (Hreg p r0 Hr) as (i & Hi & Hp & Hri).
    unfold h. rewrite map_lookup_imap, Hi. simpl. eexists. split; [done|].
    case_bool_decide; by split.
  - intros r0 i' (i & Hi & Hs & Hr & _)%Hlook Hri. destruct Hs as (-> & _). apply Hrun; congruence.
  - intros r0 [i' (i & Hi & _)%Hlook]. eauto.
  - intros r0 i' (i & Hi & Hs & _)%Hlook. eapply path_ok_mono; eauto.
  - intros r0 i' (i & Hi & _ & _ & Hro)%Hlook. apply (refs_ok_mono s _ i' Hext), Hro. eauto.
Qed.

Definition is_inl {A B} (x : A + B) : bool := match x with inl _ => true | inr _ => false end.

Section Runs.
Context (range_children : gmap string ChildInfo -> list (string * ChildInfo)).
Context (range_refs : gmap string ActorRef -> list (string * ActorRef)).

(** A call on the system that returns. *)
Inductive sys_call : System -> System -> Prop :=
| call_start s r s' : Start s = Returns r s' -> sys_call s s'
| call_stop_system s r s' : Stop s = Returns r s' -> sys_call s s'
| call_spawn props parent s r s' : spawn props parent s = Returns r s' -> sys_call s s'
| call_ctx_spawn self props s r s' :
    ctx_Spawn self props s = Returns r s' -> sys_call s s'
| call_stop ref s r s' : stop ref s = Returns r s' -> sys_call s s'
| call_tell ref msg s r s' : Tell ref msg s = Returns r s' -> sys_call s s'
| call_notify ref s r s' : notifyParentOfFailure ref s = Returns r s' -> sys_call s s'
| call_receive now self msg s r s' : is_sup s self ->
    Receive range_children range_refs now self msg s = Returns r s' -> sys_call s s'
| call_start_children ctx sup defs s r s' :
    forallb known_types defs = true -> is_Some (heap s !! ctx) -> is_sup s sup ->
    StartChildren ctx sup defs s = Returns r s' -> sys_call s s'.

Definition sys_reachable (name : string) (config : option MailboxConfig) (s : System) : Prop :=
  rtc sys_call (NewSystem name config) s.

Context (range_children_ok : forall m x, x ∈ range_children m -> m !! x.1 = Some x.2).
Context (range_refs_ok : forall m x, x ∈ range_refs m -> m !! x.1 = Some x.2).

Lemma safe_returns {A} (m : act A) s Q r s' :
  safe m s Q -> m s = Returns r s' -> system_ok s'.
Proof. unfold safe. intros H E. rewrite E in H. apply H. Qed.

Lemma deref_returns {A} (f : ActorInfo -> act A) ref s r s' :
  bind (deref ref) f s = Returns r s' -> is_Some (heap s !! ref).
Proof. unfold bind, deref. destruct (heap s !! ref); [eauto | done]. Qed.

(** A spawn that returns had a parent to hang the actor under and a factory, or
    it changed nothing. *)
Lemma spawn_returns props parent s r s' :
  spawn props parent s = Returns r s' ->
  (forall q, parent = Some q -> is_Some (heap s !! q)) /\ call_factory props <> None \/
  s' = s /\ is_inl r = true.
Proof.
  unfold spawn, bind at 1, get.
  destruct (negb (running s)); [intros [= <- <-]; by right|].
  destruct parent as [q|]; intros E.
  - unfold bind, deref in E. destruct (heap s !! q) as [i|] eqn:Hq; [|done]. simpl in E.
    destruct (actors s !! _); [injection E as <- <-; by right|].
    destruct (call_factory props); [|done]. left. split; [|done].
    intros ? [= <-]. eauto.
  - unfold bind, ret in E. destruct (actors s !! _); [injection E as <- <-; by right|].
    destruct (call_factory props); [|done]. by left.
Qed.

Lemma sys_call_ok s s' : system_ok s -> sys_call s s' -> system_ok s'.
Proof.
  intros Hok Hcall.
  destruct Hcall as [s r s' E|s r s' E|props parent s r s' E|self props s r s' E
    |ref s r s' E|ref msg s r s' E|ref s r s' E|now self msg s r s' Hs E
    |ctx sup defs s r s' Hk Hctx Hs E].
  - unfold Start, bind, get in E. destruct (running s); injection E as <- <-; [done|].
    by destruct Hok.
  - by eapply Stop_ok.
  - destruct (spawn_returns _ _ _ _ _ E) as [[H1 H2]|[-> _]]; [|done].
    eapply safe_returns; [by apply safe_spawn | done].
  - unfold ctx_Spawn, bind in E. destruct (spawn props (Some self) s) as [x s1| |] eqn:E1; [|done..].
    destruct (spawn_returns _ _ _ _ _ E1) as [[H1 H2]|[-> Hx]].
    + eapply safe_returns; [apply (safe_ctx_Spawn self props s); [done | by apply H1 | done]|].
      unfold ctx_Spawn, bind. rewrite E1. exact E.
    + destruct x; [by injection E as <- <- | done].
  - eapply safe_returns; [|exact E]. apply safe_stop; [done|]. by eapply deref_returns.
  - eapply safe_returns; [|exact E]. apply safe_Tell; [done|]. by eapply deref_returns.
  - assert (is_Some (heap s !! ref)) as Href by by eapply deref_returns.
    eapply (safe_returns _ _ (fun _ _ => True)); [|exact E]. unfold notifyParentOfFailure.
    eapply safe_bind; [by apply safe_deref|]. intros i ? _ _ [-> Hi].
    destruct (ai_parent i) as [pr|] eqn:Hp; [|by apply safe_ret].
    eapply safe_ignore, safe_Tell; [done|]. pose proof (so_path s Hok _ _ Hi) as Hpath.
    unfold path_ok in Hpath. rewrite Hp in Hpath. destruct Hpath as (p & Hpr & _). eauto.
  - eapply safe_returns; [|exact E]. by apply safe_Receive.
  - eapply (safe_returns _ _ (fun _ _ => True)); [|exact E]. unfold StartChildren.
    apply (safe_for_all _ _ _ (fun d s => is_Some (heap s !! ctx) /\ is_sup s sup)); [done|..].
    + intros x s3 s4 Hext [H1 H2].
      split; [by eapply extends_is_Some | by eapply is_sup_mono].
    + intros x s3 Hx Hok3 [H1 H2]. apply safe_start_child; try done.
      eapply forallb_forall in Hk; [exact Hk|]. by apply list_elem_of_In.
    + by intros x _.
Qed.

Lemma sys_reachable_ok name config s : sys_reachable name config s -> system_ok s.
Proof.
  intros H. assert (system_ok (NewSystem name config)) as H0.
  { split; simpl; intros *; rewrite ?lookup_empty; try done; by intros [? ?]. }
  unfold sys_reachable in H. induction H; eauto using sys_call_ok.
Qed.
End Runs.

(** ** Properties *)

(** C2: After any sequence of calls on a new system (starting and stopping the
    system, spawning, stopping and messaging actors, starting trees and letting
    supervisors handle failures), the registry holds exactly the running actors,
    one per path, and an actor's path is its parent's path and its own name. *)
Theorem registry_is_running_actors range_children range_refs name config s :
  (forall m x, x ∈ range_children m -> m !! x.1 = Some x.2) ->
  (forall m x, x ∈ range_refs m -> m !! x.1 = Some x.2) ->
  sys_reachable range_children range_refs name config s ->
  (forall path r, actors s !! path = Some r <->
     exists i, heap s !! r = Some i /\ ai_path i = path /\ ai_running i = true) /\
  (forall r i, heap s !! r = Some i -> path_ok s r i).
Proof.
  intros H1 H2 [Hreg Hrun _ Hpath _]%sys_reachable_ok; [|done..].
  split; [|done]. intros path r. split; [apply Hreg|].
  intros (i & Hi & <- & Hr). by apply Hrun.
Qed.

(** A supervisor with a nested supervisor that has a sink below it. *)
Definition demo_tree : list ActorDefinition :=
  [MkActorDefinition "workers" "supervisor" 1 None ∅ []
     [MkActorDefinition "out" "sink" 1 None ∅ [] []]].

Definition top_props : Props := MkProps "top" (Some (SupervisorActor None)) 1 None None [].

(** The system after the tree is started below actor 0. *)
Definition demo_start : act unit :=
  Start ;* let* top := spawn top_props None in StartChildren top top demo_tree.

Definition demo_system : System :=
  match demo_start (NewSystem "sys" None) with
  | Returns _ s => s
  | _ => NewSystem "sys" None
  end.

Lemma demo_system_reachable :
  sys_reachable map_to_list map_to_list "sys" None demo_system.
Proof.
  unfold sys_reachable.
  eapply rtc_l; [eapply call_start; vm_compute; reflexivity|].
  eapply rtc_l; [eapply (call_spawn _ _ top_props None); vm_compute; reflexivity|].
  eapply rtc_l; [eapply (call_start_children _ _ 0 0 demo_tree)|].
  - reflexivity.
  - vm_compute. eauto.
  - eexists. split; vm_compute; reflexivity.
  - vm_compute. reflexivity.
  - match goal with |- rtc _ ?a ?b => replace b with a; [apply rtc_refl|] end.
    vm_compute. reflexivity.
Defined.

Lemma range_map_to_list {A} (m : gmap string A) x : x ∈ map_to_list m -> m !! x.1 = Some x.2.
Proof. destruct x as [k v]. by rewrite elem_of_map_to_list. Qed.

Lemma registry_is_running_actors_witness :
  actors demo_system !! "/sys/top/out" = Some 2 /\
  (forall path r, actors demo_system !! path = Some r <->
     exists i, heap demo_system !! r = Some i /\ ai_path i = path /\ ai_running i = true) /\
  (forall r i, heap demo_system !! r = Some i -> path_ok demo_system r i).
Proof.
  split; [vm_compute; reflexivity|].
  apply (registry_is_running_actors map_to_list map_to_list "sys" None).
  - apply range_map_to_list.
  - apply range_map_to_list.
  - apply demo_system_reachable.
Defined.

(** A supervisor handles every message without a panic, whatever the order in
    which it ranges over its children: no reference it follows is dangling and
    every child it restarts has a factory. *)
Theorem supervisor_never_panics range_children range_refs name config s now self msg :
  (forall m x, x ∈ range_children m -> m !! x.1 = Some x.2) ->
  (forall m x, x ∈ range_refs m -> m !! x.1 = Some x.2) ->
  sys_reachable range_children range_refs name config s -> is_sup s self ->
  Receive range_children range_refs now self msg s <> Panics.
Proof.
  intros H1 H2 Hr Hs.
  pose proof (sys_reachable_ok range_children range_refs H1 H2 name config s Hr) as Hok.
  pose proof (safe_Receive range_children range_refs H1 H2 now self msg s Hok Hs) as Hsafe.
  unfold safe in Hsafe. by destruct (Receive _ _ _ _ _ _).
Qed.

Lemma supervisor_never_panics_witness :
  Receive map_to_list map_to_list 5 0
    (MkMessage MessageTypeLifecycle (ChildFailed "workers" None)) demo_system <> Panics.
Proof.
  apply (supervisor_never_panics map_to_list map_to_list "sys" None).
  - apply range_map_to_list.
  - apply range_map_to_list.
  - apply demo_system_reachable.
  - eexists. split; vm_compute; reflexivity.
Defined.

(** *** Restarting one child *)

(** A child of [self], registered and running. *)
Record live_child (s : System) (self : ActorRef) (name : string) (info : ChildInfo) : Prop := {
  lc_sup : exists si sp, heap s !! self = Some si /\ ai_actor si = SupervisorImpl sp /\
    children sp !! name = Some info;
  lc_self : Ref info <> self;
  lc_child : exists i, heap s !! Ref info = Some i /\ ai_parent i = Some self /\
    ai_name i = PropsName (ChildProps info) /\ actors s !! ai_path i = Some (Ref info);
  lc_factory : call_factory (ChildProps info) <> None
}.

Lemma spawn_eq s props self si a :
  running s = true -> heap s !! self = Some si ->
  actors s !! actor_path s (Some si) (PropsName props) = None -> call_factory props = Some a ->
  let path := actor_path s (Some si) (PropsName props) in
  let new := MkActorInfo path (PropsName props) (Some self) ∅
    (NewMailbox (match PropsMailbox props with Some c => Some c | None => sys_mailbox s end))
    a true (cancelled s) in
  self <> next s ->
  ctx_Spawn self props s = Returns (inr (next s))
    (MkSystem (sys_name s) (sys_mailbox s) (<[path := next s]> (actors s))
       (<[next s := new]> (<[self := with_children (<[PropsName props := next s]>
          (ai_children si)) si]> (heap s))) (S (next s)) (running s) (cancelled s)).
Proof.
  intros Hrun Hsi Hnone Hf path new Hne.
  unfold ctx_Spawn, spawn, bind, get, deref, ret, put, update.
  rewrite Hrun. cbn [negb]. rewrite Hsi. cbv beta iota zeta. rewrite Hnone, Hf.
  cbv beta iota zeta. unfold set_heap. cbn [sys_name sys_mailbox actors heap next running cancelled].
  do 2 f_equal.
  rewrite alter_insert_ne by done. f_equal.
  by rewrite (alter_alt_Some _ _ _ si).
Qed.

(** Restarting a live child stops the old actor and closes its mailbox,
    registers a new one at the same path with an empty open mailbox, and makes the
    supervisor point to it; other children and other paths are left alone. *)
Theorem restart_replaces_child (s : System) (self : ActorRef) (name : string)
    (info : ChildInfo) :
  system_ok s -> running s = true -> live_child s self name info ->
  exists s' path old new si sp,
    restartSingle self name info s = Returns (inr tt) s' /\
    actors s !! path = Some (Ref info) /\ actors s' !! path = Some (next s) /\
    (forall q, q <> path -> actors s' !! q = actors s !! q) /\
    heap s' !! Ref info = Some old /\ closed (ai_mailbox old) = true /\
    ai_running old = false /\
    heap s' !! next s = Some new /\ messages (ai_mailbox new) = [] /\
    closed (ai_mailbox new) = false /\ ai_running new = true /\
    heap s' !! self = Some si /\ ai_actor si = SupervisorImpl sp /\
    GetChild sp name = Some (next s).
Proof.
  intros Hok Hrun [(si & sp & Hsi & Hsp & Hchild) Hne (i & Hi & Hpar & Hname & Hreg) Hf].
  destruct (call_factory (ChildProps info)) as [a|] eqn:Ef; [|done].
  pose proof (so_next s Hok (Ref info) ltac:(eauto)) as Hlt1.
  pose proof (so_next s Hok self ltac:(eauto)) as Hlt2.
  pose proof (so_path s Hok _ _ Hi) as Hpath. unfold path_ok in Hpath. rewrite Hpar in Hpath.
  destruct Hpath as (si' & Hsi' & _ & Hpath). assert (si' = si) as -> by congruence.
  rewrite Hname in Hpath.
  unfold restartSingle, bind at 1, ignore. rewrite (stop_eq _ _ _ _ Hi Hreg). cbv beta iota zeta.
  set (s1 := set_heap _ _).
  assert (heap s1 !! self = Some si) as Hsi1.
  { unfold s1. simpl. by rewrite !lookup_alter_ne. }
  assert (actor_path s1 (Some si) (PropsName (ChildProps info)) = ai_path i) as Hp1 by done.
  unfold bind at 1. rewrite (spawn_eq s1 (ChildProps info) self si a);
    [|done|done|rewrite Hp1; unfold s1; simpl; by rewrite lookup_delete_eq|done|simpl; lia].
  rewrite Hp1. cbv beta iota zeta. unfold bind, get_supervisor, bind, deref. simpl.
  rewrite lookup_insert_ne, lookup_insert_eq by lia. simpl. rewrite Hsp. simpl.
  eexists _, (ai_path i), _, _, _, _. split; [done|]. simpl.
  split; [done|]. split; [by rewrite lookup_insert_eq|]. split.
  { intros q Hq. by rewrite lookup_insert_ne, lookup_delete_ne. }
  rewrite lookup_alter_ne, lookup_insert_ne, lookup_insert_ne, lookup_alter_eq,
    lookup_alter_eq, Hi by lia. simpl.
  split; [done|]. split; [apply Close_fields|]. split; [done|].
  rewrite lookup_alter_ne, lookup_insert_eq by lia. do 4 (split; [done|]).
  rewrite lookup_alter_eq, lookup_insert_ne, lookup_insert_eq by lia. simpl.
  split; [done|]. split; [done|]. unfold GetChild. simpl.
  by rewrite lookup_alter_eq, Hchild.
Qed.

Definition demo_child : ChildInfo :=
  match heap demo_system !! 0 with
  | Some i =>
      match ai_actor i with
      | SupervisorImpl sp => default (MkChildInfo 0 top_props 0 0 []) (children sp !! "workers")
      | OtherImpl _ => MkChildInfo 0 top_props 0 0 []
      end
  | None => MkChildInfo 0 top_props 0 0 []
  end.

Lemma restart_replaces_child_witness :
  exists s' path old new si sp,
    restartSingle 0 "workers" demo_child demo_system = Returns (inr tt) s' /\
    actors demo_system !! path = Some (Ref demo_child) /\
    actors s' !! path = Some (next demo_system) /\
    (forall q, q <> path -> actors s' !! q = actors demo_system !! q) /\
    heap s' !! Ref demo_child = Some old /\ closed (ai_mailbox old) = true /\
    ai_running old = false /\
    heap s' !! next demo_system = Some new /\ messages (ai_mailbox new) = [] /\
    closed (ai_mailbox new) = false /\ ai_running new = true /\
    heap s' !! 0 = Some si /\ ai_actor si = SupervisorImpl sp /\
    GetChild sp "workers" = Some (next demo_system).
Proof.
  apply (restart_replaces_child demo_system 0 "workers" demo_child).
  - eapply (sys_reachable_ok map_to_list map_to_list);
      [apply range_map_to_list | apply range_map_to_list | apply demo_system_reachable].
  - reflexivity.
  - split.
    + eexists _, _. split; [vm_compute; reflexivity|]. split; vm_compute; reflexivity.
    + vm_compute. discriminate.
    + eexists. split; [vm_compute; reflexivity|]. repeat split; vm_compute; reflexivity.
    + vm_compute. discriminate.
Defined.

(** A supervisor does nothing about a child it does not hold, and the children
    of a nested supervisor are such: [StartChildren] spawns them under the outer
    context, so their failures are reported to the outer supervisor, which ignores
    them, and the supervisor that holds them is never told. *)
Theorem nested_child_failure_is_lost :
  (forall range_children range_refs now self name e s si sp,
     heap s !! self = Some si -> ai_actor si = SupervisorImpl sp ->
     children sp !! name = None ->
     Receive range_children range_refs now self
       (MkMessage MessageTypeLifecycle (ChildFailed name e)) s
     = Returns (inr tt) (set_heap s (alter (with_actor (SupervisorImpl sp)) self (heap s)))) /\
  exists out top workers sp spn,
    actors demo_system !! "/sys/top/out" = Some 2 /\ heap demo_system !! 2 = Some out /\
    ai_parent out = Some 0 /\
    heap demo_system !! 0 = Some top /\ ai_actor top = SupervisorImpl sp /\
    children sp !! "out" = None /\
    heap demo_system !! 1 = Some workers /\ ai_actor workers = SupervisorImpl spn /\
    GetChild spn "out" = Some 2.
Proof.
  split.
  - intros range_children range_refs now self name e s si sp Hsi Hsp Hnone.
    unfold Receive. simpl. unfold handleLifecycle, on_failure, get_supervisor, bind, deref.
    simpl. rewrite Hsi. simpl. rewrite Hsp. unfold HandleFailure. rewrite Hnone.
    unfold put_supervisor, update, executeDecision, get_supervisor, bind, deref. simpl.
    rewrite lookup_alter_eq, Hsi. simpl. by rewrite Hnone.
  - eexists _, _, _, _, _. repeat split; vm_compute; reflexivity.
Qed.
