(* ===== verification/Schema.v ===== *)
(** * Data schemas (pipeline-core/pkg/schema/schema.go)

    Field schemas, validation of records against them and the construction of a
    schema from a decoded configuration. Error messages are kept as constructors
    that carry what the message is made of. *)

From Stdlib Require Import String SpecFloat.
From S2P Require Import Prelude GoString GoValue.
Local Open Scope string_scope.
Local Open Scope list_scope.

Definition FieldType := string.
Definition FieldTypeString : FieldType := "string".
Definition FieldTypeNumber : FieldType := "number".
Definition FieldTypeInteger : FieldType := "integer".
Definition FieldTypeBoolean : FieldType := "boolean".
Definition FieldTypeObject : FieldType := "object".
Definition FieldTypeArray : FieldType := "array".
Definition FieldTypeAny : FieldType := "any".

Inductive FieldSchema := MkFieldSchema {
  Name : string;
  Type_ : FieldType;
  Required : bool;
  Description : string;
  Pattern : string;
  MinLength : option Z;
  MaxLength : option Z;
  Min : option spec_float;
  Max : option spec_float;
  Enum : list GoValue;
  Items : option FieldSchema;
  Properties : list FieldSchema
}.

Record DataSchema := MkDataSchema {
  SchemaName : string;
  SchemaDescription : string;
  Fields : list FieldSchema;
  Strict : bool
}.

Inductive SchemaError :=
| SeNull
| SeType (expected : FieldType)
| SeMinLength (n : Z)
| SeMaxLength (n : Z)
| SeBadPattern
| SePattern (p : string)
| SeMin (f : spec_float)
| SeMax (f : spec_float)
| SeItem (i : nat) (e : SchemaError)
| SeMissingProperty (name : string)
| SeProperty (name : string) (e : SchemaError)
| SeEnum
| SeMissingField
| SeUndefinedField
| SeNoSuchField (name : string).

(** ** Integers in floats *)

(** [int64(f)] truncates toward zero; what it gives outside the range of the type
    depends on the machine. *)
Class GoArch := { int64_overflow : spec_float -> Z }.

Definition trunc (s : bool) (m : positive) (e : Z) : Z :=
  cond_Zopp s (if (0 <=? e)%Z then Zpos m * 2 ^ e else Z.quot (Zpos m) (2 ^ (- e)))%Z.

Definition int64_of_float `{GoArch} (f : spec_float) : Z :=
  match f with
  | S754_zero _ => 0
  | S754_finite s m e =>
      let z := trunc s m e in
      if (- 2 ^ 63 <=? z)%Z && (z <? 2 ^ 63)%Z then z else int64_overflow f
  | _ => int64_overflow f
  end.

(** ** Types *)

Definition validateType `{GoArch} (expectedType : FieldType) (value : GoValue)
  : res SchemaError unit :=
  if expectedType =? FieldTypeAny then Ok tt
  else
    let check (b : bool) := if b then Ok tt else Err (SeType expectedType) in
    if expectedType =? FieldTypeString then
      check (match value with VString _ => true | _ => false end)
    else if expectedType =? FieldTypeNumber then
      check (match value with VFloat64 _ | VFloat32 _ | VInt _ _ => true | _ => false end)
    else if expectedType =? FieldTypeInteger then
      check (match value with
             | VInt _ _ => true
             | VFloat64 v => float_eq v (float64_of_Z (int64_of_float v))
             | _ => false
             end)
    else if expectedType =? FieldTypeBoolean then
      check (match value with VBool _ => true | _ => false end)
    else if expectedType =? FieldTypeArray then
      check (match value with VSlice _ => true | _ => false end)
    else if expectedType =? FieldTypeObject then
      check (match value with VMap _ => true | _ => false end)
    else Ok tt.

(** The [toFloat64] of this package: other integer kinds give zero. *)
Definition toFloat64 (value : GoValue) : spec_float :=
  match value with
  | VFloat64 v => v
  | VFloat32 v => float64_of_float32 v
  | VInt KInt v | VInt KInt64 v | VInt KInt32 v => float64_of_Z v
  | _ => S754_zero false
  end.

Definition below (v : option Z) (n : Z) : bool :=
  match v with Some m => (n <? m)%Z | None => false end.
Definition above (v : option Z) (n : Z) : bool :=
  match v with Some m => (m <? n)%Z | None => false end.

(** ** Validation of one field *)

Section Validation.
Context `{GoRuntime} `{GoArch}.

Definition check_string (field : FieldSchema) (value : GoValue) : res SchemaError unit :=
  let str := match value with VString s => s | _ => "" end in
  let len := Z.of_nat (String.length str) in
  if below (MinLength field) len then Err (SeMinLength (default 0%Z (MinLength field)))
  else if above (MaxLength field) len then Err (SeMaxLength (default 0%Z (MaxLength field)))
  else if negb (Pattern field =? "") then
    match regexp_compile (Pattern field) with
    | None => Err SeBadPattern
    | Some matches => if matches str then Ok tt else Err (SePattern (Pattern field))
    end
  else Ok tt.

Definition check_number (field : FieldSchema) (value : GoValue) : res SchemaError unit :=
  let num := toFloat64 value in
  match Min field with
  | Some m => if float_lt num m then Err (SeMin m) else Ok tt
  | None => Ok tt
  end ≫= fun _ =>
  match Max field with
  | Some m => if float_lt m num then Err (SeMax m) else Ok tt
  | None => Ok tt
  end.

Definition check_enum (field : FieldSchema) (value : GoValue) : res SchemaError unit :=
  match Enum field with
  | [] => Ok tt
  | vs => if existsb (fun enumVal => DeepEqual value enumVal) vs then Ok tt else Err SeEnum
  end.

Fixpoint validateField (field : FieldSchema) (value : GoValue) : res SchemaError unit :=
  match value with
  | VNil => if Required field then Err SeNull else Ok tt
  | _ =>
      validateType (Type_ field) value ≫= fun _ =>
      (match field with
       | MkFieldSchema _ t _ _ _ _ _ _ _ _ items props =>
           if t =? FieldTypeString then check_string field value
           else if (t =? FieldTypeNumber) || (t =? FieldTypeInteger) then
             check_number field value
           else if t =? FieldTypeArray then
             match value, items with
             | VSlice arr, Some it =>
                 for_each_i (fun i item => wrap_err (SeItem i) (validateField it item)) 0 arr
             | VSlice arr, None => Ok tt
             | _, _ => Err (SeType FieldTypeArray)
             end
           else if t =? FieldTypeObject then
             match value with
             | VMap obj =>
                 for_each (fun prop =>
                   match obj !! Name prop with
                   | Some v => wrap_err (SeProperty (Name prop)) (validateField prop v)
                   | None => if Required prop then Err (SeMissingProperty (Name prop)) else Ok tt
                   end) props
             | _ => Err (SeType FieldTypeObject)
             end
           else Ok tt
       end) ≫= fun _ =>
      check_enum field value
  end.

(** ** Validation of a record *)

(** Unlike the filter's field access, empty parts of the path are looked up. *)
Fixpoint walk_field (parts : list string) (current : GoValue) : option GoValue :=
  match parts with
  | [] => Some current
  | part :: parts' =>
      match current with
      | VMap m => match m !! part with Some v => walk_field parts' v | None => None end
      | _ => None
      end
  end.

Definition getNestedField (data : Data) (fieldPath : string) : option GoValue :=
  walk_field (Split fieldPath ".") (VMap data).

(** One round of the loop over the fields: the errors it adds. *)
Definition field_errors (data : Data) (field : FieldSchema) : list (string * SchemaError) :=
  match getNestedField data (Name field) with
  | None => if Required field then [(Name field, SeMissingField)] else []
  | Some value =>
      match validateField field value with
      | Err e => [(Name field, e)]
      | _ => []
      end
  end.

(** The order in which Go ranges over the record. *)
Context (range_data : Data -> list (string * GoValue)).

Definition strict_errors (s : DataSchema) (data : Data) : list (string * SchemaError) :=
  if Strict s then
    let definedFields : gset string := list_to_set (map Name (Fields s)) in
    flat_map (fun kv => if bool_decide (kv.1 ∈ definedFields) then []
                        else [(kv.1, SeUndefinedField)]) (range_data data)
  else [].

Definition Validate (s : DataSchema) (data : Data) : res (list (string * SchemaError)) unit :=
  let errors := flat_map (field_errors data) (Fields s) ++ strict_errors s data in
  match errors with
  | [] => Ok tt
  | _ => Err errors
  end.

Definition ValidateField (s : DataSchema) (fieldName : string) (value : GoValue)
  : res SchemaError unit :=
  match List.find (fun f => Name f =? fieldName) (Fields s) with
  | Some field => validateField field value
  | None => Err (SeNoSuchField fieldName)
  end.
End Validation.

(** ** Schemas from a configuration *)

Section Config.
Context `{GoArch}.

(** The loop over a list of field configurations; other entries are skipped. *)
Definition parse_fields (parse : Data -> option FieldSchema)
  : list GoValue -> option (list FieldSchema) :=
  fix loop l :=
    match l with
    | [] => Some []
    | VMap m :: l' =>
        match parse m, loop l' with
        | Some f, Some fs => Some (f :: fs)
        | _, _ => None
        end
    | _ :: l' => loop l'
    end.

(** [None] is the model running out of fuel: [parseFieldSchema] itself has no
    error to return. *)
Fixpoint parseFieldSchema (fuel : nat) (config : Data) : option FieldSchema :=
  match fuel with
  | O => None
  | S fuel' =>
      match as_map (config !! "items") with
      | Some items => Some <$> parseFieldSchema fuel' items
      | None => Some None
      end ≫= fun items =>
      match as_slice (config !! "properties") with
      | Some props => parse_fields (parseFieldSchema fuel') props
      | None => Some []
      end ≫= fun props =>
      Some (MkFieldSchema
        (default "" (as_string (config !! "name")))
        (default "" (as_string (config !! "type")))
        (default false (as_bool (config !! "required")))
        (default "" (as_string (config !! "description")))
        (default "" (as_string (config !! "pattern")))
        (int64_of_float <$> as_float64 (config !! "min_length"))
        (int64_of_float <$> as_float64 (config !! "max_length"))
        (as_float64 (config !! "min"))
        (as_float64 (config !! "max"))
        (default [] (as_slice (config !! "enum")))
        items props)
  end.

(** The nesting of a value: each level of the schema is one level deeper. *)
Fixpoint depth (v : GoValue) : nat :=
  match v with
  | VSlice l => S (list_max (map depth l))
  | VMap m => S (map_fold (fun _ w acc => Nat.max (depth w) acc) 0 m)
  | _ => 0
  end.

Definition NewDataSchemaFromConfig (config : Data) : option DataSchema :=
  match as_slice (config !! "fields") with
  | Some fields => parse_fields (parseFieldSchema (depth (VMap config))) fields
  | None => Some []
  end ≫= fun fields =>
  Some (MkDataSchema
    (default "" (as_string (config !! "name")))
    (default "" (as_string (config !! "description")))
    fields
    (default false (as_bool (config !! "strict")))).
End Config.

(** ** What conforming means *)

Section FieldInd.
Context (P : FieldSchema -> Prop).
Context (Hfield : forall f, (forall it, Items f = Some it -> P it) -> Forall P (Properties f) -> P f).

Fixpoint field_ind (f : FieldSchema) : P f.
Proof.
  destruct f as [n t r d p minl maxl mn mx e [it|] props]; apply Hfield; simpl.
  1: intros it' [= <-]; apply field_ind.
  2: discriminate.
  all: induction props as [|q props IH]; constructor; [apply field_ind | apply IH].
Defined.
End FieldInd.

Section Conforming.
Context `{GoRuntime} `{GoArch}.

Record string_ok (f : FieldSchema) (s : string) : Prop := {
  str_min : forall n, MinLength f = Some n -> (n <= Z.of_nat (String.length s))%Z;
  str_max : forall n, MaxLength f = Some n -> (Z.of_nat (String.length s) <= n)%Z;
  str_pattern : Pattern f <> "" ->
    exists re, regexp_compile (Pattern f) = Some re /\ re s = true
}.

Record number_ok (f : FieldSchema) (v : GoValue) : Prop := {
  num_min : forall m, Min f = Some m -> float_lt (toFloat64 v) m = false;
  num_max : forall m, Max f = Some m -> float_lt m (toFloat64 v) = false
}.

Definition is_number (v : GoValue) : bool :=
  match v with VFloat64 _ | VFloat32 _ | VInt _ _ => true | _ => false end.

Definition is_integer (v : GoValue) : bool :=
  match v with
  | VInt _ _ => true
  | VFloat64 x => float_eq x (float64_of_Z (int64_of_float x))
  | _ => false
  end.

Definition enum_ok (f : FieldSchema) (v : GoValue) : Prop :=
  Enum f = [] \/ exists w, w ∈ Enum f /\ DeepEqual v w = true.

(** A type name the validator does not know puts no constraint on the value. *)
Definition known_field_types : list FieldType :=
  [FieldTypeString; FieldTypeNumber; FieldTypeInteger; FieldTypeBoolean;
   FieldTypeArray; FieldTypeObject].

Inductive Conforms : FieldSchema -> GoValue -> Prop :=
| conf_null f : Required f = false -> Conforms f VNil
| conf_string f s : Type_ f = FieldTypeString -> string_ok f s -> enum_ok f (VString s) ->
    Conforms f (VString s)
| conf_number f v : Type_ f = FieldTypeNumber -> is_number v = true -> number_ok f v ->
    enum_ok f v -> Conforms f v
| conf_integer f v : Type_ f = FieldTypeInteger -> is_integer v = true -> number_ok f v ->
    enum_ok f v -> Conforms f v
| conf_boolean f b : Type_ f = FieldTypeBoolean -> enum_ok f (VBool b) -> Conforms f (VBool b)
| conf_array f arr : Type_ f = FieldTypeArray ->
    (forall it item, Items f = Some it -> item ∈ arr -> Conforms it item) ->
    enum_ok f (VSlice arr) -> Conforms f (VSlice arr)
| conf_object f obj : Type_ f = FieldTypeObject ->
    (forall prop v, prop ∈ Properties f -> obj !! Name prop = Some v -> Conforms prop v) ->
    (forall prop, prop ∈ Properties f -> obj !! Name prop = None -> Required prop = false) ->
    enum_ok f (VMap obj) -> Conforms f (VMap obj)
| conf_any f v : Type_ f ∉ known_field_types -> v <> VNil -> enum_ok f v -> Conforms f v.

Lemma check_string_ok f s : check_string f (VString s) = Ok tt <-> string_ok f s.
Proof.
  unfold check_string, below, above. split.
  - intros Hc. split.
    + intros n Hn. rewrite Hn in Hc. destruct (Z.ltb_spec (Z.of_nat (String.length s)) n); [done | lia].
    + intros n Hn. rewrite Hn in Hc.
      destruct (match MinLength f with Some _ => _ | None => _ end); [done|].
      destruct (Z.ltb_spec n (Z.of_nat (String.length s))); [done | lia].
    + intros Hp%String.eqb_neq. rewrite Hp in Hc. simpl in Hc.
      destruct (match MinLength f with Some _ => _ | None => _ end); [done|].
      destruct (match MaxLength f with Some _ => _ | None => _ end); [done|].
      destruct (regexp_compile (Pattern f)) as [re|]; [|done].
      exists re. split; [done|]. by destruct (re s).
  - intros [H1 H2 H3].
    assert (match MinLength f with Some m => (Z.of_nat (String.length s) <? m)%Z | None => false end
            = false) as ->.
    { destruct (MinLength f) as [n|]; [|done]. apply Z.ltb_ge. by apply H1. }
    assert (match MaxLength f with Some m => (m <? Z.of_nat (String.length s))%Z | None => false end
            = false) as ->.
    { destruct (MaxLength f) as [n|]; [|done]. apply Z.ltb_ge. by apply H2. }
    destruct (String.eqb_spec (Pattern f) "") as [|Hp]; [done|]. simpl.
    destruct (H3 Hp) as (re & -> & ->). done.
Qed.

Lemma check_number_ok f v : check_number f v = Ok tt <-> number_ok f v.
Proof.
  unfold check_number. split.
  - intros Hc. split; intros m Hm; rewrite Hm in Hc.
    + by destruct (float_lt (toFloat64 v) m).
    + apply bind_ok in Hc as (_ & _ & Hc). by destruct (float_lt m (toFloat64 v)).
  - intros [H1 H2]. destruct (Min f) as [m|]; [rewrite (H1 m eq_refl)|];
      destruct (Max f) as [m'|]; simpl; rewrite ?(H2 m' eq_refl); done.
Qed.

Lemma check_enum_ok f v : check_enum f v = Ok tt <-> enum_ok f v.
Proof.
  unfold check_enum, enum_ok. destruct (Enum f) as [|w ws]; [naive_solver|].
  assert (existsb (fun x => DeepEqual v x) (w :: ws) = true <->
    exists x, x ∈ w :: ws /\ DeepEqual v x = true) as Hex.
  { rewrite existsb_exists. by setoid_rewrite list_elem_of_In. }
  destruct (existsb _ (w :: ws)); naive_solver.
Qed.

Lemma bind_ok_unit {E} (m m' : res E unit) :
  (m ≫= fun _ => m') = Ok tt <-> m = Ok tt /\ m' = Ok tt.
Proof. destruct m as [[]| |]; simpl; naive_solver. Qed.

(** The type-specific part of [validateField]. *)
Definition shape (f : FieldSchema) (v : GoValue) : res SchemaError unit :=
  let t := Type_ f in
  if t =? FieldTypeString then check_string f v
  else if (t =? FieldTypeNumber) || (t =? FieldTypeInteger) then check_number f v
  else if t =? FieldTypeArray then
    match v, Items f with
    | VSlice arr, Some it =>
        for_each_i (fun i item => wrap_err (SeItem i) (validateField it item)) 0 arr
    | VSlice arr, None => Ok tt
    | _, _ => Err (SeType FieldTypeArray)
    end
  else if t =? FieldTypeObject then
    match v with
    | VMap obj =>
        for_each (fun prop =>
          match obj !! Name prop with
          | Some w => wrap_err (SeProperty (Name prop)) (validateField prop w)
          | None => if Required prop then Err (SeMissingProperty (Name prop)) else Ok tt
          end) (Properties f)
    | _ => Err (SeType FieldTypeObject)
    end
  else Ok tt.

Lemma validateField_eq f v :
  v <> VNil ->
  validateField f v = Ok tt <->
  validateType (Type_ f) v = Ok tt /\ shape f v = Ok tt /\ enum_ok f v.
Proof.
  intros Hv.
  assert (validateField f v = (validateType (Type_ f) v ≫= fun _ =>
    shape f v ≫= fun _ => check_enum f v)) as ->.
  { destruct f, v; done. }
  by rewrite !bind_ok_unit, check_enum_ok.
Qed.

Lemma validateField_null f : validateField f VNil = Ok tt <-> Required f = false.
Proof. destruct f as [? ? []]; simpl; naive_solver. Qed.

(** The array and the object case, given the result for the nested schemas. *)
Lemma shape_array f arr :
  Type_ f = FieldTypeArray ->
  (forall it, Items f = Some it -> forall v, validateField it v = Ok tt <-> Conforms it v) ->
  shape f (VSlice arr) = Ok tt <->
  (forall it item, Items f = Some it -> item ∈ arr -> Conforms it item).
Proof.
  intros Ht IH. unfold shape. rewrite Ht. simpl.
  destruct (Items f) as [it|]; [|naive_solver].
  rewrite (for_each_i_ok _ (Conforms it)).
  - rewrite Forall_forall. naive_solver.
  - intros i x. rewrite wrap_err_ok. by apply IH.
Qed.

Lemma shape_object f obj :
  Type_ f = FieldTypeObject ->
  Forall (fun p => forall v, validateField p v = Ok tt <-> Conforms p v) (Properties f) ->
  shape f (VMap obj) = Ok tt <->
  (forall prop v, prop ∈ Properties f -> obj !! Name prop = Some v -> Conforms prop v) /\
  (forall prop, prop ∈ Properties f -> obj !! Name prop = None -> Required prop = false).
Proof.
  intros Ht IH. rewrite Forall_forall in IH. unfold shape. rewrite Ht. simpl.
  rewrite for_each_ok, Forall_forall. split.
  - intros Hall. split.
    + intros prop v Hp Hv. specialize (Hall prop Hp). rewrite Hv in Hall.
      apply wrap_err_ok in Hall. by apply IH.
    + intros prop Hp Hv. specialize (Hall prop Hp). rewrite Hv in Hall.
      by destruct (Required prop).
  - intros [H1 H2] prop Hp. destruct (obj !! Name prop) as [v|] eqn:E.
    + apply wrap_err_ok, IH; eauto.
    + by rewrite (H2 prop).
Qed.

Lemma shape_other f v :
  Type_ f = FieldTypeBoolean \/ (Type_ f ∉ known_field_types) -> shape f v = Ok tt.
Proof.
  unfold shape. intros [-> | Hn]; [done|].
  assert (forall t, t ∈ known_field_types -> (Type_ f =? t) = false) as Hne.
  { intros t Ht. apply String.eqb_neq. by intros <-. }
  by rewrite !Hne by (apply (bool_decide_unpack _); vm_compute; exact I).
Qed.

Lemma validateType_other f v : (Type_ f ∉ known_field_types) -> validateType (Type_ f) v = Ok tt.
Proof.
  intros Hn. unfold validateType.
  assert (forall t, t ∈ known_field_types -> (Type_ f =? t) = false) as Hne.
  { intros t Ht. apply String.eqb_neq. by intros <-. }
  destruct (Type_ f =? FieldTypeAny); [done|].
  by rewrite !Hne by (apply (bool_decide_unpack _); vm_compute; exact I).
Qed.

Definition IH_fields (f : FieldSchema) : Prop :=
  (forall it, Items f = Some it -> forall v, validateField it v = Ok tt <-> Conforms it v) /\
  Forall (fun p => forall v, validateField p v = Ok tt <-> Conforms p v) (Properties f).

Lemma conforms_checked f v :
  v <> VNil -> IH_fields f -> Conforms f v ->
  validateType (Type_ f) v = Ok tt /\ shape f v = Ok tt /\ enum_ok f v.
Proof.
  intros Hv IH Hc.
  destruct Hc as [f Hr|f s Ht Hs He|f v Ht Hn Hs He|f v Ht Hn Hs He|f b Ht He
    |f arr Ht Ha He|f obj Ht H1 H2 He|f v Ht _ He]; [done|..];
    (split; [|split; [|done]]).
  - by rewrite Ht.
  - unfold shape. rewrite Ht. by apply check_string_ok.
  - rewrite Ht. unfold validateType. simpl. unfold is_number in Hn. by rewrite Hn.
  - unfold shape. rewrite Ht. by apply check_number_ok.
  - rewrite Ht. unfold validateType. simpl. unfold is_integer in Hn. by rewrite Hn.
  - unfold shape. rewrite Ht. by apply check_number_ok.
  - by rewrite Ht.
  - apply shape_other. by left.
  - by rewrite Ht.
  - apply shape_array; [done | apply IH | done].
  - by rewrite Ht.
  - apply shape_object; [done | apply IH | done].
  - by apply validateType_other.
  - apply shape_other. by right.
Qed.

Lemma checked_conforms f v :
  v <> VNil -> IH_fields f ->
  validateType (Type_ f) v = Ok tt -> shape f v = Ok tt -> enum_ok f v -> Conforms f v.
Proof.
  intros Hv [IHi IHp] Htype Hshape He.
  destruct (decide (Type_ f ∈ known_field_types)) as [Hk|Hk]; [|by apply conf_any].
  unfold known_field_types in Hk.
  repeat (apply elem_of_cons in Hk as [Ht|Hk]); [..|by apply elem_of_nil in Hk];
    rewrite Ht in Htype; unfold validateType in Htype; simpl in Htype.
  - destruct v; try done. apply conf_string; [done| |done]. apply check_string_ok.
    unfold shape in Hshape. by rewrite Ht in Hshape.
  - apply conf_number; [done| | |done]; [by unfold is_number; case_match|].
    apply check_number_ok. unfold shape in Hshape. by rewrite Ht in Hshape.
  - apply conf_integer; [done| | |done]; [unfold is_integer; by case_match|].
    apply check_number_ok. unfold shape in Hshape. by rewrite Ht in Hshape.
  - destruct v; try done. by apply conf_boolean.
  - destruct v; try done. apply conf_array; [done| |done]. by apply shape_array.
  - destruct v; try done. apply shape_object in Hshape as [? ?]; [|done..].
    by apply conf_object.
Qed.

Lemma validateField_conforms f v : validateField f v = Ok tt <-> Conforms f v.
Proof.
  revert v. induction f as [f IHitems IHprops] using field_ind. intros v.
  assert (v = VNil \/ v <> VNil) as [->|Hv] by (destruct v; auto).
  { rewrite validateField_null. split; [by constructor|].
    inversion 1; subst; try done. }
  rewrite (validateField_eq f v Hv). split.
  - intros (? & ? & ?). by apply checked_conforms.
  - by apply conforms_checked.
Qed.

Lemma for_each_no_panic {E A} (g : A -> res E unit) l :
  Forall (fun x => g x <> Panic) l -> for_each g l <> Panic.
Proof.
  induction 1 as [|x l Hx _ IH]; simpl; [done|].
  by intros [?|([] & _ & ?)]%bind_panic.
Qed.

Lemma validateField_no_panic f v : validateField f v <> Panic.
Proof.
  revert v. induction f as [f IHitems IHprops] using field_ind. intros v Hp.
  assert (v = VNil \/ v <> VNil) as [->|Hv] by (destruct v; auto).
  { destruct f as [? ? []]; done. }
  assert (validateField f v = (validateType (Type_ f) v ≫= fun _ =>
    shape f v ≫= fun _ => check_enum f v)) as Heq by (destruct f, v; done).
  rewrite Heq in Hp. apply bind_panic in Hp as [Hp|(_ & _ & [Hp|(_ & _ & Hp)]%bind_panic)].
  - unfold validateType in Hp. by repeat case_match.
  - unfold shape in Hp. destruct (Type_ f =? FieldTypeString).
    { unfold check_string in Hp. by repeat case_match. }
    destruct (_ || _).
    { unfold check_number in Hp. apply bind_panic in Hp as [Hp|(_ & _ & Hp)]; by repeat case_match. }
    destruct (Type_ f =? FieldTypeArray).
    { destruct v, (Items f) as [it|] eqn:Ei; try done. revert Hp. apply for_each_i_no_panic.
      apply Forall_true. intros x i Hx%wrap_err_panic. by eapply IHitems. }
    destruct (Type_ f =? FieldTypeObject); [|done].
    destruct v; try done. revert Hp. apply for_each_no_panic.
    eapply Forall_impl; [exact IHprops|]. simpl. intros prop IH Hx.
    destruct (m !! Name prop); [|by destruct (Required prop)].
    apply wrap_err_panic in Hx. by eapply IH.
  - unfold check_enum in Hp. by repeat case_match.
Qed.

(** What a record must satisfy for one field of the schema. *)
Definition field_ok (data : Data) (f : FieldSchema) : Prop :=
  match getNestedField data (Name f) with
  | Some v => Conforms f v
  | None => Required f = false
  end.

Lemma field_errors_nil data f : field_errors data f = [] <-> field_ok data f.
Proof.
  unfold field_errors, field_ok. destruct (getNestedField data (Name f)) as [v|].
  - rewrite <- validateField_conforms. pose proof (validateField_no_panic f v).
    destruct (validateField f v) as [[]| |]; naive_solver.
  - destruct (Required f); naive_solver.
Qed.

Lemma field_errors_named data f : ~ field_ok data f -> exists e, (Name f, e) ∈ field_errors data f.
Proof.
  rewrite <- field_errors_nil. unfold field_errors.
  destruct (getNestedField data (Name f)) as [v|].
  - destruct (validateField f v); try done. intros _. eexists. by apply list_elem_of_singleton.
  - destruct (Required f); [|done]. intros _. eexists. by apply list_elem_of_singleton.
Qed.

Lemma flat_map_nil {A B} (g : A -> list B) l : flat_map g l = [] <-> Forall (fun x => g x = []) l.
Proof.
  induction l as [|x l IH]; simpl; [by split|]. rewrite Forall_cons, <- IH.
  split; [by intros [? ?]%app_nil | by intros [-> ->]].
Qed.

Context (range_data : Data -> list (string * GoValue)).
Context (range_data_ok : forall m, range_data m ≡ₚ map_to_list m).

Lemma strict_errors_elem s data k e :
  (k, e) ∈ strict_errors range_data s data <->
  Strict s = true /\ e = SeUndefinedField /\ is_Some (data !! k) /\ (k ∉ map Name (Fields s)).
Proof.
  unfold strict_errors. destruct (Strict s); [|set_solver].
  rewrite list_elem_of_In, in_flat_map. split.
  - intros ([k' v] & Hin & Hke). simpl in Hke. case_bool_decide as Hd; [done|].
    destruct Hke as [[= <- <-]|[]]. rewrite elem_of_list_to_set in Hd.
    apply list_elem_of_In in Hin. rewrite range_data_ok in Hin.
    apply elem_of_map_to_list in Hin. eauto.
  - intros (_ & -> & [v Hv] & Hk). exists (k, v). split.
    + rewrite <- list_elem_of_In, range_data_ok. by apply elem_of_map_to_list.
    + simpl. rewrite bool_decide_eq_false_2 by by rewrite elem_of_list_to_set. by left.
Qed.

(** What a record must satisfy: each field, and in strict mode no other key. *)
Definition record_ok (s : DataSchema) (data : Data) : Prop :=
  Forall (field_ok data) (Fields s) /\
  (Strict s = true -> forall k, is_Some (data !! k) -> k ∈ map Name (Fields s)).

(** Why a name is reported: a field of that name is violated, or strict mode does
    not know the key. *)
Definition offends (s : DataSchema) (data : Data) (k : string) : Prop :=
  (exists f, f ∈ Fields s /\ Name f = k /\ ~ field_ok data f) \/
  (Strict s = true /\ is_Some (data !! k) /\ (k ∉ map Name (Fields s))).

Definition errors_of (s : DataSchema) (data : Data) : list (string * SchemaError) :=
  flat_map (field_errors data) (Fields s) ++ strict_errors range_data s data.

Lemma field_errors_sound data f k e :
  (k, e) ∈ field_errors data f -> Name f = k /\ ~ field_ok data f.
Proof.
  intros Hin. split.
  - unfold field_errors in Hin. repeat case_match; simplify_eq; set_solver.
  - intros Hok%field_errors_nil. rewrite Hok in Hin. by apply elem_of_nil in Hin.
Qed.

Lemma errors_of_names s data k :
  (exists e, (k, e) ∈ errors_of s data) <-> offends s data k.
Proof.
  unfold errors_of, offends. setoid_rewrite elem_of_app. setoid_rewrite strict_errors_elem.
  setoid_rewrite list_elem_of_In at 1. setoid_rewrite in_flat_map. split.
  - intros (e & [(f & Hf & He)|(? & ? & ? & ?)]); [left | by right].
    exists f. rewrite <- !list_elem_of_In in *. split; [done|]. by eapply field_errors_sound.
  - intros [(f & Hf & <- & Hn)|(? & ? & ?)].
    + apply field_errors_named in Hn as [e He]. exists e. left. exists f.
      by rewrite <- !list_elem_of_In.
    + exists SeUndefinedField. by right.
Qed.

Lemma record_ok_no_errors s data : errors_of s data = [] <-> record_ok s data.
Proof.
  unfold errors_of, record_ok. rewrite app_nil, flat_map_nil.
  setoid_rewrite field_errors_nil. apply and_iff_compat_l. split.
  - intros E2 Hs k Hk. destruct (decide (k ∈ map Name (Fields s))) as [|Hn]; [done|].
    exfalso. assert ((k, SeUndefinedField) ∈ strict_errors range_data s data) as Hin
      by by apply strict_errors_elem. rewrite E2 in Hin. by apply elem_of_nil in Hin.
  - intros Hall. destruct (strict_errors range_data s data) as [|[k e] l] eqn:E; [done|].
    assert ((k, e) ∈ strict_errors range_data s data) as Hin by (rewrite E; set_solver).
    apply strict_errors_elem in Hin as (Hs & _ & Hk & Hn). by destruct (Hn (Hall Hs k Hk)).
Qed.

(** C8: [Validate] accepts a record if and only if every field of the schema is
    present and its value conforms, or absent and optional, and, in strict mode,
    every key is the name of a field. When it refuses, there is an error, and the
    names in the errors are exactly those of the violated fields and of the keys
    strict mode does not know. It never panics. *)
Theorem validate_is_conformance (s : DataSchema) (data : Data) :
  (Validate range_data s data = Ok tt <-> record_ok s data) /\
  (forall errors, Validate range_data s data = Err errors ->
     errors <> [] /\ forall k, (exists e, (k, e) ∈ errors) <-> offends s data k) /\
  Validate range_data s data <> Panic.
Proof.
  rewrite <- record_ok_no_errors. unfold Validate. fold (errors_of s data).
  pose proof (errors_of_names s data) as Hnames.
  destruct (errors_of s data) as [|e errors]; [done|].
  split; [done|]. split; [|done]. by intros ? [= <-].
Qed.
End Conforming.

Definition demo_arch : GoArch := {| int64_overflow _ := (- 2 ^ 63)%Z |}.

Definition plain_field (name : string) (t : FieldType) (required : bool) : FieldSchema :=
  MkFieldSchema name t required "" "" None None None None [] None [].

Definition demo_schema : DataSchema :=
  MkDataSchema "events" "" [plain_field "id" FieldTypeInteger true;
    plain_field "tag" FieldTypeString false] true.

Lemma validate_is_conformance_witness :
  let data : Data := {["id" := VString "x"]} in
  (@Validate demo_runtime demo_arch map_to_list demo_schema data = Ok tt <->
     @record_ok demo_runtime demo_arch demo_schema data) /\
  (forall errors, @Validate demo_runtime demo_arch map_to_list demo_schema data = Err errors ->
     errors <> [] /\ forall k, (exists e, (k, e) ∈ errors) <->
       @offends demo_runtime demo_arch demo_schema data k) /\
  @Validate demo_runtime demo_arch map_to_list demo_schema data <> Panic.
Proof.
  apply (@validate_is_conformance demo_runtime demo_arch map_to_list). reflexivity.
Defined.

(** [validateField] accepts exactly the values that conform to the field, to
    any depth of arrays and objects, and never panics. *)
Theorem validate_field_decides_conformance `{GoRuntime} `{GoArch} (f : FieldSchema)
    (v : GoValue) :
  (validateField f v = Ok tt <-> Conforms f v) /\ validateField f v <> Panic.
Proof. split; [apply validateField_conforms | apply validateField_no_panic]. Qed.

(** Bounds are checked against zero for unsigned and small integer kinds: a
    value of such a kind is rejected by every field with a positive minimum,
    however large it is. *)
Theorem unsigned_below_positive_minimum `{GoRuntime} `{GoArch} (k : IntKind) (z : Z)
    (m : spec_float) (name : string) :
  k ∈ [KInt8; KInt16; KUint; KUint8; KUint16; KUint32; KUint64] ->
  float_lt (S754_zero false) m = true ->
  validateField (MkFieldSchema name FieldTypeInteger true "" "" None None (Some m) None []
    None []) (VInt k z) = Err (SeMin m).
Proof.
  intros Hk Hm.
  repeat (apply elem_of_cons in Hk as [->|Hk];
    [simpl; unfold check_number; simpl; by rewrite Hm|]).
  by apply elem_of_nil in Hk.
Qed.

Lemma unsigned_below_positive_minimum_witness :
  @validateField demo_runtime demo_arch
    (MkFieldSchema "n" FieldTypeInteger true "" "" None None (Some (float64_of_Z 1)) None []
      None []) (VInt KUint8 200) = Err (SeMin (float64_of_Z 1)).
Proof.
  apply (@unsigned_below_positive_minimum demo_runtime demo_arch).
  - apply (bool_decide_unpack _). vm_compute. exact I.
  - vm_compute. reflexivity.
Defined.

(** A strict schema rejects every record that has a required nested field:
    fields are found by their dotted path, but the strict check compares the
    top-level keys with the dotted names. *)
Theorem strict_schema_rejects_nested_fields `{GoRuntime} `{GoArch} (s : DataSchema)
    (f : FieldSchema) (top rest : string) (data : Data) (range_data : Data -> list (string * GoValue)) :
  (forall m, range_data m ≡ₚ map_to_list m) ->
  Strict s = true -> f ∈ Fields s -> Required f = true ->
  Split (Name f) "." = top :: [rest] -> (top ∉ map Name (Fields s)) ->
  Validate range_data s data <> Ok tt.
Proof.
  intros Hr Hs Hf Hreq Hsplit Htop Hok.
  unfold Validate in Hok. destruct (_ ++ _) eqn:E; [|done].
  apply (record_ok_no_errors range_data Hr) in E as [Hall Hstrict]. rewrite Forall_forall in Hall. specialize (Hall f Hf).
  unfold field_ok, getNestedField in Hall. rewrite Hsplit in Hall. simpl in Hall.
  destruct (data !! top) as [v|] eqn:Et; [|congruence].
  apply Htop, Hstrict; eauto.
Qed.

Definition nested_schema : DataSchema :=
  MkDataSchema "users" "" [plain_field "user.name" FieldTypeString true] true.

Lemma strict_schema_rejects_nested_fields_witness :
  @Validate demo_runtime demo_arch map_to_list nested_schema
    {["user" := VMap {["name" := VString "kim"]}]} <> Ok tt.
Proof.
  apply (@strict_schema_rejects_nested_fields demo_runtime demo_arch nested_schema
    (plain_field "user.name" FieldTypeString true) "user" "name"); try reflexivity.
  - by left.
  - apply (bool_decide_unpack _). vm_compute. exact I.
Defined.

(** ** Reading a schema from a configuration *)

Lemma depth_lookup (m : Data) k v : m !! k = Some v -> depth v < depth (VMap m).
Proof.
  intros Hk. simpl. apply Nat.lt_succ_r.
  revert k v Hk.
  apply (map_fold_weak_ind (fun acc (m : Data) => forall k v, m !! k = Some v -> depth v <= acc)).
  - intros k v. by rewrite lookup_empty.
  - intros k0 v0 m' acc Hk0 IH k v [[<- <-]|[_ Hk]]%lookup_insert_Some; [lia|].
    specialize (IH k v Hk). lia.
Qed.

Lemma depth_elem l v : v ∈ l -> depth v < depth (VSlice l).
Proof.
  intros Hv. simpl. apply Nat.lt_succ_r.
  assert (Forall (fun k => k <= list_max (map depth l)) (map depth l)) as Hf
    by (by apply list_max_le).
  rewrite Forall_forall in Hf. apply Hf, list_elem_of_fmap. eauto.
Qed.

Section ConfigProofs.
Context `{GoArch}.

Lemma parse_fields_total parse l :
  (forall m, VMap m ∈ l -> is_Some (parse m)) -> is_Some (parse_fields parse l).
Proof.
  induction l as [|v l IH]; intros Hp; simpl; [eauto|].
  assert (is_Some (parse_fields parse l)) as [fs Hfs] by (apply IH; intros; apply Hp; set_solver).
  destruct v; rewrite ?Hfs; eauto.
  destruct (Hp m ltac:(set_solver)) as [f ->]. eauto.
Qed.

Lemma parseFieldSchema_total fuel config :
  depth (VMap config) <= fuel -> is_Some (parseFieldSchema fuel config).
Proof.
  revert config. induction fuel as [|fuel IH]; intros config Hd; [simpl in Hd; lia|].
  cbn [parseFieldSchema].
  assert (exists items, (match as_map (config !! "items") with
    | Some items => Some <$> parseFieldSchema fuel items
    | None => Some None end) = Some items) as [items ->].
  { destruct (config !! "items") as [v|] eqn:E; [|simpl; eauto].
    apply depth_lookup in E. destruct v; simpl; eauto.
    destruct (IH m) as [f ->]; [lia | simpl; eauto]. }
  assert (exists props, (match as_slice (config !! "properties") with
    | Some props => parse_fields (parseFieldSchema fuel) props
    | None => Some [] end) = Some props) as [props ->].
  { destruct (config !! "properties") as [v|] eqn:E; [|simpl; eauto].
    apply depth_lookup in E. destruct v; simpl; eauto.
    apply parse_fields_total. intros m Hm. apply depth_elem in Hm. apply IH. lia. }
  simpl. eauto.
Qed.
End ConfigProofs.

(** Reading a schema from a configuration ends and always gives a schema,
    whatever is in the configuration: malformed entries are skipped. *)
Theorem schema_from_config_total `{GoArch} (config : Data) :
  exists s, NewDataSchemaFromConfig config = Some s.
Proof.
  unfold NewDataSchemaFromConfig.
  destruct (config !! "fields") as [v|] eqn:E; [|simpl; eauto].
  apply depth_lookup in E. destruct v; simpl; eauto.
  destruct (parse_fields_total (parseFieldSchema (depth (VMap config))) l) as [fs Hfs].
  - intros m Hm. apply depth_elem in Hm. apply parseFieldSchema_total. lia.
  - simpl in Hfs. rewrite Hfs. simpl. eauto.
Qed.
