(* ===== verification/Stats.v ===== *)
(** * Execution statistics (pipeline-core/pkg/executor/stats_collector.go)

    The counters of one pipeline run, and the aggregator that turns the
    statistics of a realtime pipeline into hourly buckets. Counters are 64 bit
    and wrap. A bucket handed to the callback shares the aggregator's map of
    per-stage counts, so those maps live in a store. Calls hold the lock of their
    object; [now] is the clock in nanoseconds. *)

From Stdlib Require Import String.
From S2P Require Import Prelude.
Local Open Scope string_scope.
Local Open Scope Z_scope.
Local Open Scope list_scope.

Definition incr (n : Z) : Z := int64_wrap (n + 1).
Definition plus (n m : Z) : Z := int64_wrap (n + m).

(** ** The collector *)

Record TransformStatsTracker := MkTracker {
  TrackerName : string;
  TrackerType : string;
  InputCount : Z;
  OutputCount : Z;
  TrackerErrorCount : Z
}.

Record StatsCollector := MkCollector {
  pipelineID : string;
  pipelineName : string;
  recordsCollected : Z;
  recordsProcessed : Z;
  collectionErrors : Z;
  processingErrors : Z;
  transformStats : gmap string TransformStatsTracker;
  startedAt : Z
}.

Definition NewStatsCollector (id name : string) (now : Z) : StatsCollector :=
  MkCollector id name 0 0 0 0 ∅ now.

Definition with_counts (sc : StatsCollector) (c p ce pe : Z) : StatsCollector :=
  MkCollector (pipelineID sc) (pipelineName sc) c p ce pe (transformStats sc) (startedAt sc).

Definition RecordCollectedN (n : Z) (sc : StatsCollector) : StatsCollector :=
  with_counts sc (plus (recordsCollected sc) n) (recordsProcessed sc)
    (collectionErrors sc) (processingErrors sc).
Definition RecordCollected (sc : StatsCollector) : StatsCollector := RecordCollectedN 1 sc.

Definition RecordProcessedN (n : Z) (sc : StatsCollector) : StatsCollector :=
  with_counts sc (recordsCollected sc) (plus (recordsProcessed sc) n)
    (collectionErrors sc) (processingErrors sc).
Definition RecordProcessed (sc : StatsCollector) : StatsCollector := RecordProcessedN 1 sc.

Definition RecordCollectionErrorN (n : Z) (sc : StatsCollector) : StatsCollector :=
  with_counts sc (recordsCollected sc) (recordsProcessed sc)
    (plus (collectionErrors sc) n) (processingErrors sc).
Definition RecordCollectionError (sc : StatsCollector) : StatsCollector :=
  RecordCollectionErrorN 1 sc.

Definition RecordProcessingErrorN (n : Z) (sc : StatsCollector) : StatsCollector :=
  with_counts sc (recordsCollected sc) (recordsProcessed sc)
    (collectionErrors sc) (plus (processingErrors sc) n).
Definition RecordProcessingError (sc : StatsCollector) : StatsCollector :=
  RecordProcessingErrorN 1 sc.

Definition with_stats (sc : StatsCollector) (m : gmap string TransformStatsTracker)
  : StatsCollector :=
  MkCollector (pipelineID sc) (pipelineName sc) (recordsCollected sc) (recordsProcessed sc)
    (collectionErrors sc) (processingErrors sc) m (startedAt sc).

Definition RecordTransformInput (name typ : string) (sc : StatsCollector) : StatsCollector :=
  let t := default (MkTracker name typ 0 0 0) (transformStats sc !! name) in
  with_stats sc (<[name := MkTracker (TrackerName t) (TrackerType t) (incr (InputCount t))
                             (OutputCount t) (TrackerErrorCount t)]> (transformStats sc)).

Definition RecordTransformOutput (name : string) (sc : StatsCollector) : StatsCollector :=
  with_stats sc (alter (fun t =>
    MkTracker (TrackerName t) (TrackerType t) (InputCount t) (incr (OutputCount t))
      (TrackerErrorCount t)) name (transformStats sc)).

Definition RecordTransformError (name : string) (sc : StatsCollector) : StatsCollector :=
  RecordProcessingError (with_stats sc (alter (fun t =>
    MkTracker (TrackerName t) (TrackerType t) (InputCount t) (OutputCount t)
      (incr (TrackerErrorCount t))) name (transformStats sc))).

Record PipelineStatistics := MkStatistics {
  StatPipelineID : string;
  StatPipelineName : string;
  RecordsCollected : Z;
  RecordsProcessed : Z;
  PerStageCounts : gmap string Z;
  CollectionErrors : Z;
  ProcessingErrors : Z
}.

Definition GetStatistics (sc : StatsCollector) : PipelineStatistics :=
  MkStatistics (pipelineID sc) (pipelineName sc) (recordsCollected sc) (recordsProcessed sc)
    (OutputCount <$> transformStats sc) (collectionErrors sc) (processingErrors sc).

Definition Reset_ (now : Z) (sc : StatsCollector) : StatsCollector :=
  MkCollector (pipelineID sc) (pipelineName sc) 0 0 0 0 ∅ now.

(** ** The hourly aggregator *)

Definition hour : Z := 3600000000000.
(** [t.Truncate(time.Hour)]. *)
Definition Truncate (t : Z) : Z := t - t mod hour.

Record HourlyStatsBucket := MkBucket {
  BucketHour : Z;
  BucketCollected : Z;
  BucketProcessed : Z;
  BucketStageCounts : nat;               (* which map of the store *)
  BucketCollectionErrors : Z;
  BucketProcessingErrors : Z;
  BucketSamples : Z
}.

Record RealtimeStatsAggregator := MkAggregator {
  currentHour : Z;
  aggCollected : Z;
  aggProcessed : Z;
  aggCollectionErrors : Z;
  aggProcessingErrors : Z;
  transformCounts : nat;
  sampleCount : Z;
  maps : gmap nat (gmap string Z);       (* the maps of per-stage counts *)
  flushed : list HourlyStatsBucket       (* what the callback has received *)
}.

Definition NewRealtimeStatsAggregator (now : Z) : RealtimeStatsAggregator :=
  MkAggregator (Truncate now) 0 0 0 0 0%nat 0 {[0%nat := ∅]} [].

Definition flushLocked (a : RealtimeStatsAggregator) : RealtimeStatsAggregator :=
  if sampleCount a =? 0 then a
  else
    MkAggregator (currentHour a) (aggCollected a) (aggProcessed a) (aggCollectionErrors a)
      (aggProcessingErrors a) (transformCounts a) (sampleCount a) (maps a)
      (flushed a ++ [MkBucket (currentHour a) (aggCollected a) (aggProcessed a)
         (transformCounts a) (aggCollectionErrors a) (aggProcessingErrors a) (sampleCount a)]).

(** [make(map[string]int64)]: a map that is not in the store yet. *)
Definition resetLocked (h : Z) (a : RealtimeStatsAggregator) : RealtimeStatsAggregator :=
  let fresh_map := fresh (dom (maps a)) in
  MkAggregator h 0 0 0 0 fresh_map 0 (<[fresh_map := ∅]> (maps a)) (flushed a).

Definition add_counts (counts m : gmap string Z) : gmap string Z :=
  map_fold (fun name count acc => <[name := plus (default 0 (acc !! name)) count]> acc) m counts.

Definition Add (now : Z) (stats : PipelineStatistics) (a : RealtimeStatsAggregator)
  : RealtimeStatsAggregator :=
  let h := Truncate now in
  let a := if negb (h =? currentHour a) then resetLocked h (flushLocked a) else a in
  MkAggregator (currentHour a)
    (plus (aggCollected a) (RecordsCollected stats))
    (plus (aggProcessed a) (RecordsProcessed stats))
    (plus (aggCollectionErrors a) (CollectionErrors stats))
    (plus (aggProcessingErrors a) (ProcessingErrors stats))
    (transformCounts a) (plus (sampleCount a) 1)
    (alter (add_counts (PerStageCounts stats)) (transformCounts a) (maps a))
    (flushed a).

Definition Flush (a : RealtimeStatsAggregator) : RealtimeStatsAggregator := flushLocked a.

(** A sequence of calls of the aggregator, in the order in which they take its lock. *)
Definition sample : Type := Z * PipelineStatistics.

Inductive agg_call := CAdd (x : sample) | CFlush.

Definition run_call (a : RealtimeStatsAggregator) (c : agg_call) : RealtimeStatsAggregator :=
  match c with CAdd x => Add x.1 x.2 a | CFlush => Flush a end.

Definition run_calls (start : Z) (calls : list agg_call) : RealtimeStatsAggregator :=
  foldl run_call (NewRealtimeStatsAggregator start) calls.

(** ** The ledger: what the buckets have to say

    The samples cut into segments at the changes of the hour, and for each report
    the number of its segment and the samples the segment had at that moment. *)
Record Ledger := MkLedger {
  past : list (list sample);             (* the segments of the hours before *)
  current : list sample;                 (* the segment of the current hour *)
  current_hour : Z;
  reports : list (nat * list sample)
}.

Definition report (h : Ledger) : list (nat * list sample) :=
  match current h with
  | [] => reports h
  | _ => reports h ++ [(length (past h), current h)]
  end.

Definition ledger_call (h : Ledger) (c : agg_call) : Ledger :=
  match c with
  | CAdd x =>
      if Truncate x.1 =? current_hour h
      then MkLedger (past h) (current h ++ [x]) (current_hour h) (reports h)
      else MkLedger (past h ++ [current h]) [x] (Truncate x.1) (report h)
  | CFlush => MkLedger (past h) (current h) (current_hour h) (report h)
  end.

Definition ledger (start : Z) (calls : list agg_call) : Ledger :=
  foldl ledger_call (MkLedger [] [] (Truncate start) []) calls.

Definition segments (h : Ledger) : list (list sample) := past h ++ [current h].

Definition samples (calls : list agg_call) : list sample :=
  omap (fun c => match c with CAdd x => Some x | CFlush => None end) calls.

Definition total (f : PipelineStatistics -> Z) (l : list sample) : Z :=
  foldr (fun x acc => f x.2 + acc) 0 l.

Definition stage_count (name : string) (s : PipelineStatistics) : Z :=
  default 0 (PerStageCounts s !! name).

(** What a map of stage counts says. *)
Definition counts (m : gmap string Z) (l : list sample) : Prop :=
  forall name, default 0 (m !! name) = int64_wrap (total (stage_count name) l).

(** The stage counts a reader of the bucket sees: those of the live map. *)
Definition bucket_stage (a : RealtimeStatsAggregator) (name : string) (b : HourlyStatsBucket)
  : Z := default 0 (default ∅ (maps a !! BucketStageCounts b) !! name).

(** The counters of the bucket of a report are those of the samples its segment had
    at the moment of the flush. *)
Definition bucket_says (h : Ledger) (b : HourlyStatsBucket) (r : nat * list sample) : Prop :=
  exists seg, segments h !! r.1 = Some seg /\ r.2 <> [] /\ r.2 `prefix_of` seg /\
    Forall (fun x => Truncate x.1 = BucketHour b) seg /\
    BucketSamples b = Z.of_nat (length r.2) /\
    BucketCollected b = int64_wrap (total RecordsCollected r.2) /\
    BucketProcessed b = int64_wrap (total RecordsProcessed r.2) /\
    BucketCollectionErrors b = int64_wrap (total CollectionErrors r.2) /\
    BucketProcessingErrors b = int64_wrap (total ProcessingErrors r.2).

(** Its stage counts are those of the whole segment. *)
Definition bucket_ok (a : RealtimeStatsAggregator) (h : Ledger) (b : HourlyStatsBucket)
    (r : nat * list sample) : Prop :=
  bucket_says h b r /\
  forall seg name, segments h !! r.1 = Some seg ->
    bucket_stage a name b = int64_wrap (total (stage_count name) seg).

(** ** Arithmetic modulo the width *)

Lemma plus_eqm a b : eqm (plus a b) (a + b).
Proof. apply wrap_eqm. Qed.

Lemma wrap_of_eqm a b : eqm a b -> int64_wrap a = int64_wrap b.
Proof.
  intros [k ->]. unfold int64_wrap.
  replace (b + k * 2 ^ 64 + 2 ^ 63) with (b + 2 ^ 63 + k * 2 ^ 64) by lia.
  by rewrite Z.mod_add.
Qed.

Lemma plus_wrap a b : plus (int64_wrap a) b = int64_wrap (a + b).
Proof. apply wrap_of_eqm. by rewrite wrap_eqm. Qed.

Lemma total_app f k l : total f (k ++ l) = total f k + total f l.
Proof. induction k as [|x k IH]; simpl; [done|]. rewrite IH. lia. Qed.

Lemma total_snoc f l x : total f (l ++ [x]) = total f l + f x.2.
Proof. rewrite total_app. simpl. lia. Qed.

Lemma plus_total f l x : plus (int64_wrap (total f l)) (f x.2) = int64_wrap (total f (l ++ [x])).
Proof. by rewrite plus_wrap, total_snoc. Qed.

Lemma add_counts_lookup c m name :
  int64_ok (default 0 (m !! name)) ->
  default 0 (add_counts c m !! name) = int64_wrap (default 0 (m !! name) + default 0 (c !! name)).
Proof.
  intros Hm. unfold add_counts.
  apply (map_fold_weak_ind (fun acc c =>
    default 0 (acc !! name) = int64_wrap (default 0 (m !! name) + default 0 (c !! name)))).
  - rewrite lookup_empty. simpl. by rewrite Z.add_0_r, int64_wrap_small.
  - intros i x c' acc Hi IH. destruct (decide (i = name)) as [->|Hne].
    + rewrite !lookup_insert_eq. simpl. rewrite IH, Hi. simpl.
      by rewrite Z.add_0_r, plus_wrap.
    + by rewrite !lookup_insert_ne by done.
Qed.

Lemma counts_add m l x :
  counts m l -> counts (add_counts (PerStageCounts x.2) m) (l ++ [x]).
Proof.
  intros H name. rewrite add_counts_lookup; rewrite H; [|apply int64_wrap_ok].
  by rewrite <- (plus_total (stage_count name)).
Qed.

Lemma counts_empty : counts ∅ [].
Proof. intros name. by rewrite lookup_empty. Qed.

(** ** The aggregator follows the ledger

    [ids] are the maps of the segments, all different. *)
Record mirrors (ids : list nat) (a : RealtimeStatsAggregator) (h : Ledger) : Prop := {
  m_hour : currentHour a = current_hour h;
  m_samples : sampleCount a = Z.of_nat (length (current h));
  m_collected : aggCollected a = int64_wrap (total RecordsCollected (current h));
  m_processed : aggProcessed a = int64_wrap (total RecordsProcessed (current h));
  m_cerrors : aggCollectionErrors a = int64_wrap (total CollectionErrors (current h));
  m_perrors : aggProcessingErrors a = int64_wrap (total ProcessingErrors (current h));
  m_distinct : NoDup ids;
  m_last : exists before, ids = before ++ [transformCounts a];
  m_maps : Forall2 (fun id seg => exists m, maps a !! id = Some m /\ counts m seg)
             ids (segments h);
  m_inhour : Forall (fun x => Truncate x.1 = current_hour h) (current h);
  m_buckets : Forall2 (fun b r => bucket_says h b r /\ ids !! r.1 = Some (BucketStageCounts b))
                (flushed a) (reports h)
}.

Lemma says_grow h h' b r :
  (forall k seg, segments h !! k = Some seg -> exists seg', segments h' !! k = Some seg' /\
     seg `prefix_of` seg' /\ forall t, seg <> [] -> Forall (fun x => Truncate x.1 = t) seg ->
       Forall (fun x => Truncate x.1 = t) seg') ->
  bucket_says h b r -> bucket_says h' b r.
Proof.
  intros Hgrow (seg & Hk & Hne & Hpre & Hhour & Hrest).
  destruct (Hgrow _ _ Hk) as (seg' & Hk' & Hpre' & Hall).
  exists seg'. split; [done|]. split; [done|]. split; [by etrans|]. split; [|done].
  apply Hall; [|done]. intros ->. by apply prefix_nil_inv in Hpre.
Qed.

Lemma segments_last h : segments h !! length (past h) = Some (current h).
Proof. unfold segments. by rewrite lookup_app_r, Nat.sub_diag by lia. Qed.

Lemma mirrors_last ids a h :
  mirrors ids a h -> ids !! length (past h) = Some (transformCounts a).
Proof.
  intros H. destruct (m_last _ _ _ H) as [before ->].
  pose proof (Forall2_length _ _ _ (m_maps _ _ _ H)) as Hl.
  unfold segments in Hl. rewrite !length_app in Hl. simpl in Hl.
  replace (length (past h)) with (length before) by lia.
  by rewrite lookup_app_r, Nat.sub_diag by lia.
Qed.

Lemma mirrors_flush ids a h :
  mirrors ids a h -> mirrors ids (flushLocked a) (ledger_call h CFlush).
Proof.
  intros H. unfold flushLocked, ledger_call, report.
  pose proof (m_samples _ _ _ H) as Hs. pose proof (mirrors_last _ _ _ H) as Hlast.
  destruct (current h) as [|x l] eqn:E; cbn [length] in Hs.
  { rewrite (proj2 (Z.eqb_eq _ 0)) by lia. rewrite <- E. by destruct h. }
  rewrite (proj2 (Z.eqb_neq _ 0)) by lia. rewrite <- E.
  destruct H. split; try done. cbn [flushed reports]. apply Forall2_app.
  { eapply Forall2_impl; [exact m_buckets0|]. intros b r [Hsays Hid]. split; [exact Hsays|done]. }
  constructor; [|done]. split; [|done]. exists (current h). cbn [fst snd].
  split; [exact (segments_last h)|]. split; [by rewrite E|]. split; [done|].
  simpl. rewrite m_hour0. by repeat split.
Qed.

(** The ledger at the start of an hour. *)
Definition rolled (t : Z) (h : Ledger) : Ledger :=
  MkLedger (past h ++ [current h]) [] t (reports h).

Lemma mirrors_roll ids a h t :
  mirrors ids a h ->
  mirrors (ids ++ [fresh (dom (maps a))]) (resetLocked t a) (rolled t h).
Proof.
  intros [Hh Hn Hc Hp Hce Hpe Hd [before Hb] Hm Hi Hbk].
  assert (forall id, id ∈ ids -> id <> fresh (dom (maps a))) as Hfresh.
  { intros id Hid ->. apply list_elem_of_lookup in Hid as [k Hk].
    destruct (Forall2_lookup_l _ _ _ _ _ Hm Hk) as (seg & _ & m & Hl & _).
    apply (is_fresh (dom (maps a))). by apply elem_of_dom_2 in Hl. }
  split; try done.
  - apply NoDup_app. split; [done|]. split; [|apply NoDup_singleton].
    intros id Hid Hin%list_elem_of_singleton. by apply (Hfresh id).
  - by exists ids.
  - unfold segments, rolled, resetLocked. cbn [past current maps]. apply Forall2_app.
    + apply Forall2_same_length_lookup_2; [by eapply Forall2_length|].
      intros k id seg Hk Hseg. destruct (Forall2_lookup_lr _ _ _ _ _ _ Hm Hk Hseg) as (m & Hl & Hcm).
      exists m. rewrite lookup_insert_ne; [done|].
      intros E. apply (Hfresh id); [by eapply list_elem_of_lookup_2|done].
    + constructor; [|done]. exists ∅. rewrite lookup_insert_eq. split; [done|]. apply counts_empty.
  - eapply Forall2_impl; [exact Hbk|]. intros b r [Hsays Hid]. split.
    + eapply says_grow; [|exact Hsays]. intros k seg Hk. exists seg.
      split; [|done]. unfold segments, rolled. cbn [past current].
      by apply lookup_app_l_Some.
    + by apply lookup_app_l_Some.
Qed.

Lemma Add_same_hour now s a :
  Truncate now = currentHour a ->
  Add now s a = MkAggregator (currentHour a)
    (plus (aggCollected a) (RecordsCollected s)) (plus (aggProcessed a) (RecordsProcessed s))
    (plus (aggCollectionErrors a) (CollectionErrors s))
    (plus (aggProcessingErrors a) (ProcessingErrors s))
    (transformCounts a) (plus (sampleCount a) 1)
    (alter (add_counts (PerStageCounts s)) (transformCounts a) (maps a)) (flushed a).
Proof. intros E. unfold Add. by rewrite (proj2 (Z.eqb_eq _ _) E). Qed.

Lemma mirrors_add ids a h x :
  mirrors ids a h -> Truncate x.1 = current_hour h ->
  Z.of_nat (length (current h)) < 2 ^ 63 - 1 ->
  mirrors ids (Add x.1 x.2 a) (ledger_call h (CAdd x)).
Proof.
  intros H Hx Hlen. destruct H as [Hh Hn Hc Hp Hce Hpe Hd [before Hb] Hm Hi Hbk].
  rewrite Add_same_hour by congruence. unfold ledger_call. rewrite (proj2 (Z.eqb_eq _ _) Hx).
  split; cbn; try done.
  - rewrite Hn, length_app. simpl. unfold plus. rewrite int64_wrap_small; [lia|].
    unfold int64_ok. lia.
  - by rewrite Hc, plus_total.
  - by rewrite Hp, plus_total.
  - by rewrite Hce, plus_total.
  - by rewrite Hpe, plus_total.
  - by exists before.
  - subst ids. unfold segments in *. cbn [past current] in *.
    apply Forall2_app_inv_r in Hm as (k1 & k2 & H1 & H2 & E).
    apply Forall2_cons_inv_r in H2 as (id & k3 & Hid & H3 & ->).
    apply Forall2_nil_inv_r in H3 as ->. apply app_inj_tail in E as [<- <-].
    apply NoDup_app in Hd as (_ & Hd & _). apply Forall2_app.
    + apply Forall2_same_length_lookup_2; [by eapply Forall2_length|].
      intros k id seg Hk Hseg. destruct (Forall2_lookup_lr _ _ _ _ _ _ H1 Hk Hseg) as (m & Hl & Hcm).
      exists m. rewrite lookup_alter_ne; [done|]. intros E.
      apply (Hd id); [by eapply list_elem_of_lookup_2|]. rewrite <- E. apply list_elem_of_here.
    + constructor; [|done]. destruct Hid as (m & Hl & Hcm).
      exists (add_counts (PerStageCounts x.2) m). rewrite lookup_alter_eq, Hl.
      split; [done|]. by apply counts_add.
  - apply Forall_app. by split; [|constructor].
  - eapply Forall2_impl; [exact Hbk|]. intros b r [Hsays Hid]. split; [|done].
    eapply says_grow; [|exact Hsays]. intros k seg Hk. unfold segments in *. cbn [past current].
    apply lookup_app_Some in Hk as [Hk|[Hge Hk]].
    + exists seg. split; [by apply lookup_app_l_Some|done].
    + apply list_lookup_singleton_Some in Hk as [Hk <-].
      exists (current h ++ [x]). split; [by rewrite lookup_app_r, Hk by done|].
      split; [by apply prefix_app_r|]. intros t Hne Ht. apply Forall_app. split; [done|].
      constructor; [|done]. destruct (current h) as [|y l]; [done|].
      inversion Ht; inversion Hi; congruence.
Qed.

Lemma mirrors_call ids a h c :
  mirrors ids a h -> Z.of_nat (length (current h)) < 2 ^ 63 - 1 ->
  exists ids', mirrors ids' (run_call a c) (ledger_call h c).
Proof.
  intros H Hlen. destruct c as [x|]; [|exists ids; by apply mirrors_flush].
  destruct (decide (Truncate x.1 = current_hour h)) as [E|E].
  { exists ids. by apply mirrors_add. }
  pose proof (mirrors_roll _ _ _ (Truncate x.1) (mirrors_flush _ _ _ H)) as Hroll.
  pose proof (mirrors_add _ _ _ x Hroll eq_refl ltac:(simpl; lia)) as Hadd.
  eexists. cbn [run_call ledger_call] in *. unfold Add in *.
  rewrite (m_hour _ _ _ H), (proj2 (Z.eqb_neq _ _) E) in *.
  cbn [rolled resetLocked currentHour current_hour] in Hadd. rewrite Z.eqb_refl in Hadd. exact Hadd.
Qed.

(** ** The ledger keeps the samples *)

Lemma ledger_snoc start calls c :
  ledger start (calls ++ [c]) = ledger_call (ledger start calls) c.
Proof. unfold ledger. by rewrite foldl_app. Qed.

Lemma samples_app k l : samples (k ++ l) = samples k ++ samples l.
Proof. apply omap_app. Qed.

Lemma ledger_samples start calls : concat (segments (ledger start calls)) = samples calls.
Proof.
  induction calls as [|c calls IH] using rev_ind; [done|].
  rewrite ledger_snoc, samples_app, <- IH. set (h := ledger start calls). unfold segments.
  destruct c as [x|]; [|by rewrite app_nil_r]. cbn [ledger_call].
  destruct (_ =? _); cbn [past current]; rewrite !concat_app; simpl; by rewrite ?app_nil_r, ?app_assoc.
Qed.

Lemma samples_le calls : (length (samples calls) <= length calls)%nat.
Proof. induction calls as [|[x|] calls IH]; simpl; lia. Qed.

Lemma ledger_current_le start calls :
  (length (current (ledger start calls)) <= length calls)%nat.
Proof.
  transitivity (length (samples calls)); [|apply samples_le].
  rewrite <- (ledger_samples start). unfold segments.
  rewrite concat_app, length_app. simpl. rewrite app_nil_r. lia.
Qed.

Lemma run_calls_mirror start calls :
  Z.of_nat (length calls) < 2 ^ 63 ->
  exists ids, mirrors ids (run_calls start calls) (ledger start calls).
Proof.
  induction calls as [|c calls IH] using rev_ind; intros Hlen.
  - exists [0%nat]. split; try done; try (repeat constructor; set_solver).
    + by exists [].
    + constructor; [|done]. exists ∅. split; [done|apply counts_empty].
  - rewrite length_app in Hlen. cbn [length] in Hlen.
    destruct (IH ltac:(lia)) as [ids H]. rewrite ledger_snoc.
    unfold run_calls. rewrite foldl_app. cbn [foldl]. apply (mirrors_call ids); [exact H|].
    pose proof (ledger_current_le start calls). lia.
Qed.

Lemma mirrors_buckets ids a h :
  mirrors ids a h -> Forall2 (bucket_ok a h) (flushed a) (reports h).
Proof.
  intros H. eapply Forall2_impl; [exact (m_buckets _ _ _ H)|]. intros b r [Hsays Hid].
  split; [done|]. intros seg name Hseg.
  destruct (Forall2_lookup_lr _ _ _ _ _ _ (m_maps _ _ _ H) Hid Hseg) as (m & Hm & Hc).
  unfold bucket_stage. rewrite Hm. apply Hc.
Qed.

(** ** Without a flush in the middle of an hour *)

(** Every segment with samples, reported in full. *)
Fixpoint full (k : nat) (segs : list (list sample)) : list (nat * list sample) :=
  match segs with
  | [] => []
  | seg :: segs => (match seg with [] => [] | _ => [(k, seg)] end) ++ full (S k) segs
  end.

Lemma full_snoc k segs seg :
  full k (segs ++ [seg]) =
  full k segs ++ match seg with [] => [] | _ => [((k + length segs)%nat, seg)] end.
Proof.
  revert k. induction segs as [|s segs IH]; intros k; cbn [full app length].
  { rewrite Nat.add_0_r. by destruct seg. }
  rewrite IH, <- app_assoc. by replace (S k + length segs)%nat with (k + S (length segs))%nat by lia.
Qed.

Lemma full_samples k segs : concat (map snd (full k segs)) = concat segs.
Proof.
  revert k. induction segs as [|[|x seg] segs IH]; intros k; cbn; [done|apply IH|].
  by rewrite IH.
Qed.

Lemma full_lookup k segs r : r ∈ full k segs -> (k <= r.1)%nat /\ segs !! (r.1 - k)%nat = Some r.2.
Proof.
  revert k. induction segs as [|seg segs IH]; intros k; cbn [full]; [set_solver|].
  rewrite elem_of_app. intros [Hr|Hr].
  - destruct seg as [|x seg]; [set_solver|]. apply list_elem_of_singleton in Hr as ->.
    cbn [fst snd]. by rewrite Nat.sub_diag.
  - destruct (IH _ Hr) as [Hk Hl]. split; [lia|].
    by replace (r.1 - k)%nat with (S (r.1 - S k)) by lia.
Qed.

Lemma report_full h : reports h = full 0 (past h) -> report h = full 0 (segments h).
Proof.
  intros H. unfold report, segments. rewrite full_snoc, H. simpl.
  destruct (current h); [by rewrite app_nil_r|done].
Qed.

Lemma unflushed_reports start l :
  let h := ledger start (map CAdd l) in reports h = full 0 (past h).
Proof.
  induction l as [|x l IH] using rev_ind; [done|]. cbv zeta in *.
  rewrite map_app. cbn [map]. rewrite ledger_snoc. cbn [ledger_call].
  destruct (_ =? _); [exact IH|]. by apply report_full.
Qed.

Definition sum (f : HourlyStatsBucket -> Z) (l : list HourlyStatsBucket) : Z :=
  foldr (fun b acc => f b + acc) 0 l.

Lemma sum_reports g f bs (rs : list (nat * list sample)) :
  Forall2 (fun b r => g b = int64_wrap (total f r.2)) bs rs ->
  eqm (sum g bs) (total f (concat (map snd rs))).
Proof.
  induction 1 as [|b r bs rs E _ IH]; [reflexivity|]. simpl.
  by rewrite total_app, E, wrap_eqm, IH.
Qed.

Lemma samples_adds l : samples (map CAdd l) = l.
Proof. induction l as [|x l IH]; [done|]. simpl. by f_equal. Qed.

(** C33: Whatever calls of [Add] and [Flush] are made, the samples are cut, in their
    order, into segments at the changes of the hour, and the callback gets exactly
    one bucket per hour change or flush with samples pending. The bucket says the
    hour of all samples of its segment, and each of its four counters and its number
    of samples are those of the samples the segment had at that moment, modulo 2^64;
    its stage counts, a shared map, are those of the whole segment, samples after
    the flush included. When the only flush is the final one, each counter and each
    stage count therefore adds up over the buckets to the sum of the samples. Fewer
    than 2^63 calls are made. *)
Theorem hourly_buckets_add_up (start : Z) (calls : list agg_call) :
  Z.of_nat (length calls) < 2 ^ 63 ->
  let a := run_calls start calls in
  let h := ledger start calls in
  concat (segments h) = samples calls /\
  Forall2 (bucket_ok a h) (flushed a) (reports h) /\
  forall l, calls = map CAdd l ++ [CFlush] ->
    reports h = full 0 (segments h) /\
    eqm (sum BucketCollected (flushed a)) (total RecordsCollected l) /\
    eqm (sum BucketProcessed (flushed a)) (total RecordsProcessed l) /\
    eqm (sum BucketCollectionErrors (flushed a)) (total CollectionErrors l) /\
    eqm (sum BucketProcessingErrors (flushed a)) (total ProcessingErrors l) /\
    forall name, eqm (sum (bucket_stage a name) (flushed a)) (total (stage_count name) l).
Proof.
  intros Hlen a h. destruct (run_calls_mirror start calls Hlen) as [ids H].
  pose proof (mirrors_buckets _ _ _ H) as Hb. fold a h in Hb.
  pose proof (ledger_samples start calls) as Hs. fold h in Hs.
  split; [done|]. split; [done|]. intros l ->.
  assert (reports h = full 0 (segments h)) as Hr.
  { unfold h. rewrite ledger_snoc. exact (report_full _ (unflushed_reports start l)). }
  split; [done|]. rewrite samples_app, samples_adds, app_nil_r in Hs.
  rewrite <- Hs, <- (full_samples 0), <- Hr.
  repeat split; try intros name; apply sum_reports.
  all: apply Forall2_same_length_lookup_2; [by eapply Forall2_length|]; intros k b r Hkb Hkr;
    destruct (Forall2_lookup_lr _ _ _ _ _ _ Hb Hkb Hkr) as [(seg & Hsays) Hst]; try apply Hsays.
  apply Hst. rewrite Hr in Hkr. apply list_elem_of_lookup_2, full_lookup in Hkr as [_ Hkr].
  by rewrite Nat.sub_0_r in Hkr.
Qed.

Definition demo_stats (n : Z) : PipelineStatistics := MkStatistics "p" "p" n n {["parse" := n]} 2 1.
Definition demo_samples : list sample := [(6, demo_stats 3); (7, demo_stats 5); (hour + 1, demo_stats 4)].
Definition demo_run : RealtimeStatsAggregator := run_calls 5 (map CAdd demo_samples ++ [CFlush]).

Lemma hourly_buckets_add_up_witness :
  BucketCollected <$> flushed demo_run = [8; 4] /\
  bucket_stage demo_run "parse" <$> flushed demo_run = [8; 4] /\
  Forall2 (bucket_ok demo_run (ledger 5 (map CAdd demo_samples ++ [CFlush]))) (flushed demo_run)
    (reports (ledger 5 (map CAdd demo_samples ++ [CFlush]))) /\
  eqm (sum (bucket_stage demo_run "parse") (flushed demo_run)) 12.
Proof.
  split; [vm_compute; reflexivity|]. split; [vm_compute; reflexivity|].
  destruct (hourly_buckets_add_up 5 (map CAdd demo_samples ++ [CFlush])) as (_ & Hb & Hl).
  { vm_compute. reflexivity. }
  split; [exact Hb|]. apply (Hl demo_samples eq_refl).
Defined.

(** A bucket emitted by an explicit [Flush] is not a snapshot: it shares the
    map of per-stage counts with the aggregator, so a later sample of the same
    hour changes the bucket the callback already has, and a second flush reports
    the first samples again. *)
Theorem flush_shares_the_stage_counts :
  let s := MkStatistics "p" "p" 1 1 {["parse" := 1]} 0 0 in
  let a1 := Flush (Add 6 s (NewRealtimeStatsAggregator 5)) in
  let a2 := Flush (Add 7 s a1) in
  exists b1 b2, flushed a1 = [b1] /\ flushed a2 = [b1; b2] /\
    BucketStageCounts b1 = BucketStageCounts b2 /\
    (maps a1 !! BucketStageCounts b1) = Some {["parse" := 1]} /\
    (maps a2 !! BucketStageCounts b1) = Some {["parse" := 2]} /\
    BucketCollected b1 + BucketCollected b2 = 3.
Proof. eexists _, _. repeat split; vm_compute; reflexivity. Qed.
