(* ===== verification/GroupExecutor.v ===== *)
(** * Running the pipelines of a group
      (pipeline-core/pkg/executor/group_executor.go)

    One pipeline is run over the events its source delivers; a group runs its
    pipelines in parallel, in the order of their priority, or in waves that
    respect their dependencies. What a source delivers, the order in which
    goroutines finish and in which a map is ranged over are parameters. *)

From Stdlib Require Import String.
From S2P Require Import Prelude GoValue Stats.
Local Open Scope string_scope.
Local Open Scope list_scope.

Record Stage := MkStage { StageName : string; StageType : string }.

Record GroupedPipeline := MkPipeline {
  ID : string;
  PipeName : string;
  Priority : Z;
  DependsOn : list string;
  Stages : list Stage;
  Sinks : list string
}.

Definition FailureAction := string.
Definition FailureActionStopAll : FailureAction := "stop_all".
Definition FailureActionContinue : FailureAction := "continue".
Definition FailureActionRetry : FailureAction := "retry".
Definition FailureActionSkip : FailureAction := "skip".

Definition ExecutionMode := string.
Definition ExecutionModeParallel : ExecutionMode := "parallel".
Definition ExecutionModeSequential : ExecutionMode := "sequential".
Definition ExecutionModeDAG : ExecutionMode := "dag".

Record PipelineGroup := MkGroup {
  GroupID : string;
  Mode : ExecutionMode;
  Pipelines : list GroupedPipeline;
  FailurePolicy : option FailureAction      (* the action of the policy, nil without one *)
}.

Record PipelineExecutionResult := MkResult {
  ResPipelineID : string;
  ResPipelineName : string;
  ResStatus : string;
  RecordsRead : Z;
  RecordsWritten : Z;
  ErrorCount : Z;
  ErrorMessage : string;
  Statistics : PipelineStatistics
}.

(** ** One pipeline: [runPipeline] *)

(** What the select of the record loop receives: a record, the end of the records,
    an error ([None] is the nil that a closed channel gives), or the end of the
    context. *)
Inductive SourceEvent :=
| EvRecord (data : Data)
| EvRecordsClosed
| EvError (err : option string)
| EvDone (err : string).

(** Both are placeholders in the source too. *)
Definition applyStage (data : Data) (stage : Stage) : res string (option Data) := Ok (Some data).
Definition sendToSink (data : Data) (sink : string) : res string unit := Ok tt.

(** The loop over the stages: the transformed record, or [None] when a stage failed
    or filtered it. *)
Fixpoint apply_stages (stages : list Stage) (data : Data) (sc : StatsCollector)
  : option Data * StatsCollector :=
  match stages with
  | [] => (Some data, sc)
  | stage :: stages' =>
      let sc := RecordTransformInput (StageName stage) (StageType stage) sc in
      match applyStage data stage with
      | Ok (Some transformed) =>
          apply_stages stages' transformed (RecordTransformOutput (StageName stage) sc)
      | Ok None => (None, sc)
      | _ => (None, RecordTransformError (StageName stage) sc)
      end
  end.

Definition send_all (sinks : list string) (data : Data) (sc : StatsCollector) : StatsCollector :=
  foldl (fun sc sink => match sendToSink data sink with
                        | Ok _ => RecordProcessed sc
                        | _ => RecordProcessingError sc
                        end) sc sinks.

Definition finish (p : GroupedPipeline) (status msg : string) (sc : StatsCollector)
  : PipelineExecutionResult :=
  let stats := GetStatistics sc in
  MkResult (ID p) (PipeName p) status (RecordsCollected stats) (RecordsProcessed stats)
    (int64_wrap (CollectionErrors stats + ProcessingErrors stats)) msg stats.

(** The record loop; [None] means that the loop is still waiting for an event. *)
Fixpoint record_loop (p : GroupedPipeline) (events : list SourceEvent) (msg : string)
  (sc : StatsCollector) : option (PipelineExecutionResult * option string) :=
  match events with
  | [] => None
  | EvDone err :: _ => Some (finish p "canceled" err sc, Some err)
  | EvRecordsClosed :: _ => Some (finish p "completed" msg sc, None)
  | EvRecord data :: events' =>
      let '(out, sc) := apply_stages (Stages p) data (RecordCollected sc) in
      match out with
      | None => record_loop p events' msg sc
      | Some data' => record_loop p events' msg (send_all (Sinks p) data' sc)
      end
  | EvError None :: events' => record_loop p events' msg sc
  | EvError (Some e) :: events' => record_loop p events' e (RecordCollectionError sc)
  end.

(** [source] is what [createAndRunSource] gives: an error or the events. *)
Definition runPipeline (source : GroupedPipeline -> res string (list SourceEvent))
  (p : GroupedPipeline) : option (PipelineExecutionResult * option string) :=
  let sc := NewStatsCollector (ID p) (PipeName p) 0 in
  match source p with
  | Ok events => record_loop p events "" sc
  | Err err =>
      let sc := RecordCollectionError sc in
      Some (MkResult (ID p) (PipeName p) "failed" 0 0 0 err (GetStatistics sc), Some err)
  | Panic => None
  end.

(** ** The execution record *)

Definition Status := string.
Definition StatusIdle : Status := "idle".
Definition StatusRunning : Status := "running".
Definition StatusPaused : Status := "paused".
Definition StatusStopped : Status := "stopped".
Definition StatusError : Status := "error".
Definition StatusCompleted : Status := "completed".

Inductive GroupError :=
| PipelineFailed (name err : string)
| ParallelErrors (errs : list GroupError)
| CircularDependency
| ContextDone (err : string).

Record PipelineGroupExecution := MkExecution {
  ExecID : string;
  WorkflowID : string;
  ExecStatus : Status;
  StartedAt : Z;
  CompletedAt : option Z;
  Duration : option Z;
  PipelineResults : list PipelineExecutionResult;
  TotalRecords : Z;
  FailedRecords : Z;
  ExecError : option GroupError;
  TriggeredBy : string
}.

(** What a run does with the result of a pipeline. *)
Definition add_result (ex : PipelineGroupExecution) (r : PipelineExecutionResult)
  : PipelineGroupExecution :=
  MkExecution (ExecID ex) (WorkflowID ex) (ExecStatus ex) (StartedAt ex) (CompletedAt ex)
    (Duration ex) (PipelineResults ex ++ [r]) (plus (TotalRecords ex) (RecordsWritten r))
    (plus (FailedRecords ex) (ErrorCount r)) (ExecError ex) (TriggeredBy ex).

(** ** Sorting by priority: [sortByPriority]

    [bubble k] makes the first [k] comparisons of the inner loop. *)
Fixpoint bubble (k : nat) (l : list GroupedPipeline) : list GroupedPipeline :=
  match k, l with
  | S k', x :: y :: l' =>
      if (Priority y <? Priority x)%Z then y :: bubble k' (x :: l') else x :: bubble k' (y :: l')
  | _, _ => l
  end.

Definition sortByPriority (pipelines : list GroupedPipeline) : list GroupedPipeline :=
  let n := length pipelines in
  foldl (fun l i => bubble (n - i - 1) l) pipelines (seq 0 (n - 1)).

Section Group.
(** How one pipeline runs: its result and its error. *)
Context (run : GroupedPipeline -> PipelineExecutionResult * option string).

(** ** Sequential: [done] tells whether the context is done at the [i]-th check. *)
Fixpoint sequential_loop (policy : option FailureAction) (done : nat -> option string)
  (i : nat) (l : list GroupedPipeline) (ex : PipelineGroupExecution)
  : res GroupError unit * PipelineGroupExecution :=
  match l with
  | [] => (Ok tt, ex)
  | p :: l' =>
      match done i with
      | Some e => (Err (ContextDone e), ex)
      | None =>
          let '(result, err) := run p in
          let ex := add_result ex result in
          match err with
          | None => sequential_loop policy done (S i) l' ex
          | Some e =>
              match policy with
              | Some action =>
                  if (action =? FailureActionContinue) || (action =? FailureActionSkip)
                     || (action =? FailureActionRetry)
                  then sequential_loop policy done (S i) l' ex
                  else (Err (PipelineFailed (PipeName p) e), ex)
              | None => (Err (PipelineFailed (PipeName p) e), ex)
              end
          end
      end
  end.

Definition runSequential (g : PipelineGroup) (done : nat -> option string)
  (ex : PipelineGroupExecution) : res GroupError unit * PipelineGroupExecution :=
  sequential_loop (FailurePolicy g) done 0 (sortByPriority (Pipelines g)) ex.

(** ** Parallel: [finish_order] is the order in which the goroutines finish. *)
Definition run_batch (ps : list GroupedPipeline) (ex : PipelineGroupExecution)
  : list GroupError * PipelineGroupExecution :=
  foldl (fun '(errs, ex) p =>
    let '(result, err) := run p in
    (match err with
     | Some e => errs ++ [PipelineFailed (PipeName p) e]
     | None => errs
     end, add_result ex result)) ([], ex) ps.

Definition runParallel (finish_order : list GroupedPipeline -> list GroupedPipeline)
  (g : PipelineGroup) (ex : PipelineGroupExecution)
  : res GroupError unit * PipelineGroupExecution :=
  let '(errs, ex) := run_batch (finish_order (Pipelines g)) ex in
  match errs with
  | [] => (Ok tt, ex)
  | _ =>
      if match FailurePolicy g with
         | Some action => action =? FailureActionContinue
         | None => false
         end
      then (Ok tt, ex)
      else (Err (ParallelErrors errs), ex)
  end.

(** ** Dependencies: [runDAG] *)

Definition pipelineMap (g : PipelineGroup) : gmap string GroupedPipeline :=
  foldl (fun m p => <[ID p := p]> m) ∅ (Pipelines g).

Definition dependencies (g : PipelineGroup) : gmap string (list string) :=
  foldl (fun m p => <[ID p := DependsOn p]> m) ∅ (Pipelines g).

Definition canRun (deps : gmap string (list string)) (completed : gset string) (id : string)
  : bool :=
  forallb (fun d => bool_decide (d ∈ completed)) (default [] (deps !! id)).

Definition succeeded (p : GroupedPipeline) : bool :=
  match snd (run p) with None => true | Some _ => false end.

(** The zero value a missing map entry gives. *)
Definition zero_pipeline : GroupedPipeline := MkPipeline "" "" 0 [] [] [].

(** The order in which Go ranges over [remaining], and in which goroutines end. *)
Context (range : gset string -> list string).
Context (finish_order : list string -> list string).

(** The loop of [runDAG]; it also returns the waves it ran. [None] is the model
    out of fuel. *)
Fixpoint dag_loop (fuel : nat) (g : PipelineGroup) (done : nat -> option string) (i : nat)
  (completed remaining : gset string) (ex : PipelineGroupExecution) (waves : list (list string))
  : option (res GroupError unit * PipelineGroupExecution * list (list string)) :=
  match fuel with
  | O => None
  | S fuel' =>
      if bool_decide (remaining = ∅) then Some (Ok tt, ex, waves)
      else
        match done i with
        | Some e => Some (Err (ContextDone e), ex, waves)
        | None =>
            let toRun := List.filter (canRun (dependencies g) completed) (range remaining) in
            match toRun with
            | [] => Some (Err CircularDependency, ex, waves)
            | _ =>
                let lookup id := default zero_pipeline (pipelineMap g !! id) in
                let '(errs, ex) := run_batch (map lookup (finish_order toRun)) ex in
                let completed :=
                  completed ∪ list_to_set (List.filter (fun id => succeeded (lookup id)) toRun) in
                let stop := match FailurePolicy g with
                            | None => true
                            | Some action => action =? FailureActionStopAll
                            end in
                match errs, stop with
                | err :: _, true => Some (Err err, ex, waves ++ [toRun])
                | _, _ =>
                    dag_loop fuel' g done (S i) completed (remaining ∖ list_to_set toRun) ex
                      (waves ++ [toRun])
                end
            end
        end
  end.

Definition dag_fuel (g : PipelineGroup) : nat := S (length (Pipelines g)).

Definition runDAG (g : PipelineGroup) (done : nat -> option string) (ex : PipelineGroupExecution)
  : option (res GroupError unit * PipelineGroupExecution * list (list string)) :=
  dag_loop (dag_fuel g) g done 0 ∅ (list_to_set (map ID (Pipelines g))) ex [].
End Group.

(** ** The mode of a group: the goroutine of [Start] up to the end of the run *)

Definition run_group run (order : list GroupedPipeline -> list GroupedPipeline)
  (range : gset string -> list string) (finish_order : list string -> list string)
  (g : PipelineGroup) (done : nat -> option string) (ex : PipelineGroupExecution)
  : option (res GroupError unit * PipelineGroupExecution) :=
  if Mode g =? ExecutionModeParallel then Some (runParallel run order g ex)
  else if Mode g =? ExecutionModeSequential then Some (runSequential run g done ex)
  else if Mode g =? ExecutionModeDAG then fst <$> runDAG run range finish_order g done ex
  else Some (runParallel run order g ex).

(** ** The bubble sort *)

Definition prio_le (a b : GroupedPipeline) : Prop := (Priority a <= Priority b)%Z.

Lemma bubble_perm k l : bubble k l ≡ₚ l.
Proof.
  revert l. induction k as [|k IH]; intros l; [done|].
  destruct l as [|x [|y l]]; simpl; [done..|].
  destruct (Priority y <? Priority x)%Z; rewrite IH; [|done]. apply perm_swap.
Qed.

Lemma bubble_app k a b : k < length a -> bubble k (a ++ b) = bubble k a ++ b.
Proof.
  revert a. induction k as [|k IH]; intros a Hk; [done|].
  destruct a as [|x [|y a]]; simpl in *; try lia.
  assert (forall z, bubble k (z :: a ++ b) = bubble k (z :: a) ++ b) as E.
  { intros z. apply (IH (z :: a)). simpl. lia. }
  by destruct (Priority y <? Priority x)%Z; rewrite E.
Qed.

(** A full pass moves a largest element to the end. *)
Lemma bubble_max k a :
  length a = S k -> exists a' m, bubble k a = a' ++ [m] /\ Forall (fun x => prio_le x m) a'.
Proof.
  revert a. induction k as [|k IH]; intros a Hl.
  { destruct a as [|x [|? ?]]; simplify_eq/=. by exists [], x. }
  destruct a as [|x [|y a]]; simplify_eq/=. unfold prio_le.
  destruct (Z.ltb_spec (Priority y) (Priority x)).
  - destruct (IH (x :: a) ltac:(simpl; lia)) as (a' & m & E & HF). rewrite E.
    exists (y :: a'), m. split; [done|]. constructor; [|done].
    assert (x ∈ a' ++ [m]) as Hx by (rewrite <- E, bubble_perm; set_solver).
    apply elem_of_app in Hx as [Hx|Hx%list_elem_of_singleton]; [|subst; lia].
    rewrite Forall_forall in HF. specialize (HF x Hx). unfold prio_le in HF. lia.
  - destruct (IH (y :: a) ltac:(simpl; lia)) as (a' & m & E & HF). rewrite E.
    exists (x :: a'), m. split; [done|]. constructor; [|done].
    assert (y ∈ a' ++ [m]) as Hy by (rewrite <- E, bubble_perm; set_solver).
    apply elem_of_app in Hy as [Hy|Hy%list_elem_of_singleton]; [|subst; lia].
    rewrite Forall_forall in HF. specialize (HF y Hy). unfold prio_le in HF. lia.
Qed.

(** Equal priorities keep their order: only a strictly smaller one moves forward. *)
Lemma bubble_stable q k l :
  List.filter (fun p => (Priority p =? q)%Z) (bubble k l)
  = List.filter (fun p => (Priority p =? q)%Z) l.
Proof.
  revert l. induction k as [|k IH]; intros l; [done|].
  destruct l as [|x [|y l]]; [done..|]. simpl.
  destruct (Z.ltb_spec (Priority y) (Priority x)); simpl; rewrite IH; simpl; [|done].
  destruct (Z.eqb_spec (Priority x) q), (Z.eqb_spec (Priority y) q); try done. lia.
Qed.

(** After [i] passes the last [i] elements are in place. *)
Record sorted_tail (n i : nat) (l : list GroupedPipeline) : Prop := {
  st_split : exists a b, l = a ++ b /\ length a = n - i /\ length l = n /\
    StronglySorted prio_le b /\ forall x y, x ∈ a -> y ∈ b -> prio_le x y
}.

Lemma pass_sorted_tail n i l :
  i < n -> sorted_tail n i l -> sorted_tail n (S i) (bubble (n - i - 1) l).
Proof.
  intros Hi [(a & b & -> & Ha & Hl & Hs & Hab)].
  rewrite bubble_app by lia.
  destruct (bubble_max (n - i - 1) a ltac:(lia)) as (a' & m & E & HF).
  pose proof (bubble_perm (n - i - 1) a) as Hp. rewrite E in Hp.
  pose proof (Permutation_length Hp) as Hlen. rewrite length_app in Hlen. simpl in Hlen.
  split. exists a', (m :: b). rewrite E, <- app_assoc. split; [done|]. split; [lia|]. split.
  { rewrite !length_app in *. simpl. lia. }
  split.
  - constructor; [done|]. apply Forall_forall. intros y Hy. apply Hab; [|done].
    rewrite <- Hp. set_solver.
  - intros x y Hx [->|Hy]%elem_of_cons.
    + rewrite Forall_forall in HF. by apply HF.
    + apply Hab; [|done]. rewrite <- Hp. set_solver.
Qed.

Lemma passes_sorted_tail n l k i :
  i + k <= n -> sorted_tail n i l ->
  sorted_tail n (i + k) (foldl (fun l i => bubble (n - i - 1) l) l (seq i k)).
Proof.
  revert l i. induction k as [|k IH]; intros l i Hk Hst; simpl; [by rewrite Nat.add_0_r|].
  replace (i + S k) with (S i + k) by lia. apply IH; [lia|].
  apply pass_sorted_tail; [lia | done].
Qed.

Lemma sorted_tail_sorted n l : 0 < n -> sorted_tail n (n - 1) l -> StronglySorted prio_le l.
Proof.
  intros Hn [(a & b & -> & Ha & _ & Hs & Hab)].
  destruct a as [|x [|? ?]]; simpl in Ha; [lia| |lia].
  constructor; [done|]. apply Forall_forall. intros y Hy. apply Hab; set_solver.
Qed.

Lemma passes_fold (P : list GroupedPipeline -> Prop) n (js : list nat) l :
  (forall k l, P l -> P (bubble k l)) -> P l ->
  P (foldl (fun l i => bubble (n - i - 1) l) l js).
Proof. intros HP. revert l. induction js as [|j js IH]; intros l Hl; [done|]. apply IH, HP, Hl. Qed.

(** [sortByPriority] returns the same pipelines in ascending order of priority,
    and pipelines of equal priority keep their order. *)
Theorem sort_by_priority_sorts (l : list GroupedPipeline) :
  sortByPriority l ≡ₚ l /\ StronglySorted prio_le (sortByPriority l) /\
  forall q, List.filter (fun p => (Priority p =? q)%Z) (sortByPriority l)
            = List.filter (fun p => (Priority p =? q)%Z) l.
Proof.
  unfold sortByPriority. split; [|split].
  - apply (passes_fold (fun l' => l' ≡ₚ l)); [|done]. intros k l' <-. apply bubble_perm.
  - destruct l as [|x l]; [constructor|]. set (n := length (x :: l)).
    apply (sorted_tail_sorted n); [unfold n; simpl; lia|].
    apply (passes_sorted_tail n (x :: l) (n - 1) 0); [lia|].
    split. exists (x :: l), []. rewrite app_nil_r. split; [done|]. split; [lia|].
    split; [done|]. split; [constructor|]. by intros ? ? ? ?%elem_of_nil.
  - intros q. apply (passes_fold (fun l' => List.filter _ l' = List.filter _ l)); [|done].
    intros k l' <-. apply bubble_stable.
Qed.

(** ** What one pipeline run reports *)

Lemma apply_stages_counts stages data sc :
  exists sc', apply_stages stages data sc = (Some data, sc') /\
    recordsCollected sc' = recordsCollected sc /\ recordsProcessed sc' = recordsProcessed sc /\
    collectionErrors sc' = collectionErrors sc /\ processingErrors sc' = processingErrors sc.
Proof.
  revert sc. induction stages as [|st stages IH]; intros sc; simpl; [by exists sc|].
  destruct (IH (RecordTransformOutput (StageName st)
    (RecordTransformInput (StageName st) (StageType st) sc))) as (sc' & -> & ?). by exists sc'.
Qed.

Lemma send_all_counts sinks data sc :
  eqm (recordsProcessed (send_all sinks data sc))
      (recordsProcessed sc + Z.of_nat (length sinks)) /\
  recordsCollected (send_all sinks data sc) = recordsCollected sc /\
  collectionErrors (send_all sinks data sc) = collectionErrors sc /\
  processingErrors (send_all sinks data sc) = processingErrors sc.
Proof.
  revert sc. induction sinks as [|s sinks IH]; intros sc.
  { split; [|done]. exists 0%Z. simpl. lia. }
  change (send_all (s :: sinks) data sc) with (send_all sinks data (RecordProcessed sc)).
  destruct (IH (RecordProcessed sc)) as (Hp & -> & -> & ->). split; [|done].
  rewrite Hp. simpl recordsProcessed. rewrite plus_eqm. exists 0%Z.
  cbn [length]. lia.
Qed.

Definition is_record (e : SourceEvent) : bool :=
  match e with EvRecord _ => true | _ => false end.
Definition is_source_error (e : SourceEvent) : bool :=
  match e with EvError (Some _) => true | _ => false end.
Definition goes_on (e : SourceEvent) : bool :=
  match e with EvRecord _ | EvError _ => true | _ => false end.

Definition count {A} (f : A -> bool) (l : list A) : Z := Z.of_nat (length (List.filter f l)).

Lemma record_loop_counts p es msg sc :
  forallb goes_on es = true ->
  exists msg' sc', record_loop p (es ++ [EvRecordsClosed]) msg sc
    = Some (finish p "completed" msg' sc', None) /\
    eqm (recordsCollected sc') (recordsCollected sc + count is_record es) /\
    eqm (recordsProcessed sc')
      (recordsProcessed sc + count is_record es * Z.of_nat (length (Sinks p))) /\
    eqm (collectionErrors sc') (collectionErrors sc + count is_source_error es) /\
    processingErrors sc' = processingErrors sc.
Proof.
  revert msg sc. induction es as [|e es IH]; intros msg sc Hg.
  { exists msg, sc. split; [done|]. unfold count. repeat split; try (exists 0%Z); simpl; lia. }
  simpl in Hg. apply andb_true_iff in Hg as [He Hg].
  destruct e as [data| |[err|]|]; try done; cbn [app record_loop].
  - destruct (apply_stages_counts (Stages p) data (RecordCollected sc))
      as (sc1 & -> & Hc & Hp & Hce & Hpe).
    destruct (send_all_counts (Sinks p) data sc1) as (Hp2 & Hc2 & Hce2 & Hpe2).
    destruct (IH msg (send_all (Sinks p) data sc1) Hg) as (msg' & sc' & -> & H1 & H2 & H3 & H4).
    exists msg', sc'. split; [done|]. unfold count in *. simpl. simpl in Hc, Hp, Hce, Hpe.
    rewrite H1, H2, H3, H4, Hc2, Hp2, Hce2, Hpe2, Hc, Hp, Hce, Hpe, plus_eqm.
    repeat split; try (exists 0%Z); lia.
  - destruct (IH err (RecordCollectionError sc) Hg) as (msg' & sc' & -> & H1 & H2 & H3 & H4).
    exists msg', sc'. split; [done|]. unfold count in *. simpl in *.
    rewrite H1, H2, H3, H4, plus_eqm. repeat split; try (exists 0%Z); lia.
  - destruct (IH msg sc Hg) as (msg' & sc' & -> & H1 & H2 & H3 & H4).
    exists msg', sc'. unfold count in *. simpl. by repeat split.
Qed.

(** A pipeline whose source delivers records and errors and then closes
    completes, and reports as many records read as the source delivered, one write
    for every record and sink, and one error for every source error, modulo the
    width of the counters. *)
Theorem run_pipeline_counts (source : GroupedPipeline -> res string (list SourceEvent))
    (p : GroupedPipeline) (es : list SourceEvent) :
  source p = Ok (es ++ [EvRecordsClosed]) -> forallb goes_on es = true ->
  exists r, runPipeline source p = Some (r, None) /\ ResStatus r = "completed" /\
    eqm (RecordsRead r) (count is_record es) /\
    eqm (RecordsWritten r) (count is_record es * Z.of_nat (length (Sinks p))) /\
    eqm (ErrorCount r) (count is_source_error es).
Proof.
  intros Hs Hg. unfold runPipeline. rewrite Hs.
  destruct (record_loop_counts p es "" (NewStatsCollector (ID p) (PipeName p) 0) Hg)
    as (msg' & sc' & -> & H1 & H2 & H3 & H4). simpl in *.
  eexists. split; [done|]. split; [done|]. simpl.
  rewrite wrap_eqm, H1, H2, H3, H4, Z.add_0_r. done.
Qed.

Definition demo_pipeline (id : string) (prio : Z) (deps : list string) : GroupedPipeline :=
  MkPipeline id id prio deps [MkStage "parse" "remap"] ["es"; "s3"].

Lemma run_pipeline_counts_witness :
  exists r, runPipeline (fun _ => Ok ([EvRecord ∅; EvError (Some "eof"); EvRecord ∅]
      ++ [EvRecordsClosed])) (demo_pipeline "a" 1 []) = Some (r, None) /\
    ResStatus r = "completed" /\ eqm (RecordsRead r) 2 /\ eqm (RecordsWritten r) 4 /\
    eqm (ErrorCount r) 1.
Proof.
  apply (run_pipeline_counts (fun _ => Ok ([EvRecord ∅; EvError (Some "eof"); EvRecord ∅]
      ++ [EvRecordsClosed])) (demo_pipeline "a" 1 [])
      [EvRecord ∅; EvError (Some "eof"); EvRecord ∅]); reflexivity.
Defined.

(** ** Sequential runs *)

Section SequentialProofs.
Context (run : GroupedPipeline -> PipelineExecutionResult * option string).

(** The pipelines up to and including the first that fails. *)
Fixpoint until_failure (l : list GroupedPipeline) : list GroupedPipeline :=
  match l with
  | [] => []
  | p :: l' => if succeeded run p then p :: until_failure l' else [p]
  end.

Definition tolerant (policy : option FailureAction) : bool :=
  match policy with
  | Some a => (a =? FailureActionContinue) || (a =? FailureActionSkip) || (a =? FailureActionRetry)
  | None => false
  end.

Definition results (l : list GroupedPipeline) : list PipelineExecutionResult :=
  map (fun p => fst (run p)) l.

Lemma sequential_loop_spec policy l i ex :
  let '(r, ex') := sequential_loop run policy (fun _ => None) i l ex in
  PipelineResults ex' = PipelineResults ex ++
    results (if tolerant policy then l else until_failure l) /\
  (r = Ok tt <-> tolerant policy = true \/ Forall (fun p => succeeded run p = true) l).
Proof.
  revert i ex. induction l as [|p l IH]; intros i ex; simpl.
  { destruct (tolerant policy); simpl; rewrite app_nil_r; by split; [|split; auto]. }
  unfold succeeded in *. destruct (run p) as [res err] eqn:E. simpl.
  specialize (IH (S i) (add_result ex res)). unfold results in *. simpl in *.
  destruct err as [e|].
  - destruct policy as [a|]; simpl in *.
    + destruct ((a =? FailureActionContinue) || (a =? FailureActionSkip) || (a =? FailureActionRetry)).
      * destruct (sequential_loop _ _ _ _ _ _) as [r ex']. destruct IH as [-> Hr].
        rewrite <- app_assoc. simpl. rewrite E. split; [done|]. rewrite Hr. naive_solver.
      * simpl. rewrite E. split; [done|]. split; [done|]. intros [?|HF]; [done|].
        apply Forall_cons in HF as [HF _]. by rewrite E in HF.
    + rewrite E. split; [done|]. split; [done|]. intros [?|HF]; [done|].
      apply Forall_cons in HF as [HF _]. by rewrite E in HF.
  - destruct (sequential_loop _ _ _ _ _ _) as [r ex']. destruct IH as [-> Hr].
    rewrite <- app_assoc. split.
    + destruct (tolerant policy); simpl; by rewrite E.
    + rewrite Hr, Forall_cons, E. naive_solver.
Qed.
End SequentialProofs.

(** A sequential run that is not cancelled executes the pipelines in the order
    of their priority. Under the policies continue, skip and retry it executes all
    of them and succeeds; otherwise it stops after the first failure, and succeeds
    exactly when there is none. *)
Theorem sequential_run_spec run (g : PipelineGroup) (ex : PipelineGroupExecution) :
  let order := sortByPriority (Pipelines g) in
  let '(r, ex') := runSequential run g (fun _ => None) ex in
  PipelineResults ex' = PipelineResults ex ++
    results run (if tolerant (FailurePolicy g) then order else until_failure run order) /\
  (r = Ok tt <-> tolerant (FailurePolicy g) = true \/
                 Forall (fun p => succeeded run p = true) (Pipelines g)).
Proof.
  intros order. pose proof (sequential_loop_spec run (FailurePolicy g) order 0 ex) as H.
  unfold runSequential. fold order. destruct (sequential_loop _ _ _ _ _ _) as [r ex'].
  destruct H as [-> Hr]. split; [done|]. rewrite Hr.
  assert (order ≡ₚ Pipelines g) as Hp.
  { apply (passes_fold (fun l' => l' ≡ₚ Pipelines g)); [|done]. intros k l' <-. apply bubble_perm. }
  by rewrite Hp.
Qed.

(** ** Parallel runs *)

Lemma run_batch_spec run ps ex :
  PipelineResults (snd (run_batch run ps ex)) = PipelineResults ex ++ results run ps /\
  (fst (run_batch run ps ex) = [] <-> Forall (fun p => succeeded run p = true) ps).
Proof.
  induction ps as [|p ps [IHr IHe]] using rev_ind.
  { by rewrite app_nil_r. }
  unfold run_batch in *. rewrite foldl_app, Forall_app, Forall_singleton. simpl.
  destruct (foldl _ _ ps) as [errs ex'] eqn:Ef. simpl in *. unfold results in *. rewrite map_app, app_assoc, <- IHr. simpl.
  assert (succeeded run p = match snd (run p) with None => true | Some _ => false end) as -> by done.
  destruct (run p) as [result [err|]]; simpl; (split; [done|]); [|naive_solver].
  split; [|by intros [_ ?]]. by intros [_ ?]%app_eq_nil.
Qed.

(** A parallel run executes every pipeline once, and it succeeds exactly when
    every pipeline does or the failure policy is continue. *)
Theorem parallel_run_spec run order (g : PipelineGroup) (ex : PipelineGroupExecution) :
  (forall l, order l ≡ₚ l) ->
  let '(r, ex') := runParallel run order g ex in
  PipelineResults ex' ≡ₚ PipelineResults ex ++ results run (Pipelines g) /\
  (r = Ok tt <-> FailurePolicy g = Some FailureActionContinue \/
                 Forall (fun p => succeeded run p = true) (Pipelines g)).
Proof.
  intros Hord. unfold runParallel.
  destruct (run_batch_spec run (order (Pipelines g)) ex) as [Hr He].
  destruct (run_batch run (order (Pipelines g)) ex) as [errs ex']. simpl in *.
  rewrite (Hord (Pipelines g)) in He.
  assert (PipelineResults ex' ≡ₚ PipelineResults ex ++ results run (Pipelines g)) as Hp.
  { rewrite Hr. unfold results. by rewrite (Hord (Pipelines g)). }
  destruct errs as [|err errs]; [by split; [|naive_solver]|].
  assert (~ Forall (fun p => succeeded run p = true) (Pipelines g)) as Hno by by intros ?%He.
  destruct (FailurePolicy g) as [a|]; [destruct (String.eqb_spec a FailureActionContinue)|];
    (split; [done|]); naive_solver.
Qed.

Lemma parallel_run_spec_witness :
  let run p := (MkResult (ID p) (PipeName p) "completed" 0 0 0 ""
     (GetStatistics (NewStatsCollector (ID p) (PipeName p) 0)), Some "boom") in
  let g := MkGroup "g" ExecutionModeParallel [demo_pipeline "a" 1 []; demo_pipeline "b" 2 []] None in
  let ex := MkExecution "x" "g" StatusRunning 0 None None [] 0 0 None "user" in
  let '(r, ex') := runParallel run (@rev _) g ex in
  PipelineResults ex' ≡ₚ PipelineResults ex ++ results run (Pipelines g) /\
  (r = Ok tt <-> FailurePolicy g = Some FailureActionContinue \/
                 Forall (fun p => succeeded run p = true) (Pipelines g)).
Proof.
  intros run g ex. apply (parallel_run_spec run (@rev _) g ex).
  intros l. symmetry. apply Permutation_rev.
Defined.

(** ** Dependency-ordered runs *)

Section DagProofs.
Context (run : GroupedPipeline -> PipelineExecutionResult * option string).
Context (range : gset string -> list string) (finish_order : list string -> list string).
Context (range_ok : forall s, NoDup (range s) /\ forall x, x ∈ range s <-> x ∈ s).
Context (g : PipelineGroup).

Definition pipe (id : string) : GroupedPipeline := default zero_pipeline (pipelineMap g !! id).
Definition deps_of (id : string) : list string := default [] (dependencies g !! id).
Definition ids : gset string := list_to_set (map ID (Pipelines g)).
Definition id_succeeds (id : string) : bool := succeeded run (pipe id).

(** What the waves run so far look like. *)
Record waves_ok (completed remaining : gset string) (waves : list (list string)) : Prop := {
  wv_nodup : NoDup (concat waves);
  wv_split : forall id, id ∈ ids <-> id ∈ concat waves \/ id ∈ remaining;
  wv_disjoint : forall id, id ∈ concat waves -> id ∉ remaining;
  wv_completed : forall id, id ∈ completed <-> id ∈ concat waves /\ id_succeeds id = true;
  wv_order : forall i w id d, waves !! i = Some w -> id ∈ w -> d ∈ deps_of id ->
    exists j w', j < i /\ waves !! j = Some w' /\ d ∈ w' /\ id_succeeds d = true
}.

Definition to_run (completed remaining : gset string) : list string :=
  List.filter (canRun (dependencies g) completed) (range remaining).

Lemma to_run_spec completed remaining id :
  id ∈ to_run completed remaining <->
  id ∈ remaining /\ forall d, d ∈ deps_of id -> d ∈ completed.
Proof.
  unfold to_run. rewrite elem_of_bfilter.
  destruct (range_ok remaining) as [_ ->]. unfold canRun. fold (deps_of id).
  rewrite forallb_forall. setoid_rewrite <- list_elem_of_In.
  split; intros [H1 H2]; (split; [done|]); intros d Hd; specialize (H2 d Hd).
  - by rewrite bool_decide_eq_true in H2.
  - by rewrite bool_decide_eq_true.
Qed.

Lemma to_run_nodup completed remaining : NoDup (to_run completed remaining).
Proof.
  apply NoDup_bfilter, range_ok.
Qed.

Lemma elem_of_concat_lookup (waves : list (list string)) d :
  d ∈ concat waves -> exists j w, waves !! j = Some w /\ d ∈ w.
Proof.
  intros Hd. apply list_elem_of_In, in_concat in Hd as (w & Hw & Hd).
  apply list_elem_of_In, list_elem_of_lookup_1 in Hw as [j Hj].
  exists j, w. by rewrite list_elem_of_In.
Qed.

Lemma add_wave completed remaining waves :
  waves_ok completed remaining waves ->
  let w := to_run completed remaining in
  waves_ok (completed ∪ list_to_set (List.filter id_succeeds w))
    (remaining ∖ list_to_set w) (waves ++ [w]).
Proof.
  intros [Hnd Hsplit Hdisj Hcomp Hord] w.
  assert (forall id, id ∈ concat (waves ++ [w]) <-> id ∈ concat waves \/ id ∈ w) as Hconcat.
  { intros id. rewrite concat_app. simpl. rewrite app_nil_r. apply elem_of_app. }
  assert (forall id, id ∈ w -> id ∈ remaining) as Hw by (intros id Hid; by apply to_run_spec in Hid as [? _]).
  split.
  - rewrite concat_app. simpl. rewrite app_nil_r. apply NoDup_app. split; [done|].
    split; [|apply to_run_nodup]. intros id Hid Hidw. by apply (Hdisj id Hid), Hw.
  - intros id. rewrite Hconcat, Hsplit, elem_of_difference, elem_of_list_to_set.
    destruct (decide (id ∈ w)) as [Hin|Hin]; [|tauto].
    specialize (Hw id Hin). tauto.
  - intros id. rewrite Hconcat, elem_of_difference, elem_of_list_to_set.
    specialize (Hdisj id). tauto.
  - intros id. rewrite elem_of_union, elem_of_list_to_set, Hcomp, Hconcat, elem_of_bfilter. tauto.
  - intros i v id d Hi Hid Hd. apply lookup_app_Some in Hi as [Hi|[Hlen Hi]].
    + destruct (Hord i v id d Hi Hid Hd) as (j & w' & Hj & Hl & Hin).
      exists j, w'. split; [done|]. split; [|done]. by apply lookup_app_l_Some.
    + apply list_lookup_singleton_Some in Hi as [Hi <-].
      apply to_run_spec in Hid as [_ Hid]. apply Hid, Hcomp in Hd as [Hd Hs].
      destruct (elem_of_concat_lookup _ _ Hd) as (j & w' & Hj & Hin).
      exists j, w'. pose proof (lookup_lt_Some _ _ _ Hj). split; [lia|].
      split; [by apply lookup_app_l_Some | done].
Qed.

Lemma remaining_shrinks completed remaining :
  to_run completed remaining <> [] ->
  size (remaining ∖ list_to_set (to_run completed remaining)) < size remaining.
Proof.
  intros Hne. destruct (to_run completed remaining) as [|id w] eqn:E; [done|].
  assert (id ∈ remaining) as Hid by (apply (to_run_spec completed remaining id); rewrite E; set_solver).
  apply subset_size. set_solver.
Qed.

(** Every error of a batch is that of a pipeline of the batch that failed. *)
Lemma run_batch_errs ps ex err :
  err ∈ fst (run_batch run ps ex) ->
  exists p e, p ∈ ps /\ succeeded run p = false /\ err = PipelineFailed (PipeName p) e.
Proof.
  unfold run_batch.
  assert (forall errs0 ex0, err ∈ fst (foldl (fun '(errs, ex) p =>
      let '(result, err) := run p in
      (match err with
       | Some e => errs ++ [PipelineFailed (PipeName p) e]
       | None => errs
       end, add_result ex result)) (errs0, ex0) ps) ->
    err ∈ errs0 \/ exists p e, p ∈ ps /\ succeeded run p = false /\
      err = PipelineFailed (PipeName p) e) as Hfold.
  { induction ps as [|p ps IH]; intros errs0 ex0; [by left|]. simpl.
    destruct (run p) as [res [e|]] eqn:E; intros [H|(q & e' & Hq & ?)]%IH.
    - apply elem_of_app in H as [H|H%list_elem_of_singleton]; [by left|].
      right. exists p, e. split; [set_solver|]. unfold succeeded. by rewrite E.
    - right. exists q, e'. split; [set_solver | done].
    - by left.
    - right. exists q, e'. split; [set_solver | done]. }
  intros [H|H]%Hfold; [by apply elem_of_nil in H | done].
Qed.

Context (finish_ok : forall l, finish_order l ≡ₚ l).

(** How the loop can end. *)
Inductive dag_end (done_ : nat -> option string) (completed remaining : gset string)
  : res GroupError unit -> Prop :=
| end_ok : remaining = ∅ -> dag_end done_ completed remaining (Ok tt)
| end_circular : remaining <> ∅ -> to_run completed remaining = [] ->
    dag_end done_ completed remaining (Err CircularDependency)
| end_done i e : done_ i = Some e -> dag_end done_ completed remaining (Err (ContextDone e))
| end_failed id e : id ∈ ids -> id_succeeds id = false ->
    dag_end done_ completed remaining (Err (PipelineFailed (PipeName (pipe id)) e)).

(** Invariant and termination of the loop. *)
Lemma dag_loop_ok fuel done_ i completed remaining ex waves :
  size remaining < fuel -> waves_ok completed remaining waves ->
  exists r ex' waves' completed' remaining',
    dag_loop run range finish_order fuel g done_ i completed remaining ex waves
      = Some (r, ex', waves') /\
    waves_ok completed' remaining' waves' /\ dag_end done_ completed' remaining' r.
Proof.
  revert i completed remaining ex waves.
  induction fuel as [|fuel IH]; intros i completed remaining ex waves Hf Hok; [lia|].
  cbn [dag_loop]. case_bool_decide as Hempty.
  { eexists _, _, _, completed, remaining. split; [done|]. by split; [|apply end_ok]. }
  destruct (done_ i) as [e|] eqn:Hd.
  { eexists _, _, _, completed, remaining. split; [done|]. by split; [|eapply end_done]. }
  fold (to_run completed remaining).
  destruct (to_run completed remaining) as [|id w] eqn:E.
  { eexists _, _, _, completed, remaining. split; [done|]. by split; [|apply end_circular]. }
  rewrite <- E. pose proof (add_wave completed remaining waves Hok) as Hok'. cbv zeta in Hok'.
  pose proof (remaining_shrinks completed remaining ltac:(by rewrite E)) as Hlt.
  destruct (run_batch _ _ _) as [errs ex1] eqn:Eb. cbv beta iota zeta.
  fold pipe. fold id_succeeds.
  destruct errs as [|err errs].
  { apply IH; [lia | done]. }
  destruct (match FailurePolicy g with None => true | Some _ => _ end).
  2:{ apply IH; [lia | done]. }
  eexists _, _, _, _, _. split; [done|]. split; [exact Hok'|].
  destruct (run_batch_errs (map pipe (finish_order (to_run completed remaining))) ex err)
    as (p & e & Hp & Hs & ->).
  { unfold pipe. rewrite Eb. simpl. set_solver. }
  apply list_elem_of_fmap in Hp as (id' & -> & Hid'). rewrite finish_ok in Hid'.
  apply end_failed; [|done]. apply to_run_spec in Hid' as [Hid' _].
  apply (wv_split _ _ _ Hok). by right.
Qed.

(** The record gets the results of the waves. *)
Lemma dag_loop_results fuel done_ i completed remaining ex waves r ex' waves' :
  dag_loop run range finish_order fuel g done_ i completed remaining ex waves
    = Some (r, ex', waves') ->
  exists ws, waves' = waves ++ ws /\
    PipelineResults ex' ≡ₚ PipelineResults ex ++ results run (map pipe (concat ws)).
Proof.
  revert i completed remaining ex waves.
  induction fuel as [|fuel IH]; intros i completed remaining ex waves; [done|].
  cbn [dag_loop]. case_bool_decide; [intros [= <- <- <-]; exists []; by rewrite !app_nil_r|].
  destruct (done_ i); [intros [= <- <- <-]; exists []; by rewrite !app_nil_r|].
  fold (to_run completed remaining).
  destruct (to_run completed remaining) as [|id w] eqn:E.
  { intros [= <- <- <-]; exists []; by rewrite !app_nil_r. }
  rewrite <- E. clear E. set (w' := to_run completed remaining).
  destruct (run_batch_spec run (map pipe (finish_order w')) ex) as [Hr _].
  fold pipe. destruct (run_batch run (map pipe (finish_order w')) ex) as [errs ex1].
  simpl in Hr. cbv beta iota zeta.
  assert (PipelineResults ex1 ≡ₚ PipelineResults ex ++ results run (map pipe w')) as Hp.
  { rewrite Hr. unfold results. by rewrite (finish_ok w'). }
  assert (forall c rem, dag_loop run range finish_order fuel g done_ (S i) c rem ex1 (waves ++ [w'])
      = Some (r, ex', waves') ->
    exists ws, waves' = waves ++ ws /\
      PipelineResults ex' ≡ₚ PipelineResults ex ++ results run (map pipe (concat ws))) as Hgo.
  { intros c rem (ws & -> & Hws)%IH. exists (w' :: ws). rewrite <- app_assoc. split; [done|].
    rewrite Hws, Hp. unfold results. simpl. by rewrite !map_app, <- app_assoc. }
  destruct errs as [|err errs]; [apply Hgo|].
  destruct (match FailurePolicy g with None => true | Some _ => _ end); [|apply Hgo].
  intros [= <- <- <-]. exists [w']. split; [done|]. simpl. by rewrite app_nil_r.
Qed.

Lemma runDAG_ok done_ ex :
  exists r ex' waves completed remaining,
    runDAG run range finish_order g done_ ex = Some (r, ex', waves) /\
    waves_ok completed remaining waves /\ dag_end done_ completed remaining r.
Proof.
  apply dag_loop_ok.
  - unfold dag_fuel. apply Nat.lt_succ_r.
    etrans; [apply size_list_to_set_le|]. by rewrite length_map.
  - split; simpl.
    + constructor.
    + intros id. unfold ids. set_solver.
    + set_solver.
    + set_solver.
    + intros i w id d Hi. by rewrite lookup_nil in Hi.
Qed.
End DagProofs.

(** C4: A dependency-ordered run ends, whatever the graph, runs no pipeline twice
    and runs a pipeline only in a wave after the waves in which each of its
    dependencies ran and succeeded. The execution record gets one result for each
    pipeline that ran, and if the run reports success, every pipeline ran. *)
Theorem dag_respects_dependencies run range finish_order (g : PipelineGroup)
    (done_ : nat -> option string) (ex : PipelineGroupExecution) :
  (forall s, NoDup (range s) /\ forall x, x ∈ range s <-> x ∈ s) ->
  (forall l, finish_order l ≡ₚ l) ->
  exists r ex' waves,
    runDAG run range finish_order g done_ ex = Some (r, ex', waves) /\
    NoDup (concat waves) /\
    PipelineResults ex' ≡ₚ PipelineResults ex ++ results run (map (pipe g) (concat waves)) /\
    (forall id, id ∈ concat waves -> id ∈ map ID (Pipelines g)) /\
    (r = Ok tt -> forall id, id ∈ map ID (Pipelines g) -> id ∈ concat waves) /\
    (forall i w id d, waves !! i = Some w -> id ∈ w -> d ∈ deps_of g id ->
       exists j w', j < i /\ waves !! j = Some w' /\ d ∈ w' /\ id_succeeds run g d = true).
Proof.
  intros Hrange Hfin.
  destruct (runDAG_ok run range finish_order Hrange g Hfin done_ ex)
    as (r & ex' & waves & completed & remaining & Hrun & [Hnd Hsplit Hdisj Hcomp Hord] & Hend).
  exists r, ex', waves. unfold ids in Hsplit. setoid_rewrite elem_of_list_to_set in Hsplit.
  split; [done|]. split; [done|].
  split; [by destruct (dag_loop_results run range finish_order g Hfin _ _ _ _ _ _ _ _ _ _ Hrun)
    as (ws & -> & ?)|].
  split; [intros id Hid; apply Hsplit; by left|].
  split; [|done]. intros -> id Hid. apply Hsplit in Hid as [?|Hid]; [done|].
  inversion Hend; subst. set_solver.
Qed.

(** A constant result for every pipeline that is not in [failing]. *)
Definition demo_run (failing : list string) (p : GroupedPipeline)
  : PipelineExecutionResult * option string :=
  (MkResult (ID p) (PipeName p) "completed" 0 0 0 ""
     (GetStatistics (NewStatsCollector (ID p) (PipeName p) 0)),
   if decide (ID p ∈ failing) then Some "boom" else None).

Definition demo_group (policy : option FailureAction) : PipelineGroup :=
  MkGroup "g" ExecutionModeDAG
    [demo_pipeline "load" 1 ["extract"]; demo_pipeline "extract" 2 []] policy.

Definition empty_execution : PipelineGroupExecution := MkExecution "x" "g" StatusRunning 0 None None [] 0 0 None "user".

Lemma elements_range (s : gset string) :
  NoDup (elements s) /\ forall x, x ∈ elements s <-> x ∈ s.
Proof. split; [apply NoDup_elements | intros x; apply elem_of_elements]. Qed.

Lemma dag_respects_dependencies_witness :
  exists r ex' waves,
    runDAG (demo_run []) elements (fun l => l) (demo_group None) (fun _ => None)
      empty_execution = Some (r, ex', waves) /\
    NoDup (concat waves) /\
    PipelineResults ex' ≡ₚ PipelineResults empty_execution
      ++ results (demo_run []) (map (pipe (demo_group None)) (concat waves)) /\
    (forall id, id ∈ concat waves -> id ∈ map ID (Pipelines (demo_group None))) /\
    (r = Ok tt -> forall id, id ∈ map ID (Pipelines (demo_group None)) -> id ∈ concat waves) /\
    (forall i w id d, waves !! i = Some w -> id ∈ w -> d ∈ deps_of (demo_group None) id ->
       exists j w', j < i /\ waves !! j = Some w' /\ d ∈ w' /\
         id_succeeds (demo_run []) (demo_group None) d = true).
Proof.
  apply (dag_respects_dependencies (demo_run []) elements (fun l => l)).
  - apply elements_range.
  - reflexivity.
Defined.

Lemma min_rank (rank : string -> nat) (X : gset string) :
  X <> ∅ -> exists x, x ∈ X /\ forall y, y ∈ X -> rank x <= rank y.
Proof.
  intros HX. destruct (set_choose_L X HX) as [x0 Hx0].
  remember (rank x0) as n eqn:En. revert x0 Hx0 En.
  induction n as [n IH] using lt_wf_ind. intros x0 Hx0 ->.
  destruct (decide (Exists (fun y => rank y < rank x0) (elements X))) as [Hex|Hno].
  - apply Exists_exists in Hex as (y & Hy%elem_of_elements & Hlt). by apply (IH (rank y) Hlt y).
  - exists x0. split; [done|]. intros y Hy. apply not_Exists_Forall in Hno; [|apply _].
    rewrite Forall_forall in Hno. specialize (Hno y ltac:(by apply elem_of_elements)).
    simpl in Hno. lia.
Qed.

(** The dependencies name pipelines of the group and have no cycle. *)
Definition well_founded_group (g : PipelineGroup) : Prop :=
  exists rank : string -> nat, forall id d,
    id ∈ map ID (Pipelines g) -> d ∈ deps_of g id ->
    d ∈ map ID (Pipelines g) /\ rank d < rank id.

Lemma elem_of_waves (waves : list (list string)) id :
  id ∈ concat waves <-> exists w, w ∈ waves /\ id ∈ w.
Proof. setoid_rewrite list_elem_of_In. apply in_concat. Qed.

(** The number of the first wave a pipeline is in. *)
Definition wave_of (waves : list (list string)) (id : string) : nat :=
  default 0 (fst <$> list_find (fun w => id ∈ w) waves).

Lemma wave_of_first waves j w id : waves !! j = Some w -> id ∈ w -> wave_of waves id <= j.
Proof.
  intros Hj Hw. unfold wave_of.
  destruct (list_find (fun w => id ∈ w) waves) as [[i w']|] eqn:E.
  - apply list_find_Some in E as (_ & _ & Hmin). simpl.
    destruct (decide (i <= j)) as [|Hlt]; [done|]. exfalso. by apply (Hmin j w Hj); [lia|].
  - simpl. lia.
Qed.

Lemma wave_of_in waves id :
  id ∈ concat waves -> exists w, waves !! wave_of waves id = Some w /\ id ∈ w.
Proof.
  intros (w & Hw & Hin)%elem_of_waves. unfold wave_of.
  destruct (list_find_elem_of (fun w => id ∈ w) waves w) as [[i w'] E]; [done..|].
  rewrite E. simpl. apply list_find_Some in E as (? & ? & _). eauto.
Qed.

(** C26: Nothing cancels the run and every pipeline succeeds. Then a dependency-ordered run
    succeeds exactly when every dependency names a pipeline of the group and the
    dependencies have no cycle; otherwise it ends with the error of a circular dependency. *)
Theorem acyclic_dag_completes run range finish_order (g : PipelineGroup)
    (ex : PipelineGroupExecution) :
  (forall s, NoDup (range s) /\ forall x, x ∈ range s <-> x ∈ s) ->
  (forall l, finish_order l ≡ₚ l) ->
  (forall id, id ∈ map ID (Pipelines g) -> id_succeeds run g id = true) ->
  exists r ex' waves,
    runDAG run range finish_order g (fun _ => None) ex = Some (r, ex', waves) /\
    (r = Ok tt /\ well_founded_group g \/
     r = Err CircularDependency /\ ~ well_founded_group g).
Proof.
  intros Hrange Hfin Hall.
  destruct (runDAG_ok run range finish_order Hrange g Hfin (fun _ => None) ex)
    as (r & ex' & waves & completed & remaining & -> & [Hnd Hsplit Hdisj Hcomp Hord] & Hend).
  unfold ids in Hsplit. setoid_rewrite elem_of_list_to_set in Hsplit.
  exists r, ex', waves. split; [done|]. destruct Hend as [->|Hne Hstuck|i e Hd|id e Hid Hs].
  - left. split; [done|]. exists (wave_of waves). intros id d Hid Hd.
    apply Hsplit in Hid as [Hid|?]; [|set_solver].
    destruct (wave_of_in waves id Hid) as (w & Hw & Hin).
    destruct (Hord _ _ _ _ Hw Hin Hd) as (j & w' & Hj & Hw' & Hd' & _).
    pose proof (wave_of_first waves j w' d Hw' Hd'). split; [|lia].
    apply Hsplit. left. apply elem_of_waves. exists w'.
    split; [by eapply list_elem_of_lookup_2|done].
  - right. split; [done|]. intros [rank Hrank].
    destruct (min_rank rank remaining Hne) as (id & Hid & Hmin).
    assert (id ∈ to_run range g completed remaining) as Hin.
    { apply to_run_spec; [done|]. split; [done|]. intros d Hd.
      destruct (Hrank id d) as [Hdin Hlt]; [apply Hsplit; by right | done|].
      apply Hcomp. split; [|by apply Hall].
      apply Hsplit in Hdin as [?|Hrem]; [done|]. apply Hmin in Hrem. lia. }
    rewrite Hstuck in Hin. by apply elem_of_nil in Hin.
  - done.
  - unfold ids in Hid. rewrite elem_of_list_to_set in Hid. rewrite Hall in Hs; done.
Qed.

Lemma acyclic_dag_completes_witness :
  exists r ex' waves,
    runDAG (demo_run []) elements (fun l => l) (demo_group None) (fun _ => None)
      empty_execution = Some (r, ex', waves) /\
    (r = Ok tt /\ well_founded_group (demo_group None) \/
     r = Err CircularDependency /\ ~ well_founded_group (demo_group None)).
Proof.
  apply (acyclic_dag_completes (demo_run []) elements (fun l => l) (demo_group None)).
  - apply elements_range.
  - reflexivity.
  - intros id Hid. apply elem_of_cons in Hid as [->|Hid]; [reflexivity|].
    apply list_elem_of_singleton in Hid as ->. reflexivity.
Defined.

(** Under the policy continue, a failed pipeline makes the run report a circular
    dependency for its dependents, although the graph has no cycle: a failed
    pipeline is removed from the remaining ones but never counts as completed. *)
Theorem failed_dependency_reported_as_cycle range :
  (forall s, NoDup (range s) /\ forall x, x ∈ range s <-> x ∈ s) ->
  exists ex', runDAG (demo_run ["extract"]) range (fun l => l)
    (demo_group (Some FailureActionContinue)) (fun _ => None) empty_execution
  = Some (Err CircularDependency, ex', [["extract"]]).
Proof.
  intros Hrange. set (g := demo_group (Some FailureActionContinue)).
  assert (forall s id, s = {[id]} -> range s = [id]) as Hone.
  { intros s id ->. apply Permutation_singleton_r. apply NoDup_Permutation;
      [apply Hrange | apply NoDup_singleton|]. intros x. destruct (Hrange {[id]}) as [_ ->].
    set_solver. }
  assert (to_run range g ∅ (list_to_set (map ID (Pipelines g))) = ["extract"]) as H1.
  { apply Permutation_singleton_r, NoDup_Permutation;
      [by apply to_run_nodup | apply NoDup_singleton|]. intros x.
    rewrite to_run_spec by done. rewrite elem_of_list_to_set, list_elem_of_singleton. simpl. split.
    - intros [[->|[->|Hx%elem_of_nil]%elem_of_cons]%elem_of_cons Hdeps]; [|done..].
      by specialize (Hdeps "extract" ltac:(by left)).
    - intros ->. split; [set_solver|]. by intros d ?%elem_of_nil. }
  unfold runDAG. change (dag_fuel g) with 3. cbn [dag_loop].
  rewrite bool_decide_eq_false_2 by done.
  fold (to_run range g ∅ (list_to_set (map ID (Pipelines g)))). rewrite H1.
  cbv beta iota zeta. cbn [dag_loop].
  set (rem := list_to_set (map ID (Pipelines g)) ∖ list_to_set ["extract"] : gset string).
  assert (rem = {["load"]}) as Hrem by (vm_compute; reflexivity).
  rewrite Hrem. rewrite bool_decide_eq_false_2 by done.
  rewrite (Hone {["load"]} "load" eq_refl). eexists. vm_compute. reflexivity.
Qed.

Lemma failed_dependency_reported_as_cycle_witness :
  exists ex', runDAG (demo_run ["extract"]) elements (fun l => l)
    (demo_group (Some FailureActionContinue)) (fun _ => None) empty_execution
  = Some (Err CircularDependency, ex', [["extract"]]).
Proof. apply (failed_dependency_reported_as_cycle elements). apply elements_range. Defined.
