(* ===== verification/GroupLifecycle.v ===== *)
(** * The life of a group execution (pkg/executor/group_executor.go)

    The executor's state machine: [Start] and its goroutine, [Stop], [Pause] and
    [Resume]. [Start] allocates an execution record and stores a pointer to it in the
    executor; the goroutine of a run writes through that pointer, not through one of
    its own. The records are therefore modelled as a heap, with the pointer as an
    index into it. *)

From Stdlib Require Import String.
From S2P Require Import Prelude GoValue Stats GroupExecutor.
Local Open Scope string_scope.
Local Open Scope list_scope.

(** A run is numbered by the record its [Start] allocated. *)
Record GroupExecutor := MkExecutor {
  group : PipelineGroup;
  status : Status;
  heap : list PipelineGroupExecution;
  execution : option nat;
  cancelFunc : option nat;           (* the run whose context it cancels *)
  active : list nat;                 (* goroutines of [Start] that have not ended *)
  cancelled : list nat               (* runs whose context is cancelled *)
}.

Definition NewGroupExecutor (g : PipelineGroup) : GroupExecutor :=
  MkExecutor g StatusIdle [] None None [] [].

Inductive ExecutorError := ErrAlreadyRunning | ErrNotPaused.

(** The part of [Start] before its goroutine. *)
Definition Start (id triggeredBy : string) (now : Z) (e : GroupExecutor)
  : res ExecutorError (nat * GroupExecutor) :=
  if status e =? StatusRunning then Err ErrAlreadyRunning
  else
    let ex := MkExecution id (GroupID (group e)) StatusRunning now None None [] 0 0 None
                triggeredBy in
    let n := length (heap e) in
    Ok (n, MkExecutor (group e) StatusRunning (heap e ++ [ex]) (Some n) (Some n)
             (active e ++ [n]) (cancelled e)).

(** A write through [e.execution]. *)
Definition on_execution (f : PipelineGroupExecution -> PipelineGroupExecution)
  (e : GroupExecutor) : GroupExecutor :=
  match execution e with
  | None => e
  | Some i => MkExecutor (group e) (status e) (alter f i (heap e)) (execution e)
                (cancelFunc e) (active e) (cancelled e)
  end.

(** A pipeline of a run hands in its result. *)
Definition record_result (r : PipelineExecutionResult) (e : GroupExecutor) : GroupExecutor :=
  on_execution (fun ex => add_result ex r) e.

(** The end of the goroutine of a run. *)
Definition complete (now : Z) (err : option GroupError) (ex : PipelineGroupExecution)
  : PipelineGroupExecution :=
  MkExecution (ExecID ex) (WorkflowID ex)
    (match err with Some _ => StatusError | None => StatusCompleted end)
    (StartedAt ex) (Some now) (Some (now - StartedAt ex)%Z) (PipelineResults ex)
    (TotalRecords ex) (FailedRecords ex)
    (match err with Some e => Some e | None => ExecError ex end) (TriggeredBy ex).

Definition run_finished (run : nat) (now : Z) (err : option GroupError) (e : GroupExecutor)
  : GroupExecutor :=
  let e := on_execution (complete now err) e in
  MkExecutor (group e) (match err with Some _ => StatusError | None => StatusCompleted end)
    (heap e) (execution e) (cancelFunc e) (List.filter (fun i => negb (i =? run)%nat) (active e))
    (cancelled e).

Definition Stop (e : GroupExecutor) : GroupExecutor :=
  MkExecutor (group e) StatusStopped (heap e) (execution e) (cancelFunc e) (active e)
    (match cancelFunc e with Some i => cancelled e ++ [i] | None => cancelled e end).

Definition Pause (e : GroupExecutor) : GroupExecutor :=
  MkExecutor (group e) StatusPaused (heap e) (execution e) (cancelFunc e) (active e)
    (cancelled e).

Definition Resume (e : GroupExecutor) : res ExecutorError GroupExecutor :=
  if negb (status e =? StatusPaused) then Err ErrNotPaused
  else Ok (MkExecutor (group e) StatusRunning (heap e) (execution e) (cancelFunc e) (active e)
             (cancelled e)).

(** ** Interleavings *)

Inductive event :=
| EStart (id by_ : string) (now : Z)
| EResult (run : nat) (r : PipelineExecutionResult)
| EFinish (run : nat) (now : Z) (err : option GroupError)
| EStop
| EPause
| EResume.

(** [None] for an event of a run that is not active. *)
Definition apply_event (e : GroupExecutor) (ev : event) : option GroupExecutor :=
  match ev with
  | EStart id by_ now => Some (match Start id by_ now e with Ok (_, e') => e' | _ => e end)
  | EResult run r => if decide (run ∈ active e) then Some (record_result r e) else None
  | EFinish run now err => if decide (run ∈ active e) then Some (run_finished run now err e)
                           else None
  | EStop => Some (Stop e)
  | EPause => Some (Pause e)
  | EResume => Some (match Resume e with Ok e' => e' | _ => e end)
  end.

Fixpoint run_events (e : GroupExecutor) (evs : list event) : option GroupExecutor :=
  match evs with
  | [] => Some e
  | ev :: evs' => match apply_event e ev with
                  | Some e' => run_events e' evs'
                  | None => None
                  end
  end.

(** The results that the pipelines of a run hand in. *)
Definition results_of (run : nat) (evs : list event) : list PipelineExecutionResult :=
  omap (fun ev => match ev with
                  | EResult run' r => if (run' =? run)%nat then Some r else None
                  | _ => None
                  end) evs.

(** No accepted start overlaps a run. *)
Fixpoint one_at_a_time (e : GroupExecutor) (evs : list event) : bool :=
  match evs with
  | [] => true
  | ev :: evs' =>
      match ev with
      | EStart _ _ _ => (status e =? StatusRunning) || bool_decide (active e = [])
      | _ => true
      end &&
      match apply_event e ev with Some e' => one_at_a_time e' evs' | None => true end
  end.

(** ** One run at a time *)

Definition finished (ex : PipelineGroupExecution) : Prop :=
  CompletedAt ex <> None /\ (ExecStatus ex = StatusCompleted \/ ExecStatus ex = StatusError).

(** The totals of a record are those of its results. *)
Definition totals_ok (ex : PipelineGroupExecution) : Prop :=
  eqm (TotalRecords ex) (foldr (fun r acc => RecordsWritten r + acc)%Z 0%Z (PipelineResults ex)) /\
  eqm (FailedRecords ex) (foldr (fun r acc => ErrorCount r + acc)%Z 0%Z (PipelineResults ex)).

Record isolated (e : GroupExecutor) (seen : list event) : Prop := {
  iso_active : forall i, i ∈ active e -> execution e = Some i;
  iso_last : forall i, execution e = Some i -> S i = length (heap e);
  iso_results : forall i ex, heap e !! i = Some ex -> PipelineResults ex = results_of i seen;
  iso_fresh : forall i, length (heap e) <= i -> results_of i seen = [];
  iso_totals : forall i ex, heap e !! i = Some ex -> totals_ok ex;
  iso_finished : forall i ex, heap e !! i = Some ex -> i ∈ active e \/ finished ex
}.

Lemma results_of_app i a b : results_of i (a ++ b) = results_of i a ++ results_of i b.
Proof. unfold results_of. apply omap_app. Qed.

Lemma foldr_add_snoc (f : PipelineExecutionResult -> Z) l r :
  foldr (fun r acc => f r + acc)%Z 0%Z (l ++ [r])
  = (foldr (fun r acc => f r + acc) 0 l + f r)%Z.
Proof. induction l as [|x l IH]; simpl; [lia|]. rewrite IH. lia. Qed.

Lemma add_result_totals ex r : totals_ok ex -> totals_ok (add_result ex r).
Proof.
  intros [Ht Hf]. split; simpl; rewrite plus_eqm, foldr_add_snoc.
  - by rewrite Ht.
  - by rewrite Hf.
Qed.

(** An event that hands in no result and leaves the records alone. *)
Lemma isolated_same e e' seen ev :
  active e' = active e -> execution e' = execution e -> heap e' = heap e ->
  (forall i, results_of i [ev] = []) ->
  isolated e seen -> isolated e' (seen ++ [ev]).
Proof.
  intros Ha He Hh Hev [H1 H2 H3 H4 H5 H6].
  assert (forall i, results_of i (seen ++ [ev]) = results_of i seen) as Hr.
  { intros i. rewrite results_of_app, Hev. apply app_nil_r. }
  split; rewrite ?Ha, ?He, ?Hh; try done; intros i; rewrite Hr; eauto.
Qed.

Lemma Start_isolated e seen id by_ now :
  active e = [] -> isolated e seen ->
  isolated (match Start id by_ now e with Ok (_, e') => e' | _ => e end)
    (seen ++ [EStart id by_ now]).
Proof.
  intros Ha Hi. unfold Start. destruct (status e =? StatusRunning).
  { by apply (isolated_same e). }
  assert (forall i, results_of i (seen ++ [EStart id by_ now]) = results_of i seen) as Hr.
  { intros i. rewrite results_of_app. apply app_nil_r. }
  destruct Hi as [H1 H2 H3 H4 H5 H6].
  split; simpl; rewrite ?Ha; rewrite ?length_app; simpl.
  - intros i ->%list_elem_of_singleton. done.
  - intros i [= <-]. lia.
  - intros i ex [[_ Hl]|[-> <-]]%lookup_snoc_Some; rewrite Hr; [by apply H3|]. by rewrite H4.
  - intros i Hi. rewrite Hr. apply H4. lia.
  - intros i ex [[_ Hl]|[_ <-]]%lookup_snoc_Some; [by eapply H5 | by split].
  - intros i ex [[_ Hl]|[-> _]]%lookup_snoc_Some.
    + right. destruct (H6 i ex Hl) as [Hin|]; [|done]. rewrite Ha in Hin. by apply elem_of_nil in Hin.
    + left. by apply list_elem_of_singleton.
Qed.

Lemma record_result_isolated e seen run r :
  run ∈ active e -> isolated e seen -> isolated (record_result r e) (seen ++ [EResult run r]).
Proof.
  intros Hrun [H1 H2 H3 H4 H5 H6]. unfold record_result, on_execution. rewrite (H1 run Hrun).
  assert (forall i, results_of i (seen ++ [EResult run r])
    = results_of i seen ++ if (run =? i)%nat then [r] else []) as Hr.
  { intros i. rewrite results_of_app. f_equal. unfold results_of. simpl.
    by destruct (run =? i)%nat. }
  split; simpl; rewrite ?length_alter.
  - intros i Hi. rewrite <- (H1 i Hi). symmetry. by apply H1.
  - intros i [= <-]. by apply H2, H1.
  - intros i ex. rewrite Hr. destruct (Nat.eqb_spec run i) as [->|Hne].
    + rewrite list_lookup_alter_eq. intros (ex0 & Hl & ->)%fmap_Some. simpl.
      by rewrite (H3 i ex0 Hl).
    + rewrite list_lookup_alter_ne, app_nil_r by done. apply H3.
  - intros i Hi. rewrite Hr, (H4 i Hi). destruct (Nat.eqb_spec run i) as [->|]; [|done].
    specialize (H2 i (H1 i Hrun)). lia.
  - intros i ex. destruct (decide (run = i)) as [->|Hne].
    + rewrite list_lookup_alter_eq. intros (ex0 & Hl & ->)%fmap_Some.
      by apply add_result_totals, (H5 i).
    + rewrite list_lookup_alter_ne by done. apply H5.
  - intros i ex. destruct (decide (run = i)) as [->|Hne]; [by left|].
    rewrite list_lookup_alter_ne by done. apply H6.
Qed.

Lemma run_finished_isolated e seen run now err :
  run ∈ active e -> isolated e seen ->
  isolated (run_finished run now err e) (seen ++ [EFinish run now err]).
Proof.
  intros Hrun [H1 H2 H3 H4 H5 H6]. unfold run_finished, on_execution. rewrite (H1 run Hrun).
  assert (forall i, results_of i (seen ++ [EFinish run now err]) = results_of i seen) as Hr.
  { intros i. rewrite results_of_app. apply app_nil_r. }
  assert (forall i ex, alter (complete now err) run (heap e) !! i = Some ex ->
    exists ex0, heap e !! i = Some ex0 /\
      ex = if decide (run = i) then complete now err ex0 else ex0) as Hal.
  { intros i ex. destruct (decide (run = i)) as [->|Hne].
    - rewrite list_lookup_alter_eq. intros (ex0 & Hl & ->)%fmap_Some. eauto.
    - rewrite list_lookup_alter_ne by done. eauto. }
  split; simpl; rewrite ?length_alter.
  - intros i [Hi _]%elem_of_bfilter. rewrite <- (H1 i Hi). symmetry. by apply H1.
  - intros i [= <-]. by apply H2, H1.
  - intros i ex (ex0 & Hl & ->)%Hal. rewrite Hr, <- (H3 i ex0 Hl). by destruct (decide _).
  - intros i Hi. rewrite Hr. by apply H4.
  - intros i ex (ex0 & Hl & ->)%Hal. specialize (H5 i ex0 Hl). by destruct (decide _).
  - intros i ex (ex0 & Hl & ->)%Hal. right. destruct (decide (run = i)) as [->|Hne].
    + split; [done|]. simpl. destruct err; auto.
    + destruct (H6 i ex0 Hl) as [Hi|]; [|done].
      specialize (H1 i Hi) as E1. rewrite (H1 run Hrun) in E1. by simplify_eq.
Qed.

Lemma apply_event_isolated e e' seen ev :
  apply_event e ev = Some e' -> isolated e seen -> one_at_a_time e [ev] = true ->
  isolated e' (seen ++ [ev]).
Proof.
  intros Hev Hi Hone. destruct ev as [id by_ now|run r|run now err| | |]; simpl in Hev.
  - injection Hev as <-. simpl in Hone. rewrite andb_true_r in Hone.
    destruct (status e =? StatusRunning) eqn:Es; simpl in Hone.
    + unfold Start. rewrite Es. by apply (isolated_same e).
    + apply Start_isolated; [|done]. by apply bool_decide_eq_true in Hone.
  - destruct (decide _); [|done]. injection Hev as <-. by apply record_result_isolated.
  - destruct (decide _); [|done]. injection Hev as <-. by apply run_finished_isolated.
  - injection Hev as <-. by apply (isolated_same e).
  - injection Hev as <-. by apply (isolated_same e).
  - injection Hev as <-. unfold Resume. destruct (negb _); by apply (isolated_same e).
Qed.

Lemma run_events_isolated evs e e' seen :
  run_events e evs = Some e' -> one_at_a_time e evs = true -> isolated e seen ->
  isolated e' (seen ++ evs).
Proof.
  revert e seen. induction evs as [|ev evs IH]; intros e seen Hrun Hone Hi.
  { injection Hrun as <-. by rewrite app_nil_r. }
  simpl in Hrun. destruct (apply_event e ev) as [e1|] eqn:Ev; [|done].
  cbn [one_at_a_time] in Hone. rewrite Ev in Hone.
  apply andb_true_iff in Hone as [Hst Hone].
  replace (seen ++ ev :: evs) with ((seen ++ [ev]) ++ evs) by by rewrite <- app_assoc.
  apply (IH e1); [done..|]. eapply apply_event_isolated; [done..|].
  cbn [one_at_a_time]. by rewrite Hst, Ev.
Qed.

(** C23: As long as no start is accepted while a run is still going on, every
    execution record holds exactly the results that the pipelines of its own run
    handed in, with totals that add up to them (modulo the width of the counters),
    and a record whose run has ended is marked completed or failed. *)
Theorem runs_are_isolated (g : PipelineGroup) (evs : list event) (e : GroupExecutor) :
  run_events (NewGroupExecutor g) evs = Some e ->
  one_at_a_time (NewGroupExecutor g) evs = true ->
  forall i ex, heap e !! i = Some ex ->
    PipelineResults ex = results_of i evs /\ totals_ok ex /\ (i ∉ active e -> finished ex).
Proof.
  intros Hrun Hone i ex Hl.
  destruct (run_events_isolated evs (NewGroupExecutor g) e [] Hrun Hone) as [_ _ H3 _ H5 H6].
  { split; simpl; try done. intros i'. by rewrite elem_of_nil. }
  split; [by apply H3|]. split; [by eapply H5|]. intros Hni. by destruct (H6 i ex Hl).
Qed.

Definition demo_result (n : Z) : PipelineExecutionResult :=
  MkResult "p" "p" "completed" n n 0 "" (GetStatistics (NewStatsCollector "p" "p" 0)).

Definition two_runs : list event :=
  [EStart "a" "user" 1; EResult 0 (demo_result 3); EStart "x" "user" 2; EFinish 0 5 None;
   EStart "b" "user" 6; EResult 1 (demo_result 4)].

Lemma runs_are_isolated_witness :
  match run_events (NewGroupExecutor (demo_group None)) two_runs with
  | Some e => forall i ex, heap e !! i = Some ex ->
      PipelineResults ex = results_of i two_runs /\ totals_ok ex /\ (i ∉ active e -> finished ex)
  | None => False
  end.
Proof.
  destruct (run_events (NewGroupExecutor (demo_group None)) two_runs) as [e|] eqn:E.
  - apply (runs_are_isolated (demo_group None) two_runs e E). vm_compute. reflexivity.
  - vm_compute in E. congruence.
Defined.

(** The status does not keep runs apart. After a pause, or after a stop whose run
    has not ended yet, a second start is accepted; the first run then writes its
    results into the record of the second one, and its end marks that record as
    completed while its own stays running for ever. *)
Theorem overlapping_runs_share_a_record (g : PipelineGroup) (r : PipelineExecutionResult)
    (ev : event) :
  ev = EPause \/ ev = EStop ->
  exists e, run_events (NewGroupExecutor g)
      [EStart "a" "user" 1; ev; EStart "b" "user" 2; EResult 0 r; EFinish 0 3 None] = Some e /\
    active e = [1] /\ status e = StatusCompleted /\
    (exists ex, heap e !! 0 = Some ex /\ ExecStatus ex = StatusRunning /\ PipelineResults ex = []) /\
    (exists ex, heap e !! 1 = Some ex /\ ExecStatus ex = StatusCompleted /\ PipelineResults ex = [r]).
Proof. intros [->| ->]; eexists; (split; [reflexivity|]); repeat split; eexists; done. Qed.

Lemma overlapping_runs_share_a_record_witness :
  exists e, run_events (NewGroupExecutor (demo_group None))
      [EStart "a" "user" 1; EPause; EStart "b" "user" 2; EResult 0 (demo_result 7);
       EFinish 0 3 None] = Some e /\
    active e = [1] /\ status e = StatusCompleted /\
    (exists ex, heap e !! 0 = Some ex /\ ExecStatus ex = StatusRunning /\ PipelineResults ex = []) /\
    (exists ex, heap e !! 1 = Some ex /\ ExecStatus ex = StatusCompleted /\
       PipelineResults ex = [demo_result 7]).
Proof. apply (overlapping_runs_share_a_record (demo_group None) (demo_result 7)). left. reflexivity. Defined.
