(* ===== verification/ConfigV2.v ===== *)
(** * Pipeline configurations of version 2 (pkg/config/v2_config.go)

    The configuration records and [Validate], which both checks a configuration and
    fills in defaults. It assigns to the configuration as it goes, also on paths that
    end in an error: the model returns the configuration it leaves behind next to the
    result. *)

From Stdlib Require Import String SpecFloat.
From S2P Require Import Prelude GoString GoValue GoTime.
Local Open Scope string_scope.
Local Open Scope list_scope.

Definition PipelineMode := string.
Definition ModeBatch : PipelineMode := "batch".
Definition ModeRealtime : PipelineMode := "realtime".

Record IncrementalConfig := MkIncremental { IncColumn : string; StateKey : string }.

Record AuthConfig := MkAuth {
  AuthType : string;
  AuthUsername : string;
  AuthPassword : string;
  Token : string;
  ClientID : string;
  ClientSecret : string;
  TokenURL : string;
  Scopes : list string
}.

Record PaginationConfig := MkPagination {
  PageType : string;
  NextField : string;
  DataField : string;
  MaxPages : Z
}.

Record SourceV2 := MkSource {
  SrcType : string;
  Path : string;
  Paths : list string;
  Format : string;
  Driver : string;
  DSN : string;
  Query : string;
  Params : list string;
  Incremental : option IncrementalConfig;
  URL : string;
  Method : string;
  Headers : gmap string string;
  Body : string;
  Auth : option AuthConfig;
  Pagination : option PaginationConfig;
  Brokers : list string;
  Topics : list string;
  ConsumerGroup : string;                    (* GroupID *)
  StartOffset : string;
  MinBytes : Z;
  MaxBytes : Z;
  MaxWait : Z;
  CommitInterval : Z;
  Table : string;
  IDColumn : string;
  TimestampColumn : string;
  Columns : list string;
  Where : string;
  OrderBy : string;
  BatchSize : Z;
  PollInterval : Z;
  Host : string;
  Port : Z;
  Username : string;
  Password : string;
  Database : string;
  Tables : list string;
  ServerID : Z;
  SlotName : string
}.

Record RealtimeConfig := MkRealtime {
  IDField : string;
  EventTypeField : string;
  EntityIDField : string;
  DedupStorage : string;
  DedupTTL : string
}.

(** The structured filter of a step, as the configuration declares it. *)
Record FilterCondition := MkFilterCondition {
  CondID : string;
  CondField : string;
  CondOp : string;
  CondValue : GoValue
}.

Inductive FilterNode := MkFilterNode {
  NodeType : string;
  NodeCondition : option FilterCondition;
  NodeGroup : option FilterGroup
}
with FilterGroup := MkFilterGroup {
  GroupNodeID : string;
  GroupOperator : string;
  GroupConditions : list FilterNode
}.

Record FilterConfig := MkFilterConfig { Expression : string; Root : option FilterNode }.

Definition FilterConfig_IsEmpty (fc : FilterConfig) : bool :=
  (Expression fc =? "") && match Root fc with None => true | Some _ => false end.

Definition FilterConfig_GetExpression (fc : FilterConfig) : string :=
  if negb (Expression fc =? "") then Expression fc else "".

Record StepV2 := MkStep {
  StepName : string;
  StepTransform : string;
  StepFilter : FilterConfig;
  StepSample : spec_float;
  StepSelect : list string;
  StepExclude : list string
}.

Record MetricsOutputConfig := MkMetricsOutput { MetricsEnabled : bool; MetricsPrefix : string }.
Record CallbackConfig := MkCallback { CallbackEnabled : bool; CallbackURL : string }.

Record OutputConfig := MkOutput {
  OutType : string;
  LogLevel : string;
  LogFormat : string;
  OutMetrics : option MetricsOutputConfig;
  OutCallback : option CallbackConfig
}.

Record PipelineConfigV2 := MkPipelineConfig {
  CfgName : string;
  CfgMode : PipelineMode;
  CfgSource : SourceV2;
  CfgRealtime : option RealtimeConfig;
  CfgSteps : list StepV2;
  CfgOutput : OutputConfig
}.

Definition IsBatch (c : PipelineConfigV2) : bool := CfgMode c =? ModeBatch.
Definition IsRealtime (c : PipelineConfigV2) : bool := CfgMode c =? ModeRealtime.

Inductive ConfigError :=
| NameRequired
| InvalidMode (mode : string)
| SourceError (what : string)
| AuthError (what : string)
| RealtimeError (what : string).

(** ** Assignments *)

Definition set_source (c : PipelineConfigV2) (s : SourceV2) : PipelineConfigV2 :=
  MkPipelineConfig (CfgName c) (CfgMode c) s (CfgRealtime c) (CfgSteps c) (CfgOutput c).
Definition set_mode (c : PipelineConfigV2) (m : PipelineMode) : PipelineConfigV2 :=
  MkPipelineConfig (CfgName c) m (CfgSource c) (CfgRealtime c) (CfgSteps c) (CfgOutput c).
Definition set_output_type (c : PipelineConfigV2) (t : string) : PipelineConfigV2 :=
  let o := CfgOutput c in
  MkPipelineConfig (CfgName c) (CfgMode c) (CfgSource c) (CfgRealtime c) (CfgSteps c)
    (MkOutput t (LogLevel o) (LogFormat o) (OutMetrics o) (OutCallback o)).

(** The fields of a source that get defaults. *)
Definition set_defaults (s : SourceV2) (format method group id_column : string)
  (batch poll port server : Z) : SourceV2 :=
  MkSource (SrcType s) (Path s) (Paths s) format (Driver s) (DSN s) (Query s) (Params s)
    (Incremental s) (URL s) method (Headers s) (Body s) (Auth s) (Pagination s) (Brokers s)
    (Topics s) group (StartOffset s) (MinBytes s) (MaxBytes s) (MaxWait s) (CommitInterval s)
    (Table s) id_column (TimestampColumn s) (Columns s) (Where s) (OrderBy s) batch poll
    (Host s) port (Username s) (Password s) (Database s) (Tables s) server (SlotName s).

Definition set_format (s : SourceV2) (v : string) : SourceV2 :=
  set_defaults s v (Method s) (ConsumerGroup s) (IDColumn s) (BatchSize s) (PollInterval s)
    (Port s) (ServerID s).
Definition set_method (s : SourceV2) (v : string) : SourceV2 :=
  set_defaults s (Format s) v (ConsumerGroup s) (IDColumn s) (BatchSize s) (PollInterval s)
    (Port s) (ServerID s).
Definition set_group (s : SourceV2) (v : string) : SourceV2 :=
  set_defaults s (Format s) (Method s) v (IDColumn s) (BatchSize s) (PollInterval s)
    (Port s) (ServerID s).
Definition set_polling (s : SourceV2) (id_column : string) (batch poll : Z) : SourceV2 :=
  set_defaults s (Format s) (Method s) (ConsumerGroup s) id_column batch poll
    (Port s) (ServerID s).
Definition set_cdc (s : SourceV2) (port server : Z) : SourceV2 :=
  set_defaults s (Format s) (Method s) (ConsumerGroup s) (IDColumn s) (BatchSize s)
    (PollInterval s) port server.

(** ** Validation *)

Definition empty (s : string) : bool := s =? "".
Definition nil {A} (l : list A) : bool := match l with [] => true | _ => false end.
Definition or_default (s d : string) : string := if empty s then d else s.

Definition validateAuth (auth : AuthConfig) : res ConfigError unit :=
  if AuthType auth =? "basic" then
    if empty (AuthUsername auth) || empty (AuthPassword auth)
    then Err (AuthError "basic auth requires username and password") else Ok tt
  else if AuthType auth =? "bearer" then
    if empty (Token auth) then Err (AuthError "bearer auth requires token") else Ok tt
  else if AuthType auth =? "oauth2" then
    if empty (ClientID auth) || empty (ClientSecret auth) || empty (TokenURL auth)
    then Err (AuthError "oauth2 requires client_id, client_secret, and token_url") else Ok tt
  else Err (AuthError ("unsupported auth type: " +:+ AuthType auth)).

(** [validateSource], on the name and the source of the configuration. *)
Definition validateSource (name : string) (s : SourceV2) : res ConfigError unit * SourceV2 :=
  let fail what := (Err (SourceError what), s) in
  if SrcType s =? "file" then
    if empty (Path s) && nil (Paths s) then fail "file path is required"
    else (Ok tt, set_format s (or_default (Format s) "json"))
  else if SrcType s =? "sql" then
    if empty (Driver s) then fail "sql driver is required"
    else if empty (DSN s) then fail "sql dsn is required"
    else if empty (Query s) then fail "sql query is required"
    else (Ok tt, s)
  else if (SrcType s =? "http") || (SrcType s =? "rest_api") then
    if empty (URL s) then fail "http url is required"
    else
      let s' := set_method s (or_default (Method s) "GET") in
      match Auth s' with
      | None => (Ok tt, s')
      | Some auth => (validateAuth auth, s')
      end
  else if SrcType s =? "kafka" then
    if nil (Brokers s) then fail "kafka brokers are required"
    else if nil (Topics s) then fail "kafka topics are required"
    else (Ok tt, set_group s (or_default (ConsumerGroup s) (name +:+ "-consumer")))
  else if SrcType s =? "sql_event" then
    if empty (Driver s) then fail "sql_event driver is required"
    else if empty (DSN s) then fail "sql_event dsn is required"
    else if empty (Table s) then fail "sql_event table is required"
    else (Ok tt, set_polling s (or_default (IDColumn s) "id")
                   (if (BatchSize s <=? 0)%Z then 1000 else BatchSize s)%Z
                   (if (PollInterval s <=? 0)%Z then 1000 else PollInterval s)%Z)
  else if SrcType s =? "cdc" then
    if empty (Driver s) then fail "cdc driver is required (mysql or postgres)"
    else if empty (Host s) then fail "cdc host is required"
    else if empty (Username s) then fail "cdc username is required"
    else
      let port := if (Port s <=? 0)%Z
                  then if Driver s =? "mysql" then 3306%Z
                       else if Driver s =? "postgres" then 5432%Z else Port s
                  else Port s in
      (Ok tt, set_cdc s port (if (ServerID s =? 0)%Z then 101 else ServerID s)%Z)
  else fail ("unsupported source type: " +:+ SrcType s).

Definition validateRealtime (r : option RealtimeConfig)
  : res ConfigError unit * option RealtimeConfig :=
  match r with
  | None => (Err (RealtimeError "realtime config is required for realtime mode"), None)
  | Some r =>
      if empty (IDField r)
      then (Err (RealtimeError "id_field is required for deduplication"), Some r)
      else
        let r' := MkRealtime (IDField r) (EventTypeField r) (EntityIDField r)
                    (or_default (DedupStorage r) "memory") (or_default (DedupTTL r) "24h") in
        match ParseDuration (DedupTTL r') with
        | None => (Err (RealtimeError "invalid dedup_ttl format"), Some r')
        | Some _ => (Ok tt, Some r')
        end
  end.

Definition Validate (c : PipelineConfigV2) : res ConfigError unit * PipelineConfigV2 :=
  if empty (CfgName c) then (Err NameRequired, c)
  else
    let c := set_mode c (or_default (CfgMode c) ModeBatch) in
    if negb (CfgMode c =? ModeBatch) && negb (CfgMode c =? ModeRealtime)
    then (Err (InvalidMode (CfgMode c)), c)
    else
      let '(r, s) := validateSource (CfgName c) (CfgSource c) in
      let c := set_source c s in
      match r with
      | Err e => (Err e, c)
      | Panic => (Panic, c)
      | Ok _ =>
          let '(r, rt) := if CfgMode c =? ModeRealtime then validateRealtime (CfgRealtime c)
                          else (Ok tt, CfgRealtime c) in
          let c := MkPipelineConfig (CfgName c) (CfgMode c) (CfgSource c) rt (CfgSteps c)
                     (CfgOutput c) in
          match r with
          | Err e => (Err e, c)
          | Panic => (Panic, c)
          | Ok _ => (Ok tt, set_output_type c (or_default (OutType (CfgOutput c)) "stub"))
          end
      end.

(** ** What a configuration must have *)

Inductive valid_auth (a : AuthConfig) : Prop :=
| auth_basic : AuthType a = "basic" -> AuthUsername a <> "" -> AuthPassword a <> "" -> valid_auth a
| auth_bearer : AuthType a = "bearer" -> Token a <> "" -> valid_auth a
| auth_oauth2 : AuthType a = "oauth2" -> ClientID a <> "" -> ClientSecret a <> "" ->
    TokenURL a <> "" -> valid_auth a.

Inductive valid_source (s : SourceV2) : Prop :=
| src_file : SrcType s = "file" -> Path s <> "" \/ Paths s <> [] -> valid_source s
| src_sql : SrcType s = "sql" -> Driver s <> "" -> DSN s <> "" -> Query s <> "" -> valid_source s
| src_http : SrcType s = "http" \/ SrcType s = "rest_api" -> URL s <> "" ->
    (forall a, Auth s = Some a -> valid_auth a) -> valid_source s
| src_kafka : SrcType s = "kafka" -> Brokers s <> [] -> Topics s <> [] -> valid_source s
| src_sql_event : SrcType s = "sql_event" -> Driver s <> "" -> DSN s <> "" -> Table s <> "" ->
    valid_source s
| src_cdc : SrcType s = "cdc" -> Driver s <> "" -> Host s <> "" -> Username s <> "" ->
    valid_source s.

Definition valid_realtime (r : RealtimeConfig) : Prop :=
  IDField r <> "" /\ ParseDuration (or_default (DedupTTL r) "24h") <> None.

Record valid_config (c : PipelineConfigV2) : Prop := {
  vc_name : CfgName c <> "";
  vc_mode : CfgMode c = "" \/ CfgMode c = ModeBatch \/ CfgMode c = ModeRealtime;
  vc_source : valid_source (CfgSource c);
  vc_realtime : CfgMode c = ModeRealtime ->
    exists r, CfgRealtime c = Some r /\ valid_realtime r
}.

(** What the rest of the program may rely on after validation. *)
Record source_ready (s : SourceV2) : Prop := {
  sr_format : SrcType s = "file" -> Format s <> "";
  sr_method : SrcType s = "http" \/ SrcType s = "rest_api" -> Method s <> "";
  sr_group : SrcType s = "kafka" -> ConsumerGroup s <> "";
  sr_polling : SrcType s = "sql_event" ->
    IDColumn s <> "" /\ (0 < BatchSize s)%Z /\ (0 < PollInterval s)%Z;
  sr_cdc : SrcType s = "cdc" -> ServerID s <> 0%Z /\
    (Driver s = "mysql" \/ Driver s = "postgres" -> (0 < Port s)%Z)
}.

Record config_ready (c : PipelineConfigV2) : Prop := {
  cr_mode : CfgMode c = ModeBatch \/ CfgMode c = ModeRealtime;
  cr_source : source_ready (CfgSource c);
  cr_realtime : CfgMode c = ModeRealtime -> exists r ttl,
    CfgRealtime c = Some r /\ IDField r <> "" /\ DedupStorage r <> "" /\
    ParseDuration (DedupTTL r) = Some ttl;
  cr_output : OutType (CfgOutput c) <> ""
}.

(** ** Proofs *)

Lemma empty_spec s : reflect (s = "") (empty s).
Proof. apply String.eqb_spec. Qed.

Lemma nil_spec {A} (l : list A) : reflect (l = []) (nil l).
Proof. by destruct l; constructor. Qed.

Lemma or_default_ne s d : d <> "" -> or_default s d <> "".
Proof. unfold or_default. by destruct (empty_spec s). Qed.

Lemma or_default_idem s d : or_default (or_default s d) d = or_default s d.
Proof. unfold or_default. destruct (empty_spec s) as [->|Hs].
  - destruct (empty_spec d); done.
  - destruct (empty_spec s); done. Qed.

(** Case analysis on the tests of the validators. *)
Ltac decide_tests :=
  repeat match goal with
  | |- context [?a =? ?b] => destruct (String.eqb_spec a b)
  | |- context [empty ?s] => destruct (empty_spec s)
  | |- context [nil ?l] => destruct (nil_spec l)
  end; simpl.

Lemma validateAuth_spec a :
  validateAuth a <> Panic /\ (validateAuth a = Ok tt <-> valid_auth a).
Proof.
  unfold validateAuth. decide_tests; (split; [done|]); (split; [intros|]);
    try done; try (intros []; congruence); eauto using valid_auth.
Qed.

Definition source_types : list string :=
  ["file"; "sql"; "http"; "rest_api"; "kafka"; "sql_event"; "cdc"].

Lemma valid_source_type s : valid_source s -> SrcType s ∈ source_types.
Proof.
  unfold source_types. rewrite !elem_of_cons.
  intros [?|?|[?|?]|?|?|?]; tauto.
Qed.

Lemma validateSource_result name s :
  fst (validateSource name s) <> Panic /\
  (fst (validateSource name s) = Ok tt <-> valid_source s).
Proof.
  unfold validateSource.
  destruct (decide (SrcType s ∈ source_types)) as [Ht|Ht].
  - unfold source_types in Ht. rewrite !elem_of_cons, elem_of_nil in Ht.
    destruct Ht as [E|[E|[E|[E|[E|[E|[E|[]]]]]]]]; rewrite E; simpl;
      try (destruct (Auth s) as [a|] eqn:Ea; simpl;
           [destruct (validateAuth_spec a) as [Hp Ha]|]);
      repeat match goal with
      | |- context [empty ?s] => destruct (empty_spec s)
      | |- context [nil ?l] => destruct (nil_spec l)
      end; simpl; (split; [done|]); (split; [intros Hok|]);
      try done; try (intros []; naive_solver congruence);
      try (apply Ha in Hok); eauto 6 using valid_source;
      eapply src_http; naive_solver.
  - assert (forall t, t ∈ source_types -> (SrcType s =? t) = false) as Hne.
    { intros t Hin. apply String.eqb_neq. intros E. by rewrite E in Ht. }
    rewrite !Hne by (unfold source_types; set_solver). simpl. split; [done|].
    split; [done|]. by intros ?%valid_source_type.
Qed.

(** Splitting the tests without losing their values, for a second validation. *)
Ltac same_tests :=
  repeat match goal with
  | |- context [empty ?s] => destruct (empty s) eqn:?; simpl; [done|]
  | |- context [nil ?l] => destruct (nil l) eqn:?; simpl; [done|]
  end.

(** The same tests have the same values the second time. *)
Ltac again :=
  repeat match goal with
  | H : empty _ = false |- _ => progress rewrite !H
  | H : nil _ = false |- _ => progress rewrite !H
  end; cbv iota.

(** The source after validation: it passes again unchanged, and it is ready. *)
Definition stable_source (name : string) (s : SourceV2) : Prop :=
  validateSource name s = (Ok tt, s) /\ source_ready s.

Ltac ready E := split; simpl; rewrite ?E; try done; try (by intros []).

Lemma file_stable name s :
  SrcType s = "file" -> fst (validateSource name s) = Ok tt ->
  stable_source name (snd (validateSource name s)).
Proof.
  intros E. unfold stable_source, validateSource. rewrite E. simpl.
  destruct (empty (Path s) && nil (Paths s)) eqn:Ep; simpl; [done|]. intros _. rewrite E, Ep. simpl.
  rewrite or_default_idem. split; [done|]. ready E. intros _. by apply or_default_ne.
Qed.

Lemma sql_stable name s :
  SrcType s = "sql" -> fst (validateSource name s) = Ok tt ->
  stable_source name (snd (validateSource name s)).
Proof.
  intros E. unfold stable_source, validateSource. rewrite E. simpl. same_tests. intros _.
  rewrite E. simpl. again. split; [done|]. ready E.
Qed.

Lemma http_stable name s :
  SrcType s = "http" \/ SrcType s = "rest_api" -> fst (validateSource name s) = Ok tt ->
  stable_source name (snd (validateSource name s)).
Proof.
  intros E. unfold stable_source, validateSource.
  assert ((SrcType s =? "file") = false /\ (SrcType s =? "sql") = false /\
    ((SrcType s =? "http") || (SrcType s =? "rest_api")) = true) as (E1 & E2 & E3)
    by (destruct E as [-> | ->]; done).
  rewrite E1, E2, E3. destruct (empty (URL s)) eqn:Eu; simpl; [done|].
  assert (source_ready (set_method s (or_default (Method s) "GET"))) as Hr.
  { destruct E as [E|E]; ready E; intros _; by apply or_default_ne. }
  destruct (Auth s) as [a|] eqn:Ea; simpl.
  - intros Ha. rewrite E1, E2, E3, Eu. simpl. rewrite or_default_idem, Ea, Ha. done.
  - intros _. rewrite E1, E2, E3, Eu. simpl. rewrite or_default_idem, Ea. done.
Qed.

Lemma kafka_stable name s :
  SrcType s = "kafka" -> fst (validateSource name s) = Ok tt ->
  stable_source name (snd (validateSource name s)).
Proof.
  intros E. unfold stable_source, validateSource. rewrite E. simpl. same_tests. intros _.
  rewrite E. simpl. again. rewrite or_default_idem. split; [done|]. ready E.
  intros _. apply or_default_ne. by destruct name.
Qed.

Lemma sql_event_stable name s :
  SrcType s = "sql_event" -> fst (validateSource name s) = Ok tt ->
  stable_source name (snd (validateSource name s)).
Proof.
  intros E. unfold stable_source, validateSource. rewrite E. simpl. same_tests. intros _.
  rewrite E. simpl. again. rewrite or_default_idem.
  assert (forall n, (if (if n <=? 0 then 1000 else n) <=? 0 then 1000
    else if n <=? 0 then 1000 else n) = if n <=? 0 then 1000 else n)%Z as Hd.
  { intros n. destruct (Z.leb_spec n 0); [done|]. by destruct (Z.leb_spec n 0); [lia|]. }
  rewrite !Hd. split; [done|]. ready E. intros _. split; [by apply or_default_ne|].
  destruct (Z.leb_spec (BatchSize s) 0), (Z.leb_spec (PollInterval s) 0); lia.
Qed.

Lemma cdc_stable name s :
  SrcType s = "cdc" -> fst (validateSource name s) = Ok tt ->
  stable_source name (snd (validateSource name s)).
Proof.
  intros E. unfold stable_source, validateSource. rewrite E. simpl. same_tests. intros _.
  rewrite E. simpl. again.
  destruct (Z.leb_spec (Port s) 0) as [Hp|Hp];
    destruct (String.eqb_spec (Driver s) "mysql"), (String.eqb_spec (Driver s) "postgres");
    destruct (Z.eqb_spec (ServerID s) 0); simpl;
    repeat match goal with
    | |- context [(?a <=? ?b)%Z] => destruct (Z.leb_spec a b); try lia
    | |- context [(?a =? ?b)%Z] => destruct (Z.eqb_spec a b); try lia
    end; (split; [done|]); ready E; intros _; split; try done; try lia; intros [?|?]; congruence.
Qed.

Lemma validateSource_stable name s :
  fst (validateSource name s) = Ok tt -> stable_source name (snd (validateSource name s)).
Proof.
  intros Hok. pose proof Hok as Hv. apply validateSource_result in Hv.
  destruct Hv; eauto using file_stable, sql_stable, http_stable, kafka_stable, sql_event_stable,
    cdc_stable.
Qed.

Lemma validateRealtime_spec r :
  fst (validateRealtime r) <> Panic /\
  (fst (validateRealtime r) = Ok tt <-> exists r0, r = Some r0 /\ valid_realtime r0) /\
  (fst (validateRealtime r) = Ok tt ->
   validateRealtime (snd (validateRealtime r)) = (Ok tt, snd (validateRealtime r)) /\
   exists r' ttl, snd (validateRealtime r) = Some r' /\ IDField r' <> "" /\
     DedupStorage r' <> "" /\ ParseDuration (DedupTTL r') = Some ttl).
Proof.
  unfold validateRealtime, valid_realtime. destruct r as [r|]; simpl.
  2:{ split; [done|]. split; [|done]. split; [done|]. by intros (? & ? & _). }
  destruct (empty_spec (IDField r)) as [E|E]; simpl.
  { split; [done|]. split; [|done]. split; [done|]. intros (? & [= <-] & ? & _). done. }
  destruct (ParseDuration (or_default (DedupTTL r) "24h")) as [ttl|] eqn:Et; simpl;
    (split; [done|]); (split; [split; [|naive_solver] | ]); try done.
  - intros _. exists r. by rewrite Et.
  - intros _. destruct (empty_spec (IDField r)); [done|]. rewrite !or_default_idem, Et.
    split; [done|]. eexists _, _. split; [done|]. split; [done|].
    split; [by apply or_default_ne | done].
Qed.

(** [Validate] after the mode is settled. *)
Definition validate_rest (c : PipelineConfigV2) : res ConfigError unit * PipelineConfigV2 :=
  let '(r, s) := validateSource (CfgName c) (CfgSource c) in
  let '(r', rt) := if CfgMode c =? ModeRealtime then validateRealtime (CfgRealtime c)
                   else (Ok tt, CfgRealtime c) in
  match r, r' with
  | Ok _, Ok _ => (Ok tt, MkPipelineConfig (CfgName c) (CfgMode c) s rt (CfgSteps c)
      (CfgOutput (set_output_type c (or_default (OutType (CfgOutput c)) "stub"))))
  | Ok _, Err e => (Err e, MkPipelineConfig (CfgName c) (CfgMode c) s rt (CfgSteps c) (CfgOutput c))
  | Ok _, Panic => (Panic, MkPipelineConfig (CfgName c) (CfgMode c) s rt (CfgSteps c) (CfgOutput c))
  | Err e, _ => (Err e, set_source c s)
  | Panic, _ => (Panic, set_source c s)
  end.

Definition known_mode (m : PipelineMode) : bool := (m =? ModeBatch) || (m =? ModeRealtime).

Lemma Validate_rest c :
  CfgName c <> "" -> known_mode (or_default (CfgMode c) ModeBatch) = true ->
  Validate c = validate_rest (set_mode c (or_default (CfgMode c) ModeBatch)).
Proof.
  intros Hn Hm. unfold Validate, validate_rest. destruct (empty_spec (CfgName c)); [done|].
  cbn [set_mode CfgMode CfgName CfgSource CfgRealtime CfgSteps CfgOutput].
  unfold known_mode in Hm. rewrite <- negb_orb, Hm.
  destruct (validateSource (CfgName c) (CfgSource c)) as [[?|?|] s]; simpl; try done;
    by destruct (if or_default (CfgMode c) ModeBatch =? ModeRealtime then _ else _) as [[?|?|] rt].
Qed.

Lemma known_mode_spec m : known_mode m = true <-> m = ModeBatch \/ m = ModeRealtime.
Proof. unfold known_mode. by rewrite orb_true_iff, !String.eqb_eq. Qed.

Lemma or_default_mode m :
  (or_default m ModeBatch = ModeRealtime <-> m = ModeRealtime) /\
  (known_mode (or_default m ModeBatch) = true <-> m = "" \/ m = ModeBatch \/ m = ModeRealtime).
Proof.
  unfold or_default. destruct (empty_spec m) as [->|Hm]; [|rewrite known_mode_spec]; naive_solver.
Qed.

Lemma validate_rest_spec c :
  known_mode (CfgMode c) = true ->
  let '(r, c') := validate_rest c in
  r <> Panic /\
  (r = Ok tt <-> valid_source (CfgSource c) /\
     (CfgMode c = ModeRealtime -> exists rt, CfgRealtime c = Some rt /\ valid_realtime rt)) /\
  (r = Ok tt -> config_ready c' /\ CfgName c' = CfgName c /\ CfgMode c' = CfgMode c /\
     validate_rest c' = (Ok tt, c')).
Proof.
  intros Hm. unfold validate_rest.
  destruct (validateSource_result (CfgName c) (CfgSource c)) as [Hp Hsrc].
  pose proof (validateSource_stable (CfgName c) (CfgSource c)) as Hst.
  destruct (validateSource (CfgName c) (CfgSource c)) as [r s]. simpl in *.
  set (vr := if CfgMode c =? ModeRealtime then _ else _).
  assert (fst vr <> Panic /\ (fst vr = Ok tt <->
      (CfgMode c = ModeRealtime -> exists rt, CfgRealtime c = Some rt /\ valid_realtime rt)) /\
    (fst vr = Ok tt -> (if CfgMode c =? ModeRealtime then validateRealtime (snd vr)
                        else (Ok tt, snd vr)) = (Ok tt, snd vr) /\
      (CfgMode c = ModeRealtime -> exists r' ttl, snd vr = Some r' /\ IDField r' <> "" /\
         DedupStorage r' <> "" /\ ParseDuration (DedupTTL r') = Some ttl))) as (Hp' & Hok' & Hst').
  { unfold vr. destruct (String.eqb_spec (CfgMode c) ModeRealtime) as [E|E]; [|naive_solver].
    destruct (validateRealtime_spec (CfgRealtime c)) as (H1 & H2 & H3). naive_solver. }
  clearbody vr. destruct vr as [r' rt]. simpl in *.
  destruct r as [[]|e|]; [|by split; [|naive_solver] | done].
  destruct r' as [[]|e|]; [|by split; [|naive_solver] | done].
  destruct (Hst eq_refl) as [Hvs Hsr]. destruct (Hst' eq_refl) as [Hvr Hrt].
  split; [done|]. split; [naive_solver|]. intros _.
  split; [|split; [done|split; [done|]]].
  - split; simpl; [by apply known_mode_spec | done | done | by apply or_default_ne].
  - simpl. rewrite Hvs, Hvr. unfold set_output_type. simpl. by rewrite or_default_idem.
Qed.

(** C24: [Validate] accepts exactly the configurations that have a name, a known mode,
    the fields their source type needs and, in realtime mode, an id field and a
    time to live that parses. An accepted configuration has every default filled in,
    and validating it again accepts it unchanged. *)
Theorem validate_accepts_valid_configs (c : PipelineConfigV2) :
  let '(r, c') := Validate c in
  r <> Panic /\ (r = Ok tt <-> valid_config c) /\
  (r = Ok tt -> config_ready c' /\ Validate c' = (Ok tt, c')).
Proof.
  destruct (empty_spec (CfgName c)) as [En|En].
  { unfold Validate. rewrite (proj2 (String.eqb_eq _ _) En : empty (CfgName c) = true).
    split; [done|]. split; [|done]. split; [done|]. by intros []. }
  destruct (or_default_mode (CfgMode c)) as [Hreal Hknown].
  set (m := or_default (CfgMode c) ModeBatch) in *. destruct (known_mode m) eqn:Hm.
  - rewrite Validate_rest by done. fold m.
    pose proof (validate_rest_spec (set_mode c m) Hm) as H.
    destruct (validate_rest (set_mode c m)) as [r c'] eqn:Er. destruct H as (Hp & Hok & Hst).
    split; [done|]. split.
    + rewrite Hok. simpl. split; [intros [? ?]; split; naive_solver | intros []; naive_solver].
    + intros ->. destruct (Hst eq_refl) as (Hrdy & Hn & Hmode & Hagain). split; [done|].
      simpl in Hn, Hmode. assert (or_default (CfgMode c') ModeBatch = CfgMode c') as Hd.
      { unfold or_default. rewrite Hmode. destruct (empty_spec m) as [E|]; [|done].
        by rewrite E in Hm. }
      rewrite Validate_rest; [| congruence | by rewrite Hd, Hmode]. rewrite Hd.
      by destruct c'.
  - unfold Validate. destruct (empty_spec (CfgName c)); [done|].
    cbn [set_mode CfgMode]. fold m. unfold known_mode in Hm. rewrite <- negb_orb, Hm.
    split; [done|]. split; [|done]. split; [done|]. intros []. naive_solver.
Qed.
