(* ===== verification/Processor.v ===== *)
(** * Processing steps (pkg/processor/processor.go, pkg/source/source.go)

    The processors of a version 2 pipeline and how [NewProcessor] builds them from a
    step of the configuration. The random numbers that sampling draws are a stream
    [rand], read in order: each call returns how far it has been read. *)

From Stdlib Require Import String SpecFloat.
From S2P Require Import Prelude GoString GoValue ConfigV2.
Local Open Scope string_scope.
Local Open Scope list_scope.

(** ** Records of a source *)

Record Metadata := MkMetadata {
  MdSource : string;
  MdOrigin : string;
  MdOffset : string;
  MdTimestamp : Z
}.

Record SrcRecord := MkRecord { RecData : Data; RecMetadata : Metadata }.

(** ** Processors *)

Inductive Processor :=
| NoopProcessor (name : string)
| TransformProcessor (name transform : string)
| FilterProcessor (name filter : string)
| SampleProcessor (name : string) (rate : spec_float)
| SelectProcessor (name : string) (fields : list string)
| ExcludeProcessor (name : string) (fields : list string)
| ChainProcessor (name : string) (processors : list Processor).

Definition Name (p : Processor) : string :=
  match p with
  | NoopProcessor n | TransformProcessor n _ | FilterProcessor n _ | SampleProcessor n _
  | SelectProcessor n _ | ExcludeProcessor n _ | ChainProcessor n _ => n
  end.

Section Process.
Context `{GoRuntime} (rand : nat -> spec_float).

(** One line of a transform: what it assigns, if anything. *)
Definition transform_line (data : Data) (line : string) (result : Data) : Data :=
  let line := TrimSpace line in
  if (line =? "") || HasPrefix line "#" then result
  else
    match SplitN2 line "=" with
    | [lhs; rhs] =>
        let field := TrimSpace lhs in
        let expr := TrimSpace rhs in
        if HasPrefix expr "." then
          match data !! TrimPrefix expr "." with
          | Some val => <[field := val]> result
          | None => result
          end
        else if HasPrefix expr "'" && HasSuffix expr "'" then
          <[field := VString (Trim expr "'")]> result
        else if HasPrefix expr (bytes [34]) && HasSuffix expr (bytes [34]) then
          <[field := VString (Trim expr (bytes [34]))]> result
        else result
    | _ => result
    end.

Definition transform (text : string) (data : Data) : Data :=
  foldl (fun result line => transform_line data line result) data
    (Split text (bytes [10])).

(** Quotes of both kinds, which [strings.Trim] takes off a value. *)
Definition quotes : string := bytes [39; 34].

Definition filter_parts (filter sep : string) : string * string :=
  match SplitN2 filter sep with
  | [lhs; rhs] => (TrimPrefix (TrimSpace lhs) ".", Trim (TrimSpace rhs) quotes)
  | _ => ("", "")
  end.

(** [Process] of a filter: whether the record passes. *)
Definition filter_passes (filter : string) (data : Data) : res string bool :=
  let filter := TrimSpace filter in
  if HasSuffix filter " exists" then
    let field := TrimPrefix (TrimSpace (TrimSuffix filter " exists")) "." in
    Ok (match data !! field with Some _ => true | None => false end)
  else if Contains filter "==" then
    let '(field, value) := filter_parts filter "==" in
    Ok (match data !! field with Some val => fmt_v val =? value | None => false end)
  else if Contains filter "!=" then
    let '(field, value) := filter_parts filter "!=" in
    match data !! field with
    | Some val => if negb (fmt_v val =? value) then Ok true else Ok true
    | None => Ok true
    end
  else if Contains filter "~=" then
    let '(field, pattern) := filter_parts filter "~=" in
    match data !! field with
    | Some val =>
        match regexp_compile pattern with
        | None => Err "invalid regex pattern"
        | Some matches => Ok (matches (fmt_v val))
        end
    | None => Ok false
    end
  else Ok true.

Definition select_fields (fields : list string) (data : Data) : Data :=
  foldl (fun result field => match data !! field with
                             | Some val => <[field := val]> result
                             | None => result
                             end) ∅ fields.

Definition exclude_fields (fields : list string) (data : Data) : Data :=
  filter (fun kv => kv.1 ∉ fields) data.

Definition sample_passes (rate draw : spec_float) : bool := float_lt draw rate.

(** [Ok None] is the nil record of a filtered one. *)
Fixpoint Process (p : Processor) (n : nat) (r : SrcRecord) : res string (option SrcRecord) * nat :=
  match p with
  | NoopProcessor _ => (Ok (Some r), n)
  | TransformProcessor _ text => (Ok (Some (MkRecord (transform text (RecData r)) (RecMetadata r))), n)
  | FilterProcessor _ f =>
      (match filter_passes f (RecData r) with
       | Ok true => Ok (Some r)
       | Ok false => Ok None
       | Err e => Err e
       | Panic => Panic
       end, n)
  | SampleProcessor _ rate =>
      (if sample_passes rate (rand n) then Ok (Some r) else Ok None, S n)
  | SelectProcessor _ fields =>
      (Ok (Some (MkRecord (select_fields fields (RecData r)) (RecMetadata r))), n)
  | ExcludeProcessor _ fields =>
      (Ok (Some (MkRecord (exclude_fields fields (RecData r)) (RecMetadata r))), n)
  | ChainProcessor _ ps =>
      (fix chain (ps : list Processor) (n : nat) (r : SrcRecord) :=
         match ps with
         | [] => (Ok (Some r), n)
         | p :: ps' =>
             let '(res, n) := Process p n r in
             match res with
             | Ok (Some r') => chain ps' n r'
             | Ok None => (Ok None, n)
             | Err e => (Err e, n)
             | Panic => (Panic, n)
             end
         end) ps n r
  end.

(** The loop of a chain, by itself. *)
Fixpoint process_all (ps : list Processor) (n : nat) (r : SrcRecord)
  : res string (option SrcRecord) * nat :=
  match ps with
  | [] => (Ok (Some r), n)
  | p :: ps' =>
      let '(res, n) := Process p n r in
      match res with
      | Ok (Some r') => process_all ps' n r'
      | Ok None => (Ok None, n)
      | Err e => (Err e, n)
      | Panic => (Panic, n)
      end
  end.

Lemma Process_chain name ps n r : Process (ChainProcessor name ps) n r = process_all ps n r.
Proof.
  revert n r. induction ps as [|p ps IH]; intros n r; [done|]. simpl.
  destruct (Process p n r) as [[[r'|]|e|] n']; [apply IH | done..].
Qed.
End Process.

(** The parts of a step, in the order in which they are applied. *)
Definition step_parts (step : StepV2) : list Processor :=
  (if negb (StepTransform step =? "")
   then [TransformProcessor (StepName step) (StepTransform step)] else []) ++
  (if negb (FilterConfig_IsEmpty (StepFilter step))
   then [FilterProcessor (StepName step) (FilterConfig_GetExpression (StepFilter step))] else []) ++
  (if float_lt (float64_of_Z 0) (StepSample step)
   then [SampleProcessor (StepName step) (StepSample step)] else []) ++
  (match StepSelect step with [] => [] | fs => [SelectProcessor (StepName step) fs] end) ++
  (match StepExclude step with [] => [] | fs => [ExcludeProcessor (StepName step) fs] end).

Definition NewProcessor (step : StepV2) : Processor :=
  match step_parts step with
  | [] => NoopProcessor (StepName step)
  | [p] => p
  | ps => ChainProcessor (StepName step) ps
  end.

(** ** Proofs *)

(** Induction through the processors of a chain. *)
Section ProcessorInd.
Context (P : Processor -> Prop).
Context (Hnoop : forall n, P (NoopProcessor n)).
Context (Htransform : forall n t, P (TransformProcessor n t)).
Context (Hfilter : forall n f, P (FilterProcessor n f)).
Context (Hsample : forall n s, P (SampleProcessor n s)).
Context (Hselect : forall n fs, P (SelectProcessor n fs)).
Context (Hexclude : forall n fs, P (ExcludeProcessor n fs)).
Context (Hchain : forall n ps, Forall P ps -> P (ChainProcessor n ps)).

Fixpoint processor_ind (p : Processor) : P p :=
  match p with
  | NoopProcessor n => Hnoop n
  | TransformProcessor n t => Htransform n t
  | FilterProcessor n f => Hfilter n f
  | SampleProcessor n s => Hsample n s
  | SelectProcessor n fs => Hselect n fs
  | ExcludeProcessor n fs => Hexclude n fs
  | ChainProcessor n ps =>
      Hchain n ps ((fix go ps : Forall P ps :=
        match ps with
        | [] => Forall_nil_2 P
        | p :: ps' => Forall_cons_2 P p ps' (processor_ind p) (go ps')
        end) ps)
  end.
End ProcessorInd.

Lemma select_lookup fields data k :
  select_fields fields data !! k = if decide (k ∈ fields) then data !! k else None.
Proof.
  unfold select_fields.
  enough (forall acc : Data, foldl (fun result field => match data !! field with
      | Some val => <[field := val]> result | None => result end) acc fields !! k
    = if decide (k ∈ fields) then match data !! k with Some v => Some v | None => acc !! k end
      else acc !! k) as He.
  { rewrite He, lookup_empty. destruct (decide _); [|done]. by destruct (data !! k). }
  induction fields as [|f fields IH]; intros acc; cbn [foldl].
  { by rewrite decide_False by apply not_elem_of_nil. }
  rewrite IH. destruct (decide (f = k)) as [->|Hne].
  - rewrite (decide_True _ _ (proj2 (elem_of_cons fields k k) (or_introl eq_refl))).
    destruct (data !! k) as [v|] eqn:E; [rewrite lookup_insert_eq|]; by destruct (decide _).
  - assert (match data !! f with Some val => <[f := val]> acc | None => acc end !! k = acc !! k)
      as -> by (destruct (data !! f); [by rewrite lookup_insert_ne | done]).
    destruct (decide (k ∈ fields)) as [Hin|Hin].
    + by rewrite decide_True by set_solver.
    + by rewrite decide_False by set_solver.
Qed.

Lemma exclude_lookup fields data k :
  exclude_fields fields data !! k = if decide (k ∈ fields) then None else data !! k.
Proof.
  unfold exclude_fields. rewrite map_lookup_filter. destruct (data !! k) as [v|]; simpl.
  - destruct (decide (k ∈ fields)).
    + by rewrite option_guard_False by auto.
    + by rewrite option_guard_True.
  - by destruct (decide _).
Qed.

(** Selecting fields and excluding the same fields split every record in two: the
    two results have no field in common and together they are the record. *)
Theorem select_exclude_partition (fields : list string) (data : Data) :
  select_fields fields data ∪ exclude_fields fields data = data /\
  select_fields fields data ##ₘ exclude_fields fields data /\
  (forall k, is_Some (select_fields fields data !! k) <-> k ∈ fields /\ is_Some (data !! k)).
Proof.
  split; [|split].
  - apply map_eq. intros k. rewrite lookup_union, select_lookup, exclude_lookup.
    destruct (decide _); destruct (data !! k); done.
  - apply map_disjoint_spec. intros k x y. rewrite select_lookup, exclude_lookup.
    by destruct (decide _).
  - intros k. rewrite select_lookup. destruct (decide _); [naive_solver|].
    split; [by intros [? ?] | naive_solver].
Qed.

(** A processor without a transform in it. *)
Fixpoint transform_free (p : Processor) : bool :=
  match p with
  | TransformProcessor _ _ => false
  | ChainProcessor _ ps => forallb transform_free ps
  | _ => true
  end.

(** What [Process] promises about its outcome. *)
Definition honest (free : bool) (r : SrcRecord) (o : res string (option SrcRecord)) : Prop :=
  match o with
  | Ok (Some r') => RecMetadata r' = RecMetadata r /\ (free = true -> RecData r' ⊆ RecData r)
  | Ok None | Err _ => True
  | Panic => False
  end.

Section Honest.
Context `{GoRuntime} (rand : nat -> spec_float).

Lemma filter_no_panic f data : filter_passes f data <> Panic.
Proof.
  unfold filter_passes. repeat case_match; done.
Qed.

Lemma process_all_honest ps n r :
  Forall (fun p => forall n r, honest (transform_free p) r (fst (Process rand p n r))) ps ->
  honest (forallb transform_free ps) r (fst (process_all rand ps n r)).
Proof.
  intros HF. revert n r. induction HF as [|p ps Hp _ IH]; intros n r; simpl; [done|].
  specialize (Hp n r). destruct (Process rand p n r) as [[[r1|]|e|] n1]; simpl in *; try done.
  destruct Hp as [Hm Hs]. specialize (IH n1 r1).
  destruct (fst (process_all rand ps n1 r1)) as [[r2|]|e|]; simpl in *; try done.
  destruct IH as [Hm' Hs']. split; [congruence|]. intros [? ?]%andb_true_iff.
  etrans; [by apply Hs' | by apply Hs].
Qed.

Lemma process_honest (p : Processor) :
  forall (n : nat) (r : SrcRecord), honest (transform_free p) r (fst (Process rand p n r)).
Proof.
  induction p as [nm|nm t|nm f|nm rate|nm fs|nm fs|nm ps IH] using processor_ind; intros n r; simpl.
  - done.
  - done.
  - pose proof (filter_no_panic f (RecData r)).
    by destruct (filter_passes f (RecData r)) as [[]|e|].
  - by destruct (sample_passes rate (rand n)).
  - split; [done|]. intros _. apply map_subseteq_spec. intros k v. simpl.
    rewrite select_lookup. by destruct (decide _).
  - split; [done|]. intros _. apply map_subseteq_spec. intros k v. simpl.
    rewrite exclude_lookup. by destruct (decide _).
  - pose proof (process_all_honest ps n r IH) as Hh. by rewrite <- (Process_chain rand nm) in Hh.
Qed.

(** No processor panics, changes the metadata of a record or, unless it contains a
    transform, adds a field or changes the value of one. *)
Theorem process_keeps_records_honest (p : Processor) (n : nat) (r : SrcRecord) :
  match fst (Process rand p n r) with
  | Ok (Some r') => RecMetadata r' = RecMetadata r /\
      (transform_free p = true -> RecData r' ⊆ RecData r)
  | Ok None | Err _ => True
  | Panic => False
  end.
Proof. apply process_honest. Qed.

(** The processor built for a step runs the parts of the step one after the other:
    transform, filter, sample, select, exclude, whether there are none, one or
    several of them. *)
Theorem step_runs_its_parts (step : StepV2) (n : nat) (r : SrcRecord) :
  Process rand (NewProcessor step) n r = process_all rand (step_parts step) n r.
Proof.
  unfold NewProcessor. destruct (step_parts step) as [|p [|q ps]] eqn:E; [done| |].
  - simpl. by destruct (Process rand p n r) as [[[r'|]|e|] n'].
  - apply Process_chain.
Qed.

(** Two kinds of filters in a step let every record pass. A structured filter is
    taken for its expression, which is empty; and a [!=] filter passes records that
    differ from the value as well as records that do not. *)
Theorem ineffective_step_filters (name : string) (root : FilterNode)
    (n : nat) (r : SrcRecord) :
  Process rand (NewProcessor (MkStep name "" (MkFilterConfig "" (Some root)) (S754_zero false) [] []))
    n r = (Ok (Some r), n) /\
  (forall f, HasSuffix (TrimSpace f) " exists" = false -> Contains (TrimSpace f) "==" = false ->
     Contains (TrimSpace f) "!=" = true ->
     Process rand (FilterProcessor name f) n r = (Ok (Some r), n)).
Proof.
  split; [done|]. intros f H1 H2 H3. unfold Process, filter_passes. rewrite H1, H2, H3.
  destruct (filter_parts (TrimSpace f) "!=") as [fld v].
  destruct (RecData r !! fld) as [val|]; [by destruct (negb _) | done].
Qed.

End Honest.
