(* ===== verification/Dedup.v ===== *)
(** * Deduplication services (pkg/dedup/dedup.go)

    The interface [DedupService], its in-memory implementation with the background
    cleanup, and the Redis one, whose methods are still placeholders in the source.
    [DedupLaws] is what a pipeline relies on: a view of a service as the marks it
    holds, with the time of each, and the entities that exist. *)

From Stdlib Require Import String.
From S2P Require Import Prelude GoTime.
Local Open Scope string_scope.
Local Open Scope Z_scope.

Definition EventType := string.
Definition EventCreate : EventType := "CREATE".
Definition EventUpdate : EventType := "UPDATE".
Definition EventDelete : EventType := "DELETE".

(** The interface. [expire] is the background goroutine of a service. *)
Class DedupService (S : Type) := {
  IsDuplicate : string -> S -> res string bool;
  MarkProcessed : Z -> string -> S -> res string unit * S;
  EntityExists : string -> S -> res string bool;
  SetEntityExists : string -> S -> res string unit * S;
  DeleteEntity : string -> S -> res string unit * S;
  expire : Z -> S -> S
}.

(** ** In memory *)

Record MemoryDedupService := MkMemory {
  processedIDs : gmap string Z;
  entities : gmap string bool;
  ttl : Z
}.

Definition NewMemoryDedupService (ttl : Z) : MemoryDedupService := MkMemory ∅ ∅ ttl.

Definition memory_cleanup (now : Z) (s : MemoryDedupService) : MemoryDedupService :=
  MkMemory (filter (fun kv => (ttl s <? now - kv.2) = false) (processedIDs s)) (entities s) (ttl s).

Definition memory_IsDuplicate (eventID : string) (s : MemoryDedupService) : res string bool :=
  Ok (match processedIDs s !! eventID with Some _ => true | None => false end).

Definition memory_MarkProcessed (now : Z) (eventID : string) (s : MemoryDedupService)
  : res string unit * MemoryDedupService :=
  (Ok tt, MkMemory (<[eventID := now]> (processedIDs s)) (entities s) (ttl s)).

Definition memory_EntityExists (entityID : string) (s : MemoryDedupService) : res string bool :=
  Ok (default false (entities s !! entityID)).

Definition memory_SetEntityExists (entityID : string) (s : MemoryDedupService)
  : res string unit * MemoryDedupService :=
  (Ok tt, MkMemory (processedIDs s) (<[entityID := true]> (entities s)) (ttl s)).

Definition memory_DeleteEntity (entityID : string) (s : MemoryDedupService)
  : res string unit * MemoryDedupService :=
  (Ok tt, MkMemory (processedIDs s) (delete entityID (entities s)) (ttl s)).

#[export] Instance memory_service : DedupService MemoryDedupService := {
  IsDuplicate := memory_IsDuplicate;
  MarkProcessed := memory_MarkProcessed;
  EntityExists := memory_EntityExists;
  SetEntityExists := memory_SetEntityExists;
  DeleteEntity := memory_DeleteEntity;
  expire := memory_cleanup
}.

(** ** In Redis: placeholders *)

Record RedisDedupService := MkRedis { prefix : string; redis_ttl : Z }.

Definition NewRedisDedupService (prefix : string) (ttl : Z) : RedisDedupService :=
  MkRedis prefix ttl.

#[export] Instance redis_service : DedupService RedisDedupService := {
  IsDuplicate eventID s := Ok false;
  MarkProcessed now eventID s := (Ok tt, s);
  EntityExists entityID s := Ok false;
  SetEntityExists entityID s := (Ok tt, s);
  DeleteEntity entityID s := (Ok tt, s);
  expire now s := s
}.

(** ** Choosing a service *)

Inductive AnyDedup := DedupMemory (s : MemoryDedupService) | DedupRedis (s : RedisDedupService).

Definition NewDedupService (storage : string) (ttl : Z) : res string AnyDedup :=
  if (String.eqb storage "memory") || (String.eqb storage "") then
    Ok (DedupMemory (NewMemoryDedupService ttl))
  else if String.eqb storage "redis" then Ok (DedupRedis (NewRedisDedupService "dedup" ttl))
  else Err ("unsupported dedup storage: " +:+ storage).

(** Calls through the interface value. *)
Definition on_any {A} (f : forall S, DedupService S -> S -> A) (s : AnyDedup) : A :=
  match s with
  | DedupMemory m => f _ memory_service m
  | DedupRedis r => f _ redis_service r
  end.

Definition update_any (f : forall S, DedupService S -> S -> res string unit * S) (s : AnyDedup)
  : res string unit * AnyDedup :=
  match s with
  | DedupMemory m => let '(r, m) := f _ memory_service m in (r, DedupMemory m)
  | DedupRedis x => let '(r, x) := f _ redis_service x in (r, DedupRedis x)
  end.

#[export] Instance any_service : DedupService AnyDedup := {
  IsDuplicate id := on_any (fun S _ => IsDuplicate id);
  MarkProcessed now id := update_any (fun S _ => MarkProcessed now id);
  EntityExists id := on_any (fun S _ => EntityExists id);
  SetEntityExists id := update_any (fun S _ => SetEntityExists id);
  DeleteEntity id := update_any (fun S _ => DeleteEntity id);
  expire now s := match s with
                  | DedupMemory m => DedupMemory (expire now m)
                  | DedupRedis r => DedupRedis (expire now r)
                  end
}.

(** ** What a pipeline relies on *)

Class DedupLaws (S : Type) `{DedupService S} := {
  marks : S -> gmap string Z;
  known : S -> gset string;
  keep : S -> Z;                     (* how long a mark is kept at least *)
  dup_law : forall id s, IsDuplicate id s = Ok (bool_decide (is_Some (marks s !! id)));
  exists_law : forall id s, EntityExists id s = Ok (bool_decide (id ∈ known s));
  mark_law : forall now id s, exists s', MarkProcessed now id s = (Ok tt, s') /\
    marks s' = <[id := now]> (marks s) /\ known s' = known s /\ keep s' = keep s;
  set_law : forall id s, exists s', SetEntityExists id s = (Ok tt, s') /\
    marks s' = marks s /\ known s' = {[id]} ∪ known s /\ keep s' = keep s;
  delete_law : forall id s, exists s', DeleteEntity id s = (Ok tt, s') /\
    marks s' = marks s /\ known s' = known s ∖ {[id]} /\ keep s' = keep s;
  expire_law : forall now id s,
    marks (expire now s) !! id = match marks s !! id with
                                 | Some t => if keep s <? now - t then None else Some t
                                 | None => None
                                 end;
  expire_known : forall now s, known (expire now s) = known s /\ keep (expire now s) = keep s
}.

#[export, program] Instance memory_laws : DedupLaws MemoryDedupService := {
  marks := processedIDs;
  known s := dom (filter (fun kv => kv.2 = true) (entities s));
  keep := ttl
}.
Next Obligation.
  intros id s. simpl. unfold memory_IsDuplicate. f_equal. destruct (processedIDs s !! id).
  - by rewrite bool_decide_eq_true_2.
  - rewrite bool_decide_eq_false_2; [done|]. by intros [? ?].
Qed.
Next Obligation.
  intros id s. simpl. unfold memory_EntityExists. f_equal. symmetry.
  destruct (entities s !! id) as [[]|] eqn:E; simpl.
  - apply bool_decide_eq_true. apply elem_of_dom. exists true. by apply map_lookup_filter_Some.
  - apply bool_decide_eq_false. intros [b [Hb Ht]%map_lookup_filter_Some]%elem_of_dom. simpl in Ht.
    congruence.
  - apply bool_decide_eq_false. intros [b [Hb Ht]%map_lookup_filter_Some]%elem_of_dom. congruence.
Qed.
Next Obligation. intros now id s. eexists. by repeat split. Qed.
Next Obligation.
  intros id s. eexists. split; [done|]. split; [done|]. split; [|done]. simpl. apply set_eq.
  intros k. rewrite elem_of_union, elem_of_singleton, !elem_of_dom. unfold is_Some.
  setoid_rewrite map_lookup_filter_Some. simpl. setoid_rewrite lookup_insert_Some.
  destruct (decide (k = id)); naive_solver.
Qed.
Next Obligation.
  intros id s. eexists. split; [done|]. split; [done|]. split; [|done]. simpl. apply set_eq.
  intros k. rewrite elem_of_difference, elem_of_singleton, !elem_of_dom. unfold is_Some.
  setoid_rewrite map_lookup_filter_Some. simpl. setoid_rewrite lookup_delete_Some. naive_solver.
Qed.
Next Obligation.
  intros now id s. simpl. rewrite map_lookup_filter. destruct (processedIDs s !! id) as [t|]; [|done].
  simpl. destruct (ttl s <? now - t) eqn:E.
  - by rewrite option_guard_False by congruence.
  - by rewrite option_guard_True.
Qed.
Next Obligation. done. Qed.

(** The placeholder cannot have these laws: it forgets every mark. *)
Lemma redis_has_no_laws : DedupLaws RedisDedupService -> False.
Proof.
  intros L. set (s := MkRedis "" 0).
  destruct (mark_law 0 "e" s) as (s' & E & Hm & _). injection E as <-.
  pose proof (dup_law "e" s) as Hd. rewrite Hm, lookup_insert_eq in Hd.
  rewrite bool_decide_eq_true_2 in Hd by done. discriminate.
Qed.
