(* ===== verification/Stream.v ===== *)
(** * Stream stages and the stream processor (pkg/stream)

    stage.go: the stages and their construction; types.go and processor.go: the
    processor that takes records from a source through a chain of stages to a sink,
    its statistics and its state machine. A record's map may be nil in Go, which
    matters to a stage that writes to it. *)

From Stdlib Require Import String SpecFloat.
From S2P Require Import Prelude GoString GoValue GoTime Schema.
Local Open Scope string_scope.
Local Open Scope list_scope.

(** ** Records *)

Record RecordMetadata := MkMeta {
  Source : string;
  Partition : Z;
  Offset : Z;
  Key : string
}.

(** [None] is a nil map: it reads as empty and panics on assignment. *)
Record Record_ := MkRec {
  RData : option Data;
  Meta : RecordMetadata;
  Timestamp : Z
}.

Definition read (r : Record_) : Data := default ∅ (RData r).

(** ** Stages *)

Record BaseStage := MkBase {
  name : string;
  typ : string;
  config : Data;
  inputCount : Z;
  outputCount : Z;
  errorCount : Z
}.

Inductive Stage :=
| PassthroughStage (b : BaseStage)
| FilterStage (b : BaseStage) (condition : string)
| RemapStage (b : BaseStage) (mappings : gmap string string)
| SampleStage (b : BaseStage) (rate : spec_float)
| EnrichStage (b : BaseStage) (staticFields : Data)
| AggregateStage (b : BaseStage) (windowSize : Z) (groupBy : list string)
    (aggregates : gmap string string)
| ValidationStage (b : BaseStage) (schema : option DataSchema) (dropOnFail : bool).

Definition base (s : Stage) : BaseStage :=
  match s with
  | PassthroughStage b | FilterStage b _ | RemapStage b _ | SampleStage b _ | EnrichStage b _
  | AggregateStage b _ _ _ | ValidationStage b _ _ => b
  end.
Definition StageName (s : Stage) : string := name (base s).

Definition with_base (s : Stage) (b : BaseStage) : Stage :=
  match s with
  | PassthroughStage _ => PassthroughStage b
  | FilterStage _ c => FilterStage b c
  | RemapStage _ m => RemapStage b m
  | SampleStage _ r => SampleStage b r
  | EnrichStage _ f => EnrichStage b f
  | AggregateStage _ w g a => AggregateStage b w g a
  | ValidationStage _ s d => ValidationStage b s d
  end.

Definition add1 (n : Z) : Z := int64_wrap (n + 1).
Definition incrementInput (b : BaseStage) : BaseStage :=
  MkBase (name b) (typ b) (config b) (add1 (inputCount b)) (outputCount b) (errorCount b).
Definition incrementOutput (b : BaseStage) : BaseStage :=
  MkBase (name b) (typ b) (config b) (inputCount b) (add1 (outputCount b)) (errorCount b).
Definition incrementError (b : BaseStage) : BaseStage :=
  MkBase (name b) (typ b) (config b) (inputCount b) (outputCount b) (add1 (errorCount b)).

(** *** Construction *)

Definition string_values (m : Data) : gmap string string :=
  omap (fun v => as_string (Some v)) m.

Definition new_base (nm ty : string) (cfg : Data) : BaseStage := MkBase nm ty cfg 0 0 0.

Record StageConfig := MkStageConfig {
  CfgType : string;
  CfgStageName : string;
  CfgCondition : string;
  CfgConfig : Data
}.

Section Construction.
Context `{GoArch}.

Definition NewPassthroughStage (nm : string) (cfg : Data) : Stage :=
  PassthroughStage (new_base nm "passthrough" cfg).
Definition NewFilterStage (nm : string) (cfg : Data) : Stage :=
  FilterStage (new_base nm "filter" cfg) (default "" (as_string (cfg !! "condition"))).
Definition NewRemapStage (nm : string) (cfg : Data) : Stage :=
  RemapStage (new_base nm "remap" cfg)
    (match as_map (cfg !! "mappings") with Some m => string_values m | None => ∅ end).
Definition NewSampleStage (nm : string) (cfg : Data) : Stage :=
  SampleStage (new_base nm "sample" cfg)
    (default (float64_of_Z 1) (as_float64 (cfg !! "rate"))).
Definition NewEnrichStage (nm : string) (cfg : Data) : Stage :=
  EnrichStage (new_base nm "enrich" cfg) (default ∅ (as_map (cfg !! "fields"))).
Definition NewAggregateStage (nm : string) (cfg : Data) : Stage :=
  AggregateStage (new_base nm "aggregate" cfg)
    (default (60 * Second)%Z (as_string (cfg !! "window") ≫= ParseDuration))
    (omap (fun v => as_string (Some v)) (default [] (as_slice (cfg !! "group_by"))))
    (match as_map (cfg !! "aggregates") with Some m => string_values m | None => ∅ end).
Definition NewValidationStage (nm : string) (cfg : Data) : res string Stage :=
  match as_map (cfg !! "schema") with
  | None => Err "schema configuration is required for validation stage"
  | Some sc =>
      match NewDataSchemaFromConfig sc with
      | None => Err "invalid schema config"
      | Some sch => Ok (ValidationStage (new_base nm "validate" cfg) (Some sch)
                          (default false (as_bool (cfg !! "drop_on_fail"))))
      end
  end.

Definition NewStage (cfg : StageConfig) : res string Stage :=
  let ty := CfgType cfg in
  let nm := CfgStageName cfg in
  let c := CfgConfig cfg in
  if ty =? "passthrough" then Ok (NewPassthroughStage nm c)
  else if ty =? "filter" then Ok (NewFilterStage nm c)
  else if ty =? "remap" then Ok (NewRemapStage nm c)
  else if ty =? "sample" then Ok (NewSampleStage nm c)
  else if ty =? "enrich" then Ok (NewEnrichStage nm c)
  else if ty =? "aggregate" then Ok (NewAggregateStage nm c)
  else if ty =? "validate" then NewValidationStage nm c
  else Err ("unknown stage type: " +:+ ty).
End Construction.

(** *** Processing *)

Section Process.
Context `{GoRuntime} `{GoArch}.
(** The order in which Go ranges over a map, for the schema check. *)
Context (range_data : Data -> list (string * GoValue)).
(** The random numbers of sampling, and the formatted time of a remap. *)
Context (rand : nat -> spec_float) (time_text : nat -> string).

(** The three conditions the filter stage knows. *)
Definition evaluator (condition : string) (data : Data) : bool :=
  if condition =? ".level == " +:+ quoted "error" then
    match as_string (data !! "level") with Some l => l =? "error" | None => false end
  else if condition =? ".level == " +:+ quoted "warn" then
    match as_string (data !! "level") with Some l => l =? "warn" | None => false end
  else if condition =? ".level != " +:+ quoted "debug" then
    match as_string (data !! "level") with Some l => negb (l =? "debug") | None => true end
  else true.

(** The map a remap stage builds: mappings over parsed fields over the time over the
    old data. The keys of each part are distinct, so the order does not matter. *)
Definition remap_data (mappings : gmap string string) (now : string) (data : Data) : Data :=
  let parsed := match as_string (data !! "message") with
                | Some msg => default ∅ (json_object msg)
                | None => ∅
                end in
  omap (fun old => data !! old) mappings ∪ (parsed ∪ <["processed_at" := VString now]> data).

Definition enrich_data (b : BaseStage) (staticFields : Data) (data : option Data)
  : res string (option Data) :=
  let added := match as_string (config b !! "lookup_table") with
               | Some t => <["enriched_from" := VString t]> staticFields
               | None => staticFields
               end in
  if bool_decide (added = ∅) then Ok data
  else match data with Some d => Ok (Some (added ∪ d)) | None => Panic end.

(** The two ways in which most stages end: the record goes on, or it is dropped. *)
Definition pass (s : Stage) (r : Record_) : res string (option Record_) * Stage :=
  (Ok (Some r), with_base s (incrementOutput (incrementInput (base s)))).
Definition drop (s : Stage) : res string (option Record_) * Stage :=
  (Ok None, with_base s (incrementInput (base s))).

Definition filter_Process (s : Stage) (condition : string) (r : Record_)
  : res string (option Record_) * Stage :=
  if evaluator condition (read r) then pass s r else drop s.

Definition remap_Process (s : Stage) (mappings : gmap string string) (now : string) (r : Record_)
  : res string (option Record_) * Stage :=
  pass s (MkRec (Some (remap_data mappings now (read r))) (Meta r) (Timestamp r)).

Definition sample_Process (s : Stage) (rate draw : spec_float) (r : Record_)
  : res string (option Record_) * Stage :=
  if float_lt draw rate then pass s r else drop s.

Definition enrich_Process (s : Stage) (staticFields : Data) (r : Record_)
  : res string (option Record_) * Stage :=
  match enrich_data (base s) staticFields (RData r) with
  | Ok d => pass s (MkRec d (Meta r) (Timestamp r))
  | Err e => (Err e, with_base s (incrementInput (base s)))
  | Panic => (Panic, with_base s (incrementInput (base s)))
  end.

Definition validation_Process (s : Stage) (schema : option DataSchema) (dropOnFail : bool)
  (r : Record_) : res string (option Record_) * Stage :=
  match schema with
  | None => pass s r
  | Some sch =>
      match Validate range_data sch (read r) with
      | Ok _ => pass s r
      | _ => (if dropOnFail then Ok None else Err "validation failed",
              with_base s (incrementError (incrementInput (base s))))
      end
  end.

(** [Process] of a stage: the record it hands on ([None] for nil) or an error, and the
    stage with its counters. [n] numbers the call. *)
Definition Process (n : nat) (s : Stage) (r : Record_) : res string (option Record_) * Stage :=
  match s with
  | PassthroughStage _ => pass s r
  | FilterStage _ condition => filter_Process s condition r
  | RemapStage _ mappings => remap_Process s mappings (time_text n) r
  | SampleStage _ rate => sample_Process s rate (rand n) r
  | EnrichStage _ staticFields => enrich_Process s staticFields r
  | AggregateStage _ _ _ _ => pass s r
  | ValidationStage _ schema dropOnFail => validation_Process s schema dropOnFail r
  end.
End Process.

(** ** The stream processor *)

Inductive ProcessorState :=
| ProcessorStateCreated
| ProcessorStateRunning
| ProcessorStatePaused
| ProcessorStateStopping
| ProcessorStateStopped
| ProcessorStateFailed.

#[export] Instance ProcessorState_eq_dec : EqDecision ProcessorState.
Proof. solve_decision. Defined.

Definition ProcessorState_String (s : ProcessorState) : string :=
  match s with
  | ProcessorStateCreated => "created"
  | ProcessorStateRunning => "running"
  | ProcessorStatePaused => "paused"
  | ProcessorStateStopping => "stopping"
  | ProcessorStateStopped => "stopped"
  | ProcessorStateFailed => "failed"
  end.

Record StageStats := MkStageStats {
  StatName : string;
  StageInput : Z;
  StageOutput : Z;
  StageFiltered : Z;
  StageError : Z;
  AvgLatency : Z
}.

Record ProcessorStats := MkProcStats {
  SourceName : string;
  InputCount : Z;
  OutputCount : Z;
  FilteredCount : Z;
  ErrorCount : Z;
  ProcessingTime : Z;
  LastRecord : Z;
  StageStatsMap : gmap string StageStats
}.

(** [sink] is the state of the sink; [calls] numbers the calls of stages. *)
Record StreamProcessor (K : Type) := MkProcessor {
  pname : string;
  stages : list Stage;
  sink : K;
  state : ProcessorState;
  stats : ProcessorStats;
  statsStart : Z;
  calls : nat
}.
Arguments MkProcessor {K} pname stages sink state stats statsStart calls.
Arguments pname {K} s.
Arguments stages {K} s.
Arguments sink {K} s.
Arguments state {K} s.
Arguments stats {K} s.
Arguments statsStart {K} s.
Arguments calls {K} s.

Definition NewStreamProcessor {K} (nm source_name : string) (ss : list Stage) (k : K)
  : StreamProcessor K :=
  MkProcessor nm ss k ProcessorStateCreated
    (MkProcStats source_name 0 0 0 0 0 0
       (foldl (fun m s => <[StageName s := MkStageStats (StageName s) 0 0 0 0 0]> m) ∅ ss))
    0 0.

Section Processor.
Context {K : Type} (write : Record_ -> K -> res string unit * K) (flush : K -> K).
Context `{GoRuntime} `{GoArch}.
Context (range_data : Data -> list (string * GoValue)).
Context (rand : nat -> spec_float) (time_text : nat -> string).
(** How long the [n]-th call of a stage takes. *)
Context (latency : nat -> Z).

Implicit Types p : StreamProcessor K.

Definition compareAndSwapState (old new : ProcessorState) p : bool * StreamProcessor K :=
  if bool_decide (state p = old)
  then (true, MkProcessor (pname p) (stages p) (sink p) new (stats p) (statsStart p) (calls p))
  else (false, p).

Definition set_stats (s : ProcessorStats) p : StreamProcessor K :=
  MkProcessor (pname p) (stages p) (sink p) (state p) s (statsStart p) (calls p).
Definition set_sink (k : K) p : StreamProcessor K :=
  MkProcessor (pname p) (stages p) k (state p) (stats p) (statsStart p) (calls p).
Definition set_state (s : ProcessorState) p : StreamProcessor K :=
  MkProcessor (pname p) (stages p) (sink p) s (stats p) (statsStart p) (calls p).

(** The closures handed to [updateStats]. *)
Definition count_input (now : Z) (s : ProcessorStats) : ProcessorStats :=
  MkProcStats (SourceName s) (add1 (InputCount s)) (OutputCount s) (FilteredCount s) (ErrorCount s)
    (ProcessingTime s) now (StageStatsMap s).
Definition count_output (s : ProcessorStats) : ProcessorStats :=
  MkProcStats (SourceName s) (InputCount s) (add1 (OutputCount s)) (FilteredCount s) (ErrorCount s)
    (ProcessingTime s) (LastRecord s) (StageStatsMap s).
Definition count_filtered (s : ProcessorStats) : ProcessorStats :=
  MkProcStats (SourceName s) (InputCount s) (OutputCount s) (add1 (FilteredCount s)) (ErrorCount s)
    (ProcessingTime s) (LastRecord s) (StageStatsMap s).
Definition count_error (s : ProcessorStats) : ProcessorStats :=
  MkProcStats (SourceName s) (InputCount s) (OutputCount s) (FilteredCount s) (add1 (ErrorCount s))
    (ProcessingTime s) (LastRecord s) (StageStatsMap s).
Definition set_stage_stats (m : gmap string StageStats) (s : ProcessorStats) : ProcessorStats :=
  MkProcStats (SourceName s) (InputCount s) (OutputCount s) (FilteredCount s) (ErrorCount s)
    (ProcessingTime s) (LastRecord s) m.

(** The closure handed to [updateStageStats]. *)
Definition count_stage (lat : Z) (result : res string (option Record_)) (s : StageStats)
  : StageStats :=
  let avg := if (AvgLatency s =? 0)%Z then lat
             else Z.quot (int64_wrap (AvgLatency s + lat)) 2 in
  match result with
  | Ok (Some _) => MkStageStats (StatName s) (add1 (StageInput s)) (add1 (StageOutput s))
                     (StageFiltered s) (StageError s) avg
  | Ok None => MkStageStats (StatName s) (add1 (StageInput s)) (StageOutput s)
                 (add1 (StageFiltered s)) (StageError s) avg
  | _ => MkStageStats (StatName s) (add1 (StageInput s)) (StageOutput s)
           (StageFiltered s) (add1 (StageError s)) avg
  end.

Definition updateStageStats (nm : string) (f : StageStats -> StageStats)
  (m : gmap string StageStats) : gmap string StageStats := alter f nm m.

(** The loop of [processRecord]: it returns the stages with their counters, the
    statistics of the stages and the number of calls made. *)
Fixpoint process_stages (n : nat) (ss : list Stage) (current : option Record_)
  (m : gmap string StageStats)
  : res string (option Record_) * list Stage * gmap string StageStats * nat :=
  match ss with
  | [] => (Ok current, [], m, n)
  | s :: ss' =>
      match current with
      | None => (Ok None, ss, m, n)
      | Some r =>
          let '(result, s') := Process range_data rand time_text n s r in
          match result with
          | Panic => (Panic, s' :: ss', m, S n)
          | _ =>
              let m := updateStageStats (StageName s) (count_stage (latency n) result) m in
              match result with
              | Ok next =>
                  let '(result', rest, m, n) := process_stages (S n) ss' next m in
                  (result', s' :: rest, m, n)
              | Err e => (Err ("stage " +:+ StageName s +:+ ": " +:+ e), s' :: ss', m, S n)
              | Panic => (Panic, s' :: ss', m, S n)
              end
          end
      end
  end.

Definition processRecord (record : Record_) p : res string (option Record_) * StreamProcessor K :=
  let '(result, ss, m, n) := process_stages (calls p) (stages p) (Some record)
                               (StageStatsMap (stats p)) in
  (result, MkProcessor (pname p) ss (sink p) (state p) (set_stage_stats m (stats p))
             (statsStart p) n).

(** What [processLoop] does with a record it receives; [Panic] ends the program. *)
Definition handle_record (now : Z) (record : Record_) p : res string unit * StreamProcessor K :=
  if bool_decide (state p = ProcessorStatePaused) then (Ok tt, p)
  else
    let p := set_stats (count_input now (stats p)) p in
    let '(result, p) := processRecord record p in
    match result with
    | Panic => (Panic, p)
    | Err _ => (Ok tt, set_stats (count_error (stats p)) p)
    | Ok None => (Ok tt, set_stats (count_filtered (stats p)) p)
    | Ok (Some r) =>
        let '(w, k) := write r (sink p) in
        let p := set_sink k p in
        match w with
        | Panic => (Panic, p)
        | Err _ => (Ok tt, set_stats (count_error (stats p)) p)
        | Ok _ => (Ok tt, set_stats (count_output (stats p)) p)
        end
    end.

(** [Start], up to the goroutines it starts. *)
Definition Start (now : Z) p : res string (StreamProcessor K) :=
  let '(ok, p) := compareAndSwapState ProcessorStateCreated ProcessorStateRunning p in
  let '(ok, p) := if ok then (ok, p)
                  else compareAndSwapState ProcessorStateStopped ProcessorStateRunning p in
  if ok then Ok (MkProcessor (pname p) (stages p) (sink p) (state p) (stats p) now (calls p))
  else Err ("processor not in valid state to start: " +:+ ProcessorState_String (state p)).

(** [Stop] up to the cancellation of the context. *)
Definition stop_begin p : res string (StreamProcessor K) :=
  let '(ok, p) := compareAndSwapState ProcessorStateRunning ProcessorStateStopping p in
  let '(ok, p) := if ok then (ok, p)
                  else compareAndSwapState ProcessorStatePaused ProcessorStateStopping p in
  if ok then Ok p
  else Err ("processor not in valid state to stop: " +:+ ProcessorState_String (state p)).

(** [Stop] after its wait: the loop has flushed the sink on its way out. *)
Definition stop_end (now : Z) p : StreamProcessor K :=
  let p := set_sink (flush (sink p)) p in
  let p := set_state ProcessorStateStopped p in
  let s := stats p in
  set_stats (MkProcStats (SourceName s) (InputCount s) (OutputCount s) (FilteredCount s)
    (ErrorCount s) (now - statsStart p)%Z (LastRecord s) (StageStatsMap s)) p.

Definition Stop (now : Z) p : res string (StreamProcessor K) :=
  stop_begin p ≫= fun p => Ok (stop_end now p).

Definition Pause p : res string (StreamProcessor K) :=
  let '(ok, p) := compareAndSwapState ProcessorStateRunning ProcessorStatePaused p in
  if ok then Ok p
  else Err ("processor not running, cannot pause: " +:+ ProcessorState_String (state p)).

Definition Resume p : res string (StreamProcessor K) :=
  let '(ok, p) := compareAndSwapState ProcessorStatePaused ProcessorStateRunning p in
  if ok then Ok p
  else Err ("processor not paused, cannot resume: " +:+ ProcessorState_String (state p)).

(** ** Interleavings of the loop with the calls of other goroutines *)

Inductive StreamEvent :=
| EvRecord (now : Z) (r : Record_)
| EvStart (now : Z)
| EvStopBegin
| EvStopEnd (now : Z)
| EvPause
| EvResume.

(** A refused call leaves the processor as it is; the loop may still take records
    between the two parts of a stop. *)
Definition stream_event p (ev : StreamEvent) : res string (StreamProcessor K) :=
  let keep m := match m with Ok q => Ok q | Err _ => Ok p | Panic => Panic end in
  match ev with
  | EvRecord now r => match handle_record now r p with
                      | (Panic, _) => Panic
                      | (_, q) => Ok q
                      end
  | EvStart now => keep (Start now p)
  | EvStopBegin => keep (stop_begin p)
  | EvStopEnd now => if bool_decide (state p = ProcessorStateStopping)
                     then Ok (stop_end now p) else Ok p
  | EvPause => keep (Pause p)
  | EvResume => keep (Resume p)
  end.

Definition run_events (evs : list StreamEvent) p : res string (StreamProcessor K) :=
  foldl (fun m ev => m ≫= fun q => stream_event q ev) (Ok p) evs.
End Processor.

(** ** Stages keep a map that is not nil *)

Definition has_data (r : Record_) : Prop := RData r <> None.

Section Proofs.
Context {K : Type} (write : Record_ -> K -> res string unit * K) (flush : K -> K).
Context `{GoRuntime} `{GoArch}.
Context (range_data : Data -> list (string * GoValue)).
Context (rand : nat -> spec_float) (time_text : nat -> string) (latency : nat -> Z).

Lemma Process_spec n s r :
  let '(result, s') := Process range_data rand time_text n s r in
  StageName s' = StageName s /\
  (has_data r -> match result with
                 | Ok (Some r') => has_data r'
                 | Ok None | Err _ => True
                 | Panic => False
                 end).
Proof.
  destruct s as [b|b c|b m|b rate|b f|b w g a|b sch d]; simpl.
  - done.
  - unfold filter_Process. by destruct (evaluator c (read r)).
  - split; [done|]. intros _. done.
  - unfold sample_Process. by destruct (float_lt (rand n) rate).
  - unfold enrich_Process, enrich_data. simpl. case_bool_decide; [done|].
    destruct (RData r) as [d|] eqn:E; simpl; (split; [done|]); unfold has_data; rewrite E; done.
  - done.
  - unfold validation_Process. destruct sch as [sch|]; [|done].
    destruct (Validate range_data sch (read r)) as [[]|e|]; simpl; [done|by destruct d..].
Qed.

(** ** The counters of the stages form a flow *)

(** [inp] records enter a chain of stages: each stage has as many inputs as the one
    before it has outputs, and its outputs, filtered records and errors add up. *)
Fixpoint flow (inp : Z) (names : list string) (m : gmap string StageStats) : Prop :=
  match names with
  | [] => True
  | nm :: names' =>
      exists st, m !! nm = Some st /\ eqm (StageInput st) inp /\
        eqm (StageInput st) (StageOutput st + StageFiltered st + StageError st) /\
        flow (StageOutput st) names' m
  end.

Lemma flow_proper inp inp' names m : eqm inp inp' -> flow inp names m -> flow inp' names m.
Proof.
  intros E. destruct names as [|nm names]; [done|]. intros (st & ? & Hi & ?).
  exists st. split; [done|]. split; [by rewrite Hi | done].
Qed.

Lemma flow_ext inp names m m' :
  (forall k, k ∈ names -> m' !! k = m !! k) -> flow inp names m -> flow inp names m'.
Proof.
  revert inp. induction names as [|nm names IH]; intros inp Hk; [done|].
  intros (st & Hl & ? & ? & Hf). exists st. rewrite Hk by set_solver.
  split; [done|]. split; [done|]. split; [done|]. apply IH; [set_solver | done].
Qed.

Lemma add1_eqm z : eqm (add1 z) (z + 1).
Proof. apply wrap_eqm. Qed.

Lemma count_stage_balance lat result st :
  result <> Panic ->
  eqm (StageInput st) (StageOutput st + StageFiltered st + StageError st) ->
  let st' := count_stage lat result st in
  eqm (StageInput st') (StageInput st + 1) /\
  eqm (StageInput st') (StageOutput st' + StageFiltered st' + StageError st') /\
  (match result with Ok (Some _) => eqm (StageOutput st') (StageOutput st + 1)
                | _ => StageOutput st' = StageOutput st end).
Proof.
  intros Hp Hb. destruct result as [[r|]|e|]; simpl; try done;
    rewrite !add1_eqm, ?Hb; (split; [done|]); (split; [|done]); exists 0%Z; lia.
Qed.

Lemma process_stages_flow n ss r m inp :
  NoDup (map StageName ss) -> has_data r -> flow inp (map StageName ss) m ->
  let '(result, ss', m', n') :=
    process_stages range_data rand time_text latency n ss (Some r) m in
  result <> Panic /\ map StageName ss' = map StageName ss /\
  flow (inp + 1) (map StageName ss) m' /\
  (forall k, k ∉ map StageName ss -> m' !! k = m !! k) /\
  (match result with Ok (Some r') => has_data r' | _ => True end).
Proof.
  revert n r m inp. induction ss as [|s ss IH]; intros n r m inp Hnd Hr Hf; simpl; [done|].
  cbn [map] in Hnd. apply NoDup_cons in Hnd as [Hni Hnd].
  destruct Hf as (st & Hl & Hi & Hb & Hf).
  pose proof (Process_spec n s r) as Hs.
  destruct (Process range_data rand time_text n s r) as [result s']. destruct Hs as [Hnm Hdata].
  specialize (Hdata Hr).
  assert (result <> Panic) as Hnp by by destruct result.
  pose proof (count_stage_balance (latency n) result st Hnp Hb) as (Hi' & Hb' & Ho').
  set (st' := count_stage (latency n) result st) in *.
  set (m1 := updateStageStats (StageName s) (count_stage (latency n) result) m).
  assert (m1 !! StageName s = Some st') as Hm1.
  { unfold m1, updateStageStats. by rewrite lookup_alter_eq, Hl. }
  assert (forall k, k <> StageName s -> m1 !! k = m !! k) as Hm1'.
  { intros k Hk. unfold m1, updateStageStats. by rewrite lookup_alter_ne. }
  assert (flow (StageOutput st) (map StageName ss) m1) as Hf1.
  { eapply flow_ext; [|exact Hf]. intros k Hk. apply Hm1'. by intros ->. }
  assert (eqm (StageInput st') (inp + 1)) as Hin by by rewrite Hi', Hi.
  destruct result as [[r'|]|e|]; [| | |done].
  - specialize (IH (S n) r' m1 (StageOutput st) Hnd Hdata Hf1).
    destruct (process_stages range_data rand time_text latency (S n) ss (Some r') m1)
      as [[[result' rest] m2] n2].
    destruct IH as (Hp & Hnames & Hf2 & Hout & Hd). simpl. split; [done|].
    split; [by rewrite Hnm, Hnames|]. split; [|split; [|done]].
    + exists st'. rewrite Hout by done. split; [done|]. split; [done|]. split; [done|].
      eapply flow_proper; [|exact Hf2]. by rewrite Ho'.
    + intros k Hk. rewrite Hout by set_solver. apply Hm1'. set_solver.
  - assert (process_stages range_data rand time_text latency (S n) ss None m1
      = (Ok None, ss, m1, S n)) as -> by by destruct ss.
    simpl. split; [done|]. split; [by rewrite Hnm|]. split; [|split; [|done]].
    + exists st'. split; [done|]. split; [done|]. split; [done|]. by rewrite Ho'.
    + intros k Hk. apply Hm1'. set_solver.
  - simpl. split; [done|]. split; [by rewrite Hnm|]. split; [|split; [|done]].
    + exists st'. split; [done|]. split; [done|]. split; [done|]. by rewrite Ho'.
    + intros k Hk. apply Hm1'. set_solver.
Qed.

(** ** The processor *)

Record stream_ok (names : list string) (p : StreamProcessor K) : Prop := {
  so_names : map StageName (stages p) = names;
  so_balance : eqm (InputCount (stats p))
    (OutputCount (stats p) + FilteredCount (stats p) + ErrorCount (stats p));
  so_flow : flow (InputCount (stats p)) names (StageStatsMap (stats p))
}.

Context (write_no_panic : forall r k, fst (write r k) <> Panic).

Definition paused (p : StreamProcessor K) : bool := bool_decide (state p = ProcessorStatePaused).

Lemma handle_record_ok names now r p :
  NoDup names -> has_data r -> stream_ok names p ->
  let '(result, q) := handle_record write range_data rand time_text latency now r p in
  result <> Panic /\ stream_ok names q /\ state q = state p /\
  eqm (InputCount (stats q)) (InputCount (stats p) + if paused p then 0 else 1).
Proof.
  intros Hnd Hr [Hn Hb Hf]. unfold handle_record, paused. case_bool_decide as Hp.
  { split; [done|]. split; [done|]. split; [done|]. exists 0%Z. lia. }
  unfold processRecord. cbn [calls stages stats set_stats StageStatsMap count_input].
  pose proof (process_stages_flow (calls p) (stages p) r (StageStatsMap (stats p))
    (InputCount (stats p))) as Hs. rewrite Hn in Hs. specialize (Hs Hnd Hr Hf).
  destruct (process_stages range_data rand time_text latency (calls p) (stages p) (Some r)
    (StageStatsMap (stats p))) as [[[result ss] m] n]. cbv beta iota.
  destruct Hs as (Hnp & Hnames & Hflow & _ & _).
  assert (flow (add1 (InputCount (stats p))) names m) as Hflow'.
  { eapply flow_proper; [|exact Hflow]. by rewrite add1_eqm. }
  assert (forall o f e, eqm (o + f + e)
      (OutputCount (stats p) + FilteredCount (stats p) + ErrorCount (stats p) + 1) ->
    eqm (add1 (InputCount (stats p))) (o + f + e)) as Hbal.
  { intros o f e ->. rewrite add1_eqm. by rewrite Hb. }
  destruct result as [[r'|]|e|]; [| | |done].
  - simpl. pose proof (write_no_panic r' (sink p)) as Hw.
    destruct (write r' (sink p)) as [[[]|e|] k]; simpl in *; [| |done];
      (split; [done|]); (split; [|split; [done | apply add1_eqm]]); split; simpl; try done;
      apply Hbal; rewrite add1_eqm; exists 0%Z; lia.
  - simpl. split; [done|]. split; [|split; [done | apply add1_eqm]]. split; simpl; try done.
    apply Hbal. rewrite add1_eqm. exists 0%Z. lia.
  - simpl. split; [done|]. split; [|split; [done | apply add1_eqm]]. split; simpl; try done.
    apply Hbal. rewrite add1_eqm. exists 0%Z. lia.
Qed.

(** The calls of other goroutines touch neither the stages nor the counters. *)
Definition same_counts (p q : StreamProcessor K) : Prop :=
  stages q = stages p /\ StageStatsMap (stats q) = StageStatsMap (stats p) /\
  InputCount (stats q) = InputCount (stats p) /\ OutputCount (stats q) = OutputCount (stats p) /\
  FilteredCount (stats q) = FilteredCount (stats p) /\ ErrorCount (stats q) = ErrorCount (stats p).

Definition is_record (ev : StreamEvent) : bool :=
  match ev with EvRecord _ _ => true | _ => false end.

Definition step := stream_event write flush range_data rand time_text latency.

Lemma control_same_counts p ev :
  is_record ev = false -> exists q, step p ev = Ok q /\ same_counts p q.
Proof.
  destruct ev as [|now| |now| |]; [done|..]; intros _; simpl;
    unfold Start, stop_begin, Pause, Resume, compareAndSwapState;
    repeat case_bool_decide; simpl; eexists; (split; [reflexivity | done]).
Qed.

Definition event_data (ev : StreamEvent) : Prop :=
  match ev with EvRecord _ r => has_data r | _ => True end.

(** The records that arrive while the processor is paused. *)
Fixpoint lost (p : StreamProcessor K) (evs : list StreamEvent) : Z :=
  match evs with
  | [] => 0
  | ev :: evs' =>
      ((if is_record ev && paused p then 1 else 0) +
       match step p ev with Ok q => lost q evs' | _ => 0 end)%Z
  end.

Definition run (evs : list StreamEvent) (p : StreamProcessor K) : res string (StreamProcessor K) :=
  run_events write flush range_data rand time_text latency evs p.

Lemma run_cons ev evs p : run (ev :: evs) p = step p ev ≫= run evs.
Proof.
  unfold run, run_events, step. cbn [foldl]. simpl.
  destruct (stream_event _ _ _ _ _ _ p ev) as [q|e|]; [done|simpl..].
  - induction evs as [|ev' evs IH]; [done|]. simpl. exact IH.
  - induction evs as [|ev' evs IH]; [done|]. simpl. exact IH.
Qed.

Definition records (evs : list StreamEvent) : Z :=
  Z.of_nat (length (List.filter is_record evs)).

Lemma stream_run_ok names evs p :
  NoDup names -> Forall event_data evs -> stream_ok names p ->
  exists q, run evs p = Ok q /\ stream_ok names q /\
    eqm (InputCount (stats q) + lost p evs) (InputCount (stats p) + records evs).
Proof.
  intros Hnd. revert p. induction evs as [|ev evs IH]; intros p Hd Hok.
  { exists p. split; [done|]. split; [done|]. unfold records. simpl. exists 0%Z. lia. }
  apply Forall_cons in Hd as [Hev Hd]. rewrite run_cons. cbn [lost].
  destruct (is_record ev) eqn:Er.
  - destruct ev as [now r| | | | |]; [|done..]. unfold step at 1 2. simpl in *.
    pose proof (handle_record_ok names now r p Hnd Hev Hok) as Hh.
    destruct (handle_record write range_data rand time_text latency now r p) as [result q].
    destruct Hh as (Hnp & Hok' & _ & Hc).
    destruct (IH q Hd Hok') as (q' & Hrun & Hok'' & Hl).
    assert (eqm (InputCount (stats q') + ((if paused p then 1 else 0) + lost q evs))
      (InputCount (stats p) + records (EvRecord now r :: evs))) as Hend.
    { transitivity ((InputCount (stats q') + lost q evs) + if paused p then 1 else 0)%Z.
      { exists 0%Z. lia. }
      rewrite Hl, Hc. unfold records. simpl. exists 0%Z. destruct (paused p); lia. }
    exists q'. by destruct result as [[]|e|].
  - destruct (control_same_counts p ev Er) as (q & Hq & Hsame). rewrite Hq.
    destruct Hsame as (E1 & E2 & E3 & E4 & E5 & E6).
    destruct (IH q Hd) as (q' & Hrun & Hok' & Hl).
    { destruct Hok as [Hn Hb Hf]. split; [by rewrite E1|by rewrite E3, E4, E5, E6|by rewrite E2, E3]. }
    exists q'. split; [done|]. split; [done|]. unfold records in *. simpl. rewrite Er, <- E3. done.
Qed.
End Proofs.

Lemma new_stats_lookup (ss : list Stage) (m0 : gmap string StageStats) nm :
  nm ∈ map StageName ss ->
  foldl (fun m s => <[StageName s := MkStageStats (StageName s) 0 0 0 0 0]> m) m0 ss !! nm
  = Some (MkStageStats nm 0 0 0 0 0).
Proof.
  induction ss as [|s ss IH] using rev_ind; intros Hin; [by apply elem_of_nil in Hin|].
  rewrite foldl_app. simpl. destruct (decide (StageName s = nm)) as [<-|Hne].
  - by rewrite lookup_insert_eq.
  - rewrite lookup_insert_ne by done. apply IH. rewrite map_app in Hin. set_solver.
Qed.

Lemma new_stream_ok {K} nm src (ss : list Stage) (k : K) :
  stream_ok (map StageName ss) (NewStreamProcessor nm src ss k).
Proof.
  split; simpl; [done | done|].
  set (m := foldl _ _ _).
  assert (forall names, (forall x, x ∈ names -> x ∈ map StageName ss) -> flow 0 names m) as Hall.
  { induction names as [|x names IH]; intros Hsub; [done|].
    exists (MkStageStats x 0 0 0 0 0). split; [apply new_stats_lookup; set_solver|].
    split; [done|]. split; [done|]. apply IH. set_solver. }
  by apply Hall.
Qed.


Definition demo_record (level : string) : Record_ :=
  MkRec (Some {["level" := VString level]}) (MkMeta "kafka" 0 0 "") 0.

Definition demo_stages : list Stage :=
  [NewFilterStage "errors" {["condition" := VString (".level == " +:+ quoted "error")]};
   NewEnrichStage "env" {["fields" := VMap {["env" := VString "prod"]}]}].

Definition demo_events : list StreamEvent :=
  [EvStart 1; EvRecord 2 (demo_record "error"); EvRecord 3 (demo_record "info"); EvPause;
   EvRecord 4 (demo_record "error"); EvResume; EvStopBegin; EvStopEnd 9].

Definition demo_write (r : Record_) (k : list Record_) : res string unit * list Record_ :=
  (Ok tt, k ++ [r]).


(** The state machine of a stream processor. A start succeeds exactly from created
    or stopped, a stop from running or paused, a pause from running and a resume from
    paused; a stop flushes the sink; no call ever leads to the state failed. *)
Theorem stream_state_machine {K} (flush : K -> K) (now : Z) (p : StreamProcessor K) :
  (match Start now p with
   | Ok q => (state p = ProcessorStateCreated \/ state p = ProcessorStateStopped) /\
             state q = ProcessorStateRunning
   | _ => state p <> ProcessorStateCreated /\ state p <> ProcessorStateStopped
   end) /\
  (match Stop flush now p with
   | Ok q => (state p = ProcessorStateRunning \/ state p = ProcessorStatePaused) /\
             state q = ProcessorStateStopped /\ sink q = flush (sink p)
   | _ => state p <> ProcessorStateRunning /\ state p <> ProcessorStatePaused
   end) /\
  (match Pause p with
   | Ok q => state p = ProcessorStateRunning /\ state q = ProcessorStatePaused
   | _ => state p <> ProcessorStateRunning
   end) /\
  (match Resume p with
   | Ok q => state p = ProcessorStatePaused /\ state q = ProcessorStateRunning
   | _ => state p <> ProcessorStatePaused
   end).
Proof.
  unfold Start, Stop, stop_begin, Pause, Resume, compareAndSwapState.
  destruct (state p) eqn:E; simpl; rewrite ?E; simpl; repeat split; auto; congruence.
Qed.
