(* ===== verification/ResilientClient.v ===== *)
(** * The resilient Redis client (shared/redis/resilient_client.go)

    The circuit breaker, the local cache the client falls back to, the request
    methods built from them, and the reconnect loop. What Redis answers is an
    argument of each request; [now] is the clock in nanoseconds. Counters are
    machine integers. *)

From Stdlib Require Import String SpecFloat.
From S2P Require Import Prelude GoValue Schema.
Local Open Scope string_scope.
Local Open Scope Z_scope.
Local Open Scope list_scope.

Inductive ConnectionState := StateConnected | StateDisconnected | StateReconnecting.
Inductive CircuitState := CircuitClosed | CircuitOpen | CircuitHalfOpen.

#[export] Instance ConnectionState_eq_dec : EqDecision ConnectionState.
Proof. solve_decision. Defined.
#[export] Instance CircuitState_eq_dec : EqDecision CircuitState.
Proof. solve_decision. Defined.

Record Config := MkConfig {
  MaxRetries : Z;
  InitialBackoff : Z;
  MaxBackoff : Z;
  BackoffMultiplier : spec_float;
  FailureThreshold : Z;
  SuccessThreshold : Z;
  OpenTimeout : Z;
  EnableLocalCache : bool;
  LocalCacheTTL : Z;
  LocalCacheMaxSize : Z
}.

Definition millisecond : Z := 1000000.
Definition DefaultConfig : Config :=
  MkConfig 0 (100 * millisecond) (30000 * millisecond) (float64_of_Z 2) 5 2
    (30000 * millisecond) true (300000 * millisecond) 1000.

Record cacheEntry := MkEntry { value : string; expiresAt : Z }.

Record Metrics := MkMetrics {
  TotalRequests : Z;
  SuccessfulRequests : Z;
  FailedRequests : Z;
  CacheHits : Z;
  CacheMisses : Z;
  ReconnectAttempts : Z;
  CircuitBreakerTrips : Z;
  LastError : option string;
  LastErrorTime : Z;
  AverageLatencyMs : spec_float;
  latencySum : Z;
  latencyCount : Z
}.

Definition zero_metrics : Metrics := MkMetrics 0 0 0 0 0 0 0 None 0 (S754_zero false) 0 0.

Record ResilientClient := MkClient {
  connState : ConnectionState;
  circuitState : CircuitState;
  failureCount : Z;
  successCount : Z;
  lastFailure : Z;
  localCache : gmap string cacheEntry;
  metrics : Metrics
}.

Definition incr (n : Z) : Z := int64_wrap (n + 1).

Definition set_metrics (m : Metrics) (rc : ResilientClient) : ResilientClient :=
  MkClient (connState rc) (circuitState rc) (failureCount rc) (successCount rc)
    (lastFailure rc) (localCache rc) m.
Definition set_circuit (s : CircuitState) (f ok last : Z) (rc : ResilientClient)
  : ResilientClient :=
  MkClient (connState rc) s f ok last (localCache rc) (metrics rc).
Definition set_cache (c : gmap string cacheEntry) (rc : ResilientClient) : ResilientClient :=
  MkClient (connState rc) (circuitState rc) (failureCount rc) (successCount rc)
    (lastFailure rc) c (metrics rc).
Definition setConnectionState (s : ConnectionState) (rc : ResilientClient) : ResilientClient :=
  MkClient s (circuitState rc) (failureCount rc) (successCount rc)
    (lastFailure rc) (localCache rc) (metrics rc).

(** [NewResilientClient], after the answer to its first ping; the flag tells whether
    it starts a reconnect loop. *)
Definition NewResilientClient (ping : bool) : ResilientClient * bool :=
  let rc := MkClient StateDisconnected CircuitClosed 0 0 0 ∅ zero_metrics in
  if ping then (setConnectionState StateConnected rc, false) else (rc, true).

Definition count_total (rc : ResilientClient) : ResilientClient :=
  set_metrics (let '(MkMetrics t s f h m r c e et avg sum n) := metrics rc in
               MkMetrics (incr t) s f h m r c e et avg sum n) rc.
Definition count_success (rc : ResilientClient) : ResilientClient :=
  set_metrics (let '(MkMetrics t s f h m r c e et avg sum n) := metrics rc in
               MkMetrics t (incr s) f h m r c e et avg sum n) rc.
Definition count_failure (err : string) (now : Z) (rc : ResilientClient) : ResilientClient :=
  set_metrics (let '(MkMetrics t s f h m r c e et avg sum n) := metrics rc in
               MkMetrics t s (incr f) h m r c (Some err) now avg sum n) rc.
Definition count_trip (rc : ResilientClient) : ResilientClient :=
  set_metrics (let '(MkMetrics t s f h m r c e et avg sum n) := metrics rc in
               MkMetrics t s f h m r (incr c) e et avg sum n) rc.
Definition count_hit (rc : ResilientClient) : ResilientClient :=
  set_metrics (let '(MkMetrics t s f h m r c e et avg sum n) := metrics rc in
               MkMetrics t s f (incr h) m r c e et avg sum n) rc.
Definition count_miss (rc : ResilientClient) : ResilientClient :=
  set_metrics (let '(MkMetrics t s f h m r c e et avg sum n) := metrics rc in
               MkMetrics t s f h (incr m) r c e et avg sum n) rc.
Definition count_reconnect (rc : ResilientClient) : ResilientClient :=
  set_metrics (let '(MkMetrics t s f h m r c e et avg sum n) := metrics rc in
               MkMetrics t s f h m (incr r) c e et avg sum n) rc.

(** [recordLatency], for a request of [d] nanoseconds. *)
Definition recordLatency (d : Z) (rc : ResilientClient) : ResilientClient :=
  set_metrics (
    let '(MkMetrics t s f h m r c e et avg sum n) := metrics rc in
    let sum := int64_wrap (sum + Z.quot d millisecond) in
    let n := incr n in
    let avg := if 0 <? n
               then SFdiv float64_prec float64_emax (float64_of_Z sum) (float64_of_Z n)
               else avg in
    MkMetrics t s f h m r c e et avg sum n) rc.

Section Client.
Context (config : Config).

(** ** The circuit breaker *)

Definition recordFailure (err : string) (now : Z) (rc : ResilientClient) : ResilientClient :=
  let rc := set_circuit (circuitState rc) (incr (failureCount rc)) 0 now rc in
  let rc := count_failure err now rc in
  if bool_decide (circuitState rc = CircuitClosed) && (FailureThreshold config <=? failureCount rc)
  then count_trip (set_circuit CircuitOpen (failureCount rc) (successCount rc)
                     (lastFailure rc) rc)
  else rc.

Definition recordSuccess (rc : ResilientClient) : ResilientClient :=
  let rc := count_success rc in
  match circuitState rc with
  | CircuitHalfOpen =>
      let ok := incr (successCount rc) in
      if SuccessThreshold config <=? ok
      then set_circuit CircuitClosed 0 0 (lastFailure rc) rc
      else set_circuit CircuitHalfOpen (failureCount rc) ok (lastFailure rc) rc
  | CircuitClosed => set_circuit CircuitClosed 0 (successCount rc) (lastFailure rc) rc
  | CircuitOpen => rc
  end.

Definition resetCircuitBreaker (rc : ResilientClient) : ResilientClient :=
  set_circuit CircuitClosed 0 0 (lastFailure rc) rc.

Definition canExecute (now : Z) (rc : ResilientClient) : bool * ResilientClient :=
  match circuitState rc with
  | CircuitClosed => (true, rc)
  | CircuitOpen =>
      if OpenTimeout config <? now - lastFailure rc
      then (true, set_circuit CircuitHalfOpen (failureCount rc) (successCount rc)
                    (lastFailure rc) rc)
      else (false, rc)
  | CircuitHalfOpen => (true, rc)
  end.

(** ** The local cache *)

(** The first key of a Go range over the map, which the language leaves open. *)
Context (first_key : gmap string cacheEntry -> option string).

Definition evict (c : gmap string cacheEntry) : gmap string cacheEntry :=
  match first_key c with Some k => delete k c | None => c end.

Definition setLocalCache (now : Z) (key val : string) (ttl : Z) (rc : ResilientClient)
  : ResilientClient :=
  let c := localCache rc in
  let c := if LocalCacheMaxSize config <=? Z.of_nat (size c) then evict c else c in
  let expires := if ttl =? 0 then now + LocalCacheTTL config else now + ttl in
  set_cache (<[key := MkEntry val expires]> c) rc.

Definition getLocalCache (now : Z) (key : string) (rc : ResilientClient) : option string :=
  match localCache rc !! key with
  | None => None
  | Some entry => if expiresAt entry <? now then None else Some (value entry)
  end.

Definition cleanupExpiredCache (now : Z) (rc : ResilientClient) : ResilientClient :=
  set_cache (filter (fun kv => (expiresAt kv.2 <? now) = false) (localCache rc)) rc.

(** ** Requests *)

(** What the Redis library answers to a read and to a write. *)
Inductive GetReply := Found (v : string) | Missing | GetFailed (err : string).
Inductive WriteReply := Written | WriteFailed (err : string).

Inductive RequestError :=
| ErrMarshal
| ErrCircuitOpen
| ErrNotConnected
| ErrNotAvailable
| ErrRedis (err : string)
| ErrKeyNotFound.

Definition connected (rc : ResilientClient) : bool :=
  bool_decide (connState rc = StateConnected).

(** [data] is the marshalled value, [None] when marshalling fails; [latency] is what
    the call to Redis takes. The last part of the result tells whether Redis was
    asked. *)
Definition Set_ (now latency : Z) (key : string) (data : option string) (expiration : Z)
  (reply : WriteReply) (rc : ResilientClient) : res RequestError unit * ResilientClient * bool :=
  let rc := count_total rc in
  match data with
  | None => (Err ErrMarshal, rc, false)
  | Some d =>
      let rc := if EnableLocalCache config then setLocalCache now key d expiration rc else rc in
      let '(ok, rc) := canExecute now rc in
      if negb ok then (Err ErrCircuitOpen, rc, false)
      else if negb (connected rc) then (Err ErrNotConnected, rc, false)
      else
        let rc := recordLatency latency rc in
        match reply with
        | WriteFailed e => (Err (ErrRedis e), recordFailure e now rc, true)
        | Written => (Ok tt, recordSuccess rc, true)
        end
  end.

(** The fallback of [Get]. *)
Definition get_fallback (now : Z) (key : string) (rc : ResilientClient)
  : res RequestError string * ResilientClient :=
  if EnableLocalCache config then
    match getLocalCache now key rc with
    | Some v => (Ok v, count_hit rc)
    | None => (Err ErrKeyNotFound, count_miss rc)
    end
  else (Err ErrKeyNotFound, rc).

Definition Get (now latency : Z) (key : string) (reply : GetReply) (rc : ResilientClient)
  : res RequestError string * ResilientClient * bool :=
  let rc := count_total rc in
  let '(ok, rc) := canExecute now rc in
  if ok && connected rc then
    let rc := recordLatency latency rc in
    match reply with
    | Found v =>
        let rc := recordSuccess rc in
        let rc := if EnableLocalCache config
                  then setLocalCache now key v (LocalCacheTTL config) rc else rc in
        (Ok v, rc, true)
    | Missing => (get_fallback now key rc, true)
    | GetFailed e => (get_fallback now key (recordFailure e now rc), true)
    end
  else (get_fallback now key rc, false).

Definition Del (now : Z) (keys : list string) (reply : WriteReply) (rc : ResilientClient)
  : res RequestError unit * ResilientClient * bool :=
  let rc := if EnableLocalCache config
            then set_cache (foldl (fun c k => delete k c) (localCache rc) keys) rc else rc in
  let '(ok, rc) := canExecute now rc in
  if negb ok || negb (connected rc) then (Err ErrNotAvailable, rc, false)
  else match reply with
       | WriteFailed e => (Err (ErrRedis e), recordFailure e now rc, true)
       | Written => (Ok tt, recordSuccess rc, true)
       end.

Definition Publish (now : Z) (data : option string) (reply : WriteReply) (rc : ResilientClient)
  : res RequestError unit * ResilientClient * bool :=
  let rc := count_total rc in
  let '(ok, rc) := canExecute now rc in
  if negb ok || negb (connected rc) then (Err ErrNotAvailable, rc, false)
  else match data with
       | None => (Err ErrMarshal, rc, false)
       | Some _ =>
           match reply with
           | WriteFailed e => (Err (ErrRedis e), recordFailure e now rc, true)
           | Written => (Ok tt, recordSuccess rc, true)
           end
       end.

(** [IsHealthy]. *)
Definition IsHealthy (rc : ResilientClient) : bool :=
  connected rc && negb (bool_decide (circuitState rc = CircuitOpen)).

(** ** Reconnecting *)

Context `{GoArch}.

Definition next_backoff (backoff : Z) : Z :=
  let b := int64_of_float (SFmul float64_prec float64_emax (float64_of_Z backoff)
             (BackoffMultiplier config)) in
  if MaxBackoff config <? b then MaxBackoff config else b.

(** The loop of [reconnectLoop] over the answers to its pings, [true] for a
    connection; the list of sleeps is returned too. [None] as the outcome means
    that the loop is still going after these answers. *)
Fixpoint reconnect (attempts backoff : Z) (pings : list bool) (rc : ResilientClient)
  : option bool * list Z * ResilientClient :=
  match pings with
  | [] => (None, [], rc)
  | true :: _ =>
      (Some true, [], resetCircuitBreaker (setConnectionState StateConnected (count_reconnect rc)))
  | false :: pings' =>
      let attempts := incr attempts in
      let rc := count_reconnect rc in
      if (0 <? MaxRetries config) && (MaxRetries config <=? attempts)
      then (Some false, [], setConnectionState StateDisconnected rc)
      else
        let '(o, sleeps, rc) := reconnect attempts (next_backoff backoff) pings' rc in
        (o, backoff :: sleeps, rc)
  end.

Definition reconnectLoop (pings : list bool) (rc : ResilientClient)
  : option bool * list Z * ResilientClient :=
  reconnect 0 (InitialBackoff config) pings (setConnectionState StateReconnecting rc).

(** One tick of [healthCheckLoop]; [ping] is the error of its
    ping, if any, and the result tells whether a reconnect loop starts. *)
Definition health_tick (now : Z) (ping : option string) (rc : ResilientClient) : bool * ResilientClient :=
  match ping with
  | Some err =>
      if connected rc then
        let rc := recordFailure err now rc in
        if connected rc then (true, setConnectionState StateDisconnected rc) else (false, rc)
      else (false, rc)
  | None => (false, rc)
  end.
End Client.

(** ** When the breaker opens *)

(** [n] equal outcomes in a row. *)
Definition run_of (x : bool) (n : nat) (l : list bool) : Prop :=
  exists a b, l = a ++ replicate n x ++ b.

Lemma run_of_app_l x n a l : run_of x n l -> run_of x n (a ++ l).
Proof. intros (c & d & ->). exists (a ++ c), d. by rewrite <- app_assoc. Qed.

Lemma run_of_short x n c : (c < n)%nat -> ~ run_of x n (replicate c x).
Proof.
  intros Hc (a & b & E%(f_equal length)).
  rewrite !length_app, !length_replicate in E. lia.
Qed.

(** Another outcome in between separates the runs. *)
Lemma run_of_split x n u v :
  (0 < n)%nat -> run_of x n (u ++ negb x :: v) -> run_of x n u \/ run_of x n v.
Proof.
  intros Hn (a & b & E). apply app_eq_inv in E as [(k & -> & E)|(k & -> & E)].
  - apply app_eq_inv in E as [(k2 & E & Hb)|(k2 & -> & _)]; [|left; by exists a, k2].
    destruct k2 as [|y k2].
    + left. exists a, []. rewrite app_nil_r in E. by rewrite app_nil_r, E.
    + injection Hb as <- _. assert (negb x ∈ replicate n x) as Hin
        by (rewrite E; set_solver).
      apply elem_of_replicate_inv in Hin. by destruct x.
  - destruct k as [|y k]; simpl in E.
    + destruct n as [|n]; [lia|]. injection E as E _. by destruct x.
    + injection E as _ ->. right. by exists k, b.
Qed.

Lemma run_of_break x n c l :
  (c < n)%nat -> run_of x n (replicate c x ++ negb x :: l) <-> run_of x n l.
Proof.
  intros Hc. split.
  - intros [Hs|?]%run_of_split; [by apply run_of_short in Hs | done | lia].
  - intros Hr. rewrite cons_middle. by do 2 apply run_of_app_l.
Qed.

Lemma run_of_here x n m l : n = m -> run_of x n (replicate m x ++ l).
Proof. intros ->. by exists [], l. Qed.

Lemma run_of_extend (x : bool) c l : replicate c x ++ x :: l = replicate (S c) x ++ l.
Proof. by rewrite replicate_S_end, <- app_assoc. Qed.


(** Outcomes of requests, with the time of each and its error text. *)
Definition record_outcome (config : Config) (rc : ResilientClient) (o : bool * (Z * string))
  : ResilientClient :=
  if o.1 then recordSuccess config rc else recordFailure config o.2.2 o.2.1 rc.

Definition outcomes (config : Config) (l : list (bool * (Z * string))) (rc : ResilientClient)
  : ResilientClient :=
  foldl (record_outcome config) rc l.

(** A breaker as the client leaves it: closed with fewer failures counted than the
    threshold, open with no success counted, or half open with fewer successes than
    needed. *)
Definition breaker_ok (config : Config) (rc : ResilientClient) : Prop :=
  match circuitState rc with
  | CircuitClosed => 0 <= failureCount rc < FailureThreshold config
  | CircuitOpen => successCount rc = 0
  | CircuitHalfOpen => 0 <= successCount rc < SuccessThreshold config
  end.

(** Every state of the breaker the client can be in: what else the client does
    leaves the three fields of the breaker alone. *)
Inductive breaker_reach (config : Config) : ResilientClient -> Prop :=
| br_new ping : breaker_reach config (fst (NewResilientClient ping))
| br_outcome rc o : breaker_reach config rc -> breaker_reach config (record_outcome config rc o)
| br_request rc now : breaker_reach config rc ->
    breaker_reach config (snd (canExecute config now rc))
| br_reset rc : breaker_reach config rc -> breaker_reach config (resetCircuitBreaker rc)
| br_other rc rc' : breaker_reach config rc -> circuitState rc' = circuitState rc ->
    failureCount rc' = failureCount rc -> successCount rc' = successCount rc ->
    breaker_reach config rc'.

Section Breaker.
Context (config : Config).
Context (HF : 1 <= FailureThreshold config < 2 ^ 63).
Context (HS : 1 <= SuccessThreshold config < 2 ^ 63).
Implicit Types (rc : ResilientClient) (l : list (bool * (Z * string))).

Lemma incr_below n b : 0 <= n < b -> b < 2 ^ 63 -> incr n = n + 1.
Proof. intros Hn Hb. unfold incr. apply int64_wrap_small. unfold int64_ok. lia. Qed.

Lemma closed_failure rc err now :
  circuitState rc = CircuitClosed -> 0 <= failureCount rc < FailureThreshold config ->
  let rc' := recordFailure config err now rc in
  failureCount rc' = failureCount rc + 1 /\ successCount rc' = 0 /\
  circuitState rc' = if FailureThreshold config <=? failureCount rc + 1
                     then CircuitOpen else CircuitClosed.
Proof.
  intros Hc Hf. unfold recordFailure. simpl. rewrite Hc, (incr_below _ _ Hf) by lia.
  rewrite bool_decide_eq_true_2 by done. by destruct (_ <=? _).
Qed.

Lemma other_failure rc err now :
  circuitState rc <> CircuitClosed ->
  let rc' := recordFailure config err now rc in
  successCount rc' = 0 /\ circuitState rc' = circuitState rc.
Proof.
  intros Hc. unfold recordFailure. simpl. by rewrite bool_decide_eq_false_2.
Qed.

Lemma half_success rc :
  circuitState rc = CircuitHalfOpen -> 0 <= successCount rc < SuccessThreshold config ->
  let rc' := recordSuccess config rc in
  if SuccessThreshold config <=? successCount rc + 1
  then circuitState rc' = CircuitClosed /\ failureCount rc' = 0
  else circuitState rc' = CircuitHalfOpen /\ successCount rc' = successCount rc + 1.
Proof.
  intros Hh Hs. unfold recordSuccess. simpl. rewrite Hh, (incr_below _ _ Hs) by lia.
  by destruct (_ <=? _).
Qed.

Lemma closed_success rc :
  circuitState rc = CircuitClosed ->
  let rc' := recordSuccess config rc in
  circuitState rc' = CircuitClosed /\ failureCount rc' = 0.
Proof. intros Hc. unfold recordSuccess. simpl. by rewrite Hc. Qed.

Lemma open_success rc :
  circuitState rc = CircuitOpen ->
  let rc' := recordSuccess config rc in
  circuitState rc' = CircuitOpen /\ successCount rc' = successCount rc.
Proof. intros Hc. unfold recordSuccess. simpl. by rewrite Hc. Qed.

Lemma record_outcome_ok rc o :
  breaker_ok config rc -> breaker_ok config (record_outcome config rc o).
Proof.
  unfold breaker_ok, record_outcome. destruct (circuitState rc) eqn:Hc; intros Hok;
    destruct (fst o).
  - destruct (closed_success rc Hc) as [-> ->]. lia.
  - destruct (closed_failure rc o.2.2 o.2.1 Hc Hok) as (-> & -> & ->).
    destruct (Z.leb_spec (FailureThreshold config) (failureCount rc + 1)); [done | lia].
  - by destruct (open_success rc Hc) as [-> ->].
  - destruct (other_failure rc o.2.2 o.2.1) as [-> ->]; [by rewrite Hc|]. by rewrite Hc.
  - pose proof (half_success rc Hc Hok) as H. cbv zeta in H.
    destruct (Z.leb_spec (SuccessThreshold config) (successCount rc + 1));
      destruct H as [-> ->]; lia.
  - destruct (other_failure rc o.2.2 o.2.1) as [-> ->]; [by rewrite Hc|].
    rewrite Hc. lia.
Qed.

Lemma breaker_reach_ok rc : breaker_reach config rc -> breaker_ok config rc.
Proof.
  induction 1 as [ping|rc o _ IH|rc now _ IH|rc _ _|rc rc' _ IH H1 H2 H3].
  - destruct ping; unfold breaker_ok; simpl; lia.
  - by apply record_outcome_ok.
  - unfold canExecute, breaker_ok in *. destruct (circuitState rc) eqn:Hc; simpl;
      rewrite ?Hc; try done.
    destruct (_ <? _); simpl; rewrite ?Hc; [|done]. lia.
  - unfold breaker_ok. simpl. lia.
  - unfold breaker_ok. by rewrite H1, H2, H3.
Qed.

Lemma outcomes_cons o l rc :
  outcomes config (o :: l) rc = outcomes config l (record_outcome config rc o).
Proof. done. Qed.

Lemma open_stays l rc :
  circuitState rc = CircuitOpen -> circuitState (outcomes config l rc) = CircuitOpen.
Proof.
  revert rc. induction l as [|[[] t] l IH]; intros rc Hc; [done|..]; rewrite outcomes_cons;
    apply IH; unfold record_outcome; cbn [fst snd].
  - by apply open_success.
  - destruct (other_failure rc t.2 t.1) as [_ ->]; [by rewrite Hc | done].
Qed.

(** From a closed breaker with [c] failures counted. *)
Lemma closed_opens l rc (c : nat) :
  circuitState rc = CircuitClosed -> failureCount rc = Z.of_nat c ->
  Z.of_nat c < FailureThreshold config ->
  let st := circuitState (outcomes config l rc) in
  st <> CircuitHalfOpen /\
  (st = CircuitOpen <->
   run_of false (Z.to_nat (FailureThreshold config)) (replicate c false ++ map fst l)).
Proof.
  revert rc c. induction l as [|[[] t] l IH]; intros rc c Hc Hf Hlt; cbv zeta.
  { simpl. rewrite Hc, app_nil_r. split; [done|]. split; [done|].
    intros Hr. apply run_of_short in Hr; [done | lia]. }
  - rewrite outcomes_cons. unfold record_outcome. cbn [fst snd map].
    destruct (closed_success rc Hc) as [H1 H2].
    destruct (IH _ 0%nat H1 H2 ltac:(lia)) as [IH1 IH2]. split; [done|].
    rewrite IH2. change true with (negb false). symmetry. apply run_of_break. lia.
  - rewrite outcomes_cons. unfold record_outcome. cbn [fst snd map].
    destruct (closed_failure rc t.2 t.1 Hc ltac:(lia)) as (H1 & _ & H2).
    rewrite run_of_extend.
    destruct (Z.leb_spec (FailureThreshold config) (failureCount rc + 1)).
    + rewrite open_stays by done. split; [done|]. split; [|done]. intros _.
      apply run_of_here. lia.
    + apply IH; [done | lia | lia].
Qed.

(** From a half-open breaker with [j] successes counted. *)
Lemma half_open_tracks l rc (j : nat) :
  circuitState rc = CircuitHalfOpen -> successCount rc = Z.of_nat j ->
  Z.of_nat j < SuccessThreshold config ->
  let st := circuitState (outcomes config l rc) in
  let closing a := run_of true (Z.to_nat (SuccessThreshold config)) (replicate j true ++ a) in
  (st = CircuitHalfOpen <-> ~ closing (map fst l)) /\
  (st = CircuitOpen <-> exists a b, map fst l = a ++ b /\ closing a /\
     run_of false (Z.to_nat (FailureThreshold config)) b).
Proof.
  revert rc j. induction l as [|[[] t] l IH]; intros rc j Hh Hs Hlt; cbv zeta.
  - simpl. rewrite Hh, app_nil_r. split.
    + split; [|done]. intros _ Hr. apply run_of_short in Hr; [done | lia].
    + split; [done|]. intros (a & b & E & _ & c & d & Hb).
      symmetry in E. apply app_nil in E as [_ ->].
      destruct (Z.to_nat (FailureThreshold config)) eqn:E; [lia|]. by destruct c.
  - rewrite outcomes_cons. unfold record_outcome. cbn [fst snd map].
    pose proof (half_success rc Hh ltac:(lia)) as H. cbv zeta in H. rewrite run_of_extend.
    destruct (Z.leb_spec (SuccessThreshold config) (successCount rc + 1)); destruct H as [H1 H2].
    + destruct (closed_opens l _ 0%nat H1 H2 ltac:(lia)) as [HC1 HC2]. split.
      * split; [done|]. intros []. apply run_of_here. lia.
      * rewrite HC2. simpl. split.
        -- intros Hr. exists [true], (map fst l). split; [done|]. split; [|done].
           rewrite run_of_extend. apply run_of_here. lia.
        -- intros ([|y a] & b & E & Ha & Hb).
           ++ rewrite app_nil_r in Ha. apply run_of_short in Ha; [done | lia].
           ++ injection E as <- ->. by apply run_of_app_l.
    + destruct (IH _ (S j) H1 ltac:(lia) ltac:(lia)) as [IH1 IH2]. split; [done|].
      rewrite IH2. split.
      * intros (a & b & -> & Ha & Hb). exists (true :: a), b. rewrite run_of_extend. done.
      * intros ([|y a] & b & E & Ha & Hb).
        -- rewrite app_nil_r in Ha. apply run_of_short in Ha; [done | lia].
        -- injection E as <- ->. rewrite run_of_extend in Ha. by exists a, b.
  - rewrite outcomes_cons. unfold record_outcome. cbn [fst snd map].
    destruct (other_failure rc t.2 t.1) as [H1 H2]; [by rewrite Hh|].
    rewrite Hh in H2. destruct (IH _ 0%nat H2 H1 ltac:(lia)) as [IH1 IH2]. simpl in IH1, IH2.
    assert (forall a, run_of true (Z.to_nat (SuccessThreshold config))
        (replicate j true ++ false :: a) <->
      run_of true (Z.to_nat (SuccessThreshold config)) a) as Hbreak
      by (intros a; apply (run_of_break true); lia).
    split; [by rewrite Hbreak|]. rewrite IH2. split.
    + intros (a & b & -> & Ha & Hb). exists (false :: a), b.
      split; [done|]. split; [by apply Hbreak | done].
    + intros ([|y a] & b & E & Ha & Hb).
      * rewrite app_nil_r in Ha. apply run_of_short in Ha; [done | lia].
      * injection E as <- ->. apply (proj1 (Hbreak a)) in Ha. by exists a, b.
Qed.
End Breaker.


Definition demo_outcomes : list (bool * (Z * string)) :=
  [(false, (1, "eof")); (true, (2, "")); (false, (3, "eof")); (false, (4, "eof"));
   (false, (5, "eof")); (false, (6, "eof")); (false, (7, "eof"))].

(** The breaker after five failures and a request when the timeout has passed. *)
Definition demo_half_open : ResilientClient :=
  snd (canExecute DefaultConfig (60000 * millisecond)
    (outcomes DefaultConfig demo_outcomes (fst (NewResilientClient true)))).

(** While the breaker is open and the timeout since the last failure has not
    passed, no request reaches Redis and the breaker stays open. *)
Theorem open_breaker_shields_redis (config : Config) first_key (rc : ResilientClient)
    (now latency ttl : Z) (key : string) (keys : list string) (data : option string)
    (w : WriteReply) (r : GetReply) :
  circuitState rc = CircuitOpen -> now - lastFailure rc <= OpenTimeout config ->
  let '(_, rc1, asked1) := Set_ config first_key now latency key data ttl w rc in
  let '(_, rc2, asked2) := Get config first_key now latency key r rc in
  let '(_, rc3, asked3) := Del config now keys w rc in
  let '(_, rc4, asked4) := Publish config now data w rc in
  [asked1; asked2; asked3; asked4] = [false; false; false; false] /\
  Forall (fun c => circuitState c = CircuitOpen /\ lastFailure c = lastFailure rc)
    [rc1; rc2; rc3; rc4].
Proof.
  intros Ho Ht.
  assert (forall c, circuitState c = circuitState rc -> lastFailure c = lastFailure rc ->
    canExecute config now c = (false, c)) as Hcan.
  { intros c H1 H2. unfold canExecute. rewrite H1, Ho, H2.
    destruct (Z.ltb_spec (OpenTimeout config) (now - lastFailure rc)); [lia | done]. }
  unfold Set_, Get, Del, Publish, get_fallback.
  destruct data as [d|]; destruct (EnableLocalCache config); rewrite ?Hcan by done;
    repeat case_match; simplify_eq; (split; [done|]); by repeat constructor.
Qed.

Definition open_client : ResilientClient :=
  MkClient StateConnected CircuitOpen 5 0 100 ∅ zero_metrics.

Lemma open_breaker_shields_redis_witness :
  let '(_, rc1, asked1) := Set_ DefaultConfig (fun _ => None) 200 3 "k" (Some "v") 0 Written open_client in
  let '(_, rc2, asked2) := Get DefaultConfig (fun _ => None) 200 3 "k" Missing open_client in
  let '(_, rc3, asked3) := Del DefaultConfig 200 ["k"] Written open_client in
  let '(_, rc4, asked4) := Publish DefaultConfig 200 (Some "v") Written open_client in
  [asked1; asked2; asked3; asked4] = [false; false; false; false] /\
  Forall (fun c => circuitState c = CircuitOpen /\ lastFailure c = lastFailure open_client)
    [rc1; rc2; rc3; rc4].
Proof.
  apply (open_breaker_shields_redis DefaultConfig (fun _ => None) open_client 200 3 0 "k" ["k"]
    (Some "v") Written Missing); [reflexivity | vm_compute; congruence].
Defined.

(** ** Half open *)

Lemma half_open_failures config rc ts :
  circuitState rc = CircuitHalfOpen ->
  circuitState (outcomes config ((false,.) <$> ts) rc) = CircuitHalfOpen.
Proof.
  revert rc. induction ts as [|t ts IH]; intros rc Hh; [done|]. simpl. apply IH.
  unfold record_outcome, recordFailure. simpl.
  rewrite bool_decide_eq_false_2 by (rewrite Hh; done). done.
Qed.

Lemma half_open_success config rc :
  circuitState rc = CircuitHalfOpen -> 0 <= successCount rc < 2 ^ 63 - 1 ->
  recordSuccess config rc
  = if SuccessThreshold config <=? successCount rc + 1
    then set_circuit CircuitClosed 0 0 (lastFailure rc) (count_success rc)
    else set_circuit CircuitHalfOpen (failureCount rc) (successCount rc + 1) (lastFailure rc)
           (count_success rc).
Proof.
  intros Hh Hs. unfold recordSuccess. simpl. rewrite Hh. unfold incr.
  rewrite int64_wrap_small; [done|]. unfold int64_ok. lia.
Qed.

Lemma half_open_successes config rc ts :
  circuitState rc = CircuitHalfOpen -> 0 <= successCount rc ->
  successCount rc + Z.of_nat (length ts) = SuccessThreshold config ->
  SuccessThreshold config < 2 ^ 63 -> ts <> [] ->
  let rc' := outcomes config ((true,.) <$> ts) rc in
  circuitState rc' = CircuitClosed /\ failureCount rc' = 0 /\ successCount rc' = 0.
Proof.
  revert rc. induction ts as [|t ts IH]; intros rc Hh Hs0 Hs Hmax Hne; [done|].
  cbn [length] in Hs. change (outcomes config ((true,.) <$> t :: ts) rc)
    with (outcomes config ((true,.) <$> ts) (recordSuccess config rc)).
  rewrite half_open_success by (done || lia).
  destruct (Z.leb_spec (SuccessThreshold config) (successCount rc + 1)).
  - destruct ts; [done | simpl in Hs; lia].
  - apply IH; simpl; try done; try lia. destruct ts; [simpl in Hs; lia | done].
Qed.

(** A half-open breaker closes after [SuccessThreshold] successes in a row; but
    failures never open it again, however many there are: every further request is
    let through at any time. *)
Theorem half_open_closes_but_never_reopens (config : Config) (rc : ResilientClient)
    (ts : list (Z * string)) :
  circuitState rc = CircuitHalfOpen -> successCount rc = 0 ->
  1 <= SuccessThreshold config < 2 ^ 63 ->
  (Z.of_nat (length ts) = SuccessThreshold config ->
   circuitState (outcomes config ((true,.) <$> ts) rc) = CircuitClosed) /\
  (forall now, fst (canExecute config now (outcomes config ((false,.) <$> ts) rc)) = true).
Proof.
  intros Hh Hs Ht. split.
  - intros Hlen. apply half_open_successes; try done; try lia.
    destruct ts; [simpl in Hlen; lia | done].
  - intros now. unfold canExecute. by rewrite half_open_failures.
Qed.

Definition half_open_client : ResilientClient :=
  MkClient StateConnected CircuitHalfOpen 5 0 100 ∅ zero_metrics.

Lemma half_open_closes_but_never_reopens_witness :
  (Z.of_nat (length [(1, "a"); (2, "b")]) = SuccessThreshold DefaultConfig ->
   circuitState (outcomes DefaultConfig ((true,.) <$> [(1, "a"); (2, "b")]) half_open_client) = CircuitClosed) /\
  (forall now, fst (canExecute DefaultConfig now
     (outcomes DefaultConfig ((false,.) <$> [(1, "a"); (2, "b")]) half_open_client)) = true).
Proof.
  apply (half_open_closes_but_never_reopens DefaultConfig half_open_client [(1, "a"); (2, "b")]);
    [reflexivity | reflexivity | vm_compute; split; congruence].
Defined.

(** ** The cache as a fallback *)

Lemma canExecute_cache config now rc : localCache (snd (canExecute config now rc)) = localCache rc.
Proof. unfold canExecute. by repeat case_match. Qed.
Lemma recordFailure_cache config e now rc :
  localCache (recordFailure config e now rc) = localCache rc.
Proof. unfold recordFailure. by case_match. Qed.
Lemma recordSuccess_cache config rc : localCache (recordSuccess config rc) = localCache rc.
Proof. unfold recordSuccess. by repeat case_match. Qed.

Lemma Set_caches config first_key now latency key d ttl reply rc :
  EnableLocalCache config = true ->
  localCache (snd (fst (Set_ config first_key now latency key (Some d) ttl reply rc))) !! key
  = Some (MkEntry d (if ttl =? 0 then now + LocalCacheTTL config else now + ttl)).
Proof.
  intros He. unfold Set_. rewrite He.
  set (rc1 := setLocalCache _ _ _ _ _ _ _).
  assert (localCache rc1 !! key
    = Some (MkEntry d (if ttl =? 0 then now + LocalCacheTTL config else now + ttl))) as H1.
  { unfold rc1, setLocalCache. simpl. by rewrite lookup_insert_eq. }
  pose proof (canExecute_cache config now rc1) as Hc.
  destruct (canExecute config now rc1) as [ok rc2]. cbn [snd] in Hc. rewrite <- H1, <- Hc.
  destruct (negb ok); [done|]. destruct (negb (connected rc2)); [done|].
  destruct reply; simpl; by rewrite ?recordSuccess_cache, ?recordFailure_cache.
Qed.

(** A value written through [Set] can be read back until it expires, whatever
    happened to the write in Redis and to the connection: unless Redis answers the
    read with a value of its own, [Get] returns the cached one. This includes the
    answer that Redis does not have the key. *)
Theorem get_falls_back_to_cached_write (config : Config) first_key (rc : ResilientClient)
    (now latency now' latency' ttl : Z) (key d : string) (w : WriteReply) (r : GetReply) :
  EnableLocalCache config = true ->
  now' <= now + (if ttl =? 0 then LocalCacheTTL config else ttl) ->
  (forall v, r <> Found v) ->
  let rc' := snd (fst (Set_ config first_key now latency key (Some d) ttl w rc)) in
  fst (fst (Get config first_key now' latency' key r rc')) = Ok d.
Proof.
  intros He Ht Hr rc'. pose proof (Set_caches config first_key now latency key d ttl w rc He) as Hc.
  fold rc' in Hc.
  assert (forall c, localCache c = localCache rc' ->
    fst (get_fallback config now' key c) = Ok d) as Hfall.
  { intros c Hcc. unfold get_fallback, getLocalCache. rewrite He, Hcc, Hc. simpl.
    destruct (Z.ltb_spec (if ttl =? 0 then now + LocalCacheTTL config else now + ttl) now').
    - destruct (ttl =? 0); lia.
    - done. }
  unfold Get. pose proof (canExecute_cache config now' (count_total rc')) as Hcan.
  destruct (canExecute config now' (count_total rc')) as [ok rc2]. simpl in Hcan.
  destruct (ok && connected rc2); [|by apply Hfall].
  destruct r as [v| |e]; [by destruct (Hr v) | by apply Hfall |].
  apply Hfall. by rewrite recordFailure_cache.
Qed.

Lemma get_falls_back_to_cached_write_witness :
  let rc' := snd (fst (Set_ DefaultConfig (fun _ => None) 10 3 "k" (Some "v") 0
    (WriteFailed "down") (fst (NewResilientClient false)))) in
  fst (fst (Get DefaultConfig (fun _ => None) 20 3 "k" Missing rc')) = Ok "v".
Proof.
  apply (get_falls_back_to_cached_write DefaultConfig (fun _ => None) (fst (NewResilientClient false))
    10 3 20 3 0 "k" "v"); [reflexivity | vm_compute; congruence | discriminate].
Defined.

(** *** Its size *)

Section CacheSize.
Context (config : Config) (first_key : gmap string cacheEntry -> option string).
Context (first_key_ok : forall c, match first_key c with
                                  | Some k => is_Some (c !! k)
                                  | None => c = ∅
                                  end).

Definition cache_bounded (rc : ResilientClient) : Prop :=
  Z.of_nat (size (localCache rc)) <= LocalCacheMaxSize config.

Lemma size_insert_le (c : gmap string cacheEntry) k e : (size (<[k := e]> c) <= S (size c))%nat.
Proof.
  destruct (c !! k) as [e'|] eqn:E.
  - rewrite (map_size_insert_Some _ _ _) by eauto. lia.
  - by rewrite map_size_insert_None.
Qed.

Lemma setLocalCache_bounded now key v ttl rc :
  1 <= LocalCacheMaxSize config -> cache_bounded rc ->
  cache_bounded (setLocalCache config first_key now key v ttl rc).
Proof.
  unfold cache_bounded, setLocalCache. simpl. intros Hm Hb.
  destruct (Z.leb_spec (LocalCacheMaxSize config) (Z.of_nat (size (localCache rc)))) as [Hfull|Hroom].
  - unfold evict. specialize (first_key_ok (localCache rc)).
    destruct (first_key (localCache rc)) as [k|].
    + destruct first_key_ok as [e Hk].
      pose proof (size_insert_le (delete k (localCache rc)) key
        (MkEntry v (if ttl =? 0 then now + LocalCacheTTL config else now + ttl))).
      rewrite map_size_delete_Some in H by eauto.
      assert (size (localCache rc) <> 0%nat) by (apply map_size_ne_0_lookup; eauto). lia.
    + rewrite first_key_ok in Hfull. rewrite map_size_empty in Hfull. lia.
  - pose proof (size_insert_le (localCache rc) key
      (MkEntry v (if ttl =? 0 then now + LocalCacheTTL config else now + ttl))). lia.
Qed.

Inductive cache_op :=
| OpSet (now latency : Z) (key : string) (data : option string) (ttl : Z) (reply : WriteReply)
| OpGet (now latency : Z) (key : string) (reply : GetReply)
| OpDel (now : Z) (keys : list string) (reply : WriteReply)
| OpCleanup (now : Z).

Definition apply_op (rc : ResilientClient) (op : cache_op) : ResilientClient :=
  match op with
  | OpSet now latency key data ttl reply => snd (fst (Set_ config first_key now latency key data ttl reply rc))
  | OpGet now latency key reply => snd (fst (Get config first_key now latency key reply rc))
  | OpDel now keys reply => snd (fst (Del config now keys reply rc))
  | OpCleanup now => cleanupExpiredCache now rc
  end.

Lemma bounded_same rc rc' : localCache rc' = localCache rc -> cache_bounded rc -> cache_bounded rc'.
Proof. unfold cache_bounded. by intros ->. Qed.

Lemma get_fallback_cache now key rc :
  localCache (snd (get_fallback config now key rc)) = localCache rc.
Proof. unfold get_fallback. by repeat case_match. Qed.

Lemma deletes_size (c : gmap string cacheEntry) keys :
  (size (foldl (fun c k => delete k c) c keys) <= size c)%nat.
Proof.
  revert c. induction keys as [|k keys IH]; intros c; simpl; [lia|].
  etrans; [apply IH|]. apply map_subseteq_size, delete_subseteq.
Qed.

Lemma apply_op_bounded rc op :
  1 <= LocalCacheMaxSize config -> cache_bounded rc -> cache_bounded (apply_op rc op).
Proof.
  intros Hm Hb. destruct op as [now latency key data ttl reply|now latency key reply|now keys reply|now]; simpl.
  - unfold Set_. destruct data as [d|]; [|done].
    set (rc1 := if EnableLocalCache config then _ else _).
    assert (cache_bounded rc1) as H1.
    { unfold rc1. destruct (EnableLocalCache config); [by apply setLocalCache_bounded | done]. }
    pose proof (canExecute_cache config now rc1) as Hc.
    destruct (canExecute config now rc1) as [ok rc2]. simpl in Hc.
    destruct (negb ok); [by eapply bounded_same|].
    destruct (negb (connected rc2)); [by eapply bounded_same|].
    destruct reply; simpl; (eapply bounded_same; [|exact H1]);
      rewrite ?recordSuccess_cache, ?recordFailure_cache; done.
  - unfold Get. pose proof (canExecute_cache config now (count_total rc)) as Hc.
    destruct (canExecute config now (count_total rc)) as [ok rc2]. simpl in Hc.
    assert (cache_bounded rc2) as H2 by by eapply bounded_same.
    destruct (ok && connected rc2); [destruct reply|]; simpl.
    + destruct (EnableLocalCache config).
      * apply setLocalCache_bounded; [done|].
        eapply bounded_same; [|exact H2]. by rewrite recordSuccess_cache.
      * eapply bounded_same; [|exact H2]. by rewrite recordSuccess_cache.
    + eapply bounded_same; [|exact H2]. by rewrite get_fallback_cache.
    + eapply bounded_same; [|exact H2]. by rewrite get_fallback_cache, recordFailure_cache.
    + eapply bounded_same; [|exact H2]. by rewrite get_fallback_cache.
  - unfold Del. set (rc1 := if EnableLocalCache config then _ else _).
    assert (cache_bounded rc1) as H1.
    { unfold rc1. destruct (EnableLocalCache config); [|done]. unfold cache_bounded in *. simpl.
      pose proof (deletes_size (localCache rc) keys). lia. }
    pose proof (canExecute_cache config now rc1) as Hc.
    destruct (canExecute config now rc1) as [ok rc2]. simpl in Hc.
    destruct (negb ok || negb (connected rc2)); [by eapply bounded_same|].
    destruct reply; simpl; (eapply bounded_same; [|exact H1]);
      rewrite ?recordSuccess_cache, ?recordFailure_cache; done.
  - unfold cache_bounded in *. simpl. etrans; [|exact Hb]. apply Nat2Z.inj_le.
    apply map_subseteq_size, map_filter_subseteq.
Qed.
End CacheSize.

(** No sequence of requests and cleanups makes the local cache larger than its
    configured size, whichever entry the eviction picks. *)
Theorem local_cache_is_bounded (config : Config) first_key (rc : ResilientClient)
    (ops : list cache_op) :
  (forall c, match first_key c with Some k => is_Some (c !! k) | None => c = ∅ end) ->
  1 <= LocalCacheMaxSize config -> cache_bounded config rc ->
  cache_bounded config (foldl (apply_op config first_key) rc ops).
Proof.
  intros Hk Hm. revert rc. induction ops as [|op ops IH]; intros rc Hb; [done|].
  simpl. apply IH, apply_op_bounded; done.
Qed.

Definition head_key (c : gmap string cacheEntry) : option string := fst <$> head (map_to_list c).

Lemma head_key_ok c : match head_key c with Some k => is_Some (c !! k) | None => c = ∅ end.
Proof.
  unfold head_key. destruct (map_to_list c) as [|[k e] l] eqn:E; simpl.
  - by apply map_to_list_empty_iff.
  - exists e. apply elem_of_map_to_list. rewrite E. by left.
Qed.

Definition tiny_config : Config :=
  MkConfig 0 1 1 (float64_of_Z 2) 5 2 10 true 100 1.

Lemma local_cache_is_bounded_witness :
  cache_bounded tiny_config (foldl (apply_op tiny_config head_key) (fst (NewResilientClient true))
    [OpSet 1 3 "a" (Some "x") 0 Written; OpSet 2 3 "b" (Some "y") 0 Written; OpGet 3 3 "a" Missing]).
Proof.
  apply (local_cache_is_bounded tiny_config head_key).
  - apply head_key_ok.
  - vm_compute. congruence.
  - vm_compute. congruence.
Defined.

(** ** Reconnecting *)

Lemma reconnect_bounded `{GoArch} config pings attempts backoff rc :
  0 < MaxRetries config < 2 ^ 63 -> 0 <= attempts < MaxRetries config ->
  MaxRetries config - attempts <= Z.of_nat (length pings) ->
  let '(outcome, sleeps, rc') := reconnect config attempts backoff pings rc in
  let answered := existsb id (take (Z.to_nat (MaxRetries config - attempts)) pings) in
  outcome = Some answered /\
  Z.of_nat (length sleeps) < MaxRetries config - attempts /\
  connState rc' = (if answered then StateConnected else StateDisconnected) /\
  (answered = true -> circuitState rc' = CircuitClosed).
Proof.
  intros Hm. revert attempts backoff rc.
  induction pings as [|ping pings IH]; intros attempts backoff rc Ha Hl; simpl in Hl; [lia|].
  replace (Z.to_nat (MaxRetries config - attempts))
    with (S (Z.to_nat (MaxRetries config - (attempts + 1)))) by lia.
  destruct ping; [simpl; repeat split; lia|].
  cbn [reconnect take existsb id orb].
  assert (incr attempts = attempts + 1) as ->.
  { unfold incr. rewrite int64_wrap_small; [done|]. unfold int64_ok. lia. }
  destruct (Z.ltb_spec 0 (MaxRetries config)); [|lia]. simpl.
  destruct (Z.leb_spec (MaxRetries config) (attempts + 1)); simpl.
  - replace (Z.to_nat (MaxRetries config - (attempts + 1))) with 0%nat by lia.
    simpl. repeat split; [lia | done].
  - specialize (IH (attempts + 1) (next_backoff config backoff) (count_reconnect rc)
      ltac:(lia) ltac:(lia)).
    destruct (reconnect _ _ _ _ _) as [[o sleeps] rc'].
    destruct IH as (Ho & Hs & Hrest). split; [done|]. split; [simpl; lia | done].
Qed.

Lemma reconnect_sleeps `{GoArch} config pings attempts backoff rc :
  Forall (fun b => b = backoff \/ b <= MaxBackoff config)
    (snd (fst (reconnect config attempts backoff pings rc))).
Proof.
  revert attempts backoff rc. induction pings as [|[] pings IH]; intros attempts backoff rc;
    simpl; [constructor..|].
  destruct (_ && _); [constructor|].
  specialize (IH (incr attempts) (next_backoff config backoff) (count_reconnect rc)).
  destruct (reconnect _ _ _ _ _) as [[o sleeps] rc']. simpl in *. constructor; [by left|].
  eapply Forall_impl; [exact IH|]. intros b [->|?]; [right|by right].
  unfold next_backoff. case_match; bool_props; lia.
Qed.

(** With a positive retry limit the reconnect loop ends within that many
    attempts: connected, with the breaker closed, when one of these pings is
    answered, and disconnected otherwise. It sleeps fewer times than the limit, and
    each sleep is the initial backoff or at most the maximal one. *)
Theorem reconnect_loop_ends `{GoArch} (config : Config) (pings : list bool) (rc : ResilientClient) :
  0 < MaxRetries config < 2 ^ 63 -> MaxRetries config <= Z.of_nat (length pings) ->
  let '(outcome, sleeps, rc') := reconnectLoop config pings rc in
  let answered := existsb id (take (Z.to_nat (MaxRetries config)) pings) in
  outcome = Some answered /\
  connState rc' = (if answered then StateConnected else StateDisconnected) /\
  (answered = true -> circuitState rc' = CircuitClosed) /\
  Z.of_nat (length sleeps) < MaxRetries config /\
  Forall (fun b => b = InitialBackoff config \/ b <= MaxBackoff config) sleeps.
Proof.
  intros Hm Hl. unfold reconnectLoop.
  pose proof (reconnect_bounded config pings 0 (InitialBackoff config)
    (setConnectionState StateReconnecting rc) Hm ltac:(lia) ltac:(lia)) as Hb.
  pose proof (reconnect_sleeps config pings 0 (InitialBackoff config)
    (setConnectionState StateReconnecting rc)) as Hs.
  destruct (reconnect _ _ _ _ _) as [[o sleeps] rc']. rewrite Z.sub_0_r in Hb.
  cbv zeta in *. intuition.
Qed.

Definition retry_config : Config := MkConfig 3 100 150 (float64_of_Z 2) 5 2 10 true 100 1.

Lemma reconnect_loop_ends_witness :
  let '(outcome, sleeps, rc') :=
    @reconnectLoop retry_config demo_arch [false; false; true] (fst (NewResilientClient false)) in
  let answered := existsb id (take (Z.to_nat (MaxRetries retry_config)) [false; false; true]) in
  outcome = Some answered /\
  connState rc' = (if answered then StateConnected else StateDisconnected) /\
  (answered = true -> circuitState rc' = CircuitClosed) /\
  Z.of_nat (length sleeps) < MaxRetries retry_config /\
  Forall (fun b => b = InitialBackoff retry_config \/ b <= MaxBackoff retry_config) sleeps.
Proof.
  apply (@reconnect_loop_ends demo_arch retry_config [false; false; true]
    (fst (NewResilientClient false))).
  - vm_compute. split; congruence.
  - vm_compute. congruence.
Defined.
