(* ===== verification/Pipeline.v ===== *)
(** * The version 2 pipeline (pkg/pipeline/pipeline.go, pkg/sink/sink.go)

    [Run] reads records from a source, skips duplicates and turns updates of unknown
    entities into creates in realtime mode, runs the processors and writes to the
    sink. The deduplication service and the sink are used through their interfaces.
    The loop of [Run] is a fold over what its select receives, together with the
    ticks of the service's background goroutine. *)

From Stdlib Require Import String SpecFloat.
From S2P Require Import Prelude GoString GoValue GoTime ConfigV2 Processor Dedup.
Local Open Scope string_scope.
Local Open Scope list_scope.

(** ** Sinks *)

Class Sink (K : Type) := {
  Write : Z -> SrcRecord -> K -> res string unit * K;
  Flush : K -> res string unit
}.

Record SinkStats := MkSinkStats {
  SinkTotal : Z;
  SinkSuccess : Z;
  SinkErrors : Z;
  LastWriteTime : Z
}.

Record StubSink := MkStub {
  logLevel : string;
  logFormat : string;
  metrics : bool;
  callback : option string;
  sinkStats : SinkStats
}.

Definition NewStubSink (cfg : OutputConfig) : StubSink :=
  MkStub (or_default (LogLevel cfg) "info") (or_default (LogFormat cfg) "json")
    (match OutMetrics cfg with Some m => MetricsEnabled m | None => false end)
    (match OutCallback cfg with
     | Some c => if CallbackEnabled c then Some (CallbackURL c) else None
     | None => None
     end)
    (MkSinkStats 0 0 0 0).

Definition NewSink (cfg : OutputConfig) : res string StubSink :=
  if (OutType cfg =? "stub") || (OutType cfg =? "") then Ok (NewStubSink cfg)
  else Err ("unsupported sink type: " +:+ OutType cfg).

(** The log output and the placeholder callback have no effect on the state. *)
Definition stub_Write (now : Z) (record : SrcRecord) (s : StubSink) : res string unit * StubSink :=
  let st := sinkStats s in
  (Ok tt, MkStub (logLevel s) (logFormat s) (metrics s) (callback s)
            (MkSinkStats (int64_wrap (SinkTotal st + 1)) (int64_wrap (SinkSuccess st + 1))
               (SinkErrors st) now)).

#[export] Instance stub_sink : Sink StubSink := { Write := stub_Write; Flush _ := Ok tt }.

(** ** The pipeline *)

Record Stats := MkStats {
  StartTime : Z;
  EndTime : Z;
  TotalRecords : Z;
  ProcessedCount : Z;
  FilteredCount : Z;
  ErrorCount : Z;
  DuplicateCount : Z
}.

(** A successful write: its time, the record before the processors and after them. *)
Record written := MkWritten { wr_time : Z; wr_in : SrcRecord; wr_out : SrcRecord }.

(** [drawn] is how many random numbers sampling has used and [log] the successful
    writes, newest last; neither is a field of the source. *)
Record Pipeline (D K : Type) := MkPipeline {
  config : PipelineConfigV2;
  processors : list Processor;
  sink : K;
  dedup : option D;
  idField : string;
  eventTypeField : string;
  entityIDField : string;
  stats : Stats;
  drawn : nat;
  log : list written
}.
Arguments MkPipeline {D K} config processors sink dedup idField eventTypeField entityIDField
  stats drawn log.
Arguments config {D K} p.
Arguments processors {D K} p.
Arguments sink {D K} p.
Arguments dedup {D K} p.
Arguments idField {D K} p.
Arguments eventTypeField {D K} p.
Arguments entityIDField {D K} p.
Arguments stats {D K} p.
Arguments drawn {D K} p.
Arguments log {D K} p.

(** [New], for a source that could be created. *)
Definition New (cfg : PipelineConfigV2) : res string (Pipeline AnyDedup StubSink) :=
  let processors := map NewProcessor (CfgSteps cfg) in
  match NewSink (CfgOutput cfg) with
  | Err e => Err ("failed to create sink: " +:+ e)
  | Panic => Panic
  | Ok snk =>
      let zero := MkStats 0 0 0 0 0 0 0 in
      match (if IsRealtime cfg then CfgRealtime cfg else None) with
      | None => Ok (MkPipeline cfg processors snk None "" "" "" zero 0 [])
      | Some rt =>
          match NewDedupService (DedupStorage rt) (default 0%Z (ParseDuration (DedupTTL rt))) with
          | Err e => Err ("failed to create dedup service: " +:+ e)
          | Panic => Panic
          | Ok d => Ok (MkPipeline cfg processors snk (Some d) (IDField rt) (EventTypeField rt)
                          (EntityIDField rt) zero 0 [])
          end
      end
  end.

Section Run.
Context `{GoRuntime} (rand : nat -> spec_float).
Context {D : Type} `{DedupService D} {K : Type} `{Sink K}.

Definition getField (record : SrcRecord) (field : string) : string :=
  if field =? "" then ""
  else match RecData record !! field with Some val => fmt_v val | None => "" end.

Definition set_dedup (d : D) (p : Pipeline D K) : Pipeline D K :=
  MkPipeline (config p) (processors p) (sink p) (Some d) (idField p) (eventTypeField p)
    (entityIDField p) (stats p) (drawn p) (log p).
Definition set_stats (s : Stats) (p : Pipeline D K) : Pipeline D K :=
  MkPipeline (config p) (processors p) (sink p) (dedup p) (idField p) (eventTypeField p)
    (entityIDField p) s (drawn p) (log p).

Definition incr (n : Z) : Z := int64_wrap (n + 1).
Definition count_total (p : Pipeline D K) : Pipeline D K :=
  let s := stats p in
  set_stats (MkStats (StartTime s) (EndTime s) (incr (TotalRecords s)) (ProcessedCount s)
    (FilteredCount s) (ErrorCount s) (DuplicateCount s)) p.
Definition count_processed (p : Pipeline D K) : Pipeline D K :=
  let s := stats p in
  set_stats (MkStats (StartTime s) (EndTime s) (TotalRecords s) (incr (ProcessedCount s))
    (FilteredCount s) (ErrorCount s) (DuplicateCount s)) p.
Definition count_filtered (p : Pipeline D K) : Pipeline D K :=
  let s := stats p in
  set_stats (MkStats (StartTime s) (EndTime s) (TotalRecords s) (ProcessedCount s)
    (incr (FilteredCount s)) (ErrorCount s) (DuplicateCount s)) p.
Definition count_error (p : Pipeline D K) : Pipeline D K :=
  let s := stats p in
  set_stats (MkStats (StartTime s) (EndTime s) (TotalRecords s) (ProcessedCount s)
    (FilteredCount s) (incr (ErrorCount s)) (DuplicateCount s)) p.
Definition count_duplicate (p : Pipeline D K) : Pipeline D K :=
  let s := stats p in
  set_stats (MkStats (StartTime s) (EndTime s) (TotalRecords s) (ProcessedCount s)
    (FilteredCount s) (ErrorCount s) (incr (DuplicateCount s))) p.

(** The service of a pipeline in realtime mode. *)
Definition realtime (p : Pipeline D K) : option D :=
  if IsRealtime (config p) then dedup p else None.

Definition applyUpsertLogic (d : D) (p : Pipeline D K) (record : SrcRecord) : SrcRecord :=
  let eventType := getField record (eventTypeField p) in
  let entityID := getField record (entityIDField p) in
  if (eventType =? EventUpdate) && negb (entityID =? "") then
    match EntityExists entityID d with
    | Ok false =>
        MkRecord (<[eventTypeField p := VString EventCreate]> (RecData record))
          (RecMetadata record)
    | _ => record
    end
  else record.

(** The loop over the processors. *)
Fixpoint run_processors (ps : list Processor) (n : nat) (r : SrcRecord)
  : res string (option SrcRecord) * nat :=
  match ps with
  | [] => (Ok (Some r), n)
  | p :: ps' =>
      let '(res, n) := Process rand p n r in
      match res with
      | Ok (Some r') => run_processors ps' n r'
      | Ok None => (Ok None, n)
      | Err e => (Err ("processor " +:+ Name p +:+ " failed: " +:+ e), n)
      | Panic => (Panic, n)
      end
  end.

(** What [processRecord] does with the service after a write. *)
Definition update_marks (now : Z) (p : Pipeline D K) (record : SrcRecord) (d : D) : D :=
  let eventID := getField record (idField p) in
  let d := if negb (eventID =? "") then snd (MarkProcessed now eventID d) else d in
  let entityID := getField record (entityIDField p) in
  let eventType := getField record (eventTypeField p) in
  if negb (entityID =? "") then
    if (eventType =? EventCreate) || (eventType =? EventUpdate)
    then snd (SetEntityExists entityID d)
    else if eventType =? EventDelete then snd (DeleteEntity entityID d)
    else d
  else d.

(** The outcome of the duplicate check. *)
Definition check_duplicate (p : Pipeline D K) (record : SrcRecord) : res string bool :=
  match realtime p with
  | None => Ok false
  | Some d =>
      let eventID := getField record (idField p) in
      if negb (eventID =? "") then IsDuplicate eventID d else Ok false
  end.

Definition upsert (p : Pipeline D K) (record : SrcRecord) : SrcRecord :=
  match realtime p with
  | Some d => if negb (eventTypeField p =? "") then applyUpsertLogic d p record else record
  | None => record
  end.

Definition processRecord (now : Z) (record : SrcRecord) (p : Pipeline D K)
  : res string unit * Pipeline D K :=
  match check_duplicate p record with
  | Err e => (Err ("dedup check failed: " +:+ e), p)
  | Panic => (Panic, p)
  | Ok true => (Ok tt, count_duplicate p)
  | Ok false =>
      let record := upsert p record in
      let '(result, n) := run_processors (processors p) (drawn p) record in
      let p := MkPipeline (config p) (processors p) (sink p) (dedup p) (idField p)
                 (eventTypeField p) (entityIDField p) (stats p) n (log p) in
      match result with
      | Err e => (Err e, p)
      | Panic => (Panic, p)
      | Ok None => (Ok tt, count_filtered p)
      | Ok (Some current) =>
          let '(w, k) := Write now current (sink p) in
          let p := MkPipeline (config p) (processors p) k (dedup p) (idField p)
                     (eventTypeField p) (entityIDField p) (stats p) (drawn p) (log p) in
          match w with
          | Err e => (Err ("sink write failed: " +:+ e), p)
          | Panic => (Panic, p)
          | Ok _ =>
              let p := count_processed p in
              let p := MkPipeline (config p) (processors p) (sink p) (dedup p) (idField p)
                         (eventTypeField p) (entityIDField p) (stats p) (drawn p)
                         (log p ++ [MkWritten now record current]) in
              match realtime p with
              | None => (Ok tt, p)
              | Some d => (Ok tt, set_dedup (update_marks now p record d) p)
              end
          end
      end
  end.

(** ** The loop of [Run] *)

Inductive RunEvent :=
| EvDone (err : string)                   (* the context is done *)
| EvErrsClosed                            (* the error channel is closed: it becomes nil *)
| EvSourceError (err : option string)
| EvRecord (now : Z) (r : SrcRecord)
| EvRecordsClosed
| EvExpire (now : Z).                     (* a tick of the service's own goroutine *)

(** [None]: still waiting. The record channel is never set to nil, so the test for two
    nil channels at the end of the loop body never holds. *)
Fixpoint run_loop (evs : list RunEvent) (p : Pipeline D K) : option (res string unit) * Pipeline D K :=
  match evs with
  | [] => (None, p)
  | EvDone e :: _ => (Some (Err e), p)
  | EvErrsClosed :: evs' => run_loop evs' p
  | EvSourceError None :: evs' => run_loop evs' p
  | EvSourceError (Some e) :: evs' => run_loop evs' (count_error p)
  | EvRecord now r :: evs' =>
      let '(result, p) := processRecord now r (count_total p) in
      match result with
      | Ok _ => run_loop evs' p
      | Err _ => run_loop evs' (count_error p)
      | Panic => (Some Panic, p)
      end
  | EvRecordsClosed :: _ => (Some (Flush (sink p)), p)
  | EvExpire now :: evs' =>
      run_loop evs' (match dedup p with Some d => set_dedup (expire now d) p | None => p end)
  end.

(** [open_source] and [open_sink] are the results of opening both. *)
Definition Run (start finish : Z) (open_source open_sink : res string unit) (evs : list RunEvent)
  (p : Pipeline D K) : option (res string unit) * Pipeline D K :=
  let times s e p := set_stats (MkStats s e (TotalRecords (stats p)) (ProcessedCount (stats p))
    (FilteredCount (stats p)) (ErrorCount (stats p)) (DuplicateCount (stats p))) p in
  let p := times start (EndTime (stats p)) p in
  let '(r, p) :=
    match open_source, open_sink with
    | Ok _, Ok _ => run_loop evs p
    | Ok _, Err e => (Some (Err ("failed to open sink: " +:+ e)), p)
    | Err e, _ => (Some (Err ("failed to open source: " +:+ e)), p)
    | _, _ => (Some Panic, p)
    end in
  (r, match r with Some _ => times (StartTime (stats p)) finish p | None => p end).
End Run.

(** ** Proofs about one record *)

Section Proofs.
Context `{GoRuntime} (rand : nat -> spec_float).
Context {D : Type} `{DL : DedupLaws D} {K : Type} `{Sink K}.
Context (write_no_panic : forall now r (k : K), fst (Write now r k) <> Panic).

Implicit Types p : Pipeline D K.

Lemma run_processors_no_panic ps n r : fst (run_processors rand ps n r) <> Panic.
Proof.
  revert n r. induction ps as [|p ps IH]; intros n r; simpl; [done|].
  pose proof (process_honest rand p n r) as Hh. destruct (Process rand p n r) as [[[r'|]|e|] n'];
    simpl in *; done.
Qed.

Lemma check_duplicate_spec p record :
  check_duplicate p record = Ok
    (match realtime p with
     | Some d => negb (getField record (idField p) =? "") &&
                 bool_decide (is_Some (marks d !! getField record (idField p)))
     | None => false
     end).
Proof.
  unfold check_duplicate. destruct (realtime p) as [d|]; [|done].
  destruct (getField record (idField p) =? ""); simpl; [done | apply dup_law].
Qed.

(** The ways in which [processRecord] ends. *)
Inductive outcome (now : Z) (record : SrcRecord) p : res string unit -> Pipeline D K -> Prop :=
| out_duplicate d : realtime p = Some d -> getField record (idField p) <> "" ->
    is_Some (marks d !! getField record (idField p)) ->
    outcome now record p (Ok tt) (count_duplicate p)
| out_filtered n :
    outcome now record p (Ok tt) (count_filtered
      (MkPipeline (config p) (processors p) (sink p) (dedup p) (idField p) (eventTypeField p)
         (entityIDField p) (stats p) n (log p)))
| out_failed e n k :
    outcome now record p (Err e)
      (MkPipeline (config p) (processors p) k (dedup p) (idField p) (eventTypeField p)
         (entityIDField p) (stats p) n (log p))
| out_written n k current :
    (forall d, realtime p = Some d -> getField record (idField p) <> "" ->
       marks d !! getField record (idField p) = None) ->
    outcome now record p (Ok tt)
      (let p' := count_processed (MkPipeline (config p) (processors p) k (dedup p) (idField p)
         (eventTypeField p) (entityIDField p) (stats p) n (log p)) in
       MkPipeline (config p') (processors p') k
         (match realtime p with
          | Some d => Some (update_marks now p (upsert p record) d)
          | None => dedup p
          end) (idField p') (eventTypeField p') (entityIDField p') (stats p') n
         (log p' ++ [MkWritten now (upsert p record) current])).

Lemma processRecord_outcome now record p :
  outcome now record p (fst (processRecord rand now record p)) (snd (processRecord rand now record p)).
Proof.
  unfold processRecord. rewrite check_duplicate_spec.
  assert (forall b, b = (match realtime p with
     | Some d => negb (getField record (idField p) =? "") &&
                 bool_decide (is_Some (marks d !! getField record (idField p)))
     | None => false end) -> b = false ->
    forall d, realtime p = Some d -> getField record (idField p) <> "" ->
       marks d !! getField record (idField p) = None) as Hfresh.
  { intros b -> Hb d Hd Hne. rewrite Hd in Hb. apply String.eqb_neq in Hne. rewrite Hne in Hb.
    simpl in Hb. apply bool_decide_eq_false in Hb. by apply eq_None_not_Some. }
  specialize (Hfresh _ eq_refl).
  destruct (match realtime p with Some _ => _ | None => false end) eqn:Ed.
  - destruct (realtime p) as [d|] eqn:Er; [|done]. bool_props.
    eapply out_duplicate; [done..|]. by eapply bool_decide_eq_true_1.
  - specialize (Hfresh eq_refl).
    pose proof (run_processors_no_panic (processors p) (drawn p) (upsert p record)) as Hp.
    destruct (run_processors rand (processors p) (drawn p) (upsert p record)) as [[[cur|]|e|] n];
      simpl in *; [| apply out_filtered | apply out_failed | done].
    pose proof (write_no_panic now cur (sink p)) as Hw.
    destruct (Write now cur (sink p)) as [[[]|e|] k]; simpl in *; [| apply out_failed | done].
    pose proof (out_written now record p n k cur Hfresh) as Ho. unfold realtime in *. simpl in *.
    destruct (IsRealtime (config p)); [|done]. by destruct (dedup p).
Qed.

(** ** Every record is accounted for *)

(** What the loop receives before it ends. *)
Fixpoint handled (evs : list RunEvent) : list RunEvent :=
  match evs with
  | [] | EvDone _ :: _ | EvRecordsClosed :: _ => []
  | ev :: evs' => ev :: handled evs'
  end.

Definition is_record (ev : RunEvent) : bool :=
  match ev with EvRecord _ _ => true | _ => false end.
Definition is_source_error (ev : RunEvent) : bool :=
  match ev with EvSourceError (Some _) => true | _ => false end.
Definition count (f : RunEvent -> bool) (evs : list RunEvent) : Z :=
  Z.of_nat (length (List.filter f evs)).

Definition accounted (s : Stats) : Z :=
  (ProcessedCount s + FilteredCount s + DuplicateCount s + ErrorCount s)%Z.

Lemma incr_eqm z : eqm (incr z) (z + 1).
Proof. apply wrap_eqm. Qed.

Lemma processRecord_accounted now record p :
  let '(r, p') := processRecord rand now record p in
  r <> Panic /\ TotalRecords (stats p') = TotalRecords (stats p) /\
  eqm (accounted (stats (match r with Ok _ => p' | _ => count_error p' end)))
    (accounted (stats p) + 1).
Proof.
  pose proof (processRecord_outcome now record p) as Ho.
  destruct (processRecord rand now record p) as [r p']. simpl in Ho.
  inversion Ho; subst; (split; [done|]); (split; [done|]); unfold accounted; simpl;
    rewrite incr_eqm; exists 0%Z; lia.
Qed.

Lemma run_loop_accounted evs p :
  let p' := snd (run_loop rand evs p) in
  eqm (TotalRecords (stats p')) (TotalRecords (stats p) + count is_record (handled evs)) /\
  eqm (accounted (stats p')) (accounted (stats p) + count is_record (handled evs)
                              + count is_source_error (handled evs)).
Proof.
  revert p. induction evs as [|ev evs IH]; intros p.
  { unfold count. simpl. split; exists 0%Z; lia. }
  destruct ev as [e| |[e|]|now r| |now]; simpl.
  - unfold count. simpl. split; exists 0%Z; lia.
  - apply IH.
  - destruct (IH (count_error p)) as [Ht Ha]. rewrite Ht, Ha. clear. split; [done|].
    unfold accounted, count. simpl. rewrite incr_eqm. exists 0%Z. lia.
  - apply IH.
  - pose proof (processRecord_accounted now r (count_total p)) as Hr.
    destruct (processRecord rand now r (count_total p)) as [res p'].
    destruct Hr as (Hp & Ht & Ha).
    assert (forall q, TotalRecords (stats q) = TotalRecords (stats p') ->
      eqm (accounted (stats q)) (accounted (stats (count_total p)) + 1) ->
      eqm (TotalRecords (stats (snd (run_loop rand evs q))))
        (TotalRecords (stats p) + count is_record (EvRecord now r :: handled evs)) /\
      eqm (accounted (stats (snd (run_loop rand evs q))))
        (accounted (stats p) + count is_record (EvRecord now r :: handled evs)
         + count is_source_error (EvRecord now r :: handled evs))) as Hgo.
    { intros q Hq1 Hq2. destruct (IH q) as [E1 E2]. split.
      - rewrite E1, Hq1, Ht. simpl. rewrite incr_eqm. unfold count. simpl. exists 0%Z. lia.
      - rewrite E2, Hq2. unfold count, accounted. simpl. exists 0%Z. lia. }
    destruct res; [by apply Hgo | by apply Hgo | done].
  - unfold count. simpl. split; exists 0%Z; lia.
  - destruct (IH (match dedup p with Some d => set_dedup (expire now d) p | None => p end))
      as [E1 E2]. by destruct (dedup p).
Qed.

Lemma run_loop_no_panic evs p :
  (forall k : K, Flush k <> Panic) -> fst (run_loop rand evs p) <> Some Panic.
Proof.
  intros Hf. revert p. induction evs as [|ev evs IH]; intros p; [done|].
  destruct ev as [e| |[e|]|now r| |now]; simpl; try done; try apply IH.
  - pose proof (processRecord_accounted now r (count_total p)) as Hr.
    destruct (processRecord rand now r (count_total p)) as [[]  p']; [apply IH..|].
    by destruct Hr.
  - intros [= E]. by eapply Hf.
Qed.

(** ** Deduplication and upsert *)

Lemma getField_upsert p record field :
  field <> eventTypeField p -> getField (upsert p record) field = getField record field.
Proof.
  intros Hne. unfold upsert, applyUpsertLogic, getField at 1.
  destruct (realtime p) as [d|]; [|done]. destruct (negb (eventTypeField p =? "")); [|done].
  destruct (_ && _); [|done]. destruct (EntityExists _ _) as [[]|e|]; [done| |done..].
  simpl. by rewrite lookup_insert_ne.
Qed.

(** After the upsert step an update names a known entity. *)
Lemma upsert_updates_known p d record :
  realtime p = Some d -> eventTypeField p <> "" -> entityIDField p <> eventTypeField p ->
  getField (upsert p record) (eventTypeField p) = EventUpdate ->
  getField (upsert p record) (entityIDField p) <> "" ->
  getField (upsert p record) (entityIDField p) ∈ known d.
Proof.
  intros Hd Ht Hne. rewrite (getField_upsert p record (entityIDField p)) by done.
  unfold upsert. rewrite Hd. apply String.eqb_neq in Ht as Ht'. rewrite Ht'. simpl.
  unfold applyUpsertLogic. destruct (String.eqb_spec (getField record (eventTypeField p)) EventUpdate);
    [|done]. destruct (String.eqb_spec (getField record (entityIDField p)) ""); [done|]. simpl.
  rewrite exists_law. case_bool_decide; [done|].
  unfold getField at 1. rewrite Ht'. simpl. by rewrite lookup_insert_eq.
Qed.

Definition event_id p (w : written) : string := getField (wr_in w) (idField p).
Definition entity_id p (w : written) : string := getField (wr_in w) (entityIDField p).
Definition event_type p (w : written) : string := getField (wr_in w) (eventTypeField p).

(** The entities that exist after a write. *)
Definition entity_step p (known : gset string) (w : written) : gset string :=
  if entity_id p w =? "" then known
  else if (event_type p w =? EventCreate) || (event_type p w =? EventUpdate)
  then {[entity_id p w]} ∪ known
  else if event_type p w =? EventDelete then known ∖ {[entity_id p w]}
  else known.

Lemma update_marks_spec now p record current d :
  let d' := update_marks now p record d in
  let w := MkWritten now record current in
  marks d' = (if event_id p w =? "" then marks d else <[event_id p w := now]> (marks d)) /\
  known d' = entity_step p (known d) w /\ keep d' = keep d.
Proof.
  unfold update_marks, entity_step, event_id, entity_id, event_type. simpl.
  set (d1 := if negb (getField record (idField p) =? "") then _ else d).
  assert (marks d1 = (if getField record (idField p) =? "" then marks d
                      else <[getField record (idField p) := now]> (marks d)) /\
    known d1 = known d /\ keep d1 = keep d) as (Hm & Hk & Hp).
  { unfold d1. destruct (getField record (idField p) =? ""); simpl; [done|].
    destruct (mark_law now (getField record (idField p)) d) as (d' & -> & ?). done. }
  clearbody d1. rewrite <- Hm, <- Hk, <- Hp.
  destruct (getField record (entityIDField p) =? ""); simpl; [done|].
  destruct (_ || _).
  - destruct (set_law (getField record (entityIDField p)) d1) as (d' & -> & ?). done.
  - destruct (_ =? EventDelete); [|done].
    destruct (delete_law (getField record (entityIDField p)) d1) as (d' & -> & ?). done.
Qed.

(** The clock of the events never goes back. *)
Fixpoint monotone (now : Z) (evs : list RunEvent) : bool :=
  match evs with
  | [] => true
  | (EvRecord t _ | EvExpire t) :: evs' => (now <=? t)%Z && monotone t evs'
  | _ :: evs' => monotone now evs'
  end.

(** What never changes, and the service. *)
Record same_setup p p' : Prop := {
  ss_config : config p' = config p;
  ss_id : idField p' = idField p;
  ss_entity : entityIDField p' = entityIDField p;
  ss_type : eventTypeField p' = eventTypeField p
}.

(** The state of a realtime pipeline at a time: what the service knows about the
    writes so far. [p0] has the setup, [keep0] is the time to live. *)
Record rt_inv (p0 : Pipeline D K) (keep0 now : Z) p (d : D) : Prop := {
  ri_setup : same_setup p0 p;
  ri_dedup : dedup p = Some d;
  ri_keep : keep d = keep0;
  ri_past : forall w, w ∈ log p -> (wr_time w <= now)%Z;
  ri_marks : idField p0 <> eventTypeField p0 -> forall w, w ∈ log p -> event_id p0 w <> "" ->
    (exists t, marks d !! event_id p0 w = Some t /\ (wr_time w <= t)%Z) \/
    (keep0 < now - wr_time w)%Z;
  ri_apart : idField p0 <> eventTypeField p0 -> forall i j a b, i < j -> log p !! i = Some a ->
    log p !! j = Some b -> event_id p0 a = event_id p0 b -> event_id p0 a <> "" ->
    (keep0 < wr_time b - wr_time a)%Z;
  ri_known : known d = foldl (entity_step p0) ∅ (log p);
  ri_updates : eventTypeField p0 <> "" -> entityIDField p0 <> eventTypeField p0 ->
    forall i w, log p !! i = Some w -> event_type p0 w = EventUpdate -> entity_id p0 w <> "" ->
    entity_id p0 w ∈ foldl (entity_step p0) ∅ (take i (log p))
}.

Lemma rt_inv_later p0 keep0 now now' p d :
  (now <= now')%Z -> rt_inv p0 keep0 now p d -> rt_inv p0 keep0 now' p d.
Proof.
  intros Hle [Hset H2 H3 H4 H5 H6 H7 H8]. split; try done.
  - intros w Hw. specialize (H4 w Hw). lia.
  - intros Hne w Hw Hid. destruct (H5 Hne w Hw Hid) as [?|?]; [by left | right; lia].
Qed.

(** Steps that change neither the service nor the writes. *)
Lemma rt_inv_quiet p0 keep0 now p p' d :
  config p' = config p -> idField p' = idField p -> entityIDField p' = entityIDField p ->
  eventTypeField p' = eventTypeField p -> dedup p' = dedup p -> log p' = log p ->
  rt_inv p0 keep0 now p d -> rt_inv p0 keep0 now p' d.
Proof.
  intros E1 E2 E3 E4 E5 E6 [[] H2 H3 H4 H5 H6 H7 H8].
  split; rewrite ?E5, ?E6; try done. split; congruence.
Qed.

Lemma rt_inv_expire p0 keep0 now p d :
  rt_inv p0 keep0 now p d -> rt_inv p0 keep0 now (set_dedup (expire now d) p) (expire now d).
Proof.
  intros [Hset H2 H3 H4 H5 H6 H7 H8]. destruct (expire_known now d) as [Ek Ep].
  split; simpl; try done; [by destruct Hset | congruence | | congruence].
  intros Hne w Hw Hid. rewrite expire_law.
  destruct (H5 Hne w Hw Hid) as [(t & -> & Ht)|?]; [|by right]. rewrite H3.
  destruct (Z.ltb_spec keep0 (now - t)); [right; lia | left; eauto].
Qed.

Lemma rt_inv_write p0 keep0 now p d record n k current (st : Stats) :
  IsRealtime (config p0) = true -> rt_inv p0 keep0 now p d ->
  (getField record (idField p) <> "" -> marks d !! getField record (idField p) = None) ->
  let d' := update_marks now p (upsert p record) d in
  rt_inv p0 keep0 now
    (MkPipeline (config p) (processors p) k (Some d') (idField p) (eventTypeField p)
       (entityIDField p) st n (log p ++ [MkWritten now (upsert p record) current])) d'.
Proof.
  intros Hrt Hi Hfresh d'. destruct (Hi) as [Hs H2 H3 H4 H5 H6 H7 H8].
  set (w := MkWritten now (upsert p record) current).
  destruct (update_marks_spec now p (upsert p record) current d) as (Hm & Hk & Hp).
  fold d' w in Hm, Hk, Hp. destruct Hs as [Sc Si Se St].
  assert (event_id p0 w = event_id p w) as Eid by (unfold event_id; by rewrite Si).
  assert (forall s, entity_step p0 s w = entity_step p s w) as Est.
  { intros s. unfold entity_step, entity_id, event_type. by rewrite Se, St. }
  assert (realtime p = Some d) as Hrp by (unfold realtime; by rewrite Sc, Hrt).
  assert (forall v, v ∈ log p ++ [w] -> v ∈ log p \/ v = w) as Hcases.
  { intros v [?|?%list_elem_of_singleton]%elem_of_app; auto. }
  assert (idField p0 <> eventTypeField p0 -> forall v, v ∈ log p -> event_id p0 v = event_id p0 w ->
    event_id p0 w <> "" -> (keep0 < now - wr_time v)%Z) as Hfar.
  { intros Hne v Hv Ev Hw. destruct (H5 Hne v Hv) as [(t & Ht & _)|?]; [congruence| |done].
    exfalso. rewrite Ev, Eid in Ht. unfold event_id, w in Ht, Hw. simpl in Ht, Hw.
    rewrite getField_upsert in Ht by congruence. rewrite <- Si, getField_upsert in Hw by congruence.
    rewrite Hfresh in Ht by done. done. }
  split; simpl; try done.
  - congruence.
  - intros v [Hv|Hv]%Hcases; [by apply H4 | subst v; simpl; lia].
  - intros Hne v [Hv|Hv]%Hcases Hid.
    + destruct (decide (event_id p0 v = event_id p0 w)) as [Ev|Ev].
      * right. apply Hfar; congruence.
      * destruct (H5 Hne v Hv Hid) as [(t & Ht & Hle)|?]; [|by right]. left. exists t.
        split; [|done]. rewrite Hm. destruct (event_id p w =? ""); [done|].
        rewrite lookup_insert_ne; [done | congruence].
    + subst v. left. exists now. rewrite Hm, Eid. rewrite Eid in Hid. apply String.eqb_neq in Hid.
      rewrite Hid. rewrite lookup_insert_eq. split; [done | simpl; lia].
  - intros Hne i j a b Hij Ha Hb Hab Hid.
    apply lookup_snoc_Some in Hb as [[Hj Hb]|[Hj <-]].
    + apply lookup_snoc_Some in Ha as [[_ Ha]|[Hi' _]]; [|lia].
      by eapply (H6 Hne i j a b).
    + apply lookup_snoc_Some in Ha as [[_ Ha]|[Hi' _]]; [|lia]. simpl.
      apply Hfar; [done | by eapply list_elem_of_lookup_2 | done | congruence].
  - rewrite foldl_app. simpl. by rewrite Est, Hk, H7.
  - intros Ht Hne i v Hv Hu He. apply lookup_snoc_Some in Hv as [[Hi' Hv]|[-> <-]].
    + rewrite take_app_le by lia. by apply H8.
    + rewrite take_app_length, <- H7. unfold entity_id, event_type, w in *. simpl in *.
      rewrite <- Se. rewrite <- Se in He. rewrite <- St in Hu.
      apply (upsert_updates_known p d record Hrp); congruence.
Qed.

Lemma rt_inv_record p0 keep0 now p d record :
  IsRealtime (config p0) = true -> rt_inv p0 keep0 now p d ->
  exists d', rt_inv p0 keep0 now (snd (processRecord rand now record p)) d'.
Proof.
  intros Hrt Hi. destruct (Hi) as [[Sc _ _ _] Hd _ _ _ _ _ _].
  assert (realtime p = Some d) as Hrp by (unfold realtime; by rewrite Sc, Hrt).
  pose proof (processRecord_outcome now record p) as Ho. revert Ho.
  generalize (snd (processRecord rand now record p)) as p'.
  generalize (fst (processRecord rand now record p)) as r. intros r p' Ho.
  destruct Ho as [d0 _ _ _|n|e n k|n k current Hfresh].
  - exists d. by eapply rt_inv_quiet; [..|exact Hi].
  - exists d. by eapply rt_inv_quiet; [..|exact Hi].
  - exists d. by eapply rt_inv_quiet; [..|exact Hi].
  - rewrite Hrp. eexists. simpl. apply (rt_inv_write p0 keep0 now p d); [done..|]. by apply Hfresh.
Qed.

Lemma run_loop_rt p0 keep0 evs now p d :
  IsRealtime (config p0) = true -> rt_inv p0 keep0 now p d -> monotone now evs = true ->
  exists now' d', rt_inv p0 keep0 now' (snd (run_loop rand evs p)) d'.
Proof.
  intros Hrt. revert now p d. induction evs as [|ev evs IH]; intros now p d Hi Hm; [by eauto|].
  destruct ev as [e| |[e|]|t r| |t]; simpl in *; try by eauto.
  - eapply IH; [|exact Hm]. by eapply rt_inv_quiet; [..|exact Hi].
  - apply andb_true_iff in Hm as [Hle%Z.leb_le Hm].
    assert (rt_inv p0 keep0 t (count_total p) d) as Ht.
    { eapply rt_inv_quiet; [..|by eapply rt_inv_later]; done. }
    destruct (rt_inv_record p0 keep0 t _ d r Hrt Ht) as [d' Hd'].
    destruct (processRecord rand t r (count_total p)) as [[]  p']; simpl in *; [eauto| |eauto].
    eapply IH; [|exact Hm]. by eapply rt_inv_quiet; [..|exact Hd'].
  - apply andb_true_iff in Hm as [Hle%Z.leb_le Hm].
    apply (rt_inv_later _ _ _ t) in Hi; [|done]. rewrite (ri_dedup _ _ _ _ _ Hi).
    eapply IH; [by apply rt_inv_expire | done].
Qed.

Lemma rt_inv_start p d now :
  dedup p = Some d -> log p = [] -> known d = ∅ -> rt_inv p (keep d) now p d.
Proof.
  intros Hd Hl Hk. split; rewrite ?Hl; try done; try (intros; by set_solver).
Qed.
End Proofs.

Section Theorems.
Context `{GoRuntime} (rand : nat -> spec_float).
Context {D : Type} `{DL : DedupLaws D} {K : Type} `{Sink K}.


(** C1: A realtime pipeline over a deduplication service that remembers what it is told
    ([DedupLaws]: the memory storage has these laws, the placeholder of the Redis storage
    does not) and that starts empty, with an id field other than the event type field
    (which the upsert step rewrites), a sink whose [Write] does not panic and a clock that
    does not run backwards, writes an event at most once within the time to live: of two
    writes for the same non-empty event id, the second comes more than the time to live
    after the first, however the cleanup ticks fall between the records. *)
Theorem realtime_writes_once_per_ttl (p : Pipeline D K) (d : D) (now : Z) (evs : list RunEvent) :
  (forall now r (k : K), fst (Write now r k) <> Panic) ->
  IsRealtime (config p) = true -> dedup p = Some d -> known d = ∅ -> log p = [] ->
  idField p <> eventTypeField p -> monotone now evs = true ->
  forall i j a b, i < j ->
    log (snd (run_loop rand evs p)) !! i = Some a -> log (snd (run_loop rand evs p)) !! j = Some b ->
    event_id p a = event_id p b -> event_id p a <> "" -> (keep d < wr_time b - wr_time a)%Z.
Proof.
  intros Hw Hr Hd Hk Hl Hne Hm.
  destruct (run_loop_rt rand Hw p (keep d) evs now p d Hr) as (now' & d' & Hi); [|done|].
  { by apply rt_inv_start. }
  apply (ri_apart _ _ _ _ _ Hi Hne).
Qed.

End Theorems.

(** ** Witnesses *)

Definition demo_source : SourceV2 :=
  MkSource "kafka" "" [] "" "" "" "" [] None "" "" ∅ "" None None ["broker"] ["topic"] "g" ""
    0 0 0 0 "" "" "" [] "" "" 0 0 "" 0 "" "" "" [] 0 "".

Definition demo_config : PipelineConfigV2 :=
  MkPipelineConfig "orders" ModeRealtime demo_source
    (Some (MkRealtime "id" "type" "entity" "memory" "100ns")) [] (MkOutput "stub" "" "" None None).

Definition demo_pipeline : Pipeline MemoryDedupService StubSink :=
  MkPipeline demo_config [] (NewStubSink (CfgOutput demo_config)) (Some (NewMemoryDedupService 100))
    "id" "type" "entity" (MkStats 0 0 0 0 0 0 0) 0 [].

Definition demo_record (id type : string) : SrcRecord :=
  MkRecord (<["id" := VString id]> (<["type" := VString type]> {["entity" := VString "7"]}))
    (MkMetadata "kafka" "" "" 0).

Definition demo_events : list RunEvent :=
  [EvRecord 10 (demo_record "e1" EventUpdate); EvRecord 20 (demo_record "e1" EventUpdate);
   EvSourceError (Some "timeout"); EvRecord 30 (demo_record "e2" EventUpdate);
   EvExpire 120; EvRecord 121 (demo_record "e1" EventDelete); EvRecordsClosed].

Definition no_rand (n : nat) : spec_float := S754_zero false.

Lemma stub_write_no_panic now r (k : StubSink) : fst (Write now r k) <> Panic.
Proof. discriminate. Qed.


Definition demo_log : list written :=
  log (snd (@run_loop demo_runtime no_rand _ _ _ _ demo_events demo_pipeline)).

Lemma realtime_writes_once_per_ttl_witness :
  map wr_time demo_log = [10; 30; 121]%Z /\
  forall i j a b, i < j -> demo_log !! i = Some a -> demo_log !! j = Some b ->
    @event_id demo_runtime _ _ demo_pipeline a = @event_id demo_runtime _ _ demo_pipeline b ->
    @event_id demo_runtime _ _ demo_pipeline a <> "" -> (100 < wr_time b - wr_time a)%Z.
Proof.
  split; [vm_compute; reflexivity|]. change 100%Z with (keep (NewMemoryDedupService 100)).
  apply (@realtime_writes_once_per_ttl demo_runtime no_rand _ _ _ _ _ demo_pipeline
    (NewMemoryDedupService 100) 0 demo_events).
  - apply stub_write_no_panic.
  - reflexivity.
  - reflexivity.
  - reflexivity.
  - reflexivity.
  - discriminate.
  - vm_compute. reflexivity.
Defined.


(** ** The Redis storage *)

Section RedisStorage.
Context `{GoRuntime} (rand : nat -> spec_float).
Context (r : RedisDedupService).

Definition on_redis (p : Pipeline AnyDedup StubSink) : Prop := dedup p = Some (DedupRedis r).

Lemma update_marks_redis now (p : Pipeline AnyDedup StubSink) record :
  update_marks now p record (DedupRedis r) = DedupRedis r.
Proof. unfold update_marks. by repeat case_match. Qed.

Lemma processRecord_redis now record (p : Pipeline AnyDedup StubSink) :
  on_redis p -> on_redis (snd (processRecord rand now record p)) /\
  DuplicateCount (stats (snd (processRecord rand now record p))) = DuplicateCount (stats p).
Proof.
  unfold on_redis. intros Hd. unfold processRecord.
  assert (check_duplicate p record = Ok false) as ->.
  { unfold check_duplicate, realtime. destruct (IsRealtime (config p)); [|done]. rewrite Hd.
    by destruct (negb _). }
  destruct (run_processors rand (processors p) (drawn p) (upsert p record)) as [[[cur|]|e|] n];
    simpl; [|done..]. unfold realtime. simpl. destruct (IsRealtime (config p)); [|done].
  rewrite Hd. simpl. by rewrite update_marks_redis.
Qed.

(** The storage redis is accepted by the configuration and by [New], but a
    pipeline that uses it never recognises a duplicate. *)
Theorem redis_storage_never_deduplicates (p : Pipeline AnyDedup StubSink) (evs : list RunEvent) :
  (forall ttl, NewDedupService "redis" ttl = Ok (DedupRedis (NewRedisDedupService "dedup" ttl))) /\
  (dedup p = Some (DedupRedis r) ->
   DuplicateCount (stats (snd (run_loop rand evs p))) = DuplicateCount (stats p)).
Proof.
  split; [done|]. fold (on_redis p). revert p.
  induction evs as [|ev evs IH]; intros p Hp; [done|].
  destruct ev as [e| |[e|]|t rec| |t]; simpl; try done; try by apply IH.
  - by rewrite IH.
  - pose proof (processRecord_redis t rec (count_total p) Hp) as [Hd Hc].
    destruct (processRecord rand t rec (count_total p)) as [[]  p']; simpl in *.
    + by rewrite IH.
    + by rewrite IH.
    + done.
  - rewrite Hp. by rewrite IH.
Qed.
End RedisStorage.
