(* ===== verification/StreamSink.v ===== *)
(** * Sinks of a stream (pkg/stream/sink.go)

    The batching sinks, the validating wrapper and their construction. The locked part
    of [Write], the locked part of [Flush] and the write of a batch are separate
    definitions: the loop that flushes on a timer runs beside the goroutine that
    writes, and both call [Flush]. What the sinks print is kept as a list of lines. *)

From Stdlib Require Import String.
From stdpp Require Import pretty.
From S2P Require Import Prelude GoString GoValue GoTime Schema Stream.
Local Open Scope string_scope.
Local Open Scope list_scope.

(** ** [BaseSink] *)

(** A [time.Timer]: the time at which it fires, [None] when it is stopped or fired. *)
Definition Timer : Type := option Z.

Record BaseSink := MkSink {
  name : string;
  typ : string;
  config : Data;
  batchSize : Z;
  flushTimeout : Z;
  buffer : list Record_;
  outputCount : Z;
  errorCount : Z;
  flushTimer : option Timer;
  cancelled : bool
}.

Definition set_buffer (l : list Record_) (s : BaseSink) : BaseSink :=
  MkSink (name s) (typ s) (config s) (batchSize s) (flushTimeout s) l
    (outputCount s) (errorCount s) (flushTimer s) (cancelled s).
Definition set_counts (o e : Z) (s : BaseSink) : BaseSink :=
  MkSink (name s) (typ s) (config s) (batchSize s) (flushTimeout s) (buffer s)
    o e (flushTimer s) (cancelled s).
Definition set_timer (t : option Timer) (c : bool) (s : BaseSink) : BaseSink :=
  MkSink (name s) (typ s) (config s) (batchSize s) (flushTimeout s) (buffer s)
    (outputCount s) (errorCount s) t c.

(** [make] of a slice of pointers panics when the capacity is negative or its size is above
    what the runtime can address, [2 ^ 48] bytes on 64-bit Linux. *)
Definition max_alloc : Z := (2 ^ 48)%Z.
Definition can_make (cap : Z) : bool := ((0 <=? cap) && (8 * cap <=? max_alloc))%Z.

(** The struct literal of a constructor followed by [init]. *)
Definition init (nm ty : string) (cfg : Data) (bs ft : Z) : res string BaseSink :=
  let bs := if (bs =? 0)%Z then 1000%Z else bs in
  let ft := if (ft =? 0)%Z then (10 * Second)%Z else ft in
  if can_make bs then Ok (MkSink nm ty cfg bs ft [] 0 0 None false)
  else Panic.

Definition incrementOutput (n : Z) (s : BaseSink) : BaseSink :=
  set_counts (int64_wrap (outputCount s + n)) (errorCount s) s.
Definition incrementError (n : Z) (s : BaseSink) : BaseSink :=
  set_counts (outputCount s) (int64_wrap (errorCount s + n)) s.
Definition Stats (s : BaseSink) : Z * Z := (outputCount s, errorCount s).

(** [flushTimer.Reset(flushTimeout)], guarded as in [Write]. *)
Definition reset_timer (now : Z) (s : BaseSink) : BaseSink :=
  match flushTimer s with
  | Some _ => set_timer (Some (Some (now + flushTimeout s)%Z)) (cancelled s) s
  | None => s
  end.

(** [startFlushLoop], up to the goroutine it starts. *)
Definition startFlushLoop (now : Z) (s : BaseSink) : BaseSink :=
  set_timer (Some (Some (now + flushTimeout s)%Z)) (cancelled s) s.

(** ** [BufferedSink] *)

Section Buffered.
(** [writeFunc] hands a batch to the backend, whose state is [W]. *)
Context {W : Type} (writeFunc : list Record_ -> W -> res string unit * W).

(** The locked part of [Write]: whether the buffer is full, and the sink. *)
Definition append_record (r : Record_) (s : BaseSink) : bool * BaseSink :=
  let s := set_buffer (buffer s ++ [r]) s in
  ((batchSize s <=? Z.of_nat (length (buffer s)))%Z, s).

(** The locked part of [Flush]: the batch it takes, if there is one. *)
Definition swap_buffer (s : BaseSink) : option (list Record_) * BaseSink :=
  match buffer s with
  | [] => (None, s)
  | records => (Some records, set_buffer [] s)
  end.

(** The rest of [Flush]: the batch is written and counted. *)
Definition write_records (records : list Record_) (s : BaseSink) (w : W)
  : res string unit * BaseSink * W :=
  let n := Z.of_nat (length records) in
  let '(result, w) := writeFunc records w in
  match result with
  | Ok _ => (Ok tt, incrementOutput n s, w)
  | Err e => (Err e, incrementError n s, w)
  | Panic => (Panic, s, w)
  end.

Definition buffered_Flush (s : BaseSink) (w : W) : res string unit * BaseSink * W :=
  let '(batch, s) := swap_buffer s in
  match batch with
  | None => (Ok tt, s, w)
  | Some records => write_records records s w
  end.

Definition buffered_Write (now : Z) (r : Record_) (s : BaseSink) (w : W)
  : res string unit * BaseSink * W :=
  let '(shouldFlush, s) := append_record r s in
  if shouldFlush then buffered_Flush s w
  else (Ok tt, reset_timer now s, w).

Definition buffered_Close (s : BaseSink) (w : W) : res string unit * BaseSink * W :=
  let t := match flushTimer s with Some _ => Some None | None => None end in
  buffered_Flush (set_timer t true s) w.

(** One turn of the flush loop at time [now]: nothing happens unless the timer has
    fired, and after a cancellation the loop is gone. *)
Definition flush_loop (now : Z) (s : BaseSink) (w : W) : BaseSink * W :=
  match flushTimer s with
  | Some (Some deadline) =>
      if cancelled s || (now <? deadline)%Z then (s, w)
      else
        let '(_, s, w) := buffered_Flush s w in
        (reset_timer now s, w)
  | _ => (s, w)
  end.

(** *** Interleavings

    [EvSwap] is the locked part of any [Flush] (of a writer, the loop or a close), and
    [EvDone i] the end of the write of the [i]-th batch under way. *)
Inductive SinkEvent :=
| EvAppend (r : Record_)
| EvSwap
| EvDone (i : nat).

Record SinkWorld := MkSinkWorld {
  sink_state : BaseSink;
  under_way : list (list Record_);
  backend : W
}.

Definition sink_event (x : SinkWorld) (ev : SinkEvent) : SinkWorld :=
  match ev with
  | EvAppend r => MkSinkWorld (append_record r (sink_state x)).2 (under_way x) (backend x)
  | EvSwap =>
      let '(batch, s) := swap_buffer (sink_state x) in
      MkSinkWorld s (under_way x ++ option_list batch) (backend x)
  | EvDone i =>
      match under_way x !! i with
      | None => x
      | Some records =>
          let '(_, s, w) := write_records records (sink_state x) (backend x) in
          MkSinkWorld s (delete i (under_way x)) w
      end
  end.

Definition run_sink (x : SinkWorld) (evs : list SinkEvent) : SinkWorld :=
  foldl sink_event x evs.
End Buffered.

(** ** The kinds of sinks *)

Inductive BatchSink :=
| ElasticsearchSink (endpoints : list string) (index : string)
| S3Sink (bucket prefix : string)
| KafkaSink (brokers : list string) (topic : string)
| FileSink (path : string).

(** [writeBatch] of the four batching sinks: placeholders that print a line. *)
Definition es_writeBatch (endpoints : list string) (index : string) (records : list Record_)
  (out : list string) : res string unit * list string :=
  match endpoints with
  | [] => (Err "no elasticsearch endpoints configured", out)
  | ep :: _ =>
      (Ok tt, out ++ ["[ES] Would send " +:+ pretty (length records) +:+ " records to " +:+ ep
                      +:+ "/" +:+ index])
  end.
Definition s3_writeBatch (bucket prefix : string) (records : list Record_) (out : list string)
  : res string unit * list string :=
  (Ok tt, out ++ ["[S3] Would upload " +:+ pretty (length records) +:+ " records to s3://"
                  +:+ bucket +:+ "/" +:+ prefix]).
Definition kafka_writeBatch (topic : string) (records : list Record_) (out : list string)
  : res string unit * list string :=
  (Ok tt, out ++ ["[Kafka] Would send " +:+ pretty (length records) +:+ " records to " +:+ topic]).
Definition file_writeBatch (path : string) (records : list Record_) (out : list string)
  : res string unit * list string :=
  (Ok tt, out ++ ["[File] Would write " +:+ pretty (length records) +:+ " records to " +:+ path]).

(** The [writeFunc] of a batching sink. *)
Definition writeBatch (k : BatchSink) : list Record_ -> list string -> res string unit * list string :=
  match k with
  | ElasticsearchSink endpoints index => es_writeBatch endpoints index
  | S3Sink bucket prefix => s3_writeBatch bucket prefix
  | KafkaSink _ topic => kafka_writeBatch topic
  | FileSink path => file_writeBatch path
  end.

Inductive Sink :=
| ConsoleSink (b : BaseSink)
| BufferedSink (b : BaseSink) (k : BatchSink)
| ValidatingSink (inner : Sink) (schema : option DataSchema) (dropOnFail : bool)
    (validCount invalidCount : Z).

Fixpoint Name (s : Sink) : string :=
  match s with
  | ConsoleSink b | BufferedSink b _ => name b
  | ValidatingSink inner _ _ _ _ => Name inner
  end.
Fixpoint Type_ (s : Sink) : string :=
  match s with
  | ConsoleSink b | BufferedSink b _ => typ b
  | ValidatingSink inner _ _ _ _ => "validating_" +:+ Type_ inner
  end.

Section Sinks.
Context `{GoRuntime} `{GoArch}.
Context (range_data : Data -> list (string * GoValue)).
(** [json.Encoder.Encode]: the line it prints, if the data can be encoded. *)
Context (encode : Data -> option string).

Definition console_Write (r : Record_) (b : BaseSink) (out : list string)
  : res string unit * BaseSink * list string :=
  match encode (read r) with
  | None => (Err "json: unsupported value", incrementError 1 b, out)
  | Some line => (Ok tt, incrementOutput 1 b, out ++ [line])
  end.

Fixpoint Write (now : Z) (r : Record_) (s : Sink) (out : list string)
  : res string unit * Sink * list string :=
  match s with
  | ConsoleSink b =>
      let '(e, b, out) := console_Write r b out in (e, ConsoleSink b, out)
  | BufferedSink b k =>
      let '(e, b, out) := buffered_Write (writeBatch k) now r b out in (e, BufferedSink b k, out)
  | ValidatingSink inner schema dropOnFail valid invalid =>
      let accepted := match schema with
                      | None => true
                      | Some sch => is_ok (Validate range_data sch (read r))
                      end in
      if accepted then
        let '(e, inner, out) := Write now r inner out in
        (e, ValidatingSink inner schema dropOnFail (add1 valid) invalid, out)
      else
        (if dropOnFail then Ok tt else Err "output validation failed",
         ValidatingSink inner schema dropOnFail valid (add1 invalid), out)
  end.

Fixpoint Flush (s : Sink) (out : list string) : res string unit * Sink * list string :=
  match s with
  | ConsoleSink b => (Ok tt, s, out)
  | BufferedSink b k =>
      let '(e, b, out) := buffered_Flush (writeBatch k) b out in (e, BufferedSink b k, out)
  | ValidatingSink inner schema d v i =>
      let '(e, inner, out) := Flush inner out in (e, ValidatingSink inner schema d v i, out)
  end.

Fixpoint Close (s : Sink) (out : list string) : res string unit * Sink * list string :=
  match s with
  | ConsoleSink b => (Ok tt, s, out)
  | BufferedSink b k =>
      let '(e, b, out) := buffered_Close (writeBatch k) b out in (e, BufferedSink b k, out)
  | ValidatingSink inner schema d v i =>
      let '(e, inner, out) := Close inner out in (e, ValidatingSink inner schema d v i, out)
  end.
End Sinks.

(** *** Construction *)

Definition strings_of (v : option GoValue) : list string :=
  omap (fun x => as_string (Some x)) (default [] (as_slice v)).

(** [max_events] of the section [buffer] of a configuration. *)
Definition max_events (cfg : Data) (dflt : Z) : Z :=
  match as_map (cfg !! "buffer") with
  | Some buf => default dflt (as_int (buf !! "max_events"))
  | None => dflt
  end.

Definition NewConsoleSink (nm : string) (cfg : Data) : res string Sink :=
  init nm "console" cfg 1 Second ≫= fun b => Ok (ConsoleSink b).

Definition start_buffered (now : Z) (k : BatchSink) (b : res string BaseSink) : res string Sink :=
  b ≫= fun b => Ok (BufferedSink (startFlushLoop now b) k).

Definition flush_timeout (cfg : Data) : Z :=
  match as_map (cfg !! "buffer") with
  | Some buf => default (10 * Second)%Z (as_string (buf !! "timeout") ≫= ParseDuration)
  | None => (10 * Second)%Z
  end.

Definition NewElasticsearchSink (now : Z) (nm : string) (cfg : Data) : res string Sink :=
  start_buffered now
    (ElasticsearchSink (strings_of (cfg !! "endpoints")) (default "logs" (as_string (cfg !! "index"))))
    (init nm "elasticsearch" cfg (max_events cfg 5000) (flush_timeout cfg)).
Definition NewS3Sink (now : Z) (nm : string) (cfg : Data) : res string Sink :=
  start_buffered now
    (S3Sink (default "" (as_string (cfg !! "bucket"))) (default "" (as_string (cfg !! "prefix"))))
    (init nm "s3" cfg (max_events cfg 10000) (60 * Second)).
Definition NewKafkaSink (now : Z) (nm : string) (cfg : Data) : res string Sink :=
  start_buffered now
    (KafkaSink (strings_of (cfg !! "brokers")) (default "" (as_string (cfg !! "topic"))))
    (init nm "kafka" cfg 1000 (5 * Second)).
Definition NewFileSink (now : Z) (nm : string) (cfg : Data) : res string Sink :=
  start_buffered now (FileSink (default "/tmp/pipeline-output.json" (as_string (cfg !! "path"))))
    (init nm "file" cfg 1000 (10 * Second)).

Record SinkConfig := MkSinkConfig {
  CfgSinkType : string;
  CfgSinkName : string;
  CfgBatchSize : Z;
  CfgFlushTimeout : Z;
  CfgSinkConfig : Data
}.

Definition NewSink (now : Z) (cfg : SinkConfig) : res string Sink :=
  let ty := CfgSinkType cfg in
  let nm := CfgSinkName cfg in
  let c := CfgSinkConfig cfg in
  if ty =? "console" then NewConsoleSink nm c
  else if ty =? "elasticsearch" then NewElasticsearchSink now nm c
  else if ty =? "s3" then NewS3Sink now nm c
  else if ty =? "kafka" then NewKafkaSink now nm c
  else if ty =? "file" then NewFileSink now nm c
  else Err ("unknown sink type: " +:+ ty).

Definition NewSinkWithValidation (now : Z) (cfg : SinkConfig) (outputSchema : option DataSchema)
  (dropOnFail : bool) : res string Sink :=
  NewSink now cfg ≫= fun s =>
  match outputSchema with
  | Some _ => Ok (ValidatingSink s outputSchema dropOnFail 0 0)
  | None => Ok s
  end.

(** ** Conservation *)

(** [writeFunc] with a log of its calls: the batch, and whether it was taken. *)
Definition logged {W} (writeFunc : list Record_ -> W -> res string unit * W)
  (records : list Record_) (x : W * list (list Record_ * bool))
  : res string unit * (W * list (list Record_ * bool)) :=
  let '(result, w) := writeFunc records x.1 in
  (result, (w, x.2 ++ [(records, is_ok result)])).

(** The records of the batches that were taken, or refused. *)
Definition records_where (ok : bool) (log : list (list Record_ * bool)) : list Record_ :=
  concat (map fst (List.filter (fun e => Bool.eqb (snd e) ok) log)).

Definition count {A} (l : list A) : Z := Z.of_nat (length l).

Lemma count_app {A} (l l' : list A) : count (l ++ l') = (count l + count l')%Z.
Proof. unfold count. rewrite length_app. lia. Qed.

Lemma records_where_app ok log e :
  records_where ok (log ++ [e])
  = records_where ok log ++ (if Bool.eqb (snd e) ok then fst e else []).
Proof.
  unfold records_where. rewrite List.filter_app, map_app, concat_app. simpl.
  destruct (Bool.eqb (snd e) ok); simpl; by rewrite ?app_nil_r.
Qed.

(** The counters agree with the log. *)
Definition counted (s : BaseSink) (log : list (list Record_ * bool)) : Prop :=
  eqm (outputCount s) (count (records_where true log)) /\
  eqm (errorCount s) (count (records_where false log)).

Section Conservation.
Context {W : Type} (writeFunc : list Record_ -> W -> res string unit * W).
Context (no_panic : forall records w, fst (writeFunc records w) <> Panic).

Lemma write_records_spec records s w log :
  counted s log ->
  exists e s' w' ok, write_records (logged writeFunc) records s (w, log)
    = (e, s', (w', log ++ [(records, ok)])) /\ e <> Panic /\ is_ok e = ok /\
    counted s' (log ++ [(records, ok)]) /\
    exists o er, s' = set_counts o er s.
Proof.
  intros [Ho He]. unfold write_records, logged. simpl.
  pose proof (no_panic records w) as Hp.
  destruct (writeFunc records w) as [[[]|e|] w']; [| |done]; simpl; do 4 eexists;
    (split; [reflexivity|]); (split; [done|]); (split; [done|]); (split; [|by do 2 eexists]);
    split; rewrite records_where_app; simpl; rewrite ?app_nil_r, ?count_app; try done;
    rewrite wrap_eqm.
  - by rewrite Ho.
  - by rewrite He.
Qed.

(** Every record appended is in the buffer, in a batch under way or in the log. *)
Definition conserved (rs : list Record_)
  (x : SinkWorld (W := W * list (list Record_ * bool))) : Prop :=
  concat (map fst (backend x).2) ++ concat (under_way x) ++ buffer (sink_state x) ≡ₚ rs /\
  counted (sink_state x) (backend x).2.

Definition appended (evs : list SinkEvent) : list Record_ :=
  omap (fun ev => match ev with EvAppend r => Some r | _ => None end) evs.

Lemma concat_delete (ls : list (list Record_)) i l :
  ls !! i = Some l -> concat ls ≡ₚ l ++ concat (delete i ls).
Proof.
  revert i. induction ls as [|l' ls IH]; intros [|i] Hl; try done; simpl in *.
  - by simplify_eq.
  - rewrite (IH i Hl). apply Permutation_app_swap_app.
Qed.

Lemma sink_event_conserved rs x ev :
  conserved rs x -> conserved (rs ++ appended [ev]) (sink_event (logged writeFunc) x ev).
Proof.
  destruct x as [s uw [w log]]. intros [Hc Hn]. simpl in *. destruct ev as [r| |i]; simpl.
  - split; [|exact Hn]. simpl. by rewrite <- Hc, !app_assoc.
  - rewrite app_nil_r. unfold swap_buffer. destruct (buffer s) as [|r l] eqn:E; simpl.
    + rewrite app_nil_r. split; [|done]. simpl. by rewrite E.
    + split; [|exact Hn]. cbn -[app]. rewrite concat_app. simpl. by rewrite !app_nil_r.
  - rewrite app_nil_r. destruct (uw !! i) as [records|] eqn:E; [|done].
    destruct (write_records_spec records s w log Hn)
      as (e & s' & w' & ok & -> & _ & _ & Hn' & o & er & ->).
    split; [|exact Hn']. simpl. rewrite map_app, concat_app. simpl.
    rewrite app_nil_r, <- app_assoc, <- Hc, (concat_delete uw i records E).
    by rewrite <- app_assoc.
Qed.

Lemma run_sink_conserved rs x evs :
  conserved rs x -> conserved (rs ++ appended evs) (run_sink (logged writeFunc) x evs).
Proof.
  revert rs x. induction evs as [|ev evs IH]; intros rs x Hc.
  { by rewrite app_nil_r. }
  change (appended (ev :: evs)) with (appended ([ev] ++ evs)). unfold appended.
  rewrite omap_app, app_assoc. by apply IH, sink_event_conserved.
Qed.

(** *** Calls one after the other *)

Inductive SinkCall :=
| CallWrite (now : Z) (r : Record_)
| CallFlush
| CallTick (now : Z)
| CallClose.

Definition sink_call {V} (wf : list Record_ -> V -> res string unit * V)
  (x : BaseSink * V) (c : SinkCall) : BaseSink * V :=
  let drop_result y := (y.1.2, y.2) in
  match c with
  | CallWrite now r => drop_result (buffered_Write wf now r x.1 x.2)
  | CallFlush => drop_result (buffered_Flush wf x.1 x.2)
  | CallTick now => flush_loop wf now x.1 x.2
  | CallClose => drop_result (buffered_Close wf x.1 x.2)
  end.

Definition call_record (c : SinkCall) : list Record_ :=
  match c with CallWrite _ r => [r] | _ => [] end.

Definition batch_ok (bs : Z) (records : list Record_) : Prop :=
  (0 < count records <= bs)%Z.

(** The batches in the order in which they were taken, then the buffer. *)
Record in_order (rs : list Record_) (x : BaseSink * (W * list (list Record_ * bool))) : Prop := {
  io_order : concat (map fst x.2.2) ++ buffer x.1 = rs;
  io_batches : Forall (batch_ok (batchSize x.1)) (map fst x.2.2);
  io_buffer : (count (buffer x.1) < batchSize x.1)%Z;
  io_counted : counted x.1 x.2.2
}.

Lemma flush_in_order rs s w log :
  concat (map fst log) ++ buffer s = rs -> Forall (batch_ok (batchSize s)) (map fst log) ->
  (0 < batchSize s)%Z -> (count (buffer s) <= batchSize s)%Z -> counted s log ->
  exists e s' w' log', buffered_Flush (logged writeFunc) s (w, log) = (e, s', (w', log')) /\
    e <> Panic /\ buffer s' = [] /\ batchSize s' = batchSize s /\ flushTimer s' = flushTimer s /\
    in_order rs (s', (w', log')).
Proof.
  intros Ho Hb Hpos Hlen Hn. unfold buffered_Flush, swap_buffer.
  destruct (buffer s) as [|r l] eqn:E.
  - exists (Ok tt), s, w, log. split; [done|]. split; [done|]. split; [done|]. split; [done|].
    split; [done|]. split; simpl; rewrite ?E; try done.
  - destruct (write_records_spec (r :: l) (set_buffer [] s) w log Hn)
      as (e & s' & w' & ok & -> & Hp & _ & Hn' & o & er & ->).
    do 4 eexists. split; [reflexivity|]. split; [done|]. split; [done|]. split; [done|].
    split; [done|]. split; simpl.
    + rewrite map_app, concat_app. simpl. by rewrite !app_nil_r.
    + rewrite map_app, Forall_app. split; [done|]. apply Forall_singleton.
      unfold batch_ok, count in *. simpl in *. lia.
    + done.
    + exact Hn'.
Qed.

Lemma in_order_set_timer rs s t c v : in_order rs (s, v) -> in_order rs (set_timer t c s, v).
Proof. intros [Ho Hb Hl Hn]. by split. Qed.

Lemma reset_timer_eq now s : exists t, reset_timer now s = set_timer t (cancelled s) s.
Proof.
  unfold reset_timer. destruct (flushTimer s) as [t|] eqn:E; [by eexists|].
  exists None. destruct s; simpl in *. by subst.
Qed.

Lemma sink_call_in_order rs x c :
  in_order rs x -> in_order (rs ++ call_record c) (sink_call (logged writeFunc) x c).
Proof.
  destruct x as [s [w log]]. intros H. pose proof H as [Ho Hb Hl Hn].
  simpl in *. assert (0 < batchSize s)%Z by (unfold count in Hl; lia).
  destruct c as [now r| |now|]; simpl; rewrite ?app_nil_r.
  - unfold buffered_Write, append_record. cbn [buffer set_buffer batchSize].
    destruct (Z.leb_spec (batchSize s) (Z.of_nat (length (buffer s ++ [r])))) as [Hf|Hf].
    + destruct (flush_in_order (rs ++ [r]) (set_buffer (buffer s ++ [r]) s) w log)
        as (e & s' & w' & log' & -> & _ & _ & _ & _ & Hin); simpl; try done.
      * by rewrite app_assoc, Ho.
      * rewrite count_app. unfold count in *. simpl in *. lia.
    + destruct (reset_timer_eq now (set_buffer (buffer s ++ [r]) s)) as [t ->].
      apply in_order_set_timer. split; simpl; try done. by rewrite app_assoc, Ho.
  - destruct (flush_in_order rs s w log)
      as (e & s' & w' & log' & -> & _ & _ & _ & _ & Hin); try done; lia.
  - unfold flush_loop. destruct (flushTimer s) as [[d|]|]; [|done..].
    destruct (cancelled s || (now <? d)%Z); [done|].
    destruct (flush_in_order rs s w log)
      as (e & s' & w' & log' & -> & _ & _ & _ & _ & Hin); try done; [lia|].
    destruct (reset_timer_eq now s') as [t ->]. by apply in_order_set_timer.
  - unfold buffered_Close.
    set (s1 := set_timer _ true s).
    destruct (flush_in_order rs s1 w log)
      as (e & s' & w' & log' & -> & _ & _ & _ & _ & Hin); try done; subst s1; simpl; lia.
Qed.

Lemma sink_calls_in_order rs x cs :
  in_order rs x ->
  in_order (rs ++ concat (map call_record cs)) (foldl (sink_call (logged writeFunc)) x cs).
Proof.
  revert rs x. induction cs as [|c cs IH]; intros rs x Hin; simpl.
  { by rewrite app_nil_r. }
  rewrite app_assoc. by apply IH, sink_call_in_order.
Qed.
End Conservation.

(** C18: However the locked parts of writes and flushes and the writes of batches are
    interleaved, a batching sink neither loses nor duplicates a record on the way to
    its backend: the batches handed over, those under way and the buffer hold exactly
    the records written, and the counters (modulo their width) are the numbers of
    records in batches that were taken and that were refused. *)
Theorem sink_conserves_records {W} (writeFunc : list Record_ -> W -> res string unit * W)
    (nm ty : string) (cfg : Data) (bs ft : Z) (b : BaseSink) (w : W) (evs : list SinkEvent) :
  (forall records w, fst (writeFunc records w) <> Panic) ->
  init nm ty cfg bs ft = Ok b ->
  let x := run_sink (logged writeFunc) (MkSinkWorld b [] (w, [])) evs in
  let log := (backend x).2 in
  concat (map fst log) ++ concat (under_way x) ++ buffer (sink_state x) ≡ₚ appended evs /\
  eqm (outputCount (sink_state x)) (count (records_where true log)) /\
  eqm (errorCount (sink_state x)) (count (records_where false log)).
Proof.
  intros Hp Hi x log.
  assert (conserved [] (MkSinkWorld b [] (w, []))) as Hc.
  { unfold init in Hi. split_matches; done. }
  by destruct (run_sink_conserved writeFunc Hp [] _ evs Hc) as [? [? ?]].
Qed.

Definition demo_record_n (n : Z) : Record_ := MkRec (Some {["n" := VInt KInt n]}) (MkMeta "s" 0 n "") 0.

(** A backend that refuses its second batch. *)
Definition refuse_second (records : list Record_) (n : nat) : res string unit * nat :=
  (if (n =? 1)%nat then Err "timeout" else Ok tt, S n).

Definition demo_base (bs : Z) : BaseSink :=
  MkSink "s" "file" ∅ bs (10 * Second)%Z [] 0 0 None false.

Definition demo_sink_events : list SinkEvent :=
  [EvAppend (demo_record_n 1); EvAppend (demo_record_n 2); EvSwap; EvAppend (demo_record_n 3); EvSwap;
   EvDone 1; EvDone 0; EvAppend (demo_record_n 4)].

Lemma sink_conserves_records_witness :
  init "s" "file" ∅ 2 (10 * Second) = Ok (demo_base 2) /\
  let x := run_sink (logged refuse_second) (MkSinkWorld (demo_base 2) [] (0, [])) demo_sink_events in
  let log := (backend x).2 in
  concat (map fst log) ++ concat (under_way x) ++ buffer (sink_state x) ≡ₚ appended demo_sink_events /\
  eqm (outputCount (sink_state x)) (count (records_where true log)) /\
  eqm (errorCount (sink_state x)) (count (records_where false log)).
Proof.
  split; [reflexivity|].
  apply (sink_conserves_records refuse_second "s" "file" ∅ 2 (10 * Second)%Z (demo_base 2) 0
    demo_sink_events); [|reflexivity].
  intros records w. unfold refuse_second. simpl. by destruct (w =? 1)%nat.
Defined.

(** Called from one goroutine at a time, a batching sink keeps the order: the
    batches in the order in which they were handed over, followed by the buffer, are
    the records in the order of their writes, whether or not the backend takes a
    batch; a refused batch is gone. Batches are never empty and never larger than
    the batch size, and between calls the buffer is smaller than it. *)
Theorem sink_batches_in_order {W} (writeFunc : list Record_ -> W -> res string unit * W)
    (nm ty : string) (cfg : Data) (bs ft : Z) (b : BaseSink) (w : W) (cs : list SinkCall) :
  (forall records w, fst (writeFunc records w) <> Panic) ->
  init nm ty cfg bs ft = Ok b ->
  let x := foldl (sink_call (logged writeFunc)) (b, (w, [])) cs in
  concat (map fst x.2.2) ++ buffer x.1 = concat (map call_record cs) /\
  Forall (batch_ok (batchSize x.1)) (map fst x.2.2) /\
  (count (buffer x.1) < batchSize x.1)%Z.
Proof.
  intros Hp Hi x.
  assert (in_order [] (b, (w, []))) as Hin.
  { unfold init, can_make in Hi. split_matches; split; unfold count; simpl; try done; bool_props; lia. }
  by destruct (sink_calls_in_order writeFunc Hp [] _ cs Hin) as [? ? ? ?].
Qed.

Definition demo_sink_calls : list SinkCall :=
  [CallWrite 0 (demo_record_n 1); CallWrite 0 (demo_record_n 2); CallWrite 0 (demo_record_n 3);
   CallFlush; CallWrite 0 (demo_record_n 4); CallClose].

Lemma sink_batches_in_order_witness :
  init "s" "file" ∅ 2 (10 * Second) = Ok (demo_base 2) /\
  let x := foldl (sink_call (logged refuse_second)) (demo_base 2, (0, [])) demo_sink_calls in
  concat (map fst x.2.2) ++ buffer x.1 = concat (map call_record demo_sink_calls) /\
  Forall (batch_ok (batchSize x.1)) (map fst x.2.2) /\
  (count (buffer x.1) < batchSize x.1)%Z.
Proof.
  split; [reflexivity|].
  apply (sink_batches_in_order refuse_second "s" "file" ∅ 2 (10 * Second)%Z (demo_base 2) 0
    demo_sink_calls); [|reflexivity].
  intros records w. unfold refuse_second. simpl. by destruct (w =? 1)%nat.
Defined.

(** ** Well-formed sinks *)

Record base_ok (b : BaseSink) : Prop := {
  bo_buffer : (count (buffer b) < batchSize b)%Z;
  bo_output : int64_ok (outputCount b);
  bo_error : int64_ok (errorCount b)
}.

Fixpoint sink_ok (s : Sink) : Prop :=
  match s with
  | ConsoleSink b | BufferedSink b _ => base_ok b
  | ValidatingSink inner _ _ valid invalid => sink_ok inner /\ int64_ok valid /\ int64_ok invalid
  end.

Lemma writeBatch_no_panic k records out : fst (writeBatch k records out) <> Panic.
Proof. by destruct k as [[|ep eps] ix| | |]. Qed.

Lemma base_ok_timer t c b : base_ok b -> base_ok (set_timer t c b).
Proof. intros [? ? ?]. by split. Qed.

Lemma base_ok_reset now b : base_ok b -> base_ok (reset_timer now b).
Proof. destruct (reset_timer_eq now b) as [t ->]. apply base_ok_timer. Qed.

(** [Flush] is also called with a buffer that has just become full. *)
Lemma buffered_Flush_ok k b out :
  (0 < batchSize b)%Z -> int64_ok (outputCount b) -> int64_ok (errorCount b) ->
  exists e b' out', buffered_Flush (writeBatch k) b out = (e, b', out') /\ e <> Panic /\
    base_ok b' /\ buffer b' = [].
Proof.
  intros Hpos Ho He. unfold buffered_Flush, swap_buffer. destruct (buffer b) as [|r l] eqn:E.
  - exists (Ok tt), b, out. split; [done|]. split; [done|]. split; [|done].
    split; [by rewrite E|done..].
  - unfold write_records. pose proof (writeBatch_no_panic k (r :: l) out) as Hp.
    destruct (writeBatch k (r :: l) out) as [[[]|e|] out']; [| |done]; do 3 eexists;
      (split; [reflexivity|]); (split; [done|]); (split; [|done]); split; simpl; auto with conduix.
Qed.

Lemma buffered_Write_ok k now r b out :
  base_ok b ->
  exists e b' out', buffered_Write (writeBatch k) now r b out = (e, b', out') /\ e <> Panic /\
    base_ok b'.
Proof.
  intros [Hl Ho He]. unfold buffered_Write, append_record. cbn [buffer set_buffer batchSize].
  destruct (Z.leb_spec (batchSize b) (Z.of_nat (length (buffer b ++ [r])))) as [Hf|Hf].
  - destruct (buffered_Flush_ok k (set_buffer (buffer b ++ [r]) b) out)
      as (e & b' & out' & -> & ? & ? & _); simpl; try done; [unfold count in Hl; lia|]. eauto 10.
  - do 3 eexists. split; [reflexivity|]. split; [done|]. apply base_ok_reset. by split.
Qed.

Lemma console_Write_ok encode r b out :
  base_ok b ->
  exists e b' out', console_Write encode r b out = (e, b', out') /\ e <> Panic /\ base_ok b'.
Proof.
  intros [Hl Ho He]. unfold console_Write. destruct (encode (read r)); do 3 eexists;
    (split; [reflexivity|]); (split; [done|]); split; simpl; auto with conduix.
Qed.

Section SinkOk.
Context `{GoRuntime} `{GoArch}.
Context (range_data : Data -> list (string * GoValue)) (encode : Data -> option string).

Lemma Write_ok now r s out :
  sink_ok s -> exists e s' out', Write range_data encode now r s out = (e, s', out') /\
    e <> Panic /\ sink_ok s'.
Proof.
  induction s as [b|b k|inner IH sch d v i]; simpl; intros Hs.
  - destruct (console_Write_ok encode r b out Hs) as (e & b' & out' & -> & ? & ?). eauto 10.
  - destruct (buffered_Write_ok k now r b out Hs) as (e & b' & out' & -> & ? & ?). eauto 10.
  - destruct Hs as (Hin & Hv & Hi). destruct (match sch with Some _ => _ | None => _ end).
    + destruct (IH Hin) as (e & s' & out' & -> & ? & ?). do 3 eexists.
      split; [reflexivity|]. split; [done|]. simpl. unfold add1. auto with conduix.
    + do 3 eexists. split; [reflexivity|]. split; [by destruct d|]. simpl. unfold add1.
      auto with conduix.
Qed.

Lemma Flush_ok s out :
  sink_ok s -> exists e s' out', Flush s out = (e, s', out') /\ e <> Panic /\ sink_ok s'.
Proof.
  induction s as [b|b k|inner IH sch d v i]; simpl; intros Hs.
  - by exists (Ok tt), (ConsoleSink b), out.
  - destruct Hs as [Hl Ho He].
    destruct (buffered_Flush_ok k b out) as (e & b' & out' & -> & ? & ? & _); try done;
      [unfold count in Hl; lia|]. eauto 10.
  - destruct Hs as (Hin & Hv & Hi). destruct (IH Hin) as (e & s' & out' & -> & ? & ?). do 3 eexists.
    by split.
Qed.

Lemma Close_ok s out :
  sink_ok s -> exists e s' out', Close s out = (e, s', out') /\ e <> Panic /\ sink_ok s'.
Proof.
  induction s as [b|b k|inner IH sch d v i]; simpl; intros Hs.
  - by exists (Ok tt), (ConsoleSink b), out.
  - destruct Hs as [Hl Ho He]. unfold buffered_Close. set (b1 := set_timer _ true b).
    destruct (buffered_Flush_ok k b1 out) as (e & b' & out' & -> & ? & ? & _); try done;
      [unfold count in Hl; subst b1; simpl; lia|]. eauto 10.
  - destruct Hs as (Hin & Hv & Hi). destruct (IH Hin) as (e & s' & out' & -> & ? & ?). do 3 eexists.
    by split.
Qed.

Lemma can_make_positive bs : can_make bs = true -> (0 <= bs)%Z.
Proof. unfold can_make. intros Hb. bool_props. lia. Qed.

Lemma init_ok nm ty cfg bs ft :
  (exists b, init nm ty cfg bs ft = Ok b /\ base_ok b /\ can_make bs = true) \/
  (init nm ty cfg bs ft = Panic /\ can_make bs = false).
Proof.
  unfold init. destruct (bs =? 0)%Z eqn:E0; [|destruct (can_make bs) eqn:E1]; bool_props.
  - left. subst bs. eexists. split; [reflexivity|]. split; [by split | done].
  - left. apply can_make_positive in E1 as Hp. eexists. split; [reflexivity|]. split; [|done].
    split; unfold count; simpl; try done. lia.
  - by right.
Qed.

(** The batch size a sink configuration asks for. *)
Definition configured_batch (cfg : SinkConfig) : Z :=
  if CfgSinkType cfg =? "elasticsearch" then max_events (CfgSinkConfig cfg) 5000
  else if CfgSinkType cfg =? "s3" then max_events (CfgSinkConfig cfg) 10000
  else 1%Z.

Definition known_sink_type (ty : string) : bool :=
  existsb (String.eqb ty) ["console"; "elasticsearch"; "s3"; "kafka"; "file"].

Lemma NewSink_ok now cfg :
  match NewSink now cfg with
  | Ok s => known_sink_type (CfgSinkType cfg) = true /\ can_make (configured_batch cfg) = true /\ sink_ok s
  | Err _ => known_sink_type (CfgSinkType cfg) = false
  | Panic => known_sink_type (CfgSinkType cfg) = true /\ can_make (configured_batch cfg) = false
  end.
Proof.
  destruct cfg as [ty nm bs ft c]. unfold NewSink, known_sink_type, configured_batch. simpl.
  destruct (ty =? "console") eqn:E1; [|destruct (ty =? "elasticsearch") eqn:E2;
    [|destruct (ty =? "s3") eqn:E3; [|destruct (ty =? "kafka") eqn:E4;
    [|destruct (ty =? "file") eqn:E5]]]]; simpl; try done;
    bool_props; subst; simpl.
  - split; [done|]. split; [done|]. by split.
  - unfold NewElasticsearchSink.
    destruct (init_ok nm "elasticsearch" c (max_events c 5000) (flush_timeout c))
      as [(b & -> & Hb & ?)|(-> & ?)]; simpl; [|done]. split; [done|]. split; [done|].
    by apply base_ok_timer.
  - unfold NewS3Sink.
    destruct (init_ok nm "s3" c (max_events c 10000) (60 * Second)%Z)
      as [(b & -> & Hb & ?)|(-> & ?)]; simpl; [|done]. split; [done|]. split; [done|].
    by apply base_ok_timer.
Qed.

(** A new batching sink has nothing counted or buffered. *)
Lemma NewSink_fresh now cfg :
  match NewSink now cfg with
  | Ok (BufferedSink b _) => outputCount b = 0%Z /\ buffer b = []
  | _ => True
  end.
Proof.
  unfold NewSink, NewConsoleSink, NewElasticsearchSink, NewS3Sink, NewKafkaSink, NewFileSink,
    start_buffered, init. repeat case_match; simplify_eq/=; repeat case_match; by simplify_eq/=.
Qed.
End SinkOk.

(** C31: A sink of a stream is well formed by construction and stays so. The constructor
    refuses exactly the types it does not know; for one of the five it knows it panics
    exactly when the batch size the configuration asks for is negative or a slice of that
    capacity is more than the runtime can allocate, and returns a sink otherwise. That
    sink has a positive batch size, a buffer below it and counters within 64 bits, under
    any nesting of validating wrappers; [Write], [Flush] and [Close] keep that and never
    panic. *)
Theorem sinks_are_well_formed `{GoRuntime} `{GoArch}
    (range_data : Data -> list (string * GoValue)) (encode : Data -> option string)
    (now : Z) (cfg : SinkConfig) (sch : option DataSchema) (dropOnFail : bool) :
  match NewSinkWithValidation now cfg sch dropOnFail with
  | Ok s => known_sink_type (CfgSinkType cfg) = true /\ can_make (configured_batch cfg) = true /\ sink_ok s
  | Err _ => known_sink_type (CfgSinkType cfg) = false
  | Panic => known_sink_type (CfgSinkType cfg) = true /\ can_make (configured_batch cfg) = false
  end /\
  (forall r s out, sink_ok s ->
    (exists e s' out', Write range_data encode now r s out = (e, s', out') /\
       e <> Panic /\ sink_ok s') /\
    (exists e s' out', Flush s out = (e, s', out') /\ e <> Panic /\ sink_ok s') /\
    (exists e s' out', Close s out = (e, s', out') /\ e <> Panic /\ sink_ok s')).
Proof.
  split.
  - unfold NewSinkWithValidation. pose proof (NewSink_ok now cfg) as Hs.
    destruct (NewSink now cfg) as [s|e|]; simpl; [|done..]. destruct Hs as (? & ? & ?).
    by destruct sch.
  - intros r s out Hs. split; [by apply Write_ok|]. split; [by apply Flush_ok | by apply Close_ok].
Qed.
