(* ===== verification/StreamActor.v ===== *)
(** * Stream sources and the pipeline actor (pkg/stream)

    source.go: the sources as machines driven by the ticks of their timers;
    pipeline_actor.go: the actor that builds a stream processor from a configuration,
    starts it and controls it by messages. Here source, processor and sink of a
    stream meet: the theorems at the end are about the whole pipeline. *)

From Stdlib Require Import String SpecFloat.
From stdpp Require Import pretty.
From S2P Require Import Prelude GoString GoValue GoTime Schema ActorSystem Stream StreamSink.
Local Open Scope string_scope.
Local Open Scope list_scope.

(** ** Sources *)

Record BaseSource := MkBaseSource {
  src_name : string;
  src_typ : string;
  src_config : Data;
  bufferSize : Z;
  paused : bool;
  inputCount : Z
}.

Inductive Source :=
| DemoSource (b : BaseSource) (interval counter : Z)
| KafkaSource (b : BaseSource) (brokers topics : list string) (groupID : string)
| FileSource (b : BaseSource) (path : string)
| HTTPSource (b : BaseSource) (address path : string).

Definition source_base (s : Source) : BaseSource :=
  match s with
  | DemoSource b _ _ | KafkaSource b _ _ _ | FileSource b _ | HTTPSource b _ _ => b
  end.
Definition with_source_base (b : BaseSource) (s : Source) : Source :=
  match s with
  | DemoSource _ i c => DemoSource b i c
  | KafkaSource _ br t g => KafkaSource b br t g
  | FileSource _ p => FileSource b p
  | HTTPSource _ a p => HTTPSource b a p
  end.

Definition set_paused (p : bool) (b : BaseSource) : BaseSource :=
  MkBaseSource (src_name b) (src_typ b) (src_config b) (bufferSize b) p (inputCount b).
Definition source_Pause (s : Source) : Source := with_source_base (set_paused true (source_base s)) s.
Definition source_Resume (s : Source) : Source := with_source_base (set_paused false (source_base s)) s.
Definition IsPaused (s : Source) : bool := paused (source_base s).
Definition source_Name (s : Source) : string := src_name (source_base s).
Definition incrementInput (b : BaseSource) : BaseSource :=
  MkBaseSource (src_name b) (src_typ b) (src_config b) (bufferSize b) (paused b) (add1 (inputCount b)).

(** *** Construction *)

Definition NewDemoSource (nm : string) (cfg : Data) : Source :=
  DemoSource (MkBaseSource nm "demo" cfg (default 1000%Z (as_int (cfg !! "buffer_size"))) false 0)
    (default Second (as_string (cfg !! "interval") ≫= ParseDuration)) 0.
Definition NewKafkaSource (nm : string) (cfg : Data) : Source :=
  KafkaSource (MkBaseSource nm "kafka" cfg (default 10000%Z (as_int (cfg !! "buffer_size"))) false 0)
    (strings_of (cfg !! "brokers")) (strings_of (cfg !! "topics"))
    (default "pipeline-group" (as_string (cfg !! "group_id"))).
Definition NewFileSource (nm : string) (cfg : Data) : Source :=
  FileSource (MkBaseSource nm "file" cfg 1000 false 0) (default "" (as_string (cfg !! "path"))).
Definition NewHTTPSource (nm : string) (cfg : Data) : Source :=
  HTTPSource (MkBaseSource nm "http_server" cfg 10000 false 0)
    (default ":8080" (as_string (cfg !! "address"))) (default "/events" (as_string (cfg !! "path"))).

Record SourceConfig := MkSourceConfig {
  CfgSourceType : string;
  CfgSourceName : string;
  CfgSourceConfig : Data
}.

Definition NewSource (cfg : SourceConfig) : res string Source :=
  let ty := CfgSourceType cfg in
  let nm := CfgSourceName cfg in
  let c := CfgSourceConfig cfg in
  if ty =? "demo" then Ok (NewDemoSource nm c)
  else if ty =? "kafka" then Ok (NewKafkaSource nm c)
  else if ty =? "file" then Ok (NewFileSource nm c)
  else if ty =? "http_server" then Ok (NewHTTPSource nm c)
  else Err ("unknown source type: " +:+ ty).

(** *** The loop of [Start] *)

(** A source whose [Start] is running: the local counter, and the number of turns left
    of the bounded loop of the file source. *)
Record SourceRun := MkRun {
  run_source : Source;
  local_counter : Z;
  turns : nat;
  ended : bool
}.

Definition set_run_source (s : Source) (x : SourceRun) : SourceRun :=
  MkRun s (local_counter x) (turns x) (ended x).

(** [time.NewTicker] panics on an interval that is not positive. *)
Definition source_Start (s : Source) : res string SourceRun :=
  match s with
  | DemoSource _ interval _ => if (interval <=? 0)%Z then Panic else Ok (MkRun s 0 0 false)
  | FileSource _ _ => Ok (MkRun s 0 100 false)
  | _ => Ok (MkRun s 0 0 false)
  end.

Definition levels : list string := ["debug"; "info"; "warn"; "error"].

Definition source_record (nm : string) (offset now : Z) (d : Data) : Record_ :=
  MkRec (Some d) (MkMeta nm 0 offset "") now.

(** The three kinds of records the sources make; [text] is the formatted time. *)
Definition demo_data (nm text level : string) (counter : Z) : Data :=
  <["id" := VInt KInt64 counter]> (<["message" := VString ("Demo event " +:+ pretty counter)]>
  (<["timestamp" := VString text]> (<["level" := VString level]> {["source" := VString nm]}))).
Definition kafka_data (topic : string) (now counter : Z) : Data :=
  <["message" := VString ("Kafka message " +:+ pretty counter)]>
  (<["timestamp" := VInt KInt64 (now / Millisecond)%Z]> (<["topic" := VString topic]>
  (<["partition" := VInt KInt 0]> {["offset" := VInt KInt64 counter]}))).
Definition file_data (path : string) (counter : Z) : Data :=
  <["line" := VInt KInt64 counter]>
  (<["message" := VString ("Line " +:+ pretty counter +:+ " from " +:+ path)]>
  {["file" := VString path]}).

(** One turn of the loops of the demo, Kafka and file sources when their ticker fires: the
    record sent, if any. *)
Definition demo_tick (now : Z) (text : string) (b : BaseSource) (interval counter : Z) (x : SourceRun)
  : res string (option Record_ * SourceRun) :=
  if paused b then Ok (None, x)
  else
    let c := add1 counter in
    match (if (0 <=? Z.rem c 4)%Z then levels !! Z.to_nat (Z.rem c 4) else None) with
    | None => Panic
    | Some level =>
        Ok (Some (source_record (src_name b) c now (demo_data (src_name b) text level c)),
            set_run_source (DemoSource (incrementInput b) interval c) x)
    end.

Definition kafka_tick (now : Z) (b : BaseSource) (topics : list string) (x : SourceRun)
  : res string (option Record_ * SourceRun) :=
  if paused b then Ok (None, x)
  else
    let c := add1 (local_counter x) in
    match topics with
    | [] => Panic
    | topic :: _ =>
        Ok (Some (source_record (src_name b) c now (kafka_data topic now c)),
            MkRun (with_source_base (incrementInput b) (run_source x)) c (turns x) (ended x))
    end.

Definition file_tick (now : Z) (b : BaseSource) (path : string) (x : SourceRun)
  : res string (option Record_ * SourceRun) :=
  let left := pred (turns x) in
  let fin := (left =? 0)%nat in
  if paused b then Ok (None, MkRun (run_source x) (local_counter x) left fin)
  else
    let c := add1 (local_counter x) in
    Ok (Some (source_record (src_name b) c now (file_data path c)),
        MkRun (with_source_base (incrementInput b) (run_source x)) c left fin).

(** The HTTP source only waits for the end. *)
Definition source_tick (now : Z) (text : string) (x : SourceRun)
  : res string (option Record_ * SourceRun) :=
  if ended x then Ok (None, x)
  else match run_source x with
  | DemoSource b interval counter => demo_tick now text b interval counter x
  | KafkaSource b _ topics _ => kafka_tick now b topics x
  | FileSource b path => file_tick now b path x
  | HTTPSource _ _ _ => Ok (None, x)
  end.

(** Ticks interleaved with pauses and resumes. *)
Inductive SourceEvent :=
| SrcTick (now : Z) (text : string)
| SrcPause
| SrcResume.

Fixpoint source_run (evs : list SourceEvent) (x : SourceRun)
  : res string (list Record_ * SourceRun) :=
  match evs with
  | [] => Ok ([], x)
  | SrcTick now text :: evs' =>
      source_tick now text x ≫= fun '(r, x) =>
      source_run evs' x ≫= fun '(rs, x) => Ok (option_list r ++ rs, x)
  | SrcPause :: evs' => source_run evs' (set_run_source (source_Pause (run_source x)) x)
  | SrcResume :: evs' => source_run evs' (set_run_source (source_Resume (run_source x)) x)
  end.

(** ** The pipeline actor *)

(** The state of a sink with what it has printed. *)
Definition SinkState : Type := Sink * list string.

Record PipelineConfig := MkPipelineConfig {
  PName : string;
  PSource : SourceConfig;
  PStages : list StageConfig;
  PSink : SinkConfig;
  PBufferSize : Z
}.

Definition getStringOrDefault (m : Data) (key dflt : string) : string :=
  default dflt (as_string (m !! key)).

Definition parse_stage (i : nat) (v : GoValue) : option StageConfig :=
  match v with
  | VMap sm =>
      Some (MkStageConfig (getStringOrDefault sm "type" "passthrough")
              (getStringOrDefault sm "name" ("stage_" +:+ pretty i)) "" sm)
  | _ => None
  end.

Fixpoint parse_stages (i : nat) (l : list GoValue) : list StageConfig :=
  match l with
  | [] => []
  | v :: l' => option_list (parse_stage i v) ++ parse_stages (S i) l'
  end.

Definition parsePipelineConfig (config : Data) : PipelineConfig :=
  MkPipelineConfig
    (default "" (as_string (config !! "name")))
    (match as_map (config !! "source") with
     | Some src => MkSourceConfig (getStringOrDefault src "type" "demo")
                     (getStringOrDefault src "name" "source") src
     | None => MkSourceConfig "" "" ∅
     end)
    (parse_stages 0 (default [] (as_slice (config !! "stages"))))
    (match as_map (config !! "sink") with
     | Some snk => MkSinkConfig (getStringOrDefault snk "type" "console")
                     (getStringOrDefault snk "name" "sink") 0 0 snk
     | None => MkSinkConfig "" "" 0 0 ∅
     end)
    (default 1000%Z (as_int (config !! "buffer_size"))).

(** [ActorState] of the base actor, as far as this actor uses it. *)
Inductive ActorState := ActorStateCreated | ActorStateRunning | ActorStateStopped.

(** The processor holds its source; the model keeps them side by side. *)
Record PipelineActor := MkPipelineActor {
  actor_name : string;
  actor_state : ActorState;
  actor_config : PipelineConfig;
  processor : option (Source * StreamProcessor SinkState)
}.

Definition NewPipelineActor (nm : string) (config : Data) : PipelineActor :=
  MkPipelineActor nm ActorStateCreated (parsePipelineConfig config) None.

Definition set_processor (x : option (Source * StreamProcessor SinkState)) (a : PipelineActor)
  : PipelineActor := MkPipelineActor (actor_name a) (actor_state a) (actor_config a) x.
Definition set_actor_state (s : ActorState) (a : PipelineActor) : PipelineActor :=
  MkPipelineActor (actor_name a) s (actor_config a) (processor a).

(** [processLoop] flushes the sink on its way out and [Stop] closes it. *)
Definition flush_close (k : SinkState) : SinkState :=
  let '(_, s, out) := Flush k.1 k.2 in
  let '(_, s, out) := Close s out in (s, out).

(** [Pause], [Resume] and [Stop] of a processor together with its source. *)
Definition pause_both (x : Source * StreamProcessor SinkState)
  : res string (Source * StreamProcessor SinkState) :=
  Stream.Pause x.2 ≫= fun p => Ok (source_Pause x.1, p).
Definition resume_both (x : Source * StreamProcessor SinkState)
  : res string (Source * StreamProcessor SinkState) :=
  Stream.Resume x.2 ≫= fun p => Ok (source_Resume x.1, p).
Definition stop_both (now : Z) (x : Source * StreamProcessor SinkState)
  : res string (Source * StreamProcessor SinkState) :=
  Stream.Stop flush_close now x.2 ≫= fun p => Ok (x.1, p).

Section Actor.
Context `{GoArch}.

Definition create_stages (scs : list StageConfig) : res string (list Stage) :=
  foldr (fun sc rest =>
    wrap_err (fun e => "create stage " +:+ CfgStageName sc +:+ ": " +:+ e) (NewStage sc) ≫= fun s =>
    rest ≫= fun ss => Ok (s :: ss)) (Ok []) scs.

(** [PreStart]: the error or panic, and the actor. The channel made by [Start] has the
    configured buffer size, 1000 for zero; a negative one panics. *)
Definition PreStart (now : Z) (a : PipelineActor) : res string unit * PipelineActor :=
  let a := set_actor_state ActorStateRunning a in
  let c := actor_config a in
  let built :=
    wrap_err (fun e => "create source: " +:+ e) (NewSource (PSource c)) ≫= fun src =>
    create_stages (PStages c) ≫= fun ss =>
    wrap_err (fun e => "create sink: " +:+ e) (NewSink now (PSink c)) ≫= fun snk =>
    Ok (src, NewStreamProcessor (actor_name a) (source_Name src) ss (snk, [])) in
  match built with
  | Panic => (Panic, a)
  | Err e => (Err e, a)
  | Ok (src, p) =>
      match Stream.Start now p with
      | Ok p' => if (PBufferSize c <? 0)%Z then (Panic, set_processor (Some (src, p')) a)
                 else (Ok tt, set_processor (Some (src, p')) a)
      | Err e => (Err ("start processor: " +:+ e), set_processor (Some (src, p)) a)
      | Panic => (Panic, set_processor (Some (src, p)) a)
      end
  end.

Definition PostStop (now : Z) (a : PipelineActor) : res string unit * PipelineActor :=
  let a := match processor a with
           | Some x => match stop_both now x with
                       | Ok x' => set_processor (Some x') a
                       | _ => a
                       end
           | None => a
           end in
  (Ok tt, set_actor_state ActorStateStopped a).
End Actor.

Definition MessageTypeCommand : MessageType := "command".
Definition MessageTypeData : MessageType := "data".

(** The outcome of a call on the processor. *)
Definition on_processor (r : res string (Source * StreamProcessor SinkState)) (a : PipelineActor)
  : res string unit * PipelineActor :=
  match r with
  | Ok x => (Ok tt, set_processor (Some x) a)
  | Err e => (Err e, a)
  | Panic => (Panic, a)
  end.

Definition handleCommand (now : Z) (msg : Message) (a : PipelineActor)
  : res string unit * PipelineActor :=
  match MsgPayload msg with
  | DataPayload (VString cmd) =>
      match processor a with
      | None => (Err "processor not initialized", a)
      | Some x =>
          if cmd =? "pause" then on_processor (pause_both x) a
          else if cmd =? "resume" then on_processor (resume_both x) a
          else if cmd =? "stop" then on_processor (stop_both now x) a
          else (Ok tt, a)
      end
  | _ => (Err "invalid command payload type", a)
  end.

(** A reply: the statistics or the name of the state. *)
Inductive Reply :=
| ReplyStats (s : ProcessorStats)
| ReplyState (s : string).

(** The reply that [handleQuery] sends when the message has a channel for it. *)
Definition handleQuery (msg : Message) (a : PipelineActor) : option Reply :=
  match MsgPayload msg, processor a with
  | DataPayload (VString query), Some x =>
      if query =? "stats" then Some (ReplyStats (stats x.2))
      else if query =? "state" then Some (ReplyState (ProcessorState_String (state x.2)))
      else None
  | _, _ => None
  end.

Definition Receive (now : Z) (msg : Message) (a : PipelineActor)
  : res string unit * option Reply * PipelineActor :=
  if MsgType msg =? MessageTypeCommand then
    let '(e, a) := handleCommand now msg a in (e, None, a)
  else if MsgType msg =? MessageTypeData then (Ok tt, handleQuery msg a, a)
  else (Ok tt, None, a).

Definition GetState (a : PipelineActor) : ProcessorState :=
  match processor a with Some x => state x.2 | None => ProcessorStateCreated end.

(** ** What a source sends *)

(** The number of records sent since the start of the source. *)
Definition emitted (x : SourceRun) : Z :=
  match run_source x with DemoSource _ _ c => c | _ => local_counter x end.

Definition has_topic (s : Source) : Prop :=
  match s with KafkaSource _ _ topics _ => topics <> [] | _ => True end.

(** A run that has sent [n] records. *)
Record sent (n : Z) (x : SourceRun) : Prop := {
  sent_emitted : emitted x = n;
  sent_counted : inputCount (source_base (run_source x)) = n;
  sent_topic : has_topic (run_source x)
}.

Lemma add1_small n : (0 <= n < 2 ^ 63 - 1)%Z -> add1 n = (n + 1)%Z.
Proof. intros Hn. apply int64_wrap_small. unfold int64_ok. lia. Qed.

Lemma demo_level n : (0 <= n)%Z ->
  exists l, (if (0 <=? Z.rem n 4)%Z then levels !! Z.to_nat (Z.rem n 4) else None) = Some l.
Proof.
  intros Hn. pose proof (Z.rem_bound_pos n 4 Hn ltac:(lia)) as Hr.
  destruct (Z.leb_spec 0 (Z.rem n 4)); [|lia]. apply lookup_lt_is_Some. simpl. lia.
Qed.

Lemma source_tick_sent now text n x :
  (0 <= n < 2 ^ 63 - 1)%Z -> sent n x ->
  exists r x', source_tick now text x = Ok (r, x') /\ turns x' <= turns x /\
    match r with
    | None => sent n x'
    | Some r => Offset (Meta r) = (n + 1)%Z /\ sent (n + 1) x'
    end.
Proof.
  intros Hn [He Hc Ht]. destruct x as [s lc tn en]. unfold source_tick, emitted, demo_tick, kafka_tick, file_tick in *. simpl in *.
  destruct en; [exists None; eexists; by repeat split|].
  destruct s as [b i c|b br tp g|b p|b a p]; simpl in *; subst;
    try destruct (paused b); try (exists None; eexists; repeat split; simpl; auto; lia).
  - rewrite add1_small by lia. destruct (demo_level (inputCount b + 1)) as [l ->]; [lia|].
    eexists (Some _), _. repeat split; simpl; auto using add1_small.
  - rewrite add1_small by lia. destruct tp as [|t tp]; [done|].
    eexists (Some _), _. repeat split; simpl; auto using add1_small.
  - rewrite add1_small by lia. eexists (Some _), _. repeat split; simpl; auto using add1_small. lia.
Qed.

Lemma sent_paused n p x :
  sent n x -> sent n (set_run_source (with_source_base (set_paused p (source_base (run_source x)))
    (run_source x)) x).
Proof. intros [He Hc Ht]. destruct x as [[] lc tn en]; by split. Qed.

Lemma source_run_sent evs n x :
  (0 <= n)%Z -> (n + Z.of_nat (length evs) < 2 ^ 63)%Z -> sent n x ->
  exists rs x', source_run evs x = Ok (rs, x') /\ length rs <= length evs /\
    map (fun r => Offset (Meta r)) rs = (fun i => n + Z.of_nat i)%Z <$> seq 1 (length rs) /\
    sent (n + Z.of_nat (length rs)) x'.
Proof.
  revert n x. induction evs as [|[now text| |] evs IH]; intros n x Hn Hl Hs.
  - exists [], x. simpl. split; [done|]. split; [done|]. split; [done|]. by rewrite Z.add_0_r.
  - cbn [length] in Hl. destruct (source_tick_sent now text n x) as (r & x1 & E & _ & Hr); [lia|done|].
    cbn [source_run]. rewrite E. cbn [mbind res_bind]. destruct r as [r|].
    + destruct Hr as [Ho Hs1]. destruct (IH (n + 1)%Z x1) as (rs & x' & -> & Hlen & Hoff & Hs'); [lia..|done|].
      exists (r :: rs), x'. split; [done|]. simpl. split; [lia|]. split.
      * rewrite Ho, Hoff, <- (fmap_S_seq 1), <- list_fmap_compose. f_equal.
        apply list_fmap_ext. intros ? ? _. simpl. lia.
      * by replace (n + Z.of_nat (S (length rs)))%Z with (n + 1 + Z.of_nat (length rs))%Z by lia.
    + destruct (IH n x1) as (rs & x' & -> & Hlen & Hoff & Hs'); [lia..|done|].
      exists rs, x'. split; [done|]. split; [simpl; lia | done].
  - cbn [length] in Hl. destruct (IH n _ Hn ltac:(lia) (sent_paused n true x Hs))
      as (rs & x' & E & Hlen & Hoff & Hs'). exists rs, x'. split; [exact E|]. split; [simpl; lia | done].
  - cbn [length] in Hl. destruct (IH n _ Hn ltac:(lia) (sent_paused n false x Hs))
      as (rs & x' & E & Hlen & Hoff & Hs'). exists rs, x'. split; [exact E|]. split; [simpl; lia | done].
Qed.

(** A source numbers its records: however its ticks are interleaved with pauses and
    resumes, a source that starts and (for Kafka) has a topic sends records with the
    offsets 1, 2, 3, ... without gaps, and counts them. *)
Theorem source_offsets_are_consecutive `{GoArch} (cfg : SourceConfig) (s : Source) (x : SourceRun)
    (evs : list SourceEvent) :
  NewSource cfg = Ok s -> has_topic s -> source_Start s = Ok x ->
  (Z.of_nat (length evs) < 2 ^ 63)%Z ->
  exists rs x', source_run evs x = Ok (rs, x') /\
    map (fun r => Offset (Meta r)) rs = Z.of_nat <$> seq 1 (length rs) /\
    inputCount (source_base (run_source x')) = Z.of_nat (length rs).
Proof.
  intros Hs Ht Hx Hl.
  assert (sent 0 x) as H0.
  { unfold NewSource in Hs. split_matches; by split. }
  destruct (source_run_sent evs 0 x) as (rs & x' & E & _ & Hoff & Hs'); [lia..|done|].
  exists rs, x'. split; [done|]. split; [by rewrite Hoff; apply list_fmap_ext|]. apply Hs'.
Qed.

(** Pausing costs lines of the file source: a tick that finds it paused uses up one of
    the hundred turns of its loop. *)
Example paused_file_source_loses_lines :
  let x := MkRun (FileSource (MkBaseSource "f" "file" ∅ 1000 false 0) "/a") 0 100 false in
  let ticks n := replicate n (SrcTick 0 "") in
  exists rs x', source_run ([SrcPause] ++ ticks 40 ++ [SrcResume] ++ ticks 100) x = Ok (rs, x') /\
    length rs = 60 /\ ended x' = true.
Proof. eexists _, _. split; [vm_compute; reflexivity|]. split; vm_compute; reflexivity. Qed.

(** ** The whole pipeline *)

(** The backends that take every batch. *)
Definition takes (k : BatchSink) : Prop :=
  match k with ElasticsearchSink [] _ => False | _ => True end.

Lemma takes_ok k records out : takes k -> exists out', writeBatch k records out = (Ok tt, out').
Proof. destruct k as [[|ep eps] ix| | |]; simpl; intros Hk; [done|by eexists..]. Qed.

(** The records a processor counts as output are those the sink has delivered and those
    it still buffers. *)
Definition delivers (k : BatchSink) (p : StreamProcessor SinkState) : Prop :=
  exists b out, sink p = (BufferedSink b k, out) /\ takes k /\ base_ok b /\
    eqm (OutputCount (stats p)) (outputCount b + count (buffer b)).

Lemma flush_delivers k b out :
  takes k -> (0 < batchSize b)%Z -> int64_ok (outputCount b) -> int64_ok (errorCount b) ->
  exists b' out', buffered_Flush (writeBatch k) b out = (Ok tt, b', out') /\ base_ok b' /\
    buffer b' = [] /\ eqm (outputCount b') (outputCount b + count (buffer b)).
Proof.
  intros Hk Hpos Ho He. unfold buffered_Flush, swap_buffer. destruct (buffer b) as [|r l] eqn:E.
  - exists b, out. split; [done|]. split; [split; [by rewrite E|done..]|]. split; [done|].
    exists 0%Z. unfold count. simpl. lia.
  - unfold write_records. destruct (takes_ok k (r :: l) out Hk) as [out' ->]. simpl.
    do 2 eexists. split; [reflexivity|]. split; [split; simpl; auto with conduix; done|].
    split; [done|]. apply wrap_eqm.
Qed.

Lemma buffered_write_delivers k now r b out :
  takes k -> base_ok b ->
  exists b' out', buffered_Write (writeBatch k) now r b out = (Ok tt, b', out') /\ base_ok b' /\
    eqm (outputCount b' + count (buffer b')) (outputCount b + count (buffer b) + 1).
Proof.
  intros Hk [Hl Ho He]. unfold buffered_Write, append_record. cbn [buffer set_buffer batchSize].
  assert (count (buffer b ++ [r]) = count (buffer b) + 1)%Z as Hc by (rewrite count_app; done).
  destruct (Z.leb_spec (batchSize b) (Z.of_nat (length (buffer b ++ [r])))) as [Hf|Hf].
  - destruct (flush_delivers k (set_buffer (buffer b ++ [r]) b) out)
      as (b' & out' & -> & Hok & Hb & Hn); simpl; try done; [unfold count in Hl; lia|].
    exists b', out'. split; [done|]. split; [done|]. rewrite Hb. simpl in Hn. rewrite Hn, Hc.
    exists 0%Z. unfold count. simpl. lia.
  - destruct (reset_timer_eq now (set_buffer (buffer b ++ [r]) b)) as [t ->].
    do 2 eexists. split; [reflexivity|]. split; [apply base_ok_timer; by split|]. simpl.
    rewrite Hc. exists 0%Z. lia.
Qed.

Section Whole.
Context `{GoRuntime} `{GoArch}.
Context (range_data : Data -> list (string * GoValue)) (encode : Data -> option string).
Context (rand : nat -> spec_float) (time_text : nat -> string) (latency : nat -> Z).
(** The time of a write. *)
Context (clock : SinkState -> Z).

Definition sink_write (r : Record_) (k : SinkState) : res string unit * SinkState :=
  let '(e, s, out) := Write range_data encode (clock k) r k.1 k.2 in (e, (s, out)).

(** A turn of the flush loop beside the processor. *)
Definition sink_tick (now : Z) (k : SinkState) : SinkState :=
  match k with
  | (BufferedSink b kind, out) =>
      let '(b, out) := flush_loop (writeBatch kind) now b out in (BufferedSink b kind, out)
  | _ => k
  end.

(** An event of the processor, or a turn of the flush loop of its sink. *)
Definition pipeline_event (p : StreamProcessor SinkState) (ev : StreamEvent + Z)
  : res string (StreamProcessor SinkState) :=
  match ev with
  | inl e => stream_event sink_write flush_close range_data rand time_text latency p e
  | inr now => Ok (set_sink (sink_tick now (sink p)) p)
  end.

Definition pipeline_run (evs : list (StreamEvent + Z)) (p : StreamProcessor SinkState)
  : res string (StreamProcessor SinkState) :=
  foldl (fun m ev => m ≫= fun q => pipeline_event q ev) (Ok p) evs.

Lemma sink_write_delivers r b k out :
  takes k -> base_ok b ->
  exists b' out', sink_write r (BufferedSink b k, out) = (Ok tt, (BufferedSink b' k, out')) /\
    base_ok b' /\ eqm (outputCount b' + count (buffer b')) (outputCount b + count (buffer b) + 1).
Proof.
  intros Hk Hb. unfold sink_write. simpl.
  destruct (buffered_write_delivers k (clock (BufferedSink b k, out)) r b out Hk Hb)
    as (b' & out' & -> & ? & ?). eauto 10.
Qed.

Lemma handle_record_delivers k now r p :
  delivers k p ->
  let '(result, q) := handle_record sink_write range_data rand time_text latency now r p in
  delivers k q.
Proof.
  intros (b & out & Hs & Hk & Hb & Ho). unfold handle_record.
  case_bool_decide; [by exists b, out|]. unfold processRecord.
  destruct (process_stages range_data rand time_text latency (calls (set_stats _ p)) _ _ _)
    as [[[result ss] m] n]. destruct result as [[r'|]|e|].
  - cbn -[sink_write]. rewrite Hs.
    destruct (sink_write_delivers r' b k out Hk Hb) as (b' & out' & -> & Hb' & Ho').
    exists b', out'. split; [done|]. split; [done|]. split; [done|]. simpl.
    by rewrite add1_eqm, Ho, Ho'.
  - by exists b, out.
  - by exists b, out.
  - by exists b, out.
Qed.

Lemma flush_close_delivers b k out :
  takes k -> base_ok b ->
  exists b' out', flush_close (BufferedSink b k, out) = (BufferedSink b' k, out') /\ base_ok b' /\
    buffer b' = [] /\ eqm (outputCount b') (outputCount b + count (buffer b)).
Proof.
  intros Hk [Hl Ho He]. unfold flush_close. simpl.
  destruct (flush_delivers k b out) as (b1 & out1 & -> & [Hl1 Ho1 He1] & Hb1 & Hn1); try done;
    [unfold count in Hl; lia|]. cbn [Close]. unfold buffered_Close. set (b2 := set_timer _ true b1).
  destruct (flush_delivers k b2 out1) as (b' & out' & -> & Hok & Hb' & Hn'); try done;
    [unfold count in Hl1; subst b2; simpl; lia|].
  exists b', out'. split; [done|]. split; [done|]. split; [done|]. rewrite Hn'.
  subst b2. simpl. rewrite Hn1, Hb1. exists 0%Z. unfold count. simpl. lia.
Qed.

Lemma sink_tick_delivers k now p : delivers k p -> delivers k (set_sink (sink_tick now (sink p)) p).
Proof.
  intros (b & out & Hs & Hk & Hb & Ho). rewrite Hs. simpl. unfold flush_loop.
  destruct (flushTimer b) as [[d|]|]; [|by exists b, out..].
  destruct (cancelled b || (now <? d)%Z); [by exists b, out|].
  destruct Hb as [Hl Hob He].
  destruct (flush_delivers k b out) as (b' & out' & -> & Hok & Hbuf & Hn); try done;
    [unfold count in Hl; lia|].
  destruct (reset_timer_eq now b') as [t ->].
  exists (set_timer t (cancelled b') b'), out'. split; [done|]. split; [done|].
  split; [by apply base_ok_timer|]. simpl. rewrite Hbuf, Ho, <- Hn. exists 0%Z. unfold count. simpl. lia.
Qed.

Lemma stop_end_delivers k now p :
  delivers k p -> exists b out, sink (stop_end flush_close now p) = (BufferedSink b k, out) /\
    takes k /\ base_ok b /\ buffer b = [] /\
    eqm (OutputCount (stats (stop_end flush_close now p))) (outputCount b).
Proof.
  intros (b & out & Hs & Hk & Hb & Ho). unfold stop_end. simpl. rewrite Hs.
  destruct (flush_close_delivers b k out Hk Hb) as (b' & out' & -> & Hb' & Hbuf & Hn).
  exists b', out'. split; [done|]. split; [done|]. split; [done|]. split; [done|].
  by rewrite Ho, Hn.
Qed.

Lemma control_delivers k p q e :
  (forall now r, e <> EvRecord now r) -> delivers k p ->
  stream_event sink_write flush_close range_data rand time_text latency p e = Ok q -> delivers k q.
Proof.
  intros He Hd. destruct e as [now r|now| |now| |]; [by destruct (He now r)|..]; simpl;
    unfold Start, stop_begin, Pause, Resume, compareAndSwapState; intros Hq;
    repeat case_bool_decide; simplify_eq/=; try done.
  destruct (stop_end_delivers k now p Hd) as (b & out & Hs & Hk & Hb & Hbuf & Ho).
  exists b, out. split; [done|]. split; [done|]. split; [done|]. rewrite Hbuf, Ho.
  exists 0%Z. unfold count. simpl. lia.
Qed.

Lemma buffered_Flush_no_panic k b out : (buffered_Flush (writeBatch k) b out).1.1 <> Panic.
Proof.
  unfold buffered_Flush, swap_buffer. destruct (buffer b) as [|r l]; [done|].
  unfold write_records. pose proof (writeBatch_no_panic k (r :: l) out) as Hp.
  by destruct (writeBatch k (r :: l) out) as [[[]|e|] out'].
Qed.

Lemma Write_no_panic now r s out : (Write range_data encode now r s out).1.1 <> Panic.
Proof.
  induction s as [b|b k|inner IH sch d v i]; simpl.
  - unfold console_Write. by destruct (encode (read r)).
  - unfold buffered_Write. destruct (append_record r b) as [[] b']; [|done].
    pose proof (buffered_Flush_no_panic k b' out).
    by destruct (buffered_Flush (writeBatch k) b' out) as [[e b1] out'].
  - destruct (match sch with Some _ => _ | None => _ end).
    + by destruct (Write range_data encode now r inner out) as [[e s'] out'].
    + by destruct d.
Qed.

Lemma sink_write_no_panic r k : fst (sink_write r k) <> Panic.
Proof.
  unfold sink_write. pose proof (Write_no_panic (clock k) r k.1 k.2).
  by destruct (Write range_data encode (clock k) r k.1 k.2) as [[e s'] out'].
Qed.

Definition pipeline_event_data (ev : StreamEvent + Z) : Prop :=
  match ev with inl e => event_data e | inr _ => True end.

(** What every event of the pipeline keeps. *)
Definition pipeline_ok (names : list string) (k : BatchSink) (p : StreamProcessor SinkState) : Prop :=
  stream_ok names p /\ delivers k p.

Lemma pipeline_event_ok names k p ev :
  NoDup names -> pipeline_event_data ev -> pipeline_ok names k p ->
  exists q, pipeline_event p ev = Ok q /\ pipeline_ok names k q.
Proof.
  intros Hnd Hev [Hok Hd]. destruct ev as [e|now]; simpl in *.
  - destruct (is_record e) eqn:Er.
    + destruct e as [now r| | | | |]; [|done..]. simpl.
      pose proof (handle_record_ok sink_write range_data rand time_text latency
        sink_write_no_panic names now r p Hnd Hev Hok) as Hh.
      pose proof (handle_record_delivers k now r p Hd) as Hd'.
      destruct (handle_record sink_write range_data rand time_text latency now r p) as [result q].
      destruct Hh as (Hnp & Hok' & _). exists q. by destruct result as [[]| |].
    + destruct (control_same_counts sink_write flush_close range_data rand time_text latency p e Er)
        as (q & Hq & E1 & E2 & E3 & E4 & E5 & E6).
      exists q. split; [exact Hq|]. split.
      * destruct Hok as [Hn Hb Hf].
        split; [by rewrite E1 | by rewrite E3, E4, E5, E6 | by rewrite E2, E3].
      * eapply control_delivers; [|done|exact Hq]. by intros now r ->.
  - eexists. split; [reflexivity|]. split; [|by apply sink_tick_delivers].
    destruct Hok as [Hn Hb Hf]. by split.
Qed.

Lemma pipeline_run_ok names k evs p :
  NoDup names -> Forall pipeline_event_data evs -> pipeline_ok names k p ->
  exists q, pipeline_run evs p = Ok q /\ pipeline_ok names k q.
Proof.
  intros Hnd. revert p. induction evs as [|ev evs IH]; intros p Hd Hp; [by exists p|].
  apply Forall_cons in Hd as [Hev Hd].
  destruct (pipeline_event_ok names k p ev Hnd Hev Hp) as (q & Hq & Hok).
  unfold pipeline_run. simpl. rewrite Hq. by apply IH.
Qed.
End Whole.

(** Whole streams deliver what they count. A stream processor in front of a batching
    sink whose backend takes its batches runs without a panic under every interleaving
    of records, control calls and turns of the sink's flush loop; at every point the
    processor's output count is the number of records the sink has delivered plus
    those it buffers, and a stop empties the buffer, so that after it the records
    counted as output are exactly the delivered ones. *)
Theorem stopped_stream_has_delivered `{GoRuntime} `{GoArch}
    (range_data : Data -> list (string * GoValue)) (encode : Data -> option string)
    (rand : nat -> spec_float) (time_text : nat -> string) (latency : nat -> Z)
    (clock : SinkState -> Z) (nm src : string) (ss : list Stage) (now stop_time : Z)
    (cfg : SinkConfig) (b : BaseSink) (k : BatchSink) (evs : list (StreamEvent + Z)) :
  NewSink now cfg = Ok (BufferedSink b k) -> takes k -> NoDup (map StageName ss) ->
  Forall pipeline_event_data evs ->
  exists q, pipeline_run range_data encode rand time_text latency clock evs
      (NewStreamProcessor nm src ss (BufferedSink b k, [])) = Ok q /\ delivers k q /\
    forall q', Stop flush_close stop_time q = Ok q' ->
      exists b' out, sink q' = (BufferedSink b' k, out) /\ buffer b' = [] /\
        eqm (OutputCount (stats q')) (outputCount b').
Proof.
  intros Hs Hk Hnd Hd. pose proof (NewSink_ok now cfg) as Hok. pose proof (NewSink_fresh now cfg) as Hf.
  rewrite Hs in Hok, Hf. destruct Hok as (_ & _ & Hb). destruct Hf as [Ho Hbuf].
  destruct (pipeline_run_ok range_data encode rand time_text latency clock (map StageName ss) k evs
    (NewStreamProcessor nm src ss (BufferedSink b k, []))) as (q & Hq & _ & Hdel); try done.
  { split; [apply new_stream_ok|]. exists b, []. split; [done|]. split; [done|]. split; [done|].
    rewrite Ho, Hbuf. done. }
  exists q. split; [exact Hq|]. split; [done|]. intros q' Hstop. unfold Stop in Hstop.
  apply bind_ok in Hstop as (q1 & Hq1 & [= <-]).
  assert (delivers k q1) as Hd1.
  { unfold stop_begin, compareAndSwapState in Hq1. repeat case_bool_decide; by simplify_eq/=. }
  destruct (stop_end_delivers k stop_time q1 Hd1) as (b' & out & Hsk & _ & _ & Hbuf' & Hn). eauto.
Qed.


Definition demo_file_sink : BaseSink :=
  MkSink "out" "file" ∅ 1000 (10 * Second)%Z [] 0 0 (Some (Some (10 * Second)%Z)) false.
Definition demo_sink_config : SinkConfig := MkSinkConfig "file" "out" 0 0 ∅.
Definition demo_pipeline_events : list (StreamEvent + Z) :=
  [inl (EvStart 1); inl (EvRecord 2 (demo_record "error")); inr (11 * Second)%Z;
   inl (EvRecord 3 (demo_record "error")); inl (EvRecord 4 (demo_record "info"))].

Lemma stopped_stream_has_delivered_witness :
  NewSink 0 demo_sink_config = Ok (BufferedSink demo_file_sink (FileSink "/tmp/pipeline-output.json")) /\
  exists q, @pipeline_run demo_runtime demo_arch map_to_list (fun _ => Some "{}") (fun _ => S754_zero false)
      (fun _ => "now") (fun _ => 1%Z) (fun _ => 5%Z) demo_pipeline_events
      (NewStreamProcessor "p" "s" demo_stages
         (BufferedSink demo_file_sink (FileSink "/tmp/pipeline-output.json"), [])) = Ok q /\
    delivers (FileSink "/tmp/pipeline-output.json") q /\
    forall q', Stop flush_close 9 q = Ok q' ->
      exists b' out, sink q' = (BufferedSink b' (FileSink "/tmp/pipeline-output.json"), out) /\
        buffer b' = [] /\ eqm (OutputCount (stats q')) (outputCount b').
Proof.
  split; [vm_compute; reflexivity|].
  apply (@stopped_stream_has_delivered demo_runtime demo_arch map_to_list (fun _ => Some "{}")
    (fun _ => S754_zero false) (fun _ => "now") (fun _ => 1%Z) (fun _ => 5%Z) "p" "s" demo_stages 0 9
    demo_sink_config demo_file_sink (FileSink "/tmp/pipeline-output.json") demo_pipeline_events).
  - vm_compute. reflexivity.
  - exact I.
  - apply (bool_decide_unpack _). vm_compute. exact I.
  - repeat constructor; discriminate.
Defined.

(** A refused batch costs the processor one error: with an Elasticsearch sink without
    endpoints and a batch size of three, three records are lost, but the processor
    counts two of them as output. *)
Example refused_batch_counts_one_error :
  let p := NewStreamProcessor "p" "s" [] (BufferedSink (demo_base 3) (ElasticsearchSink [] "logs"), []) in
  let r n := inl (EvRecord n (demo_record "error")) in
  match @pipeline_run demo_runtime demo_arch map_to_list (fun _ => None) (fun _ => S754_zero false)
    (fun _ => "now") (fun _ => 1%Z) (fun _ => 5%Z) [inl (EvStart 1); r 2%Z; r 3%Z; r 4%Z] p with
  | Ok q => OutputCount (stats q) = 2%Z /\ ErrorCount (stats q) = 1%Z /\
            match sink q with
            | (BufferedSink b _, _) => errorCount b = 3%Z /\ outputCount b = 0%Z /\ buffer b = []
            | _ => False
            end
  | _ => False
  end.
Proof. vm_compute. repeat split. Qed.

(** ** The actor *)

(** A configuration from which the parts of a pipeline can be built. *)
Definition buildable `{GoArch} (now : Z) (c : PipelineConfig) : Prop :=
  is_ok (NewSource (PSource c)) = true /\
  Forall (fun sc => is_ok (NewStage sc) = true) (PStages c) /\
  is_ok (NewSink now (PSink c)) = true.

Lemma create_stages_ok `{GoArch} scs :
  is_ok (create_stages scs) = true <-> Forall (fun sc => is_ok (NewStage sc) = true) scs.
Proof.
  induction scs as [|sc scs IH]; simpl; [by split|].
  rewrite Forall_cons, <- IH. destruct (NewStage sc) as [s|e|]; simpl; [|naive_solver..].
  by destruct (create_stages scs); simpl; naive_solver.
Qed.

(** Without a processor every command is refused. *)
Lemma no_processor_refuses now msg a : processor a = None -> is_ok (handleCommand now msg a).1 = false.
Proof. intros E. unfold handleCommand. destruct msg as [ty [| |[]|]]; simpl; by rewrite ?E. Qed.

Ltac refused :=
  (split; [split; [done | naive_solver]|]); (split; [done|]); intros;
  first [done | split; [done | intros; by apply no_processor_refuses]].

(** The pipeline actor starts exactly when its parts can be built and the buffer size is
    not negative; it then runs, and otherwise it has no processor that runs, so that
    a command is refused. Commands change the state of a running actor as the state
    machine of the processor allows, and the source is paused together with it. *)
Theorem pipeline_actor_starts `{GoArch} (now : Z) (nm : string) (config : Data) :
  let a := NewPipelineActor nm config in
  let '(e, a') := PreStart now a in
  (e = Ok tt <-> buildable now (actor_config a) /\ (0 <= PBufferSize (actor_config a))%Z) /\
  (e = Ok tt -> GetState a' = ProcessorStateRunning) /\
  (is_err e = true -> processor a' = None /\
     forall msg, is_ok (handleCommand now msg a').1 = false).
Proof.
  unfold PreStart, buildable, NewPipelineActor, set_actor_state.
  cbn [actor_config actor_name processor actor_state].
  generalize (parsePipelineConfig config). intros c.
  pose proof (create_stages_ok (PStages c)) as Hc.
  destruct (NewSource (PSource c)) as [src|e|]; simpl; [|refused..].
  destruct (create_stages (PStages c)) as [ss|e|]; simpl in *; [|refused..].
  destruct (NewSink now (PSink c)) as [snk|e|]; simpl; [|refused..].
  destruct (Z.ltb_spec (PBufferSize c) 0); simpl; (split; [split; [done || tauto | lia || done]|done]).
Qed.

(** Pausing a stream, stopping it and starting it again leaves its source paused: the
    processor reports that it runs, receives nothing, and refuses to resume. *)
Theorem restart_after_paused_stop_is_silent (now : Z) (x x1 x2 : Source * StreamProcessor SinkState) :
  pause_both x = Ok x1 -> stop_both now x1 = Ok x2 ->
  exists p, Start now x2.2 = Ok p /\ state p = ProcessorStateRunning /\ IsPaused x2.1 = true /\
    is_ok (resume_both (x2.1, p)) = false.
Proof.
  unfold pause_both, stop_both. intros (q & Hq & [= <-])%bind_ok (q' & Hq' & [= <-])%bind_ok.
  unfold Pause, compareAndSwapState in Hq. unfold Stop, stop_begin, compareAndSwapState in Hq'.
  unfold Start, compareAndSwapState, resume_both, Resume. simpl in *.
  repeat case_bool_decide; simplify_eq/=; try done; eexists; (split; [reflexivity|]);
    (split; [done|]); (split; [by destruct x as [[] ?]|done]).
Qed.
