(* ===== verification/Hierarchy.v ===== *)
(** * Pipelines of a workflow (control-plane/internal/services/execution.go)

    How a batch execution orders the pipelines of a workflow, binds parameters of
    expanded pipelines and runs them. [visit] is the depth-first search of
    [sortPipelinesByHierarchy]; it is recursive through a graph that may be cyclic, so
    it has fuel, and [visit_terminates] shows that the fuel is enough. *)

From Stdlib Require Import String.
From stdpp Require Import pretty.
From S2P Require Import Prelude GoString GoValue.
Local Open Scope string_scope.
Local Open Scope list_scope.

(** ** Data (shared/types/hierarchy.go) *)

Abbreviation ExpansionMode := string (only parsing).
Definition ExpansionModeForEachRecord : ExpansionMode := "for_each_record".

Record ParameterBinding := MkBinding {
  ParentField : string;
  ChildParam : string
}.

(** The fields that execution uses; [SourceConfig] is the map of the source, [None] for
    nil. Source type, stages, sinks and weights are only passed on. *)
Record WorkflowPipeline := MkPipeline {
  ID : string;
  Name : string;
  DependsOn : list string;
  SourceConfig : option Data;
  ParentPipelineID : option string;
  TargetDataTypeID : option string;
  Expansion : ExpansionMode;
  ParameterBindings : list ParameterBinding
}.

(** What indexing a map of pipelines with an unknown key gives. *)
Definition zero_pipeline : WorkflowPipeline := MkPipeline "" "" [] None None None "" [].

Record PipelineExecutionResult := MkResult {
  PipelineID : string;
  PipelineName : string;
  ResStatus : string;
  RecordsProcessed : Z;
  RecordsFailed : Z;
  ResOffset : Z
}.

(** ** [sortPipelinesByHierarchy] *)

Definition pipelineMap (pipelines : list WorkflowPipeline) : gmap string WorkflowPipeline :=
  foldl (fun m p => <[ID p := p]> m) ∅ pipelines.

Definition pipeline_at (m : gmap string WorkflowPipeline) (id : string) : WorkflowPipeline :=
  default zero_pipeline (m !! id).

(** The pipelines visited before a pipeline: its parent, then its dependencies. *)
Definition before (p : WorkflowPipeline) : list string :=
  option_list (ParentPipelineID p) ++ DependsOn p.

(** The variables the closure captures. *)
Record SortState := MkSort {
  visited : gset string;
  result : list WorkflowPipeline
}.

Fixpoint visit (m : gmap string WorkflowPipeline) (fuel : nat) (id : string) (st : SortState)
  : option SortState :=
  match fuel with
  | O => None
  | S fuel' =>
      if bool_decide (id ∈ visited st) then Some st
      else
        let st := MkSort ({[id]} ∪ visited st) (result st) in
        let p := pipeline_at m id in
        foldl (fun o dep => o ≫= visit m fuel' dep) (Some st) (before p) ≫= fun st =>
        Some (MkSort (visited st) (result st ++ [p]))
  end.

(** Every identifier that occurs in the workflow. *)
Definition all_ids (pipelines : list WorkflowPipeline) : list string :=
  pipelines ≫= fun p => ID p :: before p.

Definition sort_fuel (pipelines : list WorkflowPipeline) : nat := S (S (length (all_ids pipelines))).
Arguments sort_fuel : simpl never.

Definition sortPipelinesByHierarchy (pipelines : list WorkflowPipeline)
  : option (list WorkflowPipeline) :=
  let m := pipelineMap pipelines in
  foldl (fun o p => o ≫= visit m (sort_fuel pipelines) (ID p)) (Some (MkSort ∅ [])) pipelines
  ≫= fun st => Some (result st).

(** *** The search on identifiers *)

(** The same search that records identifiers instead of pipelines. *)
Fixpoint visit_ids (m : gmap string WorkflowPipeline) (fuel : nat) (id : string)
  (st : gset string * list string) : option (gset string * list string) :=
  match fuel with
  | O => None
  | S fuel' =>
      if bool_decide (id ∈ st.1) then Some st
      else
        foldl (fun o dep => o ≫= visit_ids m fuel' dep) (Some ({[id]} ∪ st.1, st.2))
          (before (pipeline_at m id)) ≫= fun st => Some (st.1, st.2 ++ [id])
  end.

Definition to_state (m : gmap string WorkflowPipeline) (st : gset string * list string) : SortState :=
  MkSort st.1 (pipeline_at m <$> st.2).

Lemma foldl_bind_None {A B} (f : B -> A -> option A) l :
  foldl (fun o b => o ≫= f b) None l = None.
Proof. by induction l. Qed.

Lemma foldl_bind_map {A A' B} (h : A -> A') (f : B -> A -> option A) (f' : B -> A' -> option A') l o :
  (forall b a, f' b (h a) = h <$> f b a) ->
  foldl (fun o b => o ≫= f' b) (h <$> o) l = h <$> foldl (fun o b => o ≫= f b) o l.
Proof.
  intros Hf. revert o. induction l as [|b l IH]; intros o; [done|]. simpl. rewrite <- IH. f_equal.
  destruct o as [a|]; [apply Hf | done].
Qed.

Lemma visit_visit_ids m fuel id st :
  visit m fuel id (to_state m st) = to_state m <$> visit_ids m fuel id st.
Proof.
  revert id st. induction fuel as [|fuel IH]; intros id st; [done|]. simpl.
  case_bool_decide; [done|].
  change (Some (MkSort ({[id]} ∪ st.1) (pipeline_at m <$> st.2)))
    with (to_state m <$> Some ({[id]} ∪ st.1, st.2)).
  rewrite (foldl_bind_map (to_state m) (visit_ids m fuel)) by (intros; apply IH).
  destruct (foldl _ (Some ({[id]} ∪ st.1, st.2)) _) as [[V R]|]; [|done]. simpl.
  unfold to_state. simpl. by rewrite fmap_app.
Qed.

Section Search.
Context (m : gmap string WorkflowPipeline).
Implicit Types (V U : gset string) (R : list string) (st : gset string * list string).

(** The identifiers closed under [before]. *)
Definition closed U : Prop := forall id, id ∈ U -> forall dep, dep ∈ before (pipeline_at m id) -> dep ∈ U.

(** [st'] comes after [st]: more is visited, the result is longer. *)
Definition extends st st' : Prop := st.1 ⊆ st'.1 /\ exists R, st'.2 = st.2 ++ R.

#[export] Instance extends_preorder : PreOrder extends.
Proof.
  split.
  - intros st. split; [done|]. exists []. by rewrite app_nil_r.
  - intros a b c [H1 [R1 E1]] [H2 [R2 E2]]. split; [set_solver|].
    exists (R1 ++ R2). by rewrite E2, E1, app_assoc.
Qed.

(** Fuel above the number of identifiers not yet visited is enough, cycles or not. *)
Lemma visit_terminates U fuel id st :
  closed U -> id ∈ U -> size (U ∖ st.1) < fuel ->
  exists st', visit_ids m fuel id st = Some st' /\ st.1 ⊆ st'.1.
Proof.
  intros HU. revert id st. induction fuel as [|fuel IH]; intros id st Hid Hf; [lia|]. simpl.
  case_bool_decide as Hv; [by exists st|].
  assert (size (U ∖ ({[id]} ∪ st.1)) < fuel) as Hs.
  { enough (size (U ∖ ({[id]} ∪ st.1)) < size (U ∖ st.1)) by lia.
    apply subset_size. split; [set_solver|]. intros Hsub. specialize (Hsub id). set_solver. }
  set (st0 := ({[id]} ∪ st.1, st.2)).
  enough (exists st', foldl (fun o dep => o ≫= visit_ids m fuel dep) (Some st0)
      (before (pipeline_at m id)) = Some st' /\ st0.1 ⊆ st'.1) as ([V R] & -> & Hsub).
  { simpl. eexists. split; [reflexivity|]. simpl in *. set_solver. }
  assert (Forall (fun dep => dep ∈ U) (before (pipeline_at m id))) as Hdeps.
  { apply Forall_forall. intros dep Hdep. by apply (HU id). }
  assert (size (U ∖ st0.1) < fuel) as Hs0 by done.
  clearbody st0. clear Hs Hv Hid Hf. revert st0 Hs0.
  induction Hdeps as [|dep deps Hdep _ IHd]; intros st0 Hs0; [by exists st0|].
  simpl. destruct (IH dep st0 Hdep Hs0) as (st1 & -> & Hsub).
  destruct (IHd st1) as (st2 & -> & Hsub2).
  { eapply Nat.le_lt_trans; [|exact Hs0]. apply subseteq_size. set_solver. }
  exists st2. split; [done|]. set_solver.
Qed.

(** What is in the result once, and only what was visited. *)
Record search_ok st : Prop := {
  so_nodup : NoDup st.2;
  so_visited : forall x, x ∈ st.2 -> x ∈ st.1
}.

(** Visited but not yet in the result: on the path of the search. *)
Definition on_path st (x : string) : Prop := x ∈ st.1 /\ x ∉ st.2.
Definition same_path st st' : Prop := forall x, on_path st' x <-> on_path st x.

Lemma same_path_trans st1 st2 st3 : same_path st1 st2 -> same_path st2 st3 -> same_path st1 st3.
Proof. intros H1 H2 x. by rewrite (H2 x), (H1 x). Qed.

(** What holds after each of a list of visits holds after all of them. *)
Lemma visits_spec (P : (gset string * list string) -> Prop)
    (Q : (gset string * list string) -> (gset string * list string) -> Prop)
    (f : string -> (gset string * list string) -> option (gset string * list string)) deps st st' :
  (forall st, Q st st) -> (forall a b c, Q a b -> Q b c -> Q a c) ->
  (forall dep a b, dep ∈ deps -> f dep a = Some b -> P a -> P b /\ Q a b) ->
  foldl (fun o dep => o ≫= f dep) (Some st) deps = Some st' -> P st -> P st' /\ Q st st'.
Proof.
  intros Hr Ht. revert st. induction deps as [|dep deps IH]; intros st Hf Hv Hp; simplify_eq/=; [done|].
  destruct (f dep st) as [st1|] eqn:E; [|by rewrite foldl_bind_None in Hv].
  destruct (Hf dep st st1) as [Hp1 Hq1]; [set_solver|done..|].
  destruct (IH st1) as [Hp2 Hq2]; [|done..|].
  { intros d a b Hd. apply Hf. set_solver. }
  split; [done|]. by eapply Ht.
Qed.

Lemma search_ok_open id st : search_ok st -> search_ok ({[id]} ∪ st.1, st.2).
Proof. intros [Hn Hv]. split; [done|]. simpl. intros x Hx. apply Hv in Hx. set_solver. Qed.

(** The end of a visit: [id] leaves the path and enters the result. *)
Lemma close_visit id st st1 :
  id ∉ st.1 -> search_ok st -> search_ok st1 -> extends ({[id]} ∪ st.1, st.2) st1 ->
  same_path ({[id]} ∪ st.1, st.2) st1 ->
  search_ok (st1.1, st1.2 ++ [id]) /\ extends st (st1.1, st1.2 ++ [id]) /\
  same_path st (st1.1, st1.2 ++ [id]).
Proof.
  intros Hid [Hn Hv] [Hn1 Hv1] [Hsub [R ER]] Hsp. simpl in *.
  assert (on_path st1 id) as [Hi Hni].
  { apply Hsp. split; simpl; [set_solver|]. intros Hx. by apply Hv in Hx. }
  split; [split; simpl|split; [split; simpl|]].
  - apply NoDup_app. split; [done|]. split; [|apply NoDup_singleton].
    by intros x Hx ->%list_elem_of_singleton.
  - intros x. rewrite elem_of_app, list_elem_of_singleton. intros [Hx| ->]; auto.
  - set_solver.
  - exists (R ++ [id]). by rewrite ER, app_assoc.
  - intros x. specialize (Hsp x). unfold on_path in *. simpl in *.
    rewrite elem_of_app, list_elem_of_singleton. rewrite elem_of_union, elem_of_singleton in Hsp.
    destruct (decide (x = id)) as [->|]; [|tauto]. split; [tauto|]. by intros [? _].
Qed.

Lemma visit_ids_spec fuel id st st' :
  visit_ids m fuel id st = Some st' -> search_ok st ->
  search_ok st' /\ extends st st' /\ same_path st st' /\ id ∈ st'.1.
Proof.
  revert id st st'. induction fuel as [|fuel IH]; intros id st st' Hv Hok; [done|]. simpl in Hv.
  case_bool_decide as Hid; simplify_eq/=.
  { split; [done|]. split; [reflexivity|]. by split. }
  apply bind_Some in Hv as (st1 & Hf & [= <-]).
  destruct (visits_spec search_ok (fun a b => extends a b /\ same_path a b) (visit_ids m fuel)
    _ _ st1 ltac:(by split) ltac:(intros ? ? ? [] []; split; [by etransitivity | by eapply same_path_trans])
    ltac:(intros dep a b _ Ha Hoka; destruct (IH dep a b Ha Hoka) as (? & ? & ? & _); auto)
    Hf (search_ok_open id st Hok)) as [Hok1 [Hex Hsp]].
  destruct (close_visit id st st1 Hid Hok Hok1 Hex Hsp) as (? & ? & ?).
  split; [done|]. split; [done|]. split; [done|]. simpl. destruct Hex as [Hsub _]. set_solver.
Qed.

(** *** The order *)

(** Every identifier of a list comes after the ones before it. *)
Definition ordered R : Prop :=
  forall l1 x l2, R = l1 ++ x :: l2 -> forall dep, dep ∈ before (pipeline_at m x) -> dep ∈ l1.

Lemma ordered_snoc R id :
  ordered R -> (forall dep, dep ∈ before (pipeline_at m id) -> dep ∈ R) -> ordered (R ++ [id]).
Proof.
  intros Ho Hd l1 x l2 E dep Hdep. destruct l2 as [|y l2 _] using rev_ind.
  - apply app_inj_tail in E as [-> ->]. by apply Hd.
  - rewrite app_comm_cons, app_assoc in E. apply app_inj_tail in E as [E _]. by eapply Ho.
Qed.

(** A numbering that decreases along dependencies: the graph has no cycle. *)
Context (rank : string -> nat).
Context (acyclic : forall id dep, dep ∈ before (pipeline_at m id) -> rank dep < rank id).

Lemma visit_ids_ordered fuel id st st' :
  visit_ids m fuel id st = Some st' -> search_ok st -> ordered st.2 ->
  (forall x, on_path st x -> rank id < rank x) -> ordered st'.2 /\ id ∈ st'.2.
Proof.
  revert id st st'. induction fuel as [|fuel IH]; intros id st st' Hv Hok Ho Hp; [done|]. simpl in Hv.
  case_bool_decide as Hid; simplify_eq/=.
  { split; [done|]. destruct (decide (id ∈ st'.2)) as [|Hn]; [done|].
    specialize (Hp id (conj Hid Hn)). lia. }
  apply bind_Some in Hv as (st1 & Hf & [= <-]). simpl.
  assert (forall deps st0, (forall dep, dep ∈ deps -> rank dep < rank id) -> search_ok st0 ->
    ordered st0.2 -> (forall x, on_path st0 x -> rank id <= rank x) ->
    foldl (fun o dep => o ≫= visit_ids m fuel dep) (Some st0) deps = Some st1 ->
    ordered st1.2 /\ forall dep, dep ∈ deps -> dep ∈ st1.2) as Hall.
  { clear Hf. induction deps as [|dep deps IHd]; intros st0 Hr Hok0 Ho0 Hp0 Hf; simplify_eq/=.
    { split; [done|]. set_solver. }
    destruct (visit_ids m fuel dep st0) as [st2|] eqn:E; [|by rewrite foldl_bind_None in Hf].
    pose proof (Hr dep ltac:(set_solver)) as Hdep.
    destruct (IH dep st0 st2 E Hok0 Ho0) as [Ho2 Hin2]; [intros x Hx; specialize (Hp0 x Hx); lia|].
    destruct (visit_ids_spec fuel dep st0 st2 E Hok0) as (Hok2 & _ & Hsp2 & _).
    destruct (IHd st2) as [Ho3 Hin3]; [set_solver|done|done| |done|].
    { intros x Hx. apply Hp0. by apply Hsp2. }
    split; [done|]. intros d [->|Hd]%elem_of_cons; [|by apply Hin3].
    assert (extends st2 st1) as [_ [R2 ->]]; [|set_solver].
    eapply (visits_spec search_ok extends (visit_ids m fuel) deps st2 st1); [done| | |exact Hf|done].
    - intros ? ? ? ? ?. by etransitivity.
    - intros d a b _ Ha Hoka. by destruct (visit_ids_spec fuel d a b Ha Hoka) as (? & ? & _). }
  destruct (Hall (before (pipeline_at m id)) ({[id]} ∪ st.1, st.2)) as [Ho1 Hd1];
    [by apply acyclic|by apply search_ok_open|done| |done|].
  { intros x [Hx Hn]. simpl in *. destruct (decide (x = id)) as [->|]; [done|].
    specialize (Hp x). unfold on_path in Hp. apply elem_of_union in Hx as [Hx|Hx]; [set_solver|].
    specialize (Hp (conj Hx Hn)). lia. }
  split; [by apply ordered_snoc|]. set_solver.
Qed.
End Search.

Lemma pipelineMap_snoc ps p : pipelineMap (ps ++ [p]) = <[ID p := p]> (pipelineMap ps).
Proof. unfold pipelineMap. by rewrite foldl_app. Qed.

Lemma pipelineMap_lookup ps id p : pipelineMap ps !! id = Some p -> p ∈ ps /\ ID p = id.
Proof.
  induction ps as [|q ps IH] using rev_ind; [done|]. rewrite pipelineMap_snoc.
  intros [[<- <-]|[Hne Hl]]%lookup_insert_Some; [set_solver|]. destruct (IH Hl). set_solver.
Qed.

Lemma all_ids_closed ps : closed (pipelineMap ps) (list_to_set (all_ids ps)).
Proof.
  intros id _ dep Hdep. unfold pipeline_at in Hdep.
  destruct (pipelineMap ps !! id) as [p|] eqn:E; simpl in Hdep; [|by apply elem_of_nil in Hdep].
  apply pipelineMap_lookup in E as [Hp _]. rewrite elem_of_list_to_set. unfold all_ids.
  apply list_elem_of_bind. exists p. set_solver.
Qed.

Lemma all_ids_ID ps p : p ∈ ps -> ID p ∈ all_ids ps.
Proof. intros Hp. unfold all_ids. apply list_elem_of_bind. exists p. set_solver. Qed.

(** Visiting a list of identifiers one after the other. *)
Definition visit_all m fuel (ids : list string) (st : gset string * list string)
  : option (gset string * list string) :=
  foldl (fun o id => o ≫= visit_ids m fuel id) (Some st) ids.

Lemma sort_visit_all ps :
  sortPipelinesByHierarchy ps
  = (fun st : gset string * list string => pipeline_at (pipelineMap ps) <$> st.2) <$>
      visit_all (pipelineMap ps) (sort_fuel ps) (ID <$> ps) (∅, []).
Proof.
  unfold sortPipelinesByHierarchy, visit_all. set (m := pipelineMap ps). generalize (sort_fuel ps). intros f.
  assert (forall l o, foldl (fun o p => o ≫= visit m f (ID p)) (to_state m <$> o) l
    = to_state m <$> foldl (fun o id => o ≫= visit_ids m f id) o (ID <$> l)) as Hl.
  { induction l as [|p l IH]; intros o; [done|]. simpl. rewrite <- IH. f_equal.
    destruct o as [st|]; [apply visit_visit_ids | done]. }
  specialize (Hl ps (Some (∅, []))). simpl in Hl. unfold to_state in Hl. simpl in Hl. rewrite Hl.
  by destruct (foldl _ _ (ID <$> ps)).
Qed.

Section Sorting.
Context (ps : list WorkflowPipeline).
#[local] Abbreviation m := (pipelineMap ps).
#[local] Abbreviation U := (list_to_set (all_ids ps) : gset string).

Lemma visit_all_terminates ids st :
  (forall id, id ∈ ids -> id ∈ U) -> exists st', visit_all m (sort_fuel ps) ids st = Some st'.
Proof.
  revert st. induction ids as [|id ids IH]; intros st Hin; [by eexists|].
  destruct (visit_terminates m U (sort_fuel ps) id st) as (st1 & E & _).
  - apply all_ids_closed.
  - apply Hin. set_solver.
  - unfold sort_fuel. enough (size (U ∖ st.1) <= length (all_ids ps)) by lia.
    transitivity (size U); [apply subseteq_size; set_solver|].
    apply size_list_to_set_le.
  - unfold visit_all. cbn [foldl mbind option_bind]. rewrite E. apply IH. set_solver.
Qed.

Lemma visit_all_ok ids st st' :
  visit_all m (sort_fuel ps) ids st = Some st' -> search_ok st ->
  (forall x, ~ on_path st x) ->
  search_ok st' /\ (forall x, ~ on_path st' x) /\ extends st st' /\ forall id, id ∈ ids -> id ∈ st'.2.
Proof.
  revert st. induction ids as [|id ids IH]; intros st Hv Hok Hp.
  { unfold visit_all in Hv. simplify_eq/=. split; [done|]. split; [done|]. split; [reflexivity|]. set_solver. }
  unfold visit_all in Hv. cbn [foldl mbind option_bind] in Hv.
  destruct (visit_ids m (sort_fuel ps) id st) as [st1|] eqn:E; [|by rewrite foldl_bind_None in Hv].
  destruct (visit_ids_spec m (sort_fuel ps) id st st1 E Hok) as (Hok1 & Hex & Hsp & Hid).
  destruct (IH st1 Hv Hok1) as (Hok' & Hp' & Hex' & Hin).
  { intros x Hx. apply (Hp x). by apply Hsp. }
  split; [done|]. split; [done|]. split; [by transitivity st1|].
  intros x [->|Hx]%elem_of_cons; [|by apply Hin].
  destruct (decide (id ∈ st'.2)) as [|Hn]; [done|]. destruct (Hp' id). split; [|done].
  destruct Hex' as [Hsub _]. set_solver.
Qed.

Lemma visit_all_ordered (rank : string -> nat) ids st st' :
  (forall id dep, dep ∈ before (pipeline_at m id) -> rank dep < rank id) ->
  visit_all m (sort_fuel ps) ids st = Some st' -> search_ok st -> (forall x, ~ on_path st x) ->
  ordered m st.2 -> ordered m st'.2.
Proof.
  intros Hac. revert st. induction ids as [|id ids IH]; intros st Hv Hok Hp Ho.
  { unfold visit_all in Hv. by simplify_eq/=. }
  unfold visit_all in Hv. cbn [foldl mbind option_bind] in Hv.
  destruct (visit_ids m (sort_fuel ps) id st) as [st1|] eqn:E; [|by rewrite foldl_bind_None in Hv].
  destruct (visit_ids_spec m (sort_fuel ps) id st st1 E Hok) as (Hok1 & _ & Hsp & _).
  destruct (visit_ids_ordered m rank Hac (sort_fuel ps) id st st1 E Hok Ho) as [Ho1 _].
  { intros x Hx. by destruct (Hp x). }
  apply (IH st1 Hv Hok1); [|done]. intros x Hx. apply (Hp x). by apply Hsp.
Qed.
End Sorting.

Lemma hierarchy_sort_exists ps : exists sorted, sortPipelinesByHierarchy ps = Some sorted.
Proof.
  rewrite sort_visit_all. destruct (visit_all_terminates ps (ID <$> ps) (∅, [])) as [st ->]; [|by eexists].
  intros id (p & -> & Hp)%list_elem_of_fmap. rewrite elem_of_list_to_set. by apply all_ids_ID.
Qed.

(** C17: The order of a batch execution. [sortPipelinesByHierarchy] terminates on every
    list of pipelines, also with cycles, repeated identifiers and references to
    unknown pipelines; it yields every identifier once, all pipelines of the list
    among them; and when the parent and dependency references have no cycle, the
    parent and all dependencies of a pipeline come before it. *)
Theorem hierarchy_sort_is_topological (ps : list WorkflowPipeline) :
  exists ids, sortPipelinesByHierarchy ps = Some (pipeline_at (pipelineMap ps) <$> ids) /\
    NoDup ids /\ (forall p, p ∈ ps -> ID p ∈ ids) /\
    forall rank : string -> nat,
      (forall id dep, dep ∈ before (pipeline_at (pipelineMap ps) id) -> rank dep < rank id) ->
      forall l1 id l2, ids = l1 ++ id :: l2 ->
      forall dep, dep ∈ before (pipeline_at (pipelineMap ps) id) -> dep ∈ l1.
Proof.
  rewrite sort_visit_all. destruct (visit_all_terminates ps (ID <$> ps) (∅, [])) as [[V R] E].
  { intros id (p & -> & Hp)%list_elem_of_fmap. rewrite elem_of_list_to_set. by apply all_ids_ID. }
  assert (search_ok (∅, [])) as H0 by (split; [apply NoDup_nil_2 | set_solver]).
  assert (forall x, ~ on_path (∅, []) x) as Hp0 by (intros x [Hx _]; set_solver).
  destruct (visit_all_ok ps _ _ _ E H0 Hp0) as ([Hn _] & _ & _ & Hin).
  exists R. rewrite E. split; [done|]. split; [done|]. split.
  - intros p Hp. apply Hin. apply list_elem_of_fmap. eauto.
  - intros rank Hac. apply (visit_all_ordered ps rank _ _ _ Hac E H0 Hp0).
    intros [|? ?] x l2 Eq; discriminate.
Qed.

(** ** Running the pipelines of a batch *)

(** [hasChildPipelines]. *)
Definition hasChildPipelines (pipelineID : string) (pipelines : list WorkflowPipeline) : bool :=
  existsb (fun p => bool_decide (ParentPipelineID p = Some pipelineID)) pipelines.

(** The writes of [applyParameterBindings] into the map of the source. *)
Definition bind_parameters (bindings : list ParameterBinding) (record config : Data) : Data :=
  foldl (fun c b => match record !! ParentField b with
                    | Some v => <[ChildParam b := v]> c
                    | None => c
                    end) config bindings.

Definition with_source (id : string) (config : option Data) (p : WorkflowPipeline) : WorkflowPipeline :=
  MkPipeline id (Name p) (DependsOn p) config (ParentPipelineID p) (TargetDataTypeID p) (Expansion p)
    (ParameterBindings p).

(** [applyParameterBindings]: the expanded pipeline, and the original afterwards. The copy
    of the structure shares the map of the source, so that the bindings are written
    into the original as well, unless its map was nil. *)
Definition applyParameterBindings (p : WorkflowPipeline) (record : Data) (index : nat)
  : WorkflowPipeline * WorkflowPipeline :=
  let config := bind_parameters (ParameterBindings p) record (default ∅ (SourceConfig p)) in
  (with_source (ID p +:+ "_" +:+ pretty index) (Some config) p,
   with_source (ID p) (match SourceConfig p with Some _ => Some config | None => None end) p).

(** [executePipeline]: the simulation that stands for the agent. *)
Definition executePipeline (p : WorkflowPipeline) : PipelineExecutionResult :=
  MkResult (ID p) (Name p) "completed" 0 0 0.

Definition rename (name : string) (r : PipelineExecutionResult) : PipelineExecutionResult :=
  MkResult (PipelineID r) name (ResStatus r) (RecordsProcessed r) (RecordsFailed r) (ResOffset r).

(** [queryDataTypeRecords]: whether or not the data type exists, there are no records. *)
Definition queryDataTypeRecords (dataTypeID : string) : list Data := [].

Section Batch.
(** How a pipeline is executed, and the records of a data type. *)
Context (execute : WorkflowPipeline -> PipelineExecutionResult) (query : string -> list Data).

(** [getExpansionRecords]. *)
Definition getExpansionRecords (p : WorkflowPipeline) (parentOutputs : gmap string (list Data))
  : list Data :=
  match ParentPipelineID p ≫= (parentOutputs !!.) with
  | Some (r :: outputs) => r :: outputs
  | _ => match TargetDataTypeID p with Some dt => query dt | None => [] end
  end.

(** The loop over the records of an expanded pipeline. *)
Fixpoint expand_loop (p : WorkflowPipeline) (i : nat) (records : list Data)
  : list PipelineExecutionResult :=
  match records with
  | [] => []
  | record :: records' =>
      let '(expanded, p) := applyParameterBindings p record i in
      rename (Name p +:+ "[" +:+ pretty i +:+ "]") (execute expanded)
        :: expand_loop p (S i) records'
  end.

Definition is_expanded (p : WorkflowPipeline) : bool :=
  match ParentPipelineID p with
  | Some _ => Expansion p =? ExpansionModeForEachRecord
  | None => false
  end.

(** What one turn of the loop of [runBatchExecution] adds: results, and the outputs kept
    for children. *)
Definition batch_step (pipelines : list WorkflowPipeline) (p : WorkflowPipeline)
  (parentOutputs : gmap string (list Data))
  : list PipelineExecutionResult * gmap string (list Data) :=
  if is_expanded p then (expand_loop p 0 (getExpansionRecords p parentOutputs), parentOutputs)
  else ([execute p],
        if hasChildPipelines (ID p) pipelines
        then match TargetDataTypeID p with
             | Some dt => <[ID p := query dt]> parentOutputs
             | None => parentOutputs
             end
        else parentOutputs).

(** The counters of the loop. *)
Definition add_results (rs : list PipelineExecutionResult) (c : Z * Z) : Z * Z :=
  foldl (fun c r => (int64_wrap (c.1 + RecordsProcessed r), int64_wrap (c.2 + RecordsFailed r))) c rs.

Record BatchState := MkBatch {
  pipelineResults : list PipelineExecutionResult;
  totals : Z * Z;
  parentOutputs : gmap string (list Data)
}.

(** The loop; [cancelled i] says whether the context is done before the [i]-th pipeline,
    in which case the execution ends without a result. *)
Fixpoint batch_loop (pipelines : list WorkflowPipeline) (cancelled : nat -> bool) (i : nat)
  (todo : list WorkflowPipeline) (st : BatchState) : option BatchState :=
  match todo with
  | [] => Some st
  | p :: todo' =>
      if cancelled i then None
      else
        let '(rs, outputs) := batch_step pipelines p (parentOutputs st) in
        batch_loop pipelines cancelled (S i) todo'
          (MkBatch (pipelineResults st ++ rs) (add_results rs (totals st)) outputs)
  end.

(** [runBatchExecution], up to the updates of the database. *)
Definition run_batch (pipelines : list WorkflowPipeline) (cancelled : nat -> bool)
  : option BatchState :=
  sortPipelinesByHierarchy pipelines ≫= fun sorted =>
  batch_loop pipelines cancelled 0 sorted (MkBatch [] (0, 0)%Z ∅).

(** *** Accounting *)

Definition sum_of (f : PipelineExecutionResult -> Z) (rs : list PipelineExecutionResult) : Z :=
  foldr (fun r acc => f r + acc)%Z 0%Z rs.

Lemma sum_of_app f rs rs' : sum_of f (rs ++ rs') = (sum_of f rs + sum_of f rs')%Z.
Proof. induction rs as [|r rs IH]; simpl; [done|]. rewrite IH. lia. Qed.

Lemma add_results_eqm rs c :
  eqm (add_results rs c).1 (c.1 + sum_of RecordsProcessed rs) /\
  eqm (add_results rs c).2 (c.2 + sum_of RecordsFailed rs).
Proof.
  revert c. induction rs as [|r rs IH]; intros c; simpl.
  { split; exists 0%Z; lia. }
  destruct (IH (int64_wrap (c.1 + RecordsProcessed r), int64_wrap (c.2 + RecordsFailed r)))
    as [H1 H2]. unfold add_results in *. simpl in *. rewrite H1, H2, !wrap_eqm.
  split; exists 0%Z; lia.
Qed.

Definition accounted (st : BatchState) : Prop :=
  eqm (totals st).1 (sum_of RecordsProcessed (pipelineResults st)) /\
  eqm (totals st).2 (sum_of RecordsFailed (pipelineResults st)).

Lemma batch_loop_accounted pipelines cancelled i todo st st' :
  batch_loop pipelines cancelled i todo st = Some st' -> accounted st -> accounted st'.
Proof.
  revert i st. induction todo as [|p todo IH]; intros i st Hb [Ha1 Ha2]; simplify_eq/=; [done|].
  destruct (cancelled i); [done|].
  destruct (batch_step pipelines p (parentOutputs st)) as [rs outputs].
  apply (IH _ _ Hb). destruct (add_results_eqm rs (totals st)) as [H1 H2].
  split; simpl; rewrite sum_of_app; [rewrite H1, Ha1 | rewrite H2, Ha2]; done.
Qed.

Lemma batch_loop_total pipelines i todo st :
  exists st', batch_loop pipelines (fun _ => false) i todo st = Some st'.
Proof.
  revert i st. induction todo as [|p todo IH]; intros i st; simpl; [by eexists|].
  destruct (batch_step pipelines p (parentOutputs st)). apply IH.
Qed.
End Batch.

(** Every pipeline that is not expanded is executed exactly once, in the sorted order. *)
Lemma batch_loop_plain execute query pipelines cancelled i todo st st' :
  batch_loop execute query pipelines cancelled i todo st = Some st' ->
  (forall p, p ∈ todo -> is_expanded p = false) ->
  pipelineResults st' = pipelineResults st ++ (execute <$> todo).
Proof.
  revert i st. induction todo as [|p todo IH]; intros i st Hb Hp; simplify_eq/=.
  { by rewrite app_nil_r. }
  destruct (cancelled i); [done|]. unfold batch_step in Hb. rewrite (Hp p) in Hb by set_solver.
  rewrite (IH _ _ Hb) by set_solver. simpl. by rewrite <- app_assoc.
Qed.

(** A batch execution. Without a cancellation it ends; the record counts it reports
    are the sums over the results of its pipelines (modulo their width); and when no
    pipeline is expanded, each is executed exactly once, in the hierarchical order. *)
Theorem batch_run_accounts (execute : WorkflowPipeline -> PipelineExecutionResult)
    (query : string -> list Data) (pipelines : list WorkflowPipeline) :
  exists sorted st, sortPipelinesByHierarchy pipelines = Some sorted /\
    run_batch execute query pipelines (fun _ => false) = Some st /\
    eqm (totals st).1 (sum_of RecordsProcessed (pipelineResults st)) /\
    eqm (totals st).2 (sum_of RecordsFailed (pipelineResults st)) /\
    ((forall p, p ∈ sorted -> is_expanded p = false) -> pipelineResults st = execute <$> sorted).
Proof.
  destruct (hierarchy_sort_exists pipelines) as [sorted Es].
  destruct (batch_loop_total execute query pipelines 0 sorted (MkBatch [] (0, 0)%Z ∅)) as [st E].
  exists sorted, st. split; [done|]. unfold run_batch. rewrite Es. split; [exact E|].
  destruct (batch_loop_accounted _ _ _ _ _ _ _ _ E) as [H1 H2]; [by split|].
  split; [done|]. split; [done|]. intros Hp. by rewrite (batch_loop_plain _ _ _ _ _ _ _ _ E Hp).
Qed.

(** ** Two gaps *)

Lemma getExpansionRecords_nil p outputs :
  map_Forall (fun _ l => l = []) outputs -> getExpansionRecords queryDataTypeRecords p outputs = [].
Proof.
  intros Ho. unfold getExpansionRecords. destruct (ParentPipelineID p) as [id|]; simpl.
  2: by destruct (TargetDataTypeID p).
  destruct (outputs !! id) as [[|r l]|] eqn:E; [by destruct (TargetDataTypeID p)| |by destruct (TargetDataTypeID p)].
  by apply Ho in E.
Qed.

Lemma batch_loop_never_expands execute pipelines cancelled i todo st st' :
  batch_loop execute queryDataTypeRecords pipelines cancelled i todo st = Some st' ->
  map_Forall (fun _ l => l = []) (parentOutputs st) ->
  pipelineResults st' = pipelineResults st ++ (execute <$> List.filter (fun p => negb (is_expanded p)) todo).
Proof.
  revert i st. induction todo as [|p todo IH]; intros i st Hb Ho; simplify_eq/=.
  { by rewrite app_nil_r. }
  destruct (cancelled i); [done|]. unfold batch_step in Hb. destruct (is_expanded p).
  - rewrite (getExpansionRecords_nil p _ Ho) in Hb. rewrite (IH _ _ Hb Ho). simpl. by rewrite app_nil_r.
  - rewrite (IH _ _ Hb). { simpl. by rewrite <- app_assoc. }
    simpl. destruct (hasChildPipelines (ID p) pipelines); [|done].
    destruct (TargetDataTypeID p); [|done]. by apply map_Forall_insert_2.
Qed.

(** The records of a data type are never found, so a child pipeline that is expanded for
    each record of its parent never runs. *)
Theorem expanded_pipelines_never_run (pipelines : list WorkflowPipeline) (cancelled : nat -> bool)
    (st : BatchState) :
  run_batch executePipeline queryDataTypeRecords pipelines cancelled = Some st ->
  exists sorted, sortPipelinesByHierarchy pipelines = Some sorted /\
    pipelineResults st = executePipeline <$> List.filter (fun p => negb (is_expanded p)) sorted.
Proof.
  unfold run_batch. intros (sorted & Es & E)%bind_Some. exists sorted. split; [done|].
  by rewrite (batch_loop_never_expands _ _ _ _ _ _ _ E).
Qed.

(** A parameter bound for one record is still bound for the next one, even if that record
    does not have the field, when the pipeline has a source configuration; without one
    every record starts from an empty map. *)
Theorem bindings_leak_between_records (p : WorkflowPipeline) (field param : string) (v : GoValue)
    (config r1 r2 : Data) (i : nat) :
  ParameterBindings p = [MkBinding field param] ->
  r1 !! field = Some v -> r2 !! field = None ->
  let second c := (applyParameterBindings (applyParameterBindings (with_source (ID p) c p) r1 i).2 r2 (S i)).1 in
  (SourceConfig (second (Some config)) ≫= (.!! param)) = Some v /\
  (SourceConfig (second None) ≫= (.!! param)) = None.
Proof.
  intros Hb H1 H2. unfold applyParameterBindings, bind_parameters. simpl. rewrite Hb. simpl.
  rewrite H1, H2. split; simpl; [by rewrite lookup_insert_eq | apply lookup_empty].
Qed.

(** A reference to an unknown pipeline puts an empty pipeline into the order, and of two
    pipelines with one identifier only the last one is in it. *)
Example sort_of_odd_references :
  let p id deps := MkPipeline id "n" deps None None None "" [] in
  sortPipelinesByHierarchy [p "b" ["a"; "x"]; p "a" []] = Some [p "a" []; zero_pipeline; p "b" ["a"; "x"]] /\
  sortPipelinesByHierarchy [p "a" ["b"]; p "b" ["a"]] = Some [p "b" ["a"]; p "a" ["b"]] /\
  sortPipelinesByHierarchy [p "a" []; p "a" ["a"]] = Some [p "a" ["a"]].
Proof. split; [|split]; vm_compute; reflexivity. Qed.
