(* ===== verification/Execution.v ===== *)
(** * The execution service (control-plane/internal/services/execution.go)

    Starting, stopping, pausing and resuming the execution of workflows. Every execution
    has a goroutine of its own: the service is a heap of executions with the phase of
    their goroutines, the map of running workflows, the rows of the database and the
    Redis store. A [Label] is a call of the service, which holds the lock throughout,
    or a step of one goroutine; behaviours are the sequences of labels. *)

From Stdlib Require Import Ascii String.
From S2P Require Import Prelude GoString GoValue GoTime Hierarchy.
Local Open Scope string_scope.
Local Open Scope list_scope.

(** ** Data *)

Definition WorkflowTypeRealtime := "realtime".
Definition WorkflowTypeBatch := "batch".
Definition StatusRunning := "running".
Definition StatusPaused := "paused".
Definition StatusStopped := "stopped".
Definition StatusCompleted := "completed".

(** A row of the table of workflows; [Pipelines] is the decoded [PipelinesConfig]. *)
Record WorkflowRow := MkWorkflowRow {
  WType : string;
  WStatus : string;
  Pipelines : list WorkflowPipeline;
  LastRunAt : option Z
}.

(** A row of the table of executions. *)
Record ExecutionRow := MkExecutionRow {
  XWorkflowID : string;
  XStatus : string;
  XStartedAt : Z;
  XTriggeredByID : string;
  XCompletedAt : option Z;
  XDurationMs : Z;
  XTotalRecords : Z;
  XFailedRecords : Z;
  XPipelineResults : list PipelineExecutionResult;
  XMetadata : string
}.

Record HourlyStats := MkHourly {
  HWorkflowID : string;
  HPipelineName : string;
  HRecordsCollected : Z;
  HRecordsProcessed : Z;
  HCollectionErrors : Z;
  HSampleCount : Z
}.

Record DB := MkDB {
  workflows : gmap string WorkflowRow;
  executions : gmap string ExecutionRow;
  hourly : gmap (string * Z) HourlyStats
}.

(** [WorkflowExecution] of the service; [Cancelled] is the state of its context. *)
Record WorkflowExecution := MkExec {
  WorkflowID : string;
  ExecutionID : string;
  EType : string;
  StartedAt : Z;
  Cancelled : bool;
  Offsets : gmap string Z
}.

(** Where the goroutine of an execution is. *)
Inductive Phase :=
| PhaseStart (pipelines : list WorkflowPipeline)
| PhaseBatch (pipelines todo : list WorkflowPipeline) (st : BatchState)
| PhaseRealtime (pipelines : list WorkflowPipeline)
| PhaseCleanup
| PhaseDone.

Record Goroutine := MkGo {
  exec : WorkflowExecution;
  phase : Phase
}.

(** [ExecutionService]; [redis] is [None] without a Redis service. *)
Record Service := MkService {
  goroutines : gmap nat Goroutine;
  runningWorkflows : gmap string nat;
  db : DB;
  redis : option (gmap string string)
}.

Definition NewExecutionService (d : DB) (r : option (gmap string string)) : Service :=
  MkService ∅ ∅ d r.

Definition set_goroutine (l : nat) (g : Goroutine) (s : Service) : Service :=
  MkService (<[l := g]> (goroutines s)) (runningWorkflows s) (db s) (redis s).
Definition set_running (m : gmap string nat) (s : Service) : Service :=
  MkService (goroutines s) m (db s) (redis s).
Definition set_db (d : DB) (s : Service) : Service :=
  MkService (goroutines s) (runningWorkflows s) d (redis s).
Definition set_redis (r : option (gmap string string)) (s : Service) : Service :=
  MkService (goroutines s) (runningWorkflows s) (db s) r.

Definition cancel (e : WorkflowExecution) : WorkflowExecution :=
  MkExec (WorkflowID e) (ExecutionID e) (EType e) (StartedAt e) true (Offsets e).
Definition set_offsets (o : gmap string Z) (e : WorkflowExecution) : WorkflowExecution :=
  MkExec (WorkflowID e) (ExecutionID e) (EType e) (StartedAt e) (Cancelled e) o.

(** Updates of single columns of the database; rows that do not exist are not updated. *)
Definition update_status (wid st : string) (d : DB) : DB :=
  MkDB (alter (fun w => MkWorkflowRow (WType w) st (Pipelines w) (LastRunAt w)) wid (workflows d))
    (executions d) (hourly d).
Definition update_execution (eid : string) (f : ExecutionRow -> ExecutionRow) (d : DB) : DB :=
  MkDB (workflows d) (alter f eid (executions d)) (hourly d).

Definition stopped_row (now started : Z) (x : ExecutionRow) : ExecutionRow :=
  MkExecutionRow (XWorkflowID x) StatusStopped (XStartedAt x) (XTriggeredByID x) (Some now)
    (Z.quot (now - started) Millisecond) (XTotalRecords x) (XFailedRecords x) (XPipelineResults x)
    (XMetadata x).
Definition completed_row (now started : Z) (st : BatchState) (x : ExecutionRow) : ExecutionRow :=
  MkExecutionRow (XWorkflowID x) StatusCompleted (XStartedAt x) (XTriggeredByID x) (Some now)
    (Z.quot (now - started) Millisecond) (totals st).1 (totals st).2 (pipelineResults st) (XMetadata x).
Definition metadata_row (data : string) (x : ExecutionRow) : ExecutionRow :=
  MkExecutionRow (XWorkflowID x) (XStatus x) (XStartedAt x) (XTriggeredByID x) (XCompletedAt x)
    (XDurationMs x) (XTotalRecords x) (XFailedRecords x) (XPipelineResults x) data.

(** ** Hourly statistics *)

(** [time.Truncate(time.Hour)]. *)
Definition truncate_hour (now : Z) : Z := (now - now mod Hour)%Z.

Definition updateHourlyStats (now : Z) (workflowID pipelineID pipelineName : string)
  (r : PipelineExecutionResult) (d : DB) : DB :=
  let key := (pipelineID, truncate_hour now) in
  let row :=
    match hourly d !! key with
    | None => MkHourly workflowID pipelineName (RecordsProcessed r) (RecordsProcessed r)
                (RecordsFailed r) 1
    | Some h => MkHourly (HWorkflowID h) (HPipelineName h)
                  (int64_wrap (HRecordsCollected h + RecordsProcessed r))
                  (int64_wrap (HRecordsProcessed h + RecordsProcessed r))
                  (int64_wrap (HCollectionErrors h + RecordsFailed r))
                  (int64_wrap (HSampleCount h + 1))
    end in
  MkDB (workflows d) (executions d) (<[key := row]> (hourly d)).

(** [json.Marshal] of a text, as the client of Redis applies it to every value it stores. Bytes
    outside ASCII are kept: the texts stored here are themselves JSON, in which those that
    the encoder changes do not occur. *)
Definition hex_digit (n : nat) : ascii := ascii_of_nat (if n <? 10 then 48 + n else 87 + n)%nat.
Definition json_char (c : ascii) : string :=
  let n := nat_of_ascii c in
  if (n =? 34)%nat || (n =? 92)%nat then bytes [92] +:+ String c ""
  else if (n =? 8)%nat then bytes [92] +:+ "b"
  else if (n =? 9)%nat then bytes [92] +:+ "t"
  else if (n =? 10)%nat then bytes [92] +:+ "n"
  else if (n =? 12)%nat then bytes [92] +:+ "f"
  else if (n =? 13)%nat then bytes [92] +:+ "r"
  else if (n <? 32)%nat || (n =? 60)%nat || (n =? 62)%nat || (n =? 38)%nat
  then bytes [92] +:+ "u00" +:+ String (hex_digit (n / 16)) (String (hex_digit (n mod 16)) "")
  else String c "".
Fixpoint json_chars (t : string) : string :=
  match t with "" => "" | String c t => json_char c +:+ json_chars t end.
Definition json_string (t : string) : string := quoted (json_chars t).

Section Service.
(** [json.Marshal] of a map of offsets, and what [json.Unmarshal] leaves in an empty map. *)
Context (marshal : gmap string Z -> string) (unmarshal : string -> gmap string Z).
(** How a pipeline is executed, and the records of a data type. *)
Context (execute : WorkflowPipeline -> PipelineExecutionResult) (query : string -> list Data).

(** ** Offsets *)

Definition offsets_key (workflowID : string) : string := "workflow:" +:+ workflowID +:+ ":offsets".

(** [Set] of the service encodes the value it is given, here a text that is JSON already. *)
Definition saveOffsets (workflowID executionID : string) (offsets : gmap string Z) (s : Service)
  : Service :=
  let data := marshal offsets in
  let s := match redis s with
           | Some store => set_redis (Some (<[offsets_key workflowID := json_string data]> store)) s
           | None => s
           end in
  set_db (update_execution executionID (metadata_row data) (db s)) s.

Definition loadOffsets (workflowID : string) (s : Service) : gmap string Z :=
  match redis s ≫= (.!! offsets_key workflowID) with
  | Some data => if data =? "" then ∅ else unmarshal data
  | None => ∅
  end.

(** ** Calls *)

(** [StartExecution]; [uuid] is the generated identifier, a primary key. *)
Definition StartExecution (workflowID userID uuid : string) (now : Z) (s : Service)
  : res string ExecutionRow * Service :=
  match runningWorkflows s !! workflowID with
  | Some _ => (Err "workflow is already running", s)
  | None =>
      match workflows (db s) !! workflowID with
      | None => (Err "workflow not found", s)
      | Some w =>
          match executions (db s) !! uuid with
          | Some _ => (Err "failed to create execution record", s)
          | None =>
              let row := MkExecutionRow workflowID StatusRunning now userID None 0 0 0 [] "" in
              let d := MkDB
                (<[workflowID := MkWorkflowRow (WType w) StatusRunning (Pipelines w) (Some now)]>
                   (workflows (db s)))
                (<[uuid := row]> (executions (db s))) (hourly (db s)) in
              let e := MkExec workflowID uuid (WType w) now false ∅ in
              let l := fresh (dom (goroutines s)) in
              (Ok row,
               MkService (<[l := MkGo e (PhaseStart (Pipelines w))]> (goroutines s))
                 (<[workflowID := l]> (runningWorkflows s)) d (redis s))
          end
      end
  end.

Definition StopExecution (workflowID : string) (now : Z) (s : Service) : res string unit * Service :=
  match runningWorkflows s !! workflowID with
  | None => (Err "workflow is not running", s)
  | Some l =>
      match goroutines s !! l with
      | None => (Panic, s)
      | Some g =>
          let e := exec g in
          let s := set_goroutine l (MkGo (cancel e) (phase g)) s in
          let s := if (EType e =? WorkflowTypeRealtime) && (0 <? size (Offsets e))%nat
                   then saveOffsets workflowID (ExecutionID e) (Offsets e) s else s in
          let d := update_execution (ExecutionID e) (stopped_row now (StartedAt e)) (db s) in
          let d := update_status workflowID StatusStopped d in
          (Ok tt, set_running (delete workflowID (runningWorkflows s)) (set_db d s))
      end
  end.

Definition PauseExecution (workflowID : string) (s : Service) : res string unit * Service :=
  match runningWorkflows s !! workflowID with
  | None => (Err "workflow is not running", s)
  | Some _ => (Ok tt, set_db (update_status workflowID StatusPaused (db s)) s)
  end.

Definition ResumeExecution (workflowID : string) (s : Service) : res string unit * Service :=
  match runningWorkflows s !! workflowID with
  | None => (Err "workflow is not running", s)
  | Some _ => (Ok tt, set_db (update_status workflowID StatusRunning (db s)) s)
  end.

Definition IsRunning (workflowID : string) (s : Service) : bool :=
  bool_decide (is_Some (runningWorkflows s !! workflowID)).
Definition GetRunningWorkflows (s : Service) : gset string := dom (runningWorkflows s).

(** ** The goroutine of an execution *)

(** [runExecution] up to the first step of its run. *)
Definition run_start (l : nat) (e : WorkflowExecution) (pipelines : list WorkflowPipeline) (s : Service)
  : Service :=
  if EType e =? WorkflowTypeBatch then
    set_goroutine l (MkGo e (PhaseBatch pipelines
      (default [] (sortPipelinesByHierarchy pipelines)) (MkBatch [] (0, 0)%Z ∅))) s
  else if EType e =? WorkflowTypeRealtime then
    set_goroutine l (MkGo (set_offsets (loadOffsets (WorkflowID e) s) e) (PhaseRealtime pipelines)) s
  else set_goroutine l (MkGo e PhaseCleanup) s.

(** One turn of the loop of [runBatchExecution], and its end. *)
Definition run_batch_step (l : nat) (now : Z) (e : WorkflowExecution)
  (pipelines todo : list WorkflowPipeline) (st : BatchState) (s : Service) : Service :=
  match todo with
  | [] =>
      let d := update_execution (ExecutionID e) (completed_row now (StartedAt e) st) (db s) in
      let d := update_status (WorkflowID e) StatusCompleted d in
      set_goroutine l (MkGo e PhaseCleanup) (set_db d s)
  | p :: todo' =>
      if Cancelled e then set_goroutine l (MkGo e PhaseCleanup) s
      else
        let '(rs, outputs) := batch_step execute query pipelines p (parentOutputs st) in
        let st := MkBatch (pipelineResults st ++ rs) (add_results rs (totals st)) outputs in
        set_goroutine l (MkGo e (PhaseBatch pipelines todo' st)) s
  end.

(** The body of a polling turn of [runRealtimeExecution] for one pipeline. *)
Definition poll_pipeline (now : Z) (e : WorkflowExecution) (p : WorkflowPipeline)
  (x : gmap string Z * DB) : gmap string Z * DB :=
  let r := execute p in
  let offsets := if (0 <? ResOffset r)%Z then <[ID p := ResOffset r]> x.1 else x.1 in
  (offsets, updateHourlyStats now (WorkflowID e) (ID p) (Name p) r x.2).

Definition poll (l : nat) (now : Z) (e : WorkflowExecution) (pipelines : list WorkflowPipeline)
  (s : Service) : Service :=
  let '(offsets, d) := foldl (fun x p => poll_pipeline now e p x) (Offsets e, db s) pipelines in
  set_goroutine l (MkGo (set_offsets offsets e) (PhaseRealtime pipelines)) (set_db d s).

(** [cleanupExecution], the deferred end of [runExecution]. *)
Definition cleanupExecution (workflowID : string) (s : Service) : Service :=
  set_running (delete workflowID (runningWorkflows s)) s.

Inductive Label :=
| CallStart (workflowID userID uuid : string) (now : Z)
| CallStop (workflowID : string) (now : Z)
| CallPause (workflowID : string)
| CallResume (workflowID : string)
| RunStep (l : nat) (now : Z)
| RunTick (l : nat) (now : Z).

(** A step of goroutine [l]. In the polling loop a cancelled context and a tick may both be
    ready, and then either is taken: [RunStep] takes the cancellation, [RunTick] the tick. *)
Definition run_step (l : nat) (now : Z) (s : Service) : Service :=
  match goroutines s !! l with
  | None => s
  | Some g =>
      let e := exec g in
      match phase g with
      | PhaseStart pipelines => run_start l e pipelines s
      | PhaseBatch pipelines todo st => run_batch_step l now e pipelines todo st s
      | PhaseRealtime pipelines =>
          if Cancelled e
          then set_goroutine l (MkGo e PhaseCleanup)
                 (saveOffsets (WorkflowID e) (ExecutionID e) (Offsets e) s)
          else s
      | PhaseCleanup => set_goroutine l (MkGo e PhaseDone) (cleanupExecution (WorkflowID e) s)
      | PhaseDone => s
      end
  end.

Definition run_tick (l : nat) (now : Z) (s : Service) : Service :=
  match goroutines s !! l with
  | Some (MkGo e (PhaseRealtime pipelines)) => poll l now e pipelines s
  | _ => s
  end.

Definition step (s : Service) (a : Label) : Service :=
  match a with
  | CallStart wid uid uuid now => (StartExecution wid uid uuid now s).2
  | CallStop wid now => (StopExecution wid now s).2
  | CallPause wid => (PauseExecution wid s).2
  | CallResume wid => (ResumeExecution wid s).2
  | RunStep l now => run_step l now s
  | RunTick l now => run_tick l now s
  end.

Definition steps (s : Service) (ls : list Label) : Service := foldl step s ls.
End Service.

(** ** Which executions are tracked *)

Definition is_done (p : Phase) : bool := match p with PhaseDone => true | _ => false end.

(** What matters of a goroutine: its workflow, whether it is cancelled, whether it is over. *)
Definition view (g : Goroutine) : string * bool * bool :=
  (WorkflowID (exec g), Cancelled (exec g), is_done (phase g)).
Definition views (s : Service) : gmap nat (string * bool * bool) := view <$> goroutines s.

(** The map of running workflows holds exactly the executions that are neither cancelled
    nor over, and a workflow has at most one execution that is not over. *)
Record tracked (v : gmap nat (string * bool * bool)) (r : gmap string nat) : Prop := {
  tr_running : forall wid l, r !! wid = Some l <-> v !! l = Some (wid, false, false);
  tr_single : forall l l' wid c c',
    v !! l = Some (wid, c, false) -> v !! l' = Some (wid, c', false) -> l = l'
}.

Definition Tracked (s : Service) : Prop := tracked (views s) (runningWorkflows s).

Lemma tracked_empty : tracked ∅ ∅.
Proof. split; intros *; rewrite ?lookup_empty; [by split|done]. Qed.

Lemma tracked_start v r wid l :
  tracked v r -> v !! l = None -> (forall l' c, v !! l' <> Some (wid, c, false)) ->
  tracked (<[l := (wid, false, false)]> v) (<[wid := l]> r).
Proof.
  intros [Hr Hs] Hl Hq. split.
  - intros wid' l'. rewrite !lookup_insert_Some, Hr. split.
    + intros [[-> ->]|[Hne Hv]]; [by left|]. right. split; [congruence|done].
    + intros [[-> [= ->]]|[Hne Hv]]; [by left|]. right. split; [|done]. intros <-. by apply (Hq l' false).
  - intros l1 l2 wid' c c'. rewrite !lookup_insert_Some.
    intros [[<- ?]|[Hn1 H1]] [[<- ?]|[Hn2 H2]]; simplify_eq; try done.
    + by destruct (Hq l2 c').
    + by destruct (Hq l1 c).
    + by eapply Hs.
Qed.

Lemma tracked_stop v r wid l :
  tracked v r -> r !! wid = Some l ->
  tracked (<[l := (wid, true, false)]> v) (delete wid r).
Proof.
  intros [Hr Hs] Hl. apply Hr in Hl as Hv. split.
  - intros wid' l'. rewrite lookup_delete_Some, lookup_insert_Some, Hr. split.
    + intros [Hne Hv']. right. split; [congruence|done].
    + intros [[_ [=]]|[Hne Hv']]. split; [|done]. intros <-. by apply Hne, (Hs l l' wid false false).
  - intros l1 l2 wid' c c'. rewrite !lookup_insert_Some.
    intros [[<- ?]|[Hn1 H1]] [[<- ?]|[Hn2 H2]]; simplify_eq; try done.
    + by eapply (Hs _ _ wid' false c').
    + by eapply (Hs _ _ wid' c false).
    + by eapply Hs.
Qed.

(** The deferred cleanup deletes by workflow; it hits no other execution. *)
Lemma tracked_done v r wid l c :
  tracked v r -> v !! l = Some (wid, c, false) ->
  tracked (<[l := (wid, c, true)]> v) (delete wid r).
Proof.
  intros [Hr Hs] Hv. split.
  - intros wid' l'. rewrite lookup_delete_Some, lookup_insert_Some, Hr. split.
    + intros [Hne Hv']. right. split; [congruence|done].
    + intros [[_ [=]]|[Hne Hv']]. split; [|done]. intros <-. by apply Hne, (Hs l l' wid c false).
  - intros l1 l2 wid' c1 c2. rewrite !lookup_insert_Some.
    intros [[_ [=]]|[Hn1 H1]] [[_ [=]]|[Hn2 H2]]. by eapply Hs.
Qed.

Section Tracking.
Context (marshal : gmap string Z -> string) (unmarshal : string -> gmap string Z).
Context (execute : WorkflowPipeline -> PipelineExecutionResult) (query : string -> list Data).
#[local] Abbreviation step := (step marshal unmarshal execute query).
#[local] Abbreviation steps := (steps marshal unmarshal execute query).

Lemma views_set l g s : views (set_goroutine l g s) = <[l := view g]> (views s).
Proof. unfold views. simpl. apply fmap_insert. Qed.

Lemma views_lookup s l g : goroutines s !! l = Some g -> views s !! l = Some (view g).
Proof. intros H. unfold views. by rewrite lookup_fmap, H. Qed.

(** A step that keeps the views of the goroutines and the map of running workflows. *)
Definition quiet_step (s s' : Service) : Prop :=
  views s' = views s /\ runningWorkflows s' = runningWorkflows s.

Lemma quiet_set l g g' s :
  goroutines s !! l = Some g -> view g' = view g -> quiet_step s (set_goroutine l g' s).
Proof.
  intros Hl Hv. split; [|done]. rewrite views_set, Hv. apply insert_id. by apply views_lookup.
Qed.

Lemma quiet_save wid eid o s : quiet_step s (saveOffsets marshal wid eid o s).
Proof. unfold saveOffsets, quiet_step. by destruct (redis s). Qed.

Lemma quiet_trans s1 s2 s3 : quiet_step s1 s2 -> quiet_step s2 s3 -> quiet_step s1 s3.
Proof. intros [E1 E2] [E3 E4]. split; congruence. Qed.

Lemma saveOffsets_goroutines wid eid o s : goroutines (saveOffsets marshal wid eid o s) = goroutines s.
Proof. unfold saveOffsets. by destruct (redis s). Qed.

(** A goroutine either makes a quiet step or cleans up. *)
Lemma run_step_quiet l now s :
  quiet_step s (run_step marshal unmarshal execute query l now s) \/
  exists g, goroutines s !! l = Some g /\ phase g = PhaseCleanup /\
    run_step marshal unmarshal execute query l now s
    = set_goroutine l (MkGo (exec g) PhaseDone) (cleanupExecution (WorkflowID (exec g)) s).
Proof.
  unfold run_step. destruct (goroutines s !! l) as [[e p]|] eqn:E; [|by left]. simpl.
  destruct p as [ps|ps todo st|ps| |]; simpl; [left|left|left|right|by left].
  - unfold run_start. destruct (EType e =? WorkflowTypeBatch); [by eapply quiet_set|].
    destruct (EType e =? WorkflowTypeRealtime); by eapply quiet_set.
  - unfold run_batch_step. destruct todo as [|p todo].
    + eapply quiet_trans; [|by eapply quiet_set]. done.
    + destruct (Cancelled e) eqn:Ec; [by eapply quiet_set; [exact E|]; unfold view; simpl; rewrite Ec|].
      destruct (batch_step execute query ps p (parentOutputs st)) as [rs outputs].
      eapply quiet_set; [exact E|]. done.
  - destruct (Cancelled e) eqn:Ec; [|done]. eapply quiet_trans; [apply quiet_save|].
    eapply quiet_set; [by rewrite saveOffsets_goroutines|]. unfold view. simpl. by rewrite Ec.
  - by eexists.
Qed.

Lemma run_tick_quiet l now s : quiet_step s (run_tick execute l now s).
Proof.
  unfold run_tick. destruct (goroutines s !! l) as [[e p]|] eqn:E; [|done]. destruct p; try done.
  unfold poll. destruct (foldl _ _ pipelines) as [o d].
  eapply quiet_trans; [|by eapply quiet_set]. done.
Qed.

(** No execution of the workflow is under way. *)
Definition idle (wid : string) (s : Service) : Prop :=
  forall l c, views s !! l <> Some (wid, c, false).

(** A start that is not refused comes when the last execution is over. *)
Definition start_is_clean (s : Service) (a : Label) : Prop :=
  match a with
  | CallStart wid _ _ _ => runningWorkflows s !! wid = None -> idle wid s
  | _ => True
  end.

Lemma StartExecution_tracked wid uid uuid now s :
  Tracked s -> (runningWorkflows s !! wid = None -> idle wid s) ->
  Tracked (StartExecution wid uid uuid now s).2.
Proof.
  intros Ht Hi. unfold StartExecution. destruct (runningWorkflows s !! wid) eqn:Er; [done|].
  destruct (workflows (db s) !! wid) as [w|]; [|done].
  destruct (executions (db s) !! uuid); [done|]. unfold Tracked, views. simpl. rewrite fmap_insert.
  apply tracked_start; [done| |by apply Hi].
  rewrite lookup_fmap, fmap_None. apply not_elem_of_dom. apply is_fresh.
Qed.

Lemma StopExecution_tracked wid now s : Tracked s -> Tracked (StopExecution marshal wid now s).2.
Proof.
  intros Ht. unfold StopExecution. destruct (runningWorkflows s !! wid) as [l|] eqn:Er; [|done].
  destruct (goroutines s !! l) as [g|] eqn:Eg; [|done].
  apply (tr_running _ _ Ht) in Er as Hv. rewrite (views_lookup _ _ _ Eg) in Hv.
  set (s1 := set_goroutine l (MkGo (cancel (exec g)) (phase g)) s).
  set (s2 := if (EType (exec g) =? WorkflowTypeRealtime) && (0 <? size (Offsets (exec g)))%nat
             then saveOffsets marshal wid (ExecutionID (exec g)) (Offsets (exec g)) s1 else s1).
  assert (quiet_step s1 s2) as [E1 E2].
  { subst s2. destruct (_ && _); [apply quiet_save | done]. }
  enough (tracked (views s2) (delete wid (runningWorkflows s2))) by done.
  rewrite E1, E2. subst s1. rewrite views_set. unfold view in *. simpl. injection Hv as -> _ ->.
  by apply tracked_stop.
Qed.

Lemma step_tracked s a : Tracked s -> start_is_clean s a -> Tracked (step s a).
Proof.
  intros Ht Hc. destruct a as [wid uid uuid now|wid now|wid|wid|l now|l now]; simpl in *.
  - by apply StartExecution_tracked.
  - by apply StopExecution_tracked.
  - unfold PauseExecution. by destruct (runningWorkflows s !! wid).
  - unfold ResumeExecution. by destruct (runningWorkflows s !! wid).
  - destruct (run_step_quiet l now s) as [[E1 E2]|(g & Eg & Ep & ->)].
    + unfold Tracked. by rewrite E1, E2.
    + unfold Tracked. rewrite views_set.
      enough (tracked (<[l := (WorkflowID (exec g), Cancelled (exec g), true)]> (views s))
        (delete (WorkflowID (exec g)) (runningWorkflows s))) by done.
      apply tracked_done; [done|]. rewrite (views_lookup _ _ _ Eg). unfold view. by rewrite Ep.
  - destruct (run_tick_quiet l now s) as [E1 E2]. unfold Tracked. by rewrite E1, E2.
Qed.

(** Every start of a sequence of labels is clean. *)
Fixpoint clean (s : Service) (ls : list Label) : Prop :=
  match ls with
  | [] => True
  | a :: ls' => start_is_clean s a /\ clean (step s a) ls'
  end.

Lemma steps_tracked s ls : Tracked s -> clean s ls -> Tracked (steps s ls).
Proof.
  revert s. induction ls as [|a ls IH]; intros s Ht Hc; [done|]. destruct Hc as [Ha Hc].
  apply IH; [by apply step_tracked | done].
Qed.
End Tracking.

(** C19: The execution service tracks its executions. As long as a stopped workflow is
    started again only after its goroutine has ended, in every interleaving of calls
    and goroutines the map of running workflows holds exactly the executions that are
    neither stopped nor over, and no workflow has two executions under way. *)
Theorem executions_are_tracked (marshal : gmap string Z -> string) (unmarshal : string -> gmap string Z)
    (execute : WorkflowPipeline -> PipelineExecutionResult) (query : string -> list Data)
    (d : DB) (r : option (gmap string string)) (ls : list Label) :
  clean marshal unmarshal execute query (NewExecutionService d r) ls ->
  let s := steps marshal unmarshal execute query (NewExecutionService d r) ls in
  (forall wid l, runningWorkflows s !! wid = Some l <-> views s !! l = Some (wid, false, false)) /\
  (forall l l' wid c c', views s !! l = Some (wid, c, false) -> views s !! l' = Some (wid, c', false) ->
     l = l').
Proof.
  intros Hc. assert (Tracked (NewExecutionService d r)) as Ht.
  { unfold Tracked, views. simpl. rewrite fmap_empty. apply tracked_empty. }
  by destruct (steps_tracked marshal unmarshal execute query _ ls Ht Hc).
Qed.

(** *** An example, and what happens without the discipline *)

Definition demo_workflow : WorkflowRow := MkWorkflowRow "batch" "idle" [zero_pipeline] None.
Definition demo_db : DB := MkDB {["w" := demo_workflow]} ∅ ∅.

(** An encoding of offsets that can be undone, for concrete runs. *)
Definition demo_marshal (m : gmap string Z) : string := bits (encode m).
Definition demo_unmarshal (s : string) : gmap string Z :=
  match s with
  | String c _ => if Ascii.eqb c (ascii_of_nat 34) then ∅ else default ∅ (decode (unbits s))
  | "" => ∅
  end.

Lemma demo_unmarshal_marshal m : demo_unmarshal (demo_marshal m) = m.
Proof.
  unfold demo_unmarshal, demo_marshal. rewrite unbits_bits, decode_encode. by destruct (encode m).
Qed.
Lemma demo_unmarshal_string t : demo_unmarshal (json_string t) = ∅.
Proof. done. Qed.

Definition demo_steps (ls : list Label) : Service :=
  steps demo_marshal demo_unmarshal executePipeline queryDataTypeRecords (NewExecutionService demo_db None) ls.

Lemma clean_app m u x q s ls ls' :
  clean m u x q s (ls ++ ls') <-> clean m u x q s ls /\ clean m u x q (steps m u x q s ls) ls'.
Proof.
  revert s. induction ls as [|a ls IH]; intros s; simpl; [tauto|]. rewrite IH. tauto.
Qed.

Definition demo_labels : list Label :=
  [CallStart "w" "u" "e1" 1; RunStep 0 2; CallStop "w" 3; RunStep 0 4; RunStep 0 5;
   CallStart "w" "u" "e2" 6].

Lemma idle_check wid s :
  bool_decide (map_Forall (fun _ v => v.1.1 <> wid \/ v.2 = true) (views s)) = true -> idle wid s.
Proof. intros H%bool_decide_eq_true l c Hv. apply H in Hv as [?|?]; done. Qed.

Lemma demo_labels_clean :
  clean demo_marshal demo_unmarshal executePipeline queryDataTypeRecords
    (NewExecutionService demo_db None) demo_labels.
Proof.
  change demo_labels with ([CallStart "w" "u" "e1" 1; RunStep 0 2; CallStop "w" 3; RunStep 0 4; RunStep 0 5]
    ++ [CallStart "w" "u" "e2" 6]). apply clean_app. split.
  - repeat split. intros _. apply idle_check. vm_compute. reflexivity.
  - split; [|done]. intros _. apply idle_check. vm_compute. reflexivity.
Qed.

Lemma executions_are_tracked_witness :
  clean demo_marshal demo_unmarshal executePipeline queryDataTypeRecords
    (NewExecutionService demo_db None) demo_labels /\
  let s := demo_steps demo_labels in
  (forall wid l, runningWorkflows s !! wid = Some l <-> views s !! l = Some (wid, false, false)) /\
  (forall l l' wid c c', views s !! l = Some (wid, c, false) -> views s !! l' = Some (wid, c', false) ->
     l = l').
Proof.
  split; [exact demo_labels_clean|].
  apply (executions_are_tracked demo_marshal demo_unmarshal executePipeline queryDataTypeRecords
    demo_db None demo_labels). exact demo_labels_clean.
Defined.

(** Cleaning up by workflow loses track. A workflow that is stopped and started again
    before the goroutine of the first execution has ended is dropped from the map of
    running workflows by the deferred cleanup of the first one: the second execution
    runs, but cannot be stopped, and a third one can be started beside it. *)
Theorem stale_cleanup_untracks_execution :
  let s := demo_steps [CallStart "w" "u" "e1" 1; CallStop "w" 2; CallStart "w" "u" "e2" 3;
                       RunStep 0 4; RunStep 0 5; RunStep 0 6] in
  views s !! 0 = Some ("w", true, true) /\ views s !! 1 = Some ("w", false, false) /\
  IsRunning "w" s = false /\ (StopExecution demo_marshal "w" 7 s).1 = Err "workflow is not running" /\
  is_ok (StartExecution "w" "u" "e3" 7 s).1 = true.
Proof. vm_compute. repeat split. Qed.

(** A stop between the last pipeline and the end of a batch is overwritten: the row of
    the execution says completed. *)
Example stopped_batch_reports_completed :
  let s := demo_steps [CallStart "w" "u" "e1" 1; RunStep 0 2; RunStep 0 3; CallStop "w" 4; RunStep 0 5] in
  XStatus <$> executions (db s) !! "e1" = Some StatusCompleted /\
  WStatus <$> workflows (db s) !! "w" = Some StatusCompleted.
Proof. vm_compute. repeat split. Qed.

(** ** Offsets do not survive a restart *)

Section Offsets.
Context (marshal : gmap string Z -> string) (unmarshal : string -> gmap string Z).
Context (execute : WorkflowPipeline -> PipelineExecutionResult) (query : string -> list Data).
(** A text is not an object: decoding it into a map fails and leaves the map as it is. *)
Context (string_is_no_map : forall t, unmarshal (json_string t) = ∅).

Lemma load_after_save wid eid o s :
  is_Some (redis s) -> loadOffsets unmarshal wid (saveOffsets marshal wid eid o s) = ∅.
Proof.
  intros [store E]. unfold loadOffsets, saveOffsets. rewrite E. simpl. rewrite lookup_insert_eq. apply string_is_no_map.
Qed.

(** The state of a workflow between the calls of a restart. *)
Record restarting (wid uuid : string) (s : Service) : Prop := {
  re_redis : is_Some (redis s);
  re_type : WType <$> workflows (db s) !! wid = Some WorkflowTypeRealtime;
  re_fresh : executions (db s) !! uuid = None
}.

Lemma restarting_save wid uuid eid o s : restarting wid uuid s -> restarting wid uuid (saveOffsets marshal wid eid o s).
Proof.
  intros [[store E] Hw Hu]. unfold saveOffsets. rewrite E. split; simpl; [by eexists|done|].
  rewrite lookup_alter. case_decide; subst; by rewrite Hu.
Qed.

Lemma restarting_stop_rows wid uuid eid f s :
  restarting wid uuid s ->
  restarting wid uuid (set_db (update_status wid StatusStopped (update_execution eid f (db s))) s).
Proof.
  intros [Hr Hw Hu]. split; simpl; [done| |].
  - rewrite lookup_alter_eq. by destruct (workflows (db s) !! wid).
  - rewrite lookup_alter. case_decide; subst; by rewrite Hu.
Qed.

(** What a stop of a running realtime execution leaves. *)
Lemma stop_realtime wid uuid l e ps now s :
  restarting wid uuid s -> runningWorkflows s !! wid = Some l ->
  goroutines s !! l = Some (MkGo e (PhaseRealtime ps)) ->
  let s' := (StopExecution marshal wid now s).2 in
  restarting wid uuid s' /\ runningWorkflows s' !! wid = None /\
  goroutines s' = <[l := MkGo (cancel e) (PhaseRealtime ps)]> (goroutines s).
Proof.
  intros Hre Hr Hg. unfold StopExecution. rewrite Hr, Hg. cbn -[saveOffsets].
  set (s1 := set_goroutine l (MkGo (cancel e) (PhaseRealtime ps)) s).
  assert (restarting wid uuid s1) as Hre1 by by destruct Hre.
  set (b := (_ && _)%bool). split; [|split].
  - enough (restarting wid uuid (set_db (update_status wid StatusStopped
      (update_execution (ExecutionID e) (stopped_row now (StartedAt e))
        (db (if b then saveOffsets marshal wid (ExecutionID e) (Offsets e) s1 else s1))))
      (if b then saveOffsets marshal wid (ExecutionID e) (Offsets e) s1 else s1))) as [? ? ?] by by split.
    apply restarting_stop_rows. destruct b; [by apply restarting_save | done].
  - cbn. apply lookup_delete_eq.
  - cbn. destruct b; [by rewrite saveOffsets_goroutines | done].
Qed.

(** The goroutine sees the cancellation, saves its offsets and cleans up. *)
Lemma end_realtime wid uuid l e ps t1 t2 s :
  restarting wid uuid s -> WorkflowID e = wid ->
  goroutines s !! l = Some (MkGo (cancel e) (PhaseRealtime ps)) ->
  let s' := run_step marshal unmarshal execute query l t2 (run_step marshal unmarshal execute query l t1 s) in
  restarting wid uuid s' /\ runningWorkflows s' !! wid = None /\ dom (goroutines s') = dom (goroutines s) /\
  loadOffsets unmarshal wid s' = ∅ /\
  forall x, executions (db s) !! ExecutionID e = Some x ->
    XMetadata <$> executions (db s') !! ExecutionID e = Some (marshal (Offsets e)).
Proof.
  intros Hre Hwid Hg.
  assert (run_step marshal unmarshal execute query l t1 s
    = set_goroutine l (MkGo (cancel e) PhaseCleanup) (saveOffsets marshal wid (ExecutionID e) (Offsets e) s)) as ->.
  { unfold run_step. rewrite Hg. simpl. by rewrite Hwid. }
  unfold run_step. cbn -[saveOffsets]. rewrite lookup_insert_eq. cbn -[saveOffsets]. rewrite Hwid.
  pose proof (restarting_save wid uuid (ExecutionID e) (Offsets e) s Hre) as [Hr Hw Hu].
  split; [by split|]. split; [apply lookup_delete_eq|]. split; [|split].
  - rewrite saveOffsets_goroutines, insert_insert_eq. apply dom_insert_lookup_L. eauto.
  - destruct Hre as [Hs _ _]. by rewrite <- (load_after_save wid (ExecutionID e) (Offsets e) s Hs).
  - intros x Hx. unfold saveOffsets. destruct (redis s); cbn; by rewrite lookup_alter_eq, Hx.
Qed.

(** The new execution loads what Redis has. *)
Lemma start_realtime wid uid uuid t1 t2 s :
  restarting wid uuid s -> runningWorkflows s !! wid = None ->
  let l := fresh (dom (goroutines s)) in
  let s' := run_step marshal unmarshal execute query l t2 (StartExecution wid uid uuid t1 s).2 in
  Offsets ∘ exec <$> goroutines s' !! l = Some (loadOffsets unmarshal wid s).
Proof.
  intros [Hr Hw Hu] Hn. unfold StartExecution. rewrite Hn.
  destruct (workflows (db s) !! wid) as [w|] eqn:Ew; [|done]. injection Hw as Hw. rewrite Hu.
  unfold run_step. cbn -[fresh]. rewrite lookup_insert_eq. unfold run_start. cbn -[fresh]. rewrite Hw.
  cbn -[fresh]. by rewrite lookup_insert_eq.
Qed.
End Offsets.

(** C40: Offsets do not survive a restart. When a realtime execution that polls is stopped, its
    goroutine ends, and the workflow is started again, the new execution begins without
    offsets: the text that was stored in Redis is encoded once more by the client, and
    decoding it into a map fails silently. *)
Theorem offsets_are_lost_on_restart (marshal : gmap string Z -> string) (unmarshal : string -> gmap string Z)
    (execute : WorkflowPipeline -> PipelineExecutionResult) (query : string -> list Data)
    (wid uid uuid : string) (l : nat) (e : WorkflowExecution) (ps : list WorkflowPipeline)
    (t1 t2 t3 t4 t5 : Z) (s : Service) :
  (forall t, unmarshal (json_string t) = ∅) ->
  restarting wid uuid s -> runningWorkflows s !! wid = Some l ->
  goroutines s !! l = Some (MkGo e (PhaseRealtime ps)) -> WorkflowID e = wid ->
  let l' := fresh (dom (goroutines s)) in
  let s' := steps marshal unmarshal execute query s
    [CallStop wid t1; RunStep l t2; RunStep l t3; CallStart wid uid uuid t4; RunStep l' t5] in
  Offsets ∘ exec <$> goroutines s' !! l' = Some ∅.
Proof.
  intros Hmu Hre Hr Hg Hwid l' s'.
  destruct (stop_realtime marshal wid uuid l e ps t1 s Hre Hr Hg) as (Hre1 & _ & Hg1).
  destruct (end_realtime marshal unmarshal execute query Hmu wid uuid l e ps t2 t3
    (StopExecution marshal wid t1 s).2) as (Hre2 & Hn2 & Hd2 & Ho2 & _); [done|done| |].
  { rewrite Hg1. apply lookup_insert_eq. }
  rewrite Hg1, (dom_insert_lookup_L _ l) in Hd2 by eauto.
  pose proof (start_realtime marshal unmarshal execute query wid uid uuid t4 t5 _ Hre2 Hn2) as Hs.
  rewrite Hd2, Ho2 in Hs. exact Hs.
Qed.

Definition polling_execute (p : WorkflowPipeline) : PipelineExecutionResult :=
  MkResult (ID p) (Name p) "completed" 5 0 7.
Definition polling_service : Service :=
  steps demo_marshal demo_unmarshal polling_execute queryDataTypeRecords
    (NewExecutionService (MkDB {["w" := MkWorkflowRow "realtime" "idle" [zero_pipeline] None]} ∅ ∅) (Some ∅))
    [CallStart "w" "u" "e1" 1; RunStep 0 2; RunTick 0 3].
Definition polling_exec : WorkflowExecution := MkExec "w" "e1" "realtime" 1 false {["" := 7%Z]}.

Lemma offsets_are_lost_on_restart_witness :
  goroutines polling_service !! 0 = Some (MkGo polling_exec (PhaseRealtime [zero_pipeline])) /\
  let l' := fresh (dom (goroutines polling_service)) in
  let s' := steps demo_marshal demo_unmarshal polling_execute queryDataTypeRecords polling_service
    [CallStop "w" 4; RunStep 0 5; RunStep 0 6; CallStart "w" "u" "e2" 7; RunStep l' 8] in
  Offsets ∘ exec <$> goroutines s' !! l' = Some ∅.
Proof.
  split; [vm_compute; reflexivity|].
  apply (offsets_are_lost_on_restart demo_marshal demo_unmarshal polling_execute queryDataTypeRecords
    "w" "u" "e2" 0 polling_exec [zero_pipeline] 4 5 6 7 8 polling_service).
  - exact demo_unmarshal_string.
  - split; [vm_compute; eauto | vm_compute; reflexivity | vm_compute; reflexivity].
  - vm_compute. reflexivity.
  - vm_compute. reflexivity.
  - reflexivity.
Defined.

(** ** Hourly statistics add up *)

(** One sample: time, workflow, pipeline, name and result. *)
Record Sample := MkSample {
  s_now : Z;
  s_workflow : string;
  s_pipeline : string;
  s_name : string;
  s_result : PipelineExecutionResult
}.

Definition record_sample (d : DB) (x : Sample) : DB :=
  updateHourlyStats (s_now x) (s_workflow x) (s_pipeline x) (s_name x) (s_result x) d.

Definition sample_key (x : Sample) : string * Z := (s_pipeline x, truncate_hour (s_now x)).

Definition sum_samples (f : PipelineExecutionResult -> Z) (k : string * Z) (xs : list Sample) : Z :=
  foldr (fun x acc => (if bool_decide (sample_key x = k) then f (s_result x) else 0) + acc)%Z 0%Z xs.

(** What a bucket holds: nothing, or the sums of its samples. *)
Definition bucket_of (k : string * Z) (d : DB) (xs : list Sample) : Prop :=
  match hourly d !! k with
  | None => Forall (fun x => sample_key x <> k) xs
  | Some h =>
      eqm (HRecordsCollected h) (sum_samples RecordsProcessed k xs) /\
      eqm (HRecordsProcessed h) (sum_samples RecordsProcessed k xs) /\
      eqm (HCollectionErrors h) (sum_samples RecordsFailed k xs) /\
      eqm (HSampleCount h) (sum_samples (fun _ => 1%Z) k xs)
  end.

Lemma sum_samples_snoc f k xs x :
  sum_samples f k (xs ++ [x])
  = (sum_samples f k xs + if bool_decide (sample_key x = k) then f (s_result x) else 0)%Z.
Proof.
  induction xs as [|y xs IH]; simpl; [lia|]. unfold sum_samples in *. simpl. rewrite IH. lia.
Qed.

Lemma sum_samples_none f k xs : Forall (fun x => sample_key x <> k) xs -> sum_samples f k xs = 0%Z.
Proof.
  induction 1 as [|x xs Hx _ IH]; [done|]. unfold sum_samples in *. simpl. by rewrite bool_decide_eq_false_2, IH.
Qed.

Lemma record_sample_bucket k d x xs : bucket_of k d xs -> bucket_of k (record_sample d x) (xs ++ [x]).
Proof.
  unfold bucket_of, record_sample, updateHourlyStats. simpl. fold (sample_key x). intros Hb.
  rewrite lookup_insert. case_decide as Hk.
  - subst k. rewrite !sum_samples_snoc, !bool_decide_eq_true_2 by done.
    destruct (hourly d !! sample_key x) as [h|]; simpl.
    + destruct Hb as (H1 & H2 & H3 & H4). rewrite !wrap_eqm, H1, H2, H3, H4. done.
    + by rewrite !(sum_samples_none _ _ _ Hb), !Z.add_0_l.
  - destruct (hourly d !! k) as [h|].
    + rewrite !sum_samples_snoc, !bool_decide_eq_false_2 by done. by rewrite !Z.add_0_r.
    + rewrite Forall_app, Forall_singleton. done.
Qed.

(** The hourly rows of a pipeline add up (modulo the width of a counter): after any
    sequence of samples, the row of a pipeline and an hour exists if there was a sample
    for it, and holds the sums of the records, failures and samples of that hour. *)
Theorem hourly_rows_add_up (d : DB) (xs : list Sample) (k : string * Z) :
  hourly d = ∅ -> bucket_of k (foldl record_sample d xs) xs.
Proof.
  intros Hd. induction xs as [|x xs IH] using rev_ind.
  - unfold bucket_of. simpl. rewrite Hd, lookup_empty. apply Forall_nil_2.
  - rewrite foldl_app. simpl. by apply record_sample_bucket.
Qed.
