(* ===== verification/Scheduler.v ===== *)
(** * The scheduler service (control-plane/internal/services/scheduler_service.go)

    Workflows with a cron schedule are jobs of a cron library, which is a parameter: the
    class [CronLib] has its operations and [CronLaws] what its documentation says of
    them. The rows of the database, the executions that were created and the commands
    that were published are part of the state. A trigger reads the row of a workflow and
    writes it later without a lock, so checking and committing are separate. *)

From Stdlib Require Import String.
From S2P Require Import Prelude GoString GoValue GoTime.
Local Open Scope string_scope.
Local Open Scope list_scope.

(** ** The cron library *)

(** [cron_jobs] are the entries that will fire, with the workflow of their job. *)
Class CronLib := {
  Cron : Type;
  cron_New : Cron;
  cron_AddJob : string -> string -> Cron -> option (nat * Cron);
  cron_Remove : nat -> Cron -> Cron;
  cron_Start : Cron -> Cron;
  cron_Stop : Cron -> Cron;
  cron_Next : nat -> Cron -> Z;
  cron_jobs : Cron -> gmap nat string
}.

Class CronLaws (L : CronLib) : Prop := {
  cron_new_law : cron_jobs cron_New = ∅;
  cron_add_law : forall expr wid c id c', cron_AddJob expr wid c = Some (id, c') ->
    cron_jobs c !! id = None /\ cron_jobs c' = <[id := wid]> (cron_jobs c);
  cron_remove_law : forall id c, cron_jobs (cron_Remove id c) = delete id (cron_jobs c);
  cron_start_law : forall c, cron_jobs (cron_Start c) = cron_jobs c;
  cron_stop_law : forall c, cron_jobs (cron_Stop c) = cron_jobs c
}.

(** ** Data *)

(** The columns of a workflow that the scheduler uses. *)
Record Workflow := MkWorkflow {
  WName : string;
  WType : string;
  ExecutionMode : string;
  WStatus : string;
  ScheduleEnabled : bool;
  ScheduleType : string;
  ScheduleCron : string;
  PipelinesConfig : string;
  LastRunAt : option Z;
  NextRunAt : option Z
}.

Record WorkflowExecution := MkExecution {
  XWorkflowID : string;
  XStatus : string;
  XStartedAt : Z;
  XTriggeredBy : string;
  XTriggeredByID : string
}.

(** A command published to the agents. *)
Record WorkflowExecutionCommand := MkCommand {
  CWorkflowID : string;
  CExecutionID : string;
  CTriggeredBy : string;
  CUserID : string
}.

Definition set_status (st : string) (last : option Z) (w : Workflow) : Workflow :=
  MkWorkflow (WName w) (WType w) (ExecutionMode w) st (ScheduleEnabled w) (ScheduleType w)
    (ScheduleCron w) (PipelinesConfig w) last (NextRunAt w).
Definition set_next (n : Z) (w : Workflow) : Workflow :=
  MkWorkflow (WName w) (WType w) (ExecutionMode w) (WStatus w) (ScheduleEnabled w) (ScheduleType w)
    (ScheduleCron w) (PipelinesConfig w) (LastRunAt w) (Some n).

Section Scheduler.
Context {L : CronLib}.
(** Whether the JSON of the pipelines of a workflow can be decoded. *)
Context (pipelines_ok : string -> bool).
(** The order in which the database returns rows. *)
Context (select : gmap string Workflow -> list (string * Workflow)).

Record SchedulerService := MkScheduler {
  cron : Cron;
  jobs : gmap string nat;
  running : bool;
  workflows : gmap string Workflow;
  executions : gmap string WorkflowExecution;
  published : list WorkflowExecutionCommand
}.

Definition set_cron (c : Cron) (j : gmap string nat) (s : SchedulerService) : SchedulerService :=
  MkScheduler c j (running s) (workflows s) (executions s) (published s).
Definition set_flag (b : bool) (s : SchedulerService) : SchedulerService :=
  MkScheduler (cron s) (jobs s) b (workflows s) (executions s) (published s).
Definition set_workflows (w : gmap string Workflow) (s : SchedulerService) : SchedulerService :=
  MkScheduler (cron s) (jobs s) (running s) w (executions s) (published s).

Definition NewSchedulerService (ws : gmap string Workflow) : SchedulerService :=
  MkScheduler cron_New ∅ false ws ∅ [].

(** ** Schedules *)

(** The removal at the start of [addScheduleInternal] and in [RemoveSchedule]. *)
Definition RemoveSchedule (workflowID : string) (s : SchedulerService) : SchedulerService :=
  match jobs s !! workflowID with
  | Some id => set_cron (cron_Remove id (cron s)) (delete workflowID (jobs s)) s
  | None => s
  end.

Definition addScheduleInternal (workflowID : string) (w : Workflow) (s : SchedulerService)
  : res string unit * SchedulerService :=
  let s := RemoveSchedule workflowID s in
  if negb (ScheduleEnabled w) || (ScheduleCron w =? "") then (Ok tt, s)
  else
    match cron_AddJob (ScheduleCron w) workflowID (cron s) with
    | None => (Err ("invalid cron expression '" +:+ ScheduleCron w +:+ "'"), s)
    | Some (id, c) =>
        let s := set_cron c (<[workflowID := id]> (jobs s)) s in
        (Ok tt, set_workflows (alter (set_next (cron_Next id c)) workflowID (workflows s)) s)
    end.

Definition AddSchedule := addScheduleInternal.
Definition UpdateSchedule := AddSchedule.

(** The condition of the query of [loadSchedules]. *)
Definition is_scheduled (w : Workflow) : bool :=
  (WType w =? "batch") && ScheduleEnabled w && (ScheduleType w =? "cron").

Definition loadSchedules (s : SchedulerService) : SchedulerService :=
  foldl (fun s x => (addScheduleInternal x.1 x.2 s).2) s
    (List.filter (fun x => is_scheduled x.2) (select (workflows s))).

Definition Start (s : SchedulerService) : SchedulerService :=
  if running s then s
  else
    let s := loadSchedules (set_flag true s) in
    set_cron (cron_Start (cron s)) (jobs s) s.

Definition Stop (s : SchedulerService) : SchedulerService :=
  if running s then set_flag false (set_cron (cron_Stop (cron s)) (jobs s) s) else s.

Definition GetScheduleInfo (workflowID : string) (s : SchedulerService) : option (string * Z) :=
  (fun id => (workflowID, cron_Next id (cron s))) <$> jobs s !! workflowID.
Definition GetActiveScheduleCount (s : SchedulerService) : nat := size (jobs s).

(** ** Executions *)

(** [publishWorkflowExecution]; [healthy] is the state of the Redis service. *)
Definition publishWorkflowExecution (healthy : bool) (workflowID : string) (w : Workflow)
  (uuid triggeredBy userID : string) (s : SchedulerService) : SchedulerService :=
  if healthy && ((PipelinesConfig w =? "") || pipelines_ok (PipelinesConfig w))
  then MkScheduler (cron s) (jobs s) (running s) (workflows s) (executions s)
         (published s ++ [MkCommand workflowID uuid triggeredBy userID])
  else s.

(** The row of an execution and the new status of the workflow. *)
Definition create_execution (uuid workflowID : string) (now : Z) (triggeredBy userID : string)
  (s : SchedulerService) : option SchedulerService :=
  match executions s !! uuid with
  | Some _ => None
  | None =>
      Some (MkScheduler (cron s) (jobs s) (running s)
        (alter (set_status "running" (Some now)) workflowID (workflows s))
        (<[uuid := MkExecution workflowID "running" now triggeredBy userID]> (executions s))
        (published s))
  end.

(** [TriggerNow] up to its checks, and the rest. *)
Definition trigger_check (workflowID : string) (s : SchedulerService) : res string Workflow :=
  match workflows s !! workflowID with
  | None => Err "workflow not found"
  | Some w =>
      if negb (WType w =? "batch") then Err "only batch workflows can be triggered manually"
      else if WStatus w =? "running" then Err "workflow is already running"
      else Ok w
  end.

Definition trigger_commit (healthy : bool) (workflowID userID uuid : string) (now : Z) (w : Workflow)
  (s : SchedulerService) : res string unit * SchedulerService :=
  match create_execution uuid workflowID now "user" userID s with
  | None => (Err "failed to create execution record", s)
  | Some s => (Ok tt, publishWorkflowExecution healthy workflowID w uuid "user" userID s)
  end.

Definition TriggerNow (healthy : bool) (workflowID userID uuid : string) (now : Z) (s : SchedulerService)
  : res string unit * SchedulerService :=
  match trigger_check workflowID s with
  | Ok w => trigger_commit healthy workflowID userID uuid now w s
  | Err e => (Err e, s)
  | Panic => (Panic, s)
  end.

(** [Run] of a scheduled job. *)
Definition job_commit (healthy : bool) (workflowID uuid : string) (now : Z) (w : Workflow)
  (s : SchedulerService) : SchedulerService :=
  match create_execution uuid workflowID now "schedule" "" s with
  | None => s
  | Some s =>
      let s := match jobs s !! workflowID with
               | Some id => set_workflows (alter (set_next (cron_Next id (cron s))) workflowID (workflows s)) s
               | None => s
               end in
      publishWorkflowExecution healthy workflowID w uuid "schedule" "" s
  end.

Definition Run (healthy : bool) (workflowID uuid : string) (now : Z) (s : SchedulerService)
  : SchedulerService :=
  match workflows s !! workflowID with
  | None => s
  | Some w =>
      if negb (ScheduleEnabled w) then RemoveSchedule workflowID s
      else if WStatus w =? "running" then s
      else job_commit healthy workflowID uuid now w s
  end.

(** ** Behaviours *)

Inductive Label :=
| LStart
| LStop
| LAdd (workflowID : string) (w : Workflow)
| LRemove (workflowID : string)
| LTrigger (healthy : bool) (workflowID userID uuid : string) (now : Z)
| LFire (healthy : bool) (id : nat) (uuid : string) (now : Z)
| LSave (workflowID : string) (w : Workflow).

(** [LFire] is the cron library running the job of an entry; [LSave] is a write of other
    parts of the program to the row of a workflow. *)
Definition step (s : SchedulerService) (a : Label) : SchedulerService :=
  match a with
  | LStart => Start s
  | LStop => Stop s
  | LAdd wid w => (AddSchedule wid w s).2
  | LRemove wid => RemoveSchedule wid s
  | LTrigger healthy wid uid uuid now => (TriggerNow healthy wid uid uuid now s).2
  | LFire healthy id uuid now =>
      match cron_jobs (cron s) !! id with
      | Some wid => Run healthy wid uuid now s
      | None => s
      end
  | LSave wid w => set_workflows (<[wid := w]> (workflows s)) s
  end.

Definition steps (s : SchedulerService) (ls : list Label) : SchedulerService := foldl step s ls.
End Scheduler.
Arguments SchedulerService L : clear implicits.

(** ** Jobs and entries of the cron library *)

Section Proofs.
Context {L : CronLib} `{!CronLaws L}.
Context (pipelines_ok : string -> bool).
Context (select : gmap string Workflow -> list (string * Workflow)).
Implicit Types s : SchedulerService L.
#[local] Abbreviation step := (step pipelines_ok select).
#[local] Abbreviation steps := (steps pipelines_ok select).

(** The map of jobs and the entries of the cron library are inverse to each other. *)
Definition entries_match s : Prop :=
  forall wid id, jobs s !! wid = Some id <-> cron_jobs (cron s) !! id = Some wid.

Lemma RemoveSchedule_match wid s :
  entries_match s -> entries_match (RemoveSchedule wid s) /\ jobs (RemoveSchedule wid s) = delete wid (jobs s).
Proof.
  intros Hm. unfold RemoveSchedule. destruct (jobs s !! wid) as [id|] eqn:E.
  - split; [|done]. intros wid' id'. simpl. rewrite cron_remove_law, !lookup_delete_Some, (Hm wid' id').
    apply Hm in E as E'. split; intros [Hne Hv]; (split; [|done]); intros ->; simplify_eq.
    apply Hm in Hv. simplify_eq.
  - split; [done|]. by rewrite delete_id.
Qed.

Lemma addScheduleInternal_match wid w s :
  entries_match s -> entries_match (addScheduleInternal wid w s).2.
Proof.
  intros Hm. unfold addScheduleInternal. destruct (RemoveSchedule_match wid s Hm) as [Hm' Hj].
  set (s1 := RemoveSchedule wid s) in *. destruct (_ || _); [done|].
  destruct (cron_AddJob (ScheduleCron w) wid (cron s1)) as [[id c]|] eqn:Ea; [|done].
  apply cron_add_law in Ea as [Hf Hc]. intros wid' id'. simpl.
  rewrite Hc, !lookup_insert_Some, (Hm' wid' id'). split.
  - intros [[-> ->]|[Hne Hv]]; [by left|]. right. split; [congruence|done].
  - intros [[-> ->]|[Hne Hv]]; [by left|]. right. split; [|done]. intros ->.
    apply Hm' in Hv. rewrite Hj, lookup_delete_eq in Hv. done.
Qed.

Lemma loadSchedules_match s : entries_match s -> entries_match (loadSchedules select s).
Proof.
  unfold loadSchedules. generalize (List.filter (fun x => is_scheduled x.2) (select (workflows s))).
  intros l. revert s. induction l as [|x l IH]; intros s Hm; [done|]. simpl.
  by apply IH, addScheduleInternal_match.
Qed.

(** An operation that leaves the schedules alone. *)
Definition same_schedules s s' : Prop := jobs s' = jobs s /\ cron s' = cron s.

Lemma same_schedules_match s s' : same_schedules s s' -> entries_match s -> entries_match s'.
Proof. intros [E1 E2] Hm wid id. by rewrite E1, E2. Qed.

Lemma same_schedules_trans s1 s2 s3 : same_schedules s1 s2 -> same_schedules s2 s3 -> same_schedules s1 s3.
Proof. intros [E1 E2] [E3 E4]. split; congruence. Qed.

Lemma publish_same h wid w uuid t u s :
  same_schedules s (publishWorkflowExecution pipelines_ok h wid w uuid t u s).
Proof. unfold publishWorkflowExecution. by destruct (_ && _). Qed.

Lemma create_same uuid wid now t u s s' : create_execution uuid wid now t u s = Some s' -> same_schedules s s'.
Proof. unfold create_execution. intros. split_matches. done. Qed.

Lemma trigger_same h wid uid uuid now s :
  same_schedules s (TriggerNow pipelines_ok h wid uid uuid now s).2.
Proof.
  unfold TriggerNow. destruct (trigger_check wid s) as [w| |]; [|done..]. unfold trigger_commit.
  destruct (create_execution uuid wid now "user" uid s) as [s'|] eqn:E; [|done]. simpl.
  eapply same_schedules_trans; [by eapply create_same | apply publish_same].
Qed.

Lemma job_commit_same h wid uuid now w s : same_schedules s (job_commit pipelines_ok h wid uuid now w s).
Proof.
  unfold job_commit. destruct (create_execution uuid wid now "schedule" "" s) as [s'|] eqn:E; [|done].
  eapply same_schedules_trans; [by eapply create_same|].
  destruct (jobs s' !! wid); [|apply publish_same].
  eapply same_schedules_trans; [|apply publish_same]. done.
Qed.

Lemma Run_match h wid uuid now s : entries_match s -> entries_match (Run pipelines_ok h wid uuid now s).
Proof.
  intros Hm. unfold Run. destruct (workflows s !! wid) as [w|]; [|done].
  destruct (negb (ScheduleEnabled w)); [by apply RemoveSchedule_match|].
  destruct (WStatus w =? "running"); [done|]. eapply same_schedules_match; [apply job_commit_same | done].
Qed.

Lemma step_match s a : entries_match s -> entries_match (step s a).
Proof.
  intros Hm. destruct a as [| |wid w|wid|h wid uid uuid now|h id uuid now|wid w]; simpl.
  - unfold Start. destruct (running s); [done|].
    assert (entries_match (loadSchedules select (set_flag true s))) as Hm'.
    { apply loadSchedules_match. exact Hm. }
    intros wid id. simpl. rewrite cron_start_law. apply Hm'.
  - unfold Stop. destruct (running s); [|done]. intros wid id. simpl. rewrite cron_stop_law. apply Hm.
  - by apply addScheduleInternal_match.
  - by apply RemoveSchedule_match.
  - eapply same_schedules_match; [apply trigger_same | done].
  - destruct (cron_jobs (cron s) !! id); [by apply Run_match | done].
  - exact Hm.
Qed.

Lemma steps_match s ls : entries_match s -> entries_match (steps s ls).
Proof. revert s. induction ls as [|a ls IH]; intros s Hm; [done|]. by apply IH, step_match. Qed.

Lemma new_match ws : entries_match (NewSchedulerService ws).
Proof. intros wid id. simpl. by rewrite cron_new_law, !lookup_empty. Qed.

(** ** Executions *)

Definition blocked (wid : string) s : Prop := exists w, workflows s !! wid = Some w /\ WStatus w = "running".

(** The executions of a workflow. *)
Definition executions_of (wid : string) s : gmap string WorkflowExecution :=
  filter (fun x => XWorkflowID x.2 = wid) (executions s).

(** Nothing is started for the workflow, and its status stays running. *)
Definition holds_back (wid : string) s s' : Prop :=
  blocked wid s -> blocked wid s' /\ executions_of wid s' = executions_of wid s.

Lemma holds_back_trans wid s1 s2 s3 : holds_back wid s1 s2 -> holds_back wid s2 s3 -> holds_back wid s1 s3.
Proof. intros H1 H2 Hb. destruct (H1 Hb) as [Hb2 E2]. destruct (H2 Hb2) as [? E3]. split; congruence. Qed.

Lemma blocked_alter wid wid' f s :
  (forall w, WStatus w = "running" -> WStatus (f w) = "running") ->
  blocked wid s -> exists w, alter f wid' (workflows s) !! wid = Some w /\ WStatus w = "running".
Proof.
  intros Hf (w & Hw & Hr). destruct (decide (wid' = wid)) as [->|Hne].
  - exists (f w). rewrite lookup_alter_eq, Hw. auto.
  - exists w. by rewrite lookup_alter_ne.
Qed.

Lemma add_holds_back wid wid' w s : holds_back wid s (addScheduleInternal wid' w s).2.
Proof.
  intros Hb. unfold addScheduleInternal.
  assert (workflows (RemoveSchedule wid' s) = workflows s /\ executions (RemoveSchedule wid' s) = executions s)
    as [Ew Ee] by (unfold RemoveSchedule; by destruct (jobs s !! wid')).
  assert (blocked wid (RemoveSchedule wid' s)) as Hb1 by (unfold blocked; by rewrite Ew).
  destruct (_ || _); [split; [done|]; unfold executions_of; simpl; by rewrite Ee|].
  destruct (cron_AddJob _ _ _) as [[id c]|]; (split; [|unfold executions_of; simpl; by rewrite Ee]); [|done].
  unfold blocked. simpl. rewrite Ew. by apply blocked_alter.
Qed.

Lemma create_holds_back wid wid' uuid now t u s s' :
  create_execution uuid wid' now t u s = Some s' -> wid' <> wid -> holds_back wid s s'.
Proof.
  unfold create_execution. destruct (executions s !! uuid) as [|] eqn:Eu; [done|]. intros [= <-] Hne Hb.
  split; [unfold blocked; simpl; by apply blocked_alter|]. unfold executions_of. simpl.
  apply map_filter_insert_not'; [done|]. intros y Hy. congruence.
Qed.

Lemma publish_holds_back wid h wid' w uuid t u s :
  holds_back wid s (publishWorkflowExecution pipelines_ok h wid' w uuid t u s).
Proof. unfold publishWorkflowExecution. by destruct (_ && _). Qed.

Lemma trigger_holds_back wid h wid' uid uuid now s :
  holds_back wid s (TriggerNow pipelines_ok h wid' uid uuid now s).2.
Proof.
  unfold TriggerNow, trigger_check. destruct (workflows s !! wid') as [w|] eqn:Ew; [|done].
  destruct (negb _); [done|]. destruct (WStatus w =? "running") eqn:Es; [done|]. unfold trigger_commit.
  destruct (create_execution uuid wid' now "user" uid s) as [s'|] eqn:E; [|done]. simpl.
  destruct (decide (wid' = wid)) as [->|Hne].
  - intros (w' & Hw' & Hr). bool_props. congruence.
  - eapply holds_back_trans; [by eapply create_holds_back | apply publish_holds_back].
Qed.

Lemma run_holds_back wid h wid' uuid now s : holds_back wid s (Run pipelines_ok h wid' uuid now s).
Proof.
  unfold Run. destruct (workflows s !! wid') as [w|] eqn:Ew; [|done].
  destruct (negb _); [unfold RemoveSchedule; by destruct (jobs s !! wid')|].
  destruct (WStatus w =? "running") eqn:Es; [done|]. unfold job_commit.
  destruct (create_execution uuid wid' now "schedule" "" s) as [s'|] eqn:E; [|done].
  destruct (decide (wid' = wid)) as [->|Hne].
  { intros (w' & Hw' & Hr). bool_props. congruence. }
  eapply holds_back_trans; [by eapply create_holds_back|].
  eapply holds_back_trans; [|apply publish_holds_back].
  destruct (jobs s' !! wid'); [|done]. intros Hb. split; [|done]. unfold blocked. simpl. by apply blocked_alter.
Qed.

Definition saves (wid : string) (a : Label) : bool :=
  match a with LSave wid' _ => wid' =? wid | _ => false end.

Lemma load_holds_back wid s : holds_back wid s (loadSchedules select s).
Proof.
  unfold loadSchedules. generalize (List.filter (fun x => is_scheduled x.2) (select (workflows s))).
  intros l. revert s. induction l as [|x l IH]; intros s; [done|]. simpl.
  eapply holds_back_trans; [apply add_holds_back | apply IH].
Qed.

Lemma step_holds_back wid s a : saves wid a = false -> holds_back wid s (step s a).
Proof.
  destruct a as [| |wid' w|wid'|h wid' uid uuid now|h id uuid now|wid' w]; simpl; intros Hs.
  - unfold Start. destruct (running s); [done|]. intros Hb.
    destruct (load_holds_back wid (set_flag true s) Hb) as [Hb' E]. done.
  - unfold Stop. by destruct (running s).
  - apply add_holds_back.
  - unfold RemoveSchedule. by destruct (jobs s !! wid').
  - apply trigger_holds_back.
  - destruct (cron_jobs (cron s) !! id); [apply run_holds_back | done].
  - bool_props. intros (w' & Hw' & Hr). split; [|done]. exists w'. simpl.
    by rewrite lookup_insert_ne.
Qed.

Lemma steps_hold_back wid s ls :
  Forall (fun a => saves wid a = false) ls -> holds_back wid s (steps s ls).
Proof.
  revert s. induction ls as [|a ls IH]; intros s Hs; [done|]. apply Forall_cons in Hs as [Ha Hs].
  eapply holds_back_trans; [by apply step_holds_back | by apply IH].
Qed.
End Proofs.

(** The scheduler and the cron library agree. After any sequence of starts, stops,
    added, changed and removed schedules, triggers and firing jobs, the map of jobs and
    the entries of the cron library are inverse to each other: a scheduled workflow
    has exactly one entry, and no entry is left behind by an update or a removal. *)
Theorem scheduler_entries_match {L : CronLib} `{!CronLaws L} (pipelines_ok : string -> bool)
    (select : gmap string Workflow -> list (string * Workflow)) (ws : gmap string Workflow)
    (ls : list Label) (wid : string) (id : nat) :
  let s := steps pipelines_ok select (NewSchedulerService ws) ls in
  jobs s !! wid = Some id <-> cron_jobs (cron s) !! id = Some wid.
Proof. apply steps_match, new_match; done. Qed.

(** C20: No overlapping scheduled executions. While the status of a workflow is running,
    no sequence of schedule changes, triggers and firing jobs creates another
    execution of it: only a write of the status by another part of the program lets
    the next one start. *)
Theorem running_workflow_is_not_started {L : CronLib} (pipelines_ok : string -> bool)
    (select : gmap string Workflow -> list (string * Workflow)) (s : SchedulerService L)
    (wid : string) (ls : list Label) :
  blocked wid s -> Forall (fun a => saves wid a = false) ls ->
  executions_of wid (steps pipelines_ok select s ls) = executions_of wid s.
Proof. intros Hb Hs. by apply (steps_hold_back pipelines_ok select wid s ls Hs). Qed.

(** ** A cron library for concrete runs *)

(** Five fields separated by blanks make an expression. *)
#[export] Instance demo_cron : CronLib := {
  Cron := gmap nat string;
  cron_New := ∅;
  cron_AddJob expr wid c :=
    if (length (Split expr " ") =? 5)%nat
    then let id := fresh (dom c) in Some (id, <[id := wid]> c) else None;
  cron_Remove id c := delete id c;
  cron_Start c := c;
  cron_Stop c := c;
  cron_Next id c := 0%Z;
  cron_jobs c := c
}.

#[export] Instance demo_cron_laws : CronLaws demo_cron.
Proof.
  split; try done. simpl. intros expr wid c id c'. destruct (_ =? 5)%nat; [|done].
  intros [= <- <-]. split; [|done]. apply not_elem_of_dom, is_fresh.
Qed.

Definition demo_workflow (expr status : string) : Workflow :=
  MkWorkflow "n" "batch" "parallel" status true "cron" expr "" None None.
Definition demo_labels : list Label :=
  [LStart; LAdd "v" (demo_workflow "0 * * * *" "idle"); LAdd "w" (demo_workflow "5 * * * *" "idle");
   LFire true 0 "e1" 3; LRemove "v"].
Definition demo_scheduler : SchedulerService demo_cron :=
  NewSchedulerService {["w" := demo_workflow "0 * * * *" "idle"]}.

Lemma scheduler_entries_match_witness :
  let s := steps (fun _ => true) map_to_list demo_scheduler demo_labels in
  jobs s !! "w" = Some 0 <-> cron_jobs (cron s) !! 0 = Some "w".
Proof.
  apply (@scheduler_entries_match demo_cron demo_cron_laws (fun _ => true) map_to_list
    {["w" := demo_workflow "0 * * * *" "idle"]} demo_labels "w" 0).
Defined.

Definition blocked_scheduler : SchedulerService demo_cron :=
  steps (fun _ => true) map_to_list demo_scheduler [LStart; LTrigger true "w" "u" "e1" 1].

Lemma running_workflow_is_not_started_witness :
  blocked "w" blocked_scheduler /\
  executions_of "w" (steps (fun _ => true) map_to_list blocked_scheduler demo_labels)
  = executions_of "w" blocked_scheduler.
Proof.
  assert (blocked "w" blocked_scheduler) as Hb.
  { eexists. split; [vm_compute; reflexivity|]. reflexivity. }
  split; [exact Hb|].
  apply (@running_workflow_is_not_started demo_cron (fun _ => true) map_to_list blocked_scheduler
    "w" demo_labels Hb). repeat constructor.
Defined.

(** ** Behaviours the service does not mean to have *)

(** Replacing a schedule by one with an invalid expression reports the error and leaves
    the workflow without a schedule. *)
Theorem failed_update_removes_schedule {L : CronLib} (wid : string) (w : Workflow) (s : SchedulerService L) :
  ScheduleEnabled w = true -> ScheduleCron w <> "" ->
  cron_AddJob (ScheduleCron w) wid (cron (RemoveSchedule wid s)) = None ->
  is_err (UpdateSchedule wid w s).1 = true /\ jobs (UpdateSchedule wid w s).2 !! wid = None.
Proof.
  intros He Hc Ha. unfold UpdateSchedule, AddSchedule, addScheduleInternal. rewrite He. simpl.
  destruct (String.eqb_spec (ScheduleCron w) ""); [done|]. rewrite Ha. simpl. split; [done|].
  unfold RemoveSchedule. destruct (jobs s !! wid) eqn:E; simpl; [apply lookup_delete_eq | done].
Qed.

(** A lost command blocks a workflow. When a job fires or a trigger succeeds while Redis
    is unavailable, the execution is recorded and the workflow marked as running, but
    nothing is published; from then on every job and trigger of the workflow is
    refused until another part of the program resets the status. *)
Theorem unpublished_execution_blocks_workflow {L : CronLib} (pipelines_ok : string -> bool)
    (select : gmap string Workflow -> list (string * Workflow)) (s : SchedulerService L)
    (wid uuid : string) (now : Z) (w : Workflow) (ls : list Label) :
  workflows s !! wid = Some w -> ScheduleEnabled w = true -> WStatus w <> "running" ->
  executions s !! uuid = None -> Forall (fun a => saves wid a = false) ls ->
  let s' := Run pipelines_ok false wid uuid now s in
  published s' = published s /\ XStatus <$> executions s' !! uuid = Some "running" /\
  executions_of wid (steps pipelines_ok select s' ls) = executions_of wid s'.
Proof.
  intros Hw He Hs Hu Hls. unfold Run. rewrite Hw, He. simpl.
  destruct (String.eqb_spec (WStatus w) "running"); [done|].
  unfold job_commit, create_execution. rewrite Hu. simpl. set (s1 := MkScheduler _ _ _ _ _ _).
  assert (blocked wid s1) as Hb.
  { exists (set_status "running" (Some now) w). split; [|done]. simpl. by rewrite lookup_alter_eq, Hw. }
  destruct (jobs s !! wid) as [id|]; simpl; (split; [done|]);
    (split; [by rewrite lookup_insert_eq|]); apply (steps_hold_back pipelines_ok select wid _ ls Hls); [|done].
  unfold blocked. simpl. by apply (blocked_alter wid wid _ s1).
Qed.

Lemma unpublished_execution_blocks_workflow_witness :
  let s' := Run (fun _ => true) false "w" "e1" 1 demo_scheduler in
  published s' = [] /\ XStatus <$> executions s' !! "e1" = Some "running" /\
  executions_of "w" (steps (fun _ => true) map_to_list s' demo_labels) = executions_of "w" s'.
Proof.
  apply (@unpublished_execution_blocks_workflow demo_cron (fun _ => true) map_to_list demo_scheduler
    "w" "e1" 1 (demo_workflow "0 * * * *" "idle") demo_labels).
  - vm_compute. reflexivity.
  - reflexivity.
  - discriminate.
  - vm_compute. reflexivity.
  - repeat constructor.
Defined.

(** Two triggers that both check before either commits both start the workflow. *)
Example concurrent_triggers_start_twice :
  let s := demo_scheduler in
  match trigger_check "w" s, trigger_check "w" s with
  | Ok w1, Ok w2 =>
      let s1 := (trigger_commit (fun _ => true) true "w" "u1" "e1" 1 w1 s).2 in
      let s2 := (trigger_commit (fun _ => true) true "w" "u2" "e2" 2 w2 s1).2 in
      size (executions_of "w" s2) = 2 /\ length (published s2) = 2
  | _, _ => False
  end.
Proof. vm_compute. repeat split. Qed.
