(* ===== verification/RedisService.v ===== *)
(** * Commands to agents (control-plane/internal/services/redis_service.go)

    Commands that cannot be published are queued and published again when the connection
    comes back. Every recovery starts a goroutine that works on a copy of the queue; a
    label is a send, a change of the connection or one turn of such a goroutine. *)

From Stdlib Require Import String.
From S2P Require Import Prelude GoTime.
Local Open Scope string_scope.
Local Open Scope list_scope.

Inductive ConnectionState := StateDisconnected | StateConnecting | StateConnected.

#[export] Instance ConnectionState_eq_dec : EqDecision ConnectionState.
Proof. solve_decision. Defined.

Record AgentCommand := MkCmd {
  CmdID : string;
  CmdType : string;
  CmdPipelineID : string
}.

Record PendingCommand := MkPending {
  AgentID : string;
  Command : AgentCommand;
  CreatedAt : Z;
  Retries : Z
}.

(** The service, the remaining commands of each retry goroutine, what was published
    (channel and command) and what was given up, with the time. *)
Record RedisService := MkRedis {
  isHealthy : bool;
  pendingCommands : gmap string PendingCommand;
  retriers : list (list PendingCommand);
  delivered : list (string * AgentCommand);
  expired : list (AgentCommand * Z)
}.

Definition NewRedisService : RedisService := MkRedis false ∅ [] [] [].

Definition channel_of (agentID : string) : string := "agent:commands:" +:+ agentID.

Definition set_pending (m : gmap string PendingCommand) (s : RedisService) : RedisService :=
  MkRedis (isHealthy s) m (retriers s) (delivered s) (expired s).
Definition set_retriers (r : list (list PendingCommand)) (s : RedisService) : RedisService :=
  MkRedis (isHealthy s) (pendingCommands s) r (delivered s) (expired s).
Definition deliver (agentID : string) (c : AgentCommand) (s : RedisService) : RedisService :=
  MkRedis (isHealthy s) (pendingCommands s) (retriers s)
    (delivered s ++ [(channel_of agentID, c)]) (expired s).

Definition queuePendingCommand (agentID : string) (cmd : AgentCommand) (now : Z) (s : RedisService)
  : RedisService :=
  set_pending (<[CmdID cmd := MkPending agentID cmd now 0]> (pendingCommands s)) s.

(** [SendCommandToAgent]; [ok] says whether the client could publish. *)
Definition SendCommandToAgent (ok : bool) (agentID : string) (cmd : AgentCommand) (now : Z)
  (s : RedisService) : res string unit * RedisService :=
  if ok then (Ok tt, deliver agentID cmd s)
  else (Err "command queued for retry", queuePendingCommand agentID cmd now s).

(** One turn of the loop of [retryPendingCommands]. *)
Definition retry_one (ok : bool) (now : Z) (p : PendingCommand) (s : RedisService) : RedisService :=
  let id := CmdID (Command p) in
  if (24 * Hour <? now - CreatedAt p)%Z then
    MkRedis (isHealthy s) (delete id (pendingCommands s)) (retriers s) (delivered s)
      (expired s ++ [(Command p, now)])
  else if ok then
    let s := deliver (AgentID p) (Command p) s in
    set_pending (delete id (pendingCommands s)) s
  else
    set_pending (alter (fun q => MkPending (AgentID q) (Command q) (CreatedAt q)
      (int64_wrap (Retries q + 1))) id (pendingCommands s)) s.

Section Service.
(** The order in which Go ranges over the queue, and [EnableRetryQueue]. *)
Context (range_pending : gmap string PendingCommand -> list (string * PendingCommand)).
Context (enable_retry : bool).

(** The callback of the client for a new state. *)
Definition OnStateChange (new : ConnectionState) (s : RedisService) : RedisService :=
  let s := MkRedis (bool_decide (new = StateConnected)) (pendingCommands s) (retriers s)
             (delivered s) (expired s) in
  if bool_decide (new = StateConnected) && enable_retry
  then set_retriers (retriers s ++ [snd <$> range_pending (pendingCommands s)]) s
  else s.

Inductive Label :=
| LSend (ok : bool) (agentID : string) (cmd : AgentCommand) (now : Z)
| LState (new : ConnectionState)
| LRetry (i : nat) (ok : bool) (now : Z).

Definition step (s : RedisService) (a : Label) : RedisService :=
  match a with
  | LSend ok agentID cmd now => (SendCommandToAgent ok agentID cmd now s).2
  | LState new => OnStateChange new s
  | LRetry i ok now =>
      match retriers s !! i with
      | Some (p :: ps) => retry_one ok now p (set_retriers (<[i := ps]> (retriers s)) s)
      | _ => s
      end
  end.

Definition steps (s : RedisService) (ls : list Label) : RedisService := foldl step s ls.
End Service.

(** ** No command is lost *)

Definition sent (ls : list Label) : list AgentCommand :=
  omap (fun a => match a with LSend _ _ cmd _ => Some cmd | _ => None end) ls.

Section Proofs.
Context (range_pending : gmap string PendingCommand -> list (string * PendingCommand)).
Context (range_ok : forall m, range_pending m ≡ₚ map_to_list m).
Context (enable_retry : bool).
#[local] Abbreviation step := (step range_pending enable_retry).
#[local] Abbreviation steps := (steps range_pending enable_retry).

(** A command is published, given up or waiting under its identifier. *)
Definition accounted (c : AgentCommand) (s : RedisService) : Prop :=
  c ∈ map snd (delivered s) \/ c ∈ map fst (expired s) \/
  exists p, pendingCommands s !! CmdID c = Some p /\ Command p = c.

(** Commands with one identifier are one command, wherever they are. *)
Record well_keyed (cs : list AgentCommand) (s : RedisService) : Prop := {
  wk_unique : forall c c', c ∈ cs -> c' ∈ cs -> CmdID c = CmdID c' -> c = c';
  wk_pending : forall id p, pendingCommands s !! id = Some p -> CmdID (Command p) = id /\ Command p ∈ cs;
  wk_retriers : forall l p, l ∈ retriers s -> p ∈ l -> Command p ∈ cs
}.

Definition all_accounted (cs : list AgentCommand) (s : RedisService) : Prop :=
  well_keyed cs s /\ (forall c, c ∈ cs -> accounted c s).

Lemma retry_one_accounted ok now cs s p c :
  well_keyed cs s -> Command p ∈ cs -> c ∈ cs -> accounted c s -> accounted c (retry_one ok now p s).
Proof.
  intros [Hu Hp Hr] Hpc Hc [Hd|[He|(q & Hq & Eq)]]; unfold accounted, retry_one.
  - left. destruct (_ <? _)%Z; [done|]. destruct ok; simpl; [rewrite map_app; set_solver | done].
  - right. left. destruct (_ <? _)%Z; [simpl; rewrite map_app; set_solver|]. by destruct ok.
  - destruct (decide (CmdID (Command p) = CmdID c)) as [E|Hne].
    + apply Hu in E; [|done..]. rewrite E. destruct (_ <? _)%Z; [right; left; simpl; rewrite map_app; set_solver|].
      destruct ok; simpl; [left; rewrite map_app; set_solver|]. right. right.
      rewrite lookup_alter_eq, Hq. eexists. split; [done|]. done.
    + right. right. exists q. split; [|done].
      destruct (_ <? _)%Z; [simpl; by rewrite lookup_delete_ne|].
      destruct ok; simpl; [by rewrite lookup_delete_ne | by rewrite lookup_alter_ne].
Qed.

Lemma retry_one_keyed ok now cs s p : well_keyed cs s -> well_keyed cs (retry_one ok now p s).
Proof.
  intros [Hu Hp Hr]. unfold retry_one. destruct (_ <? _)%Z; [|destruct ok]; (split; [done| |done]); simpl.
  - intros id q [_ Hq]%lookup_delete_Some. by apply Hp.
  - intros id q [_ Hq]%lookup_delete_Some. by apply Hp.
  - intros id q. rewrite lookup_alter_Some. intros [(<- & q' & Hq & ->)|[_ Hq]]; simpl; by apply Hp.
Qed.

Lemma send_keyed ok agent cmd now cs s :
  (forall c c', c ∈ cs ++ [cmd] -> c' ∈ cs ++ [cmd] -> CmdID c = CmdID c' -> c = c') ->
  well_keyed cs s -> well_keyed (cs ++ [cmd]) (SendCommandToAgent ok agent cmd now s).2.
Proof.
  intros Hu' [Hu Hp Hr].
  assert (forall c, c ∈ cs -> c ∈ cs ++ [cmd]) as Hsub by (intros c Hc; apply elem_of_app; by left).
  assert (cmd ∈ cs ++ [cmd]) as Hcmd by (apply elem_of_app; right; by apply list_elem_of_singleton).
  destruct ok; (split; [done| |]); simpl; try (intros l p Hl Hin; apply Hsub; by eapply Hr).
  - intros id p Hq. destruct (Hp id p Hq). auto.
  - intros id p. rewrite lookup_insert_Some. intros [[<- <-]|[_ Hq]]; [done|].
    destruct (Hp id p Hq). auto.
Qed.

Lemma send_accounted ok agent cmd now cs s c :
  (forall c c', c ∈ cs ++ [cmd] -> c' ∈ cs ++ [cmd] -> CmdID c = CmdID c' -> c = c') ->
  (forall c, c ∈ cs -> accounted c s) -> c ∈ cs ++ [cmd] ->
  accounted c (SendCommandToAgent ok agent cmd now s).2.
Proof.
  intros Hu Ha Hc. unfold accounted. destruct ok; simpl.
  - rewrite map_app, elem_of_app. simpl. apply elem_of_app in Hc as [Hc|Hc].
    + destruct (Ha c Hc) as [Hd|[He|Hq]]; [left; by left|right; by left|right; by right].
    + left. right. done.
  - destruct (decide (CmdID cmd = CmdID c)) as [E|Hne].
    + right. right. exists (MkPending agent cmd now 0). rewrite E, lookup_insert_eq.
      split; [done|]. simpl. apply Hu; [|done|done]. apply elem_of_app. right. by apply list_elem_of_singleton.
    + rewrite lookup_insert_ne by done. apply elem_of_app in Hc as [Hc|Hc]; [by apply Ha|].
      apply list_elem_of_singleton in Hc as ->. done.
Qed.

Lemma step_accounted cs s a :
  (forall c c', c ∈ cs ++ sent [a] -> c' ∈ cs ++ sent [a] -> CmdID c = CmdID c' -> c = c') ->
  all_accounted cs s -> all_accounted (cs ++ sent [a]) (step s a).
Proof.
  intros Huniq [Hk Ha]. destruct a as [ok agent cmd now|new|i ok now]; simpl in *.
  - split; [by apply send_keyed|]. intros c Hc. by apply (send_accounted ok agent cmd now cs).
  - rewrite app_nil_r in *. unfold OnStateChange. destruct Hk as [Hu Hp Hr].
    destruct (bool_decide (new = StateConnected) && enable_retry); [|split; [by split | done]].
    split; [|done]. split; simpl; [done|done|]. intros l p [Hl|Hl]%elem_of_app Hin; [by eapply Hr|].
    apply list_elem_of_singleton in Hl as ->. apply list_elem_of_fmap in Hin as ([id q] & -> & Hin).
    rewrite range_ok, elem_of_map_to_list in Hin. by destruct (Hp _ _ Hin).
  - rewrite app_nil_r in *. destruct (retriers s !! i) as [[|p ps]|] eqn:E; [by split| |by split].
    destruct Hk as [Hu Hp Hr].
    assert (Command p ∈ cs) as Hpc by (eapply (Hr (p :: ps)); [by eapply list_elem_of_lookup_2|set_solver]).
    assert (well_keyed cs (set_retriers (<[i := ps]> (retriers s)) s)) as Hk1.
    { split; [done|done|]. simpl. intros l q (j & Hj)%list_elem_of_lookup Hq.
      apply list_lookup_insert_Some in Hj as [(_ & <- & _)|[_ Hj]].
      - eapply (Hr (p :: ps)); [by eapply list_elem_of_lookup_2|set_solver].
      - eapply Hr; [by eapply list_elem_of_lookup_2|done]. }
    split; [by apply retry_one_keyed|]. intros c Hc. apply (retry_one_accounted ok now cs); try done.
    by apply Ha.
Qed.

Lemma steps_accounted cs s ls :
  (forall c c', c ∈ cs ++ sent ls -> c' ∈ cs ++ sent ls -> CmdID c = CmdID c' -> c = c') ->
  all_accounted cs s -> all_accounted (cs ++ sent ls) (steps s ls).
Proof.
  revert cs s. induction ls as [|a ls IH]; intros cs s Hu Ha.
  { unfold sent. simpl. by rewrite app_nil_r. }
  assert (sent (a :: ls) = sent [a] ++ sent ls) as E.
  { unfold sent. change (a :: ls) with ([a] ++ ls). by rewrite omap_app. }
  rewrite E, app_assoc in *. apply IH; [done|]. apply step_accounted; [|done].
  intros c c' Hc Hc'. apply Hu; apply elem_of_app; by left.
Qed.

(** Where entries of the queue come from, and how old a command is that was given up. *)
Record from_sends (ls : list Label) (s : RedisService) : Prop := {
  fs_pending : forall id p, pendingCommands s !! id = Some p ->
    LSend false (AgentID p) (Command p) (CreatedAt p) ∈ ls;
  fs_retriers : forall l p, l ∈ retriers s -> p ∈ l ->
    LSend false (AgentID p) (Command p) (CreatedAt p) ∈ ls;
  fs_expired : forall c t, (c, t) ∈ expired s -> enable_retry = true /\
    exists agent t0, LSend false agent c t0 ∈ ls /\ (24 * Hour < t - t0)%Z;
  fs_delivered : forall ch c, (ch, c) ∈ delivered s ->
    exists ok agent t0, LSend ok agent c t0 ∈ ls /\ ch = channel_of agent;
  fs_disabled : enable_retry = false -> retriers s = []
}.

Lemma retry_one_from ls s i p ps ok now :
  from_sends ls s -> retriers s !! i = Some (p :: ps) ->
  from_sends ls (retry_one ok now p (set_retriers (<[i := ps]> (retriers s)) s)).
Proof.
  intros [Hp Hr He Hd Hdis] Hi.
  assert (LSend false (AgentID p) (Command p) (CreatedAt p) ∈ ls) as Hsend
    by (eapply (Hr (p :: ps)); [by eapply list_elem_of_lookup_2|set_solver]).
  assert (enable_retry = true) as Hen
    by (destruct enable_retry; [done|]; by rewrite Hdis in Hi).
  assert (forall l q, l ∈ <[i := ps]> (retriers s) -> q ∈ l ->
    LSend false (AgentID q) (Command q) (CreatedAt q) ∈ ls) as Hr'.
  { intros l q (j & Hj)%list_elem_of_lookup Hq.
    apply list_lookup_insert_Some in Hj as [(_ & <- & _)|[_ Hj]].
    - eapply (Hr (p :: ps)); [by eapply list_elem_of_lookup_2|set_solver].
    - eapply Hr; [by eapply list_elem_of_lookup_2|done]. }
  unfold retry_one. destruct (Z.ltb_spec (24 * Hour) (now - CreatedAt p)); [|destruct ok];
    (split; simpl; [|done| | |by rewrite Hen]); try done.
  - intros id q [_ Hq]%lookup_delete_Some. by eapply Hp.
  - intros c t [Hin|Hin]%elem_of_app; [by apply He|].
    apply list_elem_of_singleton in Hin. simplify_eq. eauto.
  - intros id q [_ Hq]%lookup_delete_Some. by eapply Hp.
  - intros ch c [Hin|Hin]%elem_of_app; [by apply Hd|].
    apply list_elem_of_singleton in Hin. simplify_eq. eauto.
  - intros id q. rewrite lookup_alter_Some. intros [(<- & q' & Hq & ->)|[_ Hq]]; simpl; by eapply Hp.
Qed.

Lemma from_sends_more ls ls' s : from_sends ls s -> from_sends (ls ++ ls') s.
Proof.
  intros [Hp Hr He Hd Hdis]. split; [| | | |done].
  - intros id p Hq. apply elem_of_app. left. by eapply Hp.
  - intros l p Hl Hq. apply elem_of_app. left. by eapply Hr.
  - intros c t Hin. destruct (He c t Hin) as (? & agent & t0 & ? & ?). split; [done|].
    exists agent, t0. split; [apply elem_of_app; by left|done].
  - intros ch c Hin. destruct (Hd ch c Hin) as (ok & agent & t0 & ? & ?).
    exists ok, agent, t0. split; [apply elem_of_app; by left|done].
Qed.

Lemma step_from ls s a : from_sends ls s -> from_sends (ls ++ [a]) (step s a).
Proof.
  intros Hf. pose proof (from_sends_more ls [a] s Hf) as [Hp Hr He Hd Hdis].
  destruct a as [ok agent cmd now|new|i ok now]; simpl.
  - assert (forall b, LSend b agent cmd now ∈ ls ++ [LSend b agent cmd now]) as Hin
      by (intros b; apply elem_of_app; right; by apply list_elem_of_singleton).
    destruct ok; (split; simpl; [|done|done| |done]); try done.
    + intros ch c [H|H]%elem_of_app; [by apply Hd|]. apply list_elem_of_singleton in H. simplify_eq. eauto.
    + intros id p. rewrite lookup_insert_Some. intros [[_ <-]|[_ Hq]]; [done|by eapply Hp].
  - unfold OnStateChange. cbv zeta.
    destruct (bool_decide (new = StateConnected) && enable_retry) eqn:E;
      (split; simpl; [done| |done|done|]); try done.
    2: { intros Hf'. rewrite Hf', andb_false_r in E. done. }
    intros l p [Hl|Hl]%elem_of_app Hin; [by eapply Hr|].
    apply list_elem_of_singleton in Hl as ->. apply list_elem_of_fmap in Hin as ([id q] & -> & Hin).
    rewrite range_ok, elem_of_map_to_list in Hin. by eapply Hp.
  - destruct (retriers s !! i) as [[|p ps]|] eqn:E; [done| |done]. by apply retry_one_from.
Qed.

Lemma steps_from ls s ls' : from_sends ls s -> from_sends (ls ++ ls') (steps s ls').
Proof.
  revert ls s. induction ls' as [|a ls' IH]; intros ls s Hf; [by rewrite app_nil_r|].
  simpl. rewrite cons_middle, app_assoc. by apply IH, step_from.
Qed.
End Proofs.

(** C22: No command to an agent is lost silently. In every interleaving of sends, connection
    changes and retry goroutines (however many overlap), every command handed to the
    service, identifiers being unique, has been published, has been given up, or is still
    waiting in the queue. It is published on the channel of the agent it was sent to. It is
    given up only when more than 24 hours have passed since it was queued, and only with the
    retry queue enabled; with the retry queue disabled what is queued waits for ever. *)
Theorem agent_commands_are_not_lost
    (range_pending : gmap string PendingCommand -> list (string * PendingCommand))
    (enable_retry : bool) (ls : list Label) :
  (forall m, range_pending m ≡ₚ map_to_list m) ->
  (forall c c', c ∈ sent ls -> c' ∈ sent ls -> CmdID c = CmdID c' -> c = c') ->
  let s := steps range_pending enable_retry NewRedisService ls in
  (forall c, c ∈ sent ls ->
    c ∈ map snd (delivered s) \/ c ∈ map fst (expired s) \/
    exists p, pendingCommands s !! CmdID c = Some p /\ Command p = c) /\
  (forall ch c, (ch, c) ∈ delivered s ->
    exists ok agent t0, LSend ok agent c t0 ∈ ls /\ ch = channel_of agent) /\
  (forall c t, (c, t) ∈ expired s -> enable_retry = true /\
    exists agent t0, LSend false agent c t0 ∈ ls /\ (24 * Hour < t - t0)%Z) /\
  (enable_retry = false -> retriers s = [] /\ expired s = []).
Proof.
  intros Hr Hu s.
  assert (from_sends enable_retry ls s) as [_ _ He Hd Hdis].
  { apply (steps_from range_pending Hr enable_retry [] NewRedisService ls). split; set_solver. }
  split; [|split; [done|split; [done|]]].
  - apply (steps_accounted range_pending Hr enable_retry [] NewRedisService ls); [done|].
    split; [split; set_solver | set_solver].
  - intros Hf. split; [by apply Hdis|]. destruct (expired s) as [|[c t] l]; [done|].
    destruct (He c t) as [? _]; [set_solver|congruence].
Qed.

Definition demo_cmd (n : string) : AgentCommand := MkCmd n "start" "p".
Definition demo_redis_labels : list Label :=
  [LSend false "a" (demo_cmd "1") 0; LSend false "a" (demo_cmd "2") 1; LState StateConnected;
   LRetry 0 true 5; LRetry 0 false 6; LSend true "b" (demo_cmd "3") 7;
   LState StateConnected; LRetry 1 true (25 * Hour)].

Lemma agent_commands_are_not_lost_witness :
  let s := steps map_to_list true NewRedisService demo_redis_labels in
  expired s = [(demo_cmd "2", 25 * Hour)%Z] /\
  (forall c, c ∈ sent demo_redis_labels ->
    c ∈ map snd (delivered s) \/ c ∈ map fst (expired s) \/
    exists p, pendingCommands s !! CmdID c = Some p /\ Command p = c) /\
  (forall c t, (c, t) ∈ expired s -> true = true /\
    exists agent t0, LSend false agent c t0 ∈ demo_redis_labels /\ (24 * Hour < t - t0)%Z).
Proof.
  split; [vm_compute; reflexivity|].
  destruct (agent_commands_are_not_lost map_to_list true demo_redis_labels) as (H1 & _ & H2 & _).
  - done.
  - intros c c' Hc Hc'. cbn in Hc, Hc'. set_unfold in Hc. set_unfold in Hc'.
    destruct Hc as [->|[->|[->|[]]]], Hc' as [->|[->|[->|[]]]]; cbn; congruence.
  - split; [exact H1|exact H2].
Defined.

(** Two recoveries in a row start two goroutines with the same commands: a command can be
    published twice. *)
Example overlapping_retries_publish_twice :
  let s := steps map_to_list true NewRedisService
    [LSend false "a" (demo_cmd "1") 0; LState StateConnected; LState StateDisconnected;
     LState StateConnected; LRetry 0 true 1; LRetry 1 true 2] in
  map snd (delivered s) = [demo_cmd "1"; demo_cmd "1"] /\ pendingCommands s = ∅.
Proof. vm_compute. repeat split. Qed.
