(* ===== verification/ConfigV1.v ===== *)
(** * Pipeline configurations, version 1 and the simple form (pkg/config)

    config.go: validation of flat and actor pipelines; simple_config.go: the short form,
    its validation and its conversion to a flat pipeline. Go ranges over the transforms
    in an unspecified order, which is an argument of the validation here. *)

From Stdlib Require Import String SpecFloat.
From stdpp Require Import pretty.
From S2P Require Import Prelude GoString GoValue Mailbox ActorSystem.
Local Open Scope string_scope.
Local Open Scope list_scope.

(** ** config.go *)

Definition PipelineTypeFlat := "flat".
Definition PipelineTypeActor := "actor".
Definition PipelineTypeStream := "stream".

Record SourceConfig := MkSource {
  SourceType : string;
  SourceOptions : Data
}.
Record TransformConfig := MkTransform {
  TransformType : string;
  TransformInputs : list string;
  TransformOptions : Data
}.
Record SinkConfig := MkSinkCfg {
  SinkType : string;
  SinkInputs : list string;
  SinkOptions : Data
}.
Record MetricsConfig := MkMetrics {
  MetricsEnabled : bool;
  PrometheusPort : option Z;
  InternalInterval : option string
}.

(** Of [ActorSystem] the mailbox is kept, which is all the actor system uses; [Checkpoint] is
    only passed on and left out. *)
Record PipelineConfig := MkConfig {
  Version : string;
  Name : string;
  PType : string;
  SystemMailbox : option MailboxConfig;
  Pipeline : option ActorDefinition;
  Sources : gmap string SourceConfig;
  Transforms : gmap string TransformConfig;
  Sinks : gmap string SinkConfig;
  MetricsOf : option MetricsConfig
}.

(** [Parse] after decoding: the defaults. *)
Definition Parse (c : PipelineConfig) : PipelineConfig :=
  let ty := if PType c =? "" then
              match Pipeline c with Some _ => PipelineTypeActor | None => PipelineTypeFlat end
            else PType c in
  let v := if Version c =? "" then "1.0" else Version c in
  MkConfig v (Name c) ty (SystemMailbox c) (Pipeline c) (Sources c) (Transforms c) (Sinks c) (MetricsOf c).

(** The inputs of one transform or sink. *)
Definition check_inputs (what name : string) (available : gset string) (inputs : list string)
  : res string unit :=
  for_each (fun input =>
    if bool_decide (input ∈ available) then Ok tt
    else Err (what +:+ " " +:+ name +:+ " has invalid input: " +:+ input)) inputs.

(** The loop over the transforms: each becomes available after its inputs are checked. *)
Fixpoint check_transforms (l : list (string * TransformConfig)) (available : gset string)
  : res string (gset string) :=
  match l with
  | [] => Ok available
  | (name, t) :: l' =>
      check_inputs "transform" name available (TransformInputs t) ≫= fun _ =>
      check_transforms l' ({[name]} ∪ available)
  end.

(** [validateFlat]; the two lists are the orders in which Go visits the maps. *)
Definition validateFlat (transforms : list (string * TransformConfig)) (sinks : list (string * SinkConfig))
  (c : PipelineConfig) : res string unit :=
  if bool_decide (Sources c = ∅) then Err "at least one source is required"
  else if bool_decide (Sinks c = ∅) then Err "at least one sink is required"
  else
    check_transforms transforms (dom (Sources c)) ≫= fun available =>
    for_each (fun '(name, k) => check_inputs "sink" name available (SinkInputs k)) sinks.

(** [validateActorDefinition]: the children of a supervisor only. *)
Fixpoint validateActorDefinition (d : ActorDefinition) : res string unit :=
  match d with
  | MkActorDefinition name t _ _ _ _ children =>
      if name =? "" then Err "actor name is required"
      else if t =? "supervisor" then for_each validateActorDefinition children
      else if existsb (String.eqb t) ["source"; "transform"; "sink"; "router"; ""] then Ok tt
      else Err ("unknown actor type: " +:+ t)
  end.

Definition validateActor (c : PipelineConfig) : res string unit :=
  match Pipeline c with
  | None => Err "pipeline definition is required for actor mode"
  | Some d => if DefName d =? "" then Err "pipeline root actor name is required"
              else validateActorDefinition d
  end.

Definition Validate (transforms : list (string * TransformConfig)) (sinks : list (string * SinkConfig))
  (c : PipelineConfig) : res string unit :=
  if Name c =? "" then Err "pipeline name is required"
  else if PType c =? PipelineTypeFlat then validateFlat transforms sinks c
  else if PType c =? PipelineTypeActor then validateActor c
  else Err ("unknown pipeline type: " +:+ PType c).

(** ** simple_config.go *)

Record InputConfig := MkInput {
  InputType : string;
  InputBrokers : list string;
  InputTopics : list string;
  InputGroupID : string;
  InputAddress : string;
  InputPath : string;
  InputPaths : list string;
  InputInterval : string;
  InputMapping : string
}.

Record SaveConfig := MkSave {
  SaveType : string;
  SaveURL : string;
  SaveIndex : string;
  SaveBrokers : list string;
  SaveTopic : string;
  SaveBucket : string;
  SavePrefix : string;
  SaveMethod : string;
  SavePath : string
}.

Record StepConfig := MkStep {
  StepName : string;
  StepTransform : string;
  StepFilter : string;
  StepSample : spec_float;
  StepSave : option SaveConfig
}.

(** [SMetrics] is the flag and the port of the metrics section. *)
Record SimplePipelineConfig := MkSimple {
  SVersion : string;
  SName : string;
  Input : InputConfig;
  Steps : list StepConfig;
  SMetrics : option (bool * Z)
}.

Definition nonempty {A} (l : list A) : bool := match l with [] => false | _ => true end.

Definition validateSaveConfig (s : SaveConfig) : res string unit :=
  let ty := SaveType s in
  if ty =? "elasticsearch" then
    if SaveURL s =? "" then Err "elasticsearch url is required" else Ok tt
  else if ty =? "kafka" then
    if negb (nonempty (SaveBrokers s)) then Err "kafka brokers are required"
    else if SaveTopic s =? "" then Err "kafka topic is required" else Ok tt
  else if ty =? "s3" then
    if SaveBucket s =? "" then Err "s3 bucket is required" else Ok tt
  else if ty =? "http" then
    if SaveURL s =? "" then Err "http url is required" else Ok tt
  else if ty =? "file" then
    if SavePath s =? "" then Err "file path is required" else Ok tt
  else if ty =? "stdout" then Ok tt
  else Err ("unsupported save type: " +:+ ty).

(** The checks of the input, with the defaults they fill in. *)
Definition validate_input (i : InputConfig) : res string InputConfig :=
  let ty := InputType i in
  if ty =? "" then Err "input type is required"
  else if ty =? "kafka" then
    if negb (nonempty (InputBrokers i)) then Err "kafka brokers are required"
    else if negb (nonempty (InputTopics i)) then Err "kafka topics are required" else Ok i
  else if ty =? "http_server" then
    Ok (MkInput ty (InputBrokers i) (InputTopics i) (InputGroupID i)
          (if InputAddress i =? "" then "0.0.0.0:8080" else InputAddress i)
          (if InputPath i =? "" then "/" else InputPath i)
          (InputPaths i) (InputInterval i) (InputMapping i))
  else if ty =? "file" then
    if negb (nonempty (InputPaths i)) then Err "file paths are required" else Ok i
  else if (ty =? "generate") || (ty =? "stdin") || (ty =? "demo") then Ok i
  else Err ("unsupported input type: " +:+ ty).

Definition validate_step (i : nat) (s : StepConfig) : res string unit :=
  if StepName s =? "" then Err ("step " +:+ pretty i +:+ ": name is required")
  else match StepSave s with
       | Some sv => wrap_err (fun e => "step " +:+ StepName s +:+ ": " +:+ e) (validateSaveConfig sv)
       | None => Ok tt
       end.

(** [SimplePipelineConfig.Validate]: the configuration with its defaults, or an error. *)
Definition simple_Validate (c : SimplePipelineConfig) : res string SimplePipelineConfig :=
  if SName c =? "" then Err "pipeline name is required"
  else
    validate_input (Input c) ≫= fun i =>
    for_each_i validate_step 0 (Steps c) ≫= fun _ =>
    Ok (MkSimple (SVersion c) (SName c) i (Steps c) (SMetrics c)).

(** Options are written when they are not empty. *)
Definition opt_strings (k : string) (l : list string) (m : Data) : Data :=
  if nonempty l then <[k := VStrings l]> m else m.
Definition opt_string (k v : string) (m : Data) : Data :=
  if v =? "" then m else <[k := VString v]> m.

Definition input_source (i : InputConfig) : SourceConfig :=
  MkSource (InputType i)
    (opt_strings "paths" (InputPaths i) (opt_string "path" (InputPath i)
    (opt_string "address" (InputAddress i) (opt_string "group_id" (InputGroupID i)
    (opt_strings "topics" (InputTopics i) (opt_strings "brokers" (InputBrokers i) ∅)))))).

Definition positive (f : spec_float) : bool := float_lt (S754_zero false) f.

(** Whether a step processes, and the transform it becomes. *)
Definition step_processes (s : StepConfig) : bool :=
  negb (StepTransform s =? "") || negb (StepFilter s =? "") || positive (StepSample s).

Definition step_transform (prev : string) (s : StepConfig) : TransformConfig :=
  if negb (StepFilter s =? "") then
    MkTransform "filter" [prev] {["condition" := VString (StepFilter s)]}
  else if positive (StepSample s) then
    MkTransform "sample" [prev] {["rate" := VFloat64 (StepSample s)]}
  else MkTransform "remap" [prev] {["source" := VString (StepTransform s)]}.

Definition save_sink (prev : string) (s : SaveConfig) : SinkConfig :=
  MkSinkCfg (SaveType s) [prev]
    (opt_string "path" (SavePath s) (opt_string "prefix" (SavePrefix s)
    (opt_string "bucket" (SaveBucket s) (opt_string "topic" (SaveTopic s)
    (opt_strings "brokers" (SaveBrokers s) (opt_string "index" (SaveIndex s)
    (if SaveURL s =? "" then ∅ else {["endpoints" := VStrings [SaveURL s]]}))))))).

(** The state of the loop over the steps. *)
Record Conversion := MkConv {
  prevStep : string;
  conv_transforms : gmap string TransformConfig;
  conv_sinks : gmap string SinkConfig
}.

Definition convert_step (st : Conversion) (s : StepConfig) : Conversion :=
  let st := if step_processes s
            then MkConv (StepName s) (<[StepName s := step_transform (prevStep st) s]> (conv_transforms st))
                   (conv_sinks st)
            else st in
  match StepSave s with
  | Some sv => MkConv (prevStep st) (conv_transforms st)
                 (<[(StepName s +:+ "_sink")%string := save_sink (prevStep st) sv]> (conv_sinks st))
  | None => st
  end.

Definition convert_metrics (m : option (bool * Z)) : option MetricsConfig :=
  (fun '(enabled, port) => MkMetrics enabled (if (0 <? port)%Z then Some port else None) None) <$> m.

Definition ToLegacyConfig (c : SimplePipelineConfig) : PipelineConfig :=
  let st := foldl convert_step (MkConv "input" ∅ ∅) (Steps c) in
  MkConfig (SVersion c) (SName c) PipelineTypeFlat None None {["input" := input_source (Input c)]}
    (conv_transforms st) (conv_sinks st) (convert_metrics (SMetrics c)).

(** ** Which flat pipelines are accepted *)

Definition names_of {A} (l : list (string * A)) : gset string := list_to_set (map fst l).

Lemma check_inputs_ok what name available inputs :
  check_inputs what name available inputs = Ok tt <-> Forall (fun i => i ∈ available) inputs.
Proof.
  unfold check_inputs. rewrite for_each_ok. apply Forall_iff. intros x. case_bool_decide; naive_solver.
Qed.

(** Every transform of a list refers to what is available before it. *)
Definition well_ordered (available : gset string) (l : list (string * TransformConfig)) : Prop :=
  forall l1 name t l2, l = l1 ++ (name, t) :: l2 ->
    Forall (fun i => i ∈ available ∪ names_of l1) (TransformInputs t).

Lemma well_ordered_cons available name t l :
  well_ordered available ((name, t) :: l) <->
  Forall (fun i => i ∈ available) (TransformInputs t) /\ well_ordered ({[name]} ∪ available) l.
Proof.
  split.
  - intros Hw. split.
    + eapply Forall_impl; [apply (Hw [] name t l); done|]. simpl. set_solver.
    + intros l1 n t' l2 ->. eapply Forall_impl; [by apply (Hw ((name, t) :: l1) n t' l2)|].
      unfold names_of. simpl. set_solver.
  - intros [Ht Hw] [|[n t1] l1] n' t' l2 E; simplify_eq/=.
    + eapply Forall_impl; [exact Ht|]. set_solver.
    + eapply Forall_impl; [by apply (Hw l1 n' t' l2)|]. unfold names_of. simpl. set_solver.
Qed.

Lemma check_transforms_ok l available :
  (well_ordered available l /\ check_transforms l available = Ok (available ∪ names_of l)) \/
  (~ well_ordered available l /\ is_err (check_transforms l available) = true).
Proof.
  revert available. induction l as [|[name t] l IH]; intros available.
  { left. split; [by intros [|]|]. simpl. unfold names_of. simpl. f_equal. set_solver. }
  simpl. rewrite well_ordered_cons. rewrite <- (check_inputs_ok "transform" name).
  destruct (check_inputs "transform" name available (TransformInputs t)) as [[]|e|] eqn:E.
  - simpl. destruct (IH ({[name]} ∪ available)) as [[Hw ->]|[Hw He]].
    + left. split; [by split|]. unfold names_of. simpl. f_equal. set_solver.
    + right. split; [naive_solver|done].
  - right. simpl. split; [naive_solver|done].
  - exfalso. unfold check_inputs in E. clear IH. induction (TransformInputs t); simpl in E; [done|].
    case_bool_decide; by simpl in E; auto.
Qed.

(** The sinks of a configuration refer to sources and transforms. *)
Definition sinks_ok (available : gset string) (c : PipelineConfig) : Prop :=
  map_Forall (fun _ k => Forall (fun i => i ∈ available) (SinkInputs k)) (Sinks c).

Lemma check_sinks_ok available l c :
  l ≡ₚ map_to_list (Sinks c) ->
  for_each (fun '(name, k) => check_inputs "sink" name available (SinkInputs k)) l = Ok tt
  <-> sinks_ok available c.
Proof.
  intros Hl. rewrite for_each_ok, Hl, Forall_forall. unfold sinks_ok. split.
  - intros H n k Hk. apply elem_of_map_to_list in Hk. specialize (H _ Hk). simpl in H.
    by apply check_inputs_ok in H.
  - intros H [n k] Hk%elem_of_map_to_list. apply check_inputs_ok. by apply (H n k).
Qed.

Lemma validateFlat_ok transforms sinks c :
  transforms ≡ₚ map_to_list (Transforms c) -> sinks ≡ₚ map_to_list (Sinks c) ->
  validateFlat transforms sinks c = Ok tt <->
  Sources c <> ∅ /\ Sinks c <> ∅ /\ well_ordered (dom (Sources c)) transforms /\
  sinks_ok (dom (Sources c) ∪ dom (Transforms c)) c.
Proof.
  intros Ht Hs. unfold validateFlat. case_bool_decide; [naive_solver|]. case_bool_decide; [naive_solver|].
  assert (names_of transforms = dom (Transforms c)) as En.
  { unfold names_of. rewrite Ht. apply set_eq. intros x.
    rewrite elem_of_list_to_set, elem_of_dom. setoid_rewrite list_elem_of_fmap. split.
    - intros ([n t] & -> & Hn%elem_of_map_to_list). by eexists.
    - intros [t Hx]. exists (x, t). split; [done|]. by apply elem_of_map_to_list. }
  destruct (check_transforms_ok transforms (dom (Sources c))) as [[Hw ->]|[Hw He]]; simpl.
  - rewrite En, (check_sinks_ok _ _ c Hs). naive_solver.
  - destruct (check_transforms transforms (dom (Sources c))); simpl in *; naive_solver.
Qed.

(** The references of the transforms have no cycle: an input is a source or a transform of
    smaller rank. *)
Definition acyclic_inputs (c : PipelineConfig) (rank : string -> nat) : Prop :=
  map_Forall (fun name t => Forall (fun i =>
    i ∈ dom (Sources c) \/ (i ∈ dom (Transforms c) /\ rank i < rank name)) (TransformInputs t)) (Transforms c).

(** The position of a name in a list of transforms. *)
Fixpoint position (name : string) (l : list (string * TransformConfig)) : nat :=
  match l with
  | [] => 0
  | (n, _) :: l' => if bool_decide (n = name) then 0 else S (position name l')
  end.

Lemma position_app_l name l1 l2 : name ∈ names_of l1 -> position name (l1 ++ l2) < length l1.
Proof.
  unfold names_of. induction l1 as [|[n t] l1 IH]; simpl; [set_solver|].
  case_bool_decide; [lia|]. intros Hn. rewrite <- Nat.succ_lt_mono. apply IH. set_solver.
Qed.

Lemma position_app_r name t l1 l2 : name ∉ map fst l1 -> position name (l1 ++ (name, t) :: l2) = length l1.
Proof.
  induction l1 as [|[n t1] l1 IH]; simpl; intros Hn; [by rewrite bool_decide_true|].
  rewrite bool_decide_false by set_solver. f_equal. apply IH. set_solver.
Qed.

Lemma well_ordered_acyclic c l :
  l ≡ₚ map_to_list (Transforms c) -> well_ordered (dom (Sources c)) l ->
  acyclic_inputs c (fun n => position n l).
Proof.
  intros Hl Hw name t Ht.
  assert (NoDup (map fst l)) as Hnd by (rewrite Hl; apply NoDup_fst_map_to_list).
  apply elem_of_map_to_list in Ht. rewrite <- Hl in Ht.
  apply list_elem_of_split in Ht as (l1 & l2 & E).
  pose proof (Hw l1 name t l2 E) as Hin. eapply Forall_impl; [exact Hin|]. simpl.
  intros i [Hi|Hi]%elem_of_union; [by left|]. right. rewrite E in *.
  rewrite map_app in Hnd. cbn [map fst] in Hnd. apply NoDup_app in Hnd as (_ & Hn & _).
  split.
  - unfold names_of in Hi. apply elem_of_list_to_set, list_elem_of_fmap in Hi as ([n t'] & -> & Hi).
    apply elem_of_dom. exists t'. apply elem_of_map_to_list. rewrite <- Hl. set_solver.
  - rewrite (position_app_r name t l1 l2).
    + by apply position_app_l.
    + intros Hx. apply (Hn name Hx). set_solver.
Qed.

(** Sorting the transforms by rank gives an order that is accepted. *)
Definition by_rank (rank : string -> nat) (x y : string * TransformConfig) : Prop := rank x.1 <= rank y.1.
#[local] Instance by_rank_dec rank : RelDecision (by_rank rank).
Proof. intros x y. unfold by_rank. apply _. Defined.
#[local] Instance by_rank_total rank : Total (by_rank rank).
Proof. intros x y. unfold by_rank. lia. Qed.
#[local] Instance by_rank_trans rank : Transitive (by_rank rank).
Proof. intros x y z. unfold by_rank. lia. Qed.

Lemma sorted_well_ordered c rank :
  acyclic_inputs c rank ->
  well_ordered (dom (Sources c)) (merge_sort (by_rank rank) (map_to_list (Transforms c))).
Proof.
  intros Ha l1 name t l2 E.
  pose proof (StronglySorted_merge_sort (by_rank rank) (map_to_list (Transforms c))) as Hs.
  pose proof (merge_sort_Permutation (by_rank rank) (map_to_list (Transforms c))) as Hp.
  rewrite E in Hs, Hp.
  assert ((name, t) ∈ map_to_list (Transforms c)) as Ht by (rewrite <- Hp; set_solver).
  apply elem_of_map_to_list in Ht. apply Ha in Ht. eapply Forall_impl; [exact Ht|]. simpl.
  intros i [Hi|[[t' Hi]%elem_of_dom Hr]]; [set_solver|]. apply elem_of_union. right.
  apply elem_of_map_to_list in Hi. rewrite <- Hp in Hi. unfold names_of.
  rewrite elem_of_list_to_set. apply elem_of_app in Hi as [Hi|Hi].
  { apply list_elem_of_fmap. by exists (i, t'). }
  exfalso. assert (by_rank rank (name, t) (i, t')) as Hle; [|unfold by_rank in Hle; simpl in Hle; lia].
  apply elem_of_cons in Hi as [Hi|Hi]; [simplify_eq; unfold by_rank; simpl; lia|].
  clear - Hs Hi. induction l1 as [|x l1 IH]; simpl in Hs.
  - apply StronglySorted_inv in Hs as [_ Hs]. rewrite Forall_forall in Hs. by apply Hs.
  - apply StronglySorted_inv in Hs as [Hs _]. by apply IH.
Qed.

(** Whether a flat pipeline is valid depends on the order in which Go visits a map. Some
    order of the transforms is accepted exactly when there are sources and sinks, the
    inputs of transforms refer to sources and transforms without a cycle and those of
    sinks to any of them; but every order is accepted only if no transform has another
    transform as its input. A pipeline with a chain of transforms is therefore
    accepted or rejected depending on the iteration order. *)
Theorem flat_validation_depends_on_order (c : PipelineConfig) (sinks : list (string * SinkConfig)) :
  sinks ≡ₚ map_to_list (Sinks c) ->
  let base := Sources c <> ∅ /\ Sinks c <> ∅ /\ sinks_ok (dom (Sources c) ∪ dom (Transforms c)) c in
  ((exists order, order ≡ₚ map_to_list (Transforms c) /\ validateFlat order sinks c = Ok tt) <->
     base /\ exists rank, acyclic_inputs c rank) /\
  ((forall order, order ≡ₚ map_to_list (Transforms c) -> validateFlat order sinks c = Ok tt) <->
     base /\ map_Forall (fun _ t => Forall (fun i => i ∈ dom (Sources c)) (TransformInputs t)) (Transforms c)).
Proof.
  intros Hs base. split; split.
  - intros (order & Ho & Hv). apply (validateFlat_ok order sinks c Ho Hs) in Hv as (? & ? & Hw & ?).
    split; [done|]. exists (fun n => position n order). by apply well_ordered_acyclic.
  - intros [(H1 & H2 & H3) [rank Ha]].
    pose proof (merge_sort_Permutation (by_rank rank) (map_to_list (Transforms c))) as Hp.
    eexists. split; [exact Hp|]. apply validateFlat_ok; [done..|].
    split; [done|]. split; [done|]. split; [by apply sorted_well_ordered | done].
  - intros Hall. assert (base) as Hb.
    { specialize (Hall (map_to_list (Transforms c)) ltac:(done)).
      apply validateFlat_ok in Hall as (? & ? & _ & ?); done. }
    split; [done|]. intros name t Ht. apply elem_of_map_to_list in Ht.
    apply list_elem_of_split in Ht as (l1 & l2 & E).
    assert ((name, t) :: l1 ++ l2 ≡ₚ map_to_list (Transforms c)) as Hp.
    { rewrite E. by apply Permutation_middle. }
    specialize (Hall _ Hp). apply validateFlat_ok in Hall as (_ & _ & Hw & _); [|done..].
    apply well_ordered_cons in Hw. apply Hw.
  - intros [(H1 & H2 & H3) Ha] order Ho. apply validateFlat_ok; [done..|].
    split; [done|]. split; [done|]. split; [|done]. intros l1 name t l2 E.
    assert ((name, t) ∈ map_to_list (Transforms c)) as Ht by (rewrite <- Ho, E; set_solver).
    apply elem_of_map_to_list in Ht. apply Ha in Ht. eapply Forall_impl; [exact Ht|]. set_solver.
Qed.

Definition chain_config : PipelineConfig :=
  MkConfig "1.0" "p" "flat" None None {["in" := MkSource "demo" ∅]}
    (<["a" := MkTransform "remap" ["in"] ∅]> {["b" := MkTransform "remap" ["a"] ∅]})
    {["out" := MkSinkCfg "stdout" ["b"] ∅]} None.

Lemma flat_validation_depends_on_order_witness :
  let c := chain_config in
  let sinks := [("out", MkSinkCfg "stdout" ["b"] ∅)] in
  let base := Sources c <> ∅ /\ Sinks c <> ∅ /\ sinks_ok (dom (Sources c) ∪ dom (Transforms c)) c in
  ((exists order, order ≡ₚ map_to_list (Transforms c) /\ validateFlat order sinks c = Ok tt) <->
     base /\ exists rank, acyclic_inputs c rank) /\
  ((forall order, order ≡ₚ map_to_list (Transforms c) -> validateFlat order sinks c = Ok tt) <->
     base /\ map_Forall (fun _ t => Forall (fun i => i ∈ dom (Sources c)) (TransformInputs t)) (Transforms c)).
Proof.
  apply (flat_validation_depends_on_order chain_config [("out", MkSinkCfg "stdout" ["b"] ∅)]).
  vm_compute. reflexivity.
Defined.

Example chain_accepted_and_rejected :
  let t1 := ("a", MkTransform "remap" ["in"] ∅) in
  let t2 := ("b", MkTransform "remap" ["a"] ∅) in
  let sinks := [("out", MkSinkCfg "stdout" ["b"] ∅)] in
  Validate [t1; t2] sinks chain_config = Ok tt /\
  Validate [t2; t1] sinks chain_config = Err "transform b has invalid input: a".
Proof. split; vm_compute; reflexivity. Qed.

(** The runner has a case for stream pipelines, but they never pass the validation. *)
Theorem stream_pipelines_are_rejected transforms sinks (c : PipelineConfig) :
  PType c = PipelineTypeStream -> is_err (Validate transforms sinks c) = true.
Proof. intros E. unfold Validate. rewrite E. by destruct (Name c =? ""). Qed.

(** ** Actor definitions *)

Definition known_actor_type (t : string) : Prop :=
  t ∈ ["supervisor"; "source"; "transform"; "sink"; "router"; ""].

(** What validation promises of an actor and of the actors below supervisors. *)
Inductive actor_ok : ActorDefinition -> Prop :=
| actor_ok_intro name t par sup config outputs children :
    name <> "" -> known_actor_type t ->
    (t = "supervisor" -> Forall actor_ok children) ->
    actor_ok (MkActorDefinition name t par sup config outputs children).

(** Induction over actor definitions through their children. *)
Fixpoint actor_def_ind (P : ActorDefinition -> Prop)
  (H : forall name t par sup config outputs children, Forall P children ->
    P (MkActorDefinition name t par sup config outputs children)) (d : ActorDefinition) : P d :=
  match d with
  | MkActorDefinition name t par sup config outputs children =>
      H name t par sup config outputs children
        ((fix go l : Forall P l :=
            match l with
            | [] => Forall_nil_2 P
            | x :: l' => Forall_cons_2 P x l' (actor_def_ind P H x) (go l')
            end) children)
  end.

Lemma existsb_eqb t l : existsb (String.eqb t) l = bool_decide (t ∈ l).
Proof.
  induction l as [|x l IH]; [done|]. simpl. rewrite IH.
  destruct (String.eqb_spec t x) as [->|Hn]; simpl; repeat case_bool_decide; set_solver.
Qed.

(** Validation of an actor pipeline accepts exactly the trees in which the root and every
    actor below supervisors has a name and a known type. *)
Theorem actor_validation_spec (d : ActorDefinition) : validateActorDefinition d = Ok tt <-> actor_ok d.
Proof.
  induction d as [name t par sup config outputs children IH] using actor_def_ind. simpl.
  assert (for_each validateActorDefinition children = Ok tt <-> Forall actor_ok children) as Hc.
  { rewrite for_each_ok. clear -IH. induction IH as [|x l Hx _ IHl]; [by split|].
    rewrite !Forall_cons, Hx, IHl. done. }
  change ((t =? "source") || ((t =? "transform") || ((t =? "sink") || ((t =? "router") || ((t =? "") || false)))))
    with (existsb (String.eqb t) ["source"; "transform"; "sink"; "router"; ""]). rewrite existsb_eqb.
  destruct (String.eqb_spec name "") as [->|Hn].
  { split; [done|]. inversion 1; done. }
  destruct (String.eqb_spec t "supervisor") as [->|Ht].
  - rewrite Hc. split.
    + intros H. constructor; [done| |done]. unfold known_actor_type. set_solver.
    + inversion 1; auto.
  - case_bool_decide as Hk.
    + split; [|done]. intros _. constructor; [done| |done]. unfold known_actor_type. set_solver.
    + split; [done|]. inversion 1 as [? ? ? ? ? ? ? ? Hk' ?]; subst. unfold known_actor_type in Hk'. set_solver.
Qed.

(** ** The conversion of simple configurations *)

Lemma well_ordered_snoc available l name t :
  well_ordered available l -> Forall (fun i => i ∈ available ∪ names_of l) (TransformInputs t) ->
  well_ordered available (l ++ [(name, t)]).
Proof.
  intros Hw Ht l1 n t' l2 E. destruct l2 as [|y l2 _] using rev_ind.
  - apply app_inj_tail in E as [-> [= -> ->]]. done.
  - rewrite app_comm_cons, app_assoc in E. apply app_inj_tail in E as [-> _]. by eapply Hw.
Qed.

Lemma step_transform_inputs prev s : TransformInputs (step_transform prev s) = [prev].
Proof. unfold step_transform. destruct (negb _); [done|]. by destruct (positive _). Qed.

(** The steps that become transforms, and what the step after some steps reads. *)
Definition processing (steps : list StepConfig) : list StepConfig := List.filter step_processes steps.

Definition feeds (steps : list StepConfig) : string :=
  default "input" (last (map StepName (processing steps))).

(** After some steps: [l] are the transforms in the order of the steps. *)
Record converted (steps : list StepConfig) (l : list (string * TransformConfig)) (st : Conversion) : Prop := {
  cv_perm : l ≡ₚ map_to_list (conv_transforms st);
  cv_names : map fst l = map StepName (processing steps);
  cv_order : well_ordered {["input"]} l;
  cv_prev : prevStep st = feeds steps;
  cv_transforms : forall before s after, steps = before ++ s :: after -> step_processes s = true ->
    conv_transforms st !! StepName s = Some (step_transform (feeds before) s);
  cv_sinks : forall before s after sv, steps = before ++ s :: after -> StepSave s = Some sv ->
    conv_sinks st !! (StepName s +:+ "_sink") = Some (save_sink (feeds (before ++ [s])) sv);
  cv_only : forall name k, conv_sinks st !! name = Some k ->
    exists before s after sv, steps = before ++ s :: after /\ StepSave s = Some sv /\
      name = StepName s +:+ "_sink" /\ k = save_sink (feeds (before ++ [s])) sv
}.

Lemma snoc_split {A} (l : list A) x before y after :
  l ++ [x] = before ++ y :: after ->
  (before = l /\ y = x /\ after = []) \/ exists after', after = after' ++ [x] /\ l = before ++ y :: after'.
Proof.
  destruct after as [|z after _] using rev_ind.
  - intros [-> [= ->]]%app_inj_tail. by left.
  - rewrite app_comm_cons, app_assoc. intros [-> ->]%app_inj_tail. right. by exists after.
Qed.

Lemma sink_name_inj a b : a +:+ "_sink" = b +:+ "_sink" -> a = b.
Proof.
  revert b. induction a as [|x a IH]; intros [|y b] H; [done| | |].
  - apply (f_equal String.length) in H. rewrite !str_length_app in H. cbn in H. lia.
  - apply (f_equal String.length) in H. rewrite !str_length_app in H. cbn in H. lia.
  - rewrite !str_app_cons in H. injection H as -> H. f_equal. by apply IH.
Qed.

Lemma processing_snoc steps s :
  processing (steps ++ [s]) = processing steps ++ (if step_processes s then [s] else []).
Proof. unfold processing. rewrite List.filter_app. cbn. by destruct (step_processes s). Qed.

Lemma feeds_snoc steps s :
  feeds (steps ++ [s]) = if step_processes s then StepName s else feeds steps.
Proof.
  unfold feeds. rewrite processing_snoc. destruct (step_processes s).
  - rewrite map_app. cbn [map]. by rewrite last_snoc.
  - by rewrite app_nil_r.
Qed.

(** What is read is there: the input or a transform. *)
Lemma feeds_known before after (l : list (string * TransformConfig)) :
  map fst l = map StepName (processing (before ++ after)) -> feeds before ∈ {["input"]} ∪ names_of l.
Proof.
  intros E. unfold feeds, names_of. rewrite E. unfold processing. rewrite List.filter_app, map_app.
  fold (processing before). destruct (last (map StepName (processing before))) as [x|] eqn:Hx; [|set_solver].
  apply last_Some_elem_of in Hx. cbn. set_solver.
Qed.

Lemma conv_fresh steps l st s :
  converted steps l st -> StepName s ∉ map StepName steps -> conv_transforms st !! StepName s = None.
Proof.
  intros [Hp Hn _ _ _ _ _] Hf. destruct (conv_transforms st !! StepName s) as [t|] eqn:E; [|done].
  exfalso. apply elem_of_map_to_list in E. rewrite <- Hp in E.
  assert (StepName s ∈ map fst l) as Hin by (apply list_elem_of_fmap; by exists (StepName s, t)).
  rewrite Hn in Hin. apply list_elem_of_fmap in Hin as (s' & Hs & Hin). apply Hf. rewrite Hs.
  apply list_elem_of_fmap. exists s'. split; [done|]. apply list_elem_of_In in Hin.
  apply List.filter_In in Hin as [Hin _]. by apply list_elem_of_In.
Qed.

(** The transform of a step, before its sink is stored. *)
Definition with_transform (st : Conversion) (s : StepConfig) : Conversion :=
  if step_processes s
  then MkConv (StepName s) (<[StepName s := step_transform (prevStep st) s]> (conv_transforms st)) (conv_sinks st)
  else st.

Lemma step_name_ne steps s before s' after :
  StepName s ∉ map StepName steps -> steps = before ++ s' :: after -> StepName s <> StepName s'.
Proof. intros Hf -> E. apply Hf. rewrite map_app, E. cbn. set_solver. Qed.

Lemma convert_transforms_ok steps l st s :
  converted steps l st -> StepName s ∉ map StepName steps ->
  exists l', l' ≡ₚ map_to_list (conv_transforms (with_transform st s)) /\
    map fst l' = map StepName (processing (steps ++ [s])) /\ well_ordered {["input"]} l' /\
    prevStep (with_transform st s) = feeds (steps ++ [s]) /\
    forall before s' after, steps ++ [s] = before ++ s' :: after -> step_processes s' = true ->
      conv_transforms (with_transform st s) !! StepName s' = Some (step_transform (feeds before) s').
Proof.
  intros Hc Hf. pose proof (conv_fresh _ _ _ _ Hc Hf) as Hl. destruct Hc as [Hp Hn Ho Hv Ht _ _].
  unfold with_transform. rewrite processing_snoc, feeds_snoc. destruct (step_processes s) eqn:Hs.
  - exists (l ++ [(StepName s, step_transform (prevStep st) s)]). cbn [conv_transforms prevStep].
    split; [rewrite map_to_list_insert, Hp by done; symmetry; apply Permutation_cons_append|].
    split; [rewrite !map_app; by f_equal|]. split.
    + apply well_ordered_snoc; [done|]. rewrite step_transform_inputs, Hv. apply Forall_singleton.
      apply (feeds_known steps []). by rewrite app_nil_r.
    + split; [done|]. intros before s' after [(-> & -> & _)|(after' & -> & E)]%snoc_split Hs'.
      * by rewrite lookup_insert_eq, Hv.
      * rewrite lookup_insert_ne; [by eapply Ht|]. by eapply step_name_ne.
  - exists l. rewrite app_nil_r. repeat (split; [done|]).
    intros before s' after [(-> & -> & _)|(after' & -> & E)]%snoc_split Hs'; [congruence|by eapply Ht].
Qed.

Lemma convert_step_ok steps l st s :
  converted steps l st -> StepName s ∉ map StepName steps ->
  exists l', converted (steps ++ [s]) l' (convert_step st s).
Proof.
  intros Hc Hf. destruct (convert_transforms_ok _ _ _ _ Hc Hf) as (l' & Hp & Hn & Ho & Hv & Ht).
  destruct Hc as [_ _ _ _ _ Hk Honly]. exists l'. unfold convert_step. fold (with_transform st s).
  assert (conv_sinks (with_transform st s) = conv_sinks st) as Es
    by (unfold with_transform; by destruct (step_processes s)).
  assert (forall name k, conv_sinks st !! name = Some k -> exists before s' after sv,
    steps ++ [s] = before ++ s' :: after /\ StepSave s' = Some sv /\
    name = StepName s' +:+ "_sink" /\ k = save_sink (feeds (before ++ [s'])) sv) as Hold.
  { intros name k (before & s' & after & sv & -> & H)%Honly. exists before, s', (after ++ [s]), sv.
    by rewrite <- app_assoc. }
  destruct (StepSave s) as [sv|] eqn:Hsv; split; cbn; try done; rewrite Es.
  - intros before s' after sv' [(-> & -> & _)|(after' & -> & E)]%snoc_split Hs'.
    + rewrite lookup_insert_eq. congruence.
    + rewrite lookup_insert_ne; [by eapply Hk|]. intros H%sink_name_inj. by eapply step_name_ne.
  - intros name k [[<- <-]|[_ H]]%lookup_insert_Some; [|by apply Hold].
    exists steps, s, [], sv. by rewrite Hv.
  - intros before s' after sv' [(-> & -> & _)|(after' & -> & E)]%snoc_split Hs'; [congruence|by eapply Hk].
  - exact Hold.
Qed.

Lemma convert_steps_ok steps :
  NoDup (map StepName steps) ->
  exists l, converted steps l (foldl convert_step (MkConv "input" ∅ ∅) steps).
Proof.
  induction steps as [|s steps IH] using rev_ind; intros Hnd.
  - exists []. split; cbn; try done. all: by intros [|].
  - rewrite map_app in Hnd. apply NoDup_app in Hnd as (Hnd & Hd & _).
    destruct (IH Hnd) as [l Hl]. rewrite foldl_app. cbn [foldl]. eapply convert_step_ok; [done|].
    intros Hin. apply (Hd _ Hin). cbn. set_solver.
Qed.

Lemma convert_sinks_nonempty steps st :
  conv_sinks st <> ∅ \/ (exists s, s ∈ steps /\ StepSave s <> None) -> conv_sinks (foldl convert_step st steps) <> ∅.
Proof.
  revert st. induction steps as [|s steps IH]; intros st H; simpl.
  { destruct H as [H|(s & Hs & _)]; [done | by apply elem_of_nil in Hs]. }
  apply IH. unfold convert_step. destruct H as [H|(s' & [->|Hs]%elem_of_cons & Hsv)].
  - left. destruct (step_processes s), (StepSave s); simpl; first [done | apply insert_non_empty].
  - left. destruct (StepSave s); [|done]. apply insert_non_empty.
  - right. eauto.
Qed.

(** C37: The conversion of a simple configuration is the chain of its steps. When a simple
    configuration passes its validation, its steps have distinct names and at least one step
    saves, then: the transforms are the processing steps, and taken in the order of the steps
    they pass, with the sinks in any order, the validation of flat pipelines; every
    transform reads the processing step before it, or the input when there is none; and
    there is exactly one sink per saving step, which reads that step when it processes and
    the processing step before it, or the input, when it does not. *)
Theorem simple_config_converts (c c' : SimplePipelineConfig) (sinks : list (string * SinkConfig)) :
  simple_Validate c = Ok c' -> NoDup (map StepName (Steps c)) ->
  (exists s, s ∈ Steps c /\ StepSave s <> None) ->
  sinks ≡ₚ map_to_list (Sinks (ToLegacyConfig c')) ->
  (exists order, map fst order = map StepName (processing (Steps c)) /\
     order ≡ₚ map_to_list (Transforms (ToLegacyConfig c')) /\
     Validate order sinks (ToLegacyConfig c') = Ok tt) /\
  (forall before s after, Steps c = before ++ s :: after ->
     (step_processes s = true -> exists t, Transforms (ToLegacyConfig c') !! StepName s = Some t /\
        TransformInputs t = [feeds before] /\ t = step_transform (feeds before) s) /\
     (forall sv, StepSave s = Some sv -> exists k,
        Sinks (ToLegacyConfig c') !! (StepName s +:+ "_sink") = Some k /\
        SinkInputs k = [if step_processes s then StepName s else feeds before] /\
        SinkType k = SaveType sv)) /\
  (forall name k, Sinks (ToLegacyConfig c') !! name = Some k ->
     exists s, s ∈ Steps c /\ StepSave s <> None /\ name = StepName s +:+ "_sink").
Proof.
  intros Hv Hnd Hsave Hs. unfold simple_Validate in Hv.
  destruct (String.eqb_spec (SName c) "") as [|Hname]; [done|].
  apply bind_ok in Hv as (i & Hi & Hv). apply bind_ok in Hv as (u & Hu & [= <-]).
  unfold ToLegacyConfig in *. cbn [Steps Transforms Sinks] in *.
  destruct (convert_steps_ok (Steps c) Hnd) as [l [Hp Hn Ho _ Ht Hk Honly]].
  set (st := foldl convert_step (MkConv "input" ∅ ∅) (Steps c)) in *.
  split; [|split].
  - exists l. split; [done|]. split; [done|]. unfold Validate. cbn.
    rewrite (proj2 (String.eqb_neq _ _) Hname).
    apply validateFlat_ok; cbn; [done|done|]. rewrite dom_singleton_L.
    split; [apply insert_non_empty|]. split; [apply convert_sinks_nonempty; by right|].
    split; [done|]. intros name k Hin. cbn.
    apply Honly in Hin as (before & s & after & sv & E & _ & _ & ->). apply Forall_singleton.
    assert (feeds (before ++ [s]) ∈ {["input"]} ∪ names_of l) as [?|Hx]%elem_of_union
      by (apply (feeds_known _ after); by rewrite <- app_assoc, Hn, E); [set_solver|].
    apply elem_of_union_r. unfold names_of in Hx.
    apply elem_of_list_to_set, list_elem_of_fmap in Hx as ([n' t] & -> & Hx).
    apply elem_of_dom. exists t. apply elem_of_map_to_list. by rewrite <- Hp.
  - intros before s after E. split.
    + intros Hpr. eexists. split; [by eapply Ht|]. by rewrite step_transform_inputs.
    + intros sv Hsv. eexists. split; [by eapply Hk|]. cbn. by rewrite feeds_snoc.
  - intros name k (before & s & after & sv & E & Hsv & -> & _)%Honly. exists s.
    rewrite E, Hsv. split; [set_solver|done].
Qed.

Definition demo_simple : SimplePipelineConfig :=
  MkSimple "" "p" (MkInput "demo" [] [] "" "" "" [] "" "")
    [MkStep "errors" "" ".level == error" (S754_zero false) None;
     MkStep "shape" "root = this" "" (S754_zero false)
       (Some (MkSave "stdout" "" "" [] "" "" "" "" ""))] None.

Lemma simple_config_converts_witness :
  simple_Validate demo_simple = Ok demo_simple /\
  exists order, map fst order = ["errors"; "shape"] /\
    order ≡ₚ map_to_list (Transforms (ToLegacyConfig demo_simple)) /\
    Validate order (map_to_list (Sinks (ToLegacyConfig demo_simple))) (ToLegacyConfig demo_simple) = Ok tt.
Proof.
  split; [vm_compute; reflexivity|].
  apply (simple_config_converts demo_simple demo_simple
    (map_to_list (Sinks (ToLegacyConfig demo_simple)))).
  - vm_compute. reflexivity.
  - apply (bool_decide_unpack _). vm_compute. exact I.
  - eexists. split; [apply elem_of_cons; right; apply elem_of_cons; left; reflexivity|]. discriminate.
  - reflexivity.
Defined.

(** Two steps with one name make a transform that reads itself: the converted configuration
    is rejected whatever the order. *)
Example repeated_step_name_is_rejected :
  let s := MkStep "a" "root = this" "" (S754_zero false) (Some (MkSave "stdout" "" "" [] "" "" "" "" "")) in
  let c := MkSimple "" "p" (MkInput "demo" [] [] "" "" "" [] "" "") [s; s] None in
  is_ok (simple_Validate c) = true /\
  map_to_list (Transforms (ToLegacyConfig c)) = [("a", MkTransform "remap" ["a"] {["source" := VString "root = this"]})] /\
  is_ok (Validate (map_to_list (Transforms (ToLegacyConfig c))) (map_to_list (Sinks (ToLegacyConfig c)))
    (ToLegacyConfig c)) = false.
Proof. split; [|split]; vm_compute; reflexivity. Qed.

(** A step with both a filter and a transform keeps only the filter. *)
Example filter_hides_transform :
  TransformOptions (step_transform "input" (MkStep "a" "root = this" "x > 1" (S754_zero false) None))
  = {["condition" := VString "x > 1"]}.
Proof. reflexivity. Qed.
