(* ===== verification/Runner.v ===== *)
(** * The pipeline runner (pkg/pipeline/runner.go)

    Starting, stopping, pausing and resuming a pipeline: flat pipelines become actors of a
    new actor system, actor pipelines a root supervisor, stream pipelines a stream
    processor. The orders in which Go visits the maps of a configuration are arguments. *)

From Stdlib Require Import String SpecFloat.
From S2P Require Import Prelude GoString GoValue Mailbox Supervisor Schema.
From S2P Require Import Stream StreamSink StreamActor ConfigV1 ActorSystem.
Local Open Scope string_scope.
Local Open Scope list_scope.

Inductive PipelineStatus :=
| PipelineStatusPending
| PipelineStatusRunning
| PipelineStatusPaused
| PipelineStatusCompleted
| PipelineStatusFailed
| PipelineStatusStopped.

#[export] Instance PipelineStatus_eq_dec : EqDecision PipelineStatus.
Proof. solve_decision. Defined.

(** The orders of a range over the sources, transforms and sinks. *)
Record Orders := MkOrders {
  o_sources : list (string * ConfigV1.SourceConfig);
  o_transforms : list (string * TransformConfig);
  o_sinks : list (string * ConfigV1.SinkConfig)
}.

Definition orders_of (o : Orders) (c : ConfigV1.PipelineConfig) : Prop :=
  o_sources o ≡ₚ map_to_list (Sources c) /\ o_transforms o ≡ₚ map_to_list (Transforms c) /\
  o_sinks o ≡ₚ map_to_list (Sinks c).

(** [ctxCancelled] is the state of the context made by [NewRunner], which is never made
    again. *)
Record Runner := MkRunner {
  config : ConfigV1.PipelineConfig;
  system : option System;
  rootActor : option ActorRef;
  processor : option (Source * StreamProcessor SinkState);
  status : PipelineStatus;
  ctxCancelled : bool
}.

Definition NewRunner (o : Orders) (cfg : ConfigV1.PipelineConfig) : res string Runner :=
  match Validate (o_transforms o) (o_sinks o) cfg with
  | Ok _ => Ok (MkRunner cfg None None None PipelineStatusPending false)
  | Err e => Err ("invalid config: " +:+ e)
  | Panic => Panic
  end.

(** ** Flat pipelines *)

(** The configurations handed to the actors: options override the two fixed keys. *)
Definition source_config (s : ConfigV1.SourceConfig) : Data :=
  SourceOptions s ∪ {["source_type" := VString (SourceType s)]}.
Definition transform_config (t : TransformConfig) : Data :=
  TransformOptions t ∪ <["transform_type" := VString (TransformType t)]>
                        {["inputs" := VStrings (TransformInputs t)]}.
Definition sink_config (k : ConfigV1.SinkConfig) : Data :=
  SinkOptions k ∪ <["sink_type" := VString (SinkType k)]> {["inputs" := VStrings (SinkInputs k)]}.

(** The actors of a flat pipeline in the order of their creation. *)
Definition flat_actors (o : Orders) : list (string * Factory) :=
  ((fun '(n, s) => (n, SourceActor n (source_config s))) <$> o_sources o) ++
  ((fun '(n, t) => (n, TransformActor n (transform_config t))) <$> o_transforms o) ++
  ((fun '(n, k) => (n, SinkActor n (sink_config k))) <$> o_sinks o).

Definition top_props (n : string) (f : Factory) : Props := MkProps n (Some f) 0 None None [].

Definition spawn_all (l : list (string * Factory)) : act unit :=
  for_all (fun '(n, f) => let* _ := spawn (top_props n f) None in ret tt) l.

Definition startFlatPipeline (o : Orders) : act unit := spawn_all (flat_actors o).

(** ** Actor pipelines *)

(** A [SpawnChildRequest] is a payload the actor package does not know. *)
Definition spawn_child_request : Message := MkMessage MessageTypeLifecycle (DataPayload VNil).

(** The properties such a request carries. *)
Definition createProps (def : ActorDefinition) : Props :=
  MkProps (DefName def) (def_factory (DefType def) (DefName def) (DefSupervision def) (DefConfig def))
    (DefParallelism def) (DefSupervision def) None (DefOutputs def).

Definition spawnChildren (parent : ActorRef) (children : list ActorDefinition) : act unit :=
  for_all (fun _ => ignore (Tell parent spawn_child_request)) children.

Definition startActorPipeline (c : ConfigV1.PipelineConfig) : act ActorRef :=
  match Pipeline c with
  | None => fail ErrActorNotFound
  | Some d =>
      let props := MkProps (DefName d) (Some (SupervisorActor (DefSupervision d))) 0
                     (DefSupervision d) None [] in
      let* ref := spawn props None in
      spawnChildren ref (DefChildren d) ;* ret ref
  end.

(** ** Stream pipelines *)

Definition first_of {A B} (none : string) (l : list A) (f : A -> res string B) : res string B :=
  match l with
  | [] => Err none
  | x :: _ => f x
  end.

Definition build_stream `{GoArch} (now : Z) (o : Orders) (c : ConfigV1.PipelineConfig)
  : res string (Source * StreamProcessor SinkState) :=
  first_of "no source defined" (o_sources o) (fun '(n, s) =>
    wrap_err (fun e => "failed to create source " +:+ n +:+ ": " +:+ e)
      (NewSource (MkSourceConfig (SourceType s) n (SourceOptions s)))) ≫= fun src =>
  foldr (fun '(n, t) rest =>
    wrap_err (fun e => "failed to create stage " +:+ n +:+ ": " +:+ e)
      (NewStage (MkStageConfig (TransformType t) n "" (TransformOptions t))) ≫= fun s =>
    rest ≫= fun ss => Ok (s :: ss)) (Ok []) (o_transforms o) ≫= fun ss =>
  first_of "no sink defined" (o_sinks o) (fun '(n, k) =>
    wrap_err (fun e => "failed to create sink " +:+ n +:+ ": " +:+ e)
      (NewSink now (MkSinkConfig (SinkType k) n 0 0 (SinkOptions k)))) ≫= fun snk =>
  Ok (src, NewStreamProcessor (ConfigV1.Name c) (source_Name src) ss (snk, [])).

Definition startStreamPipeline `{GoArch} (now : Z) (o : Orders) (c : ConfigV1.PipelineConfig)
  : res string (Source * StreamProcessor SinkState) :=
  build_stream now o c ≫= fun '(src, p) =>
  wrap_err (fun e => "failed to start stream processor: " +:+ e) (Stream.Start now p) ≫= fun p =>
  Ok (src, p).

(** ** The runner *)

Definition set_runner (sys : option System) (root : option ActorRef)
  (p : option (Source * StreamProcessor SinkState)) (st : PipelineStatus) (r : Runner) : Runner :=
  MkRunner (config r) sys root p st (ctxCancelled r).

(** The system after [_ = r.system.Stop()] or the end of [Stop]. *)
Definition stopped_system (s : System) : System :=
  match ActorSystem.Stop s with Returns _ s' => s' | _ => s end.
Definition started_system (c : ConfigV1.PipelineConfig) : System :=
  match ActorSystem.Start (NewSystem (ConfigV1.Name c) (SystemMailbox c)) with
  | Returns _ s => s
  | _ => NewSystem (ConfigV1.Name c) (SystemMailbox c)
  end.

(** The end of [Start]: the pipeline runs, or the new system is stopped again. The error's
    text carries no name of an actor. *)
Definition finish_start {A} (r : Runner) (m : outcome (SysError + A) System)
  (ok : A -> System -> Runner) : outcome (res string unit) Runner :=
  match m with
  | Returns (inr a) s => Returns (Ok tt) (ok a s)
  | Returns (inl e) s =>
      Returns (Err "failed to spawn")
        (set_runner (Some (stopped_system s)) (rootActor r) (processor r) (status r) r)
  | Blocks => Blocks
  | Panics => Panics
  end.

Definition Start `{GoArch} (now : Z) (o : Orders) (r : Runner) : outcome (res string unit) Runner :=
  if bool_decide (status r = PipelineStatusRunning)
  then Returns (Err "pipeline is already running") r
  else
    let c := config r in
    let s := started_system c in
    if PType c =? PipelineTypeFlat then
      finish_start r (startFlatPipeline o s) (fun _ s =>
        set_runner (Some s) (rootActor r) (processor r) PipelineStatusRunning r)
    else if PType c =? PipelineTypeActor then
      finish_start r (startActorPipeline c s) (fun ref s =>
        set_runner (Some s) (Some ref) (processor r) PipelineStatusRunning r)
    else if PType c =? PipelineTypeStream then
      match startStreamPipeline now o c with
      | Ok p => Returns (Ok tt) (set_runner (Some s) (rootActor r) (Some p) PipelineStatusRunning r)
      | Err e => Returns (Err e)
                   (set_runner (Some (stopped_system s)) (rootActor r) (processor r) (status r) r)
      | Panic => Panics
      end
    else Returns (Err ("unknown pipeline type: " +:+ PType c))
           (set_runner (Some (stopped_system s)) (rootActor r) (processor r) (status r) r).

(** [Stop]: an error of the stream processor leaves the system and the status alone. *)
Definition Stop (now : Z) (r : Runner) : res string unit * Runner :=
  if negb (bool_decide (status r = PipelineStatusRunning) || bool_decide (status r = PipelineStatusPaused))
  then (Err "pipeline is not running", r)
  else
    let r := MkRunner (config r) (system r) (rootActor r) (processor r) (status r) true in
    match (match processor r with
           | Some x => wrap_err (fun e => "failed to stop stream processor: " +:+ e)
                         (stop_both now x ≫= fun x => Ok (Some x))
           | None => Ok None
           end) with
    | Ok p => (Ok tt, set_runner (stopped_system <$> system r) (rootActor r) p PipelineStatusStopped r)
    | Err e => (Err e, r)
    | Panic => (Panic, r)
    end.

Definition on_stream (f : (Source * StreamProcessor SinkState) -> res string (Source * StreamProcessor SinkState))
  (st : PipelineStatus) (r : Runner) : res string unit * Runner :=
  match processor r with
  | None => (Ok tt, set_runner (system r) (rootActor r) None st r)
  | Some x =>
      match f x with
      | Ok x => (Ok tt, set_runner (system r) (rootActor r) (Some x) st r)
      | Err e => (Err e, r)
      | Panic => (Panic, r)
      end
  end.

Definition Pause (r : Runner) : res string unit * Runner :=
  if bool_decide (status r = PipelineStatusRunning)
  then on_stream pause_both PipelineStatusPaused r else (Err "pipeline is not running", r).
Definition Resume (r : Runner) : res string unit * Runner :=
  if bool_decide (status r = PipelineStatusPaused)
  then on_stream resume_both PipelineStatusRunning r else (Err "pipeline is not paused", r).

(** [Wait] returns once the context is done. *)
Definition wait_returns (r : Runner) : bool := ctxCancelled r.

(** ** Which flat pipelines start *)

Definition top_path (s : System) (n : string) : string := actor_path s None n.

Lemma top_path_inj s n n' : top_path s n = top_path s n' -> n = n'.
Proof. unfold top_path, actor_path. intros E. by repeat apply (inj (String.append _)) in E. Qed.

(** Spawning a top-level actor. *)
Lemma spawn_top props a s :
  running s = true -> call_factory props = Some a -> PropsMailbox props = None ->
  let n := PropsName props in
  spawn props None s =
  match actors s !! top_path s n with
  | Some _ => Returns (inl ErrActorExists) s
  | None =>
      Returns (inr (next s))
        (MkSystem (sys_name s) (sys_mailbox s) (<[top_path s n := next s]> (actors s))
           (<[next s := MkActorInfo (top_path s n) n None ∅ (NewMailbox (sys_mailbox s)) a true
                          (cancelled s)]> (heap s)) (S (next s)) true (cancelled s))
  end.
Proof.
  intros Hr Hf Hm n. unfold spawn, bind, get, ret, put, fail. rewrite Hr, Hf, Hm. subst n.
  unfold top_path, actor_path. simpl. by destruct (actors s !! _).
Qed.

Lemma spawn_all_cons n f l s :
  spawn_all ((n, f) :: l) s =
  match spawn (top_props n f) None s with
  | Returns (inr _) s' => spawn_all l s'
  | Returns (inl e) s' => Returns (inl e) s'
  | Blocks => Blocks
  | Panics => Panics
  end.
Proof. unfold spawn_all. cbn [for_all]. unfold bind. by destruct (spawn _ _ _) as [[]| |]. Qed.

Lemma spawn_all_spec l s :
  running s = true -> Forall (fun x => call_factory (top_props x.1 x.2) <> None) l ->
  (exists s', spawn_all l s = Returns (inr tt) s' /\ running s' = true /\ sys_name s' = sys_name s /\
     NoDup (map fst l) /\ (forall n, n ∈ map fst l -> actors s !! top_path s n = None) /\
     dom (actors s') = dom (actors s) ∪ list_to_set (top_path s <$> map fst l)) \/
  (exists s', spawn_all l s = Returns (inl ErrActorExists) s' /\
     (~ NoDup (map fst l) \/ exists n, n ∈ map fst l /\ is_Some (actors s !! top_path s n))).
Proof.
  revert s. induction l as [|[n f] l IH]; intros s Hr Hf.
  { left. exists s. split; [done|]. split; [done|]. split; [done|]. split; [apply NoDup_nil_2|]. split; [set_solver|].
    simpl. set_solver. }
  apply Forall_cons in Hf as [Hf Hfs]. simpl in Hf.
  destruct (call_factory (top_props n f)) as [a|] eqn:Hcall; [|done].
  rewrite spawn_all_cons, (spawn_top _ a) by done. simpl PropsName. cbv zeta.
  destruct (actors s !! top_path s n) as [r|] eqn:E.
  { right. exists s. split; [done|]. right. exists n. split; [set_solver|]. by eexists. }
  set (s1 := MkSystem _ _ _ _ _ _ _).
  destruct (IH s1 eq_refl Hfs) as [(s' & Hs & Hr' & Hnm & Hnd & Hfresh & Hdom)|(s' & Hs & Hbad)]; rewrite Hs.
  - assert (n ∉ map fst l) as Hn.
    { intros Hin. specialize (Hfresh n Hin). simpl in Hfresh.
      change (top_path s1 n) with (top_path s n) in Hfresh. by rewrite lookup_insert_eq in Hfresh. }
    left. exists s'. split; [done|]. split; [done|]. split; [done|]. split; [by apply NoDup_cons|]. split.
    + intros n' [->|Hin]%elem_of_cons; [done|]. specialize (Hfresh n' Hin). simpl in Hfresh.
      change (top_path s1 n') with (top_path s n') in Hfresh. by apply lookup_insert_None in Hfresh as [? _].
    + rewrite Hdom. simpl. rewrite dom_insert_L. change (top_path s1) with (top_path s). set_solver.
  - right. exists s'. split; [done|]. destruct Hbad as [Hnd|(n' & Hin & [r Hr'])].
    + left. cbn [map fst]. rewrite NoDup_cons. tauto.
    + change (top_path s1 n') with (top_path s n') in Hr'. simpl in Hr'.
      apply lookup_insert_Some in Hr' as [[Heq _]|[_ Ha]].
      * apply top_path_inj in Heq as <-. left. cbn [map fst]. rewrite NoDup_cons. tauto.
      * right. exists n'. split; [set_solver|]. by eexists.
Qed.

Lemma started_system_running c : running (started_system c) = true /\ actors (started_system c) = ∅.
Proof. done. Qed.

Lemma flat_actors_names o :
  map fst (flat_actors o) = map fst (o_sources o) ++ map fst (o_transforms o) ++ map fst (o_sinks o).
Proof.
  unfold flat_actors. rewrite !map_app. f_equal; [|f_equal].
  all: match goal with |- map fst (?f <$> ?l) = _ => induction l as [|[] ? IH]; [done|] end;
    simpl; by rewrite <- IH.
Qed.

(** Which factories do not panic. *)
Lemma flat_actors_create o :
  Forall (fun x => (0 <= buffer_events (sink_config x.2))%Z) (o_sinks o) ->
  Forall (fun x => call_factory (top_props x.1 x.2) <> None) (flat_actors o).
Proof.
  intros Hs. unfold flat_actors. rewrite !Forall_app, !Forall_fmap.
  split; [|split]; [apply Forall_true; by intros []..|].
  eapply Forall_impl; [exact Hs|]. intros [n k] Hk. cbn -[sink_config].
  unfold call_factory. cbn -[sink_config]. destruct (Z.ltb_spec (buffer_events (sink_config k)) 0); [|done].
  simpl in Hk. lia.
Qed.

(** A flat pipeline starts exactly when the names of its sources, transforms and sinks
    are all different, provided no sink has a negative buffer size; it then has one actor
    for each of them in a running system. Otherwise the start fails, the new system is stopped and the status stays. *)
Theorem flat_pipeline_starts `{GoArch} (now : Z) (o : Orders) (r : Runner) :
  PType (config r) = PipelineTypeFlat -> status r <> PipelineStatusRunning ->
  Forall (fun x => (0 <= buffer_events (sink_config x.2))%Z) (o_sinks o) ->
  let names := map fst (o_sources o) ++ map fst (o_transforms o) ++ map fst (o_sinks o) in
  (NoDup names /\ exists r' s, Start now o r = Returns (Ok tt) r' /\ status r' = PipelineStatusRunning /\
     system r' = Some s /\ running s = true /\
     dom (actors s) = list_to_set (top_path s <$> names)) \/
  (~ NoDup names /\ exists r' s e, Start now o r = Returns (Err e) r' /\ status r' = status r /\
     system r' = Some s /\ running s = false).
Proof.
  intros Ht Hs Hbuf names. unfold Start. rewrite bool_decide_eq_false_2 by done. rewrite Ht. simpl.
  destruct (started_system_running (config r)) as [Hrun Hemp].
  unfold startFlatPipeline.
  destruct (spawn_all_spec (flat_actors o) (started_system (config r)) Hrun (flat_actors_create o Hbuf))
    as [(s' & -> & Hr' & Hnm & Hnd & _ & Hdom)|(s' & -> & Hbad)]; rewrite flat_actors_names in *; simpl.
  - left. split; [done|]. do 2 eexists. split; [reflexivity|]. split; [done|]. split; [done|].
    split; [done|]. rewrite Hdom, Hemp, dom_empty_L, union_empty_l_L.
    f_equal. apply list_fmap_ext. intros i n _. unfold top_path, actor_path. by rewrite Hnm.
  - right. split.
    { destruct Hbad as [|(n & _ & [r' Hn])]; [done|]. by rewrite Hemp, lookup_empty in Hn. }
    do 3 eexists. split; [reflexivity|]. split; [done|]. split; [done|].
    unfold stopped_system, ActorSystem.Stop, bind, get, put, ret. by destruct (running s') eqn:E.
Qed.

(** A source [in] whose records go to a sink of a given name. *)
Definition demo_orders (sink : string) : Orders :=
  MkOrders [("in", MkSource "demo" ∅)] [] [(sink, MkSinkCfg "console" ["in"] ∅)].
Definition demo_runner (sink : string) : Runner :=
  MkRunner (MkConfig "1.0" "p" PipelineTypeFlat None None {["in" := MkSource "demo" ∅]} ∅
              {[sink := MkSinkCfg "console" ["in"] ∅]} None) None None None PipelineStatusPending false.

#[local] Instance x86 : GoArch := {| int64_overflow := fun _ => (- 2 ^ 63)%Z |}.

(** Both branches occur: validation admits a sink with its source's name. *)
Lemma flat_pipeline_starts_witness :
  (exists r' s, Start 0 (demo_orders "out") (demo_runner "out") = Returns (Ok tt) r' /\
     system r' = Some s /\ dom (actors s) = list_to_set (top_path s <$> ["in"; "out"])) /\
  NewRunner (demo_orders "in") (config (demo_runner "in")) = Ok (demo_runner "in") /\
  exists r' e, Start 0 (demo_orders "in") (demo_runner "in") = Returns (Err e) r'.
Proof.
  split; [|split].
  - destruct (flat_pipeline_starts 0 (demo_orders "out") (demo_runner "out")) as
      [(_ & r' & s & H1 & _ & H2 & _ & H3)|[Hn _]]; [done|done|by repeat constructor| |].
    + by exists r', s.
    + exfalso. apply Hn. apply (bool_decide_eq_true_1 _). by vm_compute.
  - by vm_compute.
  - destruct (flat_pipeline_starts 0 (demo_orders "in") (demo_runner "in")) as
      [[Hn _]|(_ & r' & s & e & H1 & _)]; [done|done|by repeat constructor| |].
    + exfalso. revert Hn. apply (bool_decide_eq_false_1 _). by vm_compute.
    + by exists r', e.
Defined.

(** ** Actor pipelines start only their root *)

Definition requests (n : nat) : list Message := replicate n spawn_child_request.

Lemma push_room {M} (m : Mailbox M) msg :
  closed m = false -> full m = false -> Push m msg = Returns (Ok tt) (enqueue m msg).
Proof. intros Hc Hf. unfold Push. rewrite Hc, Hf. simpl. by repeat case_match. Qed.

(** Each request is queued in the mailbox of the parent, and nothing else happens. *)
Lemma spawnChildren_spec r i cs s :
  heap s !! r = Some i -> closed (ai_mailbox i) = false ->
  List.length (messages (ai_mailbox i)) + List.length cs <= capacity (ai_mailbox i) ->
  spawnChildren r cs s =
  Returns (inr tt) (set_heap s (<[r := with_mailbox (set_messages (ai_mailbox i)
                     (messages (ai_mailbox i) ++ requests (List.length cs))) i]> (heap s))).
Proof.
  revert i s. induction cs as [|c cs IH]; intros i s Hi Hc Hroom; simpl in Hroom.
  { unfold spawnChildren, requests. simpl. rewrite app_nil_r. unfold ret. do 2 f_equal.
    destruct s, i as [? ? ? ? []]. unfold set_heap, with_mailbox, set_messages. simpl in *. by rewrite insert_id. }
  unfold spawnChildren. cbn [for_all]. unfold bind at 1, ignore at 1, Tell at 1, bind at 1, deref at 1.
  rewrite Hi, push_room by (try done; unfold full; apply Nat.leb_gt; lia).
  unfold update at 1. fold (spawnChildren r cs).
  set (i1 := with_mailbox (enqueue (ai_mailbox i) spawn_child_request) i).
  rewrite (IH i1).
  - f_equal. destruct s. unfold set_heap. simpl. f_equal. apply map_eq. intros j.
    destruct (decide (j = r)) as [->|Hj].
    + rewrite !lookup_insert_eq. unfold i1, with_mailbox, enqueue, set_messages. simpl. do 2 f_equal.
      by rewrite <- app_assoc.
    + rewrite !lookup_insert_ne by done. by rewrite lookup_alter_ne.
  - simpl. rewrite lookup_alter_eq. by rewrite Hi.
  - done.
  - simpl. rewrite length_app. simpl. lia.
Qed.

(** An actor pipeline comes up with its root supervisor alone, however many children its
    definition has: each child becomes a request in the root's mailbox, and receiving a
    request changes nothing. *)
Theorem actor_pipeline_starts_only_its_root `{GoArch} (now : Z) (o : Orders) (r : Runner) (d : ActorDefinition) :
  PType (config r) = PipelineTypeActor -> Pipeline (config r) = Some d ->
  status r <> PipelineStatusRunning ->
  List.length (DefChildren d) <= capacity (@NewMailbox Message (SystemMailbox (config r))) ->
  exists r' s root i, Start now o r = Returns (Ok tt) r' /\ status r' = PipelineStatusRunning /\
    system r' = Some s /\ rootActor r' = Some root /\ actors s = {[top_path s (DefName d) := root]} /\
    heap s !! root = Some i /\ messages (ai_mailbox i) = requests (List.length (DefChildren d)) /\
    forall orders orders' now', Receive orders orders' now' root spawn_child_request s = Returns (inr tt) s.
Proof.
  intros Ht Hd Hs Hcap. unfold Start. rewrite bool_decide_eq_false_2 by done. rewrite Ht.
  change (PipelineTypeActor =? PipelineTypeFlat) with false.
  change (PipelineTypeActor =? PipelineTypeActor) with true. cbn match.
  unfold startActorPipeline. rewrite Hd. unfold bind at 1.
  rewrite (spawn_top _ (create (SupervisorActor (DefSupervision d)))) by done.
  destruct (started_system_running (config r)) as [_ ->]. rewrite lookup_empty. unfold bind.
  erewrite spawnChildren_spec; [|simpl; by rewrite lookup_insert_eq|done|done].
  unfold ret, finish_start, set_runner. do 4 eexists. split; [reflexivity|].
  do 4 (split; [done|]). split; [simpl; by rewrite lookup_insert_eq|]. by split.
Qed.


(** A root with three children. *)
Definition leaf (n t : string) : ActorDefinition := MkActorDefinition n t 0 None ∅ [] [].
Definition tree : ActorDefinition :=
  MkActorDefinition "root" "supervisor" 0 None ∅ [] [leaf "in" "source"; leaf "map" "transform"; leaf "out" "sink"].
Definition tree_runner : Runner :=
  MkRunner (MkConfig "1.0" "p" PipelineTypeActor None (Some tree) ∅ ∅ ∅ None) None None None
    PipelineStatusPending false.

Lemma actor_pipeline_starts_only_its_root_witness :
  NewRunner (MkOrders [] [] []) (config tree_runner) = Ok tree_runner /\
  exists r' s root, Start 0 (MkOrders [] [] []) tree_runner = Returns (Ok tt) r' /\ system r' = Some s /\
    actors s = {[ "/p/root" := root ]}.
Proof.
  split; [by vm_compute|].
  destruct (actor_pipeline_starts_only_its_root 0 (MkOrders [] [] []) tree_runner tree)
    as (r' & s & root & i & H1 & _ & H2 & _ & H3 & _); [done|done|done| |].
  - apply Nat.leb_le. by vm_compute.
  - exists r', s, root. split; [done|]. split; [done|]. rewrite H3.
    assert (sys_name s = "p") as Hn; [|unfold top_path, actor_path; by rewrite Hn].
    revert H2. assert (Some r' = match Start 0 (MkOrders [] [] []) tree_runner with Returns _ x => Some x | _ => None end)
      as Hr by by rewrite H1.
    injection Hr as ->. intros [= <-]. done.
Defined.

(** ** Starting again *)

(** What a client can see of the states: [Start] is refused only while running, a stop, a
    pause or a resume only from the states they name. *)
Inductive runner_step `{GoArch} : Runner -> Runner -> Prop :=
| step_start now o r r' : Start now o r = Returns (Ok tt) r' -> runner_step r r'
| step_start_failed now o r r' e : Start now o r = Returns (Err e) r' -> runner_step r r'
| step_stop now r x r' : Stop now r = (x, r') -> runner_step r r'
| step_pause r x r' : Pause r = (x, r') -> runner_step r r'
| step_resume r x r' : Resume r = (x, r') -> runner_step r r'.

(** The invariant of a runner: running and paused pipelines have a system, and only a runner
    that was stopped has a cancelled context. *)
Definition runner_ok (r : Runner) : Prop :=
  (status r = PipelineStatusRunning \/ status r = PipelineStatusPaused -> is_Some (system r)) /\
  (status r = PipelineStatusStopped -> ctxCancelled r = true) /\
  status r ∈ [PipelineStatusPending; PipelineStatusRunning; PipelineStatusPaused; PipelineStatusStopped].

(** What [Start] may change. *)
Definition start_changes (r r' : Runner) : Prop :=
  r' = r \/ ctxCancelled r' = ctxCancelled r /\ is_Some (system r') /\
    (status r' = status r \/ status r' = PipelineStatusRunning).

Lemma set_runner_changes s root p st r :
  st = status r \/ st = PipelineStatusRunning -> start_changes r (set_runner (Some s) root p st r).
Proof. intros Hst. right. split; [done|]. split; [by eexists|done]. Qed.

Lemma finish_start_changes {A} r (m : outcome (SysError + A) System) ok x r' :
  (forall a s, start_changes r (ok a s)) -> finish_start r m ok = Returns x r' -> start_changes r r'.
Proof.
  intros Hok. unfold finish_start. destruct m as [[e|a] s| |]; intros; simplify_eq; [|done].
  apply set_runner_changes. by left.
Qed.

Lemma start_context `{GoArch} now o r x r' : Start now o r = Returns x r' -> start_changes r r'.
Proof.
  unfold Start. case_bool_decide.
  { intros. simplify_eq. by left. }
  destruct (_ =? PipelineTypeFlat).
  { apply finish_start_changes. intros. apply set_runner_changes. by right. }
  destruct (_ =? PipelineTypeActor).
  { apply finish_start_changes. intros. apply set_runner_changes. by right. }
  destruct (_ =? PipelineTypeStream); [destruct startStreamPipeline|].
  all: intros; simplify_eq; apply set_runner_changes; auto.
Qed.

Lemma on_stream_context f st r x r' :
  on_stream f st r = (x, r') ->
  ctxCancelled r' = ctxCancelled r /\ (status r' = status r \/ status r' = st) /\ system r' = system r.
Proof. unfold on_stream. destruct (processor r); [destruct (f _)|]; intros; simplify_eq; simpl; auto. Qed.

Lemma stop_context now r x r' :
  Stop now r = (x, r') ->
  r' = r \/ ctxCancelled r' = true /\ config r' = config r /\
    (status r' = status r /\ system r' = system r \/ status r' = PipelineStatusStopped).
Proof. unfold Stop. destruct (negb _); [intros; simplify_eq; by left|]. cbv zeta.
  destruct (match _ with Some _ => _ | None => _ end); intros; simplify_eq; right; simpl; auto. Qed.

(** Each operation keeps the invariant and a cancelled context. *)
Lemma runner_step_ok `{GoArch} r r' :
  runner_step r r' -> runner_ok r -> runner_ok r' /\ (ctxCancelled r = true -> ctxCancelled r' = true).
Proof.
  intros Hstep Hok. unfold runner_ok in *. rewrite !elem_of_cons, elem_of_nil in *.
  destruct Hstep as [now o r r' Hs|now o r r' e Hs|now r x r' Hs|r x r' Hs|r x r' Hs].
  - apply start_context in Hs as [->|(-> & ? & [-> | ->])]; naive_solver.
  - apply start_context in Hs as [->|(-> & ? & [-> | ->])]; naive_solver.
  - apply stop_context in Hs as [->|(-> & _ & [[-> ->] | ->])]; naive_solver.
  - unfold Pause in Hs. case_bool_decide; [|by simplify_eq].
    apply on_stream_context in Hs as (-> & [-> | ->] & ->); naive_solver.
  - unfold Resume in Hs. case_bool_decide; [|by simplify_eq].
    apply on_stream_context in Hs as (-> & [-> | ->] & ->); naive_solver.
Qed.

(** Whatever a client calls, a runner that runs or is paused has an actor system; and once
    it was stopped, [Wait] returns at once for ever after, a pipeline that was started
    again included. *)
Theorem runner_invariant `{GoArch} (o : Orders) (cfg : ConfigV1.PipelineConfig) (r0 r r' : Runner) :
  NewRunner o cfg = Ok r0 -> rtc runner_step r0 r -> rtc runner_step r r' ->
  runner_ok r /\ (status r = PipelineStatusStopped -> wait_returns r' = true).
Proof.
  intros Hn H1 H2.
  assert (runner_ok r0) as Hok.
  { unfold NewRunner in Hn. destruct (Validate _ _ _); simplify_eq. split; [|split]; simpl;
      [intros [?|?]; done | done | set_solver]. }
  assert (runner_ok r) as Hr.
  { revert H1 Hok. clear. induction 1; [done|]. intros Hok. by eapply IHrtc, runner_step_ok. }
  split; [done|]. intros Hst. assert (ctxCancelled r = true) as Hc by (by apply Hr).
  revert H2 Hr Hc. clear. induction 1; intros Hr Hc; [done|].
  destruct (runner_step_ok _ _ H0 Hr) as [? ?]. auto.
Qed.

(** Started, stopped and started again: the pipeline runs and [Wait] does not wait. *)
Lemma runner_invariant_witness :
  exists r r', rtc runner_step (demo_runner "out") r /\ status r = PipelineStatusStopped /\
    rtc runner_step r r' /\ status r' = PipelineStatusRunning /\ wait_returns r' = true.
Proof.
  destruct (Start 0 (demo_orders "out") (demo_runner "out")) as [x1 r1| |] eqn:E1;
    [|by vm_compute in E1|by vm_compute in E1].
  destruct (Stop 1 r1) as [x2 r2] eqn:E2.
  destruct (Start 2 (demo_orders "out") r2) as [x3 r3| |] eqn:E3.
  2, 3: revert E3; vm_compute in E1; injection E1 as <- <-; vm_compute in E2; injection E2 as <- <-; by vm_compute.
  assert (x1 = Ok tt /\ status r2 = PipelineStatusStopped /\ x3 = Ok tt /\ status r3 = PipelineStatusRunning)
    as (-> & Hs2 & -> & Hs3).
  { vm_compute in E1. injection E1 as <- <-. vm_compute in E2. injection E2 as <- <-.
    vm_compute in E3. by injection E3 as <- <-. }
  assert (rtc runner_step (demo_runner "out") r2) as S1.
  { eapply rtc_l; [by eapply step_start|]. apply rtc_once. by eapply step_stop. }
  assert (rtc runner_step r2 r3) as S2 by (apply rtc_once; by eapply step_start).
  exists r2, r3. do 4 (split; [done|]).
  apply (runner_invariant (demo_orders "out") (config (demo_runner "out")) (demo_runner "out") r2 r3); try done.
Defined.
