(* ===== verification/Agent.v ===== *)
(** * The pipeline agent (pipeline-agent/internal/agent/agent.go)

    An agent runs pipelines with the runner of [Runner] and talks to the control plane
    through the resilient Redis client, with REST as a fallback. The network answers are
    arguments of the operations: the reply of Redis to a write and the status of an HTTP
    response. What JSON decoding gives for a message is a parameter. *)

From Stdlib Require Import String SpecFloat.
From stdpp Require Import pretty.
From S2P Require Import Prelude GoString GoValue Schema Mailbox ActorSystem.
From S2P Require Import ResilientClient Stream StreamSink StreamActor Hierarchy ConfigV1 Runner.
Local Open Scope string_scope.
Local Open Scope list_scope.

Inductive CommunicationMode := ModeRedis | ModeREST | ModeHybrid.

#[export] Instance CommunicationMode_eq_dec : EqDecision CommunicationMode.
Proof. solve_decision. Defined.

Definition AgentStatus := string.
Definition AgentStatusOnline : AgentStatus := "online".
Definition AgentStatusOffline : AgentStatus := "offline".

Record AgentConfig := MkAgentConfig {
  CfgID : string;
  ControlPlaneURL : string;
  RedisHost : string;
  EnableRESTFallback : bool
}.

(** [StartTime] and [StopTime] are left out: nothing reads them. *)
Record PipelineInstance := MkInstance {
  InstID : string;
  InstConfig : ConfigV1.PipelineConfig;
  InstRunner : Runner;
  InstStatus : PipelineStatus
}.

(** [subscriptions] is the key set of the map the Redis client keeps. *)
Record Agent := MkAgent {
  AgentID : string;
  AgentStatusOf : AgentStatus;
  agent_config : AgentConfig;
  pipelines : gmap string PipelineInstance;
  agent_cancelled : bool;
  redisClient : option ResilientClient;
  subscriptions : gset string;
  commMode : CommunicationMode;
  redisHealthy : bool
}.

Definition set_pipelines (m : gmap string PipelineInstance) (a : Agent) : Agent :=
  MkAgent (AgentID a) (AgentStatusOf a) (agent_config a) m (agent_cancelled a) (redisClient a)
    (subscriptions a) (commMode a) (redisHealthy a).
Definition set_client (c : option ResilientClient) (a : Agent) : Agent :=
  MkAgent (AgentID a) (AgentStatusOf a) (agent_config a) (pipelines a) (agent_cancelled a) c
    (subscriptions a) (commMode a) (redisHealthy a).
Definition set_comm (healthy : bool) (m : CommunicationMode) (a : Agent) : Agent :=
  MkAgent (AgentID a) (AgentStatusOf a) (agent_config a) (pipelines a) (agent_cancelled a) (redisClient a)
    (subscriptions a) m healthy.
Definition set_subscriptions (s : gset string) (a : Agent) : Agent :=
  MkAgent (AgentID a) (AgentStatusOf a) (agent_config a) (pipelines a) (agent_cancelled a) (redisClient a)
    s (commMode a) (redisHealthy a).
Definition set_agent_status (s : AgentStatus) (cancelled : bool) (a : Agent) : Agent :=
  MkAgent (AgentID a) s (agent_config a) (pipelines a) cancelled (redisClient a)
    (subscriptions a) (commMode a) (redisHealthy a).

(** ** The connection to Redis *)

Definition onRedisStateChange (new : ConnectionState) (a : Agent) : Agent :=
  let connected_now := match new with StateConnected => true | _ => false end in
  let mode :=
    match new with
    | StateConnected =>
        if bool_decide (commMode a = ModeREST) && EnableRESTFallback (agent_config a)
        then ModeHybrid else commMode a
    | StateDisconnected => if EnableRESTFallback (agent_config a) then ModeREST else commMode a
    | StateReconnecting => commMode a
    end in
  set_comm connected_now mode a.

(** [setConnectionState] of the client, with the callback of the agent. *)
Definition redis_state (new : ConnectionState) (a : Agent) : Agent :=
  match redisClient a with
  | None => a
  | Some rc =>
      let a' := set_client (Some (setConnectionState new rc)) a in
      match connState rc, new with
      | StateConnected, StateConnected | StateDisconnected, StateDisconnected
      | StateReconnecting, StateReconnecting => a'
      | _, _ => onRedisStateChange new a'
      end
  end.

(** [NewAgent]; [uuid] is a fresh identifier and [ping] tells whether the first connection
    succeeds. [NewResilientClient] never returns an error. *)
Definition NewAgent (uuid : string) (ping : bool) (cfg : AgentConfig) : Agent :=
  let id := if CfgID cfg =? "" then uuid else CfgID cfg in
  let agent := MkAgent id AgentStatusOffline cfg ∅ false None ∅ ModeRedis false in
  if negb (RedisHost cfg =? "") then
    let agent := set_client (Some (NewResilientClient false).1) agent in
    if ping then redis_state StateConnected agent else agent
  else if EnableRESTFallback cfg then set_comm false ModeREST agent
  else agent.

(** ** Pipelines *)

Section Agent_.
Context `{GoArch}.
(** The entry that a full cache of the Redis client evicts. *)
Context (victim : gmap string cacheEntry -> option string).

Definition StartPipeline (now : Z) (o : Orders) (pipelineID : string) (cfg : ConfigV1.PipelineConfig)
  (a : Agent) : outcome (res string unit) Agent :=
  match pipelines a !! pipelineID with
  | Some _ => Returns (Err ("pipeline " +:+ pipelineID +:+ " is already running")) a
  | None =>
      match NewRunner o cfg with
      | Err e => Returns (Err ("failed to create runner: " +:+ e)) a
      | Panic => Panics
      | Ok runner =>
          match Runner.Start now o runner with
          | Returns (Ok _) runner =>
              Returns (Ok tt) (set_pipelines (<[pipelineID := MkInstance pipelineID cfg runner
                                                  PipelineStatusRunning]> (pipelines a)) a)
          | Returns (Err e) _ => Returns (Err ("failed to start pipeline: " +:+ e)) a
          | Returns Panic _ | Panics => Panics
          | Blocks => Blocks
          end
      end
  end.

(** The instance is shared, so the runner an operation leaves behind stays in the map. *)
Definition put_instance (i : PipelineInstance) (r : Runner) (st : PipelineStatus) (a : Agent) : Agent :=
  set_pipelines (<[InstID i := MkInstance (InstID i) (InstConfig i) r st]> (pipelines a)) a.

Definition on_instance (pipelineID what : string) (f : Runner -> res string unit * Runner)
  (done_ : PipelineInstance -> Runner -> Agent) (a : Agent) : res string unit * Agent :=
  match pipelines a !! pipelineID with
  | None => (Err ("pipeline " +:+ pipelineID +:+ " not found"), a)
  | Some i =>
      match f (InstRunner i) with
      | (Ok _, r) => (Ok tt, done_ i r)
      | (Err e, r) => (Err ("failed to " +:+ what +:+ " pipeline: " +:+ e), put_instance i r (InstStatus i) a)
      | (Panic, r) => (Panic, put_instance i r (InstStatus i) a)
      end
  end.

Definition StopPipeline (now : Z) (pipelineID : string) (a : Agent) : res string unit * Agent :=
  on_instance pipelineID "stop" (Runner.Stop now)
    (fun _ _ => set_pipelines (delete pipelineID (pipelines a)) a) a.
Definition PausePipeline (pipelineID : string) (a : Agent) : res string unit * Agent :=
  on_instance pipelineID "pause" Runner.Pause (fun i r => put_instance i r PipelineStatusPaused a) a.
Definition ResumePipeline (pipelineID : string) (a : Agent) : res string unit * Agent :=
  on_instance pipelineID "resume" Runner.Resume (fun i r => put_instance i r PipelineStatusRunning a) a.

Definition GetPipelineStatus (pipelineID : string) (a : Agent) : res string PipelineInstance :=
  match pipelines a !! pipelineID with
  | None => Err ("pipeline " +:+ pipelineID +:+ " not found")
  | Some i => Ok i
  end.

(** The order is that of a range over the map. *)
Definition ListPipelines (a : Agent) : list PipelineInstance := (map_to_list (pipelines a)).*2.

Definition Start (a : Agent) : Agent := set_agent_status AgentStatusOnline (agent_cancelled a) a.

(** [Stop]: the errors of the runners are dropped. *)
Definition Stop (now : Z) (a : Agent) : outcome unit Agent :=
  if forallb (fun i => match (Runner.Stop now (InstRunner i)).1 with Panic => false | _ => true end)
       (ListPipelines a)
  then Returns tt (set_agent_status AgentStatusOffline true (set_pipelines ∅ a))
  else Panics.

(** ** Heartbeats *)

(** Timestamp and the usage figures, which are never set, are left out. *)
Record AgentHeartbeat := MkHeartbeat {
  HbAgent : string;
  HbPipelines : list string;
  HbStats : list (string * PipelineStatus)
}.

(** What the agent puts on the network. *)
Inductive Sent :=
| RedisSet (key : string) (h : AgentHeartbeat)
| RestPost (url : string) (h : AgentHeartbeat).

(** What [httpClient.Do] gives: an error, or a response with a status and a body. *)
Inductive HttpReply := HttpError (e : string) | HttpStatus (code : Z) (body : string).

Definition heartbeat_of (a : Agent) : AgentHeartbeat :=
  let l := map_to_list (pipelines a) in
  MkHeartbeat (AgentID a) l.*1 ((fun '(id, i) => (id, InstStatus i)) <$> l).

Definition heartbeat_url (a : Agent) : string :=
  ControlPlaneURL (agent_config a) +:+ "/api/v1/agents/" +:+ AgentID a +:+ "/heartbeat".

Definition sendHeartbeatREST (reply : HttpReply) : res string unit :=
  match reply with
  | HttpError e => Err ("failed to send request: " +:+ e)
  | HttpStatus code body =>
      if (400 <=? code)%Z
      then Err ("server returned error " +:+ pretty code +:+ ": " +:+ body) else Ok tt
  end.

Definition uses_redis (a : Agent) : bool :=
  bool_decide (commMode a = ModeRedis) || bool_decide (commMode a = ModeHybrid).

(** The attempt through Redis: its error, if it was made, what reached Redis and the agent
    with the client's new state. *)
Definition heartbeat_redis (now latency : Z) (data : string) (reply : WriteReply) (a : Agent)
  : option (res RequestError unit) * list Sent * Agent :=
  match redisClient a with
  | Some rc =>
      if uses_redis a then
        let key := "agent:" +:+ AgentID a +:+ ":heartbeat" in
        let '(r, rc, asked) := Set_ DefaultConfig victim now latency key (Some data) (30 * 1000000000)%Z reply rc in
        (Some r, if asked then [RedisSet key (heartbeat_of a)] else [], set_client (Some rc) a)
      else (None, [], a)
  | None => (None, [], a)
  end.

(** [sendHeartbeat]; [data] is the encoded heartbeat. The flag tells whether the failure of
    both ways is logged. *)
Definition sendHeartbeat (now latency : Z) (data : string) (reply : WriteReply) (http : HttpReply)
  (a : Agent) : list Sent * bool * Agent :=
  let '(redisErr, sent, a) := heartbeat_redis now latency data reply a in
  match redisErr with
  | Some (Ok _) => (sent, false, a)
  | _ =>
      let failed := match redisErr with Some _ => true | None => false end in
      if EnableRESTFallback (agent_config a) &&
         (bool_decide (commMode a = ModeREST) || bool_decide (commMode a = ModeHybrid) || failed)
      then
        let restErr := negb (is_ok (sendHeartbeatREST http)) in
        (sent ++ [RestPost (heartbeat_url a) (heartbeat_of a)], failed && restErr, a)
      else (sent, false, a)
  end.

(** ** Commands *)

Definition CommandType := string.
Definition CommandStartPipeline : CommandType := "start_pipeline".
Definition CommandStopPipeline : CommandType := "stop_pipeline".
Definition CommandPausePipeline : CommandType := "pause_pipeline".
Definition CommandResumePipeline : CommandType := "resume_pipeline".

(** [Payload] has type [any], so decoding makes it one of the JSON values. *)
Record AgentCommand := MkCommand {
  CmdID : string;
  CmdType : CommandType;
  CmdPipelineID : string;
  CmdPayload : GoValue
}.

(** The type assertion on the payload of a start command: no JSON value is a pointer to a
    configuration. *)
Definition payload_config (v : GoValue) : option ConfigV1.PipelineConfig :=
  match v with
  | VNil | VBool _ | VInt _ _ | VFloat32 _ | VFloat64 _ | VString _ | VStrings _ | VSlice _ | VMap _ => None
  end.

(** [Subscribe] of the client: an error only for a channel that has a handler already. *)
Definition Subscribe (channel : string) (a : Agent) : res string unit * Agent :=
  if bool_decide (channel ∈ subscriptions a)
  then (Err ("already subscribed to channel: " +:+ channel), a)
  else (Ok tt, set_subscriptions ({[channel]} ∪ subscriptions a) a).

Definition command_channel (a : Agent) : string := "agent:commands:" +:+ AgentID a.
Definition group_channel : string := "group:execute:broadcast".

(** [commandLoop]; the flag tells whether the polling loop is started. *)
Definition commandLoop (a : Agent) : bool * Agent :=
  let a := match redisClient a with
           | Some _ => if uses_redis a then (Subscribe group_channel (Subscribe (command_channel a) a).2).2 else a
           | None => a
           end in
  (EnableRESTFallback (agent_config a), a).

(** A round of [commandPollLoop]: the loop returns when the context is done, and a tick
    asks the control plane unless Redis is healthy and the only way. (When the context is
    done and a tick is due, either case of the select may be taken once more.) *)
Definition polls (a : Agent) : bool :=
  negb (agent_cancelled a) && negb (redisHealthy a && bool_decide (commMode a = ModeRedis)).

(** [fetchCommandsREST]; [decode] is what the body decodes to. *)
Definition fetchCommandsREST (decode : string -> option (list string)) (reply : HttpReply)
  : res string (list string) :=
  match reply with
  | HttpError e => Err ("failed to send request: " +:+ e)
  | HttpStatus code body =>
      if (code =? 204)%Z then Ok []
      else if (400 <=? code)%Z
      then Err ("server returned error " +:+ pretty code +:+ ": " +:+ body)
      else match decode body with
           | Some commands => Ok commands
           | None => Err "failed to decode response"
           end
  end.

Section Messages.
(** What the JSON decoder makes of a command. *)
Context (decode_command : string -> option AgentCommand).

(** [handleCommand]: errors of the operations are only printed. *)
Definition handleCommand (now : Z) (o : Orders) (message : string) (a : Agent) : outcome unit Agent :=
  let printed (x : res string unit * Agent) : outcome unit Agent :=
    match x with
    | (Panic, _) => Panics
    | (_, a) => Returns tt a
    end in
  match decode_command message with
  | None => Returns tt a
  | Some cmd =>
      let id := CmdPipelineID cmd in
      if CmdType cmd =? CommandStartPipeline then
        match payload_config (CmdPayload cmd) with
        | Some cfg =>
            match StartPipeline now o id cfg a with
            | Returns _ a => Returns tt a
            | Blocks => Blocks
            | Panics => Panics
            end
        | None => Returns tt a
        end
      else if CmdType cmd =? CommandStopPipeline then printed (StopPipeline now id a)
      else if CmdType cmd =? CommandPausePipeline then printed (PausePipeline id a)
      else if CmdType cmd =? CommandResumePipeline then printed (ResumePipeline id a)
      else Returns tt a
  end.

Fixpoint handle_all (now : Z) (o : Orders) (l : list string) (a : Agent) : outcome unit Agent :=
  match l with
  | [] => Returns tt a
  | m :: l =>
      match handleCommand now o m a with
      | Returns _ a => handle_all now o l a
      | Blocks => Blocks
      | Panics => Panics
      end
  end.

(** A tick of [commandPollLoop]. *)
Definition poll_tick (now : Z) (o : Orders) (decode : string -> option (list string)) (reply : HttpReply)
  (a : Agent) : outcome unit Agent :=
  if polls a then
    match fetchCommandsREST decode reply with
    | Ok commands => handle_all now o commands a
    | _ => Returns tt a
    end
  else Returns tt a.
End Messages.

(** ** Workflow executions *)

Record GroupExecutionCommand := MkGroupCommand {
  GWorkflowID : string;
  GExecutionID : string;
  WorkflowPipelines : option (list WorkflowPipeline)
}.

Record GroupExecutionResult := MkGroupResult {
  RExecutionID : string;
  RWorkflowID : string;
  RStatus : string;
  PipelineResults : list PipelineExecutionResult;
  TotalRecords : Z;
  FailedRecords : Z
}.

(** The round of the loop of [executeGroup]. *)
Definition placeholder_result (p : WorkflowPipeline) : PipelineExecutionResult :=
  MkResult (Hierarchy.ID p) (Hierarchy.Name p) "completed" 0 0 0.

(** [executeGroup] up to the report. [RecordsWritten] of a result is 0. *)
Definition executeGroup (cmd : GroupExecutionCommand) (ps : list WorkflowPipeline) : GroupExecutionResult :=
  MkGroupResult (GExecutionID cmd) (GWorkflowID cmd) "completed" (placeholder_result <$> ps) 0 0.

(** [handleGroupExecution]: the result that will be reported, if any. *)
Definition handleGroupExecution (decode : string -> option GroupExecutionCommand) (message : string)
  : option GroupExecutionResult :=
  decode message ≫= fun cmd => executeGroup cmd <$> WorkflowPipelines cmd.

(** [reportGroupExecutionResult]: whether Redis and the control plane were asked. *)
Definition reportGroupExecutionResult (now : Z) (data : string) (reply : WriteReply) (http : HttpReply)
  (a : Agent) : res string unit * (bool * bool) * Agent :=
  let '(published, asked, a) :=
    match redisClient a with
    | Some rc =>
        if redisHealthy a then
          let '(r, rc, asked) := Publish DefaultConfig now (Some data) reply rc in
          (is_ok r, asked, set_client (Some rc) a)
        else (false, false, a)
    | None => (false, false, a)
    end in
  if published then (Ok tt, (asked, false), a)
  else if negb (ControlPlaneURL (agent_config a) =? "") then
    (match http with
     | HttpError e => Err ("failed to send result: " +:+ e)
     | HttpStatus code body =>
         if (400 <=? code)%Z then Err ("server returned error: " +:+ body) else Ok tt
     end, (asked, true), a)
  else (Ok tt, (asked, false), a).

(** ** Runs of an agent *)

(** Whether the pipeline of a runner is a stream: only those have a processor. *)
Definition is_stream (r : Runner) : bool :=
  match processor r with Some _ => true | None => false end.

(** The calls that concern pipelines, as a client sees them; [CInternal] is everything
    else. A start carries what becomes of the configuration: no runner comes up, or one
    that is a stream or not. *)
Inductive call :=
| CStart (id : string) (comes_up : option bool)
| CStop (id : string)
| CPause (id : string)
| CResume (id : string)
| CShutdown
| CInternal.

Definition comes_up (now : Z) (o : Orders) (cfg : ConfigV1.PipelineConfig) : option bool :=
  match NewRunner o cfg with
  | Ok r => match Runner.Start now o r with
            | Returns (Ok _) r' => Some (is_stream r')
            | _ => None
            end
  | _ => None
  end.

(** The call a message asks for and whether it succeeds; the payload of a start command
    is never a configuration, so that it asks for nothing. *)
Definition command_call (decode : string -> option AgentCommand) (m : string) : call :=
  match decode m with
  | None => CInternal
  | Some cmd =>
      if CmdType cmd =? CommandStopPipeline then CStop (CmdPipelineID cmd)
      else if CmdType cmd =? CommandPausePipeline then CPause (CmdPipelineID cmd)
      else if CmdType cmd =? CommandResumePipeline then CResume (CmdPipelineID cmd)
      else CInternal
  end.
Definition call_succeeds (now : Z) (c : call) (a : Agent) : bool :=
  match c with
  | CStop id => is_ok (StopPipeline now id a).1
  | CPause id => is_ok (PausePipeline id a).1
  | CResume id => is_ok (ResumePipeline id a).1
  | _ => true
  end.

(** What happens to an agent, with the call and whether it succeeds. *)
Inductive agent_call : call -> bool -> Agent -> Agent -> Prop :=
| step_redis new a : agent_call CInternal true a (redis_state new a)
| step_online a : agent_call CInternal true a (Start a)
| step_commandLoop a : agent_call CInternal true a (commandLoop a).2
| step_StartPipeline now o id cfg a x a' :
    StartPipeline now o id cfg a = Returns x a' ->
    agent_call (CStart id (comes_up now o cfg)) (is_ok x) a a'
| step_StopPipeline now id a x a' : StopPipeline now id a = (x, a') -> x <> Panic ->
    agent_call (CStop id) (is_ok x) a a'
| step_PausePipeline id a x a' : PausePipeline id a = (x, a') -> x <> Panic ->
    agent_call (CPause id) (is_ok x) a a'
| step_ResumePipeline id a x a' : ResumePipeline id a = (x, a') -> x <> Panic ->
    agent_call (CResume id) (is_ok x) a a'
| step_command decode now o m a a' : handleCommand decode now o m a = Returns tt a' ->
    agent_call (command_call decode m) (call_succeeds now (command_call decode m) a) a a'
| step_heartbeat now latency data reply http a :
    agent_call CInternal true a (sendHeartbeat now latency data reply http a).2
| step_report now data reply http a :
    agent_call CInternal true a (reportGroupExecutionResult now data reply http a).2
| step_Stop now a a' : Stop now a = Returns tt a' -> agent_call CShutdown true a a'.

Definition agent_step (a a' : Agent) : Prop := exists c ok, agent_call c ok a a'.
End Agent_.

Definition agent_reachable `{GoArch} victim (a : Agent) : Prop :=
  exists uuid ping cfg, rtc (agent_step victim) (NewAgent uuid ping cfg) a.

(** ** What the runner does to the state of a pipeline *)

Lemma finish_start_ok {A} r (m : outcome (SysError + A) System) ok r' :
  finish_start r m ok = Returns (Ok tt) r' -> exists a s, r' = ok a s.
Proof. unfold finish_start. destruct m as [[e|a] s| |]; intros; simplify_eq; eauto. Qed.

Lemma runner_start_running `{GoArch} now o r r' :
  Runner.Start now o r = Returns (Ok tt) r' -> status r' = PipelineStatusRunning.
Proof.
  unfold Runner.Start. case_bool_decide; [done|].
  destruct (_ =? PipelineTypeFlat); [by intros (? & ? & ->)%finish_start_ok|].
  destruct (_ =? PipelineTypeActor); [by intros (? & ? & ->)%finish_start_ok|].
  destruct (_ =? PipelineTypeStream); [destruct startStreamPipeline|]; intros; by simplify_eq.
Qed.

(** An operation of the runner that moves between two states; it may refuse a pipeline
    in another state, or a stream, and then leaves the state alone. *)
Definition moves (f : Runner -> res string unit * Runner) (from : list PipelineStatus) (to : PipelineStatus)
  : Prop :=
  forall r x r', f r = (x, r') -> is_stream r' = is_stream r /\
    match x with
    | Ok _ => status r ∈ from /\ status r' = to
    | _ => status r' = status r /\ (status r ∉ from \/ is_stream r = true)
    end.

Lemma on_stream_moves g (from : list PipelineStatus) to r x r' :
  on_stream g to r = (x, r') -> status r ∈ from ->
  is_stream r' = is_stream r /\
  match x with
  | Ok _ => status r ∈ from /\ status r' = to
  | _ => status r' = status r /\ (status r ∉ from \/ is_stream r = true)
  end.
Proof.
  unfold on_stream, is_stream. destruct (processor r) eqn:E; [destruct (g _)|]; intros; simplify_eq;
    simpl; rewrite ?E; auto.
Qed.

Lemma pause_moves : moves Runner.Pause [PipelineStatusRunning] PipelineStatusPaused.
Proof.
  intros r x r'. unfold Runner.Pause. case_bool_decide; [|intros; simplify_eq; set_solver].
  intros Hp. eapply on_stream_moves; [done|set_solver].
Qed.
Lemma resume_moves : moves Runner.Resume [PipelineStatusPaused] PipelineStatusRunning.
Proof.
  intros r x r'. unfold Runner.Resume. case_bool_decide; [|intros; simplify_eq; set_solver].
  intros Hp. eapply on_stream_moves; [done|set_solver].
Qed.
Lemma stop_moves now :
  moves (Runner.Stop now) [PipelineStatusRunning; PipelineStatusPaused] PipelineStatusStopped.
Proof.
  intros r x r'. unfold Runner.Stop, is_stream.
  destruct (bool_decide_reflect (status r = PipelineStatusRunning));
    destruct (bool_decide_reflect (status r = PipelineStatusPaused)); simpl;
    try (intros; simplify_eq; set_solver).
  all: destruct (processor r) as [x0|] eqn:E; simpl;
    [destruct (stop_both now x0) as []|]; simpl; intros; simplify_eq; simpl; rewrite ?E;
    (split; [done|]); auto; set_solver.
Qed.

(** ** The invariant and the abstract agent *)

Definition instance_ok (id : string) (i : PipelineInstance) : Prop :=
  InstID i = id /\ InstStatus i = status (InstRunner i) /\
  InstStatus i ∈ [PipelineStatusRunning; PipelineStatusPaused].

Definition client_connected (a : Agent) : bool :=
  match redisClient a with Some rc => connected rc | None => false end.

Record agent_ok (a : Agent) : Prop := {
  ok_client : EnableRESTFallback (agent_config a) = true -> commMode a = ModeRedis -> is_Some (redisClient a);
  ok_health : redisHealthy a = client_connected a;
  ok_instances : map_Forall instance_ok (pipelines a)
}.

(** What a client of the agent sees of its pipelines: the state of each and whether it is
    a stream. *)
Definition view (i : PipelineInstance) : PipelineStatus * bool :=
  (InstStatus i, is_stream (InstRunner i)).
Definition abs (a : Agent) : gmap string (PipelineStatus * bool) := view <$> pipelines a.

(** The specification: for each call, when it may succeed or be refused and what it does.
    Only a stream may be refused a pause, a resume or a stop in the right state, when its
    source or processor refuses. *)
Inductive abs_step : call -> bool -> gmap string (PipelineStatus * bool) ->
  gmap string (PipelineStatus * bool) -> Prop :=
| abs_internal m : abs_step CInternal true m m
| abs_start m id k : m !! id = None ->
    abs_step (CStart id (Some k)) true m (<[id := (PipelineStatusRunning, k)]> m)
| abs_start_refused m id up : is_Some (m !! id) \/ up = None -> abs_step (CStart id up) false m m
| abs_pause m id k : m !! id = Some (PipelineStatusRunning, k) ->
    abs_step (CPause id) true m (<[id := (PipelineStatusPaused, k)]> m)
| abs_pause_refused m id : m !! id <> Some (PipelineStatusRunning, false) ->
    abs_step (CPause id) false m m
| abs_resume m id k : m !! id = Some (PipelineStatusPaused, k) ->
    abs_step (CResume id) true m (<[id := (PipelineStatusRunning, k)]> m)
| abs_resume_refused m id : m !! id <> Some (PipelineStatusPaused, false) ->
    abs_step (CResume id) false m m
| abs_stop m id v : m !! id = Some v -> abs_step (CStop id) true m (delete id m)
| abs_stop_refused m id : (forall st, m !! id <> Some (st, false)) -> abs_step (CStop id) false m m
| abs_shutdown m : abs_step CShutdown true m ∅.

(** What no step changes, and what a step may only do in one direction. *)
Record keeps (a a' : Agent) : Prop := {
  keeps_id : AgentID a' = AgentID a;
  keeps_config : agent_config a' = agent_config a;
  keeps_mode : commMode a' = ModeRedis -> commMode a = ModeRedis;
  keeps_subs : subscriptions a ⊆ subscriptions a'
}.

#[export] Instance keeps_preorder : PreOrder keeps.
Proof.
  split; [by intros a; split|]. intros a b c [? ? ? ?] [? ? ? ?].
  split; [congruence|congruence|auto|set_solver].
Qed.

(** The pipelines aside, nothing changed. *)
Lemma set_pipelines_ok m a : agent_ok a -> map_Forall instance_ok m -> agent_ok (set_pipelines m a).
Proof. intros [] ?. by split. Qed.
Lemma set_pipelines_keeps m a : keeps a (set_pipelines m a).
Proof. by split. Qed.
Lemma set_client_keeps c a : keeps a (set_client c a).
Proof. by split. Qed.

Lemma abs_put_instance i r st a :
  abs (put_instance i r st a) = <[InstID i := (st, is_stream r)]> (abs a).
Proof. unfold abs, put_instance. simpl. by rewrite fmap_insert. Qed.

Lemma put_instance_ok i r st a :
  agent_ok a -> st = status r -> st ∈ [PipelineStatusRunning; PipelineStatusPaused] ->
  agent_ok (put_instance i r st a).
Proof.
  intros Ha -> Hst. apply set_pipelines_ok; [done|]. apply map_Forall_insert_2; [done|apply Ha].
Qed.

(** An operation on an instance succeeds and ends as it says, or is refused, for a reason,
    and leaves the state alone. *)
Lemma on_instance_spec id what f from to done_ a x a' :
  moves f from to -> agent_ok a -> on_instance id what f done_ a = (x, a') ->
  (exists i r, x = Ok tt /\ pipelines a !! id = Some i /\ InstID i = id /\ InstStatus i ∈ from /\
     status r = to /\ is_stream r = is_stream (InstRunner i) /\ a' = done_ i r) \/
  (is_ok x = false /\ (forall st, st ∈ from -> abs a !! id <> Some (st, false)) /\
   agent_ok a' /\ abs a' = abs a /\ keeps a a').
Proof.
  intros Hf Ha. unfold on_instance. destruct (pipelines a !! id) as [i|] eqn:E.
  2: { intros. simplify_eq. right. split; [done|]. split; [|done].
       intros st _. unfold abs. by rewrite lookup_fmap, E. }
  destruct (ok_instances _ Ha _ _ E) as (Hid & Hst & Hin).
  assert (abs a !! id = Some (view i)) as Hv by (unfold abs; by rewrite lookup_fmap, E).
  assert (forall r, status r = status (InstRunner i) -> is_stream r = is_stream (InstRunner i) ->
    let a' := put_instance i r (InstStatus i) a in agent_ok a' /\ abs a' = abs a /\ keeps a a') as Hput.
  { intros r Hr Hk. simpl. split; [apply put_instance_ok; [done|congruence|done]|].
    split; [|apply set_pipelines_keeps].
    rewrite abs_put_instance, insert_id; [done|]. by rewrite Hid, Hv, Hk. }
  assert (status (InstRunner i) ∉ from \/ is_stream (InstRunner i) = true ->
    forall st, st ∈ from -> abs a !! id <> Some (st, false)) as Hwhy.
  { rewrite Hv, <- Hst. intros Hor st Hfrom [= <- Hk]. destruct Hor; [done|congruence]. }
  destruct (f (InstRunner i)) as [[[]|e|] r] eqn:Ef; intros; simplify_eq;
    destruct (Hf _ _ _ Ef) as [Hk Hx].
  - left. exists i, r. rewrite Hst. destruct Hx. done.
  - right. destruct Hx. split; [done|]. split; [by apply Hwhy|by apply Hput].
  - right. destruct Hx. split; [done|]. split; [by apply Hwhy|by apply Hput].
Qed.

(** ** Steps keep the invariant *)

Lemma redis_state_cases new a :
  redis_state new a = a \/ exists rc, redisClient a = Some rc /\
    (connState rc = new /\ redis_state new a = set_client (Some (setConnectionState new rc)) a \/
     redis_state new a = onRedisStateChange new (set_client (Some (setConnectionState new rc)) a)).
Proof.
  unfold redis_state. destruct (redisClient a) as [rc|]; [|by left]. right. exists rc. split; [done|].
  destruct (connState rc), new; auto.
Qed.

Lemma onRedisStateChange_keeps new a : keeps a (onRedisStateChange new a).
Proof.
  split; [done|done| |done]. simpl. destruct new; repeat case_match; done.
Qed.

Lemma redis_state_step new a :
  agent_ok a -> agent_ok (redis_state new a) /\ abs (redis_state new a) = abs a /\ keeps a (redis_state new a).
Proof.
  intros Ha. destruct (redis_state_cases new a) as [-> | (rc & Hrc & [[Hs ->] | ->])]; [by split| |].
  - split; [|by split; [|apply set_client_keeps]]. destruct Ha as [H1 H2 H3]. split; simpl; [by eexists| |done].
    rewrite H2. unfold client_connected. simpl. rewrite Hrc. unfold connected. simpl. by rewrite Hs.
  - split; [|split; [done|]].
    + destruct Ha as [H1 H2 H3]. split; simpl; [by eexists| |done].
      unfold client_connected. simpl. unfold connected. simpl. by destruct new.
    + etrans; [apply set_client_keeps|apply onRedisStateChange_keeps].
Qed.

(** Requests leave the connection state alone. *)
Lemma canExecute_connState c now rc : connState (canExecute c now rc).2 = connState rc.
Proof. unfold canExecute. by repeat case_match. Qed.
Lemma recordFailure_connState c e now rc : connState (recordFailure c e now rc) = connState rc.
Proof. unfold recordFailure. by case_match. Qed.
Lemma recordSuccess_connState c rc : connState (recordSuccess c rc) = connState rc.
Proof. unfold recordSuccess. cbv zeta. by repeat case_match. Qed.

Lemma set_connState c victim now latency key data ttl reply rc :
  connState (Set_ c victim now latency key data ttl reply rc).1.2 = connState rc.
Proof.
  unfold Set_. cbv zeta. destruct data as [d|]; [|done].
  set (rc1 := if EnableLocalCache c then _ else _).
  assert (connState rc1 = connState rc) as H1 by (subst rc1; by case_match). clearbody rc1.
  pose proof (canExecute_connState c now rc1) as H2. destruct (canExecute c now rc1) as [ok rc2].
  simpl in H2. destruct ok; simpl; [|congruence]. destruct (connected rc2); simpl; [|congruence].
  destruct reply; simpl; rewrite ?recordSuccess_connState, ?recordFailure_connState; simpl; congruence.
Qed.

Lemma publish_connState c now data reply rc :
  connState (Publish c now data reply rc).1.2 = connState rc.
Proof.
  unfold Publish. cbv zeta. pose proof (canExecute_connState c now (count_total rc)) as H2.
  destruct (canExecute c now (count_total rc)) as [ok rc2]. simpl in H2.
  destruct (negb ok || negb (connected rc2)); [done|]. destruct data; [|done].
  destruct reply; simpl; by rewrite ?recordSuccess_connState, ?recordFailure_connState.
Qed.

(** A client in the same connection state is as good as the old one. *)
Lemma set_client_ok rc rc' a :
  agent_ok a -> redisClient a = Some rc -> connState rc' = connState rc ->
  agent_ok (set_client (Some rc') a) /\ abs (set_client (Some rc') a) = abs a /\
  keeps a (set_client (Some rc') a).
Proof.
  intros [H1 H2 H3] Hrc Hs. split; [|by split; [|apply set_client_keeps]].
  split; simpl; [by eexists| |done]. rewrite H2. unfold client_connected, connected. simpl. by rewrite Hrc, Hs.
Qed.

Lemma heartbeat_redis_step victim now latency data reply a :
  agent_ok a -> let a' := (heartbeat_redis victim now latency data reply a).2 in
  agent_ok a' /\ abs a' = abs a /\ keeps a a'.
Proof.
  intros Ha. unfold heartbeat_redis. destruct (redisClient a) as [rc|] eqn:Hrc; [|done].
  destruct (uses_redis a); [|done].
  pose proof (set_connState DefaultConfig victim now latency ("agent:" +:+ AgentID a +:+ ":heartbeat")
    (Some data) (30 * 1000000000) reply rc) as Hs.
  destruct (Set_ _ _ _ _ _ _ _ _ rc) as [[r rc'] asked]. simpl in *. by eapply set_client_ok.
Qed.

Lemma sendHeartbeat_agent victim now latency data reply http a :
  (sendHeartbeat victim now latency data reply http a).2 = (heartbeat_redis victim now latency data reply a).2.
Proof.
  unfold sendHeartbeat. destruct (heartbeat_redis _ _ _ _ _ _) as [[[[]|] sent] a'];
    simpl; repeat case_match; done.
Qed.

Lemma report_step now data reply http a :
  agent_ok a -> let a' := (reportGroupExecutionResult now data reply http a).2 in
  agent_ok a' /\ abs a' = abs a /\ keeps a a'.
Proof.
  intros Ha. unfold reportGroupExecutionResult. destruct (redisClient a) as [rc|] eqn:Hrc.
  - destruct (redisHealthy a); [|simpl; by case_match].
    pose proof (publish_connState DefaultConfig now (Some data) reply rc) as Hs.
    destruct (Publish _ _ _ _ rc) as [[r rc'] asked]. simpl in *.
    destruct (is_ok r); [|case_match]; simpl; by eapply set_client_ok.
  - simpl. by case_match.
Qed.

Lemma subscribe_step c a :
  agent_ok a -> let a' := (Subscribe c a).2 in
  agent_ok a' /\ abs a' = abs a /\ keeps a a' /\ c ∈ subscriptions a'.
Proof.
  intros Ha. unfold Subscribe. case_bool_decide; simpl.
  - split; [done|]. split; [done|]. by split; [reflexivity|].
  - split; [by destruct Ha; split|]. split; [done|]. split; [|set_solver]. split; simpl; [done|done|done|set_solver].
Qed.

Lemma commandLoop_step a :
  agent_ok a -> let a' := (commandLoop a).2 in
  agent_ok a' /\ abs a' = abs a /\ keeps a a' /\
  (is_Some (redisClient a) -> uses_redis a = true ->
     command_channel a ∈ subscriptions a' /\ group_channel ∈ subscriptions a').
Proof.
  intros Ha. unfold commandLoop. destruct (redisClient a) as [rc|]; simpl.
  2: { split; [done|]. split; [done|]. split; [done|]. intros [? ?]. done. }
  destruct (uses_redis a).
  2: { split; [done|]. split; [done|]. split; [done|]. done. }
  destruct (subscribe_step (command_channel a) a Ha) as (Ha1 & Hb1 & Hk1 & Hc1).
  destruct (subscribe_step group_channel _ Ha1) as (Ha2 & Hb2 & Hk2 & Hc2).
  split; [done|]. split; [congruence|]. split; [by etrans|]. intros _ _.
  split; [|done]. by apply (keeps_subs _ _ Hk2).
Qed.

(** A call keeps the invariant and is a step of the specification. *)
Definition follows (c : call) (ok : bool) (a a' : Agent) : Prop :=
  agent_ok a' /\ abs_step c ok (abs a) (abs a') /\ keeps a a'.

Lemma follows_internal a a' :
  agent_ok a' /\ abs a' = abs a /\ keeps a a' -> follows CInternal true a a'.
Proof. intros (? & E & ?). split; [done|]. rewrite E. by split; [constructor|]. Qed.

Lemma StartPipeline_step `{GoArch} now o id cfg a x a' :
  agent_ok a -> StartPipeline now o id cfg a = Returns x a' ->
  follows (CStart id (comes_up now o cfg)) (is_ok x) a a'.
Proof.
  intros Ha. unfold StartPipeline, follows, comes_up.
  destruct (pipelines a !! id) as [i|] eqn:E.
  { intros. simplify_eq. split; [done|]. split; [|done]. apply abs_start_refused. left.
    unfold abs. rewrite lookup_fmap, E. by eexists. }
  destruct (NewRunner o cfg) as [r|e|]; [|intros; simplify_eq; split; [done|]; split; [|done];
    apply abs_start_refused; by right|done].
  destruct (Runner.Start now o r) as [[[]|e|] r'| |] eqn:Er; intros; simplify_eq.
  2: { split; [done|]. split; [|done]. apply abs_start_refused. by right. }
  apply runner_start_running in Er. split; [|split; [|apply set_pipelines_keeps]].
  - apply set_pipelines_ok; [done|]. apply map_Forall_insert_2; [|apply Ha]. split; [done|]. split; [done|].
    simpl. set_solver.
  - unfold abs at 2. simpl. rewrite fmap_insert. apply abs_start. unfold abs. by rewrite lookup_fmap, E.
Qed.

Lemma StopPipeline_step now id a x a' :
  agent_ok a -> StopPipeline now id a = (x, a') ->
  follows (CStop id) (is_ok x) a a' /\ dom (pipelines a') ⊆ dom (pipelines a).
Proof.
  intros Ha Hs. apply (on_instance_spec _ _ _ _ _ _ _ _ _ (stop_moves now) Ha) in Hs
    as [(i & r & -> & Hi & Hid & _ & _ & _ & ->)|(-> & Hwhy & Ha' & Habs & Hk)].
  - split; [|simpl; rewrite dom_delete_L; set_solver]. split; [|split; [|apply set_pipelines_keeps]].
    + apply set_pipelines_ok; [done|]. apply map_Forall_delete, Ha.
    + unfold abs at 2. simpl. rewrite fmap_delete. apply (abs_stop _ _ (view i)).
      unfold abs. by rewrite lookup_fmap, Hi.
  - split; [split; [done|]; rewrite Habs; split; [|done]|].
    + apply abs_stop_refused. intros st Hst. apply (Hwhy st); [|done].
      unfold abs in Hst. rewrite lookup_fmap in Hst.
      destruct (pipelines a !! id) as [i|] eqn:E; [|done]. injection Hst as Hst _.
      destruct (ok_instances _ Ha _ _ E) as (_ & _ & Hin). by rewrite <- Hst.
    + apply (f_equal dom) in Habs. unfold abs in Habs. rewrite !dom_fmap_L in Habs. set_solver.
Qed.

Lemma on_instance_moves_step id what f from to a x a' c :
  moves f [from] to -> to ∈ [PipelineStatusRunning; PipelineStatusPaused] ->
  (forall m k, m !! id = Some (from, k) -> abs_step c true m (<[id := (to, k)]> m)) ->
  (forall m, m !! id <> Some (from, false) -> abs_step c false m m) ->
  agent_ok a -> on_instance id what f (fun i r => put_instance i r to a) a = (x, a') ->
  follows c (is_ok x) a a' /\ dom (pipelines a') ⊆ dom (pipelines a).
Proof.
  intros Hf Hto Habs Hrefuse Ha Hs. apply (on_instance_spec _ _ _ _ _ _ _ _ _ Hf Ha) in Hs
    as [(i & r & -> & Hi & Hid & Hfrom & Hr & Hk & ->)|(-> & Hwhy & Ha' & Hab & Hk)].
  - unfold follows. split; [split; [by apply put_instance_ok|]; split; [|apply set_pipelines_keeps]|].
    + rewrite abs_put_instance, Hid, Hk. apply Habs. unfold abs. rewrite lookup_fmap, Hi. simpl.
      unfold view. do 2 f_equal. set_solver.
    + simpl. rewrite dom_insert_L, Hid. apply elem_of_dom_2 in Hi. set_solver.
  - split; [split; [done|]; rewrite Hab; split; [|done]|].
    + apply Hrefuse, Hwhy. set_solver.
    + apply (f_equal dom) in Hab. unfold abs in Hab. rewrite !dom_fmap_L in Hab. set_solver.
Qed.

Lemma PausePipeline_step id a x a' :
  agent_ok a -> PausePipeline id a = (x, a') ->
  follows (CPause id) (is_ok x) a a' /\ dom (pipelines a') ⊆ dom (pipelines a).
Proof.
  apply (on_instance_moves_step _ _ _ _ _ _ _ _ _ pause_moves); [set_solver|..]; intros; by constructor.
Qed.
Lemma ResumePipeline_step id a x a' :
  agent_ok a -> ResumePipeline id a = (x, a') ->
  follows (CResume id) (is_ok x) a a' /\ dom (pipelines a') ⊆ dom (pipelines a).
Proof.
  apply (on_instance_moves_step _ _ _ _ _ _ _ _ _ resume_moves); [set_solver|..]; intros; by constructor.
Qed.

Lemma handleCommand_step `{GoArch} decode now o m a a' :
  agent_ok a -> handleCommand decode now o m a = Returns tt a' ->
  follows (command_call decode m) (call_succeeds now (command_call decode m) a) a a' /\
  dom (pipelines a') ⊆ dom (pipelines a).
Proof.
  intros Ha. unfold handleCommand, command_call. cbv zeta.
  assert (follows CInternal true a a /\ dom (pipelines a) ⊆ dom (pipelines a)) as Hsame
    by (split; [by apply follows_internal|done]).
  destruct (decode m) as [cmd|]; [|by intros; simplify_eq].
  destruct (String.eqb_spec (CmdType cmd) CommandStartPipeline) as [->|_].
  { assert (payload_config (CmdPayload cmd) = None) as -> by by destruct (CmdPayload cmd). by intros; simplify_eq. }
  destruct (_ =? CommandStopPipeline).
  { cbn [call_succeeds]. destruct (StopPipeline _ _ _) as [x a1] eqn:E.
    destruct x; intros; simplify_eq; by eapply StopPipeline_step in E. }
  destruct (_ =? CommandPausePipeline).
  { cbn [call_succeeds]. destruct (PausePipeline _ _) as [x a1] eqn:E.
    destruct x; intros; simplify_eq; by eapply PausePipeline_step in E. }
  destruct (_ =? CommandResumePipeline); [|by intros; simplify_eq].
  cbn [call_succeeds]. destruct (ResumePipeline _ _) as [x a1] eqn:E.
  destruct x; intros; simplify_eq; by eapply ResumePipeline_step in E.
Qed.

Lemma agent_call_follows `{GoArch} victim c ok a a' :
  agent_ok a -> agent_call victim c ok a a' -> follows c ok a a'.
Proof.
  intros Ha Hs. destruct Hs.
  - by apply follows_internal, redis_state_step.
  - apply follows_internal. split; [by destruct Ha; split|]. by split; [|split].
  - destruct (commandLoop_step a Ha) as (? & ? & ? & ?). by apply follows_internal.
  - by eapply StartPipeline_step.
  - by eapply StopPipeline_step.
  - by eapply PausePipeline_step.
  - by eapply ResumePipeline_step.
  - by eapply handleCommand_step.
  - rewrite sendHeartbeat_agent. by apply follows_internal, heartbeat_redis_step.
  - by apply follows_internal, report_step.
  - unfold Stop in H0. destruct (forallb _ _); simplify_eq. split; [|split].
    + by destruct Ha; split.
    + unfold abs at 2. simpl. rewrite fmap_empty. constructor.
    + by split.
Qed.

Lemma NewAgent_ok uuid ping cfg : agent_ok (NewAgent uuid ping cfg).
Proof.
  unfold NewAgent. cbv zeta. destruct (RedisHost cfg =? ""); simpl.
  - destruct (EnableRESTFallback cfg) eqn:E; split; simpl; try done. by rewrite E.
  - assert (agent_ok (set_client (Some (NewResilientClient false).1)
        (MkAgent (if CfgID cfg =? "" then uuid else CfgID cfg) AgentStatusOffline cfg ∅ false None ∅ ModeRedis false)))
      as Hok by (split; simpl; [by eexists|done|done]).
    destruct ping; [by apply redis_state_step|done].
Qed.

Lemma agent_steps_ok `{GoArch} victim a a' :
  rtc (agent_step victim) a a' -> agent_ok a -> agent_ok a' /\ keeps a a'.
Proof.
  induction 1 as [a|a b c Hs _ IH]; intros Ha; [done|].
  destruct Hs as (cl & ok & Hs).
  destruct (agent_call_follows victim cl ok a b Ha Hs) as (Hb & _ & Hk). destruct (IH Hb) as [Hc Hk'].
  split; [done|]. by etrans.
Qed.

Lemma reachable_agent_ok `{GoArch} victim a : agent_reachable victim a -> agent_ok a.
Proof. intros (u & p & cfg & Hr). eapply agent_steps_ok; [done|]. apply NewAgent_ok. Qed.

(** Only [Stop] cancels the context. *)
Lemma on_instance_context id what f done_ a x a' :
  (forall i r, agent_cancelled (done_ i r) = agent_cancelled a) ->
  on_instance id what f done_ a = (x, a') -> agent_cancelled a' = agent_cancelled a.
Proof.
  intros Hd. unfold on_instance. destruct (pipelines a !! id); [|intros; by simplify_eq].
  destruct (f _) as [[]]; intros; simplify_eq; auto.
Qed.

Lemma call_keeps_context `{GoArch} victim c ok a a' :
  agent_call victim c ok a a' -> c <> CShutdown -> agent_cancelled a' = agent_cancelled a.
Proof.
  intros Hs Hn. destruct Hs as [new a|a|a|now o id cfg a x a' E|now id a x a' E _|id a x a' E _
    |id a x a' E _|decode now o m a a' E|now latency data reply http a
    |now data reply http a|now a a' E]; try done.
  - unfold redis_state. repeat case_match; done.
  - unfold commandLoop, Subscribe. simpl. repeat case_match; done.
  - unfold StartPipeline in E. repeat case_match; by simplify_eq.
  - by eapply on_instance_context in E.
  - by eapply on_instance_context in E.
  - by eapply on_instance_context in E.
  - unfold handleCommand in E. destruct (decode m) as [cmd|]; [|by simplify_eq].
    repeat case_match; simplify_eq; try done;
      first [by eapply on_instance_context; [|eassumption] | by destruct (CmdPayload cmd)].
  - rewrite sendHeartbeat_agent. unfold heartbeat_redis. repeat case_match; done.
  - unfold reportGroupExecutionResult. repeat case_match; simplify_eq; done.
Qed.

(** C11: What an agent reports of its pipelines is true: the recorded state of each is that
    of its runner, running or paused. And every call is the step the specification has for
    it: a start succeeds only for a new id whose runner comes up, and is refused otherwise;
    a pause succeeds only for a running pipeline and makes it paused, a resume the
    reverse, a stop removes a pipeline; each of the three is refused only for an unknown
    id, the wrong state or a stream; a refused call and everything that is not such a call
    change nothing; a shutdown removes all. *)
Theorem agent_refines_specification `{GoArch} (victim : gmap string cacheEntry -> option string)
  (c : call) (ok : bool) (a a' : Agent) :
  agent_reachable victim a -> agent_call victim c ok a a' ->
  map_Forall (fun id i => InstID i = id /\ InstStatus i = status (InstRunner i) /\
    (InstStatus i = PipelineStatusRunning \/ InstStatus i = PipelineStatusPaused)) (pipelines a) /\
  abs_step c ok (abs a) (abs a').
Proof.
  intros Hr Hs. apply reachable_agent_ok in Hr as Ha. split; [|by apply (agent_call_follows victim)].
  intros id i Hi. destruct (ok_instances _ Ha _ _ Hi) as (? & ? & Hin). rewrite !elem_of_cons, elem_of_nil in Hin.
  naive_solver.
Qed.

(** With the REST fallback on, no heartbeat is dropped: each one is accepted by Redis, or
    a request with it goes to the control plane. *)
Theorem heartbeat_is_sent `{GoArch} (victim : gmap string cacheEntry -> option string) (a : Agent)
  (now latency : Z) (data : string) (reply : WriteReply) (http : HttpReply) :
  agent_reachable victim a -> EnableRESTFallback (agent_config a) = true ->
  let sent := (sendHeartbeat victim now latency data reply http a).1.1 in
  reply = Written /\ RedisSet ("agent:" +:+ AgentID a +:+ ":heartbeat") (heartbeat_of a) ∈ sent \/
  RestPost (heartbeat_url a) (heartbeat_of a) ∈ sent.
Proof.
  intros Hr Hf. apply reachable_agent_ok in Hr as [Hcl _ _]. specialize (Hcl Hf).
  unfold sendHeartbeat, heartbeat_redis. destruct (redisClient a) as [rc|] eqn:Hrc.
  - destruct (uses_redis a) eqn:Hu.
    + destruct (Set_ _ _ _ _ _ _ _ _ rc) as [[r rc'] asked] eqn:Hset.
      destruct r as [u|e|].
      * left. revert Hset. unfold Set_. cbv zeta. destruct (canExecute _ _ _) as [ok rc2].
        destruct (negb ok); [done|]. destruct (negb _); [done|]. destruct reply; [|done]. intros. simplify_eq.
        split; [done|]. simpl. set_solver.
      * right. simpl. rewrite Hf. simpl. rewrite orb_true_r. simpl. set_solver.
      * right. simpl. rewrite Hf. simpl. rewrite orb_true_r. simpl. set_solver.
    + right. unfold uses_redis in Hu. simpl. rewrite Hf.
      destruct (commMode a) eqn:Hm; [done| |done]. simpl. set_solver.
  - right. simpl. rewrite Hf. destruct (commMode a) eqn:Hm; simpl; [|set_solver|set_solver].
    by destruct Hcl.
Qed.


(** No command starts a pipeline: whatever messages arrive, the pipelines afterwards are
    among those before. *)
Theorem commands_never_start_pipelines `{GoArch} (victim : gmap string cacheEntry -> option string)
  (decode : string -> option AgentCommand) (now : Z) (o : Orders) (l : list string) (a a' : Agent) :
  agent_reachable victim a -> handle_all decode now o l a = Returns tt a' ->
  dom (pipelines a') ⊆ dom (pipelines a).
Proof.
  intros Hr%reachable_agent_ok. revert a Hr. induction l as [|m l IH]; intros a Ha; simpl.
  { intros. by simplify_eq. }
  destruct (handleCommand decode now o m a) as [[] a1| |] eqn:E; [|done|done]. intros Hl.
  destruct (handleCommand_step decode now o m a a1 Ha E) as [(Ha1 & _) Hd].
  etrans; [by apply (IH a1)|done].
Qed.

(** ** An agent with one pipeline *)

#[local] Instance agent_x86 : GoArch := {| int64_overflow := fun _ => (- 2 ^ 63)%Z |}.
Definition demo_victim (c : gmap string cacheEntry) : option string := fst <$> head (map_to_list c).
Definition demo_agent_config : AgentConfig := MkAgentConfig "a1" "http://cp" "redis" true.
Definition demo_agent : Agent := NewAgent "" true demo_agent_config.
Definition demo_running : Agent :=
  match StartPipeline 0 (demo_orders "out") "p1" (config (demo_runner "out")) demo_agent with
  | Returns _ a => a
  | _ => demo_agent
  end.
(** A decoder that reads any message as a stop, or as a start, of [p1]. *)
Definition demo_decode (t : CommandType) (_ : string) : option AgentCommand :=
  Some (MkCommand "c1" t "p1" (VMap ∅)).

Lemma demo_agent_reachable : agent_reachable demo_victim demo_agent.
Proof. by exists "", true, demo_agent_config. Qed.

Lemma demo_running_step :
  agent_call demo_victim (CStart "p1" (comes_up 0 (demo_orders "out") (config (demo_runner "out"))))
    true demo_agent demo_running.
Proof.
  apply (step_StartPipeline _ 0 (demo_orders "out") "p1" (config (demo_runner "out")) _ (Ok tt)).
  unfold demo_running.
  destruct (StartPipeline _ _ _ _ _) as [x a| |] eqn:E; [|by vm_compute in E|by vm_compute in E].
  f_equal. revert E. vm_compute. congruence.
Qed.

Lemma demo_running_reachable : agent_reachable demo_victim demo_running.
Proof.
  exists "", true, demo_agent_config. eapply rtc_once. eexists _, _. apply demo_running_step.
Qed.

Lemma agent_refines_specification_witness :
  abs demo_agent = ∅ /\ abs demo_running = {["p1" := (PipelineStatusRunning, false)]} /\
  abs_step (CStart "p1" (comes_up 0 (demo_orders "out") (config (demo_runner "out")))) true
    (abs demo_agent) (abs demo_running).
Proof.
  split; [by vm_compute|]. split; [by vm_compute|].
  apply (agent_refines_specification demo_victim _ _ demo_agent demo_running);
    [apply demo_agent_reachable|apply demo_running_step].
Defined.

(** Redis refuses the write, so the control plane gets the heartbeat. *)
Lemma heartbeat_is_sent_witness :
  RestPost "http://cp/api/v1/agents/a1/heartbeat" (heartbeat_of demo_running) ∈
  (sendHeartbeat demo_victim 0 1 "" (WriteFailed "timeout") (HttpStatus 200 "") demo_running).1.1.
Proof.
  destruct (heartbeat_is_sent demo_victim demo_running 0 1 "" (WriteFailed "timeout") (HttpStatus 200 ""))
    as [[? _]|Hin]; [apply demo_running_reachable|by vm_compute|done|exact Hin].
Defined.


(** A start command leaves the agent without pipelines; a stop command of the running one
    takes effect. *)
Lemma commands_never_start_pipelines_witness :
  handle_all (demo_decode CommandStartPipeline) 0 (demo_orders "out") ["m"] demo_agent = Returns tt demo_agent /\
  dom (pipelines demo_agent) ⊆ dom (pipelines demo_agent) /\
  match handle_all (demo_decode CommandStopPipeline) 0 (demo_orders "out") ["m"] demo_running with
  | Returns _ a => bool_decide (pipelines a !! "p1" = None)
  | _ => false
  end = true.
Proof.
  split; [by vm_compute|]. split; [|by vm_compute].
  apply (commands_never_start_pipelines demo_victim (demo_decode CommandStartPipeline) 0 (demo_orders "out") ["m"]);
    [apply demo_agent_reachable|by vm_compute].
Defined.

(** ** Workflow executions are not run *)

(** Every command with a configuration is answered by a result of status [completed] with
    no record for each of its pipelines. *)
Theorem group_executions_report_success decode m cmd ps :
  decode m = Some cmd -> WorkflowPipelines cmd = Some ps ->
  exists r, handleGroupExecution decode m = Some r /\ RStatus r = "completed" /\ TotalRecords r = 0%Z /\
    PipelineID <$> PipelineResults r = Hierarchy.ID <$> ps /\
    Forall (fun x => ResStatus x = "completed" /\ RecordsProcessed x = 0%Z) (PipelineResults r).
Proof.
  intros Hd Hp. unfold handleGroupExecution. rewrite Hd. simpl. rewrite Hp. eexists. split; [done|].
  split; [done|]. split; [done|]. simpl. split; [by rewrite <- list_fmap_compose|].
  apply Forall_fmap, Forall_forall. done.
Qed.
