(* ===== verification/Api.v ===== *)
(** * Responses of the control plane (shared/types/api.go, middleware/auth.go) *)

From Stdlib Require Import String.
From S2P Require Import Prelude GoString.
Local Open Scope string_scope.

Definition ErrorCode := string.
Definition ErrCodeUnauthorized : ErrorCode := "AUTH_UNAUTHORIZED".
Definition ErrCodeInvalidToken : ErrorCode := "AUTH_INVALID_TOKEN".
Definition ErrCodeForbidden : ErrorCode := "AUTH_FORBIDDEN".
Definition ErrCodeInsufficientPerms : ErrorCode := "AUTH_INSUFFICIENT_PERMISSIONS".
Definition ErrCodeBadRequest : ErrorCode := "REQUEST_BAD_REQUEST".
Definition ErrCodeValidationFailed : ErrorCode := "REQUEST_VALIDATION_FAILED".
Definition ErrCodeInvalidJSON : ErrorCode := "REQUEST_INVALID_JSON".
Definition ErrCodeNotFound : ErrorCode := "RESOURCE_NOT_FOUND".
Definition ErrCodeConflict : ErrorCode := "RESOURCE_CONFLICT".
Definition ErrCodeAlreadyExists : ErrorCode := "RESOURCE_ALREADY_EXISTS".
Definition ErrCodeHasChildren : ErrorCode := "BUSINESS_HAS_CHILDREN".
Definition ErrCodeInternalError : ErrorCode := "SERVER_INTERNAL_ERROR".
Definition ErrCodeDatabaseError : ErrorCode := "SERVER_DATABASE_ERROR".
Definition ErrCodeExternalService : ErrorCode := "SERVER_EXTERNAL_SERVICE_ERROR".
Definition ErrCodeWorkflowRunning : ErrorCode := "BUSINESS_WORKFLOW_RUNNING".
Definition ErrCodeWorkflowNotRunning : ErrorCode := "BUSINESS_WORKFLOW_NOT_RUNNING".
Definition ErrCodeInvalidState : ErrorCode := "BUSINESS_INVALID_STATE".

(** The response of a handler: a status with data, a status with an error, or a panic of the
    handler, which the server answers with status 500. *)
Inductive Reply (A : Type) :=
| Success (status : Z) (data : A)
| Failure (status : Z) (code : ErrorCode) (message : string)
| HandlerPanic.
Arguments Success {A}.
Arguments Failure {A}.
Arguments HandlerPanic {A}.

Definition succeeds {A} (r : Reply A) : bool := match r with Success _ _ => true | _ => false end.
