(* ===== verification/Graph.v ===== *)
(** * The graph editor of the control plane (control-plane/internal/api/handlers/graph_handler.go)

    A pipeline is shown as a graph of its actors, and edges of the graph can be added and
    removed, which rewrites the stored configuration. The YAML library is a parameter with
    the laws the handler relies on, and so is the order of a Go range over a map. An actor
    of the tree is updated through a pointer, which is a path here. *)

From Stdlib Require Import String.
From S2P Require Import Prelude GoString GoValue Mailbox ActorSystem ConfigV1 Api.
Local Open Scope string_scope.
Local Open Scope list_scope.

(** ** Data (shared/types/graph.go) *)

(** Positions are whole numbers, which the floats hold exactly. [Metrics] is never set. *)
Record GraphNode := MkNode {
  NodeID : string;
  NodeType : string;
  NodeLabel : string;
  PosX : Z;
  PosY : Z;
  ActorConfig : Data;
  Parallelism : Z
}.

Record GraphEdge := MkEdge {
  EdgeID : string;
  EdgeSource : string;
  EdgeTarget : string
}.

Record PipelineGraph := MkGraph {
  GraphPipelineID : string;
  Nodes : list GraphNode;
  Edges : list GraphEdge
}.

Record GraphUpdateRequest := MkUpdate {
  AddEdges : list GraphEdge;
  RemoveEdges : list string
}.

(** The configuration as the handler decodes it: sources, transforms and sinks without
    their options. *)
Record NodeConfig := MkNodeConfig { CfgType : string; CfgInputs : list string }.

Record GraphConfig := MkGraphConfig {
  GVersion : string;
  GName : string;
  GType : string;
  GSystem : option MailboxConfig;
  GPipeline : option ActorDefinition;
  GSources : gmap string string;
  GTransforms : gmap string NodeConfig;
  GSinks : gmap string NodeConfig
}.

(** The YAML library: what the handler and what the runner decode from a document. *)
Class Yaml := {
  Doc : Type;
  marshal : GraphConfig -> Doc;
  unmarshal : Doc -> option GraphConfig;
  load : Doc -> option ConfigV1.PipelineConfig
}.

(** What a document without options means to the runner. *)
Definition without_options (c : GraphConfig) : ConfigV1.PipelineConfig :=
  MkConfig (GVersion c) (GName c) (GType c) (GSystem c) (GPipeline c)
    ((fun t => MkSource t ∅) <$> GSources c)
    ((fun n => MkTransform (CfgType n) (CfgInputs n) ∅) <$> GTransforms c)
    ((fun n => MkSinkCfg (CfgType n) (CfgInputs n) ∅) <$> GSinks c) None.

Class YamlLaws `{Yaml} := {
  unmarshal_marshal c : unmarshal (marshal c) = Some c;
  load_marshal c : load (marshal c) = Some (without_options c)
}.

(** The order in which Go ranges over a map: another one at each moment the program ranges,
    also over the same map. A handler gets the moment of its call and passes a moment of
    its own to each range. *)
Abbreviation Moment := (list nat) (only parsing).
Class GoRange := { range {A} : Moment -> gmap string A -> list (string * A) }.
Class GoRangeLaws `{GoRange} := {
  range_perm {A} (k : Moment) (m : gmap string A) : range k m ≡ₚ map_to_list m
}.

(** ** Drawing a graph *)

Definition edge_id (source target : string) : string := source +:+ "-" +:+ target.
Definition mk_edge (source target : string) : GraphEdge := MkEdge (edge_id source target) source target.

(** The graph under construction and the index of the next node. *)
Record Drawing := MkDrawing {
  d_nodes : list GraphNode;
  d_edges : list GraphEdge;
  d_index : Z
}.

Fixpoint convertActorNodeRecursive (def : ActorDefinition) (depth : Z) (g : Drawing) : Drawing :=
  match def with
  | MkActorDefinition name t par _ config outputs cs =>
      let node := MkNode name t name (depth * 300) (d_index g * 120) config par in
      let g := MkDrawing (d_nodes g ++ [node]) (d_edges g ++ (mk_edge name <$> outputs)) (d_index g + 1) in
      foldl (fun g c => convertActorNodeRecursive c (depth + 1) g) g cs
  end.

Definition convertActorToGraph (pipelineID : string) (root : ActorDefinition) : PipelineGraph :=
  let g := convertActorNodeRecursive root 0 (MkDrawing [] [] 0) in
  MkGraph pipelineID (d_nodes g) (d_edges g).

Definition flat_node (t key : string) (x : Z) (i : nat) (name config_type : string) : GraphNode :=
  MkNode name t name x (Z.of_nat i * 120) {[key := VString config_type]} 0.

Definition input_edges (l : list (string * NodeConfig)) : list GraphEdge :=
  l ≫= fun '(name, n) => (fun input => mk_edge input name) <$> CfgInputs n.

Section Handler.
Context `{Yaml, GoRange}.

Definition convertFlatToGraph (k : Moment) (pipelineID : string) (c : GraphConfig) : PipelineGraph :=
  let ss := range (0 :: k) (GSources c) in
  let ts := range (1 :: k) (GTransforms c) in
  let ks := range (2 :: k) (GSinks c) in
  MkGraph pipelineID
    (imap (fun i '(n, t) => flat_node "source" "source_type" 0 i n t) ss ++
     imap (fun i '(n, t) => flat_node "transform" "transform_type" 300 i n (CfgType t)) ts ++
     imap (fun i '(n, t) => flat_node "sink" "sink_type" 600 i n (CfgType t)) ks)
    (input_edges ts ++ input_edges ks).

(** The type of a pipeline, guessed when the document has none. *)
Definition pipeline_type (c : GraphConfig) : string :=
  if GType c =? "" then match GPipeline c with Some _ => "actor" | None => "flat" end else GType c.

Definition draw (k : Moment) (pipelineID : string) (c : GraphConfig) : PipelineGraph :=
  match GPipeline c with
  | Some root => if pipeline_type c =? "actor" then convertActorToGraph pipelineID root
                 else convertFlatToGraph k pipelineID c
  | None => convertFlatToGraph k pipelineID c
  end.

(** ** Changing edges *)

Definition isValidConnection (sourceType targetType : string) : bool :=
  if sourceType =? "source" then (targetType =? "transform") || (targetType =? "sink")
  else if sourceType =? "transform" then (targetType =? "transform") || (targetType =? "sink")
  else false.

Definition containsString (l : list string) (s : string) : bool := existsb (String.eqb s) l.

(** The names of the nodes with their kinds; a later kind replaces an earlier one. *)
Definition nodeNames (c : GraphConfig) : gmap string string :=
  ((fun _ => "sink") <$> GSinks c) ∪ ((fun _ => "transform") <$> GTransforms c) ∪
  ((fun _ => "source") <$> GSources c).

Definition set_nodes (ts ks : gmap string NodeConfig) (c : GraphConfig) : GraphConfig :=
  MkGraphConfig (GVersion c) (GName c) (GType c) (GSystem c) (GPipeline c) (GSources c) ts ks.

Definition add_input (source : string) (n : NodeConfig) : NodeConfig :=
  if containsString (CfgInputs n) source then n else MkNodeConfig (CfgType n) (CfgInputs n ++ [source]).

Definition add_flat_edge (names : gmap string string) (e : GraphEdge) (c : GraphConfig) : res string GraphConfig :=
  match names !! EdgeSource e, names !! EdgeTarget e with
  | None, _ => Err ("source not found: " +:+ EdgeSource e)
  | _, None => Err ("target not found: " +:+ EdgeTarget e)
  | Some st, Some tt_ =>
      if negb (isValidConnection st tt_)
      then Err ("invalid connection: " +:+ EdgeSource e +:+ " (" +:+ st +:+ ") → " +:+ EdgeTarget e
                +:+ " (" +:+ tt_ +:+ ")")
      else if tt_ =? "transform"
      then Ok (set_nodes (alter (add_input (EdgeSource e)) (EdgeTarget e) (GTransforms c)) (GSinks c) c)
      else if tt_ =? "sink"
      then Ok (set_nodes (GTransforms c) (alter (add_input (EdgeSource e)) (EdgeTarget e) (GSinks c)) c)
      else Ok c
  end.

Fixpoint add_flat_edges (names : gmap string string) (l : list GraphEdge) (c : GraphConfig) : res string GraphConfig :=
  match l with
  | [] => Ok c
  | e :: l => add_flat_edge names e c ≫= add_flat_edges names l
  end.

Definition remove_inputs (edgeID name : string) (n : NodeConfig) : NodeConfig :=
  MkNodeConfig (CfgType n) (filter (fun input => edge_id input name <> edgeID) (CfgInputs n)).

Definition remove_flat_edge (c : GraphConfig) (edgeID : string) : GraphConfig :=
  let f m := map_imap (fun name n => Some (remove_inputs edgeID name n)) m in
  set_nodes (f (GTransforms c)) (f (GSinks c)) c.

Definition applyFlatEdgeChanges (c : GraphConfig) (req : GraphUpdateRequest) : res string GraphConfig :=
  add_flat_edges (nodeNames c) (AddEdges req) c ≫= fun c =>
  Ok (foldl remove_flat_edge c (RemoveEdges req)).

(** A pointer into the tree: the positions of the children on the way. *)
Abbreviation Path := (list nat) (only parsing).

Definition with_outputs (f : list string -> list string) (d : ActorDefinition) : ActorDefinition :=
  MkActorDefinition (DefName d) (DefType d) (DefParallelism d) (DefSupervision d) (DefConfig d)
    (f (DefOutputs d)) (DefChildren d).
Definition with_def_children (cs : list ActorDefinition) (d : ActorDefinition) : ActorDefinition :=
  MkActorDefinition (DefName d) (DefType d) (DefParallelism d) (DefSupervision d) (DefConfig d)
    (DefOutputs d) cs.

Fixpoint update_at (p : Path) (f : list string -> list string) (d : ActorDefinition) : ActorDefinition :=
  match p with
  | [] => with_outputs f d
  | i :: p => with_def_children (alter (update_at p f) i (DefChildren d)) d
  end.
Fixpoint actor_at (p : Path) (d : ActorDefinition) : option ActorDefinition :=
  match p with
  | [] => Some d
  | i :: p => DefChildren d !! i ≫= actor_at p
  end.

(** [path] leads to [def]. *)
Fixpoint buildActorMapRecursive (path : Path) (def : ActorDefinition) (m : gmap string (list nat))
  : gmap string (list nat) :=
  match def with
  | MkActorDefinition name _ _ _ _ _ cs =>
      (fix children (i : nat) (cs : list ActorDefinition) (m : gmap string (list nat)) :=
         match cs with
         | [] => m
         | c :: cs => children (S i) cs (buildActorMapRecursive (path ++ [i]) c m)
         end) 0 cs (<[name := path]> m)
  end.

Definition buildActorMap (root : ActorDefinition) : gmap string (list nat) := buildActorMapRecursive [] root ∅.

Definition add_output (target : string) (l : list string) : list string :=
  if containsString l target then l else l ++ [target].

Definition add_actor_edge (m : gmap string (list nat)) (e : GraphEdge) (root : ActorDefinition)
  : res string ActorDefinition :=
  match m !! EdgeSource e, m !! EdgeTarget e with
  | None, _ => Err ("source actor not found: " +:+ EdgeSource e)
  | _, None => Err ("target actor not found: " +:+ EdgeTarget e)
  | Some p, Some _ => Ok (update_at p (add_output (EdgeTarget e)) root)
  end.

Fixpoint add_actor_edges (m : gmap string (list nat)) (l : list GraphEdge) (root : ActorDefinition)
  : res string ActorDefinition :=
  match l with
  | [] => Ok root
  | e :: l => add_actor_edge m e root ≫= add_actor_edges m l
  end.

Definition remove_outputs (edgeID name : string) (l : list string) : list string :=
  filter (fun output => edge_id name output <> edgeID) l.

(** The name of an actor never changes, so it is its key. *)
Definition remove_actor_edge (k : Moment) (m : gmap string (list nat)) (root : ActorDefinition)
  (edgeID : string) : ActorDefinition :=
  foldl (fun root '(name, p) => update_at p (remove_outputs edgeID name) root) root (range k m).

Fixpoint remove_actor_edges (k : Moment) (m : gmap string (list nat)) (root : ActorDefinition)
  (l : list string) : ActorDefinition :=
  match l with
  | [] => root
  | edgeID :: l => remove_actor_edges (0 :: k) m (remove_actor_edge (1 :: k) m root edgeID) l
  end.

Definition applyActorEdgeChanges (k : Moment) (root : ActorDefinition) (req : GraphUpdateRequest)
  : res string ActorDefinition :=
  let actorMap := buildActorMap root in
  add_actor_edges actorMap (AddEdges req) root ≫= fun root =>
  Ok (remove_actor_edges k actorMap root (RemoveEdges req)).

Definition applyEdgeChanges (k : Moment) (c : GraphConfig) (req : GraphUpdateRequest) : res string GraphConfig :=
  match GPipeline c with
  | Some root =>
      if pipeline_type c =? "actor"
      then applyActorEdgeChanges k root req ≫= fun root =>
           Ok (MkGraphConfig (GVersion c) (GName c) (GType c) (GSystem c) (Some root) (GSources c)
                 (GTransforms c) (GSinks c))
      else applyFlatEdgeChanges c req
  | None => applyFlatEdgeChanges c req
  end.

(** ** The handlers *)

(** The documents of the pipelines by id. *)
Abbreviation Pipelines := (gmap string Doc) (only parsing).

Definition GetPipelineGraph (k : Moment) (db : Pipelines) (pipelineID : string) : Reply PipelineGraph :=
  match db !! pipelineID with
  | None => Failure 404 ErrCodeNotFound "Pipeline not found"
  | Some doc =>
      match unmarshal doc with
      | None => Failure 400 ErrCodeValidationFailed "Invalid pipeline config"
      | Some c => Success 200 (draw k pipelineID c)
      end
  end.

(** [req] is the bound request, if it binds; [saved] tells whether the database saves. *)
Definition UpdatePipelineGraph (k : Moment) (db : Pipelines) (pipelineID : string) (req : option GraphUpdateRequest)
  (saved : bool) : Reply PipelineGraph * Pipelines :=
  match req with
  | None => (Failure 400 ErrCodeInvalidJSON "", db)
  | Some req =>
      match db !! pipelineID with
      | None => (Failure 404 ErrCodeNotFound "Pipeline not found", db)
      | Some doc =>
          match unmarshal doc with
          | None => (Failure 400 ErrCodeValidationFailed "Invalid pipeline config", db)
          | Some c =>
              match applyEdgeChanges (0 :: k) c req with
              | Ok c =>
                  if saved then (Success 200 (draw (1 :: k) pipelineID c), <[pipelineID := marshal c]> db)
                  else (Failure 500 ErrCodeDatabaseError "Failed to save pipeline", db)
              | Err e => (Failure 400 ErrCodeValidationFailed e, db)
              | Panic => (HandlerPanic, db)
              end
          end
      end
  end.

(** ** [GetActorMetrics] *)

(** The last statistics of the pipeline; the zero row when there is none. The counts of the
    stages are decoded, [None] when they are empty or do not decode. *)
Record StatsRow := MkStatsRow {
  RecordsCollected : Z;
  RecordsProcessed : Z;
  ProcessingErrors : Z;
  PerStageCounts : option (gmap string Z);
  StartedAt : Z
}.

Record ActorMetrics := MkActorMetrics {
  InputCount : Z;
  OutputCount : Z;
  ErrorCount : Z;
  LastUpdated : Z
}.

Definition stage_metrics (s : StatsRow) : gmap string ActorMetrics :=
  match PerStageCounts s with
  | Some counts => (fun n => MkActorMetrics n n 0 (StartedAt s)) <$> counts
  | None => ∅
  end.

Definition GetActorMetrics (db : Pipelines) (s : StatsRow) (pipelineID : string)
  : Reply (gmap string ActorMetrics) :=
  match db !! pipelineID with
  | None => Failure 404 ErrCodeNotFound "Pipeline not found"
  | Some doc =>
      let m := stage_metrics s in
      if (0 <? RecordsCollected s)%Z then
        match unmarshal doc with
        | None => Success 200 m
        | Some c =>
            let m := m ∪ ((fun _ => MkActorMetrics 0 (RecordsCollected s) 0 (StartedAt s)) <$> GSources c) in
            Success 200 (m ∪ ((fun _ => MkActorMetrics (RecordsProcessed s) (RecordsProcessed s)
                                          (ProcessingErrors s) (StartedAt s)) <$> GSinks c))
        end
      else Success 200 m
  end.
End Handler.

(** ** Flat pipelines *)

Definition input_of (m : gmap string NodeConfig) (s t : string) : Prop :=
  exists n, m !! t = Some n /\ s ∈ CfgInputs n.
Definition has_edge (c : GraphConfig) (s t : string) : Prop :=
  input_of (GTransforms c) s t \/ input_of (GSinks c) s t.

(** An edge the editor accepts. *)
Definition valid_edge (names : gmap string string) (e : GraphEdge) : Prop :=
  exists st tt_, names !! EdgeSource e = Some st /\ names !! EdgeTarget e = Some tt_ /\
    isValidConnection st tt_ = true.

Lemma mk_edge_inj s t s' t' : mk_edge s t = mk_edge s' t' -> s = s' /\ t = t'.
Proof. by intros [= _ -> ->]. Qed.

Lemma elem_of_input_edges `{GoRangeLaws} k m s t : mk_edge s t ∈ input_edges (range k m) <-> input_of m s t.
Proof.
  unfold input_edges, input_of. rewrite list_elem_of_bind. split.
  - intros ([name n] & (i & He & Hi)%list_elem_of_fmap & Hin). apply mk_edge_inj in He as [-> ->].
    rewrite (range_perm k m) in Hin. apply elem_of_map_to_list in Hin. by exists n.
  - intros (n & Hn & Hs). exists (t, n). split; [apply list_elem_of_fmap; by exists s|].
    rewrite (range_perm k m). by apply elem_of_map_to_list.
Qed.

Lemma elem_of_flat_edges `{GoRangeLaws} k id c s t :
  mk_edge s t ∈ Edges (convertFlatToGraph k id c) <-> has_edge c s t.
Proof. simpl. by rewrite elem_of_app, !elem_of_input_edges. Qed.

Lemma containsString_spec l s : containsString l s = true <-> s ∈ l.
Proof.
  unfold containsString. rewrite existsb_exists. split.
  - intros (x & Hx & ->%String.eqb_eq). by apply list_elem_of_In.
  - intros Hs. exists s. split; [by apply list_elem_of_In|apply String.eqb_refl].
Qed.

Lemma input_of_add m source target s t :
  is_Some (m !! target) ->
  input_of (alter (add_input source) target m) s t <-> input_of m s t \/ (s = source /\ t = target).
Proof.
  intros [n Hn]. unfold input_of. destruct (decide (t = target)) as [->|Ht].
  - rewrite lookup_alter_eq, Hn. simpl. unfold add_input.
    destruct (containsString (CfgInputs n) source) eqn:E.
    + apply containsString_spec in E. naive_solver.
    + split; [intros (? & [= <-] & Hin); simpl in Hin; set_solver|].
      intros [(? & [= <-] & Hin)|[-> _]]; eexists; (split; [done|]); set_solver.
  - rewrite lookup_alter_ne by done. naive_solver.
Qed.

Lemma nodeNames_kind c n t :
  nodeNames c !! n = Some t ->
  t = "sink" /\ is_Some (GSinks c !! n) \/ t = "transform" /\ is_Some (GTransforms c !! n) \/
  t = "source" /\ is_Some (GSources c !! n).
Proof.
  unfold nodeNames. rewrite !lookup_union, !lookup_fmap.
  destruct (GSinks c !! n), (GTransforms c !! n), (GSources c !! n); intros [= <-]; eauto 10.
Qed.

Lemma fmap_const_dom {A B} (m m' : gmap string A) (b : B) :
  dom m = dom m' -> (fun _ => b) <$> m = (fun _ => b) <$> m'.
Proof.
  intros Hd. apply map_eq. intros n. rewrite !lookup_fmap.
  assert (is_Some (m !! n) <-> is_Some (m' !! n)) as Hn by by rewrite <- !elem_of_dom, Hd.
  destruct (m !! n), (m' !! n); try done; exfalso;
    (assert (is_Some (@None A)) as [? ?]; [apply Hn; by eexists|done]).
Qed.

Lemma nodeNames_same c ts ks :
  dom ts = dom (GTransforms c) -> dom ks = dom (GSinks c) -> nodeNames (set_nodes ts ks c) = nodeNames c.
Proof.
  intros Ht Hk. unfold nodeNames. simpl.
  by rewrite (fmap_const_dom ts _ _ Ht), (fmap_const_dom ks _ _ Hk).
Qed.

Lemma add_flat_edge_spec c e :
  valid_edge (nodeNames c) e ->
  exists c', add_flat_edge (nodeNames c) e c = Ok c' /\ nodeNames c' = nodeNames c /\
    GPipeline c' = GPipeline c /\ GType c' = GType c /\
    forall s t, has_edge c' s t <-> has_edge c s t \/ (s = EdgeSource e /\ t = EdgeTarget e).
Proof.
  intros (st & tt_ & Hs & Ht & Hv). unfold add_flat_edge. rewrite Hs, Ht, Hv. simpl.
  apply nodeNames_kind in Ht as [[-> Hk]|[[-> Hk]|[-> _]]].
  - eexists. split; [done|]. split; [apply nodeNames_same; by rewrite ?dom_alter_L|].
    split; [done|]. split; [done|]. intros s t. unfold has_edge. simpl. rewrite input_of_add by done. tauto.
  - eexists. split; [done|]. split; [apply nodeNames_same; by rewrite ?dom_alter_L|].
    split; [done|]. split; [done|]. intros s t. unfold has_edge. simpl. rewrite input_of_add by done. tauto.
  - exfalso. revert Hv. unfold isValidConnection. by repeat case_match.
Qed.

Lemma add_flat_edge_invalid names c e :
  ~ valid_edge names e -> exists m, add_flat_edge names e c = Err m.
Proof.
  intros Hv. unfold add_flat_edge.
  destruct (names !! EdgeSource e) as [st|] eqn:Hs; [|by eexists].
  destruct (names !! EdgeTarget e) as [tt_|] eqn:Ht; [|by eexists].
  destruct (isValidConnection st tt_) eqn:E; simpl; [|by eexists].
  exfalso. apply Hv. by exists st, tt_.
Qed.

Lemma add_flat_edges_spec l c :
  Forall (valid_edge (nodeNames c)) l ->
  exists c', add_flat_edges (nodeNames c) l c = Ok c' /\ nodeNames c' = nodeNames c /\
    GPipeline c' = GPipeline c /\ GType c' = GType c /\
    forall s t, has_edge c' s t <-> has_edge c s t \/ exists e, e ∈ l /\ s = EdgeSource e /\ t = EdgeTarget e.
Proof.
  revert c. induction l as [|e l IH]; intros c Hl; simpl.
  { exists c. do 4 (split; [done|]). set_solver. }
  apply Forall_cons in Hl as [He Hl]. destruct (add_flat_edge_spec c e He) as (c1 & -> & Hn & Hp & Ht & Hi).
  simpl. rewrite <- Hn in Hl |- *. destruct (IH c1 Hl) as (c2 & -> & Hn2 & Hp2 & Ht2 & Hi2).
  exists c2. split; [done|]. split; [done|]. split; [congruence|]. split; [congruence|].
  intros s t. rewrite Hi2, Hi. set_solver.
Qed.

Lemma add_flat_edges_invalid l c :
  ~ Forall (valid_edge (nodeNames c)) l -> exists m, add_flat_edges (nodeNames c) l c = Err m.
Proof.
  revert c. induction l as [|e l IH]; intros c Hl; simpl; [by destruct Hl|].
  destruct (add_flat_edge (nodeNames c) e c) as [c1|m|] eqn:E.
  - assert (valid_edge (nodeNames c) e) as He.
    { destruct (nodeNames c !! EdgeSource e) as [st|] eqn:Hs; [|by unfold add_flat_edge in E; rewrite Hs in E].
      destruct (nodeNames c !! EdgeTarget e) as [tt_|] eqn:Ht; [|by unfold add_flat_edge in E; rewrite Hs, Ht in E].
      exists st, tt_. split; [done|]. split; [done|]. unfold add_flat_edge in E. rewrite Hs, Ht in E.
      by destruct (isValidConnection st tt_). }
    destruct (add_flat_edge_spec c e He) as (c1' & E' & Hn & _). rewrite E in E'. injection E' as <-. simpl. rewrite <- Hn.
    apply IH. rewrite Hn. intros Hl'. apply Hl. by apply Forall_cons.
  - by exists m.
  - exfalso. unfold add_flat_edge in E. by repeat case_match.
Qed.

Lemma input_of_remove id m s t :
  input_of (map_imap (fun name n => Some (remove_inputs id name n)) m) s t <->
  input_of m s t /\ edge_id s t <> id.
Proof.
  unfold input_of. rewrite map_lookup_imap. destruct (m !! t) as [n|]; simpl; [|naive_solver].
  split.
  - intros (? & [= <-] & Hin). simpl in Hin. apply list_elem_of_filter in Hin as [? ?]. naive_solver.
  - intros [(? & [= <-] & Hin) Hid]. eexists. split; [done|]. simpl. by apply list_elem_of_filter.
Qed.

Lemma remove_flat_edges_spec l c s t :
  has_edge (foldl remove_flat_edge c l) s t <-> has_edge c s t /\ edge_id s t ∉ l.
Proof.
  revert c. induction l as [|id l IH]; intros c; simpl; [set_solver|].
  rewrite IH. unfold has_edge, remove_flat_edge. simpl. rewrite !input_of_remove. set_solver.
Qed.

Lemma remove_flat_edges_pipeline l c : GPipeline (foldl remove_flat_edge c l) = GPipeline c /\
  GType (foldl remove_flat_edge c l) = GType c.
Proof.
  revert c. induction l as [|id l IH]; intros c; simpl; [done|].
  by destruct (IH (remove_flat_edge c id)) as [-> ->].
Qed.

(** ** Actor pipelines *)

(** The actors of a tree with their outputs, a parent before its children. *)
Fixpoint outs (d : ActorDefinition) : list (string * list string) :=
  match d with
  | MkActorDefinition name _ _ _ _ outputs cs => (name, outputs) :: (cs ≫= outs)
  end.
Definition names (d : ActorDefinition) : list string := (outs d).*1.
Definition actor_edge (d : ActorDefinition) (s t : string) : Prop := exists l, (s, l) ∈ outs d /\ t ∈ l.

Lemma convertActorNode_edges d depth g :
  d_edges (convertActorNodeRecursive d depth g) =
  d_edges g ++ (outs d ≫= fun '(n, l) => mk_edge n <$> l).
Proof.
  revert depth g. induction d as [name t par sup config outputs cs IH] using actor_def_ind; intros depth g. simpl.
  set (g0 := MkDrawing _ _ _).
  assert (d_edges g0 = d_edges g ++ (mk_edge name <$> outputs)) as H0 by done.
  rewrite (app_assoc (d_edges g)), <- H0. clearbody g0. clear H0. revert g0.
  induction IH as [|c cs Hc _ IHcs]; intros g0; simpl; [by rewrite app_nil_r|].
  rewrite IHcs, Hc, bind_app. by rewrite app_assoc.
Qed.

Lemma elem_of_actor_edges id d s t :
  mk_edge s t ∈ Edges (convertActorToGraph id d) <-> actor_edge d s t.
Proof.
  unfold convertActorToGraph. simpl. rewrite convertActorNode_edges. simpl. rewrite list_elem_of_bind.
  unfold actor_edge. split.
  - intros ([n l] & (x & He & Hx)%list_elem_of_fmap & Hin). apply mk_edge_inj in He as [-> ->]. by exists l.
  - intros (l & Hin & Ht). exists (s, l). split; [|done]. apply list_elem_of_fmap. by exists t.
Qed.

(** Changing the outputs of one actor. *)
Definition upd (n : string) (f : list string -> list string) (x : string * list string) : string * list string :=
  if bool_decide (x.1 = n) then (x.1, f x.2) else x.

Lemma upd_fst n f l : (upd n f <$> l).*1 = l.*1.
Proof.
  rewrite <- list_fmap_compose. apply list_fmap_ext. intros i x _. unfold compose, upd. by case_bool_decide.
Qed.
Lemma upd_other n f l : n ∉ l.*1 -> upd n f <$> l = l.
Proof.
  intros Hn. induction l as [|[n' o] l IH]; [done|]. csimpl in *. rewrite not_elem_of_cons in Hn.
  rewrite IH by tauto. unfold upd. simpl. by rewrite bool_decide_eq_false_2 by naive_solver.
Qed.

Lemma actor_at_names p d e : actor_at p d = Some e -> DefName e ∈ names d.
Proof.
  revert d. induction p as [|i p IH]; intros d; simpl.
  { intros [= ->]. destruct e. unfold names. simpl. set_solver. }
  intros (c & Hc & He)%bind_Some. apply IH in He. destruct d as [? ? ? ? ? ? cs]. simpl in Hc.
  unfold names in *. simpl. apply elem_of_cons. right. apply list_elem_of_fmap in He as (x & Hx & Hin).
  apply list_elem_of_fmap. exists x. split; [done|]. apply list_elem_of_bind. exists c. split; [done|].
  by eapply list_elem_of_lookup_2.
Qed.

Lemma list_alter_middle {A} (f : A -> A) l1 x l2 :
  alter f (List.length l1) (l1 ++ x :: l2) = l1 ++ f x :: l2.
Proof. induction l1 as [|y l1 IH]; [done|]. cbn. by rewrite <- IH. Qed.

Lemma outs_update p f d e :
  NoDup (names d) -> actor_at p d = Some e -> outs (update_at p f d) = upd (DefName e) f <$> outs d.
Proof.
  revert d. induction p as [|i p IH]; intros d Hnd; simpl.
  { intros [= ->]. destruct e as [n ? ? ? ? o cs]. unfold names in Hnd. csimpl in *.
    apply NoDup_cons in Hnd as [Hn _]. unfold upd at 1. simpl. rewrite bool_decide_eq_true_2 by done. simpl.
    f_equal. by rewrite upd_other. }
  intros (c & Hc & He)%bind_Some. pose proof (actor_at_names _ _ _ He) as Hin.
  destruct d as [n ? ? ? ? o cs]. unfold names in Hnd. csimpl in *.
  apply list_elem_of_split_length in Hc as (l1 & l2 & -> & ->).
  rewrite list_alter_middle. rewrite !bind_app in *. csimpl in *. rewrite !fmap_app in *.
  rewrite NoDup_cons, !NoDup_app in Hnd. destruct Hnd as (Hn & Hl1 & Hd1 & Hc & Hd2 & Hl2).
  unfold upd at 1. simpl. unfold names in Hin. rewrite bool_decide_eq_false_2.
  2: { intros ->. apply Hn. set_solver. }
  f_equal. rewrite (IH c) by done.
  rewrite (upd_other _ _ (l1 ≫= outs)) by (intros H1; apply (Hd1 _ H1); set_solver).
  by rewrite (upd_other _ _ (l2 ≫= outs)) by (intros H2; by apply (Hd2 _ Hin)).
Qed.

(** The paths of a map lead to the actors of these names. *)
Definition points (m : gmap string (list nat)) (d : ActorDefinition) : Prop :=
  forall n p, m !! n = Some p -> exists e, actor_at p d = Some e /\ DefName e = n.

Lemma build_spec d path m :
  (forall n p, buildActorMapRecursive path d m !! n = Some p ->
     m !! n = Some p \/ exists q e, p = path ++ q /\ actor_at q d = Some e /\ DefName e = n) /\
  dom (buildActorMapRecursive path d m) = dom m ∪ list_to_set (names d).
Proof.
  revert path m. induction d as [name t par sup config outputs cs IH] using actor_def_ind; intros path m.
  unfold names. cbn [buildActorMapRecursive outs].
  set (go := fix children i cs m := match cs with [] => m | c :: cs => _ end).
  assert (forall i m, (forall n p, go i cs m !! n = Some p -> m !! n = Some p \/
      exists j c q e, cs !! j = Some c /\ p = path ++ (i + j) :: q /\ actor_at q c = Some e /\ DefName e = n) /\
    dom (go i cs m) = dom m ∪ list_to_set (cs ≫= outs).*1) as Hgo.
  { induction IH as [|c cs Hc _ IHcs]; intros i m0; [split; [by left|simpl; set_solver]|].
    destruct (Hc (path ++ [i]) m0) as [Hc1 Hc2]. simpl.
    destruct (IHcs (S i) (buildActorMapRecursive (path ++ [i]) c m0)) as [H1 H2]. split.
    - intros n p [Hp|(j & c' & q & e & Hj & -> & He & Hn)]%H1.
      + apply Hc1 in Hp as [Hp|(q & e & -> & He & Hn)]; [by left|]. right. exists 0, c, q, e.
        split; [done|]. by rewrite Nat.add_0_r, <- app_assoc.
      + right. exists (S j), c', q, e. split; [done|]. by rewrite Nat.add_succ_r.
    - rewrite H2, Hc2. unfold names. csimpl. rewrite fmap_app, list_to_set_app_L. set_solver. }
  destruct (Hgo 0 (<[name := path]> m)) as [H1 H2]. split.
  - intros n p [[[<- <-]|[_ ?]]%lookup_insert_Some|(j & c & q & e & Hj & -> & He & Hn)]%H1.
    + right. eexists [], _. split; [by rewrite app_nil_r|]. by split.
    + by left.
    + right. exists (j :: q), e. split; [done|]. simpl. by rewrite Hj.
  - rewrite H2, dom_insert_L. csimpl. set_solver.
Qed.

Lemma buildActorMap_spec d : points (buildActorMap d) d /\ dom (buildActorMap d) = list_to_set (names d).
Proof.
  unfold buildActorMap. destruct (build_spec d [] ∅) as [H1 H2]. split.
  - intros n p [?|(q & e & -> & ? & ?)]%H1; [done|by exists e].
  - rewrite H2. set_solver.
Qed.

Lemma actor_at_update q p f d e :
  actor_at q d = Some e -> exists e', actor_at q (update_at p f d) = Some e' /\ DefName e' = DefName e.
Proof.
  revert q d. induction p as [|i p IH]; intros [|j q] d; simpl.
  - intros [= ->]. by eexists.
  - intros He. by exists e.
  - intros [= ->]. by eexists.
  - intros (c & Hc & He)%bind_Some. destruct (decide (i = j)) as [->|Hij].
    + rewrite list_lookup_alter_eq, Hc. simpl. by apply IH.
    + rewrite list_lookup_alter_ne, Hc by done. by exists e.
Qed.

Lemma points_update m p f d : points m d -> points m (update_at p f d).
Proof.
  intros Hm n q Hq. destruct (Hm n q Hq) as (e & He & Hn).
  destruct (actor_at_update q p f d e He) as (e' & He' & Hn'). exists e'. split; [done|congruence].
Qed.

Lemma update_names p f d e : NoDup (names d) -> actor_at p d = Some e -> names (update_at p f d) = names d.
Proof. intros Hnd He. unfold names. by rewrite (outs_update p f d e), upd_fst. Qed.

Lemma update_edge p f d e s t :
  NoDup (names d) -> actor_at p d = Some e ->
  actor_edge (update_at p f d) s t <->
  exists l, (s, l) ∈ outs d /\ t ∈ (if bool_decide (s = DefName e) then f l else l).
Proof.
  intros Hnd He. unfold actor_edge. rewrite (outs_update p f d e) by done. split.
  - intros (l & ([n l'] & Hx & Hin)%list_elem_of_fmap & Ht). exists l'. unfold upd in Hx. simpl in Hx.
    case_bool_decide; simplify_eq; by rewrite ?bool_decide_eq_true_2, ?bool_decide_eq_false_2 by done.
  - intros (l & Hin & Ht). exists (if bool_decide (s = DefName e) then f l else l). split; [|done].
    apply list_elem_of_fmap. exists (s, l). split; [|done]. unfold upd. simpl. by case_bool_decide.
Qed.

(** The state of the loops: the map still points into the tree. *)
Record editing (m : gmap string (list nat)) (d : ActorDefinition) : Prop := {
  ed_points : points m d;
  ed_names : NoDup (names d);
  ed_dom : dom m = list_to_set (names d)
}.

Lemma editing_update m p f d n :
  editing m d -> m !! n = Some p ->
  editing m (update_at p f d) /\
  forall s t, actor_edge (update_at p f d) s t <->
    exists l, (s, l) ∈ outs d /\ t ∈ (if bool_decide (s = n) then f l else l).
Proof.
  intros [Hp Hnd Hd] Hm. destruct (Hp _ _ Hm) as (e & He & <-). split.
  - split; [by apply points_update| |]; by rewrite (update_names p f d e).
  - intros s t. by apply update_edge.
Qed.

Lemma add_output_in target l t : t ∈ add_output target l <-> t ∈ l \/ t = target.
Proof.
  unfold add_output. destruct (containsString l target) eqn:E; [|set_solver].
  apply containsString_spec in E. naive_solver.
Qed.

Lemma add_actor_edge_spec m e d :
  editing m d -> EdgeSource e ∈ names d -> EdgeTarget e ∈ names d ->
  exists d', add_actor_edge m e d = Ok d' /\ editing m d' /\ names d' = names d /\
    forall s t, actor_edge d' s t <-> actor_edge d s t \/ (s = EdgeSource e /\ t = EdgeTarget e).
Proof.
  intros Hed Hs Ht. pose proof (ed_dom _ _ Hed) as Hdom.
  assert (is_Some (m !! EdgeSource e)) as [p Hp] by (apply elem_of_dom; set_solver).
  assert (is_Some (m !! EdgeTarget e)) as [q Hq] by (apply elem_of_dom; set_solver).
  unfold add_actor_edge. rewrite Hp, Hq. eexists. split; [done|].
  destruct (editing_update m p (add_output (EdgeTarget e)) d _ Hed Hp) as [Hed' He]. split; [done|].
  destruct (ed_points _ _ Hed _ _ Hp) as (x & Hx & Hn).
  split; [by apply (update_names _ _ _ x); [apply Hed|]|].
  intros s t. rewrite He. unfold actor_edge. split.
  - intros (l & Hin & Htl). case_bool_decide; [|naive_solver]. apply add_output_in in Htl. naive_solver.
  - intros [(l & Hin & Htl)|[-> ->]].
    + exists l. split; [done|]. case_bool_decide; [|done]. apply add_output_in. by left.
    + apply list_elem_of_fmap in Hs as ([n l] & Hn' & Hin). simpl in Hn'. subst n. exists l. split; [done|].
      rewrite bool_decide_eq_true_2 by done. apply add_output_in. by right.
Qed.

Definition valid_actor_edge (d : ActorDefinition) (e : GraphEdge) : Prop :=
  EdgeSource e ∈ names d /\ EdgeTarget e ∈ names d.

Lemma add_actor_edges_spec m l d :
  editing m d -> Forall (valid_actor_edge d) l ->
  exists d', add_actor_edges m l d = Ok d' /\ editing m d' /\
    forall s t, actor_edge d' s t <-> actor_edge d s t \/ exists e, e ∈ l /\ s = EdgeSource e /\ t = EdgeTarget e.
Proof.
  revert d. induction l as [|e l IH]; intros d Hed Hl; simpl.
  { exists d. split; [done|]. split; [done|]. set_solver. }
  apply Forall_cons in Hl as [[Hs Ht] Hl].
  destruct (add_actor_edge_spec m e d Hed Hs Ht) as (d1 & -> & Hed1 & Hn & H1). simpl.
  destruct (IH d1 Hed1) as (d2 & -> & Hed2 & H2).
  { eapply Forall_impl; [done|]. intros x. unfold valid_actor_edge. by rewrite Hn. }
  exists d2. split; [done|]. split; [done|]. intros s t. rewrite H2, H1. set_solver.
Qed.

Lemma add_actor_edges_invalid m l d :
  editing m d -> ~ Forall (valid_actor_edge d) l -> exists msg, add_actor_edges m l d = Err msg.
Proof.
  revert d. induction l as [|e l IH]; intros d Hed Hl; simpl; [by destruct Hl|].
  pose proof (ed_dom _ _ Hed) as Hdom.
  destruct (m !! EdgeSource e) as [p|] eqn:Hp; [|unfold add_actor_edge; rewrite Hp; by eexists].
  destruct (m !! EdgeTarget e) as [q|] eqn:Hq; [|unfold add_actor_edge; rewrite Hp, Hq; by eexists].
  apply elem_of_dom_2 in Hp as Hs, Hq as Ht. rewrite Hdom, elem_of_list_to_set in Hs, Ht.
  destruct (add_actor_edge_spec m e d Hed Hs Ht) as (d1 & -> & Hed1 & Hn & _). simpl. apply IH; [done|].
  intros Hl'. apply Hl. apply Forall_cons. split; [done|]. eapply Forall_impl; [done|]. intros x.
  unfold valid_actor_edge. by rewrite Hn.
Qed.

Lemma remove_loop_spec m id L d s t :
  editing m d -> (forall n p, (n, p) ∈ L -> m !! n = Some p) ->
  let d' := foldl (fun root '(name, p) => update_at p (remove_outputs id name) root) d L in
  editing m d' /\ (actor_edge d' s t <-> actor_edge d s t /\ (s ∈ L.*1 -> edge_id s t <> id)).
Proof.
  revert d. induction L as [|[n p] L IH]; intros d Hed HL; simpl; [set_solver|].
  destruct (editing_update m p (remove_outputs id n) d n Hed) as [Hed1 H1]; [apply HL; set_solver|].
  destruct (IH (update_at p (remove_outputs id n) d) Hed1) as [Hed2 H2]; [intros; apply HL; set_solver|].
  split; [done|]. rewrite H2, H1. clear H1 H2. unfold actor_edge, remove_outputs.
  case_bool_decide as Hn; [subst n|].
  - split.
    + intros [(l & Hin & [Hid Ht]%list_elem_of_filter) Hrest]. split; [by exists l|done].
    + intros [(l & Hin & Ht) Hid]. split; [|set_solver]. exists l. split; [done|].
      apply list_elem_of_filter. split; [apply Hid; set_solver|done].
  - set_solver.
Qed.

Lemma remove_actor_edges_spec `{GoRangeLaws} k m l d s t :
  editing m d ->
  let d' := remove_actor_edges k m d l in
  editing m d' /\ (actor_edge d' s t <-> actor_edge d s t /\ edge_id s t ∉ l).
Proof.
  revert k d. induction l as [|id l IH]; intros k d Hed; simpl; [set_solver|].
  destruct (remove_loop_spec m id (range (1 :: k) m) d s t Hed) as [Hed1 H1].
  { intros n p. rewrite (range_perm (1 :: k) m). apply elem_of_map_to_list. }
  fold (remove_actor_edge (1 :: k) m d id) in *. destruct (IH (0 :: k) _ Hed1) as [Hed2 H2]. split; [done|].
  rewrite H2, H1. split; [|set_solver].
  intros [[He Hid] Hl]. split; [done|]. rewrite not_elem_of_cons. split; [|done].
  apply Hid. destruct He as (o & Hin & _).
  assert (s ∈ dom m) as Hs.
  { rewrite (ed_dom _ _ Hed), elem_of_list_to_set. apply list_elem_of_fmap. by exists (s, o). }
  apply elem_of_dom in Hs as [p Hp]. apply list_elem_of_fmap. exists (s, p). split; [done|].
  rewrite (range_perm (1 :: k) m). by apply elem_of_map_to_list.
Qed.

(** ** What an update does *)

(** Whether the graph of the configuration is that of its actors. *)
Definition actor_graph (c : GraphConfig) : option ActorDefinition :=
  match GPipeline c with
  | Some root => if pipeline_type c =? "actor" then Some root else None
  | None => None
  end.

(** Every edge to add has its ends among the nodes, in a direction that is allowed. *)
Definition accepted (c : GraphConfig) (req : GraphUpdateRequest) : Prop :=
  match actor_graph c with
  | Some root => Forall (valid_actor_edge root) (AddEdges req)
  | None => Forall (valid_edge (nodeNames c)) (AddEdges req)
  end.

(** No two actors of the tree share a name. *)
Definition editable (c : GraphConfig) : Prop :=
  match actor_graph c with Some root => NoDup (names root) | None => True end.

Lemma draw_edges `{GoRangeLaws} k id c s t :
  mk_edge s t ∈ Edges (draw k id c) <->
  match actor_graph c with Some root => actor_edge root s t | None => has_edge c s t end.
Proof.
  unfold draw, actor_graph. destruct (GPipeline c) as [root|]; [|apply elem_of_flat_edges].
  destruct (pipeline_type c =? "actor"); [apply elem_of_actor_edges|apply elem_of_flat_edges].
Qed.

(** Two drawings of a configuration show the same nodes and edges in some order; the order,
    and with it the positions, may differ for a flat pipeline. *)
Definition same_graph (g g' : PipelineGraph) : Prop :=
  GraphPipelineID g = GraphPipelineID g' /\ Edges g ≡ₚ Edges g' /\
  ((fun n => (NodeID n, NodeType n, ActorConfig n)) <$> Nodes g) ≡ₚ
  ((fun n => (NodeID n, NodeType n, ActorConfig n)) <$> Nodes g').

Lemma range_moments `{GoRangeLaws} {A} k k' (m : gmap string A) : range k m ≡ₚ range k' m.
Proof. by rewrite !range_perm. Qed.

Lemma imap_flat_nodes {A} (t key : string) (x : Z) (ty : A -> string) (l l' : list (string * A)) :
  l ≡ₚ l' ->
  ((fun n => (NodeID n, NodeType n, ActorConfig n)) <$>
     imap (fun i '(n, a) => flat_node t key x i n (ty a)) l) ≡ₚ
  ((fun n => (NodeID n, NodeType n, ActorConfig n)) <$>
     imap (fun i '(n, a) => flat_node t key x i n (ty a)) l').
Proof.
  assert (forall l, ((fun n => (NodeID n, NodeType n, ActorConfig n)) <$>
     imap (fun i '(n, a) => flat_node t key x i n (ty a)) l)
    = (fun '(n, a) => (n, t, {[key := VString (ty a)]} : Data)) <$> l) as Himap.
  { clear. intros l. rewrite fmap_imap, <- imap_const. apply imap_ext. intros i [n a] _. done. }
  intros Hl. rewrite !Himap. by apply Permutation_map.
Qed.

Lemma draw_moments `{GoRangeLaws} k k' id c : same_graph (draw k id c) (draw k' id c).
Proof.
  assert (same_graph (convertFlatToGraph k id c) (convertFlatToGraph k' id c)) as Hflat.
  { unfold same_graph, convertFlatToGraph, input_edges. simpl. split; [done|]. split.
    - apply Permutation_app; apply bind_Permutation, range_moments.
    - rewrite !fmap_app. repeat apply Permutation_app.
      + apply (imap_flat_nodes _ _ _ (fun t => t)), range_moments.
      + apply (imap_flat_nodes _ _ _ CfgType), range_moments.
      + apply (imap_flat_nodes _ _ _ CfgType), range_moments. }
  unfold draw. destruct (GPipeline c) as [root|]; [|done]. by destruct (_ =? "actor").
Qed.

Lemma applyFlat_spec c req :
  (Forall (valid_edge (nodeNames c)) (AddEdges req) ->
   exists c', applyFlatEdgeChanges c req = Ok c' /\ GPipeline c' = GPipeline c /\ GType c' = GType c /\
     forall s t, has_edge c' s t <->
       (has_edge c s t \/ exists e, e ∈ AddEdges req /\ s = EdgeSource e /\ t = EdgeTarget e) /\
       edge_id s t ∉ RemoveEdges req) /\
  (~ Forall (valid_edge (nodeNames c)) (AddEdges req) -> exists m, applyFlatEdgeChanges c req = Err m).
Proof.
  unfold applyFlatEdgeChanges. split.
  - intros Hv. destruct (add_flat_edges_spec _ _ Hv) as (c1 & -> & _ & Hp & Ht & Hi). simpl.
    destruct (remove_flat_edges_pipeline (RemoveEdges req) c1) as [Hp' Ht'].
    eexists. split; [done|]. split; [congruence|]. split; [congruence|].
    intros s t. by rewrite remove_flat_edges_spec, Hi.
  - intros Hv. destruct (add_flat_edges_invalid _ _ Hv) as [m ->]. by exists m.
Qed.

Lemma applyActor_spec `{GoRangeLaws} k d req :
  NoDup (names d) ->
  (Forall (valid_actor_edge d) (AddEdges req) ->
   exists d', applyActorEdgeChanges k d req = Ok d' /\
     forall s t, actor_edge d' s t <->
       (actor_edge d s t \/ exists e, e ∈ AddEdges req /\ s = EdgeSource e /\ t = EdgeTarget e) /\
       edge_id s t ∉ RemoveEdges req) /\
  (~ Forall (valid_actor_edge d) (AddEdges req) -> exists m, applyActorEdgeChanges k d req = Err m).
Proof.
  intros Hnd. destruct (buildActorMap_spec d) as [Hp Hd].
  assert (editing (buildActorMap d) d) as Hed by done. unfold applyActorEdgeChanges. split.
  - intros Hv. destruct (add_actor_edges_spec _ _ _ Hed Hv) as (d1 & -> & Hed1 & H1). simpl.
    eexists. split; [done|]. intros s t.
    destruct (remove_actor_edges_spec k _ (RemoveEdges req) d1 s t Hed1) as [_ ->]. by rewrite H1.
  - intros Hv. destruct (add_actor_edges_invalid _ _ _ Hed Hv) as [m ->]. by exists m.
Qed.

Lemma applyEdgeChanges_spec `{GoRangeLaws} k c req :
  editable c ->
  (accepted c req -> exists c', applyEdgeChanges k c req = Ok c' /\
     forall k1 k2 id s t, mk_edge s t ∈ Edges (draw k1 id c') <->
       (mk_edge s t ∈ Edges (draw k2 id c) \/ exists e, e ∈ AddEdges req /\ s = EdgeSource e /\ t = EdgeTarget e) /\
       edge_id s t ∉ RemoveEdges req) /\
  (~ accepted c req -> exists m, applyEdgeChanges k c req = Err m).
Proof.
  unfold editable, accepted, applyEdgeChanges. setoid_rewrite draw_edges. unfold actor_graph, pipeline_type.
  destruct (GPipeline c) as [root|] eqn:Hp; [destruct (_ =? "actor") eqn:Ht|].
  - intros Hnd. destruct (applyActor_spec k root req Hnd) as [H1 H2]. split.
    + intros (d' & -> & He)%H1. simpl. eexists. split; [done|]. intros _ _ _ s t. simpl. rewrite Ht. apply He.
    + intros (m & ->)%H2. by exists m.
  - intros _. destruct (applyFlat_spec c req) as [H1 H2]. split; [|done].
    intros (c' & -> & Hp' & Ht' & He)%H1. exists c'. split; [done|]. intros _ _ _ s t. rewrite Hp', Hp, Ht', Ht. apply He.
  - intros _. destruct (applyFlat_spec c req) as [H1 H2]. split; [|done].
    intros (c' & -> & Hp' & Ht' & He)%H1. exists c'. split; [done|]. intros _ _ _ s t. rewrite Hp', Hp. apply He.
Qed.

(** C14: Editing the graph of a stored pipeline does what the request says. The conditions
    are that the stored document decodes, that no two actors of an actor pipeline share a
    name, and that the library decodes what it encoded. When every edge to add joins
    existing nodes in an allowed direction and the save succeeds, the answer is a graph with
    the old edges and the added ones without those whose id is removed; the graph read at
    any later moment has the same nodes and edges, in the order in which Go happens to
    range over the maps; and no other pipeline changes. When the save fails, or an edge is
    not allowed, the request is refused and nothing changes. *)
Theorem graph_update_spec `{YamlLaws, GoRangeLaws} (k : Moment) (db : gmap string Doc) (id : string) (doc : Doc)
  (c : GraphConfig) (req : GraphUpdateRequest) :
  db !! id = Some doc -> unmarshal doc = Some c -> editable c ->
  (accepted c req ->
   exists g db', UpdatePipelineGraph k db id (Some req) true = (Success 200 g, db') /\
     (forall s t, mk_edge s t ∈ Edges g <->
        (mk_edge s t ∈ Edges (draw k id c) \/ exists e, e ∈ AddEdges req /\ s = EdgeSource e /\ t = EdgeTarget e) /\
        edge_id s t ∉ RemoveEdges req) /\
     (forall k', exists g', GetPipelineGraph k' db' id = Success 200 g' /\ same_graph g' g) /\
     forall id', id' <> id -> db' !! id' = db !! id') /\
  (accepted c req -> UpdatePipelineGraph k db id (Some req) false
     = (Failure 500 ErrCodeDatabaseError "Failed to save pipeline", db)) /\
  (~ accepted c req -> forall saved, exists m,
     UpdatePipelineGraph k db id (Some req) saved = (Failure 400 ErrCodeValidationFailed m, db)).
Proof.
  intros Hdoc Hc Hed. unfold UpdatePipelineGraph, GetPipelineGraph. rewrite Hdoc, Hc.
  destruct (applyEdgeChanges_spec (0 :: k) c req Hed) as [Hok Herr]. split; [|split].
  - intros (c' & -> & He)%Hok. do 2 eexists. split; [done|]. split; [apply He|]. split.
    + intros k'. rewrite lookup_insert_eq, unmarshal_marshal. eexists. split; [done|]. apply draw_moments.
    + intros id' Hid. by rewrite lookup_insert_ne.
  - by intros (c' & -> & _)%Hok.
  - intros (m & ->)%Herr saved. by exists m.
Qed.

(** Every successful edit drops the options of all sources, transforms and sinks: what the
    runner loads afterwards has none. *)
Theorem graph_update_drops_options `{YamlLaws, GoRange} (k : Moment) (db db' : gmap string Doc) (id : string)
  (req : GraphUpdateRequest) (st : Z) (g : PipelineGraph) :
  UpdatePipelineGraph k db id (Some req) true = (Success st g, db') ->
  exists doc p, db' !! id = Some doc /\ load doc = Some p /\
    map_Forall (fun _ s => SourceOptions s = ∅) (Sources p) /\
    map_Forall (fun _ t => TransformOptions t = ∅) (Transforms p) /\
    map_Forall (fun _ k => SinkOptions k = ∅) (Sinks p).
Proof.
  unfold UpdatePipelineGraph. destruct (db !! id); [|done]. destruct (unmarshal _) as [c|]; [|done].
  destruct (applyEdgeChanges (0 :: k) c req) as [c'| |]; [|done|done]. intros [= _ _ <-].
  exists (marshal c'), (without_options c'). split; [by rewrite lookup_insert_eq|].
  split; [apply load_marshal|]. unfold without_options. simpl.
  split; [|split]; intros n x (y & <- & _)%lookup_fmap_Some; done.
Qed.

(** ** A pipeline with options *)

(** A library that keeps the documents as they are. *)
#[local] Instance plain_yaml : Yaml := {|
  Doc := GraphConfig + ConfigV1.PipelineConfig;
  marshal c := inl c;
  unmarshal doc := Some match doc with
    | inl c => c
    | inr p => MkGraphConfig (Version p) (ConfigV1.Name p) (PType p) (SystemMailbox p) (Pipeline p)
                 (SourceType <$> Sources p)
                 ((fun t => MkNodeConfig (TransformType t) (TransformInputs t)) <$> Transforms p)
                 ((fun k => MkNodeConfig (SinkType k) (SinkInputs k)) <$> Sinks p)
    end;
  load doc := Some match doc with inl c => without_options c | inr p => p end
|}.
#[local] Instance plain_yaml_laws : YamlLaws.
Proof. by split. Qed.
#[local] Instance plain_range : GoRange := {| range A k m := if Nat.even (list_sum k) then map_to_list m else rev (map_to_list m) |}.
#[local] Instance plain_range_laws : GoRangeLaws.
Proof.
  split. intros A k m. simpl. destruct (Nat.even _); [done|]. symmetry. apply Permutation_rev.
Qed.

(** Two sources [a] and [a-b], sinks [b-c] and [c]; each source has a topic. *)
Definition demo_options : Data := {["topic" := VString "orders"]}.
Definition demo_doc : Doc := inr (MkConfig "1.0" "p" "flat" None None
  {["a" := MkSource "kafka" demo_options; "a-b" := MkSource "kafka" demo_options]} ∅
  {["b-c" := MkSinkCfg "console" ["a"] ∅; "c" := MkSinkCfg "console" [] ∅]} None).
Definition demo_add : GraphUpdateRequest := MkUpdate [MkEdge "x" "a-b" "c"] [].
Definition demo_remove : GraphUpdateRequest := MkUpdate [] ["a-b-c"].
Definition demo_pipelines : gmap string Doc := {["p" := demo_doc]}.
Definition after (db : gmap string Doc) (req : GraphUpdateRequest) : gmap string Doc :=
  (UpdatePipelineGraph [] db "p" (Some req) true).2.

Lemma graph_update_spec_witness :
  exists g db', UpdatePipelineGraph [] demo_pipelines "p" (Some demo_add) true = (Success 200 g, db') /\
    mk_edge "a-b" "c" ∈ Edges g /\
    forall k', exists g', GetPipelineGraph k' db' "p" = Success 200 g' /\ same_graph g' g.
Proof.
  destruct (graph_update_spec [] demo_pipelines "p" demo_doc (default (MkGraphConfig "" "" "" None None ∅ ∅ ∅) (unmarshal demo_doc)) demo_add)
    as [Hok _]; [by vm_compute|done|done|].
  destruct Hok as (g & db' & Hu & He & Hg & _).
  - apply Forall_cons. split; [|apply Forall_nil_2]. exists "source", "sink". by vm_compute.
  - exists g, db'. split; [done|]. split; [|done]. apply He. split; [|apply not_elem_of_nil].
    right. exists (MkEdge "x" "a-b" "c"). split; [apply elem_of_cons; by left|done].
Defined.

Lemma graph_update_drops_options_witness :
  load demo_doc ≫= (fun p => SourceOptions <$> Sources p !! "a") = Some demo_options /\
  exists doc p, after demo_pipelines demo_add !! "p" = Some doc /\ load doc = Some p /\
    map_Forall (fun _ s => SourceOptions s = ∅) (Sources p).
Proof.
  split; [by vm_compute|].
  assert (succeeds (UpdatePipelineGraph [] demo_pipelines "p" (Some demo_add) true).1 = true) as Hs by by vm_compute.
  unfold after. destruct (UpdatePipelineGraph [] demo_pipelines "p" (Some demo_add) true) as [[st g| |] db'] eqn:E;
    [|done|done].
  destruct (graph_update_drops_options [] demo_pipelines db' "p" demo_add st g E) as (doc & p & H1 & H2 & H3 & _).
  by exists doc, p.
Defined.

(** An edge is removed by an id that several edges can have: to remove the edge from [a] to
    [b-c] also removes the one from [a-b] to [c]. *)
Example removing_one_edge_removes_two :
  match GetPipelineGraph [] (after demo_pipelines demo_add) "p",
        GetPipelineGraph [] (after (after demo_pipelines demo_add) demo_remove) "p" with
  | Success _ g, Success _ g' => EdgeID <$> Edges g = ["a-b-c"; "a-b-c"] /\ Edges g' = []
  | _, _ => False
  end.
Proof. by vm_compute. Qed.

(** Nothing keeps a transform from feeding itself. *)
Example graph_update_admits_cycles :
  let doc : Doc := inr (MkConfig "1.0" "p" "flat" None None ∅ {["t" := MkTransform "filter" [] ∅]} ∅ None) in
  match UpdatePipelineGraph [] {["p" := doc]} "p" (Some (MkUpdate [MkEdge "" "t" "t"] [])) true with
  | (Success _ g, _) => Edges g = [mk_edge "t" "t"]
  | _ => False
  end.
Proof. by vm_compute. Qed.
