(* ===== verification/WorkflowApi.v ===== *)
(** * The workflow API (control-plane/internal/api/handlers/workflow.go, services/kafka_service.go)

    The handlers that create, change, start, stop, pause, resume and delete workflows, as
    functions on the tables they use, and the Kafka topics between a parent pipeline and its
    children. A failing database or Kafka call is an argument. The pipelines of a workflow
    are stored as a list: the handlers encode and decode them with [encoding/json], which
    gives them back. [sha256] is the hash of the standard library, in hexadecimal. *)

From Stdlib Require Import String Ascii.
From S2P Require Import Prelude GoString GoValue Api.
Local Open Scope string_scope.
Local Open Scope list_scope.

(** ** Data *)

Record WorkflowSource := MkWSource { SrcType : string; SrcName : string; SrcConfig : Data }.
Record WorkflowSink := MkWSink { SinkType : string; SinkName : string; SinkConfig : Data }.

(** The fields the handlers look at; the others are stored as they come. *)
Record GroupedPipeline := MkPipeline {
  ID : string;
  Name : string;
  ParentPipelineID : option string;
  Source : WorkflowSource;
  Sinks : list WorkflowSink
}.

Record ScheduleConfig := MkSchedule {
  SchedType : string;
  SchedCron : string;
  SchedInterval : string;
  SchedTimezone : string;
  SchedEnabled : bool
}.

Definition StatusIdle := "idle".
Definition StatusRunning := "running".
Definition StatusPaused := "paused".
Definition StatusStopped := "stopped".
Definition ExecutionModeParallel := "parallel".

(** Failure policy, metadata and tags are opaque texts. *)
Record Workflow := MkWorkflow {
  ProjectID : string;
  WName : string;
  Slug : string;
  Description : string;
  WType : string;
  ExecutionMode : string;
  Status : string;
  Schedule : ScheduleConfig;
  PipelinesConfig : list GroupedPipeline;
  FailurePolicy : string;
  Metadata : string;
  Tags : string;
  LastRunAt : option Z;
  CreatedBy : string
}.

Record WorkflowExecution := MkExecution {
  ExecID : string;
  ExecWorkflow : string;
  ExecStatus : string;
  StartedAt : Z;
  CompletedAt : option Z;
  TriggeredByID : string
}.

(** The tables; a deleted workflow is no longer found. *)
Record DB := MkDB {
  projects : gset string;
  workflows : gmap string Workflow;
  executions : list WorkflowExecution
}.

Definition set_workflow (id : string) (w : Workflow) (db : DB) : DB :=
  MkDB (projects db) (<[id := w]> (workflows db)) (executions db).
Definition set_wstatus (s : string) (w : Workflow) : Workflow :=
  MkWorkflow (ProjectID w) (WName w) (Slug w) (Description w) (WType w) (ExecutionMode w) s (Schedule w)
    (PipelinesConfig w) (FailurePolicy w) (Metadata w) (Tags w) (LastRunAt w) (CreatedBy w).
Definition set_last_run (t : Z) (w : Workflow) : Workflow :=
  MkWorkflow (ProjectID w) (WName w) (Slug w) (Description w) (WType w) (ExecutionMode w) (Status w) (Schedule w)
    (PipelinesConfig w) (FailurePolicy w) (Metadata w) (Tags w) (Some t) (CreatedBy w).
Definition set_wpipelines (l : list GroupedPipeline) (w : Workflow) : Workflow :=
  MkWorkflow (ProjectID w) (WName w) (Slug w) (Description w) (WType w) (ExecutionMode w) (Status w) (Schedule w)
    l (FailurePolicy w) (Metadata w) (Tags w) (LastRunAt w) (CreatedBy w).

(** [userID.(string)] after a test for nil; the value is what the token claims. *)
Definition user_id_string (user : option GoValue) : option string :=
  match user with
  | None | Some VNil => Some ""
  | Some (VString s) => Some s
  | Some _ => None
  end.

(** ** Topics (services/kafka_service.go) *)

Section Kafka.
Context (sha256 : string -> string) (brokers : list string).

Definition is_allowed (c : ascii) : bool :=
  let n := nat_of_ascii c in
  ((97 <=? n) && (n <=? 122) || (65 <=? n) && (n <=? 90) || (48 <=? n) && (n <=? 57))%nat ||
  Ascii.eqb c "_" || Ascii.eqb c "-" || Ascii.eqb c ".".

Definition lower (c : ascii) : ascii :=
  let n := nat_of_ascii c in if ((65 <=? n) && (n <=? 90))%nat then ascii_of_nat (n + 32) else c.

(** Characters beyond ASCII are dropped, so it is enough to look at bytes. *)
Fixpoint sanitizeTopicName (name : string) : string :=
  match name with
  | EmptyString => ""
  | String c rest =>
      if is_allowed c then String (lower c) (sanitizeTopicName rest)
      else if Ascii.eqb c " " then String "_" (sanitizeTopicName rest)
      else sanitizeTopicName rest
  end.

Definition GenerateTopicName (workflowSlug parentName childName : string) : string :=
  let baseName := sanitizeTopicName (workflowSlug +:+ "_" +:+ parentName +:+ "_to_" +:+ childName) in
  if (String.length baseName <=? 63)%nat then baseName
  else String.substring 0 54 baseName +:+ "_" +:+ String.substring 0 8 (sha256 baseName).

(** ** Sources and sinks between a parent and a child *)

Definition sink_name (childName : string) : string := "kafka_to_" +:+ childName.

Definition addKafkaSinkToParent (parent : GroupedPipeline) (childName topicName : string) : GroupedPipeline :=
  if existsb (fun s => SinkName s =? sink_name childName) (Sinks parent) then parent
  else MkPipeline (ID parent) (Name parent) (ParentPipelineID parent) (Source parent)
         (Sinks parent ++ [MkWSink "kafka" (sink_name childName)
            (<["brokers" := VStrings brokers]> {["topic" := VString topicName]})]).

Definition removeKafkaSinkFromParent (parent : GroupedPipeline) (childName : string) : GroupedPipeline :=
  MkPipeline (ID parent) (Name parent) (ParentPipelineID parent) (Source parent)
    (filter (fun s => SinkName s <> sink_name childName) (Sinks parent)).

Definition setKafkaSourceToChild (child : GroupedPipeline) (topicName : string) : GroupedPipeline :=
  MkPipeline (ID child) (Name child) (ParentPipelineID child)
    (MkWSource "kafka" ("from_parent_" +:+ topicName)
       (<["brokers" := VStrings brokers]> (<["topic" := VString topicName]>
          {["consumer_group" := VString (Name child +:+ "_consumer")]})))
    (Sinks child).

(** The id of the parent, [None] for nil and for the empty text. *)
Definition parent_of (p : GroupedPipeline) : option string :=
  match ParentPipelineID p with
  | Some q => if q =? "" then None else Some q
  | None => None
  end.

(** A map from ids to the positions in the list, which stands for pointers into it; a later
    pipeline replaces an earlier one with its id. *)
Definition index_map (l : list GroupedPipeline) : gmap string nat :=
  foldl (fun m '(i, p) => <[ID p := i]> m) ∅ (imap (fun i p => (i, p)) l).

(** What happened outside: topics created and topics whose deletion was started. *)
Record Topics := MkTopics { created : list string; deleting : list string }.

Definition is_new_child (olds : list GroupedPipeline) (oldMap : gmap string nat) (p : GroupedPipeline) (parent : string)
  : bool :=
  match oldMap !! ID p ≫= (olds !!.) with
  | None => true
  | Some oldP =>
      match ParentPipelineID oldP with
      | None => true
      | Some q => negb (q =? parent)
      end
  end.

(** A round of the first loop; [create] tells whether a topic can be created. *)
Definition new_child_step (slug : string) (create : string -> bool) (olds : list GroupedPipeline)
  (oldMap newMap : gmap string nat) (i : nat) (st : list GroupedPipeline * list string)
  : res string (list GroupedPipeline) * list string :=
  let '(news, made) := st in
  match news !! i with
  | None => (Ok news, made)
  | Some p =>
      match parent_of p with
      | None => (Ok news, made)
      | Some parent =>
          if is_new_child olds oldMap p parent then
            match newMap !! parent with
            | None => (Ok news, made)
            | Some j =>
                match news !! j with
                | None => (Ok news, made)
                | Some q =>
                    let topic := GenerateTopicName slug (Name q) (Name p) in
                    if negb (create topic)
                    then (Err ("failed to create Kafka topic '" +:+ topic +:+ "'"), made)
                    else
                      let news := alter (fun q => addKafkaSinkToParent q (Name p) topic) j news in
                      let news := alter (fun p => setKafkaSourceToChild p topic) i news in
                      (Ok news, made ++ [topic])
                end
            end
          else (Ok news, made)
      end
  end.

Fixpoint new_children (slug : string) (create : string -> bool) (olds : list GroupedPipeline)
  (oldMap newMap : gmap string nat) (idx : list nat) (news : list GroupedPipeline) (made : list string)
  : res string (list GroupedPipeline) * list string :=
  match idx with
  | [] => (Ok news, made)
  | i :: idx =>
      match new_child_step slug create olds oldMap newMap i (news, made) with
      | (Ok news, made) => new_children slug create olds oldMap newMap idx news made
      | r => r
      end
  end.

(** Whether the second loop gives up the old relation of a pipeline to its parent. *)
Definition is_gone (newMap : gmap string nat) (news : list GroupedPipeline) (oldP : GroupedPipeline) (parent : string)
  : bool :=
  match newMap !! ID oldP ≫= (news !!.) with
  | None => true
  | Some newP =>
      match ParentPipelineID newP with
      | None => true
      | Some q => (q =? "") || negb (q =? parent)
      end
  end.

(** A round of the second loop, for a pipeline of the old map. *)
Definition gone_child_step (slug : string) (olds : list GroupedPipeline) (oldMap newMap : gmap string nat)
  (st : list GroupedPipeline * list string) (oldP : GroupedPipeline) : list GroupedPipeline * list string :=
  let '(news, deleted) := st in
  match parent_of oldP with
  | None => st
  | Some parent =>
      if is_gone newMap news oldP parent then
        match oldMap !! parent ≫= (olds !!.) with
        | None => st
        | Some oldParent =>
            let topic := GenerateTopicName slug (Name oldParent) (Name oldP) in
            let news := match newMap !! parent with
                        | Some j => alter (fun q => removeKafkaSinkFromParent q (Name oldP)) j news
                        | None => news
                        end in
            (news, deleted ++ [topic])
        end
      else st
  end.

(** [order] lists the pipelines of the old map as the range visits them. *)
Definition managePipelineKafkaTopics (slug : string) (create : string -> bool)
  (olds news : list GroupedPipeline) (order : list GroupedPipeline)
  : res string (list GroupedPipeline) * Topics :=
  let oldMap := index_map olds in
  let newMap := index_map news in
  match new_children slug create olds oldMap newMap (seq 0 (List.length news)) news [] with
  | (Ok news', made) =>
      let '(news', deleted) := foldl (gone_child_step slug olds oldMap newMap) (news', []) order in
      (Ok (omap (fun p => newMap !! ID p ≫= (news' !!.)) news'), MkTopics made deleted)
  | (Err e, made) => (Err e, MkTopics made [])
  | (Panic, made) => (Panic, MkTopics made [])
  end.
End Kafka.

(** ** The handlers *)

Record CreateWorkflowRequest := MkCreate {
  CrProject : string;
  CrName : string;
  CrSlug : string;
  CrDescription : string;
  CrType : string;
  CrMode : string;
  CrSchedule : option ScheduleConfig;
  CrPipelines : list GroupedPipeline;
  CrPolicy : string;
  CrMetadata : string;
  CrTags : string
}.

Definition no_schedule : ScheduleConfig := MkSchedule "" "" "" "" false.

Definition with_id (id : string) (p : GroupedPipeline) : GroupedPipeline :=
  MkPipeline id (Name p) (ParentPipelineID p) (Source p) (Sinks p).

(** [fresh] gives the identifiers of [uuid.New], number 0 to the workflow. *)
Definition assign_ids (fresh : nat -> string) (l : list GroupedPipeline) : list GroupedPipeline :=
  imap (fun i p => if ID p =? "" then with_id (fresh (S i)) p else p) l.

(** [CreateWorkflow]; the response has status 200, since the later call of [Status] comes
    after the header was written. *)
Definition CreateWorkflow (fresh : nat -> string) (user : option GoValue) (saved : bool)
  (req : option CreateWorkflowRequest) (db : DB) : Reply string * DB :=
  match req with
  | None => (Failure 400 ErrCodeValidationFailed "", db)
  | Some req =>
      if negb (bool_decide (CrProject req ∈ projects db))
      then (Failure 404 ErrCodeNotFound "Project not found", db)
      else
        match user_id_string user with
        | None => (HandlerPanic, db)
        | Some u =>
            let mode := if CrMode req =? "" then ExecutionModeParallel else CrMode req in
            let w := MkWorkflow (CrProject req) (CrName req) (CrSlug req) (CrDescription req) (CrType req) mode
                       StatusIdle (default no_schedule (CrSchedule req)) (assign_ids fresh (CrPipelines req))
                       (CrPolicy req) (CrMetadata req) (CrTags req) None u in
            if saved then (Success 200 (fresh 0), set_workflow (fresh 0) w db)
            else (Failure 500 ErrCodeDatabaseError "Failed to create workflow", db)
        end
  end.

(** Absent fields are empty texts or [None]. *)
Record UpdateWorkflowRequest := MkUpdate {
  UpName : string;
  UpDescription : string;
  UpMode : string;
  UpSchedule : option ScheduleConfig;
  UpPipelines : option (list GroupedPipeline);
  UpPolicy : option string;
  UpMetadata : option string;
  UpTags : option string
}.

Definition or_old (new old : string) : string := if new =? "" then old else new.

Definition updated (req : UpdateWorkflowRequest) (l : list GroupedPipeline) (w : Workflow) : Workflow :=
  MkWorkflow (ProjectID w) (or_old (UpName req) (WName w)) (Slug w) (or_old (UpDescription req) (Description w))
    (WType w) (or_old (UpMode req) (ExecutionMode w)) (Status w) (default (Schedule w) (UpSchedule req)) l
    (default (FailurePolicy w) (UpPolicy req)) (default (Metadata w) (UpMetadata req))
    (default (Tags w) (UpTags req)) (LastRunAt w) (CreatedBy w).

Definition UpdateWorkflow (sha256 : string -> string) (brokers : list string) (create : string -> bool)
  (order : list GroupedPipeline) (saved : bool) (id : string) (req : option UpdateWorkflowRequest) (db : DB)
  : Reply Workflow * DB * Topics :=
  let nothing := MkTopics [] [] in
  match workflows db !! id with
  | None => (Failure 404 ErrCodeNotFound "Workflow not found", db, nothing)
  | Some w =>
      if Status w =? StatusRunning
      then (Failure 409 ErrCodeWorkflowRunning "Cannot update running workflow", db, nothing)
      else
        match req with
        | None => (Failure 400 ErrCodeValidationFailed "", db, nothing)
        | Some req =>
            let '(r, topics) :=
              match UpPipelines req with
              | None => (Ok (PipelinesConfig w), nothing)
              | Some news => managePipelineKafkaTopics sha256 brokers (Slug w) create (PipelinesConfig w) news order
              end in
            match r with
            | Ok l =>
                let w' := updated req l w in
                if saved then (Success 200 w', set_workflow id w' db, topics)
                else (Failure 500 ErrCodeDatabaseError "Failed to update workflow", db, topics)
            | Err _ => (Failure 500 ErrCodeExternalService "Failed to manage Kafka topics", db, topics)
            | Panic => (HandlerPanic, db, topics)
            end
        end
  end.

Definition DeleteWorkflow (saved : bool) (id : string) (db : DB) : Reply unit * DB :=
  match workflows db !! id with
  | None => (Failure 404 ErrCodeNotFound "Workflow not found", db)
  | Some w =>
      if Status w =? StatusRunning
      then (Failure 409 ErrCodeWorkflowRunning "Cannot delete running workflow", db)
      else if saved then (Success 200 tt, MkDB (projects db) (delete id (workflows db)) (executions db))
      else (Failure 500 ErrCodeDatabaseError "Failed to delete workflow", db)
  end.

(** [StartWorkflow]; the result of saving the workflow is not looked at. *)
Definition StartWorkflow (exec_id : string) (now : Z) (user : option GoValue) (created_ saved : bool)
  (id : string) (db : DB) : Reply string * DB :=
  match workflows db !! id with
  | None => (Failure 404 ErrCodeNotFound "Workflow not found", db)
  | Some w =>
      if Status w =? StatusRunning
      then (Failure 409 ErrCodeWorkflowRunning "Workflow is already running", db)
      else
        match user_id_string user with
        | None => (HandlerPanic, db)
        | Some u =>
            if negb created_
            then (Failure 500 ErrCodeDatabaseError "Failed to create execution record", db)
            else
              let db := MkDB (projects db) (workflows db)
                          (executions db ++ [MkExecution exec_id id StatusRunning now None u]) in
              let w := set_last_run now (set_wstatus StatusRunning w) in
              (Success 202 exec_id, if saved then set_workflow id w db else db)
        end
  end.

(** The update of the executions in [StopWorkflow]. *)
Definition stop_executions (now : Z) (id : string) (l : list WorkflowExecution) : list WorkflowExecution :=
  (fun x => if bool_decide (ExecWorkflow x = id) && (ExecStatus x =? StatusRunning)
            then MkExecution (ExecID x) (ExecWorkflow x) StatusStopped (StartedAt x) (Some now) (TriggeredByID x)
            else x) <$> l.

(** [StopWorkflow]; the results of both writes are not looked at. *)
Definition StopWorkflow (now : Z) (saved updated_ : bool) (id : string) (db : DB) : Reply unit * DB :=
  match workflows db !! id with
  | None => (Failure 404 ErrCodeNotFound "Workflow not found", db)
  | Some w =>
      if negb (Status w =? StatusRunning)
      then (Failure 409 ErrCodeWorkflowNotRunning "Workflow is not running", db)
      else
        let db := if saved then set_workflow id (set_wstatus StatusStopped w) db else db in
        (Success 200 tt, MkDB (projects db) (workflows db)
           (if updated_ then stop_executions now id (executions db) else executions db))
  end.

Definition PauseWorkflow (saved : bool) (id : string) (db : DB) : Reply unit * DB :=
  match workflows db !! id with
  | None => (Failure 404 ErrCodeNotFound "Workflow not found", db)
  | Some w =>
      if negb (Status w =? StatusRunning)
      then (Failure 409 ErrCodeWorkflowNotRunning "Workflow is not running", db)
      else (Success 200 tt, if saved then set_workflow id (set_wstatus StatusPaused w) db else db)
  end.

Definition ResumeWorkflow (saved : bool) (id : string) (db : DB) : Reply unit * DB :=
  match workflows db !! id with
  | None => (Failure 404 ErrCodeNotFound "Workflow not found", db)
  | Some w =>
      if negb (Status w =? StatusPaused)
      then (Failure 409 ErrCodeInvalidState "Workflow is not paused", db)
      else (Success 200 tt, if saved then set_workflow id (set_wstatus StatusRunning w) db else db)
  end.

(** *** What the schedule endpoints and the scheduler do to these tables

    [SchedulerService.TriggerNow] and the job of a schedule create an execution and set the status of the
    workflow; the result of the second write is not looked at. The other endpoints write
    columns of the schedule. *)
Definition start_rows (exec_id : string) (now : Z) (user : string) (created_ saved : bool) (id : string)
  (w : Workflow) (db : DB) : bool * DB :=
  if negb created_ then (false, db)
  else
    let db := MkDB (projects db) (workflows db)
                (executions db ++ [MkExecution exec_id id StatusRunning now None user]) in
    (true, if saved then set_workflow id (set_last_run now (set_wstatus StatusRunning w)) db else db).

Definition trigger_workflow (exec_id : string) (now : Z) (user : string) (created_ saved : bool) (id : string) (db : DB)
  : bool * DB :=
  match workflows db !! id with
  | None => (false, db)
  | Some w =>
      if negb (WType w =? "batch") then (false, db)
      else if Status w =? StatusRunning then (false, db)
      else start_rows exec_id now user created_ saved id w db
  end.

Definition job_run (exec_id : string) (now : Z) (created_ saved : bool) (id : string) (db : DB) : bool * DB :=
  match workflows db !! id with
  | None => (false, db)
  | Some w =>
      if negb (SchedEnabled (Schedule w)) then (false, db)
      else if Status w =? StatusRunning then (false, db)
      else start_rows exec_id now "" created_ saved id w db
  end.

Definition set_wschedule (sc : ScheduleConfig) (w : Workflow) : Workflow :=
  MkWorkflow (ProjectID w) (WName w) (Slug w) (Description w) (WType w) (ExecutionMode w) (Status w) sc
    (PipelinesConfig w) (FailurePolicy w) (Metadata w) (Tags w) (LastRunAt w) (CreatedBy w).
Definition store_schedule (sc : ScheduleConfig) (saved : bool) (id : string) (db : DB) : DB :=
  match workflows db !! id with
  | None => db
  | Some w => if saved then set_workflow id (set_wschedule sc w) db else db
  end.

Definition GetWorkflow (id : string) (db : DB) : Reply Workflow :=
  match workflows db !! id with
  | None => Failure 404 ErrCodeNotFound "Workflow not found"
  | Some w => Success 200 w
  end.

(** [GetWorkflowExecutions]: newest first, at most fifty; [by_start] sorts. *)
Definition GetWorkflowExecutions (by_start : list WorkflowExecution -> list WorkflowExecution)
  (status : string) (id : string) (db : DB) : Reply (list WorkflowExecution) :=
  let found := filter (fun x => ExecWorkflow x = id /\ (status = "" \/ ExecStatus x = status)) (executions db) in
  Success 200 (take 50 (by_start found)).

Definition GetWorkflowExecution (id execID : string) (db : DB) : Reply WorkflowExecution :=
  match list_find (fun x => ExecID x = execID /\ ExecWorkflow x = id) (executions db) with
  | None => Failure 404 ErrCodeNotFound "Execution not found"
  | Some (_, x) => Success 200 x
  end.

Definition AddPipelineToWorkflow (uuid : string) (saved : bool) (id : string) (req : option GroupedPipeline) (db : DB)
  : Reply GroupedPipeline * DB :=
  match workflows db !! id with
  | None => (Failure 404 ErrCodeNotFound "Workflow not found", db)
  | Some w =>
      match req with
      | None => (Failure 400 ErrCodeInvalidJSON "", db)
      | Some p =>
          let p := if ID p =? "" then with_id uuid p else p in
          if saved then (Success 201 p, set_workflow id (set_wpipelines (PipelinesConfig w ++ [p]) w) db)
          else (Failure 500 ErrCodeDatabaseError "Failed to add pipeline", db)
      end
  end.

Definition RemovePipelineFromWorkflow (saved : bool) (id pipelineID : string) (db : DB) : Reply unit * DB :=
  match workflows db !! id with
  | None => (Failure 404 ErrCodeNotFound "Workflow not found", db)
  | Some w =>
      let kept := filter (fun p => ID p <> pipelineID) (PipelinesConfig w) in
      if negb (existsb (fun p => ID p =? pipelineID) (PipelinesConfig w))
      then (Failure 404 ErrCodeNotFound "Pipeline not found in workflow", db)
      else if saved then (Success 200 tt, set_workflow id (set_wpipelines kept w) db)
      else (Failure 500 ErrCodeDatabaseError "Failed to remove pipeline", db)
  end.

(** ** Topic names are legal *)

Fixpoint all_chars (P : ascii -> bool) (s : string) : bool :=
  match s with
  | EmptyString => true
  | String c s => P c && all_chars P s
  end.

(** What a topic name may consist of here: small letters, digits, [_], [-] and [.]. *)
Definition topic_char (c : ascii) : bool := is_allowed c && Ascii.eqb (lower c) c.

Lemma lower_topic_char c : is_allowed c = true -> topic_char (lower c) = true.
Proof. destruct c as [[] [] [] [] [] [] [] []]; vm_compute; congruence. Qed.

Lemma sanitize_chars s : all_chars topic_char (sanitizeTopicName s) = true.
Proof.
  induction s as [|c s IH]; [done|]. simpl. destruct (is_allowed c) eqn:E.
  - simpl. by rewrite lower_topic_char.
  - by destruct (Ascii.eqb c " ").
Qed.

Lemma substring_chars P n s : all_chars P s = true -> all_chars P (String.substring 0 n s) = true.
Proof.
  revert n. induction s as [|c s IH]; intros [|n]; simpl; try done.
  intros [Hc Hs]%andb_true_iff. by rewrite Hc, IH.
Qed.
Lemma app_chars P s s' : all_chars P (s +:+ s') = all_chars P s && all_chars P s'.
Proof. induction s as [|c s IH]; [done|]. simpl. by rewrite IH, andb_assoc. Qed.

(** A topic name is at most 63 characters long and has only small letters, digits and
    [_], [-], [.], whatever the names of the workflow and its pipelines are; the hash is
    hexadecimal. *)
Theorem topic_name_is_legal (sha256 : string -> string) (slug parent child : string) :
  (forall s, all_chars topic_char (sha256 s) = true) ->
  let topic := GenerateTopicName sha256 slug parent child in
  (String.length topic <= 63)%nat /\ all_chars topic_char topic = true.
Proof.
  intros Hsha. unfold GenerateTopicName. cbv zeta.
  set (base := sanitizeTopicName _). pose proof (sanitize_chars (slug +:+ "_" +:+ parent +:+ "_to_" +:+ child)) as Hb.
  fold base in Hb. destruct (Nat.leb_spec (String.length base) 63) as [Hl|Hl]; [done|].
  rewrite !str_length_app, !app_chars. split.
  - pose proof (substring_length 0 54 base). pose proof (substring_length 0 8 (sha256 base)). simpl (String.length "_"). lia.
  - by rewrite (substring_chars _ 54 _ Hb), (substring_chars _ 8 _ (Hsha base)).
Qed.

(** A text of 64 hexadecimal digits. *)
Definition demo_sha (_ : string) : string :=
  "0123456789abcdef0123456789abcdef0123456789abcdef0123456789abcdef".
Definition long_name : string := "a pipeline whose name is far too long for a topic name of Kafka".

Lemma topic_name_is_legal_witness :
  GenerateTopicName demo_sha "Shop" "Orders 2024!" "EU" = "shop_orders_2024_to_eu" /\
  (String.length (GenerateTopicName demo_sha "shop" long_name "EU") <= 63)%nat.
Proof.
  split; [by vm_compute|].
  apply (topic_name_is_legal demo_sha "shop" long_name "EU"). intros s. by vm_compute.
Defined.

(** Names that differ only in case or in dropped characters share a topic. *)
Example topic_names_collide :
  GenerateTopicName demo_sha "shop" "Orders" "EU" = GenerateTopicName demo_sha "shop" "orders!" "eu".
Proof. by vm_compute. Qed.

(** ** Topics of new children *)

Definition shape (l : list GroupedPipeline) : list (string * string * option string) :=
  (fun p => (ID p, Name p, ParentPipelineID p)) <$> l.

Lemma shape_alter f i l :
  (forall p, (ID (f p), Name (f p), ParentPipelineID (f p)) = (ID p, Name p, ParentPipelineID p)) ->
  shape (alter f i l) = shape l.
Proof.
  intros Hf. unfold shape. apply list_eq. intros j. rewrite !list_lookup_fmap.
  destruct (decide (i = j)) as [->|Hij].
  - rewrite list_lookup_alter_eq. destruct (l !! j); simpl; [by rewrite Hf|done].
  - by rewrite list_lookup_alter_ne.
Qed.

Lemma shape_lookup l l' i p :
  shape l = shape l' -> l !! i = Some p ->
  exists p', l' !! i = Some p' /\ ID p' = ID p /\ Name p' = Name p /\ ParentPipelineID p' = ParentPipelineID p.
Proof.
  intros Hs Hp. apply (f_equal (fun x => x !! i)) in Hs. unfold shape in Hs. rewrite !list_lookup_fmap, Hp in Hs.
  destruct (l' !! i) as [p'|]; [|done]. simpl in Hs. exists p'. by simplify_eq.
Qed.

(** The map of positions: an entry leads to a pipeline of this id, and every id is there. *)
Lemma index_map_app l p : index_map (l ++ [p]) = <[ID p := List.length l]> (index_map l).
Proof. unfold index_map. rewrite imap_app. rewrite foldl_app. simpl. by rewrite Nat.add_0_r. Qed.

Lemma index_map_spec l :
  (forall id i, index_map l !! id = Some i -> exists p, l !! i = Some p /\ ID p = id) /\
  (forall i p, l !! i = Some p -> is_Some (index_map l !! ID p)) /\
  (NoDup (ID <$> l) -> forall i p, l !! i = Some p -> index_map l !! ID p = Some i).
Proof.
  induction l as [|p l (IH1 & IH2 & IH3)] using rev_ind; [done|]. rewrite index_map_app. split; [|split].
  - intros id i [[<- <-]|[_ H]]%lookup_insert_Some.
    + exists p. split; [|done]. by rewrite list_lookup_middle.
    + apply IH1 in H as (q & Hq & <-). exists q. split; [|done]. by apply lookup_app_l_Some.
  - intros i q [Hq|[_ Hq]]%lookup_app_Some; apply lookup_insert_is_Some'.
    + right. by eapply IH2.
    + left. destruct (i - List.length l); simpl in Hq; by simplify_eq.
  - intros Hnd i q. rewrite fmap_app, NoDup_app in Hnd. destruct Hnd as (Hl & Hp & _).
    intros [Hq|[Hi Hq]]%lookup_app_Some.
    + rewrite lookup_insert_ne; [by apply IH3|]. intros Heq. apply (Hp (ID q)).
      * apply list_elem_of_fmap. exists q. split; [done|]. by eapply list_elem_of_lookup_2.
      * simpl. set_solver.
    + assert (i = List.length l) as ->.
      { destruct (i - List.length l) eqn:E; simpl in Hq; [lia|done]. }
      rewrite Nat.sub_diag in Hq. simpl in Hq. simplify_eq. by rewrite lookup_insert_eq.
Qed.

Section Topics.
Context (sha256 : string -> string) (brokers : list string) (slug : string) (create : string -> bool).

Lemma add_sink_fields q n t :
  let q' := addKafkaSinkToParent brokers q n t in
  (ID q', Name q', ParentPipelineID q') = (ID q, Name q, ParentPipelineID q) /\ Source q' = Source q /\
  sink_name n ∈ SinkName <$> Sinks q' /\ SinkName <$> Sinks q ⊆ SinkName <$> Sinks q'.
Proof.
  unfold addKafkaSinkToParent. destruct (existsb _ _) eqn:E; simpl.
  - split; [done|]. split; [done|]. split; [|done]. apply existsb_exists in E as (s & Hs & Hn%String.eqb_eq).
    apply list_elem_of_fmap. exists s. split; [done|]. by apply list_elem_of_In.
  - split; [done|]. split; [done|]. rewrite fmap_app. set_solver.
Qed.

(** What a round of the first loop may change: sinks are only added, and only the source of
    the pipeline at hand is set. *)
Record grows (except : nat) (l l' : list GroupedPipeline) : Prop := {
  grow_shape : shape l' = shape l;
  grow_sinks : forall i p p', l !! i = Some p -> l' !! i = Some p' -> SinkName <$> Sinks p ⊆ SinkName <$> Sinks p';
  grow_source : forall i p p', i <> except -> l !! i = Some p -> l' !! i = Some p' -> Source p' = Source p
}.

Lemma grows_refl k l : grows k l l.
Proof. split; [done| |]; intros; by simplify_eq. Qed.

Definition connect (i j : nat) (n topic : string) (l : list GroupedPipeline) : list GroupedPipeline :=
  alter (fun p => setKafkaSourceToChild brokers p topic) i
    (alter (fun q => addKafkaSinkToParent brokers q n topic) j l).

Lemma lookup_connect i j n topic l k :
  connect i j n topic l !! k =
  (fun p => let p := if bool_decide (k = j) then addKafkaSinkToParent brokers p n topic else p in
            if bool_decide (k = i) then setKafkaSourceToChild brokers p topic else p) <$> l !! k.
Proof.
  unfold connect.
  destruct (decide (k = i)) as [->|Hi]; [rewrite list_lookup_alter_eq|rewrite list_lookup_alter_ne by done];
    (destruct (decide (k = j)) as [->|Hj] || destruct (decide (i = j)) as [->|Hj]);
    rewrite ?list_lookup_alter_eq, ?list_lookup_alter_ne by done.
  all: rewrite ?(bool_decide_eq_true_2 _ eq_refl), ?bool_decide_eq_false_2 by done.
  all: by destruct (l !! _).
Qed.

Lemma connect_grows i j n topic l : grows i l (connect i j n topic l).
Proof.
  split.
  - unfold connect. rewrite !shape_alter; [done| |]; intros p; [apply add_sink_fields|done].
  - intros k p p' Hp. rewrite lookup_connect, Hp. intros [= <-].
    destruct (add_sink_fields p n topic) as (_ & _ & _ & Hs). by repeat case_bool_decide.
  - intros k p p' Hk Hp. rewrite lookup_connect, Hp. intros [= <-]. simpl. rewrite (bool_decide_eq_false_2 (k = i)) by done.
    case_bool_decide; [|done]. apply add_sink_fields.
Qed.

(** The connection of the child at [i] to the parent at [j]. *)
Definition connected (i j : nat) (topic : string) (l : list GroupedPipeline) : Prop :=
  exists p q, l !! i = Some p /\ l !! j = Some q /\
    SrcType (Source p) = "kafka" /\ SrcConfig (Source p) !! "topic" = Some (VString topic) /\
    sink_name (Name p) ∈ SinkName <$> Sinks q.

Lemma connect_connected i j p q topic l :
  l !! i = Some p -> l !! j = Some q -> connected i j topic (connect i j (Name p) topic l).
Proof.
  intros Hp Hq. unfold connected. rewrite !lookup_connect, Hp, Hq. simpl. do 2 eexists. split; [done|]. split; [done|].
  rewrite (bool_decide_eq_true_2 (i = i)), (bool_decide_eq_true_2 (j = j)) by done. split; [done|]. split.
  - simpl. by rewrite lookup_insert_ne, lookup_insert_eq.
  - destruct (add_sink_fields q (Name p) topic) as (_ & _ & Hs & _).
    destruct (add_sink_fields p (Name p) topic) as ([= _ Hn _] & _ & _ & _).
    assert (Name (setKafkaSourceToChild brokers
      (if bool_decide (i = j) then addKafkaSinkToParent brokers p (Name p) topic else p) topic) = Name p) as ->
      by (simpl; by case_bool_decide).
    by case_bool_decide.
Qed.

Lemma connected_grows i j topic k l l' :
  k <> i -> grows k l l' -> connected i j topic l -> connected i j topic l'.
Proof.
  intros Hk [Hs Hg Hsrc] (p & q & Hp & Hq & Ht & Hc & Hin).
  destruct (shape_lookup _ _ _ _ (eq_sym Hs) Hp) as (p' & Hp' & _ & Hn & _).
  destruct (shape_lookup _ _ _ _ (eq_sym Hs) Hq) as (q' & Hq' & _).
  exists p', q'. split; [done|]. split; [done|].
  rewrite (Hsrc i p p') by (try done; congruence). rewrite Hn.
  split; [done|]. split; [done|]. by apply (Hg j q q').
Qed.

Context (olds : list GroupedPipeline) (oldMap newMap : gmap string nat).
Context (create_ok : forall t, create t = true).

(** The pipeline at [i] is a new child of the pipeline at [j] in the request. *)
Definition new_child (l : list GroupedPipeline) (i j : nat) (topic : string) : Prop :=
  exists p q parent, l !! i = Some p /\ l !! j = Some q /\ parent_of p = Some parent /\
    is_new_child olds oldMap p parent = true /\ newMap !! parent = Some j /\
    topic = GenerateTopicName sha256 slug (Name q) (Name p).

Lemma new_child_shape l l' i j topic : shape l = shape l' -> new_child l i j topic -> new_child l' i j topic.
Proof.
  intros Hs (p & q & parent & Hp & Hq & Hpar & Hnew & Hj & ->).
  destruct (shape_lookup _ _ _ _ Hs Hp) as (p' & Hp' & Hi & Hn & Hpp).
  destruct (shape_lookup _ _ _ _ Hs Hq) as (q' & Hq' & _ & Hn' & _).
  exists p', q', parent. split; [done|]. split; [done|]. unfold parent_of, is_new_child in *.
  rewrite Hpp, Hi, Hn, Hn'. done.
Qed.

Lemma new_child_step_spec i l made :
  exists l' made', new_child_step sha256 brokers slug create olds oldMap newMap i (l, made) = (Ok l', made') /\
    grows i l l' /\
    (forall j topic, new_child l i j topic -> connected i j topic l' /\ topic ∈ made') /\ made ⊆ made'.
Proof.
  unfold new_child_step.
  assert ((forall j topic, new_child l i j topic -> False) -> exists l' made',
    ((Ok l, made) : res string (list GroupedPipeline) * list string) = (Ok l', made') /\ grows i l l' /\
    (forall j topic, new_child l i j topic -> connected i j topic l' /\ topic ∈ made') /\ made ⊆ made') as Hsame.
  { intros Hno. exists l, made. split; [done|]. split; [apply grows_refl|]. split; [|done]. intros j t Hc. by destruct (Hno j t). }
  destruct (l !! i) as [p|] eqn:Hp; [|apply Hsame; intros j t (?&?&?&?&_); congruence].
  destruct (parent_of p) as [parent|] eqn:Hpar; [|apply Hsame; intros j t (?&?&?&?&?&?&_); congruence].
  destruct (is_new_child olds oldMap p parent) eqn:Hnew; [|apply Hsame; intros j t (?&?&?&?&?&?&?&_); congruence].
  destruct (newMap !! parent) as [j|] eqn:Hj; [|apply Hsame; intros j t (?&?&?&?&?&?&?&?&_); congruence].
  destruct (l !! j) as [q|] eqn:Hq; [|apply Hsame; intros j' t (?&?&?&?&?&?&?&?&_); congruence].
  rewrite create_ok. simpl. do 2 eexists. split; [done|]. split; [apply (connect_grows i j)|]. split; [|set_solver].
  intros j' t (p' & q' & parent' & ? & ? & ? & _ & ? & ->). simplify_eq.
  split; [|set_solver]. by eapply connect_connected.
Qed.

Lemma new_children_spec idx l made :
  NoDup idx ->
  exists l' made', new_children sha256 brokers slug create olds oldMap newMap idx l made = (Ok l', made') /\
    shape l' = shape l /\ (forall k j t, k ∉ idx -> connected k j t l -> connected k j t l') /\
    (forall i j topic, i ∈ idx -> new_child l i j topic -> connected i j topic l' /\ topic ∈ made') /\ made ⊆ made'.
Proof.
  revert l made. induction idx as [|i idx IH]; intros l made Hnd; simpl.
  { exists l, made. split; [done|]. split; [done|]. split; [done|]. set_solver. }
  apply NoDup_cons in Hnd as [Hi Hnd].
  destruct (new_child_step_spec i l made) as (l1 & made1 & Hs1 & Hg1 & Hc1 & Hm1).
  unfold new_child_step in Hs1 |- *. rewrite Hs1. clear Hs1.
  destruct (IH l1 made1 Hnd) as (l2 & made2 & Hs2 & Hg2 & Hk2 & Hc2 & Hm2).
  exists l2, made2. split; [done|]. split; [by rewrite Hg2, (grow_shape _ _ _ Hg1)|]. split; [|split; [|set_solver]].
  - intros k j t Hk Hc. apply Hk2; [set_solver|]. eapply connected_grows; [|done|done]. set_solver.
  - intros k j t [->|Hk]%elem_of_cons Hc.
    + destruct (Hc1 j t Hc) as [Hcon Hin]. split; [by apply Hk2|set_solver].
    + apply Hc2; [done|]. eapply new_child_shape; [|done]. symmetry. apply Hg1.
Qed.
End Topics.

Lemma omap_all {A B} (f : A -> option B) (l : list A) (l' : list B) :
  Forall2 (fun x y => f x = Some y) l l' -> omap f l = l'.
Proof. induction 1 as [|x y l l' Hx _ IH]; [done|]. csimpl. by rewrite Hx, IH. Qed.

(** Reading the pipelines back through the map gives the list, when the ids differ. *)
Lemma read_back news l :
  NoDup (ID <$> news) -> shape l = shape news ->
  omap (fun p => index_map news !! ID p ≫= (l !!.)) l = l.
Proof.
  intros Hnd Hs. apply omap_all. apply Forall2_same_length_lookup. split; [done|].
  intros i p p' Hp Hp'. simplify_eq. destruct (shape_lookup _ _ _ _ Hs Hp) as (q & Hq & Hid & _).
  destruct (index_map_spec news) as (_ & _ & H3). rewrite <- Hid, (H3 Hnd i q Hq). done.
Qed.

Lemma is_gone_shape newMap l l' o parent : shape l = shape l' -> is_gone newMap l o parent = is_gone newMap l' o parent.
Proof.
  intros Hs. unfold is_gone. destruct (newMap !! ID o) as [i|]; simpl; [|done].
  destruct (l !! i) as [p|] eqn:Hp.
  - destruct (shape_lookup _ _ _ _ Hs Hp) as (p' & -> & _ & _ & ->). done.
  - destruct (l' !! i) as [p'|] eqn:Hp'; [|done].
    destruct (shape_lookup _ _ _ _ (eq_sym Hs) Hp') as (? & ? & _). congruence.
Qed.

(** A workflow update that keeps the old relations connects every new child to its parent:
    its source becomes the topic named after the two, the parent has a sink for it, the
    topic was created, and ids, names and parents stay as requested. *)
Theorem new_children_are_connected (sha256 : string -> string) (brokers : list string) (slug : string)
  (create : string -> bool) (olds news order : list GroupedPipeline) :
  (forall t, create t = true) -> NoDup (ID <$> news) ->
  Forall (fun o => forall parent, parent_of o = Some parent -> is_gone (index_map news) news o parent = false) order ->
  exists l topics, managePipelineKafkaTopics sha256 brokers slug create olds news order = (Ok l, topics) /\
    shape l = shape news /\ deleting topics = [] /\
    forall i j topic, new_child sha256 slug olds (index_map olds) (index_map news) news i j topic ->
      connected i j topic l /\ topic ∈ created topics.
Proof.
  intros Hcr Hnd Hkeep. unfold managePipelineKafkaTopics.
  destruct (new_children_spec sha256 brokers slug create olds (index_map olds) (index_map news) Hcr
    (seq 0 (List.length news)) news []) as (l & made & -> & Hs & _ & Hc & _); [apply NoDup_seq|].
  assert (foldl (gone_child_step sha256 slug olds (index_map olds) (index_map news)) (l, []) order = (l, [])) as ->.
  { induction order as [|o order IH]; [done|]. apply Forall_cons in Hkeep as [Ho Hkeep]. simpl.
    destruct (parent_of o) as [parent|]; [|by apply IH].
    rewrite (is_gone_shape _ _ _ _ _ Hs), (Ho parent eq_refl). by apply IH. }
  rewrite (read_back news) by done. do 2 eexists. split; [done|]. split; [done|]. split; [done|].
  intros i j topic Hn. apply Hc; [|done]. destruct Hn as (p & ? & ? & Hp & _).
  apply elem_of_seq. split; [lia|]. by eapply lookup_lt_Some.
Qed.

(** A parent with a new child. *)
Definition demo_pipeline (id name : string) (parent : option string) : GroupedPipeline :=
  MkPipeline id name parent (MkWSource "demo" "in" ∅) [].
Definition demo_parent : GroupedPipeline := demo_pipeline "p" "orders" None.
Definition demo_child (id : string) : GroupedPipeline := demo_pipeline id "eu" (Some "p").

Lemma new_children_are_connected_witness :
  exists l topics, managePipelineKafkaTopics demo_sha ["k:9092"] "shop" (fun _ => true)
      [demo_parent] [demo_parent; demo_child "c"] [demo_parent] = (Ok l, topics) /\
    connected 1 0 "shop_orders_to_eu" l /\ "shop_orders_to_eu" ∈ created topics.
Proof.
  destruct (new_children_are_connected demo_sha ["k:9092"] "shop" (fun _ => true)
    [demo_parent] [demo_parent; demo_child "c"] [demo_parent]) as (l & topics & H1 & _ & _ & H2).
  - done.
  - apply (bool_decide_eq_true_1 _). by vm_compute.
  - apply Forall_cons. split; [done|apply Forall_nil_2].
  - exists l, topics. split; [done|]. apply H2. exists (demo_child "c"), demo_parent, "p". by vm_compute.
Defined.

(** A child replaced by another one of the same name loses its topic: the topic is created
    for the new one, then its deletion is started and the sink of the parent is removed. *)
Example replaced_child_loses_its_topic :
  match managePipelineKafkaTopics demo_sha ["k:9092"] "shop" (fun _ => true)
          [demo_parent; demo_child "c1"] [demo_parent; demo_child "c2"] [demo_parent; demo_child "c1"] with
  | (Ok [p; c], topics) =>
      topics = MkTopics ["shop_orders_to_eu"] ["shop_orders_to_eu"] /\ Sinks p = [] /\ SrcType (Source c) = "kafka"
  | _ => False
  end.
Proof. by vm_compute. Qed.

(** An update assigns no ids, so two new pipelines without id share the empty one and the
    second is stored twice. *)
Example pipelines_without_id_collapse :
  match managePipelineKafkaTopics demo_sha ["k:9092"] "shop" (fun _ => true) []
          [demo_pipeline "" "first" None; demo_pipeline "" "second" None] [] with
  | (Ok l, _) => Name <$> l = ["second"; "second"]
  | _ => False
  end.
Proof. by vm_compute. Qed.

(** ** Workflows and their executions *)

(** The calls of the API that change a workflow or its executions, one after the other, and
    the runs of its schedule. New ids were never used. Each write may fail; the index tells
    whether the ones a start and a stop do not look at went well: a created execution is
    followed by the change of the status, and a stop writes both tables or none. *)
Inductive api_step : bool -> DB -> DB -> Prop :=
| step_create fresh user saved req r db db' :
    workflows db !! fresh 0 = None -> (forall x, x ∈ executions db -> ExecWorkflow x <> fresh 0) ->
    CreateWorkflow fresh user saved req db = (r, db') -> api_step true db db'
| step_update sha256 brokers create order saved id req r db db' topics :
    UpdateWorkflow sha256 brokers create order saved id req db = (r, db', topics) -> api_step true db db'
| step_delete saved id r db db' : DeleteWorkflow saved id db = (r, db') -> api_step true db db'
| step_start exec_id now user created_ saved id r db db' :
    StartWorkflow exec_id now user created_ saved id db = (r, db') ->
    api_step (implb created_ saved) db db'
| step_stop now saved updated_ id r db db' :
    StopWorkflow now saved updated_ id db = (r, db') -> api_step (eqb saved updated_) db db'
| step_pause saved id r db db' : PauseWorkflow saved id db = (r, db') -> api_step true db db'
| step_resume saved id r db db' : ResumeWorkflow saved id db = (r, db') -> api_step true db db'
| step_add uuid saved id req r db db' :
    AddPipelineToWorkflow uuid saved id req db = (r, db') -> api_step true db db'
| step_remove saved id pid r db db' :
    RemovePipelineFromWorkflow saved id pid db = (r, db') -> api_step true db db'
| step_trigger exec_id now user created_ saved id r db db' :
    trigger_workflow exec_id now user created_ saved id db = (r, db') -> api_step (implb created_ saved) db db'
| step_job exec_id now created_ saved id r db db' :
    job_run exec_id now created_ saved id db = (r, db') -> api_step (implb created_ saved) db db'
| step_schedule sc saved id db : api_step true db (store_schedule sc saved id db).

Definition active (w : Workflow) : Prop := Status w = StatusRunning \/ Status w = StatusPaused.
Definition has_running (id : string) (l : list WorkflowExecution) : Prop :=
  exists x, x ∈ l /\ ExecWorkflow x = id /\ ExecStatus x = StatusRunning.

Definition status_ok (db : DB) : Prop :=
  map_Forall (fun id w => active w <-> has_running id (executions db)) (workflows db).

Lemma set_workflow_ok id w w' db :
  status_ok db -> workflows db !! id = Some w -> (active w' <-> active w) -> status_ok (set_workflow id w' db).
Proof.
  intros Hok Hw Ha. apply map_Forall_insert_2; [|done]. rewrite Ha. by apply Hok.
Qed.

Lemma has_running_app id l x :
  has_running id (l ++ [x]) <-> has_running id l \/ (ExecWorkflow x = id /\ ExecStatus x = StatusRunning).
Proof. unfold has_running. set_solver. Qed.

Lemma has_running_stop now id id' l :
  has_running id' (stop_executions now id l) <-> has_running id' l /\ id' <> id.
Proof.
  unfold has_running, stop_executions. split.
  - intros (x & (y & -> & Hy)%list_elem_of_fmap & Hid & Hs). case_bool_decide as Hw; simpl in *.
    + destruct (String.eqb_spec (ExecStatus y) StatusRunning) as [E|E]; simpl in *; [done|].
      by destruct E.
    + split; [by exists y|congruence].
  - intros [(x & Hx & <- & Hs) Hid]. exists x. split; [|done]. apply list_elem_of_fmap. exists x. split; [|done].
    by rewrite bool_decide_eq_false_2.
Qed.

Lemma start_rows_ok exec_id now user created_ saved id w r db db' :
  status_ok db -> workflows db !! id = Some w -> implb created_ saved = true ->
  start_rows exec_id now user created_ saved id w db = (r, db') -> status_ok db'.
Proof.
  intros Hok Hw Hcs. unfold start_rows. destruct created_; [|by intros [= _ <-]]. simpl in *. subst saved.
  intros [= _ <-]. intros i w'. simpl. rewrite has_running_app. simpl.
  intros [[<- <-]|[Hi Hw']]%lookup_insert_Some.
  - split; [auto|]. intros _. by left.
  - rewrite (Hok _ _ Hw'). split; [by left|]. intros [?|[<- _]]; [done|congruence].
Qed.

Lemma start_ok exec_id now user created_ saved id r db db' :
  status_ok db -> implb created_ saved = true ->
  StartWorkflow exec_id now user created_ saved id db = (r, db') -> status_ok db'.
Proof.
  intros Hok Hcs. unfold StartWorkflow. destruct (workflows db !! id) as [w|] eqn:Hw; [|by intros [= _ <-]].
  destruct (Status w =? StatusRunning); [by intros [= _ <-]|].
  destruct (user_id_string user) as [u|]; [|by intros [= _ <-]].
  pose proof (start_rows_ok exec_id now u created_ saved id w true db) as H.
  unfold start_rows in H. destruct created_; simpl in *; [|by intros [= _ <-]]. intros [= _ <-]. by apply H.
Qed.

Lemma stop_ok now saved updated_ id r db db' :
  status_ok db -> eqb saved updated_ = true -> StopWorkflow now saved updated_ id db = (r, db') -> status_ok db'.
Proof.
  intros Hok Heq%eqb_prop. subst updated_. unfold StopWorkflow.
  destruct (workflows db !! id) as [w|] eqn:Hw; [|by intros [= _ <-]].
  destruct (negb _); [by intros [= _ <-]|]. destruct saved; intros [= _ <-]; [|done].
  intros i w'. simpl. rewrite has_running_stop.
  intros [[<- <-]|[Hi Hw']]%lookup_insert_Some.
  - split; [by intros [?|?]|tauto].
  - rewrite (Hok _ _ Hw'). naive_solver.
Qed.

(** A write that keeps a workflow active or not, and may fail. *)
Lemma save_ok (saved : bool) id w w' db db' {A} (r r1 r2 : Reply A) :
  status_ok db -> workflows db !! id = Some w -> (active w' <-> active w) ->
  (if saved then (r1, set_workflow id w' db) else (r2, db)) = (r, db') -> status_ok db'.
Proof. intros Hok Hw Ha. destruct saved; intros [= _ <-]; [|done]. by eapply set_workflow_ok. Qed.

Lemma save_ignored_ok (saved : bool) id w w' db db' {A} (r r1 : Reply A) :
  status_ok db -> workflows db !! id = Some w -> (active w' <-> active w) ->
  (r1, if saved then set_workflow id w' db else db) = (r, db') -> status_ok db'.
Proof. intros Hok Hw Ha [= _ <-]. destruct saved; [|done]. by eapply set_workflow_ok. Qed.

Lemma api_step_ok db db' : status_ok db -> api_step true db db' -> status_ok db'.
Proof.
  intros Hok Hs. remember true as good eqn:Hg.
  destruct Hs as [fresh user saved req r db db' Hf Hx Hs|sha brk create order saved id req r db db' topics Hs
    |saved id r db db' Hs|exec_id now user created_ saved id r db db' Hs|now saved updated_ id r db db' Hs
    |saved id r db db' Hs|saved id r db db' Hs|uuid saved id req r db db' Hs|saved id pid r db db' Hs
    |exec_id now user created_ saved id r db db' Hs|exec_id now created_ saved id r db db' Hs
    |sc saved id db].
  - unfold CreateWorkflow in Hs. destruct req as [req|]; [|by simplify_eq].
    destruct (negb _); [by simplify_eq|]. destruct (user_id_string user); [|by simplify_eq].
    destruct saved; simplify_eq; [|done]. apply map_Forall_insert_2; [|done]. split; [by intros [?|?]|].
    intros (x & Hin & Hid & _). by destruct (Hx x Hin).
  - unfold UpdateWorkflow in Hs. destruct (workflows db !! id) as [w|] eqn:Hw; [|by simplify_eq].
    destruct (Status w =? StatusRunning); [by simplify_eq|]. destruct req as [req|]; [|by simplify_eq].
    destruct (match UpPipelines req with Some _ => _ | None => _ end) as [[l| |] t], saved; simplify_eq; try done.
    by eapply set_workflow_ok.
  - unfold DeleteWorkflow in Hs. destruct (workflows db !! id) as [w|] eqn:Hw; [|by simplify_eq].
    destruct (Status w =? StatusRunning), saved; simplify_eq; try done. by apply map_Forall_delete.
  - by eapply start_ok.
  - by eapply stop_ok.
  - unfold PauseWorkflow in Hs. destruct (workflows db !! id) as [w|] eqn:Hw; [|by simplify_eq].
    destruct (String.eqb_spec (Status w) StatusRunning) as [E|E]; simpl in Hs; [|by simplify_eq].
    eapply save_ignored_ok; [done|done| |done]. unfold active. simpl. naive_solver.
  - unfold ResumeWorkflow in Hs. destruct (workflows db !! id) as [w|] eqn:Hw; [|by simplify_eq].
    destruct (String.eqb_spec (Status w) StatusPaused) as [E|E]; simpl in Hs; [|by simplify_eq].
    eapply save_ignored_ok; [done|done| |done]. unfold active. simpl. naive_solver.
  - unfold AddPipelineToWorkflow in Hs. destruct (workflows db !! id) as [w|] eqn:Hw; [|by simplify_eq].
    destruct req as [p|]; [|by simplify_eq]. eapply save_ok; [done|done| |done]. done.
  - unfold RemovePipelineFromWorkflow in Hs. destruct (workflows db !! id) as [w|] eqn:Hw; [|by simplify_eq].
    destruct (negb _); [by simplify_eq|]. eapply save_ok; [done|done| |done]. done.
  - unfold trigger_workflow in Hs. destruct (workflows db !! id) as [w|] eqn:Hw; [|by simplify_eq].
    destruct (negb _); [by simplify_eq|]. destruct (_ =? StatusRunning); [by simplify_eq|].
    by eapply start_rows_ok.
  - unfold job_run in Hs. destruct (workflows db !! id) as [w|] eqn:Hw; [|by simplify_eq].
    destruct (negb _); [by simplify_eq|]. destruct (_ =? StatusRunning); [by simplify_eq|].
    by eapply start_rows_ok.
  - unfold store_schedule. destruct (workflows db !! id) as [w|] eqn:Hw; [|done].
    destruct saved; [|done]. by eapply set_workflow_ok.
Qed.

Lemma api_steps_ok db db' : status_ok db -> rtc (api_step true) db db' -> status_ok db'.
Proof. intros Hok Hs. induction Hs as [|a b c Hab _ IH]; [done|]. by eapply IH, api_step_ok. Qed.

(** C12: Through every sequence of calls of the workflow and schedule endpoints and of runs of
    the scheduler, one after the other, in which writes may fail but the ones a start or a
    stop does not look at do not fail alone, a workflow is running or paused exactly when
    it has a running execution. *)
Theorem active_workflows_have_executions (ps : gset string) (db : DB) (id : string) (w : Workflow) :
  rtc (api_step true) (MkDB ps ∅ []) db -> workflows db !! id = Some w ->
  (Status w = StatusRunning \/ Status w = StatusPaused <->
   exists x, x ∈ executions db /\ ExecWorkflow x = id /\ ExecStatus x = StatusRunning).
Proof. intros Hr Hw. apply (api_steps_ok _ _ (map_Forall_empty _) Hr _ _ Hw). Qed.

(** One such write that fails is enough: a stop whose second write fails leaves a stopped
    workflow with a running execution, and one whose first write fails a running workflow
    without one. *)
Theorem ignored_write_breaks_the_status (now : Z) (saved : bool) (id : string) (w : Workflow) (db : DB) :
  workflows db !! id = Some w -> Status w = StatusRunning -> has_running id (executions db) ->
  exists db' w', StopWorkflow now saved (negb saved) id db = (Success 200 tt, db') /\
    api_step false db db' /\ workflows db' !! id = Some w' /\
    (active w' /\ ~ has_running id (executions db') \/ ~ active w' /\ has_running id (executions db')).
Proof.
  intros Hw Hs Hr.
  exists (StopWorkflow now saved (negb saved) id db).2, (if saved then set_wstatus StatusStopped w else w).
  assert (StopWorkflow now saved (negb saved) id db
    = (Success 200 tt, (StopWorkflow now saved (negb saved) id db).2)) as Hstop
    by (unfold StopWorkflow; by rewrite Hw, Hs).
  split; [done|]. split; [|unfold StopWorkflow; rewrite Hw, Hs; simpl; split;
    [by destruct saved; simpl; [rewrite lookup_insert_eq|rewrite Hw]|]].
  - replace false with (eqb saved (negb saved)) by by destruct saved. by eapply step_stop.
  - destruct saved; simpl.
    + right. split; [by intros [?|?]|done].
    + left. split; [by left|]. rewrite has_running_stop. tauto.
Qed.

(** A paused workflow cannot be stopped, and a start gives it a second running execution
    beside the first; deleted, it leaves a running execution that no call can end. *)
Theorem paused_workflow_leaks_executions (ps : gset string) (db : DB) (id : string) (w : Workflow) (now : Z) (exec_id : string) :
  rtc (api_step true) (MkDB ps ∅ []) db -> workflows db !! id = Some w -> Status w = StatusPaused ->
  StopWorkflow now true true id db = (Failure 409 ErrCodeWorkflowNotRunning "Workflow is not running", db) /\
  (exists x db', x ∈ executions db /\ ExecWorkflow x = id /\ ExecStatus x = StatusRunning /\
     StartWorkflow exec_id now None true true id db = (Success 202 exec_id, db') /\
     executions db' = executions db ++ [MkExecution exec_id id StatusRunning now None ""]) /\
  (exists db', DeleteWorkflow true id db = (Success 200 tt, db') /\ has_running id (executions db') /\
     StopWorkflow now true true id db' = (Failure 404 ErrCodeNotFound "Workflow not found", db')).
Proof.
  intros Hr Hw Hs.
  assert (has_running id (executions db)) as Hx.
  { apply (api_steps_ok _ _ (map_Forall_empty _) Hr _ _ Hw). by right. }
  unfold StopWorkflow, StartWorkflow, DeleteWorkflow. rewrite Hw, Hs. simpl. split; [done|]. split.
  - destruct Hx as (x & Hin & Hid & Hst). do 2 eexists. split; [done|]. split; [done|]. split; [done|].
    split; [reflexivity|done].
  - eexists. split; [done|]. split; [done|]. simpl. by rewrite lookup_delete_eq.
Qed.

(** Created, started and paused. *)
Definition demo_request : CreateWorkflowRequest :=
  MkCreate "proj" "flow" "shop" "" "batch" "" None [] "" "" "".
Definition demo_fresh (n : nat) : string := match n with 0 => "w" | _ => "x" end.
Definition db0 : DB := MkDB {["proj"]} ∅ [].
Definition db1 : DB := (CreateWorkflow demo_fresh None true (Some demo_request) db0).2.
Definition db2 : DB := (StartWorkflow "e1" 1 None true true "w" db1).2.
Definition db3 : DB := (PauseWorkflow true "w" db2).2.

Lemma demo_api_run : rtc (api_step true) db0 db2 /\ rtc (api_step true) db0 db3.
Proof.
  assert (api_step true db0 db1) as S1.
  { eapply (step_create demo_fresh None true (Some demo_request)); [done|set_solver|]. apply surjective_pairing. }
  assert (api_step true db1 db2) as S2 by (eapply (step_start _ _ _ true true); apply surjective_pairing).
  assert (api_step true db2 db3) as S3 by (eapply step_pause; apply surjective_pairing).
  split; [by do 2 (eapply rtc_l; [done|])|]. by do 3 (eapply rtc_l; [done|]).
Qed.

Lemma active_workflows_have_executions_witness :
  exists w, workflows db2 !! "w" = Some w /\ Status w = StatusRunning /\
    exists x, x ∈ executions db2 /\ ExecWorkflow x = "w" /\ ExecStatus x = StatusRunning.
Proof.
  destruct (workflows db2 !! "w") as [w|] eqn:E; [|by vm_compute in E]. exists w.
  assert (Status w = StatusRunning) as Hs by (vm_compute in E; by injection E as <-).
  split; [done|]. split; [done|].
  apply (active_workflows_have_executions {["proj"]} db2 "w" w); [apply demo_api_run|done|by left].
Defined.

Lemma paused_workflow_leaks_executions_witness :
  StopWorkflow 2 true true "w" db3 = (Failure 409 ErrCodeWorkflowNotRunning "Workflow is not running", db3).
Proof.
  destruct (workflows db3 !! "w") as [w|] eqn:E; [|by vm_compute in E].
  assert (Status w = StatusPaused) as Hs by (vm_compute in E; by injection E as <-).
  apply (paused_workflow_leaks_executions {["proj"]} db3 "w" w 2 "e2"); [apply demo_api_run|done|done].
Defined.
