(* ===== verification/Auth.v ===== *)
(** * Logging in and roles (handlers/auth.go, middleware/auth.go, pkg/config, api/routes.go)

    The OAuth callback, the accounts it creates, the tokens it issues, the middleware that
    checks them and the roles that the routes ask for. Parameters: the JWT library, the
    answers of the OAuth provider, and [strings.ToLower]. *)

From Stdlib Require Import String Ascii SpecFloat.
From stdpp Require Import pretty.
From S2P Require Import Prelude GoString GoValue GoTime Api.
Local Open Scope string_scope.
Local Open Scope list_scope.

(** ** Paths into JSON (pkg/config/jsonpath.go) *)

Fixpoint digits (x : Z) (s : string) : option Z :=
  match s with
  | EmptyString => Some x
  | String c s' => match digit c with Some d => digits (x * 10 + d) s' | None => None end
  end.

(** [strconv.Atoi]. *)
Definition Atoi (s : string) : option Z :=
  let number (neg : bool) (t : string) :=
    if t =? "" then None
    else match digits 0 t with
         | Some n => let n := if neg then (- n)%Z else n in
                     if ((- 2 ^ 63 <=? n) && (n <? 2 ^ 63))%Z then Some n else None
         | None => None
         end in
  match s with
  | String "-" t => number true t
  | String "+" t => number false t
  | _ => number false s
  end.

Fixpoint walk_json (path : string) (parts : list string) (current : GoValue) : res string GoValue :=
  match parts with
  | [] => Ok current
  | part :: rest =>
      match current with
      | VMap m =>
          match m !! part with
          | Some v => walk_json path rest v
          | None => Err ("key '" +:+ part +:+ "' not found in path '" +:+ path +:+ "'")
          end
      | VSlice l =>
          match Atoi part with
          | None => Err ("expected array index but got '" +:+ part +:+ "'")
          | Some idx =>
              if (0 <=? idx)%Z then
                match l !! Z.to_nat idx with
                | Some v => walk_json path rest v
                | None => Err ("array index " +:+ pretty idx +:+ " out of bounds")
                end
              else Err ("array index " +:+ pretty idx +:+ " out of bounds")
          end
      | _ => Err ("cannot navigate further at '" +:+ part +:+ "'")
      end
  end.

Definition ExtractJSONPath (data : Data) (path : string) : res string GoValue :=
  if path =? "" then Err "empty path" else walk_json path (Split path ".") (VMap data).

(** The nearest integer, ties to even. *)
Definition round_half_even (m d : Z) : Z :=
  let q := (m / d)%Z in
  let r := (m mod d)%Z in
  if (2 * r <? d)%Z then q else if (d <? 2 * r)%Z then (q + 1)%Z else if Z.even q then q else (q + 1)%Z.

(** [fmt.Sprintf("%.0f", f)]. *)
Definition fmt_f0 (f : spec_float) : string :=
  match f with
  | S754_zero s => if s then "-0" else "0"
  | S754_infinity s => if s then "-Inf" else "+Inf"
  | S754_nan => "NaN"
  | S754_finite s m e =>
      let n := if (0 <=? e)%Z then (Zpos m * 2 ^ e)%Z else round_half_even (Zpos m) (2 ^ (- e)) in
      (if s then "-" else "") +:+ pretty n
  end.

Section Runtime.
Context `{GoRuntime}.

Definition ExtractJSONPathString (data : Data) (path : string) : string :=
  if path =? "" then ""
  else match ExtractJSONPath data path with
       | Ok (VString v) => v
       | Ok (VFloat64 v) => fmt_f0 v
       | Ok v => fmt_v v
       | _ => ""
       end.

Record UserMappingConfig := MkMapping { MapID : string; MapEmail : string; MapName : string; MapAvatar : string }.
Record ParsedUserInfo := MkInfo { InfoID : string; InfoEmail : string; InfoName : string; InfoAvatar : string }.

Definition ParseUserInfo (body : string) (m : UserMappingConfig) : res string ParsedUserInfo :=
  match json_object body with
  | None => Err "failed to parse JSON"
  | Some data =>
      Ok (MkInfo (ExtractJSONPathString data (MapID m)) (ExtractJSONPathString data (MapEmail m))
            (ExtractJSONPathString data (MapName m)) (ExtractJSONPathString data (MapAvatar m)))
  end.
End Runtime.

(** ** Roles from the configuration (pkg/config/users.go) *)

Definition UserRoleAdmin := "admin".
Definition UserRoleOperator := "operator".
Definition UserRoleViewer := "viewer".

Record UsersConfig := MkUsersConfig { AdminEmails : list string; OperatorEmails : list string }.

Section Roles.
Context (ToLower : string -> string).

Definition normalize (email : string) : string := TrimSpace (ToLower email).

(** The normalization of [LoadUsersConfig]. *)
Definition normalize_config (c : UsersConfig) : UsersConfig :=
  MkUsersConfig (normalize <$> AdminEmails c) (normalize <$> OperatorEmails c).

(** One variable of [LoadUsersConfigFromEnv]. *)
Definition env_emails (value : string) : list string :=
  if value =? "" then [] else filter (fun e => e <> "") (normalize <$> Split value ",").
Definition LoadUsersConfigFromEnv (admins operators : string) : UsersConfig :=
  MkUsersConfig (env_emails admins) (env_emails operators).

Definition Merge (c : UsersConfig) (other : option UsersConfig) : UsersConfig :=
  match other with
  | None => c
  | Some o => MkUsersConfig (AdminEmails c ++ AdminEmails o) (OperatorEmails c ++ OperatorEmails o)
  end.

Definition IsAdmin (c : UsersConfig) (email : string) : bool := existsb (String.eqb (normalize email)) (AdminEmails c).
Definition IsOperator (c : UsersConfig) (email : string) : bool :=
  existsb (String.eqb (normalize email)) (OperatorEmails c).
Definition GetRole (c : UsersConfig) (email : string) : string :=
  if IsAdmin c email then UserRoleAdmin else if IsOperator c email then UserRoleOperator else UserRoleViewer.
End Roles.

(** ** Accounts *)

Record User := MkUser {
  Email : string;
  UserName : string;
  Provider : string;
  ProviderID : string;
  Role : string;
  AvatarURL : string;
  LastLogin : option Z
}.

Abbreviation Users := (gmap string User) (only parsing).

(** The email column is unique, so at most one row matches. *)
Definition user_by_email (email : string) (db : Users) : option (string * User) :=
  snd <$> list_find (fun kv => Email kv.2 = email) (map_to_list db).

Definition roleWeight (role : string) : Z :=
  if role =? "viewer" then 1 else if role =? "operator" then 2 else if role =? "admin" then 3 else 0.
Definition shouldUpgradeRole (currentRole configRole : string) : bool :=
  (roleWeight currentRole <? roleWeight configRole)%Z.

(** [findOrCreateUser]; [uuid] is fresh. For an existing account the result of the save is
    not looked at. *)
Definition findOrCreateUser (ToLower : string -> string) (cfg : UsersConfig) (now : Z) (uuid : string) (saved : bool)
  (info : ParsedUserInfo) (providerID : string) (db : Users) : res string (string * User) * Users :=
  let configRole := GetRole ToLower cfg (InfoEmail info) in
  match user_by_email (InfoEmail info) db with
  | Some (id, u) =>
      let role := if shouldUpgradeRole (Role u) configRole then configRole else Role u in
      let u := MkUser (Email u) (UserName u) (Provider u) (ProviderID u) role (InfoAvatar info) (Some now) in
      (Ok (id, u), if saved then <[id := u]> db else db)
  | None =>
      let u := MkUser (InfoEmail info) (InfoName info) providerID (InfoID info) configRole (InfoAvatar info) None in
      if saved then (Ok (uuid, u), <[uuid := u]> db) else (Err "failed to create user", db)
  end.

(** ** Tokens *)

(** The claims of a token; [sub], [email] and [role] are what the decoder finds there. *)
Record Claims := MkClaims {
  claim_sub : option GoValue;
  claim_email : option GoValue;
  claim_role : option GoValue;
  claim_exp : Z
}.

(** The JWT library with the secret of the server; [verify] takes the time in seconds. *)
Class Jwt := {
  sign : Claims -> string;
  verify : Z -> string -> option Claims
}.
Class JwtLaws `{Jwt} := {
  verify_sign now sub email role exp :
    let c := MkClaims (Some (VString sub)) (Some (VString email)) (Some (VString role)) exp in
    verify now (sign c) = if (now <? exp)%Z then Some c else None
}.

Section Tokens.
Context `{Jwt}.

Definition token_lifetime : Z := 24 * 3600.

Definition generateToken (now : Z) (id : string) (u : User) : string :=
  sign (MkClaims (Some (VString id)) (Some (VString (Email u))) (Some (VString (Role u))) (now + token_lifetime)).

(** The values a handler finds with [c.Get]: [None] when unset, [Some VNil] for a nil. *)
Record Ctx := MkCtx { ctx_user : option GoValue; ctx_role : option GoValue }.

Definition claim (v : option GoValue) : option GoValue := Some (default VNil v).

(** [AuthMiddleware]: a response, or the context for the handler. *)
Definition AuthMiddleware (now : Z) (authHeader : string) : Reply unit + Ctx :=
  if authHeader =? "" then inl (Failure 401 ErrCodeUnauthorized "Missing authorization header")
  else
    match SplitN2 authHeader " " with
    | [scheme; token] =>
        if negb (scheme =? "Bearer") then inl (Failure 401 ErrCodeUnauthorized "Invalid authorization header format")
        else match verify now token with
             | None => inl (Failure 401 ErrCodeInvalidToken "Invalid token")
             | Some c => inr (MkCtx (claim (claim_sub c)) (claim (claim_role c)))
             end
    | _ => inl (Failure 401 ErrCodeUnauthorized "Invalid authorization header format")
    end.

(** [RoleMiddleware]: [None] lets the request pass. *)
Definition RoleMiddleware (allowedRoles : list string) (c : Ctx) : option (Reply unit) :=
  match ctx_role c with
  | None => Some (Failure 403 ErrCodeForbidden "Access denied")
  | Some (VString role) =>
      if existsb (String.eqb role) allowedRoles then None
      else Some (Failure 403 ErrCodeInsufficientPerms "Insufficient permissions")
  | Some _ => Some HandlerPanic
  end.
End Tokens.

(** ** Providers *)

Record OAuthProviderConfig := MkProvider {
  ProvName : string;
  ProvAuthURL : string;
  ProvTokenURL : string;
  ProvUserInfoURL : string;
  Scopes : list string;
  UserMapping : UserMappingConfig;
  ClientID : string;
  ClientSecret : string;
  RedirectURL : string
}.

Abbreviation Providers := (gmap string OAuthProviderConfig) (only parsing).

Definition has_credentials (cfg : OAuthProviderConfig) : bool :=
  negb (ClientID cfg =? "") && negb (ClientSecret cfg =? "").

Definition RegisterProvider (id : string) (cfg : OAuthProviderConfig) (ps : Providers) : Providers :=
  if has_credentials cfg then <[id := cfg]> ps else ps.

(** The order of the range does not matter: each id is registered on its own. *)
Definition RegisterProvidersFromConfig (oauth : Providers) (ps : Providers) : Providers :=
  map_fold RegisterProvider ps oauth.

Definition GetEnabledProviders (oauth : Providers) : Providers :=
  filter (fun kv => has_credentials kv.2 = true) oauth.

(** ** Logging in *)

Section Login.
Context `{GoRuntime, Jwt} (ToLower : string -> string).

(** The response of [Login]: where to go and the state that goes along. *)
Definition Login (AuthCodeURL : OAuthProviderConfig -> string -> string) (uuid : string) (req : option string)
  (ps : Providers) : Reply (string * string) :=
  match req with
  | None => Failure 400 ErrCodeInvalidJSON ""
  | Some provider =>
      match ps !! provider with
      | None => Failure 400 ErrCodeBadRequest ("Provider '" +:+ provider +:+ "' not configured")
      | Some p => Success 200 (AuthCodeURL p (uuid +:+ ":" +:+ provider), uuid)
      end
  end.

Record CallbackQuery := MkQuery {
  q_code : string;
  q_state : string;
  q_error : string;
  q_error_description : string;
  q_provider : string;
  q_redirect_uri : string
}.

(** What the provider answers: to the exchange of the code, and to the request for the user
    with the token, a status and a body. *)
Record ProviderAnswers := MkAnswers {
  exchange : OAuthProviderConfig -> string -> option string;
  user_info : OAuthProviderConfig -> string -> option (Z * string)
}.

Definition state_provider (q : CallbackQuery) : string :=
  let state := q_state q in
  if (37 <? String.length state)%nat && bool_decide (String.get 36 state = Some ":"%char)
  then String.substring 37 (String.length state - 37) state
  else q_provider q.

Definition fetchUserInfo (net : ProviderAnswers) (p : OAuthProviderConfig) (token : string) : res string ParsedUserInfo :=
  match user_info net p token with
  | None => Err "failed to fetch user info"
  | Some (code, body) =>
      if (code =? 200)%Z then ParseUserInfo body (UserMapping p)
      else Err ("user info request failed with status " +:+ pretty code)
  end.

(** [Callback]; a success is a redirection to an address that carries the token. *)
Definition Callback (cfg : UsersConfig) (frontendURL : string) (ps : Providers) (net : ProviderAnswers)
  (now : Z) (uuid : string) (saved : bool) (q : CallbackQuery) (db : Users) : Reply string * Users :=
  if q_code q =? "" then
    if negb (q_error q =? "")
    then (Failure 400 ErrCodeBadRequest (q_error q +:+ ": " +:+ q_error_description q), db)
    else (Failure 400 ErrCodeBadRequest "Missing authorization code", db)
  else
    let providerID := state_provider q in
    if providerID =? "" then (Failure 400 ErrCodeBadRequest "Missing provider information", db)
    else
      match ps !! providerID with
      | None => (Failure 400 ErrCodeBadRequest ("Provider '" +:+ providerID +:+ "' not configured"), db)
      | Some p =>
          match exchange net p (q_code q) with
          | None => (Failure 500 ErrCodeExternalService "Failed to exchange token", db)
          | Some token =>
              match fetchUserInfo net p token with
              | Ok info =>
                  match findOrCreateUser ToLower cfg now uuid saved info providerID db with
                  | (Ok (id, u), db') =>
                      let authToken := generateToken now id u in
                      let url := if q_redirect_uri q =? "" then frontendURL +:+ "/login" else q_redirect_uri q in
                      (Success 307 (url +:+ "?token=" +:+ authToken), db')
                  | (Err e, db') => (Failure 500 ErrCodeDatabaseError e, db')
                  | (Panic, db') => (HandlerPanic, db')
                  end
              | Err e => (Failure 500 ErrCodeExternalService ("Failed to get user info: " +:+ e), db)
              | Panic => (HandlerPanic, db)
              end
          end
      end.

(** [GetCurrentUser]. *)
Definition GetCurrentUser (c : Ctx) (db : Users) : Reply User :=
  match ctx_user c with
  | None => Failure 401 ErrCodeUnauthorized "Not authenticated"
  | Some v =>
      match v with
      | VString id => match db !! id with
                      | Some u => Success 200 u
                      | None => Failure 404 ErrCodeNotFound "User not found"
                      end
      | _ => Failure 404 ErrCodeNotFound "User not found"
      end
  end.
End Login.

(** ** Routes (api/routes.go) *)

Inductive Method := GET | POST | PUT | DELETE.
#[export] Instance Method_eq_dec : EqDecision Method.
Proof. solve_decision. Defined.

(** How a route is protected: open to all, for any valid token, for tokens of some roles. *)
Inductive Guard := Open | Authenticated | Roles (l : list string).

Record Route := MkRoute { method : Method; path : string; guard : Guard }.

#[export] Instance Guard_eq_dec : EqDecision Guard.
Proof. solve_decision. Defined.
#[export] Instance Route_eq_dec : EqDecision Route.
Proof. solve_decision. Defined.

Definition writers : Guard := Roles [UserRoleAdmin; UserRoleOperator].
Definition admins : Guard := Roles [UserRoleAdmin].

Definition setupRoutes : list Route := [
  MkRoute GET "/auth/providers" Open; MkRoute POST "/auth/login" Open; MkRoute GET "/auth/callback" Open;
  MkRoute GET "/auth/me" Authenticated; MkRoute GET "/auth/profile" Authenticated;
  MkRoute POST "/auth/logout" Authenticated;
  MkRoute GET "/pipelines" Authenticated; MkRoute POST "/pipelines" writers;
  MkRoute GET "/pipelines/:id" Authenticated; MkRoute PUT "/pipelines/:id" writers;
  MkRoute DELETE "/pipelines/:id" admins; MkRoute GET "/pipelines/:id/status" Authenticated;
  MkRoute GET "/pipelines/:id/history" Authenticated; MkRoute GET "/pipelines/:id/metrics" Authenticated;
  MkRoute GET "/pipelines/:id/graph" Authenticated; MkRoute PUT "/pipelines/:id/graph" writers;
  MkRoute GET "/pipelines/:id/actor-metrics" Authenticated;
  MkRoute GET "/workflows" Authenticated; MkRoute POST "/workflows" writers;
  MkRoute GET "/workflows/:id" Authenticated; MkRoute PUT "/workflows/:id" writers;
  MkRoute DELETE "/workflows/:id" admins; MkRoute POST "/workflows/:id/start" writers;
  MkRoute POST "/workflows/:id/stop" writers; MkRoute POST "/workflows/:id/pause" writers;
  MkRoute POST "/workflows/:id/resume" writers; MkRoute GET "/workflows/:id/executions" Authenticated;
  MkRoute POST "/workflows/:id/pipelines" writers;
  MkRoute DELETE "/workflows/:id/pipelines/:pipelineId" admins;
  MkRoute GET "/workflows/:id/schedule" Authenticated; MkRoute PUT "/workflows/:id/schedule" writers;
  MkRoute POST "/workflows/:id/schedule/enable" writers; MkRoute POST "/workflows/:id/schedule/disable" writers;
  MkRoute POST "/workflows/:id/trigger" writers;
  MkRoute GET "/stats/pipelines/:id" Authenticated; MkRoute GET "/stats/workflows/:id" Authenticated;
  MkRoute GET "/stats/executions/:id" Authenticated; MkRoute GET "/schedules" Authenticated;
  MkRoute GET "/data-types" Authenticated; MkRoute GET "/data-types/categories" Authenticated;
  MkRoute POST "/data-types" writers; MkRoute GET "/data-types/:id" Authenticated;
  MkRoute PUT "/data-types/:id" writers; MkRoute DELETE "/data-types/:id" admins;
  MkRoute POST "/data-types/:id/preworks" writers; MkRoute DELETE "/data-types/:id/preworks/:preworkId" admins;
  MkRoute POST "/data-types/:id/preworks/:preworkId/execute" writers;
  MkRoute GET "/delete-strategy-presets" Authenticated;
  MkRoute GET "/users" Authenticated; MkRoute GET "/users/search" Authenticated;
  MkRoute GET "/users/:id" Authenticated; MkRoute PUT "/users/:id/role" Authenticated;
  MkRoute GET "/permissions" Authenticated; MkRoute POST "/permissions" Authenticated;
  MkRoute DELETE "/permissions/:id" Authenticated; MkRoute GET "/roles" Authenticated;
  MkRoute GET "/projects" Authenticated; MkRoute POST "/projects" writers;
  MkRoute GET "/projects/:id" Authenticated; MkRoute PUT "/projects/:id" writers;
  MkRoute DELETE "/projects/:id" admins; MkRoute GET "/projects/:id/workflows" Authenticated;
  MkRoute GET "/projects/:id/hierarchy" Authenticated; MkRoute GET "/projects/:id/data-types" Authenticated].

(** The middleware in front of the handler of a route: a response, or the context that the
    handler runs with, [None] on an open route. *)
Definition dispatch `{Jwt} (now : Z) (authHeader : string) (r : Route) : Reply unit + option Ctx :=
  match guard r with
  | Open => inr None
  | Authenticated =>
      match AuthMiddleware now authHeader with
      | inl reply => inl reply
      | inr c => inr (Some c)
      end
  | Roles l =>
      match AuthMiddleware now authHeader with
      | inl reply => inl reply
      | inr c => match RoleMiddleware l c with
                 | Some reply => inl reply
                 | None => inr (Some c)
                 end
      end
  end.

(** The routes whose handlers check for the administrator themselves, and those that change
    nothing stored. *)
Definition self_checked : list string := ["/users/:id/role"; "/permissions"; "/permissions/:id"].
Definition harmless : list string := ["/auth/login"; "/auth/logout"].

(** ** Who may change what *)

Lemma auth_passes `{Jwt} now h c :
  AuthMiddleware now h = inr c ->
  exists token claims, h = "Bearer " +:+ token /\ verify now token = Some claims /\
    c = MkCtx (claim (claim_sub claims)) (claim (claim_role claims)).
Proof.
  unfold AuthMiddleware, SplitN2. destruct (h =? ""); [done|]. destruct (cut " " h) as [[s t]|] eqn:E; [|done].
  apply cut_Some in E. destruct (String.eqb_spec s "Bearer") as [->|]; [|done]. simpl.
  destruct (verify now t) as [claims|] eqn:Hv; [|done]. intros [= <-]. by exists t, claims.
Qed.

Lemma role_passes l c : RoleMiddleware l c = None -> exists role, ctx_role c = Some (VString role) /\ role ∈ l.
Proof.
  unfold RoleMiddleware. destruct (ctx_role c) as [[| | | | |role| | |]|]; try done.
  destruct (existsb _ _) eqn:E; [|done]. intros _. exists role. split; [done|].
  apply existsb_exists in E as (x & Hx & ->%String.eqb_eq). by apply list_elem_of_In.
Qed.

(** The guard a route has to have. *)
Definition well_guarded (r : Route) : bool :=
  match method r with
  | GET => true
  | m =>
      existsb (String.eqb (path r)) (self_checked ++ harmless) ||
      match guard r with
      | Roles l => forallb (fun x => existsb (String.eqb x) [UserRoleAdmin; UserRoleOperator]) l &&
                   (negb (bool_decide (m = DELETE)) || forallb (String.eqb UserRoleAdmin) l)
      | _ => false
      end
  end.

Lemma routes_well_guarded : forallb well_guarded setupRoutes = true.
Proof. by vm_compute. Qed.

Lemma forallb_elem {A} (f : A -> bool) l x : forallb f l = true -> x ∈ l -> f x = true.
Proof. rewrite forallb_forall. intros Hf Hx. by apply Hf, list_elem_of_In. Qed.


(** ** Roles of accounts *)

Lemma user_by_email_spec email db id u :
  user_by_email email db = Some (id, u) -> db !! id = Some u /\ Email u = email.
Proof.
  unfold user_by_email. destruct (list_find _ _) as [[i [id' u']]|] eqn:E; [|done].
  apply list_find_Some in E as (Hi & He & _). intros [= <- <-]. split; [|done].
  apply elem_of_map_to_list. by eapply list_elem_of_lookup_2.
Qed.

Lemma user_by_email_complete email db id u :
  db !! id = Some u -> Email u = email -> is_Some (user_by_email email db).
Proof.
  intros Hu He. unfold user_by_email. destruct (list_find _ _) as [[i kv]|] eqn:E; [by eexists|].
  rewrite list_find_None in E. rewrite Forall_forall in E. exfalso. apply (E (id, u)); [|done].
  by apply elem_of_map_to_list.
Qed.

(** Logging in never takes a role away: the role of an existing account afterwards is the
    old one or that of the configuration, whichever is higher, and a new account gets the
    role of the configuration; other accounts stay as they are. *)
Theorem login_never_demotes (ToLower : string -> string) (cfg : UsersConfig) (now : Z) (uuid : string)
  (info : ParsedUserInfo) (provider : string) (db : Users) :
  db !! uuid = None ->
  exists id u db', findOrCreateUser ToLower cfg now uuid true info provider db = (Ok (id, u), db') /\
    db' = <[id := u]> db /\
    let configured := GetRole ToLower cfg (InfoEmail info) in
    match db !! id with
    | Some old => Email old = InfoEmail info /\ Email u = Email old /\
                  roleWeight (Role u) = Z.max (roleWeight (Role old)) (roleWeight configured) /\
                  (Role u = Role old \/ Role u = configured)
    | None => id = uuid /\ Email u = InfoEmail info /\ Role u = configured
    end.
Proof.
  intros Hfresh. unfold findOrCreateUser. cbv zeta.
  destruct (user_by_email (InfoEmail info) db) as [[id old]|] eqn:E.
  - apply user_by_email_spec in E as [Hold He]. do 3 eexists. split; [done|]. split; [done|]. rewrite Hold.
    split; [done|]. split; [done|]. simpl. unfold shouldUpgradeRole.
    destruct (Z.ltb_spec (roleWeight (Role old)) (roleWeight (GetRole ToLower cfg (InfoEmail info)))); split; auto; lia.
  - do 3 eexists. split; [done|]. split; [done|]. by rewrite Hfresh.
Qed.

(** ** What the callback does not check *)

Lemma get_app a t : String.get (String.length a) (a +:+ t) = String.get 0 t.
Proof. induction a as [|c a IH]; [done|]. simpl. apply IH. Qed.
Lemma substring_app a t m : String.substring (String.length a) m (a +:+ t) = String.substring 0 m t.
Proof. induction a as [|c a IH]; [done|]. simpl. apply IH. Qed.
Lemma substring_all s : String.substring 0 (String.length s) s = s.
Proof. induction s as [|c s IH]; [done|]. simpl. by rewrite IH. Qed.

(** The provider behind a state of the length that the login makes. *)
Lemma state_provider_spec s code provider q_p redirect :
  String.length s = 36 -> provider <> "" ->
  state_provider (MkQuery code (s +:+ ":" +:+ provider) "" "" q_p redirect) = provider.
Proof.
  intros Hlen Hp. unfold state_provider. simpl q_state.
  assert (0 < String.length provider) as Hpl by (destruct provider; [done|simpl; lia]).
  assert (String.length (s +:+ ":" +:+ provider) = 37 + String.length provider) as ->.
  { rewrite !str_length_app, Hlen. simpl. lia. }
  rewrite (proj2 (Nat.ltb_lt _ _)) by lia.
  rewrite bool_decide_eq_true_2 by (rewrite <- Hlen, get_app; done).
  replace (37 + String.length provider - 37) with (String.length provider) by lia. simpl andb. cbn match.
  rewrite <- str_app_assoc.
  replace 37 with (String.length (s +:+ ":")) by (rewrite str_length_app, Hlen; done).
  by rewrite substring_app, substring_all.
Qed.

(** The state of a callback is not checked: replacing the first part of it, which the login
    made up to recognise its own callbacks, by any other text of its length changes nothing.
    The token goes to whatever address the request names. *)
Theorem callback_checks_no_state `{GoRuntime, Jwt} (ToLower : string -> string) (cfg : UsersConfig)
  (frontend : string) (ps : Providers) (net : ProviderAnswers) (now : Z) (uuid : string) (saved : bool)
  (code provider redirect state state' : string) (db : Users) :
  String.length state = 36 -> String.length state' = 36 -> provider <> "" -> redirect <> "" ->
  let callback st := Callback ToLower cfg frontend ps net now uuid saved
                       (MkQuery code (st +:+ ":" +:+ provider) "" "" "" redirect) db in
  callback state = callback state' /\
  forall st url db', callback state = (Success st url, db') -> exists token, url = redirect +:+ "?token=" +:+ token.
Proof.
  intros Hs Hs' Hp Hr callback.
  split.
  - unfold callback, Callback. by rewrite !state_provider_spec.
  - intros st url db'. unfold callback, Callback. rewrite state_provider_spec by done. cbv zeta. simpl q_code. simpl q_redirect_uri.
    destruct (code =? ""); [done|]. destruct (provider =? ""); [done|]. destruct (ps !! provider); [|done].
    destruct (exchange _ _ _); [|done]. destruct (fetchUserInfo _ _ _); [|done|done].
    destruct (findOrCreateUser _ _ _ _ _ _ _ _) as [[[id u]| |] d]; [|done|done].
    destruct (String.eqb_spec redirect ""); [done|]. intros [= <- <- <-]. by eexists.
Qed.

(** A token says for 24 hours what the account was when it was issued. *)
Lemma auth_token `{JwtLaws} now later id u :
  AuthMiddleware later ("Bearer " +:+ generateToken now id u) =
  if (later <? now + token_lifetime)%Z
  then inr (MkCtx (Some (VString id)) (Some (VString (Role u))))
  else inl (Failure 401 ErrCodeInvalidToken "Invalid token").
Proof.
  unfold AuthMiddleware, SplitN2.
  assert (forall t, cut " " ("Bearer " +:+ t) = Some ("Bearer", t)) as -> by done.
  unfold generateToken. rewrite verify_sign. by destruct (later <? now + token_lifetime)%Z.
Qed.

(** A token opens the routes of the role the account had at login, for 24 hours and no
    longer: what happens to the account in between plays no part. *)
Theorem token_fixes_the_role `{JwtLaws} (now later : Z) (id : string) (u : User) (r : Route) (l : list string) :
  guard r = Roles l ->
  dispatch later ("Bearer " +:+ generateToken now id u) r =
  if (later <? now + token_lifetime)%Z then
    if bool_decide (Role u ∈ l) then inr (Some (MkCtx (Some (VString id)) (Some (VString (Role u)))))
    else inl (Failure 403 ErrCodeInsufficientPerms "Insufficient permissions")
  else inl (Failure 401 ErrCodeInvalidToken "Invalid token").
Proof.
  intros Hg. unfold dispatch. rewrite Hg, auth_token. destruct (later <? now + token_lifetime)%Z; [|done].
  unfold RoleMiddleware. simpl ctx_role. cbn match.
  destruct (existsb (String.eqb (Role u)) l) eqn:E.
  - rewrite bool_decide_eq_true_2; [done|]. apply existsb_exists in E as (x & Hx & ->%String.eqb_eq).
    by apply list_elem_of_In.
  - rewrite bool_decide_eq_false_2; [done|]. intros Hin. apply not_true_iff_false in E. apply E.
    apply existsb_exists. exists (Role u). split; [by apply list_elem_of_In|apply String.eqb_refl].
Qed.

(** ** Accounts without an email *)

Lemma null_email `{GoRuntime} body d m :
  json_object body = Some d -> MapEmail m = "email" -> d !! "email" = Some VNil ->
  exists info, ParseUserInfo body m = Ok info /\ InfoEmail info = "<nil>".
Proof.
  intros Hb Hm Hd. unfold ParseUserInfo. rewrite Hb. eexists. split; [done|]. simpl. rewrite Hm.
  unfold ExtractJSONPathString, ExtractJSONPath.
  change (Split "email" ".") with ["email"]. simpl. by rewrite Hd.
Qed.

(** All users for whom the provider reports no email, as null, share one account: the
    second one to log in gets the account of the first. *)
Theorem null_emails_share_an_account `{GoRuntime} (ToLower : string -> string) (cfg : UsersConfig)
  (m : UserMappingConfig) (now now' : Z) (uuid uuid' body body' provider provider' : string) (d d' : Data) (db : Users) :
  MapEmail m = "email" -> json_object body = Some d -> json_object body' = Some d' ->
  d !! "email" = Some VNil -> d' !! "email" = Some VNil -> user_by_email "<nil>" db = None ->
  exists info info' u u' db1 db2, ParseUserInfo body m = Ok info /\ ParseUserInfo body' m = Ok info' /\
    findOrCreateUser ToLower cfg now uuid true info provider db = (Ok (uuid, u), db1) /\
    findOrCreateUser ToLower cfg now' uuid' true info' provider' db1 = (Ok (uuid, u'), db2).
Proof.
  intros Hm Hb Hb' Hd Hd' Hnone.
  destruct (null_email body d m Hb Hm Hd) as (info & Hi & He).
  destruct (null_email body' d' m Hb' Hm Hd') as (info' & Hi' & He').
  set (u := MkUser "<nil>" (InfoName info) provider (InfoID info) (GetRole ToLower cfg "<nil>") (InfoAvatar info) None).
  destruct (user_by_email_complete "<nil>" (<[uuid := u]> db) uuid u) as [[id v] Hv]; [by rewrite lookup_insert_eq|done|].
  pose proof Hv as Hid. apply user_by_email_spec in Hid as [[[<- _]|[_ Hold]]%lookup_insert_Some He2].
  2: { exfalso. destruct (user_by_email_complete "<nil>" db id v Hold He2). congruence. }
  exists info, info', u. unfold findOrCreateUser. rewrite He, He', Hnone. do 3 eexists. split; [done|]. split; [done|].
  split; [reflexivity|]. unfold u in Hv. by rewrite Hv.
Qed.

(** ** Concrete instances *)

(** A library whose tokens spell out the claims of an account. *)
Definition claim_text (v : option GoValue) : string := match v with Some (VString s) => s | _ => "" end.
#[local] Instance demo_jwt : Jwt := {|
  sign c := bits (encode (claim_text (claim_sub c), claim_text (claim_email c), claim_text (claim_role c), claim_exp c));
  verify now t :=
    match decode (unbits t) with
    | Some (sub, email, role, exp) =>
        if (now <? exp)%Z
        then Some (MkClaims (Some (VString sub)) (Some (VString email)) (Some (VString role)) exp) else None
    | None => None
    end
|}.
#[local] Instance demo_jwt_laws : JwtLaws.
Proof. split. intros now sub email role exp. simpl. by rewrite unbits_bits, decode_encode. Qed.

Definition demo_admin : User := MkUser "a@x" "A" "github" "1" "admin" "" None.
Definition delete_workflow : Route := MkRoute DELETE "/workflows/:id" admins.
Definition demo_header : string := "Bearer " +:+ generateToken 0 "u1" demo_admin.


Lemma token_fixes_the_role_witness :
  dispatch 86399 demo_header delete_workflow = inr (Some (MkCtx (Some (VString "u1")) (Some (VString "admin")))) /\
  dispatch 86400 demo_header delete_workflow = inl (Failure 401 ErrCodeInvalidToken "Invalid token").
Proof.
  split.
  - apply (token_fixes_the_role 0 86399 "u1" demo_admin delete_workflow [UserRoleAdmin]). done.
  - apply (token_fixes_the_role 0 86400 "u1" demo_admin delete_workflow [UserRoleAdmin]). done.
Defined.

Definition demo_users_config : UsersConfig := MkUsersConfig ["a@x"] ["b@x"].
Definition demo_users : gmap string User := {["u1" := MkUser "b@x" "B" "github" "2" "viewer" "" None]}.

(** A viewer whom the configuration makes an operator. *)
Lemma login_never_demotes_witness :
  exists id u db', findOrCreateUser (fun s => s) demo_users_config 5 "u2" true (MkInfo "2" "b@x" "B" "") "github" demo_users =
      (Ok (id, u), db') /\ id = "u1" /\ roleWeight (Role u) = 2%Z.
Proof.
  destruct (login_never_demotes (fun s => s) demo_users_config 5 "u2" (MkInfo "2" "b@x" "B" "") "github" demo_users)
    as (id & u & db' & H1 & _ & H2); [by vm_compute|]. exists id, u, db'. split; [done|].
  assert (id = "u1") as ->.
  { assert ((findOrCreateUser (fun s => s) demo_users_config 5 "u2" true (MkInfo "2" "b@x" "B" "") "github" demo_users).1
      = Ok (id, u)) as H3 by by rewrite H1. vm_compute in H3. by injection H3 as <- _. }
  split; [done|]. vm_compute in H2. apply H2.
Defined.

(** A runtime whose decoder gives every body the fields it is named after. *)
Definition null_user (n : string) : Data := <["id" := VString n]> {["email" := VNil]}.
Definition null_runtime : GoRuntime := {|
  fmt_float64 _ := ""; fmt_float32 _ := ""; sscanf_float _ := None; regexp_compile _ := None;
  json_object s := Some (null_user s)
|}.
Definition github_mapping : UserMappingConfig := MkMapping "id" "email" "name" "avatar_url".

Lemma null_emails_share_an_account_witness :
  exists info info' u u' db1 db2,
    @ParseUserInfo null_runtime "7" github_mapping = Ok info /\ @ParseUserInfo null_runtime "8" github_mapping = Ok info' /\
    InfoID info = "7" /\ InfoID info' = "8" /\
    findOrCreateUser (fun s => s) demo_users_config 1 "u7" true info "github" ∅ = (Ok ("u7", u), db1) /\
    findOrCreateUser (fun s => s) demo_users_config 2 "u8" true info' "github" db1 = (Ok ("u7", u'), db2).
Proof.
  destruct (@null_emails_share_an_account null_runtime (fun s => s) demo_users_config github_mapping 1 2 "u7" "u8" "7" "8"
    "github" "github" (null_user "7") (null_user "8") ∅) as (info & info' & u & u' & db1 & db2 & H1 & H2 & H3 & H4);
    try (by vm_compute).
  exists info, info', u, u', db1, db2. split; [done|]. split; [done|].
  split; [vm_compute in H1; by injection H1 as <-|]. split; [vm_compute in H2; by injection H2 as <-|]. done.
Defined.

(** A provider that knows one user. *)
Definition demo_provider : OAuthProviderConfig :=
  MkProvider "GitHub" "" "" "" [] github_mapping "id" "secret" "".
Definition demo_net : ProviderAnswers := MkAnswers (fun _ code => Some code) (fun _ token => Some (200%Z, token)).
Definition demo_state : string := "00000000-0000-0000-0000-000000000000".
Definition other_state : string := "11111111-1111-1111-1111-111111111111".

Lemma callback_checks_no_state_witness :
  let callback st := @Callback null_runtime demo_jwt (fun s => s) demo_users_config "http://ui"
    {["github" := demo_provider]} demo_net 1 "u7" true (MkQuery "7" (st +:+ ":github") "" "" "" "http://elsewhere") ∅ in
  callback demo_state = callback other_state /\ succeeds (callback demo_state).1 = true.
Proof.
  split; [|by vm_compute].
  apply (@callback_checks_no_state null_runtime demo_jwt (fun s => s) demo_users_config "http://ui"
    {["github" := demo_provider]} demo_net 1 "u7" true "7" "github" "http://elsewhere"); done.
Defined.
