(* ===== verification/Users.v ===== *)
(** * User management (handlers/users.go, the profile of handlers/auth.go)

    Listing users page by page, changing roles, granting and revoking permissions, and the
    profile of a user. A failing database is an argument, and so are the fresh ids. The
    query builder is a parameter with its law for windows. *)

From Stdlib Require Import String Ascii.
From S2P Require Import Prelude GoString GoValue GoTime Api Auth.
Local Open Scope string_scope.
Local Open Scope list_scope.

Record ResourcePermission := MkPermission {
  ResourceType : string;
  ResourceID : string;
  PermUser : string;
  Actions : string
}.

Record AuditLog := MkAudit { AuditUser : string; AuditAction : string; AuditResource : string; AuditID : string }.

(** The tables; pipelines and workflows by id with their names. *)
Record Tables := MkTables {
  users : gmap string User;
  permissions : gmap string ResourcePermission;
  audit : list AuditLog;
  t_projects : gset string;
  t_workflows : gmap string string;
  t_pipelines : gmap string string
}.

Definition set_users (m : gmap string User) (db : Tables) : Tables :=
  MkTables m (permissions db) (audit db) (t_projects db) (t_workflows db) (t_pipelines db).
Definition set_permissions (m : gmap string ResourcePermission) (db : Tables) : Tables :=
  MkTables (users db) m (audit db) (t_projects db) (t_workflows db) (t_pipelines db).
Definition add_audit (a : AuditLog) (db : Tables) : Tables :=
  MkTables (users db) (permissions db) (audit db ++ [a]) (t_projects db) (t_workflows db) (t_pipelines db).

(** The check every handler starts with. *)
Definition is_admin (c : Ctx) : bool :=
  match ctx_role c with Some (VString r) => r =? UserRoleAdmin | _ => false end.

(** [getErrorMessage] chooses by the language; the message is given in English here. *)
Definition forbidden {A} : Reply A := Failure 403 ErrCodeForbidden "Admin access required".

(** [logAudit]: [None] is the panic of the type assertion on the user id. *)
Definition logAudit (c : Ctx) (action resource resourceID : string) (db : Tables) : option Tables :=
  match ctx_user c with
  | Some (VString u) => Some (add_audit (MkAudit u action resource resourceID) db)
  | _ => None
  end.

(** ** Listing *)

Fixpoint parse_digits (x : Z) (s : string) : option Z :=
  match s with
  | EmptyString => Some x
  | String c s' => match digit c with
                   | Some d => parse_digits (int64_wrap (int64_wrap (x * 10) + d)) s'
                   | None => None
                   end
  end.

Definition parseIntDefault (s : string) (def : Z) : Z :=
  match parse_digits 0 s with
  | Some n => if (n =? 0)%Z then def else n
  | None => def
  end.

Definition page_param (p : string) : Z := if p =? "" then 1 else parseIntDefault p 1.
Definition page_size_param (ps : string) : Z :=
  if ps =? "" then 20
  else let n := parseIntDefault ps 20 in if (100 <? n)%Z then 100 else n.

(** The window of a query: an offset and a limit. *)
Class Query := { window {A} : Z -> Z -> list A -> list A }.
Class QueryLaws `{Query} := {
  window_spec {A} (offset limit : Z) (l : list A) :
    (0 <= offset)%Z -> (0 <= limit)%Z -> window offset limit l = take (Z.to_nat limit) (drop (Z.to_nat offset) l)
}.

Record UserListResponse := MkUserList {
  ListedUsers : list (string * User * nat);
  Total : Z;
  Page : Z;
  PageSize : Z;
  TotalPages : Z
}.

Definition permission_count (id : string) (db : Tables) : nat :=
  List.length (filter (fun kv => PermUser kv.2 = id) (map_to_list (permissions db))).

(** [ListUsers]; [found] are the users that match the search and the role, newest first. *)
Definition ListUsers `{Query} (c : Ctx) (page_ page_size : string) (found : list (string * User)) (db : Tables)
  : Reply UserListResponse :=
  if negb (is_admin c) then forbidden
  else
    let page := page_param page_ in
    let pageSize := page_size_param page_size in
    let total := Z.of_nat (List.length found) in
    let us := window (int64_wrap (int64_wrap (page - 1) * pageSize)) pageSize found in
    let totalPages := (Z.quot total pageSize + if (0 <? Z.rem total pageSize)%Z then 1 else 0)%Z in
    Success 200 (MkUserList ((fun '(id, u) => (id, u, permission_count id db)) <$> us) total page pageSize totalPages).

(** ** Roles and permissions *)

Definition GetUser (c : Ctx) (id : string) (db : Tables) : Reply (User * list ResourcePermission) :=
  if negb (is_admin c) then forbidden
  else match users db !! id with
       | None => Failure 404 ErrCodeNotFound "User not found"
       | Some u => Success 200 (u, snd <$> filter (fun kv => PermUser kv.2 = id) (map_to_list (permissions db)))
       end.

Definition with_role (r : string) (u : User) : User :=
  MkUser (Email u) (UserName u) (Provider u) (ProviderID u) r (AvatarURL u) (LastLogin u).

(** [currentUserID == targetUserID]. *)
Definition is_self (c : Ctx) (target : string) : bool :=
  match ctx_user c with Some (VString u) => u =? target | _ => false end.

Definition validRoles : list string := [UserRoleAdmin; UserRoleOperator; UserRoleViewer].

(** [req] is the role asked for, if the body binds. *)
Definition UpdateUserRole (c : Ctx) (saved : bool) (target : string) (req : option string) (db : Tables)
  : Reply User * Tables :=
  if negb (is_admin c) then (forbidden, db)
  else if is_self c target
  then (Failure 400 ErrCodeBadRequest "Cannot modify your own role", db)
  else
    match req with
    | None => (Failure 400 ErrCodeInvalidJSON "", db)
    | Some role =>
        if negb (existsb (String.eqb role) validRoles)
        then (Failure 400 ErrCodeValidationFailed "Invalid role. (admin, operator, viewer)", db)
        else
          match users db !! target with
          | None => (Failure 404 ErrCodeNotFound "User not found", db)
          | Some u =>
              if negb saved then (Failure 500 ErrCodeDatabaseError "Failed to update role", db)
              else
                let u := with_role role u in
                let db := set_users (<[target := u]> (users db)) db in
                match logAudit c "user_role_update" "user" target db with
                | Some db => (Success 200 u, db)
                | None => (HandlerPanic, db)
                end
          end
    end.

Definition checkResourceExists (resourceType resourceID : string) (db : Tables) : bool :=
  if resourceType =? "project" then bool_decide (resourceID ∈ t_projects db)
  else if resourceType =? "workflow" then bool_decide (is_Some (t_workflows db !! resourceID))
  else if resourceType =? "pipeline" then bool_decide (is_Some (t_pipelines db !! resourceID))
  else false.

Definition validTypes : list string := ["provider"; "group"; "pipeline"].

Definition same_resource (t r u : string) (p : ResourcePermission) : bool :=
  (ResourceType p =? t) && (ResourceID p =? r) && (PermUser p =? u).

Definition CreatePermission (c : Ctx) (uuid : string) (saved : bool) (req : option ResourcePermission) (db : Tables)
  : Reply ResourcePermission * Tables :=
  if negb (is_admin c) then (forbidden, db)
  else
    match req with
    | None => (Failure 400 ErrCodeInvalidJSON "", db)
    | Some req =>
        if negb (existsb (String.eqb (ResourceType req)) validTypes)
        then (Failure 400 ErrCodeValidationFailed "Invalid resource type. (provider, group, pipeline)", db)
        else if negb (bool_decide (is_Some (users db !! PermUser req)))
        then (Failure 400 ErrCodeNotFound "User not found", db)
        else if negb (checkResourceExists (ResourceType req) (ResourceID req) db)
        then (Failure 400 ErrCodeNotFound "Resource not found", db)
        else
          match list_find (fun kv => same_resource (ResourceType req) (ResourceID req) (PermUser req) kv.2 = true)
                  (map_to_list (permissions db)) with
          | Some (_, (id, p)) =>
              if negb saved then (Failure 500 ErrCodeDatabaseError "Failed to update permission", db)
              else
                let p := MkPermission (ResourceType p) (ResourceID p) (PermUser p) (Actions req) in
                (Success 200 p, set_permissions (<[id := p]> (permissions db)) db)
          | None =>
              if negb saved then (Failure 500 ErrCodeDatabaseError "Failed to create permission", db)
              else
                let db := set_permissions (<[uuid := req]> (permissions db)) db in
                match logAudit c "permission_create" (ResourceType req) (ResourceID req) db with
                | Some db => (Success 201 req, db)
                | None => (HandlerPanic, db)
                end
          end
    end.

Definition DeletePermission (c : Ctx) (saved : bool) (id : string) (db : Tables) : Reply unit * Tables :=
  if negb (is_admin c) then (forbidden, db)
  else
    match permissions db !! id with
    | None => (Failure 404 ErrCodeNotFound "Permission not found", db)
    | Some p =>
        if negb saved then (Failure 500 ErrCodeDatabaseError "Failed to delete permission", db)
        else
          let db := set_permissions (delete id (permissions db)) db in
          match logAudit c "permission_delete" (ResourceType p) (ResourceID p) db with
          | Some db => (Success 200 tt, db)
          | None => (HandlerPanic, db)
          end
    end.

(** [ListPermissions]; an empty filter matches everything. *)
Definition ListPermissions (c : Ctx) (t r u : string) (db : Tables) : Reply (list ResourcePermission) :=
  let matches f x := (f =? "") || (x =? f) in
  if negb (is_admin c) then forbidden
  else Success 200 (filter (fun p => matches t (ResourceType p) && matches r (ResourceID p) && matches u (PermUser p) = true)
                      (snd <$> map_to_list (permissions db))).

(** ** The profile (handlers/auth.go) *)

Definition splitActions (actions : string) : list string :=
  if actions =? "" then [] else TrimSpace <$> Split actions ",".

(** The permissions of a role. *)
Definition getRoleInfo (role : string) : list string :=
  if role =? UserRoleAdmin then ["read"; "write"; "execute"; "delete"; "admin"; "user_management"]
  else if role =? UserRoleOperator then ["read"; "write"; "execute"]
  else ["read"].

(** A resource of the profile: id, name and actions. *)
Record Access := MkAccess { AccessID : string; AccessName : string; AccessActions : list string }.

Record UserProfile := MkProfile {
  ProfileUser : User;
  ProfilePipelines : list Access;
  ProfileWorkflows : list Access;
  ProfileRole : list string
}.

Definition all_actions : list string := ["read"; "write"; "execute"; "delete"; "admin"].

Definition granted (t : string) (table : gmap string string) (perms : list ResourcePermission) : list Access :=
  omap (fun p => if ResourceType p =? t
                 then (fun name => MkAccess (ResourceID p) name (splitActions (Actions p))) <$> table !! ResourceID p
                 else None) perms.

Definition GetUserProfile (c : Ctx) (db : Tables) : Reply UserProfile :=
  match ctx_user c with
  | None => Failure 401 ErrCodeUnauthorized "Not authenticated"
  | Some v =>
      match match v with VString id => (fun u => (id, u)) <$> users db !! id | _ => None end with
      | None => Failure 404 ErrCodeNotFound "User not found"
      | Some (id, u) =>
          let perms := snd <$> filter (fun kv => PermUser kv.2 = id) (map_to_list (permissions db)) in
          let '(ps, ws) :=
            if Role u =? UserRoleAdmin
            then ((fun '(i, n) => MkAccess i n all_actions) <$> map_to_list (t_pipelines db),
                  (fun '(i, n) => MkAccess i n all_actions) <$> map_to_list (t_workflows db))
            else (granted "pipeline" (t_pipelines db) perms, granted "workflow" (t_workflows db) perms) in
          Success 200 (MkProfile u ps ws (getRoleInfo (Role u)))
      end
  end.

(** ** Pages *)

(** The page size a handler works with is never zero and at most a hundred. *)
Lemma page_size_bounds ps : page_size_param ps <> 0%Z /\ (page_size_param ps <= 100)%Z.
Proof.
  unfold page_size_param, parseIntDefault. destruct (ps =? ""); [lia|].
  destruct (parse_digits 0 ps) as [n|]; [|simpl; lia].
  destruct (Z.eqb_spec n 0); [simpl; lia|]. destruct (Z.ltb_spec 100 n); lia.
Qed.

Lemma take_drop_chunks {A} (n k : nat) (l : list A) :
  (List.length l <= k * n)%nat ->
  concat ((fun i => take n (drop (i * n) l)) <$> seq 0 k) = l.
Proof.
  revert l. induction k as [|k IH]; intros l Hl; simpl in *.
  { destruct l; [done|simpl in Hl; lia]. }
  transitivity (take n l ++ drop n l); [|apply take_drop]. f_equal.
  rewrite <- (IH (drop n l)) by (rewrite length_drop; lia). f_equal.
  rewrite <- fmap_S_seq, <- list_fmap_compose.
  apply list_fmap_ext. intros i j _. unfold compose. rewrite drop_drop. do 2 f_equal; simpl; lia.
Qed.

(** The users of a page, without the counts. *)
Definition listed (r : Reply UserListResponse) : list (string * User) :=
  match r with Success _ d => fst <$> ListedUsers d | _ => [] end.

(** The pages show every user once: with a positive page size, the pages from the first to
    the last one that the response announces are together the list of the users found. *)
Theorem pages_cover_all_users `{QueryLaws} (c : Ctx) (size : string) (found : list (string * User)) (db : Tables)
  (page : nat -> string) :
  is_admin c = true -> (0 < page_size_param size)%Z -> (Z.of_nat (List.length found) < 2 ^ 32)%Z ->
  (forall i, (Z.of_nat i <= Z.of_nat (List.length found))%Z -> page_param (page i) = Z.of_nat (S i)) ->
  exists d, ListUsers c (page 0) size found db = Success 200 d /\
    (TotalPages d * PageSize d >= Total d)%Z /\
    concat ((fun i => listed (ListUsers c (page i) size found db)) <$> seq 0 (Z.to_nat (TotalPages d))) = found.
Proof.
  intros Ha Hs Hlen Hp. unfold ListUsers. rewrite Ha. simpl. eexists. split; [done|]. simpl.
  set (n := page_size_param size) in *. set (total := Z.of_nat (List.length found)) in *.
  set (pages := (Z.quot total n + _)%Z).
  pose proof (page_size_bounds size) as [_ Hn]. fold n in Hn.
  assert (total <= pages * n /\ 0 <= pages <= total)%Z as [Hcov Hpos].
  { subst pages. pose proof (Z.quot_rem' total n) as Hq. pose proof (Z.rem_bound_pos total n) as Hr.
    assert (0 <= Z.quot total n)%Z by (apply Z.quot_pos; lia).
    destruct (Z.ltb_spec 0 (Z.rem total n)); nia. }
  split; [lia|].
  transitivity (concat ((fun i => take (Z.to_nat n) (drop (i * Z.to_nat n) found)) <$> seq 0 (Z.to_nat pages))).
  - f_equal. apply list_fmap_ext. intros k i Hi. apply lookup_seq in Hi as [-> Hk].
    rewrite Hp by lia. rewrite <- list_fmap_compose. rewrite (list_fmap_ext _ id) by (by intros ? []).
    rewrite list_fmap_id. replace (Z.of_nat (S (0 + k)) - 1)%Z with (Z.of_nat k) by lia.
    assert (0 <= Z.of_nat k < 2 ^ 32)%Z by lia. assert (0 <= Z.of_nat k * n <= 2 ^ 32 * 100)%Z by nia.
    rewrite (int64_wrap_small (Z.of_nat k)), int64_wrap_small by (unfold int64_ok; lia).
    rewrite window_spec by lia. by rewrite Z2Nat.inj_mul, Nat2Z.id by lia.
  - apply take_drop_chunks. nia.
Qed.

(** A query builder that cuts windows out of lists, and page numbers in decimal. *)
#[local] Instance plain_query : Query := {| window A o n l := take (Z.to_nat n) (drop (Z.to_nat o) l) |}.
#[local] Instance plain_query_laws : QueryLaws.
Proof. by split. Qed.

Definition demo_ctx (u : string) : Ctx := MkCtx (Some (VString u)) (Some (VString "admin")).
Definition demo_user (email role : string) : User := MkUser email "" "github" "" role "" None.
Definition demo_tables : Tables :=
  MkTables {["a" := demo_user "a@x" "admin"; "b" := demo_user "b@x" "admin"]} ∅ [] ∅ ∅ {["p" := "orders"]}.
Definition three_users : list (string * User) :=
  [("a", demo_user "a@x" "admin"); ("b", demo_user "b@x" "admin"); ("c", demo_user "c@x" "viewer")].
Definition demo_page (i : nat) : string := nth i ["1"; "2"; "3"; "4"] "".

Lemma pages_cover_all_users_witness :
  exists d, ListUsers (demo_ctx "a") "1" "2" three_users demo_tables = Success 200 d /\ TotalPages d = 2%Z /\
    listed (ListUsers (demo_ctx "a") "1" "2" three_users demo_tables) ++
    listed (ListUsers (demo_ctx "a") "2" "2" three_users demo_tables) = three_users.
Proof.
  destruct (pages_cover_all_users (demo_ctx "a") "2" three_users demo_tables demo_page) as (d & H1 & _ & H2).
  - done.
  - by vm_compute.
  - by vm_compute.
  - intros i Hi. simpl in Hi. do 4 (destruct i as [|i]; [by vm_compute|]). lia.
  - exists d. split; [done|]. assert (TotalPages d = 2%Z) as Ht by (vm_compute in H1; by injection H1 as <-).
    split; [done|]. rewrite Ht in H2. etrans; [|exact H2]. by vm_compute.
Defined.

(** ** Users and permissions stay consistent *)

Inductive users_step : Tables -> Tables -> Prop :=
| step_login ToLower cfg now uuid saved info provider r us db :
    findOrCreateUser ToLower cfg now uuid saved info provider (users db) = (r, us) -> users_step db (set_users us db)
| step_role c saved target req r db db' : UpdateUserRole c saved target req db = (r, db') -> users_step db db'
| step_grant c uuid saved req r db db' : CreatePermission c uuid saved req db = (r, db') -> users_step db db'
| step_revoke c saved id r db db' : DeletePermission c saved id db = (r, db') -> users_step db db'.

(** Known roles; permissions for pipelines only, at most one for a user and a resource. *)
Record tables_ok (db : Tables) : Prop := {
  ok_roles : map_Forall (fun _ u => Role u ∈ validRoles) (users db);
  ok_types : map_Forall (fun _ p => ResourceType p = "pipeline") (permissions db);
  ok_unique : forall i p j q, permissions db !! i = Some p -> permissions db !! j = Some q ->
    ResourceType p = ResourceType q -> ResourceID p = ResourceID q -> PermUser p = PermUser q -> i = j
}.

Lemma logAudit_ok c a r i db db' : logAudit c a r i db = Some db' -> tables_ok db -> tables_ok db'.
Proof. unfold logAudit. intros Hl [H1 H2 H3]. repeat case_match; simplify_eq. by split. Qed.

Lemma getRole_valid ToLower cfg e : GetRole ToLower cfg e ∈ validRoles.
Proof. unfold GetRole, validRoles. repeat case_match; set_solver. Qed.

Lemma set_users_ok us db : tables_ok db -> map_Forall (fun _ u => Role u ∈ validRoles) us -> tables_ok (set_users us db).
Proof. intros [? ? ?] ?. by split. Qed.

Lemma login_ok ToLower cfg now uuid saved info provider r us db :
  tables_ok db -> findOrCreateUser ToLower cfg now uuid saved info provider (users db) = (r, us) ->
  tables_ok (set_users us db).
Proof.
  intros Hok Hl. apply set_users_ok; [done|]. pose proof (ok_roles _ Hok) as Hr. unfold findOrCreateUser in Hl.
  destruct (user_by_email _ _) as [[id u]|] eqn:E.
  - apply user_by_email_spec in E as [Hu _]. destruct saved; simplify_eq; [|done].
    apply map_Forall_insert_2; [|done]. simpl. destruct (shouldUpgradeRole _ _); [apply getRole_valid|by apply (Hr id)].
  - destruct saved; simplify_eq; [|done]. apply map_Forall_insert_2; [apply getRole_valid|done].
Qed.

Lemma update_role_ok c saved target req r db db' :
  tables_ok db -> UpdateUserRole c saved target req db = (r, db') -> tables_ok db'.
Proof.
  intros Hok. unfold UpdateUserRole. destruct (negb (is_admin c)); [by intros; simplify_eq|].
  destruct (is_self c target); [by intros; simplify_eq|]. destruct req as [role|]; [|by intros; simplify_eq].
  destruct (existsb _ _) eqn:Hv; simpl; [|by intros; simplify_eq].
  destruct (users db !! target) as [u|]; [|by intros; simplify_eq].
  destruct saved; simpl; [|by intros; simplify_eq].
  assert (tables_ok (set_users (<[target := with_role role u]> (users db)) db)) as Hok'.
  { apply set_users_ok; [done|]. apply map_Forall_insert_2; [|apply Hok]. simpl.
    apply existsb_exists in Hv as (x & Hx & ->%String.eqb_eq). by apply list_elem_of_In. }
  destruct (logAudit _ _ _ _ _) eqn:El; intros; simplify_eq; [by eapply logAudit_ok|done].
Qed.

Lemma exists_only_pipelines t r db :
  existsb (String.eqb t) validTypes = true -> checkResourceExists t r db = true -> t = "pipeline".
Proof.
  unfold validTypes, checkResourceExists. simpl.
  destruct (String.eqb_spec t "provider") as [->|]; [done|]. destruct (String.eqb_spec t "group") as [->|]; [done|].
  by destruct (String.eqb_spec t "pipeline").
Qed.

Lemma same_resource_spec t r u p :
  same_resource t r u p = true <-> ResourceType p = t /\ ResourceID p = r /\ PermUser p = u.
Proof. unfold same_resource. rewrite !andb_true_iff, !String.eqb_eq. tauto. Qed.

Lemma create_permission_ok c uuid saved req r db db' :
  tables_ok db -> CreatePermission c uuid saved req db = (r, db') -> tables_ok db'.
Proof.
  intros Hok. unfold CreatePermission. destruct (negb (is_admin c)); [by intros; simplify_eq|].
  destruct req as [req|]; [|by intros; simplify_eq].
  destruct (existsb _ _) eqn:Hv; simpl; [|by intros; simplify_eq].
  destruct (bool_decide _); simpl; [|by intros; simplify_eq].
  destruct (checkResourceExists _ _ _) eqn:Hc; simpl; [|by intros; simplify_eq].
  pose proof (exists_only_pipelines _ _ _ Hv Hc) as Ht. destruct Hok as [H1 H2 H3].
  destruct (list_find _ _) as [[n [id p]]|] eqn:Hf.
  - apply list_find_Some in Hf as (Hn & (Hpt & Hpr & Hpu)%same_resource_spec & _). simpl in *.
    apply list_elem_of_lookup_2, elem_of_map_to_list in Hn.
    destruct saved; simpl; intros; simplify_eq; [|by split].
    split; [done| |].
    + apply map_Forall_insert_2; [|done]. simpl. by apply (H2 id).
    + simpl. intros i q j q' Hi Hj Et Er Eu.
      assert (forall k x, <[id := MkPermission (ResourceType p) (ResourceID p) (PermUser p) (Actions req)]> (permissions db) !! k = Some x ->
        exists y, permissions db !! k = Some y /\ ResourceType y = ResourceType x /\ ResourceID y = ResourceID x /\
          PermUser y = PermUser x) as Hold.
      { intros k x [[<- <-]|[_ Hk]]%lookup_insert_Some; [by exists p|by exists x]. }
      destruct (Hold _ _ Hi) as (y & Hy & ? & ? & ?), (Hold _ _ Hj) as (y' & Hy' & ? & ? & ?).
      apply (H3 i y j y'); congruence.
  - assert (tables_ok (set_permissions (<[uuid := req]> (permissions db)) db)) as Hok'.
    { apply list_find_None in Hf. rewrite Forall_forall in Hf.
      assert (forall k x, permissions db !! k = Some x -> ResourceType req = ResourceType x ->
        ResourceID req = ResourceID x -> PermUser req = PermUser x -> False) as Hno.
      { intros k x Hk ? ? ?. apply (Hf (k, x)); [by apply elem_of_map_to_list|]. by apply same_resource_spec. }
      split; [done| |].
      - by apply map_Forall_insert_2.
      - simpl. intros i q j q' [[<- <-]|[Hi Hq]]%lookup_insert_Some [[<- <-]|[Hj Hq']]%lookup_insert_Some Et Er Eu.
        + done.
        + by destruct (Hno j q').
        + by destruct (Hno i q).
        + by apply (H3 i q j q'). }
    destruct saved; simpl; [|by intros; simplify_eq].
    destruct (logAudit _ _ _ _ _) eqn:El; intros; simplify_eq; [by eapply logAudit_ok|done].
Qed.

Lemma delete_permission_ok c saved id r db db' :
  tables_ok db -> DeletePermission c saved id db = (r, db') -> tables_ok db'.
Proof.
  intros Hok. unfold DeletePermission. destruct (negb (is_admin c)); [by intros; simplify_eq|].
  destruct (permissions db !! id) as [p|]; [|by intros; simplify_eq]. destruct saved; simpl; [|by intros; simplify_eq].
  assert (tables_ok (set_permissions (delete id (permissions db)) db)) as Hok'.
  { destruct Hok as [H1 H2 H3]. split; [done|by apply map_Forall_delete|]. simpl.
    intros i q j q' [_ Hi]%lookup_delete_Some [_ Hj]%lookup_delete_Some. by apply H3. }
  destruct (logAudit _ _ _ _ _) eqn:El; intros; simplify_eq; [by eapply logAudit_ok|done].
Qed.

Lemma users_step_ok db db' : tables_ok db -> users_step db db' -> tables_ok db'.
Proof.
  intros Hok Hs. destruct Hs.
  - by eapply login_ok.
  - by eapply update_role_ok.
  - by eapply create_permission_ok.
  - by eapply delete_permission_ok.
Qed.

(** What a step leaves alone, and where the permissions after it come from. *)
Record users_frame (db db' : Tables) : Prop := {
  fr_users : dom (users db) ⊆ dom (users db');
  fr_resources : forall t r, checkResourceExists t r db' = checkResourceExists t r db;
  fr_permissions : forall i p, permissions db' !! i = Some p ->
    (exists j q, permissions db !! j = Some q /\ ResourceType q = ResourceType p /\
       ResourceID q = ResourceID p /\ PermUser q = PermUser p) \/
    (is_Some (users db !! PermUser p) /\ checkResourceExists (ResourceType p) (ResourceID p) db = true)
}.

#[export] Instance users_frame_refl : Reflexive users_frame.
Proof. intros db. split; [done|done|]. intros i p Hp. left. by exists i, p. Qed.

Lemma frame_audit c a r i db db1 db' :
  logAudit c a r i db1 = Some db' -> users_frame db db1 -> users_frame db db'.
Proof. unfold logAudit. intros Hl [H1 H2 H3]. repeat case_match; simplify_eq. by split. Qed.

Lemma frame_users us db : dom (users db) ⊆ dom us -> users_frame db (set_users us db).
Proof. intros Hd. split; [done|done|]. intros i p Hp. left. by exists i, p. Qed.

Lemma login_frame ToLower cfg now uuid saved info provider r us db :
  findOrCreateUser ToLower cfg now uuid saved info provider (users db) = (r, us) ->
  users_frame db (set_users us db).
Proof.
  intros Hl. apply frame_users. unfold findOrCreateUser in Hl.
  destruct (user_by_email _ _) as [[id u]|]; destruct saved; simplify_eq; set_solver.
Qed.

Lemma update_role_frame c saved target req r db db' :
  UpdateUserRole c saved target req db = (r, db') -> users_frame db db'.
Proof.
  unfold UpdateUserRole. repeat (case_match; [by intros; simplify_eq|]).
  destruct req as [role|]; [|by intros; simplify_eq]. case_match; [by intros; simplify_eq|].
  destruct (users db !! target) as [u|]; [|by intros; simplify_eq].
  destruct saved; simpl; [|by intros; simplify_eq].
  assert (users_frame db (set_users (<[target := with_role role u]> (users db)) db)) as Hf
    by (apply frame_users; set_solver).
  destruct (logAudit _ _ _ _ _) eqn:El; intros; simplify_eq; [by eapply frame_audit|done].
Qed.

Lemma create_permission_frame c uuid saved req r db db' :
  CreatePermission c uuid saved req db = (r, db') -> users_frame db db'.
Proof.
  unfold CreatePermission. destruct (negb (is_admin c)); [by intros; simplify_eq|].
  destruct req as [req|]; [|by intros; simplify_eq].
  destruct (existsb _ _); simpl; [|by intros; simplify_eq].
  case_bool_decide as Hu; simpl; [|by intros; simplify_eq].
  destruct (checkResourceExists _ _ _) eqn:Hc; simpl; [|by intros; simplify_eq].
  destruct (list_find _ _) as [[n [id p]]|] eqn:Hf.
  - apply list_find_Some in Hf as (Hn & _ & _).
    apply list_elem_of_lookup_2, elem_of_map_to_list in Hn.
    destruct saved; simpl; intros; simplify_eq; [|done]. split; [done|done|].
    simpl. intros i q [[<- <-]|[_ Hq]]%lookup_insert_Some; left; [by exists id, p|by exists i, q].
  - assert (users_frame db (set_permissions (<[uuid := req]> (permissions db)) db)) as Hf'.
    { split; [done|done|]. simpl. intros i q [[<- <-]|[_ Hq]]%lookup_insert_Some; [by right|].
      left. by exists i, q. }
    destruct saved; simpl; [|by intros; simplify_eq].
    destruct (logAudit _ _ _ _ _) eqn:El; intros; simplify_eq; [by eapply frame_audit|done].
Qed.

Lemma delete_permission_frame c saved id r db db' :
  DeletePermission c saved id db = (r, db') -> users_frame db db'.
Proof.
  unfold DeletePermission. destruct (negb (is_admin c)); [by intros; simplify_eq|].
  destruct (permissions db !! id) as [p|]; [|by intros; simplify_eq]. destruct saved; simpl; [|by intros; simplify_eq].
  assert (users_frame db (set_permissions (delete id (permissions db)) db)) as Hf.
  { split; [done|done|]. simpl. intros i q [_ Hq]%lookup_delete_Some. left. by exists i, q. }
  destruct (logAudit _ _ _ _ _) eqn:El; intros; simplify_eq; [by eapply frame_audit|done].
Qed.

Lemma users_step_frame db db' : users_step db db' -> users_frame db db'.
Proof.
  destruct 1; eauto using login_frame, update_role_frame, create_permission_frame, delete_permission_frame.
Qed.

(** Every permission is a user's, for a resource, and both exist. *)
Definition grants_ok (db : Tables) : Prop :=
  map_Forall (fun _ p => is_Some (users db !! PermUser p) /\
    checkResourceExists (ResourceType p) (ResourceID p) db = true) (permissions db).

Lemma users_step_grants db db' : grants_ok db -> users_step db db' -> grants_ok db'.
Proof.
  intros Hg [Hu Hr Hp]%users_step_frame i p Hi. rewrite Hr, <- elem_of_dom.
  destruct (Hp i p Hi) as [(j & q & Hq & <- & <- & <-)|[Hs ?]].
  - destruct (Hg j q Hq) as [Hs ?]. split; [apply Hu; by apply elem_of_dom|done].
  - split; [apply Hu; by apply elem_of_dom|done].
Qed.

Lemma users_steps_ok db db' :
  tables_ok db -> grants_ok db -> rtc users_step db db' -> tables_ok db' /\ grants_ok db'.
Proof.
  intros Ht Hg Hs. revert Ht Hg. induction Hs as [|a b c Hab _ IH]; intros Ht Hg; [done|].
  apply IH; [by eapply users_step_ok|by eapply users_step_grants].
Qed.

(** C30: Start with no permissions and with users whose roles are known. Through every sequence
    of logins, role changes, grants and revocations by whomever, with writes that may fail,
    the roles are known ones, every permission is of a user that exists and for a resource
    that exists, and there is at most one permission for a user and a resource. *)
Theorem user_tables_are_consistent (db db' : Tables) :
  map_Forall (fun _ u => Role u ∈ [UserRoleAdmin; UserRoleOperator; UserRoleViewer]) (users db) ->
  permissions db = ∅ -> rtc users_step db db' ->
  map_Forall (fun _ u => Role u ∈ [UserRoleAdmin; UserRoleOperator; UserRoleViewer]) (users db') /\
  map_Forall (fun _ p => is_Some (users db' !! PermUser p) /\
    checkResourceExists (ResourceType p) (ResourceID p) db' = true) (permissions db') /\
  forall i p j q, permissions db' !! i = Some p -> permissions db' !! j = Some q ->
    ResourceType p = ResourceType q -> ResourceID p = ResourceID q -> PermUser p = PermUser q -> i = j.
Proof.
  intros Hr Hp Hs. destruct (users_steps_ok db db') as [[? ? ?] ?]; [| |done|done].
  - split; [done|..]; rewrite Hp; [apply map_Forall_empty|done].
  - unfold grants_ok. rewrite Hp. apply map_Forall_empty.
Qed.

Definition demo_grant (actions : string) : ResourcePermission := MkPermission "pipeline" "p" "b" actions.
Definition grant (uuid actions : string) (db : Tables) : Tables :=
  (CreatePermission (demo_ctx "a") uuid true (Some (demo_grant actions)) db).2.

(** Granting twice changes the first permission. *)
Lemma user_tables_are_consistent_witness :
  let db := grant "g2" "read,write" (grant "g1" "read" demo_tables) in
  permissions db = {["g1" := demo_grant "read,write"]} /\
  map_Forall (fun _ p => is_Some (users db !! PermUser p) /\
    checkResourceExists (ResourceType p) (ResourceID p) db = true) (permissions db).
Proof.
  split; [by vm_compute|].
  apply (user_tables_are_consistent demo_tables).
  - apply (bool_decide_eq_true_1 _). by vm_compute.
  - done.
  - eapply rtc_l; [eapply step_grant, surjective_pairing|]. apply rtc_once. eapply step_grant, surjective_pairing.
Defined.

(** All permissions are for pipelines: [CreatePermission] accepts the types provider, group and
    pipeline, and [checkResourceExists] knows project, workflow and pipeline, so that a grant
    of any other type is refused. The comments of the request and of the table name projects,
    workflows and groups. *)
Theorem grants_are_for_pipelines (db db' : Tables) :
  tables_ok db -> rtc users_step db db' ->
  map_Forall (fun _ p => ResourceType p = "pipeline") (permissions db').
Proof.
  intros Hok Hs. assert (tables_ok db') as [? ? ?]; [|done].
  induction Hs as [|a b c Hab _ IH]; [done|]. by eapply IH, users_step_ok.
Qed.

(** The profile of a user who is no administrator shows no workflows. *)
Theorem profiles_show_no_workflows db0 db c st d :
  tables_ok db0 -> rtc users_step db0 db -> GetUserProfile c db = Success st d ->
  Role (ProfileUser d) <> UserRoleAdmin -> ProfileWorkflows d = [].
Proof.
  intros Hok Hs. assert (tables_ok db) as [_ Ht _].
  { induction Hs as [|x y z Hxy _ IH]; [done|]. by eapply IH, users_step_ok. }
  unfold GetUserProfile. destruct (ctx_user c) as [v|]; [|done].
  destruct (match v with VString _ => _ | _ => _ end) as [[id u]|]; [|done].
  destruct (String.eqb_spec (Role u) UserRoleAdmin) as [E|E].
  { intros [= _ <-] Hr. by destruct Hr. }
  intros [= _ <-] _. simpl. unfold granted.
  assert (forall l, Forall (fun p => ResourceType p = "pipeline") l ->
    omap (fun p => if ResourceType p =? "workflow"
                   then (fun name => MkAccess (ResourceID p) name (splitActions (Actions p))) <$> t_workflows db !! ResourceID p
                   else None) l = []) as Hnone.
  { induction 1 as [|p l Hp _ IH]; [done|]. csimpl. by rewrite Hp. }
  apply Hnone, Forall_forall. intros p (kv & -> & (_ & Hin)%list_elem_of_filter)%list_elem_of_fmap.
  destruct kv as [i p]. apply elem_of_map_to_list in Hin. by apply (Ht i).
Qed.

(** Two administrators can demote each other with the tokens they hold, and then there is
    none. *)
Example administrators_can_vanish :
  let db1 := (UpdateUserRole (demo_ctx "a") true "b" (Some "viewer") demo_tables).2 in
  let db2 := (UpdateUserRole (demo_ctx "b") true "a" (Some "viewer") db1).2 in
  Role <$> users db2 = {["a" := "viewer"; "b" := "viewer"]}.
Proof. by vm_compute. Qed.

(** A page number beyond the integers wraps around. *)
Example page_number_wraps : page_param "18446744073709551615" = (-1)%Z.
Proof. by vm_compute. Qed.

(** ** Searching users, and the list of roles *)

Record UserSearchResult := MkSearchResult { FoundID : string; FoundEmail : string; FoundName : string; FoundAvatar : string }.

Definition search_limit (l : string) : Z :=
  if l =? "" then 10 else let n := parseIntDefault l 10 in if (20 <? n)%Z then 20 else n.

(** [SearchUsers]; [found] are the users whose address or name is like the query, by name. *)
Definition SearchUsers `{Query} (q limit : string) (found : list (string * User)) : Reply (list UserSearchResult) :=
  if q =? "" then Success 200 []
  else Success 200 ((fun '(id, u) => MkSearchResult id (Email u) (UserName u) (AvatarURL u)) <$> window 0 (search_limit limit) found).

Record RoleInfo := MkRoleInfo { InfoRole : string; InfoName : string; InfoDescription : string; InfoPermissions : list string }.

Definition GetRoles : Reply (list RoleInfo) := Success 200
  [MkRoleInfo UserRoleAdmin "관리자" "모든 리소스에 대한 전체 권한" ["read"; "write"; "execute"; "delete"; "admin"; "user_management"];
   MkRoleInfo UserRoleOperator "운영자" "파이프라인 생성/수정 및 실행 권한" ["read"; "write"; "execute"];
   MkRoleInfo UserRoleViewer "뷰어" "읽기 전용 접근" ["read"]].

(** The list of roles agrees with the rest: it names exactly the roles that can be given, each
    with the permissions that the profile of a user with this role shows. *)
Theorem roles_agree : exists l, GetRoles = Success 200 l /\ InfoRole <$> l = validRoles /\
  Forall (fun r => InfoPermissions r = getRoleInfo (InfoRole r)) l.
Proof. eexists. split; [reflexivity|]. split; [reflexivity|]. repeat constructor. Qed.

(** A search shows at most twenty users, the first by name, unless its limit is negative. *)
Theorem search_is_bounded `{QueryLaws} q limit found :
  (0 <= search_limit limit)%Z ->
  exists l, SearchUsers q limit found = Success 200 l /\ (List.length l <= 20)%nat /\
    (q <> "" -> FoundID <$> l = take (Z.to_nat (search_limit limit)) found.*1).
Proof.
  intros Hl. unfold SearchUsers. destruct (String.eqb_spec q "") as [->|Hq]; [by exists []; split; [|split; [cbn; lia|]]|].
  eexists. split; [done|]. rewrite window_spec by (done || lia). rewrite drop_0. split.
  - rewrite length_fmap, length_take. enough (search_limit limit <= 20)%Z by lia.
    unfold search_limit in *. destruct (limit =? ""); [lia|]. destruct (Z.ltb_spec 20 (parseIntDefault limit 10)); lia.
  - intros _. rewrite <- list_fmap_compose, fmap_take. f_equal. apply list_fmap_ext. by intros i [id u] _.
Qed.

(** A limit of nineteen digits can overflow to a negative one, which the database takes for none. *)
Example search_limit_overflows : (search_limit "9223372036854775808" < 0)%Z.
Proof. vm_compute. reflexivity. Qed.
