(* ===== verification/ActorKinds.v ===== *)
(** * The kinds of actors (pkg/actor/types, pkg/actor/factory.go, pkg/adapter/bento/config.go)

    Sources, transforms, routers and sinks as actors, in a plain form and in one that is
    meant to delegate to the Bento library, the factory that chooses between them, and
    how they send records to each other through the actor system. A handler gives its
    result, the new state of the actor and its effect on the system. *)

From Stdlib Require Import String SpecFloat.
From stdpp Require Import relations.
From S2P Require Import Prelude GoString GoValue GoTime Mailbox Supervisor ActorSystem.
Local Open Scope string_scope.
Local Open Scope list_scope.

(** ** Configurations for Bento *)

Definition as_strings (v : option GoValue) : option (list string) :=
  match v with Some (VStrings l) => Some l | _ => None end.

Definition nl : string := bytes [10].
(** Lines of a text, each with its line feed. *)
Definition text (lines : list string) : string := foldr (fun l t => l +:+ nl +:+ t) "" lines.

Definition getString (config : Data) (key defaultVal : string) : string :=
  default defaultVal (as_string (config !! key)).

Definition getStringSlice `{GoRuntime} (config : Data) (key : string) (defaultVal : list string)
  : list string :=
  match config !! key with
  | Some (VStrings v) => v
  | Some (VSlice v) => map fmt_v v
  | _ => defaultVal
  end.

Definition joinStrings (strs : list string) : string := Join (map quoted strs) ", ".

Section Bento.
Context `{GoRuntime}.

Definition buildKafkaInputSpec (config : Data) : res string string :=
  let addresses := getStringSlice config "brokers" ["localhost:9092"] in
  let topics := getStringSlice config "topics" ["test"] in
  let consumerGroup := getString config "group_id" "bento-consumer" in
  Ok (text ["input:"; "  kafka:"; "    addresses: [" +:+ joinStrings addresses +:+ "]";
            "    topics: [" +:+ joinStrings topics +:+ "]";
            "    consumer_group: " +:+ quoted consumerGroup; "    start_from_oldest: true"]).
Definition buildHTTPServerInputSpec (config : Data) : res string string :=
  let address := getString config "address" "0.0.0.0:8080" in
  let path := getString config "path" "/" in
  Ok (text ["input:"; "  http_server:"; "    address: " +:+ quoted address;
            "    path: " +:+ quoted path]).
Definition buildFileInputSpec (config : Data) : res string string :=
  let paths := getStringSlice config "paths" ["/tmp/input.log"] in
  Ok (text ["input:"; "  file:"; "    paths: [" +:+ joinStrings paths +:+ "]"; "    scanner:";
            "      lines: {}"]).
Definition buildGenerateInputSpec (config : Data) : res string string :=
  let interval := getString config "interval" "1s" in
  let mapping := getString config "mapping"
    ("root.message = " +:+ quoted "test" +:+ nl +:+ "root.timestamp = now()") in
  Ok (text ["input:"; "  generate:"; "    interval: " +:+ quoted interval; "    mapping: |";
            "      " +:+ mapping]).

Definition buildInputSpec (inputType : string) (config : Data) : res string string :=
  if inputType =? "kafka" then buildKafkaInputSpec config
  else if inputType =? "http_server" then buildHTTPServerInputSpec config
  else if inputType =? "file" then buildFileInputSpec config
  else if inputType =? "generate" then buildGenerateInputSpec config
  else if inputType =? "stdin" then Ok ("input:" +:+ nl +:+ "  stdin: {}")
  else Err ("unsupported input type: " +:+ inputType).

Definition buildKafkaOutputSpec (config : Data) : res string string :=
  let addresses := getStringSlice config "brokers" ["localhost:9092"] in
  let topic := getString config "topic" "output" in
  Ok (text ["output:"; "  kafka:"; "    addresses: [" +:+ joinStrings addresses +:+ "]";
            "    topic: " +:+ quoted topic]).
Definition buildElasticsearchOutputSpec (config : Data) : res string string :=
  let urls := getStringSlice config "endpoints" ["http://localhost:9200"] in
  let index := getString config "index" "logs" in
  Ok (text ["output:"; "  elasticsearch:"; "    urls: [" +:+ joinStrings urls +:+ "]";
            "    index: " +:+ quoted index; "    action: " +:+ quoted "index"]).
Definition buildHTTPClientOutputSpec (config : Data) : res string string :=
  let url := getString config "url" "http://localhost:8080" in
  let verb := getString config "verb" "POST" in
  Ok (text ["output:"; "  http_client:"; "    url: " +:+ quoted url; "    verb: " +:+ quoted verb]).
Definition buildFileOutputSpec (config : Data) : res string string :=
  let path := getString config "path" "/tmp/output.log" in
  Ok (text ["output:"; "  file:"; "    path: " +:+ quoted path; "    codec: lines"]).
Definition buildS3OutputSpec (config : Data) : res string string :=
  let bucket := getString config "bucket" "my-bucket" in
  let path := getString config "prefix" "data/" in
  Ok (text ["output:"; "  aws_s3:"; "    bucket: " +:+ quoted bucket;
            "    path: " +:+ quoted (path +:+ "${!count(" +:+ quoted "files" +:+ ")}.json")]).

Definition buildOutputSpec (outputType : string) (config : Data) : res string string :=
  if outputType =? "kafka" then buildKafkaOutputSpec config
  else if outputType =? "elasticsearch" then buildElasticsearchOutputSpec config
  else if outputType =? "http_client" then buildHTTPClientOutputSpec config
  else if outputType =? "file" then buildFileOutputSpec config
  else if outputType =? "aws_s3" then buildS3OutputSpec config
  else if outputType =? "stdout" then Ok ("output:" +:+ nl +:+ "  stdout: {}")
  else if outputType =? "drop" then Ok ("output:" +:+ nl +:+ "  drop: {}")
  else Err ("unsupported output type: " +:+ outputType).

Definition buildBloblangProcessorSpec (config : Data) : res string string :=
  let mapping := getString config "mapping" "root = this" in
  let source := getString config "source" "" in
  let mapping := if negb (source =? "") then source else mapping in
  Ok (text ["pipeline:"; "  processors:"; "    - mapping: |"; "        " +:+ mapping]).
Definition buildJQProcessorSpec (config : Data) : res string string :=
  let query := getString config "query" "." in
  Ok (text ["pipeline:"; "  processors:"; "    - jq:"; "        query: '" +:+ query +:+ "'"]).
Definition buildCompressProcessorSpec (config : Data) : res string string :=
  let algorithm := getString config "algorithm" "gzip" in
  Ok (text ["pipeline:"; "  processors:"; "    - compress:"; "        algorithm: " +:+ quoted algorithm]).
Definition buildDecompressProcessorSpec (config : Data) : res string string :=
  let algorithm := getString config "algorithm" "gzip" in
  Ok (text ["pipeline:"; "  processors:"; "    - decompress:"; "        algorithm: " +:+ quoted algorithm]).

Definition buildProcessorSpec (processorType : string) (config : Data) : res string string :=
  if processorType =? "bloblang" then buildBloblangProcessorSpec config
  else if processorType =? "jq" then buildJQProcessorSpec config
  else if processorType =? "json_parse" then
    Ok ("pipeline:" +:+ nl +:+ "  processors:" +:+ nl +:+ "    - mapping: 'root = this.parse_json()'")
  else if processorType =? "compress" then buildCompressProcessorSpec config
  else if processorType =? "decompress" then buildDecompressProcessorSpec config
  else Err ("unsupported processor type: " +:+ processorType).

(** The builders of Bento components, whose types are the library's: after the check of the
    specification each reports that it is not implemented. *)
Definition BuildInput {OwnedInput : Type} (inputType : string) (config : Data) : res string OwnedInput :=
  match buildInputSpec inputType config with
  | Err e => Err e
  | Panic => Panic
  | Ok _ => Err "BuildInput: Bento API 변경으로 인해 미구현 상태"
  end.
Definition BuildOutput {OwnedOutput : Type} (outputType : string) (config : Data) : res string OwnedOutput :=
  match buildOutputSpec outputType config with
  | Err e => Err e
  | Panic => Panic
  | Ok _ => Err "BuildOutput: Bento API 변경으로 인해 미구현 상태"
  end.
Definition BuildProcessor {OwnedProcessor : Type} (processorType : string) (config : Data)
  : res string OwnedProcessor :=
  match buildProcessorSpec processorType config with
  | Err e => Err e
  | Panic => Panic
  | Ok _ => Err "BuildProcessor: Bento API 변경으로 인해 미구현 상태"
  end.
End Bento.

(** ** Base actors *)

Inductive ActorState :=
| ActorStateCreated
| ActorStateRunning
| ActorStateStopped
| ActorStateRestarting.

Record BaseActor := MkBaseActor {
  ba_name : string;
  ba_state : ActorState;
  ba_config : Data
}.

Definition NewBaseActor (name : string) (config : Data) : BaseActor :=
  MkBaseActor name ActorStateCreated config.
Definition base_PreStart (a : BaseActor) : BaseActor :=
  MkBaseActor (ba_name a) ActorStateRunning (ba_config a).
Definition base_PostStop (a : BaseActor) : BaseActor :=
  MkBaseActor (ba_name a) ActorStateStopped (ba_config a).
Definition base_PreRestart (a : BaseActor) : BaseActor :=
  MkBaseActor (ba_name a) ActorStateRestarting (ba_config a).
Definition base_PostRestart (a : BaseActor) : BaseActor :=
  MkBaseActor (ba_name a) ActorStateRunning (ba_config a).

(** ** Sending *)

Definition data_message (d : Data) : Message := MkMessage MessageTypeData (DataPayload (VMap d)).

(** [for _, output := range outputs { if ref, err := ctx.System().Get(output); err == nil
    { _ = ref.Tell(msg) } }] *)
Definition send_outputs (outputs : list string) (msg : Message) : act unit :=
  for_all (fun output => ignore (let* ref := Get output in Tell ref msg)) outputs.

Definition send_parent (self : ActorRef) (msg : Message) : act unit :=
  let* i := deref self in
  match ai_parent i with
  | Some parent => ignore (Tell parent msg)
  | None => ret tt
  end.

(** The payload as a record, [msg.Payload.(map[string]any)]. *)
Definition payload_data (msg : Message) : option Data :=
  match MsgPayload msg with DataPayload (VMap d) => Some d | _ => None end.
Definition payload_command (msg : Message) : option string :=
  match MsgPayload msg with DataPayload (VString cmd) => Some cmd | _ => None end.

(** ** Sources *)

(** What the goroutine of a source produces on a tick of its timer; [LoopNone] has ended. *)
Inductive SourceLoop := LoopKafka | LoopDemo | LoopFallback | LoopNone.

Record SourceActor := MkSourceActor {
  src_base : BaseActor;
  src_type : string;
  src_outputs : list string;
  src_running : bool;
  src_loop : SourceLoop;
  src_counter : Z;             (* the [counter] of the goroutine *)
  src_processed : Z            (* counted by the Bento form only *)
}.

Definition set_source (b : BaseActor) (run : bool) (l : SourceLoop) (s : SourceActor) : SourceActor :=
  MkSourceActor b (src_type s) (src_outputs s) run l (src_counter s) (src_processed s).

(** The plain source never gets outputs. *)
Definition NewSourceActor (name : string) (config : Data) : SourceActor :=
  MkSourceActor (NewBaseActor name config) (getString config "source_type" "unknown") [] false LoopNone 0 0.

Definition source_PreStart (s : SourceActor) : SourceActor :=
  let l := if src_type s =? "kafka" then LoopKafka
           else if src_type s =? "demo" then LoopDemo else LoopNone in
  set_source (base_PreStart (src_base s)) true l s.
Definition source_PostStop (s : SourceActor) : SourceActor :=
  set_source (base_PostStop (src_base s)) false LoopNone s.

Definition source_handleCommand (msg : Message) (s : SourceActor) : SourceActor :=
  match payload_command msg with
  | Some cmd => if cmd =? "pause" then set_source (src_base s) false (src_loop s) s
                else if cmd =? "resume" then set_source (src_base s) true (src_loop s) s else s
  | None => s
  end.
Definition source_Receive (msg : Message) (s : SourceActor) : SourceActor :=
  if MsgType msg =? MessageTypeCommand then source_handleCommand msg s else s.

Definition source_emit (self : ActorRef) (s : SourceActor) (d : Data) : act unit :=
  send_outputs (src_outputs s) (data_message d) ;* send_parent self (data_message d).

Definition count_tick (s : SourceActor) : SourceActor :=
  MkSourceActor (src_base s) (src_type s) (src_outputs s) (src_running s) (src_loop s)
    (int64_wrap (src_counter s + 1)) (src_processed s).

(** [runKafkaSource] and [runDemoSource], one tick at the time [ms] ([now] as a text): the
    level is an element of a slice, which a negative counter would miss. *)
Definition runKafkaSource (ms : Z) : Data :=
  <["message" := VString "Demo kafka message"]> (<["timestamp" := VInt KInt64 ms]>
  {["source" := VString "kafka"]}).
Definition runDemoSource (now : string) (counter : Z) : option Data :=
  if (Z.rem counter 3 <? 0)%Z then None
  else
    let level := default "" (["info"; "warn"; "error"] !! Z.to_nat (Z.rem counter 3)) in
    Some (<["id" := VInt KInt counter]> (<["message" := VString "Demo event"]>
          (<["timestamp" := VString now]> {["level" := VString level]}))).

(** The Bento source: [type] overrides [source_type]. *)
Definition NewBentoSourceActor (name : string) (config : Data) : SourceActor :=
  MkSourceActor (NewBaseActor name config)
    (getString config "type" (getString config "source_type" "generate"))
    (default [] (as_strings (config !! "outputs"))) false LoopNone 0 0.

Definition startFallbackSource (s : SourceActor) : SourceActor :=
  set_source (src_base s) true LoopFallback s.

(** An input that could be built would start a loop that only waits for the end. *)
Definition bento_source_PreStart `{GoRuntime} (s : SourceActor) : SourceActor :=
  let s := set_source (base_PreStart (src_base s)) (src_running s) (src_loop s) s in
  match BuildInput (OwnedInput := unit) (src_type s) (ba_config (src_base s)) with
  | Ok _ => set_source (src_base s) true LoopNone s
  | _ => startFallbackSource s
  end.

(** The other methods are those of the plain form under a lock. *)
Definition bento_source_PostStop (s : SourceActor) : SourceActor := source_PostStop s.
Definition bento_source_Receive (msg : Message) (s : SourceActor) : SourceActor := source_Receive msg s.

Definition fallback_data (now : string) (s : SourceActor) : Data :=
  <["id" := VInt KInt (src_counter s)]> (<["message" := VString "Fallback demo event"]>
  (<["timestamp" := VString now]> {["source" := VString (src_type s)]})).

Definition bento_source_emit (self : ActorRef) (s : SourceActor) (d : Data) : SourceActor * act unit :=
  if negb (src_running s) then (s, ret tt)
  else
    (MkSourceActor (src_base s) (src_type s) (src_outputs s) (src_running s) (src_loop s)
       (src_counter s) (int64_wrap (src_processed s + 1)),
     source_emit self s d).

(** A tick of the timer of a source. *)
Definition source_tick (ms : Z) (now : string) (self : ActorRef) (s : SourceActor)
  : SourceActor * act unit :=
  if negb (src_running s) then (s, ret tt)
  else
    match src_loop s with
    | LoopNone => (s, ret tt)
    | LoopKafka => (s, source_emit self s (runKafkaSource ms))
    | LoopDemo =>
        let s := count_tick s in
        (s, match runDemoSource now (src_counter s) with
            | Some d => source_emit self s d
            | None => panic
            end)
    | LoopFallback => let s := count_tick s in bento_source_emit self s (fallback_data now s)
    end.

(** ** Transforms *)

(** [adapter] is a processor of the Bento library in the Bento form, and nil otherwise. *)
Record TransformActor (P : Type) := MkTransformActor {
  tr_base : BaseActor;
  tr_type : string;
  tr_outputs : list string;
  tr_adapter : option P;
  tr_processed : Z;
  tr_errors : Z
}.
Arguments MkTransformActor {P}.
Arguments tr_base {P}.
Arguments tr_type {P}.
Arguments tr_outputs {P}.
Arguments tr_adapter {P}.
Arguments tr_processed {P}.
Arguments tr_errors {P}.

Section Transforms.
Context `{GoRuntime} {P : Type} (Process : P -> Data -> res string (list Data)).
Implicit Types t : TransformActor P.

Definition NewTransformActor (name : string) (config : Data) : TransformActor P :=
  MkTransformActor (NewBaseActor name config) (getString config "transform_type" "passthrough")
    (default [] (as_strings (config !! "outputs"))) None 0 0.

Definition tr_config t : Data := ba_config (tr_base t).
Definition tr_count (n e : Z) t : TransformActor P :=
  MkTransformActor (tr_base t) (tr_type t) (tr_outputs t) (tr_adapter t)
    (int64_wrap (tr_processed t + n)) (int64_wrap (tr_errors t + e)).
Definition set_transform (b : BaseActor) (a : option P) t : TransformActor P :=
  MkTransformActor b (tr_type t) (tr_outputs t) a (tr_processed t) (tr_errors t).

Definition transform_PreStart t : TransformActor P :=
  set_transform (base_PreStart (tr_base t)) (tr_adapter t) t.
Definition transform_PostStop t : TransformActor P :=
  set_transform (base_PostStop (tr_base t)) (tr_adapter t) t.

(** [remap]: the parsed message over the time over the old fields. *)
Definition remap (now : string) (data : Data) : Data :=
  let result := <["processed_at" := VString now]> data in
  match as_string (data !! "message") with
  | Some msg => match json_object msg with Some parsed => parsed ∪ result | None => result end
  | None => result
  end.

(** [filter] of the plain form knows one condition and ignores all others. *)
Definition filter (config data : Data) : option Data :=
  match as_string (config !! "condition") with
  | None => Some data
  | Some condition =>
      if condition =? ".level == " +:+ quoted "error" then
        match as_string (data !! "level") with
        | Some level => if level =? "error" then Some data else None
        | None => None
        end
      else Some data
  end.

Definition sample_rate (config : Data) : spec_float :=
  default (float64_of_Z 1) (as_float64 (config !! "rate")).
Definition float64_mul (a b : spec_float) : spec_float := SFmul float64_prec float64_emax a b.

(** [float64(t.processedCount%100) < rate*100]. *)
Definition sample_passes (rate : spec_float) (processed : Z) : bool :=
  float_lt (float64_of_Z (Z.rem processed 100)) (float64_mul rate (float64_of_Z 100)).
Definition sample t (data : Data) : option Data :=
  if sample_passes (sample_rate (tr_config t)) (tr_processed t) then Some data else None.

Definition enrich (config data : Data) : Data :=
  match as_string (config !! "lookup_table") with
  | Some lookupTable => <["enriched_from" := VString lookupTable]> data
  | None => data
  end.
Definition aggregate (data : Data) : Data := data.

Definition transform (now : string) t (data : Data) : option Data :=
  if tr_type t =? "passthrough" then Some data
  else if tr_type t =? "remap" then Some (remap now data)
  else if tr_type t =? "filter" then filter (tr_config t) data
  else if tr_type t =? "aggregate" then Some (aggregate data)
  else if tr_type t =? "sample" then sample t data
  else if tr_type t =? "enrich" then Some (enrich (tr_config t) data)
  else Some data.

(** Without outputs the parent gets the record. *)
Definition transform_emit (self : ActorRef) t (d : Data) : act unit :=
  send_outputs (tr_outputs t) (data_message d) ;*
  match tr_outputs t with
  | [] => send_parent self (data_message d)
  | _ => ret tt
  end.

Definition transform_handleData (now : string) (self : ActorRef) (msg : Message) t
  : res string unit * TransformActor P * act unit :=
  match payload_data msg with
  | None => (Err "invalid payload type", tr_count 0 1 t, ret tt)
  | Some data =>
      match transform now t data with
      | None => (Ok tt, t, ret tt)
      | Some result => (Ok tt, tr_count 1 0 t, transform_emit self t result)
      end
  end.

Definition transform_Receive (now : string) (self : ActorRef) (msg : Message) t
  : res string unit * TransformActor P * act unit :=
  if MsgType msg =? MessageTypeData then transform_handleData now self msg t else (Ok tt, t, ret tt).

(** *** The Bento form *)

Definition NewBentoTransformActor (name : string) (config : Data) : TransformActor P :=
  MkTransformActor (NewBaseActor name config)
    (getString config "type" (getString config "transform_type" "passthrough"))
    (default [] (as_strings (config !! "outputs"))) None 0 0.

Definition ReplaceAll (s old new : string) : string := Join (Split s old) new.

Definition convertVRLToBloblang (vrl : string) : string :=
  let result := ReplaceAll vrl ". = parse_json!(.message)" "root = this.message.parse_json()" in
  let result := ReplaceAll result "parse_json!" "parse_json" in
  let result := ReplaceAll result ". = " "root = " in
  ReplaceAll result ".processed_at = now()" "root.processed_at = now()".

Definition mapToBentoProcessor t : string * Data :=
  let algorithm := getString (tr_config t) "algorithm" "gzip" in
  if tr_type t =? "remap" then
    let source := match as_string (tr_config t !! "source") with
                  | Some s => convertVRLToBloblang s
                  | None => ""
                  end in
    ("bloblang", {["mapping" := VString source]})
  else if tr_type t =? "json_parse" then ("json_parse", ∅)
  else if tr_type t =? "compress" then ("compress", {["algorithm" := VString algorithm]})
  else if tr_type t =? "decompress" then ("decompress", {["algorithm" := VString algorithm]})
  else ("", ∅).

Definition bento_transform_PreStart t : TransformActor P :=
  let '(bentoType, bentoConfig) := mapToBentoProcessor t in
  let adapter :=
    if negb (bentoType =? "") then
      match BuildProcessor (OwnedProcessor := P) bentoType bentoConfig with
      | Ok p => Some p
      | _ => tr_adapter t
      end
    else tr_adapter t in
  set_transform (base_PreStart (tr_base t)) adapter t.

(** One of the tests of [evaluateCondition]: when the condition has the operator once and the
    field exists, the answer is that of the test. *)
Definition compare_text (condition op : string) (test : string -> string -> bool) (data : Data)
  : option bool :=
  if Contains condition op then
    match Split condition op with
    | [l; r] =>
        let field := TrimSpace (TrimPrefix l ".") in
        let value := Trim (TrimSpace r) (bytes [34; 39]) in
        match data !! field with Some v => Some (test (fmt_v v) value) | None => None end
    | _ => None
    end
  else None.

Definition evaluateCondition (condition : string) (data : Data) : bool :=
  match compare_text condition "==" String.eqb data with
  | Some b => b
  | None =>
      match compare_text condition "!=" (fun a b => negb (a =? b)) data with
      | Some b => b
      | None =>
          if Contains condition "exists" then
            match Split condition "exists" with
            | l :: _ => bool_decide (is_Some (data !! TrimSpace (TrimPrefix l ".")))
            | [] => true
            end
          else true
      end
  end.

Definition bento_filter (config data : Data) : option Data :=
  match as_string (config !! "condition") with
  | None => Some data
  | Some condition => if evaluateCondition condition data then Some data else None
  end.

(** The other built-in transforms repeat those of the plain form. *)
Definition bento_remap (now : string) (data : Data) : Data := remap now data.
Definition bento_sample t (data : Data) : option Data := sample t data.
Definition bento_enrich (config data : Data) : Data := enrich config data.
Definition bento_aggregate (data : Data) : Data := data.
Definition bento_emit (self : ActorRef) t (d : Data) : act unit := transform_emit self t d.

Definition builtinTransform (now : string) t (data : Data) : option Data :=
  if tr_type t =? "passthrough" then Some data
  else if tr_type t =? "remap" then Some (bento_remap now data)
  else if tr_type t =? "filter" then bento_filter (tr_config t) data
  else if tr_type t =? "sample" then bento_sample t data
  else if tr_type t =? "enrich" then Some (bento_enrich (tr_config t) data)
  else if tr_type t =? "aggregate" then Some (bento_aggregate data)
  else Some data.

Definition bento_transform (now : string) t (data : Data) : res string (list Data) :=
  match tr_adapter t with
  | Some p => Process p data
  | None => Ok (option_list (builtinTransform now t data))
  end.

Definition bento_handleData (now : string) (self : ActorRef) (msg : Message) t
  : res string unit * TransformActor P * act unit :=
  match payload_data msg with
  | None => (Err "invalid payload type", tr_count 0 1 t, ret tt)
  | Some data =>
      match bento_transform now t data with
      | Err e => (Err e, tr_count 0 1 t, ret tt)
      | Panic => (Panic, t, ret tt)
      | Ok results => (Ok tt, foldl (fun t _ => tr_count 1 0 t) t results,
                       for_all (bento_emit self t) results)
      end
  end.

Definition bento_transform_Receive (now : string) (self : ActorRef) (msg : Message) t
  : res string unit * TransformActor P * act unit :=
  if MsgType msg =? MessageTypeData then bento_handleData now self msg t else (Ok tt, t, ret tt).

Definition bento_transform_PostStop t : TransformActor P := transform_PostStop t.
End Transforms.

(** ** Sinks *)

(** [adapter] is an output of the Bento library in the Bento form, and nil otherwise. *)
Record SinkActor (O : Type) := MkSinkActor {
  sk_base : BaseActor;
  sk_type : string;
  sk_adapter : option O;
  sk_buffer : list Data;
  sk_maxEvents : Z;
  sk_flushTimeout : Z;
  sk_processed : Z;
  sk_errors : Z;
  sk_cancelled : bool
}.
Arguments MkSinkActor {O}.
Arguments sk_base {O}.
Arguments sk_type {O}.
Arguments sk_adapter {O}.
Arguments sk_buffer {O}.
Arguments sk_maxEvents {O}.
Arguments sk_flushTimeout {O}.
Arguments sk_processed {O}.
Arguments sk_errors {O}.
Arguments sk_cancelled {O}.

Definition flush_timeout (config : Data) : Z :=
  default (10 * Second)%Z
    (as_map (config !! "buffer") ≫= fun buf => as_string (buf !! "timeout") ≫= ParseDuration).

Section Sinks.
Context `{GoRuntime} {O : Type} (WriteBatch : O -> list Data -> res string unit).
(** [json.Marshal] and [json.MarshalIndent] as texts, empty when they fail. *)
Context (marshal marshal_indent : Data -> string).
Implicit Types s : SinkActor O.

Definition sk_config s : Data := ba_config (sk_base s).

Definition new_sink (name ty : string) (config : Data) : res string (SinkActor O) :=
  if (buffer_events config <? 0)%Z then Panic
  else Ok (MkSinkActor (NewBaseActor name config) ty None [] (buffer_events config)
             (flush_timeout config) 0 0 false).
Definition NewSinkActor (name : string) (config : Data) : res string (SinkActor O) :=
  new_sink name (getString config "sink_type" "console") config.
Definition NewBentoSinkActor (name : string) (config : Data) : res string (SinkActor O) :=
  new_sink name (getString config "type" (getString config "sink_type" "stdout")) config.

Definition set_sink (b : BaseActor) (a : option O) (c : bool) s : SinkActor O :=
  MkSinkActor b (sk_type s) a (sk_buffer s) (sk_maxEvents s) (sk_flushTimeout s) (sk_processed s)
    (sk_errors s) c.
Definition sink_buffer (l : list Data) s : SinkActor O :=
  MkSinkActor (sk_base s) (sk_type s) (sk_adapter s) l (sk_maxEvents s) (sk_flushTimeout s)
    (sk_processed s) (sk_errors s) (sk_cancelled s).
Definition sink_count (n e : Z) s : SinkActor O :=
  MkSinkActor (sk_base s) (sk_type s) (sk_adapter s) (sk_buffer s) (sk_maxEvents s) (sk_flushTimeout s)
    (int64_wrap (sk_processed s + n)) (int64_wrap (sk_errors s + e)) (sk_cancelled s).

(** [PreStart]: the timer of the flush loop panics when the timeout is not positive. *)
Definition sink_PreStart s : res string (SinkActor O) :=
  if (sk_flushTimeout s <=? 0)%Z then Panic
  else Ok (set_sink (base_PreStart (sk_base s)) (sk_adapter s) false s).

(** The writers of the plain form: the console prints lines, the others look at their
    configuration and log what they would do. *)
Definition writeConsole (data : list Data) : res string unit * list string := (Ok tt, marshal <$> data).
Definition writeElasticsearch s : res string unit :=
  match as_slice (sk_config s !! "endpoints") with
  | Some (_ :: _) => Ok tt
  | _ => Err "elasticsearch endpoints not configured"
  end.
Definition writeS3 s : res string unit :=
  match as_string (sk_config s !! "bucket") with Some _ => Ok tt | None => Err "s3 bucket not configured" end.
Definition writeKafka s : res string unit :=
  match as_string (sk_config s !! "topic") with Some _ => Ok tt | None => Err "kafka topic not configured" end.
Definition writePrometheus s : res string unit :=
  match as_string (sk_config s !! "endpoint") with
  | Some _ => Ok tt
  | None => Err "prometheus endpoint not configured"
  end.
Definition writeFile s : res string unit :=
  match as_string (sk_config s !! "path") with Some _ => Ok tt | None => Err "file path not configured" end.

Definition sink_write s (data : list Data) : res string unit * list string :=
  let logs r := (r, []) in
  if sk_type s =? "console" then writeConsole data
  else if sk_type s =? "elasticsearch" then logs (writeElasticsearch s)
  else if sk_type s =? "s3" then logs (writeS3 s)
  else if sk_type s =? "kafka" then logs (writeKafka s)
  else if sk_type s =? "prometheus" then logs (writePrometheus s)
  else if sk_type s =? "file" then logs (writeFile s)
  else writeConsole data.

(** The common part of [flush]: the buffer is emptied, written and counted. *)
Definition flush_with (write : SinkActor O -> list Data -> res string unit * list string) s
  : SinkActor O * list string :=
  match sk_buffer s with
  | [] => (s, [])
  | data =>
      let n := Z.of_nat (List.length data) in
      let s := sink_buffer [] s in
      let '(r, out) := write s data in
      match r with
      | Ok _ => (sink_count n 0 s, out)
      | _ => (sink_count 0 n s, out)
      end
  end.
Definition flush := flush_with sink_write.

(** [handleData] and [handleCommand] of both forms, over their [flush]. *)
Definition sink_handleData (flush : SinkActor O -> SinkActor O * list string) (msg : Message) s
  : res string unit * SinkActor O * list string :=
  match payload_data msg with
  | None => (Err "invalid payload type", sink_count 0 1 s, [])
  | Some data =>
      let s := sink_buffer (sk_buffer s ++ [data]) s in
      let shouldFlush := (sk_maxEvents s <=? Z.of_nat (List.length (sk_buffer s)))%Z in
      let '(s, out) := if shouldFlush then flush s else (s, []) in
      (Ok tt, s, out)
  end.
Definition sink_handleCommand (flush : SinkActor O -> SinkActor O * list string) (msg : Message) s
  : res string unit * SinkActor O * list string :=
  match payload_command msg with
  | Some cmd => let '(s, out) := if cmd =? "flush" then flush s else (s, []) in (Ok tt, s, out)
  | None => (Ok tt, s, [])
  end.
Definition sink_Receive (flush : SinkActor O -> SinkActor O * list string) (msg : Message) s
  : res string unit * SinkActor O * list string :=
  if MsgType msg =? MessageTypeData then sink_handleData flush msg s
  else if MsgType msg =? MessageTypeCommand then sink_handleCommand flush msg s
  else (Ok tt, s, []).

(** A tick of [flushLoop], and [PostStop]. *)
Definition flushLoop (flush : SinkActor O -> SinkActor O * list string) s : SinkActor O * list string :=
  if sk_cancelled s then (s, []) else flush s.
Definition sink_PostStop (flush : SinkActor O -> SinkActor O * list string) s
  : SinkActor O * list string :=
  let '(s, out) := flush (set_sink (sk_base s) (sk_adapter s) true s) in
  (set_sink (base_PostStop (sk_base s)) (sk_adapter s) (sk_cancelled s) s, out).

(** *** The Bento form *)

Definition mapToBentoOutput s : string :=
  let ty := sk_type s in
  if ty =? "kafka" then "kafka"
  else if ty =? "elasticsearch" then "elasticsearch"
  else if (ty =? "s3") || (ty =? "aws_s3") then "aws_s3"
  else if (ty =? "http") || (ty =? "http_client") then "http_client"
  else if ty =? "file" then "file"
  else if (ty =? "console") || (ty =? "stdout") then "stdout"
  else "".

Definition bento_sink_PreStart s : res string (SinkActor O) :=
  let bentoType := mapToBentoOutput s in
  let adapter :=
    if negb (bentoType =? "") then
      match BuildOutput (OwnedOutput := O) bentoType (sk_config s) with
      | Ok o => Some o
      | _ => sk_adapter s
      end
    else sk_adapter s in
  sink_PreStart (set_sink (sk_base s) adapter false s).

Definition builtinWrite (data : list Data) : res string unit * list string :=
  (Ok tt, marshal_indent <$> data).
Definition bento_write s (data : list Data) : res string unit * list string :=
  match sk_adapter s with
  | Some o => (WriteBatch o data, [])
  | None => builtinWrite data
  end.
Definition bento_flush := flush_with bento_write.

Definition bento_sink_Receive := sink_Receive bento_flush.
Definition bento_flushLoop := flushLoop bento_flush.
Definition bento_sink_PostStop := sink_PostStop bento_flush.
End Sinks.

(** ** Routers *)

Record Route := MkRoute { Condition : string; Output : string }.

Record RouterActor := MkRouterActor {
  rt_base : BaseActor;
  rt_routes : list Route;
  rt_default : string
}.

(** Elements of [routing] that are not maps are left out. *)
Definition NewRouterActor (name : string) (config : Data) : RouterActor :=
  let routes := match as_slice (config !! "routing") with
                | Some routing =>
                    omap (fun r => match r with
                                   | VMap m => Some (MkRoute (getString m "condition" "") (getString m "output" ""))
                                   | _ => None
                                   end) routing
                | None => []
                end in
  MkRouterActor (NewBaseActor name config) routes (getString config "default" "").

Section Routers.
Context `{GoRuntime}.

(** The field and the value around an operator. *)
Definition split_condition (condition op : string) : option (string * string) :=
  match SplitN2 condition op with
  | [l; r] => Some (TrimPrefix (TrimSpace l) ".", Trim (TrimSpace r) (bytes [34; 39]))
  | _ => None
  end.

(** [evaluate]: an answer of [None] goes on with the next form of condition. *)
Definition evaluate_eq (condition : string) (data : Data) : option bool :=
  if Contains condition "==" then
    match split_condition condition "==" with
    | None => Some false
    | Some (field, value) =>
        match data !! field with
        | Some (VString v) => Some (v =? value)
        | Some (VFloat64 f) => Some (fmt_v (VFloat64 f) =? value)
        | Some (VInt KInt z) => Some (fmt_v (VInt KInt z) =? value)
        | _ => None
        end
    end
  else None.
Definition evaluate_ne (condition : string) (data : Data) : option bool :=
  if Contains condition "!=" then
    match split_condition condition "!=" with
    | None => Some false
    | Some (field, value) =>
        match data !! field with
        | Some (VString v) => Some (negb (v =? value))
        | _ => None
        end
    end
  else None.
Definition evaluate (condition : string) (data : Data) : bool :=
  if condition =? "true" then true
  else
    match evaluate_eq condition data with
    | Some b => b
    | None =>
        match evaluate_ne condition data with
        | Some b => b
        | None =>
            if HasSuffix condition " exists" then
              let field := TrimPrefix (TrimSpace (TrimSuffix condition " exists")) "." in
              bool_decide (is_Some (data !! field))
            else false
        end
    end.

Fixpoint route (routes : list Route) (data : Data) : string :=
  match routes with
  | [] => ""
  | r :: rs => if evaluate (Condition r) data then Output r else route rs data
  end.

(** The order in which Go ranges over the children. *)
Context (range_refs : gmap string ActorRef -> list (string * ActorRef)).

Definition name_of (s : System) (r : ActorRef) : string := from_option ai_name "" (heap s !! r).

(** [emit] of a router: a child of that name, the actor at that path, or a request to the
    parent. *)
Definition router_emit (self : ActorRef) (data : Data) (output : string) : act unit :=
  let* i := deref self in
  let* s := get in
  match find (fun x => name_of s x.2 =? output) (range_refs (ai_children i)) with
  | Some x => ignore (Tell x.2 (data_message data))
  | None =>
      match actors s !! output with
      | Some ref => ignore (Tell ref (data_message data))
      | None => send_parent self (MkMessage MessageTypeData (RouteRequest output (MessageTypeData, VMap data)))
      end
  end.

Definition router_handleData (self : ActorRef) (msg : Message) (r : RouterActor) : res string unit * act unit :=
  match payload_data msg with
  | None => (Err "invalid payload type", ret tt)
  | Some data =>
      let output := route (rt_routes r) data in
      let output := if output =? "" then rt_default r else output in
      if output =? "" then (Ok tt, ret tt) else (Ok tt, router_emit self data output)
  end.
Definition router_Receive (self : ActorRef) (msg : Message) (r : RouterActor) : res string unit * act unit :=
  if MsgType msg =? MessageTypeData then router_handleData self msg r else (Ok tt, ret tt).
End Routers.

Record BroadcastRouter := MkBroadcastRouter { bc_base : BaseActor; bc_outputs : list string }.
Definition NewBroadcastRouter (name : string) (outputs : list string) : BroadcastRouter :=
  MkBroadcastRouter (NewBaseActor name ∅) outputs.
Definition broadcast_Receive (msg : Message) (b : BroadcastRouter) : act unit :=
  if MsgType msg =? MessageTypeData then send_outputs (bc_outputs b) msg else ret tt.

Record RoundRobinRouter := MkRoundRobin { rr_base : BaseActor; rr_outputs : list string; rr_current : Z }.
Definition NewRoundRobinRouter (name : string) (outputs : list string) : RoundRobinRouter :=
  MkRoundRobin (NewBaseActor name ∅) outputs 0.

(** The output of a message, [None] for a negative index, which panics. *)
Definition rr_pick (rr : RoundRobinRouter) : option string :=
  let i := Z.rem (rr_current rr) (Z.of_nat (List.length (rr_outputs rr))) in
  if (i <? 0)%Z then None else rr_outputs rr !! Z.to_nat i.
Definition round_robin_Receive (msg : Message) (rr : RoundRobinRouter) : RoundRobinRouter * act unit :=
  if negb (MsgType msg =? MessageTypeData) then (rr, ret tt)
  else
    match rr_outputs rr with
    | [] => (rr, ret tt)
    | _ =>
        (MkRoundRobin (rr_base rr) (rr_outputs rr) (int64_wrap (rr_current rr + 1)),
         match rr_pick rr with
         | Some output => send_outputs [output] msg
         | None => panic
         end)
    end.

(** ** The factory *)

Section Kinds.
Context `{GoRuntime} {P O : Type}.

Inductive ActorKind :=
| KSource (s : SourceActor)
| KBentoSource (s : SourceActor)
| KTransform (t : TransformActor P)
| KBentoTransform (t : TransformActor P)
| KSink (s : SinkActor O)
| KBentoSink (s : SinkActor O)
| KRouter (r : RouterActor)
| KBroadcast (b : BroadcastRouter)
| KRoundRobin (rr : RoundRobinRouter)
| KBase (b : BaseActor).

(** The constructors look at [useBento] when they are called. *)
Record ActorFactory := MkActorFactory {
  registry : gmap string (bool -> string -> Data -> res string ActorKind);
  useBento : bool
}.

Definition NewActorFactory : ActorFactory := MkActorFactory ∅ true.
Definition SetUseBento (use : bool) (f : ActorFactory) : ActorFactory := MkActorFactory (registry f) use.
Definition Register (actorType : string) (make : bool -> string -> Data -> res string ActorKind)
  (f : ActorFactory) : ActorFactory := MkActorFactory (<[actorType := make]> (registry f)) (useBento f).

(** [None] is a nil actor. *)
Definition Create (f : ActorFactory) (actorType name : string) (config : Data)
  : res string (option ActorKind) :=
  match registry f !! actorType with
  | Some make => make (useBento f) name config ≫= fun k => Ok (Some k)
  | None => Ok None
  end.

Definition make_router (bento : bool) (name : string) (config : Data) : res string ActorKind :=
  let routerType := getString config "router_type" "condition" in
  let outputs := match config !! "outputs" with
                 | Some (VStrings o) => o
                 | Some (VSlice o) => omap (fun item => as_string (Some item)) o
                 | _ => []
                 end in
  if routerType =? "broadcast" then Ok (KBroadcast (NewBroadcastRouter name outputs))
  else if routerType =? "round_robin" then Ok (KRoundRobin (NewRoundRobinRouter name outputs))
  else Ok (KRouter (NewRouterActor name config)).

Definition registerDefaultActors (f : ActorFactory) : ActorFactory :=
  let bento_sink name config := NewBentoSinkActor name config ≫= fun s => Ok (KBentoSink s) in
  Register "supervisor" (fun _ name config => Ok (KBase (NewBaseActor name config)))
  (Register "router" make_router
  (Register "bento_sink" (fun _ => bento_sink)
  (Register "sink" (fun bento name config =>
     if bento then bento_sink name config
     else NewSinkActor name config ≫= fun s => Ok (KSink s))
  (Register "bento_transform" (fun _ name config => Ok (KBentoTransform (NewBentoTransformActor name config)))
  (Register "transform" (fun bento name config =>
     Ok (if bento then KBentoTransform (NewBentoTransformActor name config)
         else KTransform (NewTransformActor name config)))
  (Register "bento_source" (fun _ name config => Ok (KBentoSource (NewBentoSourceActor name config)))
  (Register "source" (fun bento name config =>
     Ok (if bento then KBentoSource (NewBentoSourceActor name config)
         else KSource (NewSourceActor name config)))
  f))))))).

(** [DefaultFactory]: the package actor/types fills it when it is part of the program. *)
Definition DefaultFactory (linked : bool) : ActorFactory :=
  if linked then registerDefaultActors NewActorFactory else NewActorFactory.

(** The constructor a [Factory] calls; a supervisor has the methods of its base actor and the
    [Receive] of [ActorSystem]. *)
Definition make_kind (fac : ActorFactory) (f : Factory) : res string (option ActorKind) :=
  match f with
  | SupervisorActor _ => Ok (Some (KBase (NewBaseActor "supervisor" ∅)))
  | Supervisor.SourceActor name config => Create fac "source" name config
  | Supervisor.TransformActor name config => Create fac "transform" name config
  | Supervisor.SinkActor name config => Create fac "sink" name config
  | Supervisor.RouterActor name config => Create fac "router" name config
  end.

(** ** Running actors *)

Context (Process : P -> Data -> res string (list Data)) (WriteBatch : O -> list Data -> res string unit).
Context (marshal marshal_indent : Data -> string).
Context (range_refs : gmap string ActorRef -> list (string * ActorRef)).

(** [actor.PreStart] as the goroutine of an actor calls it: a nil actor is dereferenced. *)
Definition PreStart (k : option ActorKind) : res string ActorKind :=
  match k with
  | None => Panic
  | Some (KSource s) => Ok (KSource (source_PreStart s))
  | Some (KBentoSource s) => Ok (KBentoSource (bento_source_PreStart s))
  | Some (KTransform t) => Ok (KTransform (transform_PreStart t))
  | Some (KBentoTransform t) => Ok (KBentoTransform (bento_transform_PreStart t))
  | Some (KSink s) => sink_PreStart s ≫= fun s => Ok (KSink s)
  | Some (KBentoSink s) => bento_sink_PreStart s ≫= fun s => Ok (KBentoSink s)
  | Some (KRouter r) => Ok (KRouter (MkRouterActor (base_PreStart (rt_base r)) (rt_routes r) (rt_default r)))
  | Some (KBroadcast b) => Ok (KBroadcast (MkBroadcastRouter (base_PreStart (bc_base b)) (bc_outputs b)))
  | Some (KRoundRobin rr) =>
      Ok (KRoundRobin (MkRoundRobin (base_PreStart (rr_base rr)) (rr_outputs rr) (rr_current rr)))
  | Some (KBase b) => Ok (KBase (base_PreStart b))
  end.

(** [Receive] of an actor: the result, the new actor, what it sends and what it prints. *)
Definition Receive (now : string) (self : ActorRef) (msg : Message) (k : ActorKind)
  : res string unit * ActorKind * act unit * list string :=
  match k with
  | KSource s => (Ok tt, KSource (source_Receive msg s), ret tt, [])
  | KBentoSource s => (Ok tt, KBentoSource (bento_source_Receive msg s), ret tt, [])
  | KTransform t => let '(r, t, m) := transform_Receive now self msg t in (r, KTransform t, m, [])
  | KBentoTransform t =>
      let '(r, t, m) := bento_transform_Receive Process now self msg t in (r, KBentoTransform t, m, [])
  | KSink s => let '(r, s, out) := sink_Receive (flush marshal) msg s in (r, KSink s, ret tt, out)
  | KBentoSink s =>
      let '(r, s, out) := bento_sink_Receive WriteBatch marshal_indent msg s in
      (r, KBentoSink s, ret tt, out)
  | KRouter r => let '(x, m) := router_Receive range_refs self msg r in (x, k, m, [])
  | KBroadcast b => (Ok tt, k, broadcast_Receive msg b, [])
  | KRoundRobin rr => let '(rr, m) := round_robin_Receive msg rr in (Ok tt, KRoundRobin rr, m, [])
  | KBase _ => (Ok tt, k, ret tt, [])
  end.

(** A tick of the timer an actor has: of a source or of the flush loop of a sink. *)
Definition tick (ms : Z) (now : string) (self : ActorRef) (k : ActorKind) : ActorKind * act unit * list string :=
  match k with
  | KSource s => let '(s, m) := source_tick ms now self s in (KSource s, m, [])
  | KBentoSource s => let '(s, m) := source_tick ms now self s in (KBentoSource s, m, [])
  | KSink s => let '(s, out) := flushLoop (flush marshal) s in (KSink s, ret tt, out)
  | KBentoSink s =>
      let '(s, out) := bento_flushLoop WriteBatch marshal_indent s in (KBentoSink s, ret tt, out)
  | _ => (k, ret tt, [])
  end.

Definition PostStop (k : ActorKind) : ActorKind * list string :=
  match k with
  | KSource s => (KSource (source_PostStop s), [])
  | KBentoSource s => (KBentoSource (bento_source_PostStop s), [])
  | KTransform t => (KTransform (transform_PostStop t), [])
  | KBentoTransform t => (KBentoTransform (bento_transform_PostStop t), [])
  | KSink s => let '(s, out) := sink_PostStop (flush marshal) s in (KSink s, out)
  | KBentoSink s =>
      let '(s, out) := bento_sink_PostStop WriteBatch marshal_indent s in (KBentoSink s, out)
  | KRouter r => (KRouter (MkRouterActor (base_PostStop (rt_base r)) (rt_routes r) (rt_default r)), [])
  | KBroadcast b => (KBroadcast (MkBroadcastRouter (base_PostStop (bc_base b)) (bc_outputs b)), [])
  | KRoundRobin rr => (KRoundRobin (MkRoundRobin (base_PostStop (rr_base rr)) (rr_outputs rr) (rr_current rr)), [])
  | KBase b => (KBase (base_PostStop b), [])
  end.
End Kinds.
Arguments ActorKind : clear implicits.
Arguments ActorFactory : clear implicits.

(** ** Bento is never used *)

Lemma BuildInput_fails `{GoRuntime} {I} ty config (i : I) : BuildInput ty config <> Ok i.
Proof. unfold BuildInput. by destruct (buildInputSpec ty config). Qed.
Lemma BuildOutput_fails `{GoRuntime} {O} ty config (o : O) : BuildOutput ty config <> Ok o.
Proof. unfold BuildOutput. by destruct (buildOutputSpec ty config). Qed.
Lemma BuildProcessor_fails `{GoRuntime} {P} ty config (p : P) : BuildProcessor ty config <> Ok p.
Proof. unfold BuildProcessor. by destruct (buildProcessorSpec ty config). Qed.

Lemma bento_transform_adapter `{GoRuntime} {P} (t : TransformActor P) :
  tr_adapter (bento_transform_PreStart t) = tr_adapter t.
Proof.
  unfold bento_transform_PreStart. destruct (mapToBentoProcessor t) as [ty c]. simpl.
  destruct (negb _); [|done]. destruct (BuildProcessor ty c) eqn:E; [|done..].
  by apply BuildProcessor_fails in E.
Qed.

Lemma bento_sink_adapter `{GoRuntime} {O} (s s' : SinkActor O) :
  bento_sink_PreStart s = Ok s' -> sk_adapter s' = sk_adapter s.
Proof.
  unfold bento_sink_PreStart, sink_PreStart. simpl. case_match; [done|]. intros [= <-]. simpl.
  destruct (negb _); [|done]. destruct (BuildOutput _ _) eqn:E; [|done..].
  by apply BuildOutput_fails in E.
Qed.

(** Whatever its configuration, an actor of the Bento form runs without Bento: a source
    produces demonstration records, a transform uses the built-in one, a sink prints. *)
Theorem bento_actors_fall_back `{GoRuntime} {P O : Type} (name : string) (config : Data) :
  src_loop (bento_source_PreStart (NewBentoSourceActor name config)) = LoopFallback /\
  tr_adapter (bento_transform_PreStart (NewBentoTransformActor (P := P) name config)) = None /\
  forall s s' : SinkActor O, NewBentoSinkActor name config = Ok s -> bento_sink_PreStart s = Ok s' ->
    sk_adapter s' = None.
Proof.
  split; [|split].
  - unfold bento_source_PreStart. simpl. destruct (BuildInput _ _) eqn:E; [|done..].
    by apply BuildInput_fails in E.
  - by rewrite bento_transform_adapter.
  - intros s s' Hs Hs'. rewrite (bento_sink_adapter _ _ Hs').
    unfold NewBentoSinkActor, new_sink in Hs. by case_match; simplify_eq.
Qed.

(** ** Sampling *)

(** The first count at which a sampling transform refuses a record. *)
Definition first_refused (rate : spec_float) : option Z :=
  find (fun c => negb (sample_passes rate c)) (Z.of_nat <$> seq 0 100).

Section Sampling.
Context `{GoRuntime} {P : Type} (Process : P -> Data -> res string (list Data)).
Implicit Types t : TransformActor P.

(** Records received one after the other. *)
Definition receive_all (now : string) (self : ActorRef) (ds : list Data) t : TransformActor P :=
  foldl (fun t d => (transform_Receive now self (data_message d) t).1.2) t ds.
Definition bento_receive_all (now : string) (self : ActorRef) (ds : list Data) t : TransformActor P :=
  foldl (fun t d => (bento_transform_Receive Process now self (data_message d) t).1.2) t ds.

(** A record counts when it passes, in either form. *)
Definition sample_step t : TransformActor P :=
  if sample_passes (sample_rate (tr_config t)) (tr_processed t) then tr_count 1 0 t else t.

Lemma transform_sample_step now self d t :
  tr_type t = "sample" -> (transform_Receive now self (data_message d) t).1.2 = sample_step t.
Proof.
  intros Ht. unfold transform_Receive, transform_handleData, transform. cbn [data_message MsgType payload_data MsgPayload].
  change (MessageTypeData =? MessageTypeData) with true. cbn match. rewrite Ht. cbn [String.eqb Ascii.eqb Bool.eqb].
  cbn match. unfold sample, sample_step. by destruct (sample_passes _ _).
Qed.

Lemma bento_sample_step now self d t :
  tr_type t = "sample" -> tr_adapter t = None ->
  (bento_transform_Receive Process now self (data_message d) t).1.2 = sample_step t.
Proof.
  intros Ht Ha. unfold bento_transform_Receive, bento_handleData, bento_transform, builtinTransform.
  cbn [data_message MsgType payload_data MsgPayload].
  change (MessageTypeData =? MessageTypeData) with true. cbn match. rewrite Ha, Ht. cbn [String.eqb Ascii.eqb Bool.eqb].
  cbn match. unfold bento_sample, sample, sample_step. by destruct (sample_passes _ _).
Qed.

Lemma find_first (p : Z -> bool) a n :
  match find p (Z.of_nat <$> seq a n) with
  | Some z => exists m, z = Z.of_nat m /\ a <= m < a + n /\ p (Z.of_nat m) = true /\
                forall k, a <= k < m -> p (Z.of_nat k) = false
  | None => forall k, a <= k < a + n -> p (Z.of_nat k) = false
  end.
Proof.
  revert a. induction n as [|n IH]; intros a; simpl; [lia|].
  destruct (p (Z.of_nat a)) eqn:Ep.
  { exists a. split; [done|]. split; [lia|]. split; [done|]. lia. }
  specialize (IH (S a)). destruct (find _ _) as [z|].
  - destruct IH as (m & -> & Hm & Hp & Hk). exists m. split; [done|]. split; [lia|]. split; [done|].
    intros k Hk'. destruct (decide (k = a)) as [->|]; [done|]. apply Hk. lia.
  - intros k Hk. destruct (decide (k = a)) as [->|]; [done|]. apply IH. lia.
Qed.

Lemma sample_passes_mod rate c : (0 <= c)%Z -> sample_passes rate c = sample_passes rate (c mod 100).
Proof.
  intros Hc. unfold sample_passes. rewrite (Z.rem_mod_nonneg c) by lia.
  rewrite (Z.rem_mod_nonneg (c mod 100)) by (try lia; apply Z.mod_pos_bound; lia).
  by rewrite Z.mod_mod by lia.
Qed.

(** The count after [k] records. *)
Definition sampled (rate : spec_float) (k : nat) : Z :=
  match first_refused rate with
  | Some c => Z.min (Z.of_nat k) c
  | None => Z.of_nat k
  end.

Lemma sample_step_count t k :
  tr_processed t = sampled (sample_rate (tr_config t)) k -> (Z.of_nat (S k) < 2 ^ 63)%Z ->
  tr_processed (sample_step t) = sampled (sample_rate (tr_config t)) (S k).
Proof.
  intros Ht Hk. unfold sample_step. set (rate := sample_rate _) in *.
  pose proof (find_first (fun c => negb (sample_passes rate c)) 0 100) as Hf.
  unfold sampled, first_refused in *. destruct (find _ _) as [z|] eqn:E.
  - destruct Hf as (m & -> & Hm & Hp & Hlt). destruct (decide (k < m)).
    + assert (sample_passes rate (tr_processed t) = true) as ->.
      { rewrite Ht, Z.min_l by lia. apply negb_false_iff, Hlt. lia. }
      unfold tr_count. simpl. rewrite Ht, int64_wrap_small by (unfold int64_ok; lia). lia.
    + assert (sample_passes rate (tr_processed t) = false) as ->.
      { rewrite Ht, Z.min_r by lia. by apply negb_true_iff. }
      rewrite Ht. lia.
  - assert (sample_passes rate (tr_processed t) = true) as ->.
    { rewrite Ht, sample_passes_mod by lia.
      assert (0 <= Z.of_nat k mod 100 < 100)%Z by (apply Z.mod_pos_bound; lia).
      specialize (Hf (Z.to_nat (Z.of_nat k mod 100)) ltac:(lia)). simpl in Hf.
      rewrite Z2Nat.id in Hf by lia. by apply negb_false_iff in Hf. }
    unfold tr_count. simpl. rewrite Ht, int64_wrap_small by (unfold int64_ok; lia). lia.
Qed.
End Sampling.

Lemma sample_step_same {P} (t : TransformActor P) :
  tr_type (sample_step t) = tr_type t /\ tr_adapter (sample_step t) = tr_adapter t /\
  tr_config (sample_step t) = tr_config t.
Proof. unfold sample_step. by destruct (sample_passes _ _). Qed.

(** Counting only the records it lets pass, a sampling transform stops for good at the first
    count it refuses: of any number of records it passes at most the percentage of one
    hundred, in all. *)
Theorem sampling_stops_for_good `{GoRuntime} {P} (Process : P -> Data -> res string (list Data))
    (now : string) (self : ActorRef) (ds : list Data) (t : TransformActor P) :
  tr_type t = "sample" -> tr_adapter t = None -> tr_processed t = 0%Z ->
  (Z.of_nat (List.length ds) < 2 ^ 63)%Z ->
  let n := sampled (sample_rate (tr_config t)) (List.length ds) in
  tr_processed (receive_all now self ds t) = n /\ tr_processed (bento_receive_all Process now self ds t) = n.
Proof.
  intros Ht Ha Hp Hlen n.
  assert (receive_all now self ds t = bento_receive_all Process now self ds t /\
    tr_type (receive_all now self ds t) = "sample" /\ tr_adapter (receive_all now self ds t) = None /\
    tr_config (receive_all now self ds t) = tr_config t /\ tr_processed (receive_all now self ds t) = n)
    as (<- & _ & _ & _ & ->); [|done].
  subst n. revert Hlen. unfold receive_all, bento_receive_all.
  induction ds as [|d ds IH] using rev_ind; intros Hlen.
  { simpl. repeat (split; [done|]). rewrite Hp. unfold sampled, first_refused.
    pose proof (find_first (fun c => negb (sample_passes (sample_rate (tr_config t)) c)) 0 100) as Hf.
    destruct (find _ _); [|done]. destruct Hf as (m & -> & _). lia. }
  rewrite length_app in Hlen. simpl in Hlen. rewrite !foldl_app. simpl.
  destruct IH as (<- & Ht' & Ha' & Hc' & Hp'); [lia|].
  rewrite transform_sample_step, bento_sample_step by done.
  destruct (sample_step_same (foldl (fun t d => (transform_Receive now self (data_message d) t).1.2) t ds))
    as (-> & -> & Hc).
  split; [done|]. split; [done|]. split; [done|]. split; [by rewrite Hc|].
  rewrite length_app, Nat.add_1_r. rewrite <- Hc' in *. apply sample_step_count; [done|lia].
Qed.

(** At a rate of ten percent, ten records pass. *)
Definition ten_percent : spec_float := SFdiv float64_prec float64_emax (float64_of_Z 1) (float64_of_Z 10).

Lemma sampling_stops_for_good_witness :
  first_refused ten_percent = Some 10%Z /\
  let t := NewBentoTransformActor (P := unit) "s"
    {["type" := VString "sample"; "rate" := VFloat64 ten_percent]} in
  tr_processed (bento_receive_all (H := demo_runtime) (fun _ d => Ok [d]) "now" 0 (replicate 1000 ∅) t) = 10%Z.
Proof.
  split; [by vm_compute|].
  destruct (sampling_stops_for_good (H := demo_runtime) (fun (_ : unit) d => Ok [d]) "now" 0 (replicate 1000 ∅)
    (NewBentoTransformActor "s" {["type" := VString "sample"; "rate" := VFloat64 ten_percent]})) as [_ E].
  - by vm_compute.
  - done.
  - done.
  - by vm_compute.
  - etrans; [exact E|]. by vm_compute.
Defined.

(** ** Round robin *)

Definition rr_after (msg : Message) (k : nat) (rr : RoundRobinRouter) : RoundRobinRouter :=
  Nat.iter k (fun rr => (round_robin_Receive msg rr).1) rr.

Lemma rr_after_spec msg k name outputs :
  MsgType msg = MessageTypeData -> outputs <> [] -> (Z.of_nat k < 2 ^ 63)%Z ->
  rr_after msg k (NewRoundRobinRouter name outputs) =
  MkRoundRobin (NewBaseActor name ∅) outputs (Z.of_nat k).
Proof.
  intros Hm Ho. induction k as [|k IH]; intros Hk; [done|].
  simpl. fold (rr_after msg k (NewRoundRobinRouter name outputs)). rewrite IH by lia.
  unfold round_robin_Receive. rewrite Hm. simpl. destruct outputs as [|o os]; [done|]. simpl.
  f_equal. rewrite int64_wrap_small by (unfold int64_ok; lia). lia.
Qed.

(** A round robin router sends its messages to its outputs in turn, without a panic as long as
    its counter has not wrapped around. *)
Theorem round_robin_takes_turns (name : string) (outputs : list string) (msg : Message) (k : nat) :
  MsgType msg = MessageTypeData -> outputs <> [] -> (Z.of_nat k < 2 ^ 63)%Z ->
  exists output, outputs !! (k mod List.length outputs) = Some output /\
    (round_robin_Receive msg (rr_after msg k (NewRoundRobinRouter name outputs))).2 =
    send_outputs [output] msg.
Proof.
  intros Hm Ho Hk. rewrite rr_after_spec by done.
  assert (0 < List.length outputs) as Hlen by (destruct outputs; simpl; [done|lia]).
  assert (k mod List.length outputs < List.length outputs) as Hlt by (apply Nat.mod_upper_bound; lia).
  destruct (lookup_lt_is_Some_2 _ _ Hlt) as [output E]. exists output. split; [done|].
  unfold round_robin_Receive. rewrite Hm. simpl.
  assert (rr_pick (MkRoundRobin (NewBaseActor name ∅) outputs (Z.of_nat k)) = Some output) as Hp.
  { unfold rr_pick. simpl. rewrite Z.rem_mod_nonneg by lia. rewrite <- Nat2Z.inj_mod.
    destruct (Z.ltb_spec (Z.of_nat (k mod List.length outputs)) 0); [lia|]. by rewrite Nat2Z.id. }
  destruct outputs; [done|]. by rewrite Hp.
Qed.

(** After 2^63 messages the counter is negative, and an index too. *)
Example round_robin_panics :
  let rr := MkRoundRobin (NewBaseActor "r" ∅) ["a"; "b"; "c"] (2 ^ 63 - 1) in
  let rr' := (round_robin_Receive (data_message ∅) rr).1 in
  rr_pick rr = Some "b" /\ rr_current rr' = (- 2 ^ 63)%Z /\ rr_pick rr' = None.
Proof. by vm_compute. Qed.

Lemma round_robin_takes_turns_witness :
  exists output, ["/p/a"; "/p/b"] !! (7 mod 2) = Some output /\
    (round_robin_Receive (data_message ∅)
       (rr_after (data_message ∅) 7 (NewRoundRobinRouter "r" ["/p/a"; "/p/b"]))).2 =
    send_outputs [output] (data_message ∅).
Proof. by apply (round_robin_takes_turns "r" ["/p/a"; "/p/b"] (data_message ∅) 7). Defined.

(** ** Routing by condition *)

(** The first route whose condition holds decides; without one, or when its output is empty,
    the default does. *)
Lemma route_first `{GoRuntime} routes d :
  (exists l1 r l2, routes = l1 ++ r :: l2 /\ Forall (fun r => evaluate (Condition r) d = false) l1 /\
     evaluate (Condition r) d = true /\ route routes d = Output r) \/
  Forall (fun r => evaluate (Condition r) d = false) routes /\ route routes d = "".
Proof.
  induction routes as [|r rs IH]; simpl; [right; by split|].
  destruct (evaluate (Condition r) d) eqn:E; [left; by exists [], r, rs|].
  destruct IH as [(l1 & r' & l2 & -> & Hl & Hr & Hro)|[Hl Hro]].
  - left. exists (r :: l1), r', l2. split; [done|]. split; [by constructor|]. by split.
  - right. split; [by constructor|done].
Qed.

(** Three evaluators of the same text. The router and the transform of the plain form and the
    transform of the Bento form agree on a text that is equal, and on nothing else: a missing
    field is refused by one and let pass by another, and a condition on another field is
    ignored by the third. *)
Example conditions_disagree (c := ".kind == " +:+ quoted "a") (d := {["level" := VString "info"]} : Data) :
  evaluate (H := demo_runtime) c d = false /\ evaluateCondition (H := demo_runtime) c d = true /\
  filter {["condition" := VString c]} {["kind" := VString "b"]} = Some {["kind" := VString "b"]} /\
  evaluateCondition (H := demo_runtime) c {["kind" := VString "b"]} = false.
Proof. by vm_compute. Qed.

(** ** Sinks lose no record *)

(** What happens to a sink. *)
Inductive SinkEvent :=
| SinkGets (msg : Message)
| SinkTicks
| SinkStops.

Section SinkRuns.
Context {O : Type} (write : SinkActor O -> list Data -> res string unit * list string).
Implicit Types s : SinkActor O.

Definition sink_event (ev : SinkEvent) s : SinkActor O * list string :=
  match ev with
  | SinkGets msg => let '(_, s, out) := sink_Receive (flush_with write) msg s in (s, out)
  | SinkTicks => flushLoop (flush_with write) s
  | SinkStops => sink_PostStop (flush_with write) s
  end.
Definition sink_run (s : SinkActor O) (evs : list SinkEvent) : SinkActor O :=
  foldl (fun s ev => (sink_event ev s).1) s evs.

(** The messages of type data a sink gets. *)
Definition sink_gets (evs : list SinkEvent) : nat :=
  List.length (List.filter (fun ev => match ev with
    | SinkGets msg => MsgType msg =? MessageTypeData
    | _ => false end) evs).

Definition held s : Z := (sk_processed s + sk_errors s + Z.of_nat (List.length (sk_buffer s)))%Z.

Lemma sink_count_held n e s : eqm (held (sink_count n e s)) (held s + n + e).
Proof.
  unfold held, sink_count. simpl. rewrite (wrap_eqm (sk_processed s + n)), (wrap_eqm (sk_errors s + e)).
  apply reflexive_eq. lia.
Qed.

Lemma flush_held s : eqm (held (flush_with write s).1) (held s) /\ sk_buffer (flush_with write s).1 = [] /\
  sk_maxEvents (flush_with write s).1 = sk_maxEvents s.
Proof.
  unfold flush_with. destruct (sk_buffer s) as [|d ds] eqn:E; [done|].
  destruct (write _ _) as [r out].
  assert (forall n e, (n + e = Z.of_nat (List.length (d :: ds)))%Z ->
    eqm (held (sink_count n e (sink_buffer [] s))) (held s)) as Hc.
  { intros n e Hne. rewrite sink_count_held. unfold held. rewrite E. simpl sk_processed. simpl sk_errors.
    simpl sk_buffer. apply reflexive_eq. change (Z.of_nat (List.length [])) with 0%Z. lia. }
  destruct r; (split; [apply Hc; lia|done]).
Qed.

(** Below its capacity, which is at least one. *)
Definition sink_ok s : Prop :=
  (Z.of_nat (List.length (sk_buffer s)) < Z.max 1 (sk_maxEvents s))%Z.

Lemma flush_ok s : sink_ok (flush_with write s).1.
Proof. destruct (flush_held s) as (_ & Hb & Hm). unfold sink_ok. rewrite Hb, Hm. simpl. lia. Qed.

Lemma sink_event_ok ev s :
  sink_ok s -> sink_ok (sink_event ev s).1 /\
  eqm (held (sink_event ev s).1) (held s + Z.of_nat (sink_gets [ev])).
Proof.
  intros Hok.
  assert (forall n e, sink_ok (sink_count n e s)) as Hcount by done.
  assert (eqm (held s) (held s + Z.of_nat 0)) as H0 by (by rewrite Z.add_0_r).
  destruct ev as [msg| |]; unfold sink_gets; simpl.
  - unfold sink_Receive. destruct (MsgType msg =? MessageTypeData); simpl.
    + unfold sink_handleData. destruct (payload_data msg) as [d|]; simpl.
      2: { split; [done|]. rewrite sink_count_held. apply reflexive_eq. lia. }
      set (s1 := sink_buffer _ s).
      assert (held s1 = (held s + 1)%Z) as Hs1.
      { unfold held, s1. simpl. rewrite length_app. simpl. lia. }
      destruct (Z.leb_spec (sk_maxEvents s) (Z.of_nat (List.length (sk_buffer s ++ [d])))) as [_|Hlt].
      * destruct (flush_held s1) as [Hh _]. pose proof (flush_ok s1). destruct (flush_with write s1); simpl in *.
        split; [done|]. by rewrite Hh, Hs1.
      * simpl. split; [|by rewrite Hs1]. unfold sink_ok, s1. simpl. lia.
    + destruct (MsgType msg =? MessageTypeCommand); simpl; [|done].
      unfold sink_handleCommand. destruct (payload_command msg) as [cmd|]; simpl; [|done].
      destruct (cmd =? "flush"); simpl; [|done].
      destruct (flush_held s) as [Hh _]. pose proof (flush_ok s). destruct (flush_with write s); simpl in *.
      split; [done|]. by rewrite Hh.
  - unfold flushLoop. destruct (sk_cancelled s); simpl; [done|].
    destruct (flush_held s) as [Hh _]. split; [apply flush_ok|]. by rewrite Hh.
  - unfold sink_PostStop. set (s1 := set_sink _ _ _ s).
    destruct (flush_held s1) as (Hh & Hb & Hm). pose proof (flush_ok s1) as Hf.
    destruct (flush_with write s1) as [s2 out]; simpl in *. split; [done|].
    change (held s1) with (held s) in Hh. by rewrite <- H0.
Qed.

(** Every data message a sink actor gets is counted as processed or failed or is in its
    buffer, which stays below its limit. *)
Theorem sink_actor_accounts (name ty : string) (config : Data) (s : SinkActor O) (evs : list SinkEvent) :
  new_sink name ty config = Ok s ->
  let s' := sink_run s evs in
  eqm (sk_processed s' + sk_errors s' + Z.of_nat (List.length (sk_buffer s'))) (Z.of_nat (sink_gets evs)) /\
  sink_ok s'.
Proof.
  intros Hs. assert (sink_ok s /\ held s = 0%Z) as [Hok Hinit].
  { unfold new_sink in Hs. destruct (Z.ltb_spec (buffer_events config) 0); simplify_eq.
    unfold sink_ok. simpl. split; [lia|done]. }
  assert (sink_ok (sink_run s evs) /\ eqm (held (sink_run s evs)) (Z.of_nat (sink_gets evs))) as []; [|by split].
  clear Hs. induction evs as [|ev evs IH] using rev_ind; [split; [done|]; by unfold sink_run; simpl; rewrite Hinit|].
  destruct IH as [IH1 IH2]. unfold sink_run. rewrite foldl_app. simpl. fold (sink_run s evs).
  destruct (sink_event_ok ev _ IH1) as [H1 H2]. split; [done|]. rewrite H2, IH2.
  apply reflexive_eq. unfold sink_gets. rewrite List.filter_app, length_app. lia.
Qed.
End SinkRuns.

(** A buffer of two. *)
Definition demo_sink_config : Data :=
  {["sink_type" := VString "file"; "buffer" := VMap {["max_events" := VInt KInt 2]}]}.
Definition demo_sink_events : list SinkEvent :=
  [SinkGets (data_message ∅); SinkTicks; SinkGets (data_message ∅); SinkGets (data_message ∅);
   SinkGets (MkMessage MessageTypeData (DataPayload VNil)); SinkGets (data_message ∅)].

(** No path is configured, so that all batches fail. *)
Lemma sink_actor_accounts_witness :
  exists s, NewSinkActor (O := unit) "out" demo_sink_config = Ok s /\
    let s' := sink_run (sink_write (fun _ => "")) s demo_sink_events in
    sk_errors s' = 4%Z /\ List.length (sk_buffer s') = 1 /\
    eqm (sk_processed s' + sk_errors s' + Z.of_nat (List.length (sk_buffer s'))) 5.
Proof.
  eexists. split; [reflexivity|]. split; [done|]. split; [done|].
  by apply (sink_actor_accounts (sink_write (fun _ => "")) "out" "file" demo_sink_config).
Defined.
