(* ===== verification/ActorFlow.v ===== *)
(** * How records flow between actors

    The actor system of [ActorSystem] with the actors of [ActorKinds] in it: the goroutine of
    an actor starts it and hands it its messages (runActor in pkg/actor/system.go), timers
    tick, and the system is stopped. A message is handled in one step here. The theorems
    say what the pipelines of [Runner] do with their records. *)

From Stdlib Require Import String.
From stdpp Require Import relations.
From S2P Require Import Prelude GoString GoValue Mailbox Supervisor ActorSystem.
From S2P Require Import Schema ConfigV1 Runner ActorKinds.
Local Open Scope string_scope.
Local Open Scope list_scope.

(** The message a closed and empty mailbox yields. *)
Definition zero_message : Message := MkMessage "" (DataPayload VNil).

Section Flow.
Context `{GoRuntime} {P O : Type}.
Context (Process : P -> Data -> res string (list Data)) (WriteBatch : O -> list Data -> res string unit).
Context (marshal marshal_indent : Data -> string).
Context (range_children : gmap string ChildInfo -> list (string * ChildInfo)).
Context (range_refs : gmap string ActorRef -> list (string * ActorRef)).
Context (fac : ActorFactory P O).

(** The system, the actors that were started, and what was printed. *)
Record World := MkWorld {
  w_sys : System;
  w_kinds : gmap nat (ActorKind P O);
  w_out : list string
}.

Inductive Event :=
| EvStart (r : ActorRef)
| EvTick (r : ActorRef) (ms : Z) (now : string)
| EvReceive (r : ActorRef) (clock : Z) (now : string)
| EvStop
| EvPostStop (r : ActorRef).

(** An actor's new state, its effect and its output. *)
Definition perform (w : World) (r : ActorRef) (k : option (ActorKind P O)) (m : act unit) (out : list string)
  : outcome unit World :=
  match m (w_sys w) with
  | Returns _ s => Returns tt (MkWorld s (match k with Some k => <[r := k]> (w_kinds w) | None => w_kinds w end) (w_out w ++ out))
  | Blocks => Blocks
  | Panics => Panics
  end.

(** The start of [runActor]; a supervisor needs nothing. *)
Definition start_actor (w : World) (r : ActorRef) (i : ActorInfo) : outcome unit World :=
  match ai_actor i with
  | SupervisorImpl _ => Returns tt w
  | OtherImpl f =>
      match make_kind fac f ≫= PreStart with
      | Ok k => perform w r (Some k) (ret tt) []
      | _ => Panics
      end
  end.

(** One round of the loop of [runActor]. *)
Definition receive_one (w : World) (r : ActorRef) (clock : Z) (now : string) (i : ActorInfo)
  : outcome unit World :=
  let '(msg, ok, m) := TryPop zero_message (ai_mailbox i) in
  if negb ok || ai_cancelled i then Returns tt w
  else
    let pop := update r (with_mailbox m) in
    match ai_actor i with
    | SupervisorImpl _ =>
        perform w r None (pop ;* ignore (ActorSystem.Receive range_children range_refs clock r msg)) []
    | OtherImpl _ =>
        match w_kinds w !! r with
        | None => Returns tt w
        | Some k =>
            let '(result, k, effect, out) :=
              Receive Process WriteBatch marshal marshal_indent range_refs now r msg k in
            match result with
            | Ok _ => perform w r (Some k) (pop ;* effect) out
            | Err _ => perform w r (Some k) (pop ;* effect ;* notifyParentOfFailure r) out
            | Panic => Panics
            end
        end
    end.

Definition step (w : World) (ev : Event) : outcome unit World :=
  match ev with
  | EvStart r =>
      match heap (w_sys w) !! r with Some i => start_actor w r i | None => Returns tt w end
  | EvTick r ms now =>
      match w_kinds w !! r with
      | None => Returns tt w
      | Some k =>
          let '(k, effect, out) := tick WriteBatch marshal marshal_indent ms now r k in
          perform w r (Some k) effect out
      end
  | EvReceive r clock now =>
      match heap (w_sys w) !! r with Some i => receive_one w r clock now i | None => Returns tt w end
  | EvStop =>
      match ActorSystem.Stop (w_sys w) with
      | Returns _ s => Returns tt (MkWorld s (w_kinds w) (w_out w))
      | Blocks => Blocks
      | Panics => Panics
      end
  | EvPostStop r =>
      match w_kinds w !! r with
      | None => Returns tt w
      | Some k => let '(k, out) := PostStop WriteBatch marshal marshal_indent k in perform w r (Some k) (ret tt) out
      end
  end.

Fixpoint run (w : World) (evs : list Event) : outcome unit World :=
  match evs with
  | [] => Returns tt w
  | ev :: evs =>
      match step w ev with
      | Returns _ w' => run w' evs
      | Blocks => Blocks
      | Panics => Panics
      end
  end.

(** ** Silent worlds *)

(** A factory of a flat pipeline whose options name no outputs as a slice of texts, which
    decoded documents cannot have. *)
Definition mute_factory (f : Factory) : Prop :=
  match f with
  | Supervisor.SourceActor _ c | Supervisor.TransformActor _ c => as_strings (c !! "outputs") = None
  | Supervisor.SinkActor _ _ => True
  | _ => False
  end.

(** An actor that sends to nobody, or a sink that got nothing. *)
Definition mute_kind (k : ActorKind P O) : Prop :=
  match k with
  | KSource s | KBentoSource s => src_outputs s = []
  | KTransform t | KBentoTransform t => tr_outputs t = []
  | KSink s | KBentoSink s => sk_buffer s = [] /\ sk_processed s = 0%Z /\ sk_errors s = 0%Z
  | _ => False
  end.

Definition mute_info (i : ActorInfo) : Prop :=
  ai_parent i = None /\ messages (ai_mailbox i) = [] /\
  exists f, ai_actor i = OtherImpl f /\ mute_factory f.

Record silent (w : World) : Prop := {
  si_heap : forall r i, heap (w_sys w) !! r = Some i -> mute_info i;
  si_kinds : forall r k, w_kinds w !! r = Some k -> mute_kind k /\ is_Some (heap (w_sys w) !! r);
  si_out : w_out w = []
}.

Lemma perform_silent w r k m out w' :
  silent w -> mute_kind k -> is_Some (heap (w_sys w) !! r) -> out = [] ->
  (exists x, m (w_sys w) = Returns x (w_sys w)) ->
  perform w r (Some k) m out = Returns tt w' -> silent w'.
Proof.
  intros [Hh Hk Ho] Hm Hr -> [x Hx]. unfold perform. rewrite Hx. intros [= <-]. split; simpl.
  - done.
  - intros r' k'. destruct (decide (r' = r)) as [->|Hne].
    + rewrite lookup_insert_eq. intros [= <-]. by split.
    + rewrite lookup_insert_ne by done. apply Hk.
  - by rewrite Ho.
Qed.

(** An effect that leaves the system as it is. *)
Definition no_effect (s : System) (m : act unit) : Prop := exists x, m s = Returns x s.

Lemma no_effect_ret s : no_effect s (ret tt).
Proof. by eexists. Qed.

Lemma send_parent_mute s r i msg : heap s !! r = Some i -> ai_parent i = None -> no_effect s (send_parent r msg).
Proof. intros Hi Hp. exists (inr tt). unfold send_parent, bind, deref. rewrite Hi. by rewrite Hp. Qed.

Lemma source_emit_mute s r i src d :
  heap s !! r = Some i -> ai_parent i = None -> src_outputs src = [] -> no_effect s (source_emit r src d).
Proof.
  intros Hi Hp Ho. unfold source_emit. rewrite Ho. destruct (send_parent_mute s r i (data_message d) Hi Hp) as [x Hx].
  exists x. unfold bind, send_outputs. simpl. by rewrite Hx.
Qed.

Lemma source_tick_mute s r i ms now src src' m w w' (c : SourceActor -> ActorKind P O) :
  heap s !! r = Some i -> ai_parent i = None -> src_outputs src = [] -> w_sys w = s ->
  source_tick ms now r src = (src', m) -> perform w r (Some (c src')) m [] = Returns tt w' ->
  src_outputs src' = [] /\ no_effect s m.
Proof.
  intros Hi Hp Ho Hs. unfold source_tick, bento_source_emit. pose proof (no_effect_ret s) as Hret.
  pose proof (fun src d => source_emit_mute s r i src d Hi Hp) as He.
  destruct (negb (src_running src)); [by intros [= <- <-]|].
  destruct (src_loop src); [intros [= <- <-]; by eauto|..|by intros [= <- <-]].
  - destruct (runDemoSource now (src_counter (count_tick src))); intros [= <- <-]; [by eauto|].
    unfold perform, panic. done.
  - simpl. destruct (negb (src_running src)); intros [= <- <-]; by eauto.
Qed.

Lemma flush_with_empty write (s : SinkActor O) : sk_buffer s = [] -> flush_with write s = (s, []).
Proof. intros E. unfold flush_with. by rewrite E. Qed.

Lemma pop_mute s r i : heap s !! r = Some i -> update r (with_mailbox (ai_mailbox i)) s = Returns (inr tt) s.
Proof.
  intros Hi. unfold update. do 2 f_equal. destruct s. unfold set_heap. simpl in *. f_equal. apply map_eq.
  intros r'. destruct (decide (r' = r)) as [->|Hne]; [|by rewrite lookup_alter_ne].
  rewrite lookup_alter_eq, Hi. by destruct i.
Qed.

Lemma zero_message_mute now r k :
  mute_kind k ->
  Receive Process WriteBatch marshal marshal_indent range_refs now r zero_message k = (Ok tt, k, ret tt, []).
Proof. intros Hk. by destruct k. Qed.

Lemma PostStop_mute k : mute_kind k ->
  exists k', PostStop WriteBatch marshal marshal_indent k = (k', []) /\ mute_kind k'.
Proof.
  intros Hk. destruct k as [s|s|t|t|s|s|r|b|rr|b]; try done; simpl; try by eexists.
  all: unfold bento_sink_PostStop, sink_PostStop, flush, bento_flush; rewrite flush_with_empty by apply Hk; by eexists.
Qed.

Lemma tick_mute w r i k ms now w' :
  silent w -> heap (w_sys w) !! r = Some i -> mute_kind k ->
  (let '(k, effect, out) := tick WriteBatch marshal marshal_indent ms now r k in
   perform w r (Some k) effect out) = Returns tt w' ->
  silent w'.
Proof.
  intros Hw Hi Hk. destruct (si_heap _ Hw _ _ Hi) as (Hp & _).
  pose proof (no_effect_ret (w_sys w)) as Hret.
  assert (is_Some (heap (w_sys w) !! r)) as Hs by by eexists.
  destruct k as [s|s|t|t|s|s|rt|b|rr|b]; try done; simpl.
  1, 2: destruct (source_tick ms now r s) as [s' m] eqn:E; intros Hpf;
    destruct (source_tick_mute _ _ _ _ _ _ _ _ w w' _ Hi Hp Hk eq_refl E Hpf) as [Ho Hm];
    eapply perform_silent; [exact Hw| |exact Hs|reflexivity|exact Hm|exact Hpf]; exact Ho.
  1, 2: by apply perform_silent.
  all: unfold bento_flushLoop, flushLoop, flush, bento_flush; rewrite flush_with_empty by apply Hk;
    destruct (sk_cancelled s); by apply perform_silent.
Qed.

Lemma receive_mute w r clock now i w' :
  silent w -> heap (w_sys w) !! r = Some i -> receive_one w r clock now i = Returns tt w' -> silent w'.
Proof.
  intros Hw Hi. destruct (si_heap _ Hw _ _ Hi) as (Hp & Hm & f & Hf & _).
  unfold receive_one, TryPop. rewrite Hm. destruct (closed (ai_mailbox i)); simpl; [|by intros [= <-]].
  destruct (ai_cancelled i); [by intros [= <-]|]. rewrite Hf.
  destruct (w_kinds w !! r) as [k|] eqn:Ek; [|by intros [= <-]].
  destruct (si_kinds _ Hw _ _ Ek) as [Hk _]. rewrite zero_message_mute by done.
  eapply perform_silent; [done|done|by eexists|done|]. eexists. unfold bind. by rewrite pop_mute.
Qed.

Lemma stop_mute w x s : silent w -> ActorSystem.Stop (w_sys w) = Returns x s ->
  silent (MkWorld s (w_kinds w) (w_out w)).
Proof.
  intros [Hh Hk Ho]. unfold ActorSystem.Stop, bind, get, put, ret.
  destruct (running (w_sys w)); simpl; [|by intros [= _ <-]]. intros [= _ <-]. split; simpl; [|..|done].
  - intros r i. rewrite map_lookup_imap. destruct (heap (w_sys w) !! r) as [i0|] eqn:E; [|done]. simpl.
    intros [= <-]. destruct (Hh _ _ E) as (H1 & H2 & H3).
    destruct (bool_decide _); unfold mute_info; simpl; [|by repeat split].
    split; [done|]. split; [|done]. unfold Close. by destruct (negb _).
  - intros r k Hr. destruct (Hk _ _ Hr) as [? [i Hi]]. split; [done|].
    rewrite map_lookup_imap, Hi. simpl. by eexists.
Qed.

(** The kinds the factory makes for a flat pipeline, with or without Bento. *)
Context (fac_linked : exists bento, fac = SetUseBento bento (DefaultFactory true)).

Lemma make_source bento n c :
  make_kind (SetUseBento bento (DefaultFactory true)) (Supervisor.SourceActor n c) =
  Ok (Some (if bento then KBentoSource (P := P) (O := O) (NewBentoSourceActor n c)
            else KSource (NewSourceActor n c))).
Proof. done. Qed.
Lemma make_transform bento n c :
  make_kind (SetUseBento bento (DefaultFactory true)) (Supervisor.TransformActor n c) =
  Ok (Some (if bento then KBentoTransform (P := P) (O := O) (NewBentoTransformActor n c)
            else KTransform (NewTransformActor n c))).
Proof. done. Qed.
Lemma make_sink bento n c :
  make_kind (P := P) (O := O) (SetUseBento bento (DefaultFactory true)) (Supervisor.SinkActor n c) =
  if bento then (NewBentoSinkActor n c ≫= fun s => Ok (Some (KBentoSink s)))
  else (NewSinkActor n c ≫= fun s => Ok (Some (KSink s))).
Proof.
  destruct bento; [change (make_kind _ _) with ((NewBentoSinkActor (O := O) n c ≫= fun s => Ok (KBentoSink (P := P) s))
                     ≫= fun k => Ok (Some k))
    |change (make_kind _ _) with ((NewSinkActor (O := O) n c ≫= fun s => Ok (KSink (P := P) s))
                     ≫= fun k => Ok (Some k))].
  - by destruct (NewBentoSinkActor n c).
  - by destruct (NewSinkActor n c).
Qed.

Lemma sink_PreStart_mute (s s' : SinkActor O) :
  sink_PreStart s = Ok s' ->
  sk_buffer s' = sk_buffer s /\ sk_processed s' = sk_processed s /\ sk_errors s' = sk_errors s.
Proof. unfold sink_PreStart. case_match; [done|]. by intros [= <-]. Qed.

Lemma make_mute f k : mute_factory f -> make_kind fac f ≫= PreStart = Ok k -> mute_kind k.
Proof.
  destruct fac_linked as [bento ->]. destruct f as [|n c|n c|n c|n c]; try done; intros Hf; unfold mute_factory in Hf.
  - rewrite make_source. destruct bento; intros E; injection E as <-; [|done].
    unfold mute_kind, bento_source_PreStart.
    destruct (BuildInput _ _); change (default [] (as_strings (c !! "outputs")) = []); by rewrite Hf.
  - rewrite make_transform. destruct bento; intros E; injection E as <-; unfold mute_kind.
    + unfold bento_transform_PreStart. destruct (mapToBentoProcessor _).
      change (default [] (as_strings (c !! "outputs")) = []). by rewrite Hf.
    + change (default [] (as_strings (c !! "outputs")) = []). by rewrite Hf.
  - rewrite make_sink. destruct bento.
    + unfold NewBentoSinkActor, new_sink. case_match; [done|].
      cbn -[bento_sink_PreStart]. destruct (bento_sink_PreStart _) as [s| |] eqn:E; [|done..].
      intros E'. injection E' as <-. by apply sink_PreStart_mute in E.
    + unfold NewSinkActor, new_sink. case_match; [done|].
      cbn -[sink_PreStart]. destruct (sink_PreStart _) as [s| |] eqn:E; [|done..].
      intros E'. injection E' as <-. by apply sink_PreStart_mute in E.
Qed.

Lemma start_mute w r i w' :
  silent w -> heap (w_sys w) !! r = Some i -> start_actor w r i = Returns tt w' -> silent w'.
Proof.
  intros Hw Hi. destruct (si_heap _ Hw _ _ Hi) as (_ & _ & f & Hf & Hm). unfold start_actor. rewrite Hf.
  destruct (make_kind fac f ≫= PreStart) as [k| |] eqn:E; [|done..].
  apply perform_silent; [done|by eapply make_mute|by eexists|done|apply no_effect_ret].
Qed.

Lemma step_mute w ev w' : silent w -> step w ev = Returns tt w' -> silent w'.
Proof.
  intros Hw. destruct ev as [r|r ms now|r clock now| |r]; simpl.
  - destruct (heap (w_sys w) !! r) eqn:E; [by apply start_mute|by intros [= <-]].
  - destruct (w_kinds w !! r) as [k|] eqn:E; [|by intros [= <-]].
    destruct (si_kinds _ Hw _ _ E) as [Hk [i Hi]]. by eapply tick_mute.
  - destruct (heap (w_sys w) !! r) eqn:E; [by apply receive_mute|by intros [= <-]].
  - destruct (ActorSystem.Stop (w_sys w)) eqn:E; [|done..]. intros [= <-]. by eapply stop_mute.
  - destruct (w_kinds w !! r) as [k|] eqn:E; [|by intros [= <-]].
    destruct (si_kinds _ Hw _ _ E) as [Hk Hi]. destruct (PostStop_mute k Hk) as (k' & -> & Hk').
    apply perform_silent; [done|done|done|done|apply no_effect_ret].
Qed.

Lemma run_mute w evs w' : silent w -> run w evs = Returns tt w' -> silent w'.
Proof.
  revert w. induction evs as [|ev evs IH]; intros w Hw; simpl; [by intros [= <-]|].
  destruct (step w ev) as [[] w1| |] eqn:E; [|done..]. apply IH. by eapply step_mute.
Qed.
End Flow.

(** ** Flat pipelines deliver nothing *)

(** The actors of a list of factories: at the top, with empty mailboxes. *)
Lemma spawn_all_heap (Q : ActorInfo -> Prop) l s x s' :
  running s = true ->
  (forall n f c m path, (n, f) ∈ l -> messages m = [] ->
     Q (MkActorInfo path n None ∅ m (create f) true c)) ->
  (forall r i, heap s !! r = Some i -> Q i) ->
  spawn_all l s = Returns x s' -> forall r i, heap s' !! r = Some i -> Q i.
Proof.
  revert s. induction l as [|[n f] l IH]; intros s Hr Hl Hs.
  { intros [= _ <-]. apply Hs. }
  rewrite spawn_all_cons. destruct (call_factory (top_props n f)) as [a|] eqn:Ha.
  - rewrite (spawn_top _ a) by done. simpl PropsName. cbv zeta.
    destruct (actors s !! top_path s n); [by intros [= _ <-]|]. apply IH; [done| |].
    { intros n' f' c m path Hin. apply Hl. by right. }
    intros r i. simpl. intros [[<- <-]|[_ Hi]]%lookup_insert_Some; [|by eapply Hs].
    apply call_factory_create in Ha as (f' & Hf & ->). simpl in Hf. injection Hf as <-.
    apply Hl; [by left|done].
  - unfold spawn, bind, get. rewrite Hr. unfold ret, fail. simpl. rewrite Ha.
    by destruct (actors s !! _); [intros [= _ <-]|].
Qed.

(** No options name outputs as a slice of texts. *)
Definition no_outputs (o : Orders) : Prop :=
  Forall (fun x => as_strings (SourceOptions x.2 !! "outputs") = None) (o_sources o) /\
  Forall (fun x => as_strings (TransformOptions x.2 !! "outputs") = None) (o_transforms o).

Lemma flat_actors_mute o n f : no_outputs o -> (n, f) ∈ flat_actors o -> mute_factory f.
Proof.
  intros [Hs Ht]. unfold flat_actors. rewrite !elem_of_app, !list_elem_of_fmap.
  intros [([n' c] & [= -> ->] & Hin)|[([n' c] & [= -> ->] & Hin)|([n' c] & [= -> ->] & Hin)]]; [..|done].
  - rewrite Forall_forall in Hs. specialize (Hs _ Hin). simpl in *. unfold source_config.
    by rewrite lookup_union_l by by rewrite lookup_singleton_ne.
  - rewrite Forall_forall in Ht. specialize (Ht _ Hin). simpl in *. unfold transform_config.
    by rewrite lookup_union_l by by rewrite lookup_insert_ne, lookup_singleton_ne.
Qed.

Lemma flat_start_mute `{GoArch} now o r r' s :
  PType (config r) = PipelineTypeFlat -> status r <> PipelineStatusRunning -> no_outputs o ->
  Runner.Start now o r = Returns (Ok tt) r' -> system r' = Some s ->
  forall q i, heap s !! q = Some i -> mute_info i.
Proof.
  intros Ht Hst Ho. unfold Runner.Start. rewrite bool_decide_eq_false_2 by done. rewrite Ht. simpl.
  unfold startFlatPipeline. destruct (spawn_all (flat_actors o) (started_system (config r))) as [[e|[]] s'| |] eqn:E;
    simpl; try done. intros [= <-]. simpl. intros [= <-].
  eapply (spawn_all_heap mute_info); [apply (started_system_running (config r))| |..|exact E].
  - intros n f c m path Hin Hm. split; [done|]. split; [done|]. exists f. pose proof (flat_actors_mute _ _ _ Ho Hin).
    split; [by destruct f|done].
  - intros q i. unfold started_system, ActorSystem.Start, bind, get, put. simpl. by rewrite lookup_empty.
Qed.

(** C28: Flat pipelines deliver nothing. Nobody connects the actors of a flat pipeline: a source
    or a transform sends to the outputs in its configuration, which the runner does not
    write and a decoded document cannot contain, and to its parent, which it does not have.
    Whatever the actors of a flat pipeline do, with Bento or without, no message is ever
    sent, no sink gets a record and nothing is written. *)
Theorem flat_pipeline_delivers_nothing `{GoRuntime} `{GoArch} {P O : Type}
    (Process : P -> Data -> res string (list Data)) (WriteBatch : O -> list Data -> res string unit)
    (marshal marshal_indent : Data -> string)
    (range_children : gmap string ChildInfo -> list (string * ChildInfo))
    (range_refs : gmap string ActorRef -> list (string * ActorRef))
    (bento : bool) (now : Z) (o : Orders) (r r' : Runner) (s : System) (evs : list Event)
    (w : World (P := P) (O := O)) :
  PType (config r) = PipelineTypeFlat -> status r <> PipelineStatusRunning -> no_outputs o ->
  Runner.Start now o r = Returns (Ok tt) r' -> system r' = Some s ->
  run Process WriteBatch marshal marshal_indent range_children range_refs
    (SetUseBento bento (DefaultFactory true)) (MkWorld s ∅ []) evs = Returns tt w ->
  (forall q i, heap (w_sys w) !! q = Some i -> messages (ai_mailbox i) = []) /\
  (forall q k, w_kinds w !! q = Some (KSink k) \/ w_kinds w !! q = Some (KBentoSink k) ->
     sk_processed k = 0%Z /\ sk_buffer k = []) /\
  w_out w = [].
Proof.
  intros Ht Hst Ho Hs Hsys Hrun. pose proof (flat_start_mute _ _ _ _ _ Ht Hst Ho Hs Hsys) as Hmute.
  assert (silent w) as [Hh Hk Hout].
  { eapply run_mute; [by eexists| |exact Hrun]. split; [done|..|done]. intros q k. simpl. by rewrite lookup_empty. }
  split; [|split; [|done]].
  - intros q i Hi. by apply Hh in Hi as (_ & Hm & _).
  - intros q k [E|E]; apply Hk in E as [(H1 & H2 & _) _]; by split.
Qed.

(** A demonstration source before a console: three ticks, one of the sink, and a stop. *)
Definition demo_flow : list Event :=
  [EvStart 0; EvStart 1; EvTick 0 0 "t"; EvTick 0 1 "t"; EvReceive 1 0 "t"; EvTick 0 2 "t"; EvTick 1 3 "t";
   EvStop; EvReceive 1 0 "t"; EvPostStop 0; EvPostStop 1].

Definition demo_started : Runner :=
  match Runner.Start (H := Runner.x86) 0 (demo_orders "out") (demo_runner "out") with
  | Returns _ r => r
  | _ => demo_runner "out"
  end.
Definition demo_flat : System := default (NewSystem "" None) (system demo_started).
Definition demo_world : World (P := unit) (O := unit) :=
  match run (H := demo_runtime) (fun _ _ => Ok []) (fun _ _ => Ok tt) (fun _ => "") (fun _ => "") map_to_list map_to_list
          (SetUseBento true (DefaultFactory true)) (MkWorld demo_flat ∅ []) demo_flow with
  | Returns _ w => w
  | _ => MkWorld demo_flat ∅ []
  end.

Lemma demo_started_ok :
  Runner.Start (H := Runner.x86) 0 (demo_orders "out") (demo_runner "out") = Returns (Ok tt) demo_started /\
  system demo_started = Some demo_flat.
Proof. vm_compute. by split. Qed.
Lemma demo_world_ok :
  run (H := demo_runtime) (fun _ _ => Ok []) (fun _ _ => Ok tt) (fun _ => "") (fun _ => "") map_to_list map_to_list
    (SetUseBento true (DefaultFactory true)) (MkWorld demo_flat ∅ []) demo_flow = Returns tt demo_world.
Proof. vm_compute. done. Qed.

(** The source counts its three records, and none arrives. *)
Lemma flat_pipeline_delivers_nothing_witness :
  (exists k, w_kinds demo_world !! 0 = Some (KBentoSource k) /\ src_processed k = 3%Z) /\
  (forall q i, heap (w_sys demo_world) !! q = Some i -> messages (ai_mailbox i) = []) /\ w_out demo_world = [].
Proof.
  split; [vm_compute; by eexists|].
  destruct demo_started_ok as [Hs Hsys].
  assert (no_outputs (demo_orders "out")) as Ho by (split; by repeat constructor).
  assert (status (demo_runner "out") <> PipelineStatusRunning) as Hst by discriminate.
  destruct (flat_pipeline_delivers_nothing _ _ _ _ _ _ true 0 (demo_orders "out") (demo_runner "out") _ _ _ _
    eq_refl Hst Ho Hs Hsys demo_world_ok) as (H1 & _ & H2).
  by split.
Defined.

(** ** Actors that were never registered *)

(** No program of the repository links the package actor/types, whose initialisation
    registers the kinds of actors. In such a program the factory is empty, the constructors
    answer nil, and every actor of a flat pipeline panics when its goroutine starts it. *)
Theorem unregistered_actors_panic `{GoRuntime} `{GoArch} {P O : Type}
    (Process : P -> Data -> res string (list Data)) (WriteBatch : O -> list Data -> res string unit)
    (marshal marshal_indent : Data -> string)
    (range_children : gmap string ChildInfo -> list (string * ChildInfo))
    (range_refs : gmap string ActorRef -> list (string * ActorRef))
    (now : Z) (o : Orders) (r r' : Runner) (s : System) (w : World (P := P) (O := O)) (q : ActorRef) :
  PType (config r) = PipelineTypeFlat -> status r <> PipelineStatusRunning -> no_outputs o ->
  Runner.Start now o r = Returns (Ok tt) r' -> system r' = Some s -> is_Some (heap s !! q) -> w_sys w = s ->
  step Process WriteBatch marshal marshal_indent range_children range_refs (DefaultFactory false) w (EvStart q)
  = Panics.
Proof.
  intros Ht Hst Ho Hs Hsys [i Hi] Hw.
  destruct (flat_start_mute _ _ _ _ _ Ht Hst Ho Hs Hsys q i Hi) as (_ & _ & f & Hf & Hm).
  simpl. rewrite Hw, Hi. unfold start_actor. rewrite Hf. by destruct f.
Qed.

Lemma unregistered_actors_panic_witness :
  step (P := unit) (O := unit) (H := demo_runtime) (fun _ _ => Ok []) (fun _ _ => Ok tt) (fun _ => "") (fun _ => "")
    map_to_list map_to_list (DefaultFactory false) (MkWorld demo_flat ∅ []) (EvStart 0) = Panics.
Proof.
  destruct demo_started_ok as [Hs Hsys].
  assert (no_outputs (demo_orders "out")) as Ho by (split; by repeat constructor).
  assert (status (demo_runner "out") <> PipelineStatusRunning) as Hst by discriminate.
  assert (is_Some (heap demo_flat !! 0)) as H0 by (vm_compute; by eexists).
  exact (unregistered_actors_panic _ _ _ _ _ _ 0 (demo_orders "out") (demo_runner "out") _ _ (MkWorld demo_flat ∅ []) _
    eq_refl Hst Ho Hs Hsys H0 eq_refl).
Defined.

(** ** Supervised transforms never finish *)

(** A supervisor with passthrough transforms as children, as [StartChildren] makes them. *)
Definition transforms (names : list string) : list ActorDefinition :=
  (fun n => MkActorDefinition n "transform" 0 None ∅ [] []) <$> names.

Definition supervised (names : list string) : act ActorRef :=
  ActorSystem.Start ;*
  let* root := spawn (Runner.top_props "root" (SupervisorActor None)) None in
  StartChildren root root (transforms names) ;* ret root.

Definition system_after {A} (m : act A) : System :=
  match m (NewSystem "p" None) with Returns _ s => s | _ => NewSystem "p" None end.

(** The record in the mailbox of the supervisor, all children started. *)
Definition echo_start (names : list string) : World (P := unit) (O := unit) :=
  let w := MkWorld (system_after (let* root := supervised names in Tell root (data_message ∅))) ∅ [] in
  match run (H := demo_runtime) (fun _ _ => Ok []) (fun _ _ => Ok tt) (fun _ => "") (fun _ => "") map_to_list map_to_list
    (DefaultFactory true) w (EvStart <$> seq 1 (List.length names)) with
  | Returns _ w => w
  | _ => w
  end.

Definition echo_run (evs : list Event) (w : World (P := unit) (O := unit)) : option (World (P := unit) (O := unit)) :=
  match run (H := demo_runtime) (fun _ _ => Ok []) (fun _ _ => Ok tt) (fun _ => "") (fun _ => "") map_to_list map_to_list
    (DefaultFactory true) w evs with
  | Returns _ w => Some w
  | _ => None
  end.
Definition waiting (r : ActorRef) (w : World (P := unit) (O := unit)) : nat :=
  from_option (fun i => List.length (messages (ai_mailbox i))) 0 (heap (w_sys w) !! r).

(** The supervisor handles [n] messages, then each of [m] children does. *)
Definition echo_round (m n : nat) : list Event :=
  replicate n (EvReceive 0 0 "t") ++ flat_map (fun c => replicate n (EvReceive c 0 "t")) (seq 1 m).

(** Two transforms double the messages in every round: one, two, four, eight. *)
Example two_transforms_double :
  let ws := [echo_run [] (echo_start ["a"; "b"]); echo_run (echo_round 2 1) (echo_start ["a"; "b"]);
             echo_run (echo_round 2 1 ++ echo_round 2 2) (echo_start ["a"; "b"]);
             echo_run (echo_round 2 1 ++ echo_round 2 2 ++ echo_round 2 4) (echo_start ["a"; "b"])] in
  map (option_map (waiting 0)) ws = [Some 1; Some 2; Some 4; Some 8].
Proof. vm_compute. reflexivity. Qed.

(** With one transform the same record comes back in every round. *)
Definition echo_actor (processed : Z) : TransformActor unit :=
  MkTransformActor (MkBaseActor "a" ActorStateRunning ∅) "passthrough" [] None processed 0.
Definition echo_world (processed : Z) : World (P := unit) (O := unit) :=
  MkWorld (w_sys (echo_start ["a"])) {[1 := KBentoTransform (echo_actor processed)]} [].

Lemma echo_run_app evs evs' w : echo_run (evs ++ evs') w = echo_run evs w ≫= echo_run evs'.
Proof.
  unfold echo_run. revert w. induction evs as [|ev evs IH]; intros w; simpl; [done|].
  destruct (step _ _ _ _ _ _ _ w ev); [apply IH|done..].
Qed.

Lemma receive_passthrough w r now i f rest (t : TransformActor unit) d :
  heap (w_sys w) !! r = Some i -> ai_actor i = OtherImpl f -> ai_cancelled i = false ->
  messages (ai_mailbox i) = data_message d :: rest -> w_kinds w !! r = Some (KBentoTransform t) ->
  tr_adapter t = None -> tr_type t = "passthrough" -> tr_outputs t = [] ->
  step (O := unit) (H := demo_runtime) (fun _ _ => Ok []) (fun _ _ => Ok tt) (fun _ => "") (fun _ => "")
    map_to_list map_to_list (DefaultFactory true) w (EvReceive r 0 now) =
  perform w r (Some (KBentoTransform (tr_count 1 0 t)))
    (update r (with_mailbox (set_messages (ai_mailbox i) rest)) ;* send_parent r (data_message d) ;* ret tt) [].
Proof.
  intros Hi Hf Hc Hm Hk Ha Ht Ho. simpl. rewrite Hi. unfold receive_one, TryPop. rewrite Hm, Hc, Hf, Hk. simpl.
  unfold bento_transform_Receive, bento_handleData, bento_transform, builtinTransform. simpl. rewrite Ha, Ht. simpl.
  unfold bento_emit, transform_emit. by rewrite Ho.
Qed.

(** The supervisor hands the record on, whatever the actors are. *)
Definition echo_middle : System :=
  match echo_run [EvReceive 0 0 "t"] (echo_start ["a"]) with Some w => w_sys w | None => NewSystem "p" None end.

Lemma echo_down kinds :
  echo_run [EvReceive 0 0 "t"] (MkWorld (w_sys (echo_start ["a"])) kinds []) = Some (MkWorld echo_middle kinds []).
Proof. vm_compute. reflexivity. Qed.

Definition echo_info : ActorInfo :=
  default (MkActorInfo "" "" None ∅ (NewMailbox None) (OtherImpl (SupervisorActor None)) true false)
    (heap echo_middle !! 1).

(** The transform sends it back. *)
Lemma echo_up :
  (update 1 (with_mailbox (set_messages (ai_mailbox echo_info) [])) ;*
   send_parent 1 (data_message ∅) ;* ret tt) echo_middle = Returns (inr tt) (w_sys (echo_start ["a"])).
Proof. vm_compute. reflexivity. Qed.

Lemma echo_info_ok :
  heap echo_middle !! 1 = Some echo_info /\ ai_actor echo_info = OtherImpl (Supervisor.TransformActor "a" ∅) /\
  ai_cancelled echo_info = false /\ messages (ai_mailbox echo_info) = [data_message ∅].
Proof. vm_compute. by repeat split. Qed.

Lemma echo_one_round n : echo_run (echo_round 1 1) (echo_world n) = Some (echo_world (int64_wrap (n + 1))).
Proof.
  change (echo_round 1 1) with ([EvReceive 0 0 "t"] ++ [EvReceive 1 0 "t"]).
  rewrite echo_run_app. unfold echo_world at 1. rewrite echo_down. cbn [mbind option_bind].
  destruct echo_info_ok as (Hi & Hf & Hc & Hm). unfold echo_run, run.
  rewrite (receive_passthrough (MkWorld echo_middle {[1 := KBentoTransform (echo_actor n)]} []) 1 "t" echo_info _ []
    (echo_actor n) ∅ Hi Hf Hc Hm (lookup_singleton_eq _ _) eq_refl eq_refl eq_refl).
  unfold perform. cbn [w_sys w_kinds w_out]. by rewrite echo_up.
Qed.

(** A record that reaches a supervised transform without outputs is sent to the supervisor,
    which sends it to all of its children again: it is processed in every round, for ever,
    and never leaves. *)
Theorem supervised_transform_never_finishes (rounds : nat) :
  exists w, echo_run (concat (replicate rounds (echo_round 1 1))) (echo_start ["a"]) = Some w /\
    waiting 0 w = 1 /\ w = echo_world (Nat.iter rounds (fun n => int64_wrap (n + 1)) 0%Z).
Proof.
  assert (echo_start ["a"] = echo_world 0) as -> by (vm_compute; reflexivity).
  exists (echo_world (Nat.iter rounds (fun n => int64_wrap (n + 1)) 0%Z)).
  split; [|by split; [vm_compute|]].
  induction rounds as [|k IH]; [done|].
  rewrite replicate_S_end, concat_app, echo_run_app, IH. cbn [mbind option_bind concat].
  change (Nat.iter (S k) ?f ?x) with (f (Nat.iter k f x)). rewrite app_nil_r. apply echo_one_round.
Qed.
