(* ===== verification/Dispatcher.v ===== *)
(** * The receive loop of an actor and the dispatcher (pkg/actor/system.go)

    The goroutine of an actor takes messages from the mailbox and hands each as a task to
    a pool of workers that all actors share; when the channel of the pool is full, the task
    gets a goroutine of its own. Stopping the system closes the mailboxes and the channel and
    waits for the workers under the lock of the system, which a task needs to look up, spawn
    or stop an actor. The steps of the loops, the workers and the stop are interleaved. *)

From Stdlib Require Import String.
From S2P Require Import Prelude Mailbox.
Local Open Scope list_scope.

Section Dispatching.
Context {M : Type}.
(** The zero message, and whether handling a message takes the lock of the system. *)
Context (zero : M) (needs_lock : M -> bool).

(** A message with the actor that handles it. *)
Definition Task : Type := nat * M.

(** [busy] are the tasks the workers run, [workers] their number. *)
Record Dispatcher := MkDispatcher {
  parallelism : nat;
  tasks : list Task;
  closed_ : bool;
  running : bool;
  workers : nat;
  busy : list Task
}.

Definition NewDispatcher (p : nat) : Dispatcher := MkDispatcher p [] false false 0 [].

Definition Start (d : Dispatcher) : Dispatcher :=
  if running d then d
  else MkDispatcher (parallelism d) (tasks d) (closed_ d) true (workers d + parallelism d) (busy d).

(** [Stop] up to the wait for the workers; closing a closed channel panics. *)
Definition Stop (d : Dispatcher) : outcome unit Dispatcher :=
  if negb (running d) then Returns tt d
  else if closed_ d then Panics
  else Returns tt (MkDispatcher (parallelism d) (tasks d) true false (workers d) (busy d)).

(** What [wg.Wait] waits for. *)
Definition drained (d : Dispatcher) : bool :=
  match tasks d, busy d with [], [] => true | _, _ => false end.

Definition set_tasks (l b : list Task) (d : Dispatcher) : Dispatcher :=
  MkDispatcher (parallelism d) l (closed_ d) (running d) (workers d) b.

(** [Dispatch]: whether the task needs a goroutine of its own. Sending on a closed channel
    panics. *)
Definition Dispatch (t : Task) (d : Dispatcher) : outcome bool Dispatcher :=
  if closed_ d then Panics
  else if (List.length (tasks d) <? parallelism d * 100)%nat
  then Returns false (set_tasks (tasks d ++ [t]) (busy d) d)
  else Returns true d.

(** A free worker takes the first task. *)
Definition worker (d : Dispatcher) : option Dispatcher :=
  match tasks d with
  | [] => None
  | t :: l => if (List.length (busy d) <? workers d)%nat then Some (set_tasks l (busy d ++ [t]) d) else None
  end.

(** ** The loops and the system *)

(** Where the loop of [runActor] is: before the select, after it, or with a message. *)
Inductive LoopState := LWaiting | LChecked | LPopped (msg : M).

Record Loop := MkLoop {
  mailbox : Mailbox M;
  loop_state : LoopState;
  cancelled : bool
}.

Inductive StopPhase := NotStopped | Waiting | Stopped.

(** [direct] are the tasks with a goroutine of their own; [popped] and [handled] record what
    was taken from mailboxes and what was handled. *)
Record Sys := MkSys {
  loops : gmap nat Loop;
  disp : Dispatcher;
  direct : list Task;
  phase : StopPhase;
  popped : list Task;
  handled : list Task
}.

Inductive Event :=
| Deliver (a : nat) (msg : M)
| Check (a : nat)
| Pop (a : nat)
| Hand (a : nat)
| Take
| Done (i : nat)
| DirectDone (i : nat)
| StopBegin
| StopEnd.

Definition set_loop (a : nat) (l : Loop) (s : Sys) : Sys :=
  MkSys (<[a := l]> (loops s)) (disp s) (direct s) (phase s) (popped s) (handled s).
Definition set_disp (d : Dispatcher) (dir : list Task) (h : list Task) (s : Sys) : Sys :=
  MkSys (loops s) d dir (phase s) (popped s) h.

Definition lock_held (s : Sys) : bool := match phase s with Waiting => true | _ => false end.
(** A task that needs the lock cannot end while the stop holds it. *)
Definition can_end (s : Sys) (t : Task) : bool := negb (needs_lock t.2 && lock_held s).

(** [select]: the loop goes on unless its context is cancelled; then it ends. *)
Definition check (l : Loop) : Loop :=
  match loop_state l with
  | LWaiting => if cancelled l then l else MkLoop (mailbox l) LChecked (cancelled l)
  | _ => l
  end.
(** [TryPop]; without a message the loop sleeps and starts again. *)
Definition pop (l : Loop) : Loop * option M :=
  match loop_state l with
  | LChecked =>
      match TryPop zero (mailbox l) with
      | (msg, true, m) => (MkLoop m (LPopped msg) (cancelled l), Some msg)
      | (_, false, m) => (MkLoop m LWaiting (cancelled l), None)
      end
  | _ => (l, None)
  end.

Definition stop_loop (l : Loop) : Loop := MkLoop (Close (mailbox l)) (loop_state l) true.

Definition step (s : Sys) (ev : Event) : outcome unit Sys :=
  match ev with
  | Deliver a msg =>
      match loops s !! a with
      | None => Returns tt s
      | Some l =>
          match Push (mailbox l) msg with
          | Returns _ m => Returns tt (set_loop a (MkLoop m (loop_state l) (cancelled l)) s)
          | Blocks => Blocks
          | Panics => Panics
          end
      end
  | Check a =>
      match loops s !! a with None => Returns tt s | Some l => Returns tt (set_loop a (check l) s) end
  | Pop a =>
      match loops s !! a with
      | None => Returns tt s
      | Some l =>
          let '(l, msg) := pop l in
          let s := set_loop a l s in
          Returns tt (MkSys (loops s) (disp s) (direct s) (phase s)
                        (popped s ++ option_list ((fun m => (a, m)) <$> msg)) (handled s))
      end
  | Hand a =>
      match loops s !! a with
      | Some (MkLoop m (LPopped msg) c) =>
          match Dispatch (a, msg) (disp s) with
          | Returns own d =>
              let s := set_loop a (MkLoop m LWaiting c) s in
              Returns tt (set_disp d (direct s ++ if own then [(a, msg)] else []) (handled s) s)
          | Blocks => Blocks
          | Panics => Panics
          end
      | _ => Returns tt s
      end
  | Take =>
      match worker (disp s) with
      | Some d => Returns tt (set_disp d (direct s) (handled s) s)
      | None => Blocks
      end
  | Done i =>
      match busy (disp s) !! i with
      | None => Returns tt s
      | Some t =>
          if can_end s t
          then Returns tt (set_disp (set_tasks (tasks (disp s)) (delete i (busy (disp s))) (disp s))
                             (direct s) (handled s ++ [t]) s)
          else Blocks
      end
  | DirectDone i =>
      match direct s !! i with
      | None => Returns tt s
      | Some t =>
          if can_end s t then Returns tt (set_disp (disp s) (delete i (direct s)) (handled s ++ [t]) s) else Blocks
      end
  | StopBegin =>
      match phase s with
      | NotStopped =>
          match Stop (disp s) with
          | Returns _ d => Returns tt (MkSys (stop_loop <$> loops s) d (direct s) Waiting (popped s) (handled s))
          | Blocks => Blocks
          | Panics => Panics
          end
      | _ => Returns tt s
      end
  | StopEnd =>
      match phase s with
      | Waiting => if drained (disp s)
                   then Returns tt (MkSys (loops s) (disp s) (direct s) Stopped (popped s) (handled s)) else Blocks
      | _ => Returns tt s
      end
  end.

Fixpoint run (s : Sys) (evs : list Event) : outcome unit Sys :=
  match evs with
  | [] => Returns tt s
  | ev :: evs =>
      match step s ev with
      | Returns _ s' => run s' evs
      | Blocks => Blocks
      | Panics => Panics
      end
  end.

(** Actors with their mailboxes, none of which has run. *)
Definition initial (p : nat) (boxes : gmap nat (Mailbox M)) : Sys :=
  MkSys ((fun m => MkLoop m LWaiting false) <$> boxes) (Start (NewDispatcher p)) [] NotStopped [] [].

(** ** Every message is handled once *)

(** The messages between a mailbox and the dispatcher. *)
Definition hand (x : nat * Loop) : list Task :=
  match loop_state x.2 with LPopped msg => [(x.1, msg)] | _ => [] end.
Definition in_hand (m : gmap nat Loop) : list Task := flat_map hand (map_to_list m).

Lemma in_hand_split m a l :
  m !! a = Some l ->
  exists rest, in_hand m ≡ₚ hand (a, l) ++ rest /\ forall l', in_hand (<[a := l']> m) ≡ₚ hand (a, l') ++ rest.
Proof.
  intros Hl. exists (flat_map hand (map_to_list (delete a m))). unfold in_hand. split.
  - by rewrite <- (map_to_list_delete m a l Hl).
  - intros l'. rewrite <- insert_delete_eq, map_to_list_insert by apply lookup_delete_eq. done.
Qed.

Lemma in_hand_fmap (f : Loop -> Loop) m :
  (forall l, loop_state (f l) = loop_state l) -> in_hand (f <$> m) = in_hand m.
Proof.
  intros Hf. unfold in_hand. rewrite map_to_list_fmap. induction (map_to_list m) as [|[a l] ls IH]; [done|].
  rewrite fmap_cons. cbn [flat_map]. rewrite IH. f_equal. unfold hand. simpl. by rewrite Hf.
Qed.

(** The tasks of the dispatcher and those outside it. *)
Definition pending (s : Sys) : list Task :=
  in_hand (loops s) ++ tasks (disp s) ++ busy (disp s) ++ direct s.

Lemma Dispatch_pending t d own d' :
  Dispatch t d = Returns own d' ->
  tasks d' ++ busy d' ++ (if own then [t] else []) ≡ₚ t :: tasks d ++ busy d.
Proof.
  unfold Dispatch. destruct (closed_ d); [done|]. destruct (_ <? _)%nat; intros [= <- <-]; simpl.
  - rewrite app_nil_r, <- app_assoc. symmetry. apply Permutation_middle.
  - rewrite (assoc_L (++)). symmetry. apply Permutation_cons_append.
Qed.

(** The invariant: nothing that was popped is lost or handled twice. *)
Definition accounted (s : Sys) : Prop := popped s ≡ₚ pending s ++ handled s.

Lemma dispatch_accounted s ev s' : accounted s -> step s ev = Returns tt s' -> accounted s'.
Proof.
  unfold accounted, pending. intros Hacc. destruct ev as [a msg|a|a|a| |i|i| |]; simpl.
  - destruct (loops s !! a) as [l|] eqn:Hl; [|by intros [= <-]].
    destruct (Push (mailbox l) msg) as [r m| |]; [|done..]. intros [= <-]. simpl.
    destruct (in_hand_split _ _ _ Hl) as (rest & Hr & Hr'). by rewrite Hr', Hacc, Hr.
  - destruct (loops s !! a) as [l|] eqn:Hl; intros [= <-]; [simpl|done].
    destruct (in_hand_split _ _ _ Hl) as (rest & Hr & Hr'). rewrite Hr', Hacc, Hr.
    unfold check, hand. simpl. destruct (loop_state l) eqn:El; [destruct (cancelled l)|..]; simpl; by rewrite ?El.
  - destruct (loops s !! a) as [l|] eqn:Hl; [|by intros [= <-]].
    destruct (in_hand_split _ _ _ Hl) as (rest & Hr & Hr').
    destruct (pop l) as [l' msg] eqn:Ep. intros [= <-]. simpl. rewrite Hr', Hacc, Hr.
    assert (hand (a, l') ≡ₚ hand (a, l) ++ option_list ((fun m => (a, m)) <$> msg)) as ->; [|solve_Permutation].
    revert Ep. unfold pop, hand. simpl. destruct (loop_state l) eqn:El; [by intros [= <- <-]; simpl; rewrite El| |
      by intros [= <- <-]; simpl; rewrite El].
    destruct (TryPop zero (mailbox l)) as [[m []] mb]; by intros [= <- <-].
  - destruct (loops s !! a) as [[m st c]|] eqn:Hl; [|by intros [= <-]].
    destruct st as [| |msg]; [by intros [= <-]..|].
    destruct (Dispatch (a, msg) (disp s)) as [own d| |] eqn:Ed; [|done..]. intros [= <-]. simpl.
    destruct (in_hand_split _ _ _ Hl) as (rest & Hr & Hr'). rewrite Hr', Hacc, Hr. unfold hand. simpl.
    apply Dispatch_pending in Ed.
    trans (rest ++ ((a, msg) :: tasks (disp s) ++ busy (disp s)) ++ direct s ++ handled s); [solve_Permutation|].
    rewrite <- Ed. solve_Permutation.
  - unfold worker. destruct (tasks (disp s)) as [|t l] eqn:Et; [done|].
    destruct (_ <? _)%nat; [|done]. intros [= <-]. simpl. rewrite Hacc. solve_Permutation.
  - destruct (busy (disp s) !! i) as [t|] eqn:Ei; [|by intros [= <-]].
    destruct (can_end s t); [|done]. intros [= <-]. simpl. rewrite Hacc.
    pose proof (delete_Permutation _ _ _ Ei) as Hp.
    remember (delete i (busy (disp s))) as rest eqn:E. clear E. rewrite Hp. solve_Permutation.
  - destruct (direct s !! i) as [t|] eqn:Ei; [|by intros [= <-]].
    destruct (can_end s t); [|done]. intros [= <-]. simpl. rewrite Hacc.
    pose proof (delete_Permutation _ _ _ Ei) as Hp.
    remember (delete i (direct s)) as rest eqn:E. clear E. rewrite Hp. solve_Permutation.
  - destruct (phase s); [|by intros [= <-]..]. unfold Stop. destruct (running (disp s)); simpl.
    + destruct (closed_ (disp s)); [done|]. intros [= <-]. simpl. by rewrite in_hand_fmap.
    + intros [= <-]. simpl. by rewrite in_hand_fmap.
  - destruct (phase s); [by intros [= <-]| |by intros [= <-]]. destruct (drained (disp s)); [|done].
    by intros [= <-].
Qed.

(** ** The pool *)

(** As long as the system is not stopped, the channel is open and all workers are there. *)
Definition pool_ok (p : nat) (s : Sys) : Prop :=
  parallelism (disp s) = p /\ workers (disp s) = p /\ List.length (busy (disp s)) <= p /\
  (phase s = NotStopped -> running (disp s) = true /\ closed_ (disp s) = false).

Lemma step_pool p s ev s' : pool_ok p s -> step s ev = Returns tt s' -> pool_ok p s'.
Proof.
  intros (Hp & Hw & Hb & Hr). unfold pool_ok. destruct ev as [a msg|a|a|a| |i|i| |]; simpl.
  - destruct (loops s !! a) as [l|]; [|by intros [= <-]]. destruct (Push (mailbox l) msg); [|done..]. by intros [= <-].
  - destruct (loops s !! a) as [l|]; by intros [= <-].
  - destruct (loops s !! a) as [l|]; [|by intros [= <-]]. destruct (pop l). by intros [= <-].
  - destruct (loops s !! a) as [[m [| |msg] c]|]; [by intros [= <-]..| |by intros [= <-]].
    unfold Dispatch. destruct (closed_ (disp s)) eqn:Hc; [done|].
    destruct (_ <? _)%nat; intros [= <-]; simpl; [rewrite Hc|]; naive_solver.
  - unfold worker. destruct (tasks (disp s)) as [|t l]; [done|].
    destruct (Nat.ltb_spec (List.length (busy (disp s))) (workers (disp s))); [|done]. intros [= <-]. simpl.
    rewrite length_app. simpl. naive_solver lia.
  - destruct (busy (disp s) !! i) as [t|] eqn:Ei; [|by intros [= <-]].
    destruct (can_end s t); [|done]. intros [= <-]. simpl.
    pose proof (length_delete (busy (disp s)) i ltac:(by eexists)). naive_solver lia.
  - destruct (direct s !! i) as [t|]; [|by intros [= <-]]. destruct (can_end s t); [|done]. by intros [= <-].
  - destruct (phase s) eqn:Eph; [|intros [= <-]; rewrite Eph; repeat split; done..]. unfold Stop. destruct (running (disp s)); simpl.
    + destruct (closed_ (disp s)); [done|]. intros [= <-]. simpl. naive_solver.
    + intros [= <-]. simpl. naive_solver.
  - destruct (phase s) eqn:Eph; [intros [= <-]; rewrite Eph; split; [done|]; split; [done|]; by split| |intros [= <-]; rewrite Eph; by repeat split].
    destruct (drained (disp s)); [|done]. intros [= <-]. simpl. naive_solver.
Qed.

Lemma run_inv (Q : Sys -> Prop) s evs s' :
  (forall s ev s', Q s -> step s ev = Returns tt s' -> Q s') -> Q s -> run s evs = Returns tt s' -> Q s'.
Proof.
  intros Hstep. revert s. induction evs as [|ev evs IH]; intros s Hs; simpl; [by intros [= <-]|].
  destruct (step s ev) as [[] s1| |] eqn:E; [|done..]. apply IH. by eapply Hstep.
Qed.

Lemma run_app s evs evs' s1 : run s evs = Returns tt s1 -> run s (evs ++ evs') = run s1 evs'.
Proof.
  revert s. induction evs as [|ev evs IH]; intros s; simpl; [by intros [= <-]|].
  destruct (step s ev) as [[] s2| |]; [apply IH|done..].
Qed.

Lemma initial_pool p boxes : pool_ok p (initial p boxes).
Proof. unfold pool_ok. simpl. repeat split; lia. Qed.

Lemma initial_accounted p boxes : accounted (initial p boxes).
Proof.
  unfold accounted, pending, in_hand, initial. simpl. rewrite map_to_list_fmap.
  induction (map_to_list boxes) as [|[a m] l IH]; [done|]. by rewrite fmap_cons.
Qed.

(** While the system is not stopped nothing panics. *)
Lemma no_panic_before_stop p s ev : pool_ok p s -> phase s = NotStopped -> step s ev <> Panics.
Proof.
  intros (_ & _ & _ & Hr) Hph. destruct (Hr Hph) as [Hrun Hcl].
  destruct ev as [a msg|a|a|a| |i|i| |]; simpl.
  - destruct (loops s !! a) as [l|]; [|done]. unfold Push.
    repeat case_match; simplify_eq; done.
  - by destruct (loops s !! a).
  - destruct (loops s !! a) as [l|]; [|done]. by destruct (pop l).
  - destruct (loops s !! a) as [[m [| |msg] c]|]; try done. unfold Dispatch. rewrite Hcl.
    by destruct (_ <? _)%nat.
  - by destruct (worker (disp s)).
  - destruct (busy (disp s) !! i); [|done]. by destruct (can_end s _).
  - destruct (direct s !! i); [|done]. by destruct (can_end s _).
  - rewrite Hph. unfold Stop. by rewrite Hrun, Hcl.
  - by rewrite Hph.
Qed.

(** ** Progress *)

Definition weight (s : Sys) : nat :=
  3 * List.length (in_hand (loops s)) + 2 * List.length (tasks (disp s)) + List.length (busy (disp s)) +
  List.length (direct s).

Lemma in_hand_some m t : t ∈ in_hand m -> exists l, m !! t.1 = Some l /\ loop_state l = LPopped t.2.
Proof.
  unfold in_hand. rewrite list_elem_of_In, in_flat_map. intros ([a l] & Hin & Ht).
  apply list_elem_of_In, elem_of_map_to_list in Hin. unfold hand in Ht. simpl in Ht.
  destruct (loop_state l) eqn:E; try by destruct Ht. destruct Ht as [<-|[]]. by exists l.
Qed.

Lemma hand_progress p s t :
  pool_ok p s -> phase s = NotStopped -> t ∈ in_hand (loops s) ->
  exists s', step s (Hand t.1) = Returns tt s' /\ weight s' < weight s /\ phase s' = NotStopped /\ popped s' = popped s.
Proof.
  intros (_ & _ & _ & Hr) Hph (l & Hl & Hst)%in_hand_some. destruct (Hr Hph) as [_ Hcl].
  destruct l as [m st c]. simpl in Hst. subst st. simpl. rewrite Hl. unfold Dispatch. rewrite Hcl.
  destruct (in_hand_split _ _ _ Hl) as (rest & Hrest & Hrest').
  apply Permutation_length in Hrest. pose proof (Permutation_length (Hrest' (MkLoop m LWaiting c))) as Hl'.
  unfold hand in Hrest, Hl'. simpl in Hrest, Hl'.
  destruct (_ <? _)%nat; eexists; (split; [reflexivity|]); unfold weight; simpl;
    rewrite ?length_app; simpl; (split; [lia|done]).
Qed.

Lemma progress p s :
  pool_ok p s -> 0 < p -> phase s = NotStopped -> pending s <> [] ->
  exists ev s', step s ev = Returns tt s' /\ weight s' < weight s /\ phase s' = NotStopped /\ popped s' = popped s.
Proof.
  intros Hok Hp Hph Hne. destruct (in_hand (loops s)) as [|t ts] eqn:Eh.
  2: { exists (Hand t.1). apply (hand_progress p); [done|done|]. rewrite Eh. by left. }
  assert (forall t, can_end s t = true) as Hend.
  { intros t. unfold can_end, lock_held. by rewrite Hph, andb_false_r. }
  destruct (busy (disp s)) as [|t b] eqn:Eb.
  2: { exists (Done 0). simpl. rewrite Eb. simpl. rewrite Hend. eexists. split; [reflexivity|].
       unfold weight. simpl. rewrite Eb. simpl. split; [lia|done]. }
  destruct (direct s) as [|t b] eqn:Ed.
  2: { exists (DirectDone 0). simpl. rewrite Ed. simpl. rewrite Hend. eexists. split; [reflexivity|].
       unfold weight. simpl. rewrite Ed. simpl. split; [lia|done]. }
  destruct (tasks (disp s)) as [|t l] eqn:Et.
  { unfold pending in Hne. by rewrite Eh, Et, Eb, Ed in Hne. }
  exists Take. simpl. unfold worker. rewrite Et, Eb. destruct Hok as (_ & -> & _).
  destruct (Nat.ltb_spec (List.length (@nil Task)) p); [|simpl in *; lia]. eexists. split; [reflexivity|].
  unfold weight. simpl. rewrite Et, Eb. simpl. split; [lia|done].
Qed.

Lemma can_finish p s :
  pool_ok p s -> 0 < p -> phase s = NotStopped ->
  exists evs s', run s evs = Returns tt s' /\ pending s' = [] /\ popped s' = popped s.
Proof.
  remember (weight s) as n eqn:En. revert s En. induction (lt_wf n) as [n _ IH]. intros s -> Hok Hp Hph.
  destruct (decide (List.length (pending s) = 0)) as [E|E].
  { exists [], s. split; [done|]. split; [by apply nil_length_inv|done]. }
  destruct (progress p s Hok Hp Hph) as (ev & s1 & Hs & Hw & Hph1 & Hpop).
  { intros E'. by rewrite E' in E. }
  destruct (IH _ Hw s1 eq_refl) as (evs & s2 & Hr & He & Hp2); [by eapply step_pool|done|done|].
  exists (ev :: evs), s2. simpl. rewrite Hs. split; [done|]. split; [done|]. by rewrite Hp2.
Qed.
End Dispatching.

(** C39: No message is lost on the way from a mailbox to its actor. In every interleaving of the
    loops, the workers and a stop, the messages taken from the mailboxes are those under
    way and those handled, each once; and as long as the system is not stopped nothing
    panics and all messages under way can be handled. *)
Theorem messages_are_handled_once {M : Type} (zero : M) (needs_lock : M -> bool) (p : nat)
    (boxes : gmap nat (Mailbox M)) (evs : list (Event (M := M))) (s : Sys) :
  0 < p -> run zero needs_lock (initial p boxes) evs = Returns tt s ->
  popped s ≡ₚ pending s ++ handled s /\
  (phase s = NotStopped ->
     (forall ev, step zero needs_lock s ev <> Panics) /\
     exists evs' s', run zero needs_lock s evs' = Returns tt s' /\ handled s' ≡ₚ popped s).
Proof.
  intros Hp Hr.
  assert (accounted s) as Hacc.
  { eapply (run_inv _ _ accounted); [apply dispatch_accounted|apply initial_accounted|exact Hr]. }
  assert (pool_ok p s) as Hok.
  { eapply (run_inv _ _ (pool_ok p)); [apply step_pool|apply initial_pool|exact Hr]. }
  split; [exact Hacc|]. intros Hph. split; [intros ev; by eapply no_panic_before_stop|].
  destruct (can_finish zero needs_lock p s Hok Hp Hph) as (evs' & s' & Hr' & He & Hpop).
  exists evs', s'. split; [done|].
  assert (accounted s') as Hacc'.
  { eapply (run_inv _ _ accounted); [apply dispatch_accounted|exact Hacc|exact Hr']. }
  unfold accounted in Hacc'. rewrite He in Hacc'. by rewrite <- Hpop, Hacc'.
Qed.

(** Two actors of which one gets two messages; a message is the number of its kind, and 0 needs
    the lock. *)
Definition demo_boxes : gmap nat (Mailbox nat) := {[1 := NewMailbox None; 2 := NewMailbox None]}.
Definition demo_events : list (Event (M := nat)) :=
  [Deliver 1 7; Deliver 1 8; Deliver 2 9; Check 1; Pop 1; Hand 1; Check 1; Pop 1; Hand 1; Check 2; Pop 2; Take; Take].
Definition demo_run (evs : list (Event (M := nat))) : option (Sys (M := nat)) :=
  match run 0 (Nat.eqb 0) (initial 2 demo_boxes) evs with Returns _ s => Some s | _ => None end.
Definition demo_sys : Sys (M := nat) := default (initial 2 demo_boxes) (demo_run demo_events).

Lemma messages_are_handled_once_witness :
  popped demo_sys = [(1, 7); (1, 8); (2, 9)] /\ pending demo_sys = [(2, 9); (1, 7); (1, 8)] /\
  exists evs' s', run 0 (Nat.eqb 0) demo_sys evs' = Returns tt s' /\ handled s' ≡ₚ [(1, 7); (1, 8); (2, 9)].
Proof.
  split; [by vm_compute|]. split; [by vm_compute|].
  destruct (messages_are_handled_once 0 (Nat.eqb 0) 2 demo_boxes demo_events demo_sys) as [_ H]; [lia|by vm_compute|].
  destruct H as [_ (evs' & s' & Hr & Hh)]; [by vm_compute|]. exists evs', s'. by split.
Defined.

(** ** What the pool does not promise *)

(** Two messages to one actor are handled at the same time, and the second one can be done
    first: actors are not sequential. *)
Example actors_are_not_sequential :
  (busy ∘ disp) <$> demo_run demo_events = Some [(1, 7); (1, 8)] /\
  handled <$> demo_run (demo_events ++ [Done 1; Done 0]) = Some [(1, 8); (1, 7)].
Proof. by vm_compute. Qed.

(** An actor without a message panics when the system is stopped between its check and its
    look into the mailbox: the closed mailbox yields the zero message, which is sent on the
    closed channel. *)
Example stop_panics_an_idle_actor :
  run 0 (Nat.eqb 0) (initial 2 demo_boxes) [Check 1; StopBegin; Pop 1; Hand 1] = Panics.
Proof. by vm_compute. Qed.

(** Stopping can wait for itself. When a worker runs a task that looks up, spawns or stops an
    actor at the moment the system is stopped, the stop holds the lock and waits for the
    worker, and the worker waits for the lock: nothing that happens ends the stop. *)
Theorem stop_can_deadlock {M : Type} (zero : M) (needs_lock : M -> bool) (s s' : Sys (M := M))
    (t : Task (M := M)) (evs : list (Event (M := M))) :
  phase s = Waiting -> t ∈ busy (disp s) -> needs_lock t.2 = true -> run zero needs_lock s evs = Returns tt s' ->
  phase s' = Waiting /\ t ∈ busy (disp s').
Proof.
  intros Hph Ht Hn. apply (run_inv _ _ (fun s => phase s = Waiting /\ t ∈ busy (disp s))); [|done].
  clear s s' Hph Ht evs. intros s ev s' [Hph Ht]. destruct ev as [a msg|a|a|a| |i|i| |]; simpl.
  - destruct (loops s !! a) as [l|]; [|by intros [= <-]]. destruct (Push (mailbox l) msg); [|done..]. by intros [= <-].
  - destruct (loops s !! a) as [l|]; by intros [= <-].
  - destruct (loops s !! a) as [l|]; [|by intros [= <-]]. destruct (pop zero l). by intros [= <-].
  - destruct (loops s !! a) as [[m [| |msg] c]|]; [by intros [= <-]..| |by intros [= <-]].
    unfold Dispatch. destruct (closed_ (disp s)); [done|]. destruct (_ <? _)%nat; by intros [= <-].
  - unfold worker. destruct (tasks (disp s)) as [|t' l]; [done|]. destruct (_ <? _)%nat; [|done]. intros [= <-].
    simpl. split; [done|]. set_solver.
  - destruct (busy (disp s) !! i) as [t'|] eqn:Ei; [|by intros [= <-]].
    destruct (can_end needs_lock s t') eqn:Ec; [|done]. intros [= <-]. simpl. split; [done|].
    rewrite (delete_Permutation _ _ _ Ei), elem_of_cons in Ht. destruct Ht as [<-|Ht]; [|done].
    unfold can_end, lock_held in Ec. by rewrite Hph, Hn in Ec.
  - destruct (direct s !! i); [|by intros [= <-]]. destruct (can_end needs_lock s _); [|done]. by intros [= <-].
  - rewrite Hph. by intros [= <-].
  - rewrite Hph. unfold drained. destruct (tasks (disp s)), (busy (disp s)) eqn:Eb; try done. set_solver.
Qed.

(** A message that needs the lock is being handled when the stop comes. *)
Definition demo_deadlock : Sys (M := nat) :=
  default demo_sys (demo_run [Deliver 1 0; Check 1; Pop 1; Hand 1; Take; StopBegin]).

Lemma stop_can_deadlock_witness :
  phase demo_deadlock = Waiting /\
  forall evs s', run 0 (Nat.eqb 0) demo_deadlock evs = Returns tt s' -> phase s' = Waiting.
Proof.
  split; [by vm_compute|]. intros evs s' Hr.
  apply (stop_can_deadlock 0 (Nat.eqb 0) demo_deadlock s' (1, 0) evs);
    [by vm_compute|vm_compute; by left|done|done].
Defined.
