(* ===== verification/Table.v ===== *)
(** * Tables of the control plane

    What the handlers use of the database (pkg/database over GORM): a table is the list of
    its rows in the order of the primary key, which is the order [First] looks in. A row has
    its key, says whether it is live (GORM hides rows with a deletion time) and which rows
    it must not coexist with, by the unique indexes of the models. An index knows nothing of
    deletion times: a hidden row still occupies its values. Texts are compared byte by byte.

    A write that the database refuses, and one that would break an index, give [None]. The
    handlers never look at more of an error. *)

From Stdlib Require Import String.
From S2P Require Import Prelude GoString.
Local Open Scope string_scope.
Local Open Scope list_scope.

Class Row (A : Type) := {
  row_id : A -> string;
  live : A -> bool;
  clash : A -> A -> bool
}.

Class RowLaws (A : Type) `{Row A} := { clash_sym : forall x y : A, clash x y = clash y x }.

Section Ops.
Context {A : Type} `{Row A}.

(** [db.Where(p).First(&r)] *)
Definition first (p : A -> bool) (t : list A) : option A := List.find (fun r => live r && p r) t.

(** [db.Where(p).Find(&rs)], in key order, and [Count]. *)
Definition rows (p : A -> bool) (t : list A) : list A := List.filter (fun r => live r && p r) t.
Definition count (p : A -> bool) (t : list A) : Z := Z.of_nat (List.length (rows p t)).

Definition has_id (id : string) (r : A) : bool := row_id r =? id.

Definition insertable (r : A) (t : list A) : bool :=
  forallb (fun x => negb (row_id x =? row_id r) && negb (clash x r)) t.

Fixpoint insert_row (r : A) (t : list A) : list A :=
  match t with
  | [] => [r]
  | x :: t' => if String.leb (row_id r) (row_id x) then r :: x :: t' else x :: insert_row r t'
  end.

(** [db.Create(&r)] *)
Definition create (ok : bool) (r : A) (t : list A) : option (list A) :=
  if ok && insertable r t then Some (insert_row r t) else None.

Definition replaceable (r : A) (t : list A) : bool :=
  forallb (fun x => (row_id x =? row_id r) || negb (clash x r)) t.

Definition replace_row (r x : A) : A := if row_id x =? row_id r then r else x.

(** [db.Save(&r)] and [db.Model(&r).Updates(..)] of a row that was read before. *)
Definition save (ok : bool) (r : A) (t : list A) : option (list A) :=
  if ok && replaceable r t then Some (replace_row r <$> t) else None.

(** [db.Unscoped().Where(p).Delete(..)], and [Delete] on a model without a deletion time. *)
Definition remove (ok : bool) (p : A -> bool) (t : list A) : option (list A) :=
  if ok then Some (List.filter (fun r => negb (p r)) t) else None.

(** [Delete] on a model with a deletion time; [bury] sets it. *)
Definition soft_delete (bury : A -> A) (ok : bool) (p : A -> bool) (t : list A) : option (list A) :=
  if ok then Some ((fun r => if live r && p r then bury r else r) <$> t) else None.

(** The primary key and the unique indexes. *)
Definition indexed (t : list A) : Prop :=
  NoDup (row_id <$> t) /\ forall x y, x ∈ t -> y ∈ t -> row_id x <> row_id y -> clash x y = false.
End Ops.

(** A request runs against the database with some of its writes refused, its commit kept or
    lost, and the ids [uuid.New] draws. *)
Record Env := MkEnv { writes : nat -> bool; commits : bool; fresh : nat -> string; now : Z }.

(** [tx.Commit()]: its error is never looked at. *)
Definition commit {D} (e : Env) (before after : D) : D := if commits e then after else before.

(** What the database does with an order and with a pattern. *)
Class Sql := {
  order_by {A} (leb : A -> A -> bool) (l : list A) : list A;
  like (pattern s : string) : bool
}.
Definition plain (s : string) : bool := forallb (fun w => negb (Contains s w)) ["%"; "_"; bytes [92]].
Class SqlLaws `{Sql} := {
  order_by_Permutation {A} (leb : A -> A -> bool) (l : list A) : order_by leb l ≡ₚ l;
  like_plain (a s : string) : plain a = true -> like ("%" +:+ a +:+ "%") s = Contains s a
}.

(** ** Filtered lists *)

Lemma filter_Permutation {A} (f : A -> bool) (l l' : list A) : l ≡ₚ l' -> List.filter f l ≡ₚ List.filter f l'.
Proof. induction 1; simpl; repeat case_match; eauto using Permutation. Qed.

Lemma bfilter_none {A} (f : A -> bool) (l : list A) : (forall x, x ∈ l -> f x = false) -> List.filter f l = [].
Proof.
  induction l as [|x l IH]; intros Hf; simpl; [done|].
  rewrite (Hf x) by left. apply IH. intros y Hy. apply Hf. by right.
Qed.

Lemma bfilter_implies {A} (f g : A -> bool) (l : list A) :
  (forall x, g x = true -> f x = true) -> List.filter f l = [] -> List.filter g l = [].
Proof.
  intros Hfg E. apply bfilter_none. intros x Hx. destruct (g x) eqn:Hg; [|done].
  assert (Hin : x ∈ List.filter f l) by (apply elem_of_bfilter; auto).
  rewrite E in Hin. by apply not_elem_of_nil in Hin.
Qed.

(** ** What an operation does to the rows *)

Section Laws.
Context {A : Type} `{RowLaws A}.
Implicit Types (r x y : A) (t : list A).

Lemma first_some p t r : first p t = Some r -> r ∈ t /\ live r = true /\ p r = true.
Proof.
  intros [Hin Hp]%find_some. apply andb_true_iff in Hp as [? ?].
  by rewrite list_elem_of_In.
Qed.

Lemma first_none p t r : first p t = None -> r ∈ t -> live r = true -> p r = false.
Proof.
  intros Hf Hin Hl. rewrite list_elem_of_In in Hin.
  pose proof (find_none _ _ Hf _ Hin) as Hp. simpl in Hp. by rewrite Hl in Hp.
Qed.

Lemma first_is_some p t r : r ∈ t -> live r = true -> p r = true -> is_Some (first p t).
Proof.
  intros Hin Hl Hp. destruct (first p t) eqn:E; [done|].
  rewrite (first_none _ _ _ E Hin Hl) in Hp. done.
Qed.

Lemma elem_rows p t r : r ∈ rows p t <-> r ∈ t /\ live r = true /\ p r = true.
Proof. unfold rows. rewrite elem_of_bfilter, andb_true_iff. done. Qed.

Lemma count_zero p t : count p t = 0%Z <-> forall r, r ∈ t -> live r = true -> p r = false.
Proof.
  unfold count. split.
  - intros E r Hin Hl. destruct (p r) eqn:Hp; [|done].
    assert (Hr : r ∈ rows p t) by by rewrite elem_rows.
    destruct (rows p t); [by apply not_elem_of_nil in Hr | simpl in E; lia].
  - intros Hall. destruct (rows p t) as [|r l] eqn:E; [done|].
    assert (Hr : r ∈ rows p t) by (rewrite E; left).
    apply elem_rows in Hr as (? & Hl & Hp). by rewrite Hall in Hp.
Qed.

Lemma elem_insert_row r x t : x ∈ insert_row r t <-> x = r \/ x ∈ t.
Proof.
  induction t as [|y t IH]; simpl; [by rewrite !elem_of_cons|].
  destruct (String.leb _ _); rewrite !elem_of_cons; [done | rewrite IH; tauto].
Qed.

Lemma insert_row_Permutation r t : insert_row r t ≡ₚ r :: t.
Proof.
  induction t as [|y t IH]; simpl; [done|]. destruct (String.leb _ _); [done|].
  rewrite IH. apply Permutation_swap.
Qed.

Lemma insertable_spec r t :
  insertable r t = true <-> forall x, x ∈ t -> row_id x <> row_id r /\ clash x r = false.
Proof.
  unfold insertable. rewrite forallb_forall. split; intros Hx x Hin.
  - rewrite list_elem_of_In in Hin. specialize (Hx x Hin). simpl in Hx.
    bool_props. by split.
  - rewrite <- list_elem_of_In in Hin. destruct (Hx x Hin) as [Hn Hc].
    apply String.eqb_neq in Hn. by rewrite Hn, Hc.
Qed.

Lemma replaceable_spec r t :
  replaceable r t = true <-> forall x, x ∈ t -> row_id x <> row_id r -> clash x r = false.
Proof.
  unfold replaceable. rewrite forallb_forall. split; intros Hx x Hin.
  - rewrite list_elem_of_In in Hin. intros Hn%String.eqb_neq. specialize (Hx x Hin). simpl in Hx.
    rewrite Hn in Hx. by apply negb_true_iff in Hx.
  - rewrite <- list_elem_of_In in Hin. destruct (String.eqb_spec (row_id x) (row_id r)) as [|Hn]; [done|].
    by rewrite (Hx x Hin Hn).
Qed.

Lemma create_spec ok r t t' :
  create ok r t = Some t' ->
  (forall x, x ∈ t -> row_id x <> row_id r /\ clash x r = false) /\ t' = insert_row r t.
Proof.
  unfold create. destruct ok; simpl; [|done].
  destruct (insertable r t) eqn:E; [|done]. intros [= <-]. split; [|done]. by apply insertable_spec.
Qed.

Lemma create_elem ok r t t' x : create ok r t = Some t' -> x ∈ t' <-> x = r \/ x ∈ t.
Proof. intros [_ ->]%create_spec. apply elem_insert_row. Qed.

Lemma save_spec ok r t t' :
  save ok r t = Some t' ->
  (forall x, x ∈ t -> row_id x <> row_id r -> clash x r = false) /\ t' = replace_row r <$> t.
Proof.
  unfold save. destruct ok; simpl; [|done].
  destruct (replaceable r t) eqn:E; [|done]. intros [= <-]. split; [|done]. by apply replaceable_spec.
Qed.

Lemma save_elem ok r t t' x : save ok r t = Some t' -> x ∈ t' -> x = r \/ (x ∈ t /\ row_id x <> row_id r).
Proof.
  intros [_ ->]%save_spec (y & -> & Hy)%list_elem_of_fmap. unfold replace_row.
  destruct (String.eqb_spec (row_id y) (row_id r)); auto.
Qed.

Lemma save_elem_other ok r t t' x : save ok r t = Some t' -> x ∈ t -> row_id x <> row_id r -> x ∈ t'.
Proof.
  intros [_ ->]%save_spec Hx Hn. apply list_elem_of_fmap. exists x. split; [|done].
  unfold replace_row. by apply String.eqb_neq in Hn as ->.
Qed.

Lemma save_elem_self ok r t t' x : save ok r t = Some t' -> x ∈ t -> row_id x = row_id r -> r ∈ t'.
Proof.
  intros [_ ->]%save_spec Hx Hn. apply list_elem_of_fmap. exists x. split; [|done].
  unfold replace_row. by apply String.eqb_eq in Hn as ->.
Qed.

Lemma remove_elem ok p t t' x : remove ok p t = Some t' -> x ∈ t' <-> x ∈ t /\ p x = false.
Proof.
  unfold remove. destruct ok; [|done]. intros [= <-]. by rewrite elem_of_bfilter, negb_true_iff.
Qed.

(** A new row comes before a row with a greater key. *)
Lemma first_insert_row p r q t :
  live r = true -> p r = true -> q ∈ t -> String.leb (row_id r) (row_id q) = true ->
  (forall x, x ∈ t -> live x = true -> p x = true -> x = q) ->
  first p (insert_row r t) = Some r.
Proof.
  intros Hl Hp. induction t as [|y t IH]; intros Hq Hle Hu; [by apply not_elem_of_nil in Hq|].
  simpl. destruct (String.leb (row_id r) (row_id y)) eqn:E; unfold first in *; simpl.
  - by rewrite Hl, Hp.
  - assert (live y && p y = false) as ->.
    { destruct (live y && p y) eqn:E2; [|done]. apply andb_true_iff in E2 as [? ?].
      rewrite (Hu y), Hle in E; [done | left | done | done]. }
    apply IH; [|done|].
    + apply elem_of_cons in Hq as [->|]; [by rewrite Hle in E | done].
    + intros x Hx. apply Hu. by right.
Qed.

(** Rows a query does not ask for do not change its answer. *)
Lemma first_insert_other p r t : p r = false -> first p (insert_row r t) = first p t.
Proof.
  intros Hr. unfold first. induction t as [|y t IH]; simpl; [by rewrite Hr, andb_false_r|].
  destruct (String.leb _ _); simpl; rewrite ?Hr, ?andb_false_r; [done|]. by rewrite IH.
Qed.

Lemma first_filter_other p q t :
  (forall r, p r = true -> q r = false) -> first p (List.filter (fun r => negb (q r)) t) = first p t.
Proof.
  intros Hq. unfold first. induction t as [|y t IH]; simpl; [done|].
  destruct (q y) eqn:E; simpl; rewrite IH; [|done]. destruct (p y) eqn:Ep; [by rewrite Hq in E|].
  by rewrite andb_false_r.
Qed.

Lemma first_filter_none p t : first p (List.filter (fun r => negb (p r)) t) = None.
Proof.
  destruct (first _ _) as [x|] eqn:E; [|done]. apply first_some in E as ([_ Hx]%elem_of_bfilter & _ & Hp).
  by rewrite Hp in Hx.
Qed.

Lemma first_replace_other (x : string) r t :
  row_id r <> x -> first (has_id x) (replace_row r <$> t) = first (has_id x) t.
Proof.
  intros Hn. unfold first, has_id, replace_row. induction t as [|y t IH]; csimpl; [done|].
  destruct (String.eqb_spec (row_id y) (row_id r)) as [E|]; [|by rewrite IH].
  rewrite E. apply String.eqb_neq in Hn. by rewrite Hn, !andb_false_r, IH.
Qed.

Lemma first_replace_self r t y :
  live r = true -> first (has_id (row_id r)) t = Some y ->
  first (has_id (row_id r)) (replace_row r <$> t) = Some r.
Proof.
  intros Hl. unfold first, has_id, replace_row. induction t as [|z t IH]; csimpl; [done|].
  destruct (String.eqb_spec (row_id z) (row_id r)) as [E|Hn]; simpl.
  - by rewrite Hl, String.eqb_refl.
  - apply String.eqb_neq in Hn. rewrite Hn, andb_false_r. apply IH.
Qed.

(** ** The indexes hold *)

Lemma indexed_nil : indexed (A := A) [].
Proof. split; [constructor | by intros x y ?%not_elem_of_nil]. Qed.

Lemma create_indexed ok r t t' : create ok r t = Some t' -> indexed t -> indexed t'.
Proof.
  intros [Hr ->]%create_spec [Hid Hcl]. split.
  - rewrite insert_row_Permutation. simpl. apply NoDup_cons. split; [|done].
    intros (x & Ex & Hx)%list_elem_of_fmap. by apply (Hr x Hx).
  - intros x y [->|Hx]%elem_insert_row [->|Hy]%elem_insert_row Hn; [done| | |by apply Hcl].
    + rewrite clash_sym. by apply Hr.
    + by apply Hr.
Qed.

Lemma replace_row_ids r t : row_id <$> (replace_row r <$> t) = row_id <$> t.
Proof.
  rewrite <- list_fmap_compose. apply list_fmap_ext. intros i x _. unfold compose, replace_row.
  by destruct (String.eqb_spec (row_id x) (row_id r)).
Qed.

Lemma save_indexed ok r t t' : save ok r t = Some t' -> indexed t -> indexed t'.
Proof.
  intros Hs [Hid Hcl]. pose proof (save_spec _ _ _ _ Hs) as [Hr ->]. split.
  - by rewrite replace_row_ids.
  - intros x y [->|[Hx Nx]]%(save_elem _ _ _ _ _ Hs) [->|[Hy Ny]]%(save_elem _ _ _ _ _ Hs) Hn; [done| | |by apply Hcl].
    + rewrite clash_sym. by apply Hr.
    + by apply Hr.
Qed.

Lemma filter_indexed f t : indexed t -> indexed (List.filter f t).
Proof.
  intros [Hid Hcl]. split.
  - clear Hcl. induction t as [|x t IH]; simpl; [constructor|].
    apply NoDup_cons in Hid as [Hx Hid]. destruct (f x); simpl; [|by apply IH].
    apply NoDup_cons. split; [|by apply IH]. intros (y & Ey & [Hy _]%elem_of_bfilter)%list_elem_of_fmap.
    apply Hx. apply list_elem_of_fmap. eauto.
  - intros x y [Hx _]%elem_of_bfilter [Hy _]%elem_of_bfilter. by apply Hcl.
Qed.

Lemma remove_indexed ok p t t' : remove ok p t = Some t' -> indexed t -> indexed t'.
Proof. unfold remove. destruct ok; [|done]. intros [= <-]. apply filter_indexed. Qed.

Lemma soft_delete_indexed bury ok p t t' :
  (forall x, row_id (bury x) = row_id x) -> (forall x y, clash (bury x) y = clash x y) ->
  soft_delete bury ok p t = Some t' -> indexed t -> indexed t'.
Proof.
  intros Hb Hc. unfold soft_delete. destruct ok; [|done]. intros [= <-] [Hid Hcl].
  assert (Hf : forall x, row_id (if live x && p x then bury x else x) = row_id x).
  { intros x. destruct (_ && _); [apply Hb | done]. }
  split.
  - rewrite <- list_fmap_compose, (list_fmap_ext _ row_id); [done | intros i x _; apply Hf].
  - intros x y (x0 & -> & Hx)%list_elem_of_fmap (y0 & -> & Hy)%list_elem_of_fmap. rewrite !Hf. intros Hn.
    specialize (Hcl x0 y0 Hx Hy Hn).
    destruct (live x0 && p x0), (live y0 && p y0); rewrite ?Hc; try done; by rewrite clash_sym, Hc, clash_sym.
Qed.

(** Rows with the same key are one row. *)
Lemma indexed_inj t x y : indexed t -> x ∈ t -> y ∈ t -> row_id x = row_id y -> x = y.
Proof.
  intros [Hid _] Hx Hy E. apply list_elem_of_lookup in Hx as [i Hi], Hy as [j Hj].
  assert (i = j) as <-; [|congruence].
  eapply (NoDup_lookup (row_id <$> t)); [done| |]; rewrite list_lookup_fmap, ?Hi, ?Hj; simpl; by rewrite ?E.
Qed.

Lemma first_by_id t r : indexed t -> r ∈ t -> live r = true -> first (has_id (row_id r)) t = Some r.
Proof.
  intros Hi Hin Hl.
  destruct (first_is_some (has_id (row_id r)) t r Hin Hl) as [x Hx]; [by apply String.eqb_eq|].
  rewrite Hx. apply first_some in Hx as (Hx & _ & E%String.eqb_eq). f_equal. by eapply indexed_inj.
Qed.
End Laws.

#[export] Hint Resolve indexed_nil create_indexed save_indexed remove_indexed : conduix.
