(* ===== verification/Projects.v ===== *)
(** * Projects (handlers/project.go)

    The handlers for projects and their owners over the tables of [Table]. A body that does
    not bind is [None]. Messages are in English here, and the times of updates are left out. The owner rows of a reply are given without the users they join. *)

From Stdlib Require Import String.
From S2P Require Import Prelude GoString GoValue Api WorkflowApi Auth Users Table.
Local Open Scope string_scope.
Local Open Scope list_scope.

Record Project := MkProject {
  PID : string;
  PName : string;
  Alias : string;
  PDescription : string;
  PStatus : string;
  OwnerID : string;
  PMetadata : string;
  PTags : string;
  PCreatedBy : string;
  PCreatedAt : Z;
  PDeleted : bool
}.

(** Names and aliases have unique indexes. *)
#[export] Instance project_row : Row Project := {|
  row_id := PID;
  live p := negb (PDeleted p);
  clash x y := (PName x =? PName y) || (Alias x =? Alias y)
|}.

Record ProjectOwner := MkOwner { POID : string; POProject : string; POUser : string; PORole : string }.

#[export] Instance owner_row : Row ProjectOwner := {|
  row_id := POID;
  live _ := true;
  clash x y := (POProject x =? POProject y) && (POUser x =? POUser y)
|}.

Record WorkflowRow := MkWorkflowRow { WFID : string; WF : Workflow; WFCreatedAt : Z; WFDeleted : bool }.

#[export] Instance workflow_row : Row WorkflowRow := {|
  row_id := WFID; live w := negb (WFDeleted w); clash _ _ := false
|}.

Record ProjectDB := MkProjectDB {
  p_rows : list Project;
  p_owners : list ProjectOwner;
  p_workflows : list WorkflowRow
}.

Definition belongs (project : string) (w : WorkflowRow) : bool := ProjectID (WF w) =? project.
Definition owned (project : string) (o : ProjectOwner) : bool := POProject o =? project.

(** ** Reading *)

(** [Where("id = ? OR alias = ?", x, x).First(&project)] *)
Definition resolve (x : string) (t : list Project) : option Project :=
  first (fun p => (PID p =? x) || (Alias p =? x)) t.

Record ProjectListResponse := MkProjectList {
  ListedProjects : list (Project * Z);
  PTotal : Z;
  PPage : Z;
  PPageSize : Z;
  PTotalPages : Z
}.

Definition project_matches `{Sql} (search status : string) (p : Project) : bool :=
  let searchPattern := "%" +:+ search +:+ "%" in
  ((search =? "") || like searchPattern (PName p) || like searchPattern (Alias p) || like searchPattern (PDescription p)) &&
  ((status =? "") || (PStatus p =? status)).

Definition ListProjects `{Sql} `{Query} (page_ page_size search status : string) (db : ProjectDB)
  : Reply ProjectListResponse :=
  let page := parseIntDefault page_ 1 in
  let pageSize := parseIntDefault page_size 20 in
  let pageSize := if (100 <? pageSize)%Z then 100%Z else pageSize in
  let matching := project_matches search status in
  let total := count matching (p_rows db) in
  let projects := window (int64_wrap (int64_wrap (page - 1) * pageSize)) pageSize
                    (order_by (fun x y => (PCreatedAt y <=? PCreatedAt x)%Z) (rows matching (p_rows db))) in
  let projectResponses := (fun p => (p, count (belongs (PID p)) (p_workflows db))) <$> projects in
  let totalPages := (Z.quot total pageSize + if (0 <? Z.rem total pageSize)%Z then 1 else 0)%Z in
  Success 200 (MkProjectList projectResponses total page pageSize totalPages).

Definition project_not_found {A} : Reply A := Failure 404 ErrCodeNotFound "Project not found".

Definition GetProject (idOrAlias : string) (db : ProjectDB) : Reply (Project * list ProjectOwner * list WorkflowRow) :=
  match resolve idOrAlias (p_rows db) with
  | None => project_not_found
  | Some p => Success 200 (p, rows (owned (PID p)) (p_owners db), rows (belongs (PID p)) (p_workflows db))
  end.

Definition GetProjectWorkflows `{Sql} (idOrAlias : string) (db : ProjectDB) : Reply (list WorkflowRow) :=
  match resolve idOrAlias (p_rows db) with
  | None => project_not_found
  | Some p => Success 200 (order_by (fun x y => (WFCreatedAt y <=? WFCreatedAt x)%Z) (rows (belongs (PID p)) (p_workflows db)))
  end.

(** [GetProjectHierarchy]: the pipelines of a workflow are given as an empty list. *)
Definition GetProjectHierarchy (idOrAlias : string) (db : ProjectDB)
  : Reply (Project * list (WorkflowRow * list Data)) :=
  match resolve idOrAlias (p_rows db) with
  | None => project_not_found
  | Some p => Success 200 (p, (fun w => (w, [])) <$> rows (belongs (PID p)) (p_workflows db))
  end.

(** ** Writing *)

Record CreateProjectRequest := MkCreateProject {
  CP_Name : string;
  CP_Alias : string;
  CP_Description : string;
  CP_OwnerID : string;
  CP_OwnerIDs : list string;
  CP_Metadata : string;
  CP_Tags : string
}.

Definition owner_role (i : nat) : string := if (i =? 0)%nat then "owner" else "maintainer".

(** The loop that inserts the owners; [k] is the number of the loop's first write. *)
Fixpoint add_owners (e : Env) (k : nat) (project : string) (i : nat) (ownerIDs : list string) (t : list ProjectOwner)
  : option (list ProjectOwner) :=
  match ownerIDs with
  | [] => Some t
  | ownerID :: rest =>
      create (writes e (k + i)) (MkOwner (fresh e (S i)) project ownerID (owner_role i)) t ≫=
      add_owners e k project (S i) rest
  end.

(** The project as it is read back after the commit. *)
Definition reload (p : Project) (db : ProjectDB) : Project * list ProjectOwner :=
  let p := default p (first (has_id (PID p)) (p_rows db)) in
  (p, rows (owned (PID p)) (p_owners db)).

Definition primaryOwnerID (req : CreateProjectRequest) (user : string) : string :=
  let o := match CP_OwnerIDs req with o :: _ => o | [] => CP_OwnerID req end in
  if o =? "" then user else o.

Definition new_owners (req : CreateProjectRequest) (user : string) : list string :=
  match CP_OwnerIDs req with
  | [] => if primaryOwnerID req user =? "" then [] else [primaryOwnerID req user]
  | l => l
  end.

Definition new_project (e : Env) (req : CreateProjectRequest) (user : string) : Project :=
  MkProject (fresh e 0) (CP_Name req) (CP_Alias req) (CP_Description req) "active" (primaryOwnerID req user)
    (CP_Metadata req) (CP_Tags req) user (now e) false.

Definition CreateProject (c : Ctx) (e : Env) (req : option CreateProjectRequest) (db : ProjectDB)
  : Reply (Project * list ProjectOwner) * ProjectDB :=
  match req with
  | None => (Failure 400 ErrCodeInvalidJSON "", db)
  | Some req =>
      match ctx_user c with
      | Some (VString user) =>
          if bool_decide (is_Some (first (fun p => PName p =? CP_Name req) (p_rows db)))
          then (Failure 400 ErrCodeAlreadyExists "Project name already exists", db)
          else if bool_decide (is_Some (first (fun p => Alias p =? CP_Alias req) (p_rows db)))
          then (Failure 400 ErrCodeAlreadyExists "Alias already exists", db)
          else
            let project := new_project e req user in
            match create (writes e 0) project (p_rows db) with
            | None => (Failure 500 ErrCodeDatabaseError "Failed to create project", db)
            | Some t =>
                match add_owners e 1 (PID project) 0 (new_owners req user) (p_owners db) with
                | None => (Failure 500 ErrCodeDatabaseError "Failed to register owner", db)
                | Some o =>
                    let db' := commit e db (MkProjectDB t o (p_workflows db)) in
                    (Success 201 (reload project db'), db')
                end
            end
      | _ => (HandlerPanic, db)
      end
  end.

Record UpdateProjectRequest := MkUpdateProject {
  UP_Name : string;
  UP_Alias : string;
  UP_Description : string;
  UP_Status : string;
  UP_OwnerID : string;
  UP_OwnerIDs : list string;
  UP_Metadata : string;
  UP_Tags : string
}.

(** [if req.F != "" { project.F = req.F }] *)
Definition given (new old : string) : string := if new =? "" then old else new.

Definition updated_project (req : UpdateProjectRequest) (p : Project) : Project :=
  MkProject (PID p) (given (UP_Name req) (PName p)) (given (UP_Alias req) (Alias p))
    (given (UP_Description req) (PDescription p)) (given (UP_Status req) (PStatus p)) (given (UP_OwnerID req) (OwnerID p))
    (given (UP_Metadata req) (PMetadata p)) (given (UP_Tags req) (PTags p)) (PCreatedBy p) (PCreatedAt p) (PDeleted p).

Definition with_owner (o : string) (p : Project) : Project :=
  MkProject (PID p) (PName p) (Alias p) (PDescription p) (PStatus p) o (PMetadata p) (PTags p) (PCreatedBy p)
    (PCreatedAt p) (PDeleted p).

Definition validStatuses : list string := ["active"; "inactive"; "archived"].

(** Another live project already has the value the request asks for. *)
Definition taken (field : Project -> string) (new : string) (p : Project) (t : list Project) : bool :=
  negb (new =? "") && negb (new =? field p) &&
  bool_decide (is_Some (first (fun q => (field q =? new) && negb (PID q =? PID p)) t)).

Definition UpdateProject (e : Env) (idOrAlias : string) (req : option UpdateProjectRequest) (db : ProjectDB)
  : Reply (Project * list ProjectOwner) * ProjectDB :=
  match resolve idOrAlias (p_rows db) with
  | None => (project_not_found, db)
  | Some p =>
      match req with
      | None => (Failure 400 ErrCodeInvalidJSON "", db)
      | Some req =>
          if taken PName (UP_Name req) p (p_rows db)
          then (Failure 400 ErrCodeAlreadyExists "Project name already exists", db)
          else if taken Alias (UP_Alias req) p (p_rows db)
          then (Failure 400 ErrCodeAlreadyExists "Alias already exists", db)
          else if negb (UP_Status req =? "") && negb (existsb (String.eqb (UP_Status req)) validStatuses)
          then (Failure 400 ErrCodeValidationFailed "Invalid status. (active, inactive, archived)", db)
          else
            let project := updated_project req p in
            match save (writes e 0) project (p_rows db) with
            | None => (Failure 500 ErrCodeDatabaseError "Failed to update project", db)
            | Some t =>
                match UP_OwnerIDs req with
                | [] =>
                    let db' := commit e db (MkProjectDB t (p_owners db) (p_workflows db)) in
                    (Success 200 (reload project db'), db')
                | o :: _ =>
                    match remove (writes e 1) (owned (PID project)) (p_owners db) with
                    | None => (Failure 500 ErrCodeDatabaseError "Failed to update owners", db)
                    | Some ows =>
                        match add_owners e 2 (PID project) 0 (UP_OwnerIDs req) ows with
                        | None => (Failure 500 ErrCodeDatabaseError "Failed to register owner", db)
                        | Some ows =>
                            let project := with_owner o project in
                            (* the error of this write is not looked at *)
                            let t := default t (save (writes e (2 + List.length (UP_OwnerIDs req))) project t) in
                            let db' := commit e db (MkProjectDB t ows (p_workflows db)) in
                            (Success 200 (reload project db'), db')
                        end
                    end
                end
            end
      end
  end.

Definition bury_project (p : Project) : Project :=
  MkProject (PID p) (PName p) (Alias p) (PDescription p) (PStatus p) (OwnerID p) (PMetadata p) (PTags p) (PCreatedBy p)
    (PCreatedAt p) true.

Definition DeleteProject (e : Env) (idOrAlias : string) (db : ProjectDB) : Reply unit * ProjectDB :=
  match resolve idOrAlias (p_rows db) with
  | None => (project_not_found, db)
  | Some p =>
      if (0 <? count (belongs (PID p)) (p_workflows db))%Z
      then (Failure 400 ErrCodeHasChildren "Workflows exist under the project", db)
      else
        match soft_delete bury_project (writes e 0) (has_id (PID p)) (p_rows db) with
        | None => (Failure 500 ErrCodeDatabaseError "Failed to delete project", db)
        | Some t => (Success 200 tt, MkProjectDB t (p_owners db) (p_workflows db))
        end
  end.

(** ** Well-formed tables *)

#[export] Instance project_laws : RowLaws Project.
Proof. split. intros x y. unfold clash; simpl. by rewrite (String.eqb_sym (PName x)), (String.eqb_sym (Alias x)). Qed.
#[export] Instance owner_laws : RowLaws ProjectOwner.
Proof. split. intros x y. unfold clash; simpl. by rewrite (String.eqb_sym (POProject x)), (String.eqb_sym (POUser x)). Qed.

Definition is_owner (o : ProjectOwner) : bool := PORole o =? "owner".

(** A project with owners has exactly one with the role owner. *)
Definition one_owner (id : string) (t : list ProjectOwner) : Prop :=
  List.filter (owned id) t = [] \/ List.length (List.filter (fun o => owned id o && is_owner o) t) = 1.

Record project_inv (db : ProjectDB) : Prop := {
  pi_rows : indexed (p_rows db);
  pi_owners : indexed (p_owners db);
  pi_status : forall p, p ∈ p_rows db -> PStatus p ∈ validStatuses;
  pi_known : forall o, o ∈ p_owners db -> exists p, p ∈ p_rows db /\ PID p = POProject o;
  pi_one : forall id, one_owner id (p_owners db)
}.

(** The requests; workflows are changed by other handlers. *)
Inductive project_step : ProjectDB -> ProjectDB -> Prop :=
| step_create c e req db : project_step db (CreateProject c e req db).2
| step_update e x req db : project_step db (UpdateProject e x req db).2
| step_delete e x db : project_step db (DeleteProject e x db).2
| step_workflows ws db : project_step db (MkProjectDB (p_rows db) (p_owners db) ws).

Definition no_projects : ProjectDB := MkProjectDB [] [] [].

(** ** Owners *)

Definition owner_rows (e : Env) (project : string) (i : nat) (ids : list string) : list ProjectOwner :=
  imap (fun j o => MkOwner (fresh e (S (i + j))) project o (owner_role (i + j))) ids.

Lemma owner_rows_cons e project i o ids :
  owner_rows e project i (o :: ids) = MkOwner (fresh e (S i)) project o (owner_role i) :: owner_rows e project (S i) ids.
Proof.
  unfold owner_rows. simpl. rewrite Nat.add_0_r. f_equal. apply imap_ext. intros j x _. simpl.
  by rewrite Nat.add_succ_r.
Qed.

Lemma add_owners_Permutation e k project i ids t t' :
  add_owners e k project i ids t = Some t' -> t' ≡ₚ t ++ owner_rows e project i ids.
Proof.
  revert i t. induction ids as [|o ids IH]; intros i t; simpl.
  - intros [= ->]. unfold owner_rows. simpl. by rewrite app_nil_r.
  - intros (t1 & Hc & Ha)%bind_Some. rewrite (IH _ _ Ha), owner_rows_cons.
    apply create_spec in Hc as [_ ->]. rewrite insert_row_Permutation. by rewrite <- Permutation_middle.
Qed.

Lemma add_owners_indexed e k project i ids t t' :
  add_owners e k project i ids t = Some t' -> indexed t -> indexed t'.
Proof.
  revert i t. induction ids as [|o ids IH]; intros i t; simpl; [congruence|].
  intros (t1 & Hc & Ha)%bind_Some Hi. eapply IH; [done|]. by eapply create_indexed.
Qed.

Lemma owner_rows_elem e project i ids o : o ∈ owner_rows e project i ids -> POProject o = project.
Proof. intros (j & u & -> & _)%elem_of_lookup_imap. done. Qed.

Lemma one_owner_Permutation id t t' : t ≡ₚ t' -> one_owner id t -> one_owner id t'.
Proof.
  intros HP [E|E]; [left|right].
  - apply Permutation_nil_r. by rewrite <- E, (filter_Permutation _ _ _ HP).
  - by rewrite <- E, (Permutation_length (filter_Permutation _ _ _ HP)).
Qed.

(** Past the first, nobody gets the role owner. *)
Lemma owner_rows_rest e project i ids :
  List.filter (fun o => owned project o && is_owner o) (owner_rows e project (S i) ids) = [].
Proof.
  apply bfilter_none. intros o (j & u & -> & _)%elem_of_lookup_imap.
  unfold owned, is_owner. simpl. by rewrite String.eqb_refl.
Qed.

Lemma one_owner_rows e project ids t :
  List.filter (owned project) t = [] -> one_owner project (t ++ owner_rows e project 0 ids).
Proof.
  intros E. unfold one_owner. rewrite !List.filter_app, E.
  rewrite (bfilter_implies (owned project) _ t (fun x Hx => proj1 (andb_prop _ _ Hx)) E). simpl.
  destruct ids as [|o ids]; [by left|right]. rewrite owner_rows_cons. simpl.
  unfold owned at 1, is_owner at 1. simpl. rewrite String.eqb_refl. simpl. by rewrite owner_rows_rest.
Qed.

Lemma owner_rows_other e project id i ids :
  id <> project -> List.filter (owned id) (owner_rows e project i ids) = [].
Proof.
  intros Hn. apply bfilter_none. intros o E%owner_rows_elem. unfold owned. rewrite E. by apply String.eqb_neq.
Qed.

Lemma one_owner_other e project id ids t :
  id <> project -> one_owner id t -> one_owner id (t ++ owner_rows e project 0 ids).
Proof.
  intros Hn. unfold one_owner. rewrite !List.filter_app, owner_rows_other, app_nil_r by done.
  rewrite (bfilter_implies (owned id) (fun o => owned id o && is_owner o) (owner_rows e project 0 ids)), app_nil_r; [done| |].
  - intros x Hx. by apply andb_prop in Hx as [? _].
  - by apply owner_rows_other.
Qed.

Lemma add_owners_one e k project ids t t' id :
  add_owners e k project 0 ids t = Some t' -> List.filter (owned project) t = [] -> one_owner id t -> one_owner id t'.
Proof.
  intros HP%add_owners_Permutation E Hid. eapply one_owner_Permutation; [symmetry; exact HP|].
  destruct (decide (id = project)) as [->|]; [by apply one_owner_rows | by apply one_owner_other].
Qed.

(** ** The invariant *)

Lemma commit_cases {D} (P : D -> Prop) e (a b : D) : P a -> P b -> P (commit e a b).
Proof. unfold commit. by destruct (commits e). Qed.

Lemma resolve_some x t p : resolve x t = Some p -> p ∈ t /\ PDeleted p = false /\ (PID p = x \/ Alias p = x).
Proof.
  intros (Hin & Hl%negb_true_iff & Hp)%first_some. bool_props. repeat split; [done|done|].
  destruct Hp; bool_props; auto.
Qed.

Lemma unknown_owned db id :
  project_inv db -> (forall p, p ∈ p_rows db -> PID p <> id) -> List.filter (owned id) (p_owners db) = [].
Proof.
  intros HI Hn. apply bfilter_none. intros o Ho. destruct (pi_known db HI o Ho) as (p & Hp & E).
  apply String.eqb_neq. rewrite <- E. by apply Hn.
Qed.

Lemma create_project_inv c e req db : project_inv db -> project_inv (CreateProject c e req db).2.
Proof.
  intros HI. unfold CreateProject. destruct req as [req|]; [|done].
  destruct (ctx_user c) as [[]|]; try done. repeat (case_bool_decide; [done|]).
  destruct (create _ _ _) as [t|] eqn:Hc; [|done]. destruct (add_owners _ _ _ _ _ _) as [o|] eqn:Ha; [|done].
  simpl. apply commit_cases; [done|]. pose proof (create_spec _ _ _ _ Hc) as [Hnew _].
  split; simpl.
  - eapply create_indexed; [done | apply HI].
  - eapply add_owners_indexed; [done | apply HI].
  - intros p [->|Hp]%(create_elem _ _ _ _ _ Hc); [left | by apply HI].
  - intros x Hx. rewrite (add_owners_Permutation _ _ _ _ _ _ _ Ha) in Hx.
    apply elem_of_app in Hx as [Hx|Hx%owner_rows_elem].
    + destruct (pi_known db HI x Hx) as (p & Hp & E). exists p. split; [|done]. eapply create_elem; eauto.
    + eexists. split; [eapply create_elem; [done | by left] | done].
  - intros id. eapply add_owners_one; [done| |apply HI]. apply unknown_owned; [done|]. intros p Hp. by apply Hnew.
Qed.

(** Saving a project under its own key keeps the set of keys. *)
Lemma save_known ok p t t' id :
  save ok p t = Some t' -> p ∈ t' -> (exists q, q ∈ t /\ PID q = id) -> exists q, q ∈ t' /\ PID q = id.
Proof.
  intros Hs Hp (q & Hq & <-). destruct (decide (PID q = PID p)) as [E|Hn].
  - exists p. by rewrite E.
  - exists q. split; [|done]. by eapply save_elem_other.
Qed.

Lemma remove_owned_one ok project id t t' :
  remove ok (owned project) t = Some t' -> one_owner id t ->
  List.filter (owned project) t' = [] /\ one_owner id t'.
Proof.
  unfold remove. destruct ok; [|done]. intros [= <-] Hid.
  assert (E : List.filter (owned project) (List.filter (fun r => negb (owned project r)) t) = []).
  { apply bfilter_none. intros o [_ Ho]%elem_of_bfilter. by apply negb_true_iff in Ho. }
  split; [done|]. destruct (decide (id = project)) as [->|Hn]; [by left|].
  assert (F : forall f : ProjectOwner -> bool, (forall o, f o = true -> owned id o = true) ->
    List.filter f (List.filter (fun r => negb (owned project r)) t) = List.filter f t).
  { intros f Hf. clear E Hid. induction t as [|o t IH]; simpl; [done|].
    destruct (owned project o) eqn:Eo; simpl; rewrite IH; [|done].
    destruct (f o) eqn:Efo; [|done]. apply Hf, String.eqb_eq in Efo. apply String.eqb_eq in Eo. congruence. }
  unfold one_owner. rewrite !F; [done| |done]. intros o Ho. by apply andb_prop in Ho as [? _].
Qed.

Lemma given_valid req p :
  negb (UP_Status req =? "") && negb (existsb (String.eqb (UP_Status req)) validStatuses) = false ->
  PStatus p ∈ validStatuses -> PStatus (updated_project req p) ∈ validStatuses.
Proof.
  unfold updated_project, given. cbn [PStatus]. destruct (UP_Status req =? ""); cbn [negb andb]; [done|].
  intros E%negb_false_iff _. apply existsb_exists in E as (s & Hs & ->%String.eqb_eq). by apply list_elem_of_In.
Qed.

Lemma save_status ok p t t' :
  save ok p t = Some t' -> PStatus p ∈ validStatuses -> (forall q, q ∈ t -> PStatus q ∈ validStatuses) ->
  forall q, q ∈ t' -> PStatus q ∈ validStatuses.
Proof. intros Hs Hp Ht q [->|[Hq _]]%(save_elem _ _ _ _ _ Hs); auto. Qed.

Lemma update_project_inv e x req db : project_inv db -> project_inv (UpdateProject e x req db).2.
Proof.
  intros HI. unfold UpdateProject. destruct (resolve x (p_rows db)) as [p|] eqn:Hr; [|done].
  apply resolve_some in Hr as (Hin & _ & _). destruct req as [req|]; [|done].
  destruct (taken PName _ _ _); [done|]. destruct (taken Alias _ _ _); [done|].
  destruct (negb (_ =? _) && _) eqn:Hv; [done|]. pose proof (given_valid req p Hv (pi_status db HI p Hin)) as Hst.
  destruct (save _ _ _) as [t|] eqn:Hs; [|done].
  assert (Ht : updated_project req p ∈ t) by (by eapply save_elem_self).
  destruct (UP_OwnerIDs req) as [|o ids] eqn:Eo.
  - simpl. apply commit_cases; [done|]. split; simpl; try apply HI.
    + eapply save_indexed; [done | apply HI].
    + eapply save_status; [done | done | apply HI].
    + intros w Hw. eapply save_known; [done | done | by apply HI].
  - destruct (remove _ _ _) as [ows|] eqn:Hrm; [|done]. destruct (add_owners _ _ _ _ _ _) as [ows'|] eqn:Ha; [|done].
    cbn [snd]. apply commit_cases; [done|]. set (p' := with_owner o (updated_project req p)).
    assert (Hd : exists t', default t (save (writes e (2 + List.length (o :: ids))) p' t) = t' /\ indexed t' /\
      (forall q, q ∈ t' -> PStatus q ∈ validStatuses) /\
      forall id, (exists q, q ∈ p_rows db /\ PID q = id) -> exists q, q ∈ t' /\ PID q = id).
    { assert (H1 : indexed t) by (eapply save_indexed; [done | apply HI]).
      assert (H2 : forall q, q ∈ t -> PStatus q ∈ validStatuses) by (eapply save_status; [done | done | apply HI]).
      eexists. split; [done|]. destruct (save _ p' t) as [t'|] eqn:Hs'; simpl.
      - split; [by eapply save_indexed|]. split; [by eapply save_status|]. intros id Hid.
        eapply save_known; [done | by eapply (save_elem_self _ p') | by eapply save_known].
      - split; [done|]. split; [done|]. intros id Hid. by eapply save_known. }
    destruct Hd as (t' & -> & H1 & H2 & H3). split; simpl; [done| |done| |].
    + eapply add_owners_indexed; [done|]. eapply remove_indexed; [done | apply HI].
    + intros w Hw. rewrite (add_owners_Permutation _ _ _ _ _ _ _ Ha) in Hw. apply H3.
      apply elem_of_app in Hw as [Hw|Hw%owner_rows_elem].
      * eapply remove_elem in Hw as [Hw _]; [|done]. by apply HI.
      * by exists p.
    + intros id. destruct (remove_owned_one _ _ id _ _ Hrm (pi_one db HI id)). by eapply add_owners_one.
Qed.

Lemma delete_project_inv e x db : project_inv db -> project_inv (DeleteProject e x db).2.
Proof.
  intros HI. unfold DeleteProject. destruct (resolve x (p_rows db)) as [p|]; [|done].
  destruct (0 <? _)%Z; [done|]. destruct (soft_delete _ _ _ _) as [t|] eqn:Hs; [|done].
  assert (Hb : t = (fun r => if live r && has_id (PID p) r then bury_project r else r) <$> p_rows db).
  { unfold soft_delete in Hs. destruct (writes e 0); [by injection Hs | done]. }
  split; simpl; try apply HI.
  - eapply soft_delete_indexed; [| |done|apply HI]; done.
  - intros q Hq. rewrite Hb in Hq. apply list_elem_of_fmap in Hq as (r & -> & Hr).
    destruct (_ && _); by apply (pi_status db HI r).
  - intros o Ho. destruct (pi_known db HI o Ho) as (r & Hr & E).
    exists (if live r && has_id (PID p) r then bury_project r else r). split.
    + rewrite Hb. apply list_elem_of_fmap. eauto.
    + by destruct (_ && _).
Qed.

Lemma project_step_inv db db' : project_step db db' -> project_inv db -> project_inv db'.
Proof.
  intros [c e req db0|e x req db0|e x db0|ws db0] HI.
  - by apply create_project_inv.
  - by apply update_project_inv.
  - by apply delete_project_inv.
  - split; apply HI.
Qed.

Lemma no_projects_inv : project_inv no_projects.
Proof. split; simpl; try apply indexed_nil; try (by intros ? ?%not_elem_of_nil). intros id. by left. Qed.

(** ** What the handlers promise *)

(** C38: Whatever requests come in, and whichever writes and commits fail, the tables stay
    consistent: names and aliases are unique, every project has a valid status, every owner
    row belongs to a project, and a project with owners has exactly one in the role owner. *)
Theorem project_tables_stay_consistent db : rtc project_step no_projects db -> project_inv db.
Proof.
  intros Hr. pose proof no_projects_inv as HI. induction Hr as [|a b c Hs _ IH]; [done|].
  apply IH. by eapply project_step_inv.
Qed.

Definition calm : Env := MkEnv (fun _ => true) true (fun n => nth n ["p1"; "o1"; "o2"; "o3"] "x") 0.
Definition alice : Ctx := MkCtx (Some (VString "alice")) None.
Definition shop : CreateProjectRequest := MkCreateProject "Shop" "shop" "" "" ["alice"; "bob"] "" "".

Lemma project_tables_stay_consistent_witness :
  let db := (CreateProject alice calm (Some shop) no_projects).2 in
  map PORole (p_owners db) = ["owner"; "maintainer"] /\ project_inv db.
Proof. split; [reflexivity|]. apply project_tables_stay_consistent. apply rtc_once. apply step_create. Defined.

(** A request that does not succeed leaves the tables as they were. *)
Theorem failed_project_requests_change_nothing c e x creq ureq db :
  (succeeds (CreateProject c e creq db).1 = false -> (CreateProject c e creq db).2 = db) /\
  (succeeds (UpdateProject e x ureq db).1 = false -> (UpdateProject e x ureq db).2 = db) /\
  (succeeds (DeleteProject e x db).1 = false -> (DeleteProject e x db).2 = db).
Proof.
  unfold CreateProject, UpdateProject, DeleteProject. split; [|split]; repeat (case_match; try done).
Qed.

(** A project that was created is there, with the owners that were asked for in their order. *)
Theorem created_project_is_found c e req db p os db' :
  CreateProject c e (Some req) db = (Success 201 (p, os), db') -> commits e = true -> project_inv db ->
  PName p = CP_Name req /\ Alias p = CP_Alias req /\ PStatus p = "active" /\
  first (has_id (PID p)) (p_rows db') = Some p /\
  exists user, ctx_user c = Some (VString user) /\ os ≡ₚ owner_rows e (PID p) 0 (new_owners req user).
Proof.
  unfold CreateProject. destruct (ctx_user c) as [[| | | | |user| | |]|]; try done.
  repeat (case_bool_decide; [done|]). destruct (create _ _ _) as [t|] eqn:Hc; [|done].
  destruct (add_owners _ _ _ _ _ _) as [o|] eqn:Ha; [|done]. unfold commit. intros E Hcm HI.
  rewrite Hcm in E. pose proof (create_spec _ _ _ _ Hc) as [Hnew _]. set (q := new_project e req user) in *.
  assert (Hf : first (has_id (PID q)) t = Some q).
  { refine (first_by_id t q _ _ eq_refl); [eapply create_indexed; [done | apply HI]|].
    eapply create_elem; [done | by left]. }
  unfold reload in E. cbn [p_rows p_owners] in E. rewrite Hf in E. cbn [default from_option] in E.
  injection E as <- <- <-. repeat split; try done. exists user. split; [done|].
  unfold rows. rewrite (filter_Permutation _ _ _ (add_owners_Permutation _ _ _ _ _ _ _ Ha)), List.filter_app.
  change (fresh e 0) with (PID q).
  assert (List.filter (fun r => live r && owned (PID q) r) (p_owners db) = []) as ->.
  { apply (unknown_owned db); [done|]. intros r Hr. by apply Hnew. }
  simpl. rewrite List.forallb_filter_id; [done|].
  apply forallb_forall. intros w Hw%list_elem_of_In%owner_rows_elem. unfold owned. rewrite Hw. apply String.eqb_refl.
Qed.

Lemma created_project_is_found_witness :
  let '(r, db) := CreateProject alice calm (Some shop) no_projects in
  exists p os, r = Success 201 (p, os) /\ first (has_id (PID p)) (p_rows db) = Some p.
Proof.
  destruct (CreateProject alice calm (Some shop) no_projects) as [r db] eqn:E.
  assert (exists p os, r = Success 201 (p, os)) as (p & os & ->) by (vm_compute in E; injection E as <- <-; eauto).
  exists p, os. split; [done|].
  by destruct (created_project_is_found alice calm shop no_projects p os db E eq_refl no_projects_inv) as (_ & _ & _ & ? & _).
Defined.

(** A project is found by its id and by its alias, as long as neither is the alias or the id
    of another live project. *)
Theorem project_is_found p db :
  project_inv db -> p ∈ p_rows db -> PDeleted p = false ->
  (forall q, q ∈ p_rows db -> PDeleted q = false -> PID q <> PID p -> Alias q <> PID p /\ PID q <> Alias p) ->
  resolve (PID p) (p_rows db) = Some p /\ resolve (Alias p) (p_rows db) = Some p.
Proof.
  intros HI Hin Hl Hsep.
  assert (H : forall x, (PID p =? x) || (Alias p =? x) = true ->
    (forall q, q ∈ p_rows db -> PDeleted q = false -> PID q = x \/ Alias q = x -> PID q = PID p) ->
    resolve x (p_rows db) = Some p).
  { intros x Hx Hu. destruct (first_is_some (fun p => (PID p =? x) || (Alias p =? x)) (p_rows db) p) as [q Hq]; [done| |done|].
    { simpl. by rewrite Hl. }
    unfold resolve. rewrite Hq. f_equal. apply resolve_some in Hq as (Hq & Hlq & Hxq).
    eapply (indexed_inj (p_rows db)); [apply HI|done|done|]. by apply Hu. }
  split; apply H; rewrite ?String.eqb_refl, ?orb_true_r; try done; intros q Hq Hlq Hc;
    destruct (decide (PID q = PID p)) as [|Hn]; try done; destruct (Hsep q Hq Hlq Hn), Hc as [|Ea]; try done.
  pose proof (proj2 (pi_rows db HI) q p Hq Hin Hn) as Hcl. apply orb_false_iff in Hcl as [_ Hcl].
  apply String.eqb_neq in Hcl. done.
Qed.

(** Nothing keeps an alias from being the id of another project, and then the smaller id
    wins: once such a project exists, the requests for the other project's id reach it. *)
Theorem alias_can_take_an_id c e req user q db :
  project_inv db -> q ∈ p_rows db -> PDeleted q = false -> ctx_user c = Some (VString user) ->
  (forall x, x ∈ p_rows db -> PName x <> CP_Name req /\ Alias x <> PID q /\ PID x <> fresh e 0) ->
  CP_Alias req = PID q -> String.leb (fresh e 0) (PID q) = true -> CP_OwnerIDs req = [] ->
  (forall o, o ∈ p_owners db -> POID o <> fresh e 1) -> (forall n, writes e n = true) -> commits e = true ->
  let db' := (CreateProject c e (Some req) db).2 in
  resolve (PID q) (p_rows db) = Some q /\ resolve (PID q) (p_rows db') = Some (new_project e req user).
Proof.
  intros HI Hq Hl Hc Hnew Ha Hle Hos Hfo Hw Hcm. split.
  { unfold resolve. destruct (first_is_some (fun p => (PID p =? PID q) || (Alias p =? PID q)) (p_rows db) q) as [x Hx]; [done| | |].
    { simpl. by rewrite Hl. } { by rewrite String.eqb_refl. }
    rewrite Hx. f_equal. apply resolve_some in Hx as (Hx & _ & [E|E]); [|by apply Hnew in Hx as (_ & ? & _)].
    eapply (indexed_inj (p_rows db)); [apply HI|done|done|done]. }
  unfold CreateProject. rewrite Hc.
  assert (forall f v, (forall x, x ∈ p_rows db -> f x <> v) -> first (fun p => f p =? v) (p_rows db) = None) as Hn.
  { intros f v Hf. destruct (first _ _) as [x|] eqn:E; [|done]. apply first_some in E as (Hx & _ & E%String.eqb_eq).
    by apply Hf in Hx. }
  rewrite (Hn PName), (Hn Alias); [|by intros x Hx; rewrite Ha; apply Hnew|by intros x Hx; apply Hnew].
  rewrite !bool_decide_false by (by intros [? ?]).
  unfold create at 1. rewrite Hw. cbn [andb].
  assert (insertable (new_project e req user) (p_rows db) = true) as ->.
  { apply insertable_spec. intros x Hx. destruct (Hnew x Hx) as (H1 & H2 & H3). split; [done|].
    unfold clash. cbn [project_row new_project PName Alias]. rewrite Ha. apply String.eqb_neq in H1, H2. by rewrite H1, H2. }
  destruct (add_owners _ _ _ _ _ _) as [os|] eqn:Hadd.
  - cbn [snd]. unfold commit. rewrite Hcm. cbn [p_rows]. unfold resolve.
    eapply first_insert_row; [done| |done|done|].
    + cbn [new_project PID Alias]. rewrite Ha, String.eqb_refl. apply orb_true_r.
    + intros x Hx _ Hp. bool_props. destruct Hp; bool_props.
      * eapply (indexed_inj (p_rows db)); [apply HI|done|done|done].
      * by destruct (Hnew x Hx) as (_ & ? & _).
  - exfalso. revert Hadd. unfold new_owners. rewrite Hos. destruct (_ =? _); [done|]. cbn.
    unfold create. rewrite Hw. cbn [andb]. assert (insertable (MkOwner (fresh e 1) (fresh e 0) (primaryOwnerID req user) "owner") (p_owners db) = true) as ->; [|done].
    apply insertable_spec. intros x Hx. split; [by apply Hfo|]. apply andb_false_iff. left. apply String.eqb_neq. cbn.
    destruct (pi_known db HI x Hx) as (p & Hp & <-). by apply Hnew.
Qed.

Definition shop_db : ProjectDB := (CreateProject alice calm (Some shop) no_projects).2.
Definition thief : CreateProjectRequest := MkCreateProject "Thief" "p1" "" "" [] "" "".

Lemma alias_can_take_an_id_witness :
  let e := MkEnv (fun _ => true) true (fun n => nth n ["p0"; "o9"] "x") 1 in
  resolve "p1" (p_rows (CreateProject alice e (Some thief) shop_db).2) = Some (new_project e thief "alice").
Proof.
  intros e. refine (proj2 (alias_can_take_an_id alice e thief "alice" (new_project calm shop "alice") shop_db
    (create_project_inv _ _ _ _ no_projects_inv) _ eq_refl eq_refl _ eq_refl eq_refl eq_refl _ (fun _ => eq_refl) eq_refl)).
  - vm_compute. left.
  - intros x Hx. replace (p_rows shop_db) with [new_project calm shop "alice"] in Hx by reflexivity.
    apply list_elem_of_singleton in Hx as ->. repeat split; discriminate.
  - intros o Ho. replace (p_owners shop_db) with (owner_rows calm "p1" 0 ["alice"; "bob"]) in Ho by reflexivity.
    apply elem_of_cons in Ho as [->|Ho]; [discriminate|]. apply list_elem_of_singleton in Ho as ->. discriminate.
Defined.

(** A deleted project keeps its name: a new project of that name passes the check of the
    handler and is then refused by the index, as a failure of the database. *)
Theorem deleted_name_is_blocked c e req user q db :
  q ∈ p_rows db -> PDeleted q = true -> PName q = CP_Name req -> ctx_user c = Some (VString user) ->
  (forall x, x ∈ p_rows db -> PDeleted x = false -> PName x <> CP_Name req /\ Alias x <> CP_Alias req) ->
  CreateProject c e (Some req) db = (Failure 500 ErrCodeDatabaseError "Failed to create project", db).
Proof.
  intros Hq Hd Hn Hc Hfree. unfold CreateProject. rewrite Hc.
  rewrite !bool_decide_false by (intros [x (Hx & Hl%negb_true_iff & E%String.eqb_eq)%first_some]; by apply (Hfree x Hx) in Hl as [? ?]).
  destruct (create _ _ _) as [t|] eqn:E; [|done]. apply create_spec in E as [E _].
  destruct (E q Hq) as [_ Hcl]. unfold clash in Hcl. cbn in Hcl. by rewrite Hn, String.eqb_refl in Hcl.
Qed.

(** The owner of a project and its owner rows are two things: a request with [owner_id]
    alone changes the first and leaves the second. *)
Theorem owner_id_alone_leaves_the_owners e x req p db :
  resolve x (p_rows db) = Some p -> project_inv db -> UP_OwnerIDs req = [] -> UP_OwnerID req <> "" -> commits e = true ->
  succeeds (UpdateProject e x (Some req) db).1 = true ->
  let db' := (UpdateProject e x (Some req) db).2 in
  p_owners db' = p_owners db /\ exists p', p' ∈ p_rows db' /\ PID p' = PID p /\ OwnerID p' = UP_OwnerID req.
Proof.
  intros Hr HI Ho Hne Hcm. unfold UpdateProject. rewrite Hr, Ho.
  apply resolve_some in Hr as (Hin & _ & _).
  destruct (taken PName _ _ _); [done|]. destruct (taken Alias _ _ _); [done|]. destruct (_ && _); [done|].
  destruct (save _ _ _) as [t|] eqn:Hs; [|done]. intros _. cbn [snd]. unfold commit. rewrite Hcm. split; [done|].
  exists (updated_project req p). split; [by eapply save_elem_self|]. split; [done|].
  unfold updated_project, given. cbn [OwnerID]. by apply String.eqb_neq in Hne as ->.
Qed.

(** A project with workflows is not deleted; otherwise it is hidden, and the rows of its
    owners stay. *)
Theorem delete_project_spec e x p db :
  resolve x (p_rows db) = Some p -> project_inv db -> writes e 0 = true ->
  let '(r, db') := DeleteProject e x db in
  if (0 <? count (belongs (PID p)) (p_workflows db))%Z then succeeds r = false /\ db' = db
  else succeeds r = true /\ first (has_id (PID p)) (p_rows db') = None /\ p_owners db' = p_owners db /\
       forall q, q ∈ p_rows db -> PID q <> PID p -> q ∈ p_rows db'.
Proof.
  intros Hr HI Hw. unfold DeleteProject. rewrite Hr. destruct (0 <? _)%Z; [done|].
  unfold soft_delete. rewrite Hw. repeat split; cbn [p_rows].
  - destruct (first _ _) as [q|] eqn:E; [|done]. apply first_some in E as (Hq & Hl & Hi).
    apply list_elem_of_fmap in Hq as (y & -> & _). destruct (live y && has_id (PID p) y) eqn:E; [done|].
    apply andb_false_iff in E as [E|E]; congruence.
  - intros q Hq Hn. apply list_elem_of_fmap. exists q. split; [|done]. unfold has_id. cbn [row_id project_row].
    apply String.eqb_neq in Hn as ->. by rewrite andb_false_r.
Qed.
