(* ===== verification/DataTypes.v ===== *)
(** * Data types (handlers/datatype_handler.go, shared/types/data_type.go)

    The data types of a project, their hierarchy, their preworks and the presets for delete
    strategies, over the tables of [Table]. A column that holds JSON is given by the value it
    encodes. Reads of the database succeed. The times of creation and update are left out. The loop that climbs from a data type to its
    root has fuel; [None] is a request that is still climbing. *)

From Stdlib Require Import String.
From stdpp Require Import pretty.
From S2P Require Import Prelude GoString GoValue Api Auth Table Projects.
Local Open Scope string_scope.
Local Open Scope list_scope.

(** ** Delete strategies *)

Record SoftDeleteConfig := MkSoft { FieldType : string; FieldName : string; DeleteValue : string; ActiveValue : string }.

Record DeleteDetectionConfig := MkDetection {
  Method : string;
  FlagField : string;
  FlagValue : string;
  EventTypeField : string;
  DeleteEventType : string
}.

Record DeleteStrategy := MkStrategy {
  Mode : string;
  SoftDelete : option SoftDeleteConfig;
  Detection : option DeleteDetectionConfig
}.

Definition DeleteModePhysical := "physical".
Definition DeleteModeSoft := "soft".
Definition DeleteModeIgnore := "ignore".
Definition SoftDeleteFieldTimestamp := "timestamp".
Definition SoftDeleteFieldBoolean := "boolean".
Definition SoftDeleteFieldStatus := "status".

(** A preset as the types package lists it. *)
Record Preset := MkPreset {
  PresetID : string;
  PresetName : string;
  PresetDescription : string;
  PresetStrategy : DeleteStrategy;
  PresetDefault : bool
}.

Definition null_body : DeleteDetectionConfig := MkDetection "null_body" "" "" "" "".

Definition DefaultDeleteStrategyPresets : list Preset := [
  MkPreset "physical" "물리 삭제" "레코드를 실제로 삭제합니다"
    (MkStrategy DeleteModePhysical None (Some null_body)) true;
  MkPreset "soft_timestamp" "논리 삭제 (타임스탬프)" "deleted_at 필드에 삭제 시간을 기록합니다"
    (MkStrategy DeleteModeSoft (Some (MkSoft SoftDeleteFieldTimestamp "deleted_at" "" "")) (Some null_body)) false;
  MkPreset "soft_boolean" "논리 삭제 (불린)" "is_deleted 필드를 true로 설정합니다"
    (MkStrategy DeleteModeSoft (Some (MkSoft SoftDeleteFieldBoolean "is_deleted" "true" "false")) (Some null_body)) false;
  MkPreset "soft_status" "논리 삭제 (상태값)" "status 필드를 'D'로 설정합니다"
    (MkStrategy DeleteModeSoft (Some (MkSoft SoftDeleteFieldStatus "status" "D" "A")) (Some null_body)) false;
  MkPreset "cdc_soft_timestamp" "CDC 논리 삭제 (타임스탬프)" "CDC __op 필드로 삭제 감지, deleted_at 기록"
    (MkStrategy DeleteModeSoft (Some (MkSoft SoftDeleteFieldTimestamp "deleted_at" "" ""))
       (Some (MkDetection "event_type" "" "" "__op" "d"))) false;
  MkPreset "ignore" "삭제 무시" "삭제 이벤트를 무시합니다 (로그성 데이터용)"
    (MkStrategy DeleteModeIgnore None None) false ].

(** ** Rows *)

Record DataTypeField := MkField { DFName : string; DFType : string; DFRequired : bool; DFDescription : string }.
Record DataTypeSchema := MkSchema { SchemaType : string; Definition_ : string; Fields : list DataTypeField }.
Record DataTypeStorage := MkStorage { StorageType : string; StorageConfig : Data }.

(** No handler sets the deletion time of a data type. *)
Record DataType := MkDataType {
  DTID : string;
  DTProject : string;
  DTParent : option string;
  DTName : string;
  DTDisplay : string;
  DTDescription : string;
  DTCategory : string;
  DTStrategy : option DeleteStrategy;
  DTIDFields : list string;
  DTSchema : option DataTypeSchema;
  DTStorage : option DataTypeStorage;
  DTCreatedBy : string
}.

#[export] Instance datatype_row : Row DataType := {|
  row_id := DTID; live _ := true; clash x y := (DTProject x =? DTProject y) && (DTName x =? DTName y)
|}.

Record DataTypePrework := MkPrework {
  PWID : string;
  PWDataType : string;
  PWName : string;
  PWDescription : string;
  PWType : string;
  PWPhase : string;
  PWOrder : Z;
  PWConfig : Data;
  PWStatus : string;
  PWExecutedAt : option Z;
  PWExecutedBy : string
}.

#[export] Instance prework_row : Row DataTypePrework := {| row_id := PWID; live _ := true; clash _ _ := false |}.

Record DeleteStrategyPreset := MkPresetRow {
  DPID : string;
  DPName : string;
  DPDisplay : string;
  DPDescription : string;
  DPStrategy : DeleteStrategy;
  DPDefault : bool;
  DPSystem : bool
}.

#[export] Instance preset_row : Row DeleteStrategyPreset := {|
  row_id := DPID; live _ := true; clash x y := DPName x =? DPName y
|}.

Record Pipeline := MkPipelineRow {
  PLID : string;
  PLName : string;
  PLDescription : string;
  ConfigYAML : string;
  DataTypeID : string;
  PLCreatedBy : string;
  PLDeleted : bool
}.

#[export] Instance pipeline_row : Row Pipeline := {|
  row_id := PLID; live p := negb (PLDeleted p); clash _ _ := false
|}.

Record DataTypeDB := MkDataTypeDB {
  d_projects : list Project;
  d_types : list DataType;
  d_preworks : list DataTypePrework;
  d_pipelines : list Pipeline;
  d_presets : list DeleteStrategyPreset
}.

Definition set_types (t : list DataType) (db : DataTypeDB) : DataTypeDB :=
  MkDataTypeDB (d_projects db) t (d_preworks db) (d_pipelines db) (d_presets db).
Definition set_preworks (t : list DataTypePrework) (db : DataTypeDB) : DataTypeDB :=
  MkDataTypeDB (d_projects db) (d_types db) t (d_pipelines db) (d_presets db).
Definition set_presets (t : list DeleteStrategyPreset) (db : DataTypeDB) : DataTypeDB :=
  MkDataTypeDB (d_projects db) (d_types db) (d_preworks db) (d_pipelines db) t.

(** ** Helpers *)

Definition defaultMaxDataTypeDepth : Z := 10.

(** [envVal] is the value of [MAX_DATATYPE_DEPTH], empty when it is not set. *)
Definition getMaxDataTypeDepth (envVal : string) : Z :=
  match Atoi envVal with
  | Some depth => if negb (envVal =? "") && (0 <? depth)%Z then depth else defaultMaxDataTypeDepth
  | None => defaultMaxDataTypeDepth
  end.

Fixpoint getDataTypeDepth (fuel : nat) (t : list DataType) (currentID : string) : option Z :=
  match fuel with
  | O => None
  | S fuel =>
      if currentID =? "" then Some 0%Z
      else match first (has_id currentID) t with
           | None => Some 0%Z
           | Some dt =>
               match DTParent dt with
               | Some parent => Z.succ <$> getDataTypeDepth fuel t parent
               | None => Some 1%Z
               end
           end
  end.

Definition getErrorMessage (lang ko en : string) : string :=
  if lang =? "" then ko
  else if (2 <=? String.length lang)%nat && (String.substring 0 2 lang =? "en") then en else ko.

Definition errorResponse {A} (lang : string) (status : Z) (code : ErrorCode) (ko en : string) : Reply A :=
  Failure status code (getErrorMessage lang ko en).

(** ** Reading *)

Definition of_type (id : string) (p : DataTypePrework) : bool := PWDataType p =? id.

(** A data type with its preworks and its parent, as they are preloaded. *)
Definition preloaded (dt : DataType) (db : DataTypeDB) : DataType * list DataTypePrework * option DataType :=
  (dt, rows (of_type (DTID dt)) (d_preworks db), DTParent dt ≫= fun p => first (has_id p) (d_types db)).

Definition in_category (category : string) (dt : DataType) : bool := (category =? "") || (DTCategory dt =? category).
Definition by_name (x y : DataType) : bool := String.leb (DTName x) (DTName y).

Definition ListDataTypes `{Sql} (projectID category : string) (db : DataTypeDB)
  : Reply (list (DataType * list DataTypePrework * option DataType)) :=
  let wanted dt := ((projectID =? "") || (DTProject dt =? projectID)) && in_category category dt in
  Success 200 ((fun dt => preloaded dt db) <$> order_by by_name (rows wanted (d_types db))).

(** [GetProjectDataTypes] of handlers/project.go. *)
Definition GetProjectDataTypes `{Sql} (idOrAlias category : string) (db : DataTypeDB)
  : Reply (list (DataType * list DataTypePrework * option DataType)) :=
  match resolve idOrAlias (d_projects db) with
  | None => project_not_found
  | Some p =>
      let wanted dt := (DTProject dt =? PID p) && in_category category dt in
      Success 200 ((fun dt => preloaded dt db) <$> order_by by_name (rows wanted (d_types db)))
  end.

Definition datatype_not_found {A} (lang : string) : Reply A :=
  errorResponse lang 404 ErrCodeNotFound "데이터 유형을 찾을 수 없습니다" "Data type not found".

Definition GetDataType (lang id : string) (db : DataTypeDB) : Reply (DataType * list DataTypePrework * option DataType) :=
  match first (has_id id) (d_types db) with
  | None => datatype_not_found lang
  | Some dt => Success 200 (preloaded dt db)
  end.

Definition GetCategories : Reply (list (list (string * string))) :=
  Success 200 [
    [("id", "master"); ("name", "마스터 데이터"); ("description", "사용자, 상품 등 기준 정보")];
    [("id", "transaction"); ("name", "거래 데이터"); ("description", "주문, 결제 등 트랜잭션")];
    [("id", "log"); ("name", "로그 데이터"); ("description", "이벤트 로그, 접근 로그 등")];
    [("id", "metric"); ("name", "메트릭 데이터"); ("description", "모니터링, 통계 데이터")];
    [("id", "reference"); ("name", "참조 데이터"); ("description", "코드, 설정 등 참조 정보")]].

(** ** Requests *)

Record PreworkRequest := MkPreworkRequest {
  PR_Name : string;
  PR_Description : string;
  PR_Type : string;
  PR_Phase : string;
  PR_Order : Z;
  PR_Config : Data
}.

Record CreateDataTypeRequest := MkCreateDataType {
  CD_Project : string;
  CD_Parent : option string;
  CD_Name : string;
  CD_Display : string;
  CD_Description : string;
  CD_Category : string;
  CD_Strategy : option DeleteStrategy;
  CD_IDFields : list string;
  CD_Schema : option DataTypeSchema;
  CD_Storage : option DataTypeStorage;
  CD_Preworks : list PreworkRequest
}.

Record UpdateDataTypeRequest := MkUpdateDataType {
  UD_Parent : option string;
  UD_Name : string;
  UD_Display : string;
  UD_Description : string;
  UD_Category : string;
  UD_Strategy : option DeleteStrategy;
  UD_IDFields : list string;
  UD_Schema : option DataTypeSchema;
  UD_Storage : option DataTypeStorage
}.

(** [c.Get("user")]: the middleware stores the id, the email and the role of the caller and
    no key of that name. *)
Definition context_user (c : Ctx) : option string := None.

(** The parent a request names, if it names one. *)
Definition named (parent : option string) : option string :=
  match parent with Some p => if p =? "" then None else Some p | None => None end.

Section Requests.
Context (lang err envVal : string).

Definition depth_exceeded {A} : Reply A :=
  errorResponse lang 400 ErrCodeValidationFailed
    ("최대 계층 깊이를 초과했습니다 (최대: " +:+ pretty (getMaxDataTypeDepth envVal) +:+ ")")
    ("Maximum hierarchy depth exceeded (max: " +:+ pretty (getMaxDataTypeDepth envVal) +:+ ")").

Definition invalid_request {A} : Reply A :=
  errorResponse lang 400 ErrCodeInvalidJSON ("잘못된 요청: " +:+ err) ("Invalid request: " +:+ err).

Definition new_prework (id dataType : string) (order : Z) (pw : PreworkRequest) : DataTypePrework :=
  MkPrework id dataType (PR_Name pw) (PR_Description pw) (PR_Type pw) (PR_Phase pw) order (PR_Config pw) "pending" None "".

Fixpoint add_preworks (e : Env) (dataType : string) (i : nat) (l : list PreworkRequest) (t : list DataTypePrework)
  : option (list DataTypePrework) :=
  match l with
  | [] => Some t
  | pw :: rest =>
      let order := if (PR_Order pw =? 0)%Z then Z.of_nat (S i) else PR_Order pw in
      create (writes e (S i)) (new_prework (fresh e (S i)) dataType order pw) t ≫= add_preworks e dataType (S i) rest
  end.

Definition new_datatype (c : Ctx) (e : Env) (project : string) (req : CreateDataTypeRequest) : DataType :=
  MkDataType (fresh e 0) project (CD_Parent req) (CD_Name req) (CD_Display req) (CD_Description req) (CD_Category req)
    (CD_Strategy req) (CD_IDFields req) (CD_Schema req) (CD_Storage req) (default "" (context_user c)).

(** The part of [CreateDataType] after the checks. *)
Definition store_datatype (e : Env) (dt : DataType) (preworks : list PreworkRequest) (db : DataTypeDB)
  : Reply (DataType * list DataTypePrework * option DataType) * DataTypeDB :=
  match create (writes e 0) dt (d_types db) with
  | None => (errorResponse lang 500 ErrCodeDatabaseError ("데이터 유형 생성 실패: " +:+ err) ("Failed to create data type: " +:+ err), db)
  | Some t =>
      match add_preworks e (DTID dt) 0 preworks (d_preworks db) with
      | None => (errorResponse lang 500 ErrCodeDatabaseError ("사전작업 생성 실패: " +:+ err) ("Failed to create prework: " +:+ err), db)
      | Some pws =>
          let db' := commit e db (set_preworks pws (set_types t db)) in
          (Success 201 (preloaded (default dt (first (has_id (DTID dt)) (d_types db'))) db'), db')
      end
  end.

Definition CreateDataType (fuel : nat) (c : Ctx) (e : Env) (req : option CreateDataTypeRequest) (db : DataTypeDB)
  : option (Reply (DataType * list DataTypePrework * option DataType) * DataTypeDB) :=
  match req with
  | None => Some (invalid_request, db)
  | Some req =>
      match resolve (CD_Project req) (d_projects db) with
      | None => Some (errorResponse lang 400 ErrCodeNotFound "프로젝트를 찾을 수 없습니다" "Project not found", db)
      | Some project =>
          let dt := new_datatype c e (PID project) req in
          match named (CD_Parent req) with
          | None => Some (store_datatype e dt (CD_Preworks req) db)
          | Some parent =>
              match first (fun d => has_id parent d && (DTProject d =? PID project)) (d_types db) with
              | None => Some (errorResponse lang 400 ErrCodeNotFound "부모 데이터타입을 찾을 수 없습니다" "Parent data type not found", db)
              | Some _ =>
                  match getDataTypeDepth fuel (d_types db) parent with
                  | None => None
                  | Some parentDepth =>
                      if (getMaxDataTypeDepth envVal <? parentDepth + 1)%Z then Some (depth_exceeded, db)
                      else Some (store_datatype e dt (CD_Preworks req) db)
                  end
              end
          end
      end
  end.

Definition updated_datatype (req : UpdateDataTypeRequest) (dt : DataType) : DataType :=
  MkDataType (DTID dt) (DTProject dt) (UD_Parent req) (given (UD_Name req) (DTName dt)) (given (UD_Display req) (DTDisplay dt))
    (given (UD_Description req) (DTDescription dt)) (given (UD_Category req) (DTCategory dt))
    (match UD_Strategy req with Some s => Some s | None => DTStrategy dt end)
    (match UD_IDFields req with [] => DTIDFields dt | l => l end)
    (match UD_Schema req with Some s => Some s | None => DTSchema dt end)
    (match UD_Storage req with Some s => Some s | None => DTStorage dt end)
    (DTCreatedBy dt).

Definition write_datatype (e : Env) (dt : DataType) (db : DataTypeDB)
  : Reply (DataType * list DataTypePrework * option DataType) * DataTypeDB :=
  match save (writes e 0) dt (d_types db) with
  | None => (errorResponse lang 500 ErrCodeDatabaseError "데이터 유형 수정 실패" "Failed to update data type", db)
  | Some t => let db' := set_types t db in (Success 200 (preloaded dt db'), db')
  end.

Definition UpdateDataType (fuel : nat) (e : Env) (id : string) (req : option UpdateDataTypeRequest) (db : DataTypeDB)
  : option (Reply (DataType * list DataTypePrework * option DataType) * DataTypeDB) :=
  match first (has_id id) (d_types db) with
  | None => Some (datatype_not_found lang, db)
  | Some dt =>
      match req with
      | None => Some (invalid_request, db)
      | Some req =>
          match named (UD_Parent req) with
          | None => Some (write_datatype e (updated_datatype req dt) db)
          | Some parent =>
              match getDataTypeDepth fuel (d_types db) parent with
              | None => None
              | Some parentDepth =>
                  if (getMaxDataTypeDepth envVal <? parentDepth + 1)%Z then Some (depth_exceeded, db)
                  else Some (write_datatype e (updated_datatype req dt) db)
              end
          end
      end
  end.

Definition uses (id : string) (p : Pipeline) : bool := DataTypeID p =? id.

Definition DeleteDataType (e : Env) (id : string) (db : DataTypeDB) : Reply unit * DataTypeDB :=
  if (0 <? count (uses id) (d_pipelines db))%Z
  then (errorResponse lang 400 ErrCodeHasChildren "이 데이터 유형을 사용하는 파이프라인이 있어 삭제할 수 없습니다"
          "Cannot delete: pipelines are using this data type", db)
  else
    match remove (writes e 0) (of_type id) (d_preworks db) with
    | None => (errorResponse lang 500 ErrCodeDatabaseError "사전작업 삭제 실패" "Failed to delete prework", db)
    | Some pws =>
        match remove (writes e 1) (has_id id) (d_types db) with
        | None => (errorResponse lang 500 ErrCodeDatabaseError "데이터 유형 삭제 실패" "Failed to delete data type", db)
        | Some t => (Success 200 tt, commit e db (set_preworks pws (set_types t db)))
        end
    end.

Definition prework_not_found {A} : Reply A :=
  errorResponse lang 404 ErrCodeNotFound "사전작업을 찾을 수 없습니다" "Prework not found".

Definition with_pw_status (status : string) (p : DataTypePrework) : DataTypePrework :=
  MkPrework (PWID p) (PWDataType p) (PWName p) (PWDescription p) (PWType p) (PWPhase p) (PWOrder p) (PWConfig p) status
    (PWExecutedAt p) (PWExecutedBy p).
Definition executed (at_ : Z) (by_ : string) (p : DataTypePrework) : DataTypePrework :=
  MkPrework (PWID p) (PWDataType p) (PWName p) (PWDescription p) (PWType p) (PWPhase p) (PWOrder p) (PWConfig p) "completed"
    (Some at_) by_.

(** The errors of the two updates are not looked at; nothing is executed between them. *)
Definition ExecutePrework (c : Ctx) (e : Env) (dataTypeID preworkID : string) (db : DataTypeDB)
  : Reply DataTypePrework * DataTypeDB :=
  match first (fun p => has_id preworkID p && of_type dataTypeID p) (d_preworks db) with
  | None => (prework_not_found, db)
  | Some p =>
      let t := default (d_preworks db) (save (writes e 0) (with_pw_status "running" p) (d_preworks db)) in
      let done_ := executed (now e) (default "" (context_user c)) p in
      let t := default t (save (writes e 1) done_ t) in
      (Success 200 (default done_ (first (has_id preworkID) t)), set_preworks t db)
  end.

Definition AddPrework (e : Env) (dataTypeID : string) (req : option PreworkRequest) (db : DataTypeDB)
  : Reply DataTypePrework * DataTypeDB :=
  match first (has_id dataTypeID) (d_types db) with
  | None => (datatype_not_found lang, db)
  | Some _ =>
      match req with
      | None => (invalid_request, db)
      | Some req =>
          let p := new_prework (fresh e 0) dataTypeID (PR_Order req) req in
          match create (writes e 0) p (d_preworks db) with
          | None => (errorResponse lang 500 ErrCodeDatabaseError "사전작업 생성 실패" "Failed to create prework", db)
          | Some t => (Success 201 p, set_preworks t db)
          end
      end
  end.

Definition DeletePrework (e : Env) (dataTypeID preworkID : string) (db : DataTypeDB) : Reply unit * DataTypeDB :=
  match remove (writes e 0) (fun p => has_id preworkID p && of_type dataTypeID p) (d_preworks db) with
  | None => (errorResponse lang 500 ErrCodeDatabaseError "사전작업 삭제 실패" "Failed to delete prework", db)
  | Some t => (Success 200 tt, set_preworks t db)
  end.

(** ** Presets *)

Definition preset_of (p : Preset) : DeleteStrategyPreset :=
  MkPresetRow (PresetID p) (PresetID p) (PresetName p) (PresetDescription p) (PresetStrategy p) (PresetDefault p) true.

(** [FirstOrCreate] for each preset; a failing write is passed over. *)
Fixpoint initDefaultPresets (e : Env) (i : nat) (l : list Preset) (t : list DeleteStrategyPreset)
  : list DeleteStrategyPreset :=
  match l with
  | [] => t
  | p :: rest =>
      let t := match first (has_id (PresetID p)) t with
               | Some _ => t
               | None => default t (create (writes e i) (preset_of p) t)
               end in
      initDefaultPresets e (S i) rest t
  end.

Definition preset_order (x y : DeleteStrategyPreset) : bool :=
  if Bool.eqb (DPDefault x) (DPDefault y) then String.leb (DPName x) (DPName y) else DPDefault x.

Definition ListDeleteStrategyPresets `{Sql} (e : Env) (db : DataTypeDB) : Reply (list DeleteStrategyPreset) * DataTypeDB :=
  match order_by preset_order (d_presets db) with
  | [] =>
      let t := initDefaultPresets e 0 DefaultDeleteStrategyPresets (d_presets db) in
      (Success 200 t, set_presets t db)
  | presets => (Success 200 presets, db)
  end.
End Requests.

(** ** The hierarchy *)

#[export] Instance datatype_laws : RowLaws DataType.
Proof. split. intros x y. unfold clash; simpl. by rewrite (String.eqb_sym (DTProject x)), (String.eqb_sym (DTName x)). Qed.
#[export] Instance prework_laws : RowLaws DataTypePrework.
Proof. by split. Qed.

Lemma max_depth_positive envVal : (1 <= getMaxDataTypeDepth envVal)%Z.
Proof.
  unfold getMaxDataTypeDepth, defaultMaxDataTypeDepth. destruct (Atoi envVal) as [d|]; [|lia].
  destruct (negb _); simpl; [|lia]. destruct (Z.ltb_spec 0 d); lia.
Qed.

Lemma depth_nonneg n t id d : getDataTypeDepth n t id = Some d -> (0 <= d)%Z.
Proof.
  revert id d. induction n as [|n IH]; intros id d; simpl; [done|].
  destruct (id =? ""); [intros [= <-]; lia|]. destruct (first _ _) as [dt|]; [|intros [= <-]; lia].
  destruct (DTParent dt) as [p|]; [|intros [= <-]; lia].
  intros (d' & Hd & ->)%fmap_Some. apply IH in Hd. lia.
Qed.

(** As many rounds as the depth and one more are enough, and more change nothing. *)
Lemma depth_fuel n m t id d :
  getDataTypeDepth n t id = Some d -> (Z.to_nat d < m)%nat -> getDataTypeDepth m t id = Some d.
Proof.
  revert m id d. induction n as [|n IH]; intros m id d; simpl; [done|]. intros Hd Hm.
  destruct m as [|m]; [lia|]. simpl. destruct (id =? ""); [done|]. destruct (first _ _) as [dt|]; [|done].
  destruct (DTParent dt) as [p|]; [|done]. apply fmap_Some in Hd as (d' & Hd & ->).
  rewrite (IH m p d' Hd); [done|]. pose proof (depth_nonneg _ _ _ _ Hd). lia.
Qed.

Definition depth_is (t : list DataType) (id : string) (d : Z) : Prop := exists fuel, getDataTypeDepth fuel t id = Some d.

Lemma depth_present t id d dt : depth_is t id d -> id <> "" -> first (has_id id) t = Some dt -> (1 <= d)%Z.
Proof.
  intros [[|n] Hd] Hne Hf; [done|]. simpl in Hd. apply String.eqb_neq in Hne. rewrite Hne, Hf in Hd.
  destruct (DTParent dt); [|by injection Hd as <-]. apply fmap_Some in Hd as (d' & Hd & ->).
  apply depth_nonneg in Hd. lia.
Qed.

(** A new row that is nobody's parent leaves every climb as it was. *)
Lemma depth_insert n r t id :
  (forall x, x ∈ t -> DTParent x <> Some (DTID r)) -> id <> DTID r ->
  getDataTypeDepth n (insert_row r t) id = getDataTypeDepth n t id.
Proof.
  intros Hp. revert id. induction n as [|n IH]; intros id Hid; simpl; [done|].
  rewrite first_insert_other by (by apply String.eqb_neq).
  destruct (id =? ""); [done|]. destruct (first _ t) as [dt|] eqn:E; [|done].
  destruct (DTParent dt) as [p|] eqn:Ep; [|done]. rewrite IH; [done|].
  intros ->. apply first_some in E as (Hin & _). by apply (Hp dt Hin).
Qed.

(** Removing a row, or turning one into a root, shortens the climbs. *)
Lemma depth_remove n x t id d :
  getDataTypeDepth n t id = Some d ->
  exists d', getDataTypeDepth n (List.filter (fun r => negb (has_id x r)) t) id = Some d' /\ (d' <= d)%Z.
Proof.
  revert id d. induction n as [|n IH]; intros id d Hd; [done|].
  pose proof (depth_nonneg _ _ _ _ Hd) as H0. simpl in *. destruct (id =? ""); [eauto with lia|].
  destruct (decide (id = x)) as [->|Hn].
  - rewrite first_filter_none. eauto.
  - rewrite first_filter_other by (intros r E%String.eqb_eq; apply String.eqb_neq; congruence).
    destruct (first _ t) as [dt|]; [|eauto with lia]. destruct (DTParent dt) as [p|]; [|eauto with lia].
    apply fmap_Some in Hd as (d' & Hd & ->). destruct (IH p d' Hd) as (d2 & -> & Hle). exists (Z.succ d2). split; [done|lia].
Qed.

Lemma depth_root n r t id d :
  named (DTParent r) = None -> is_Some (first (has_id (DTID r)) t) ->
  getDataTypeDepth n t id = Some d ->
  exists d', getDataTypeDepth (S n) (replace_row r <$> t) id = Some d' /\ (d' <= d)%Z.
Proof.
  intros Hr [y Hy]. revert id d. induction n as [|n IH]; intros id d Hd; [done|].
  destruct (decide (id = "")) as [->|Hne]; [simpl in *; eauto with lia|].
  destruct (decide (DTID r = id)) as [<-|Hn].
  - pose proof (depth_present t (DTID r) d y (ex_intro _ (S n) Hd) Hne Hy). exists 1%Z. split; [|lia].
    assert (Hs : first (has_id (DTID r)) (replace_row r <$> t) = Some r) by exact (@first_replace_self _ datatype_row r t y eq_refl Hy).
    cbn [getDataTypeDepth]. apply String.eqb_neq in Hne as ->. rewrite Hs.
    unfold named in Hr. destruct (DTParent r) as [p|]; [|done]. destruct (p =? "") eqn:E; [|done]. done.
  - pose proof (depth_nonneg _ _ _ _ Hd) as H0. cbn [getDataTypeDepth] in Hd.
    remember (S n) as m. cbn [getDataTypeDepth]. subst m. rewrite first_replace_other by done.
    destruct (id =? ""); [eauto with lia|]. destruct (first (has_id id) t) as [dt|]; [|eauto with lia].
    destruct (DTParent dt) as [p|]; [|eauto with lia].
    apply fmap_Some in Hd as (d' & Hd & ->). destruct (IH p d' Hd) as (d2 & -> & Hle). exists (Z.succ d2). split; [done|lia].
Qed.

(** ** Well-formed tables *)

Record datatype_inv (maxDepth : Z) (db : DataTypeDB) : Prop := {
  di_types : indexed (d_types db);
  di_preworks : indexed (d_preworks db);
  di_depth : forall dt, dt ∈ d_types db -> exists d, depth_is (d_types db) (DTID dt) d /\ (d <= maxDepth)%Z;
  di_project : forall dt p q, dt ∈ d_types db -> named (DTParent dt) = Some p -> q ∈ d_types db -> DTID q = p ->
    DTProject q = DTProject dt;
  di_known : forall pw, pw ∈ d_preworks db -> exists dt, dt ∈ d_types db /\ DTID dt = PWDataType pw
}.

(** The id of a new data type is not one that was used before. *)
Definition fresh_for (e : Env) (db : DataTypeDB) : Prop :=
  fresh e 0 <> "" /\ forall x, x ∈ d_types db -> DTParent x <> Some (fresh e 0).

(** The requests; an update may clear the parent of a data type, and projects, pipelines and
    presets change as they like. *)
Inductive datatype_step (envVal : string) : DataTypeDB -> DataTypeDB -> Prop :=
| type_create lang err fuel c e req db r db' :
    fresh_for e db -> CreateDataType lang err envVal fuel c e req db = Some (r, db') -> datatype_step envVal db db'
| type_update lang err fuel e id req db r db' :
    named (UD_Parent req) = None -> UpdateDataType lang err envVal fuel e id (Some req) db = Some (r, db') ->
    datatype_step envVal db db'
| type_delete lang e id db : datatype_step envVal db (DeleteDataType lang e id db).2
| prework_execute lang c e dt id db : datatype_step envVal db (ExecutePrework lang c e dt id db).2
| prework_add lang err e dt req db : datatype_step envVal db (AddPrework lang err e dt req db).2
| prework_delete lang e dt id db : datatype_step envVal db (DeletePrework lang e dt id db).2
| other_tables ps pls prs db : datatype_step envVal db (MkDataTypeDB ps (d_types db) (d_preworks db) pls prs).

Definition no_datatypes : DataTypeDB := MkDataTypeDB [] [] [] [] [].

(** ** Every step keeps them *)

Lemma add_preworks_elem e dt i l t t' pw :
  add_preworks e dt i l t = Some t' -> pw ∈ t' -> PWDataType pw = dt \/ pw ∈ t.
Proof.
  revert i t. induction l as [|r l IH]; intros i t; simpl; [by intros [= ->]; right|].
  intros (t1 & Hc & Ha)%bind_Some Hin. destruct (IH _ _ Ha Hin) as [|Hin1]; [by left|].
  rewrite (create_elem _ _ _ _ _ Hc) in Hin1. destruct Hin1 as [->|]; auto.
Qed.

Lemma add_preworks_indexed e dt i l t t' : add_preworks e dt i l t = Some t' -> indexed t -> indexed t'.
Proof.
  revert i t. induction l as [|r l IH]; intros i t; simpl; [congruence|].
  intros (t1 & Hc & Ha)%bind_Some Hi. eapply IH; [done|]. by eapply create_indexed.
Qed.

Lemma depth_self n t dt :
  first (has_id (DTID dt)) t = Some dt -> DTID dt <> "" ->
  getDataTypeDepth (S n) t (DTID dt) =
  match DTParent dt with Some p => Z.succ <$> getDataTypeDepth n t p | None => Some 1%Z end.
Proof. intros Hf Hne. cbn [getDataTypeDepth]. apply String.eqb_neq in Hne as ->. by rewrite Hf. Qed.

(** The checks of [CreateDataType], as what they say of the new row. *)
Definition admissible (maxDepth : Z) (dt : DataType) (t : list DataType) : Prop :=
  forall p, named (DTParent dt) = Some p ->
  (exists q, q ∈ t /\ DTID q = p /\ DTProject q = DTProject dt) /\ exists d, depth_is t p d /\ (d + 1 <= maxDepth)%Z.

Lemma new_depth maxDepth dt t :
  (1 <= maxDepth)%Z -> admissible maxDepth dt t -> DTID dt <> "" -> indexed (insert_row dt t) ->
  (forall x, x ∈ t -> DTParent x <> Some (DTID dt)) -> (forall x, x ∈ t -> DTID x <> DTID dt) ->
  exists d, depth_is (insert_row dt t) (DTID dt) d /\ (d <= maxDepth)%Z.
Proof.
  intros Hmax Ha Hne Hi Hp Hid.
  assert (Hf : first (has_id (DTID dt)) (insert_row dt t) = Some dt).
  { refine (first_by_id (insert_row dt t) dt Hi _ eq_refl). apply elem_insert_row. by left. }
  destruct (DTParent dt) as [p|] eqn:Ep.
  - destruct (decide (p = "")) as [->|Hpe].
    + exists 1%Z. split; [|done]. exists 2. by rewrite (depth_self _ _ _ Hf Hne), Ep.
    + destruct (Ha p) as [(q & Hq & Eq & _) (d & [n Hd] & Hle)].
      { unfold named. rewrite Ep. by apply String.eqb_neq in Hpe as ->. }
      exists (Z.succ d). split; [|lia]. exists (S n). rewrite (depth_self _ _ _ Hf Hne), Ep, depth_insert, Hd; [done|done|].
      intros ->. by apply (Hid q Hq).
  - exists 1%Z. split; [|done]. exists 1. by rewrite (depth_self _ _ _ Hf Hne), Ep.
Qed.

Lemma store_datatype_inv lang err maxDepth e dt pws db :
  datatype_inv maxDepth db -> (1 <= maxDepth)%Z -> admissible maxDepth dt (d_types db) ->
  DTID dt <> "" -> (forall x, x ∈ d_types db -> DTParent x <> Some (DTID dt)) ->
  datatype_inv maxDepth (store_datatype lang err e dt pws db).2.
Proof.
  intros HI Hmax Ha Hne Hp. unfold store_datatype. destruct (create _ _ _) as [t|] eqn:Hc; [|done].
  destruct (add_preworks _ _ _ _ _) as [ps|] eqn:Hpw; [|done]. simpl. apply commit_cases; [done|].
  pose proof (create_spec _ _ _ _ Hc) as [Hnew Et]. assert (Hi : indexed t) by (eapply create_indexed; [done | apply HI]).
  assert (Hel : forall x, x ∈ t <-> x = dt \/ x ∈ d_types db) by (intros x; by eapply create_elem).
  split; simpl; [done| | | |].
  - eapply add_preworks_indexed; [done | apply HI].
  - intros x [->|Hx]%Hel.
    + rewrite Et. apply new_depth; try done; [by rewrite <- Et|]. intros x Hx. by apply Hnew.
    + destruct (di_depth _ _ HI x Hx) as (d & [n Hd] & Hle). exists d. split; [|done]. exists n.
      rewrite Et, depth_insert; [done|done|]. by apply Hnew.
  - intros x p q [->|Hx]%Hel Hn [->|Hq]%Hel E.
    + done.
    + destruct (Ha p Hn) as [(q' & Hq' & E' & <-) _]. f_equal.
      eapply (indexed_inj (d_types db)); [apply HI|done|done|]. cbn. congruence.
    + exfalso. apply (Hp x Hx). unfold named in Hn. destruct (DTParent x) as [y|]; [|done].
      destruct (y =? ""); congruence.
    + by eapply (di_project _ _ HI).
  - intros pw Hin. destruct (add_preworks_elem _ _ _ _ _ _ _ Hpw Hin) as [E|Hold].
    + exists dt. split; [|done]. apply Hel. by left.
    + destruct (di_known _ _ HI pw Hold) as (x & Hx & E). exists x. split; [|done]. apply Hel. by right.
Qed.

Lemma create_datatype_inv lang err envVal fuel c e req db r db' :
  fresh_for e db -> CreateDataType lang err envVal fuel c e req db = Some (r, db') ->
  datatype_inv (getMaxDataTypeDepth envVal) db -> datatype_inv (getMaxDataTypeDepth envVal) db'.
Proof.
  intros [Hne Hfr] Hreq HI. pose proof (max_depth_positive envVal) as Hmax. revert Hreq. unfold CreateDataType.
  destruct req as [req|]; [|by intros [= _ <-]]. destruct (resolve _ _) as [p|]; [|by intros [= _ <-]].
  assert (Hst : admissible (getMaxDataTypeDepth envVal) (new_datatype c e (PID p) req) (d_types db) ->
    Some (store_datatype lang err e (new_datatype c e (PID p) req) (CD_Preworks req) db) = Some (r, db') ->
    datatype_inv (getMaxDataTypeDepth envVal) db').
  { intros Ha [= E]. replace db' with (store_datatype lang err e (new_datatype c e (PID p) req) (CD_Preworks req) db).2 by by rewrite E.
    by apply store_datatype_inv. }
  unfold admissible in Hst. cbn [DTParent new_datatype DTProject] in Hst.
  destruct (named (CD_Parent req)) as [parent|]; [|by apply Hst].
  destruct (first _ _) as [q|] eqn:Hq; [|by intros [= _ <-]].
  destruct (getDataTypeDepth _ _ _) as [d|] eqn:Hd; [|done].
  destruct (Z.ltb_spec (getMaxDataTypeDepth envVal) (d + 1)) as [|Hle]; [by intros [= _ <-]|].
  apply Hst. intros p' [= <-]. apply first_some in Hq as (Hq & _ & [H1%String.eqb_eq H2%String.eqb_eq]%andb_prop).
  split; [by exists q | exists d; split; [by exists fuel | lia]].
Qed.

Lemma update_datatype_inv lang err envVal fuel e id req db r db' :
  named (UD_Parent req) = None -> UpdateDataType lang err envVal fuel e id (Some req) db = Some (r, db') ->
  datatype_inv (getMaxDataTypeDepth envVal) db -> datatype_inv (getMaxDataTypeDepth envVal) db'.
Proof.
  intros Hn Hreq HI. revert Hreq. unfold UpdateDataType. destruct (first _ _) as [dt|] eqn:Hf; [|by intros [= _ <-]].
  rewrite Hn. unfold write_datatype. set (dt' := updated_datatype req dt).
  destruct (save _ _ _) as [t|] eqn:Hs; [|by intros [= _ <-]]. intros [= _ <-].
  apply first_some in Hf as (Hin & _ & Eid%String.eqb_eq).
  assert (Hel : forall x, x ∈ t -> x = dt' \/ x ∈ d_types db /\ DTID x <> DTID dt') by (intros x; exact (save_elem _ _ _ _ _ Hs)).
  assert (Hpre : forall x, x ∈ t -> exists y, y ∈ d_types db /\ DTID y = DTID x /\ DTProject y = DTProject x).
  { intros x [->|[Hx _]]%Hel; [by exists dt | by exists x]. }
  pose proof (save_spec _ _ _ _ Hs) as [_ Et]. split; cbn.
  - eapply save_indexed; [done | apply HI].
  - apply HI.
  - intros x Hx. destruct (Hpre x Hx) as (y & Hy & Ey & _). destruct (di_depth _ _ HI y Hy) as (d & [n Hd] & Hle).
    destruct (depth_root n dt' (d_types db) (DTID y) d) as (d' & Hd' & Hle'); [done| |done|].
    { by eapply (@first_is_some _ datatype_row _ _ dt); [| |apply String.eqb_refl]. }
    exists d'. split; [|lia]. exists (S n). by rewrite Et, <- Ey.
  - intros x p q Hx Hnm Hq Eq. apply Hel in Hx as [->|[Hx _]]; [by unfold dt' in Hnm; cbn in Hnm; rewrite Hn in Hnm|].
    destruct (Hpre q Hq) as (y & Hy & Ey & <-). eapply (di_project _ _ HI); [done|done|done|congruence].
  - intros pw Hpw. destruct (di_known _ _ HI pw Hpw) as (x & Hx & Ex). destruct (decide (DTID x = DTID dt')) as [E|Hne].
    + exists dt'. split; [exact (save_elem_self _ _ _ _ _ Hs Hx E) | congruence].
    + exists x. split; [exact (save_elem_other _ _ _ _ _ Hs Hx Hne) | done].
Qed.

Lemma delete_datatype_inv lang maxDepth e id db : datatype_inv maxDepth db -> datatype_inv maxDepth (DeleteDataType lang e id db).2.
Proof.
  intros HI. unfold DeleteDataType. destruct (0 <? _)%Z; [done|]. destruct (remove _ (of_type id) _) as [pws|] eqn:Hp; [|done].
  destruct (remove _ (has_id id) _) as [t|] eqn:Ht; [|done]. simpl. apply commit_cases; [done|].
  assert (Hel : forall x, x ∈ t <-> x ∈ d_types db /\ has_id id x = false) by (intros x; by eapply remove_elem).
  assert (Et : t = List.filter (fun r => negb (has_id id r)) (d_types db)).
  { unfold remove in Ht. by destruct (writes e 1); [injection Ht|]. }
  split; simpl.
  - eapply remove_indexed; [done | apply HI].
  - eapply remove_indexed; [done | apply HI].
  - intros x [Hx _]%Hel. destruct (di_depth _ _ HI x Hx) as (d & [n Hd] & Hle).
    destruct (depth_remove n id _ _ _ Hd) as (d' & Hd' & Hle'). exists d'. split; [|lia]. exists n. by rewrite Et.
  - intros x p q [Hx _]%Hel Hn [Hq _]%Hel. by eapply (di_project _ _ HI).
  - intros pw Hpw. rewrite (remove_elem _ _ _ _ _ Hp) in Hpw. destruct Hpw as [Hpw Hno].
    destruct (di_known _ _ HI pw Hpw) as (x & Hx & E). exists x. split; [|done]. apply Hel. split; [done|].
    unfold of_type in Hno. by rewrite <- E in Hno.
Qed.

(** The requests about preworks keep the data types and what the preworks belong to. *)
Lemma preworks_inv maxDepth db t :
  datatype_inv maxDepth db -> indexed t ->
  (forall pw, pw ∈ t -> exists pw', PWDataType pw = PWDataType pw' /\ (pw' ∈ d_preworks db \/ exists dt, dt ∈ d_types db /\ DTID dt = PWDataType pw')) ->
  datatype_inv maxDepth (set_preworks t db).
Proof.
  intros HI Hi Hk. split; simpl; try apply HI; [done|]. intros pw (pw' & -> & [Hold|Hnew])%Hk; [|done]. by apply HI.
Qed.

Lemma save_preworks_known ok p t t' :
  save ok p t = Some t' -> (exists q, q ∈ t /\ PWDataType q = PWDataType p) ->
  forall pw, pw ∈ t' -> exists pw', PWDataType pw = PWDataType pw' /\ pw' ∈ t.
Proof. intros Hs (q & Hq & E) pw [->|[Hpw _]]%(save_elem _ _ _ _ _ Hs); eauto. Qed.

Lemma execute_prework_inv lang c maxDepth e dt id db :
  datatype_inv maxDepth db -> datatype_inv maxDepth (ExecutePrework lang c e dt id db).2.
Proof.
  intros HI. unfold ExecutePrework. destruct (first _ _) as [p|] eqn:Hf; [|done]. cbn [snd].
  apply first_some in Hf as (Hp & _ & _).
  set (t1 := default _ (save (writes e 0) _ _)).
  assert (H1 : indexed t1 /\ forall pw, pw ∈ t1 -> exists pw', PWDataType pw = PWDataType pw' /\ pw' ∈ d_preworks db).
  { unfold t1. destruct (save _ _ (d_preworks db)) as [t|] eqn:Hs; simpl; [|split; [apply HI | eauto]].
    split; [eapply save_indexed; [done | apply HI]|]. eapply save_preworks_known; [done|]. by exists p. }
  destruct H1 as [Hi1 Hk1]. destruct (save _ _ t1) as [t2|] eqn:Hs; simpl.
  - apply preworks_inv; [done | by eapply save_indexed|]. intros pw [->|[Hpw _]]%(save_elem _ _ _ _ _ Hs).
    + exists p. split; [done | by left].
    + destruct (Hk1 pw Hpw) as (pw' & E & Hin). exists pw'. auto.
  - apply preworks_inv; [done|done|]. intros pw Hpw. destruct (Hk1 pw Hpw) as (pw' & E & Hin). exists pw'. auto.
Qed.

Lemma add_prework_inv lang err maxDepth e dt req db :
  datatype_inv maxDepth db -> datatype_inv maxDepth (AddPrework lang err e dt req db).2.
Proof.
  intros HI. unfold AddPrework. destruct (first _ _) as [d|] eqn:Hf; [|done]. destruct req as [req|]; [|done].
  destruct (create _ _ _) as [t|] eqn:Hc; [|done]. cbn [snd]. apply first_some in Hf as (Hd & _ & E%String.eqb_eq).
  apply preworks_inv; [done | eapply create_indexed; [done | apply HI]|].
  intros pw [->|Hpw]%(create_elem _ _ _ _ _ Hc); [|eauto]. eexists. split; [done|]. right. by exists d.
Qed.

Lemma delete_prework_inv lang maxDepth e dt id db :
  datatype_inv maxDepth db -> datatype_inv maxDepth (DeletePrework lang e dt id db).2.
Proof.
  intros HI. unfold DeletePrework. destruct (remove _ _ _) as [t|] eqn:Hr; [|done].
  apply preworks_inv; [done | eapply remove_indexed; [done | apply HI]|].
  intros pw [Hpw _]%(remove_elem _ _ _ _ _ Hr). eauto.
Qed.

Lemma datatype_step_inv envVal db db' :
  datatype_step envVal db db' -> datatype_inv (getMaxDataTypeDepth envVal) db -> datatype_inv (getMaxDataTypeDepth envVal) db'.
Proof.
  intros [] HI.
  - by eapply create_datatype_inv.
  - by eapply update_datatype_inv.
  - by apply delete_datatype_inv.
  - by apply execute_prework_inv.
  - by apply add_prework_inv.
  - by apply delete_prework_inv.
  - split; apply HI.
Qed.

Lemma no_datatypes_inv maxDepth : datatype_inv maxDepth no_datatypes.
Proof. split; simpl; try apply indexed_nil; intros *; by intros ?%not_elem_of_nil. Qed.

(** ** What the handlers promise *)

(** C21: As long as no update names a parent, the hierarchy stays a forest no deeper than the
    limit: creating a data type always returns, after at most as many rounds as the limit
    has levels and one more, parents and children are of one project, and no prework is
    left without its data type. *)
Theorem datatype_hierarchy_is_bounded envVal db :
  rtc (datatype_step envVal) no_datatypes db ->
  datatype_inv (getMaxDataTypeDepth envVal) db /\
  forall lang err c e req,
    is_Some (CreateDataType lang err envVal (S (Z.to_nat (getMaxDataTypeDepth envVal))) c e req db).
Proof.
  intros Hr. assert (HI : datatype_inv (getMaxDataTypeDepth envVal) db).
  { pose proof (no_datatypes_inv (getMaxDataTypeDepth envVal)) as HI. induction Hr as [|x y z Hs _ IH]; [done|].
    apply IH. by eapply datatype_step_inv. }
  split; [done|]. intros lang err c e req. unfold CreateDataType. destruct req as [req|]; [|done].
  destruct (resolve _ _) as [p|]; [|done]. destruct (named _) as [parent|]; [|done].
  destruct (first _ _) as [q|] eqn:Hq; [|done].
  apply first_some in Hq as (Hq & _ & [Eq%String.eqb_eq _]%andb_prop).
  destruct (di_depth _ _ HI q Hq) as (d & [n Hd] & Hle). replace (DTID q) with parent in Hd by done.
  rewrite (depth_fuel n _ _ _ _ Hd) by lia. destruct (_ <? _)%Z; done.
Qed.

Definition board : CreateDataTypeRequest := MkCreateDataType "shop" None "board" "Board" "" "" None [] None None [].
Definition post (parent : string) : CreateDataTypeRequest :=
  MkCreateDataType "p1" (Some parent) "post" "Post" "" "" None [] None None
    [MkPreworkRequest "index" "" "sql" "data_type" 0 ∅].
Definition type_env (id : string) : Env := MkEnv (fun _ => true) true (fun n => if (n =? 0)%nat then id else "w1") 0.
Definition shop_projects : DataTypeDB := MkDataTypeDB (p_rows shop_db) [] [] [] [].

(** The tables after a request that returned. *)
Definition after {R} (o : option (R * DataTypeDB)) (db : DataTypeDB) : DataTypeDB :=
  match o with Some (_, db') => db' | None => db end.

Definition board_db : DataTypeDB := after (CreateDataType "en" "" "" 11 alice (type_env "t1") (Some board) shop_projects) shop_projects.
Definition post_db : DataTypeDB := after (CreateDataType "en" "" "" 11 alice (type_env "t2") (Some (post "t1")) board_db) board_db.

Lemma datatype_hierarchy_is_bounded_witness :
  getDataTypeDepth 11 (d_types post_db) "t2" = Some 2%Z /\ datatype_inv (getMaxDataTypeDepth "") post_db.
Proof.
  split; [reflexivity|]. apply datatype_hierarchy_is_bounded.
  apply (rtc_l _ _ shop_projects); [apply (other_tables "" (p_rows shop_db) [] [] no_datatypes)|].
  apply (rtc_l _ _ board_db).
  - eapply (type_create "" "en" "" 11 alice (type_env "t1") (Some board) shop_projects); [|reflexivity].
    split; [done|]. by intros x ?%not_elem_of_nil.
  - apply rtc_once. eapply (type_create "" "en" "" 11 alice (type_env "t2") (Some (post "t1")) board_db); [|reflexivity].
    split; [done|]. intros x Hx. replace (d_types board_db) with [new_datatype alice (type_env "t1") "p1" board] in Hx by reflexivity.
    apply list_elem_of_singleton in Hx as ->. done.
Defined.

(** A climb that meets its own row does not end. *)
Lemma own_parent_climbs t id dt :
  id <> "" -> first (has_id id) t = Some dt -> DTParent dt = Some id -> forall fuel, getDataTypeDepth fuel t id = None.
Proof.
  intros Hne Hf Hp fuel. induction fuel as [|n IH]; [done|]. cbn [getDataTypeDepth].
  apply String.eqb_neq in Hne as ->. by rewrite Hf, Hp, IH.
Qed.

Definition only_parent (p : string) : UpdateDataTypeRequest := MkUpdateDataType (Some p) "" "" "" "" None [] None None.

(** An update checks the depth of the new parent and nothing else: a data type below the
    limit can be made its own parent, and from then on every request that creates a data
    type under it, or moves one there, climbs for ever. *)
Theorem update_can_close_a_cycle lang err envVal fuel e id dt d db :
  indexed (d_types db) -> first (has_id id) (d_types db) = Some dt -> id <> "" ->
  getDataTypeDepth fuel (d_types db) id = Some d -> (d < getMaxDataTypeDepth envVal)%Z -> writes e 0 = true ->
  exists r db', UpdateDataType lang err envVal fuel e id (Some (only_parent id)) db = Some (r, db') /\ succeeds r = true /\
  forall fuel' c e' req,
    (CD_Parent req = Some id -> (exists p, resolve (CD_Project req) (d_projects db) = Some p /\ PID p = DTProject dt) ->
     CreateDataType lang err envVal fuel' c e' (Some req) db' = None) /\
    (forall x, is_Some (first (has_id x) (d_types db')) ->
     UpdateDataType lang err envVal fuel' e' x (Some (only_parent id)) db' = None).
Proof.
  intros Hi Hf Hne Hd Hlt Hw. assert (Hid : named (Some id) = Some id).
  { simpl. by apply String.eqb_neq in Hne as ->. }
  set (dt' := updated_datatype (only_parent id) dt).
  pose proof Hf as (Hin & _ & Eid%String.eqb_eq)%first_some. cbn in Eid.
  assert (Hsv : save (writes e 0) dt' (d_types db) = Some (replace_row dt' <$> d_types db)).
  { unfold save. rewrite Hw. cbn [andb]. assert (replaceable dt' (d_types db) = true) as ->; [|done].
    apply replaceable_spec. intros x Hx Hn. by apply (proj2 Hi x dt). }
  exists (Success 200 (preloaded dt' (set_types (replace_row dt' <$> d_types db) db))), (set_types (replace_row dt' <$> d_types db) db).
  assert (Hf' : first (has_id id) (replace_row dt' <$> d_types db) = Some dt').
  { rewrite <- Eid in Hf |- *. exact (@first_replace_self _ datatype_row dt' _ dt eq_refl Hf). }
  pose proof (own_parent_climbs _ id dt' Hne Hf' eq_refl) as Hloop.
  split; [|split; [done|intros fuel' c e' req; split]].
  - unfold UpdateDataType. rewrite Hf. cbn [UD_Parent only_parent]. rewrite Hid, Hd.
    destruct (Z.ltb_spec (getMaxDataTypeDepth envVal) (d + 1)); [lia|]. unfold write_datatype. fold dt'. by rewrite Hsv.
  - intros Hp (p & Hr & Epr). unfold CreateDataType. cbn [set_types d_projects d_types]. rewrite Hr, Hp, Hid.
    destruct (first (fun d => has_id id d && (DTProject d =? PID p)) (replace_row dt' <$> d_types db)) as [q|] eqn:Hq; [by rewrite Hloop|].
    pose proof (first_some _ _ _ Hf') as (Hin' & _ & Eid'). pose proof (first_none _ _ _ Hq Hin' eq_refl) as Hno.
    cbn beta in Hno. rewrite Eid', Epr in Hno. cbn in Hno. by rewrite String.eqb_refl in Hno.
  - intros x [y Hx]. unfold UpdateDataType. cbn [set_types d_types] in *. rewrite Hx. cbn [UD_Parent only_parent].
    by rewrite Hid, Hloop.
Qed.

Lemma update_can_close_a_cycle_witness :
  exists db', snd <$> UpdateDataType "en" "" "" 11 (type_env "") "t1" (Some (only_parent "t1")) board_db = Some db' /\
  forall fuel', CreateDataType "en" "" "" fuel' alice (type_env "t2") (Some (post "t1")) db' = None.
Proof.
  assert (Hi : indexed (d_types board_db)).
  { apply (create_indexed true (new_datatype alice (type_env "t1") "p1" board) []); [reflexivity | apply indexed_nil]. }
  destruct (update_can_close_a_cycle "en" "" "" 11 (type_env "") "t1" (new_datatype alice (type_env "t1") "p1" board) 1 board_db
    Hi eq_refl ltac:(done) eq_refl ltac:(done) eq_refl) as (r & db' & Hu & _ & Hall).
  exists db'. split; [by rewrite Hu|]. intros fuel'. apply Hall; [done|]. by eexists.
Defined.

(** An update that does not mention the parent takes the data type out of the hierarchy. *)
Theorem update_detaches lang err envVal fuel e id req dt db r db' :
  first (has_id id) (d_types db) = Some dt -> UD_Parent req = None ->
  UpdateDataType lang err envVal fuel e id (Some req) db = Some (r, db') -> succeeds r = true ->
  exists dt', first (has_id id) (d_types db') = Some dt' /\ DTParent dt' = None.
Proof.
  intros Hf Hp. pose proof Hf as (_ & _ & Eid%String.eqb_eq)%first_some. cbn in Eid.
  unfold UpdateDataType. rewrite Hf, Hp. cbn [named]. unfold write_datatype. set (dt' := updated_datatype req dt).
  destruct (save _ _ _) as [t|] eqn:Hs; [|by intros [= <- _]]. apply save_spec in Hs as [_ ->].
  intros [= _ <-] _. exists dt'. split; [|done]. cbn [set_types d_types].
  rewrite <- Eid in Hf |- *. exact (@first_replace_self _ datatype_row dt' _ dt eq_refl Hf).
Qed.

(** Moving a data type does not look at what is under it: with a limit of three levels, a
    root with two levels under it can be moved to the second level of another tree. *)
Example moving_a_subtree_exceeds_the_limit :
  let row id parent := MkDataType id "p1" parent id id "" "" None [] None None "" in
  let db := MkDataTypeDB [] [row "a" None; row "b" (Some "a"); row "c" (Some "b"); row "x" None; row "y" (Some "x")] [] [] [] in
  getMaxDataTypeDepth "3" = 3%Z /\
  exists r db', UpdateDataType "en" "" "3" 9 (type_env "") "a" (Some (only_parent "y")) db = Some (r, db') /\
    succeeds r = true /\ getDataTypeDepth 9 (d_types db') "c" = Some 5%Z.
Proof. split; [reflexivity|]. eexists _, _. repeat split; reflexivity. Qed.

(** A data type is created with all its preworks or not at all. *)
Theorem create_datatype_is_atomic lang err envVal fuel c e req db r db' :
  CreateDataType lang err envVal fuel c e req db = Some (r, db') -> succeeds r = false -> db' = db.
Proof.
  unfold CreateDataType, store_datatype, depth_exceeded, errorResponse. intros Hreq Hs.
  repeat (case_match; simplify_eq/=; try done).
Qed.

(** Deleting a data type takes its preworks with it and leaves the rows that name it as
    their parent, which from then on count as roots. *)
Theorem delete_datatype_spec lang e id db :
  commits e = true -> succeeds (DeleteDataType lang e id db).1 = true ->
  let db' := (DeleteDataType lang e id db).2 in
  (forall p, p ∈ d_pipelines db -> PLDeleted p = false -> DataTypeID p <> id) /\
  first (has_id id) (d_types db') = None /\ (forall pw, pw ∈ d_preworks db' -> PWDataType pw <> id) /\
  forall x, x ∈ d_types db -> DTID x <> id -> DTParent x = Some id -> DTID x <> "" -> indexed (d_types db) ->
    x ∈ d_types db' /\ getDataTypeDepth 2 (d_types db') (DTID x) = Some 1%Z.
Proof.
  intros Hc. unfold DeleteDataType. destruct (Z.ltb_spec 0 (count (uses id) (d_pipelines db))) as [|Hcount]; [done|].
  destruct (remove _ (of_type id) _) as [pws|] eqn:Hp; [|done]. destruct (remove _ (has_id id) _) as [t|] eqn:Ht; [|done].
  intros _. cbn [snd]. unfold commit. rewrite Hc. cbn [set_preworks set_types d_types d_preworks].
  assert (Et : t = List.filter (fun r => negb (has_id id r)) (d_types db)).
  { unfold remove in Ht. by destruct (writes e 1); [injection Ht|]. }
  assert (Hnone : first (has_id id) t = None) by (rewrite Et; apply first_filter_none). repeat split.
  - intros p Hin Hl. assert (Hz : count (uses id) (d_pipelines db) = 0%Z) by (unfold count in *; lia).
    apply String.eqb_neq. apply (proj1 (count_zero _ _) Hz p Hin). cbn. by rewrite Hl.
  - done.
  - intros pw [_ Hpw]%(remove_elem _ _ _ _ _ Hp). by apply String.eqb_neq.
  - rewrite (remove_elem _ _ _ _ _ Ht). split; [done|]. by apply String.eqb_neq.
  - assert (Hx : first (has_id (DTID x)) t = Some x).
    { apply (@first_by_id _ datatype_row); [by eapply remove_indexed | | done].
      rewrite (remove_elem _ _ _ _ _ Ht). split; [done|]. by apply String.eqb_neq. }
    rewrite (depth_self _ _ _ Hx) by done. rewrite H1. cbn [getDataTypeDepth]. rewrite Hnone. by destruct (id =? "").
Qed.

Lemma init_presets_Permutation e i l t :
  (forall n, writes e n = true) -> NoDup (map PresetID l) ->
  (forall x, x ∈ t -> DPName x = DPID x /\ DPID x ∉ map PresetID l) ->
  initDefaultPresets e i l t ≡ₚ t ++ map preset_of l.
Proof.
  intros Hw. revert i t. induction l as [|p l IH]; intros i t; simpl; [by rewrite app_nil_r|].
  intros [Hp Hnd]%NoDup_cons Ht.
  assert (Hno : forall x, x ∈ t -> DPID x <> PresetID p).
  { intros x [_ Hx]%Ht E. apply Hx. rewrite E. left. }
  assert (first (has_id (PresetID p)) t = None) as ->.
  { destruct (first _ _) as [x|] eqn:E; [|done]. apply first_some in E as (Hx & _ & E%String.eqb_eq). by apply Hno in Hx. }
  unfold create. rewrite Hw. assert (insertable (preset_of p) t = true) as ->.
  { apply insertable_spec. intros x Hx. split; [by apply Hno|]. apply String.eqb_neq. destruct (Ht x Hx) as [-> _]. by apply Hno. }
  cbn [andb default from_option]. rewrite IH; [|done|].
  - rewrite insert_row_Permutation. by rewrite <- Permutation_middle.
  - intros x [->|Hx]%elem_insert_row; [by split|]. destruct (Ht x Hx) as [E Hn]. split; [done|]. set_solver.
Qed.

(** The first listing of an empty table stores the six presets and lists them; later
    listings change nothing. *)
Theorem presets_are_stored_once `{SqlLaws} e e' db :
  (forall n, writes e n = true) -> d_presets db = [] ->
  let '(r, db1) := ListDeleteStrategyPresets e db in
  r = Success 200 (d_presets db1) /\ d_presets db1 ≡ₚ preset_of <$> DefaultDeleteStrategyPresets /\
  List.length (List.filter DPDefault (d_presets db1)) = 1 /\ (ListDeleteStrategyPresets e' db1).2 = db1.
Proof.
  intros Hw Hnil. unfold ListDeleteStrategyPresets. pose proof (order_by_Permutation preset_order (d_presets db)) as HP.
  rewrite Hnil in *. apply Permutation_nil_r in HP. rewrite HP.
  assert (Ht : initDefaultPresets e 0 DefaultDeleteStrategyPresets [] ≡ₚ preset_of <$> DefaultDeleteStrategyPresets).
  { apply init_presets_Permutation; [done | by apply (bool_decide_unpack (NoDup (map PresetID DefaultDeleteStrategyPresets))); vm_compute | by intros x ?%not_elem_of_nil]. }
  revert Ht. generalize (initDefaultPresets e 0 DefaultDeleteStrategyPresets []). intros t Ht.
  repeat split; [done | by rewrite (Permutation_length (filter_Permutation _ _ _ Ht)) |]. cbn [snd d_presets set_presets].
  pose proof (order_by_Permutation preset_order t) as HP2. destruct (order_by preset_order t); [|done].
  rewrite <- HP2 in Ht. by apply Permutation_length in Ht.
Qed.
