(* ===== verification/ScheduleApi.v ===== *)
(** * The schedule API (handlers/schedule_handler.go)

    The handlers that read, change, enable, disable and trigger the schedule of a workflow,
    on top of [Scheduler]. The rows are those of the scheduler service; the columns only the
    handlers look at are kept beside them. [valid_zone] is [time.LoadLocation], which asks
    the time zone database. A refused write is an argument. *)

From Stdlib Require Import String.
From S2P Require Import Prelude GoString GoValue GoTime Api WorkflowApi Auth Scheduler Table.
Local Open Scope string_scope.
Local Open Scope list_scope.

Record Columns := MkColumns { WProject : string; ScheduleInterval : string; ScheduleTimezone : string }.

Record UpdateScheduleRequest := MkScheduleRequest {
  SR_Type : string;
  SR_Cron : string;
  SR_Interval : string;
  SR_Timezone : string;
  SR_Enabled : option bool
}.

Record ScheduleResponse := MkScheduleResponse {
  RWorkflowID : string;
  RWorkflowName : string;
  RType : string;
  RCron : string;
  RInterval : string;
  RTimezone : string;
  REnabled : bool;
  RLastRunAt : option Z;
  RNextRunAt : option Z;
  RStatus : string
}.

Definition schedule_response (workflowID : string) (w : Workflow) (c : Columns) : ScheduleResponse :=
  MkScheduleResponse workflowID (WName w) (ScheduleType w) (ScheduleCron w) (ScheduleInterval c)
    (if ScheduleTimezone c =? "" then "UTC" else ScheduleTimezone c) (ScheduleEnabled w) (LastRunAt w) (NextRunAt w) (WStatus w).

Definition no_columns : Columns := MkColumns "" "" "".

(** [if req.F != "" { updates[f] = req.F }] *)
Definition or_else (new old : string) : string := if new =? "" then old else new.

Definition updated_schedule (req : UpdateScheduleRequest) (w : Workflow) : Workflow :=
  MkWorkflow (WName w) (WType w) (ExecutionMode w) (WStatus w) (default (ScheduleEnabled w) (SR_Enabled req))
    (or_else (SR_Type req) (ScheduleType w)) (or_else (SR_Cron req) (ScheduleCron w)) (PipelinesConfig w) (LastRunAt w) (NextRunAt w).
Definition updated_columns (req : UpdateScheduleRequest) (c : Columns) : Columns :=
  MkColumns (WProject c) (or_else (SR_Interval req) (ScheduleInterval c)) (or_else (SR_Timezone req) (ScheduleTimezone c)).
Definition with_enabled (b : bool) (w : Workflow) : Workflow :=
  MkWorkflow (WName w) (WType w) (ExecutionMode w) (WStatus w) b (ScheduleType w) (ScheduleCron w) (PipelinesConfig w)
    (LastRunAt w) (NextRunAt w).

Definition workflow_not_found {A} : Reply A := Failure 404 ErrCodeNotFound "Workflow not found".
Definition only_batch {A} : Reply A := Failure 400 ErrCodeValidationFailed "Only batch workflows support scheduling".

Section Handlers.
Context {L : CronLib} (pipelines_ok : string -> bool) (valid_zone : string -> bool).
(** The order in which the database returns rows. *)
Context (select : gmap string Workflow -> list (string * Workflow)).

(** [attached] tells whether the handler has a scheduler service. *)
Record ScheduleState := MkState { service : SchedulerService L; attached : bool; columns : gmap string Columns }.

Definition set_service (s : SchedulerService L) (st : ScheduleState) : ScheduleState := MkState s (attached st) (columns st).
Definition columns_of (workflowID : string) (st : ScheduleState) : Columns := default no_columns (columns st !! workflowID).
Definition store_row (workflowID : string) (w : Workflow) (s : SchedulerService L) : SchedulerService L :=
  set_workflows (<[workflowID := w]> (workflows s)) s.

Definition GetSchedule (workflowID : string) (st : ScheduleState) : Reply ScheduleResponse :=
  match workflows (service st) !! workflowID with
  | None => workflow_not_found
  | Some w =>
      if negb (WType w =? "batch") then only_batch
      else Success 200 (schedule_response workflowID w (columns_of workflowID st))
  end.

(** The second part of the reply is the header with the warning of the scheduler. *)
Definition UpdateSchedule (saved : bool) (workflowID : string) (req : option UpdateScheduleRequest) (st : ScheduleState)
  : Reply (ScheduleResponse * option string) * ScheduleState :=
  match req with
  | None => (Failure 400 ErrCodeInvalidJSON "", st)
  | Some req =>
      match workflows (service st) !! workflowID with
      | None => (workflow_not_found, st)
      | Some w =>
          if negb (WType w =? "batch") then (only_batch, st)
          else if negb (SR_Timezone req =? "") && negb (valid_zone (SR_Timezone req))
          then (Failure 400 ErrCodeValidationFailed "Invalid timezone", st)
          else if negb saved then (Failure 500 ErrCodeDatabaseError "Failed to update schedule", st)
          else
            let w := updated_schedule req w in
            let c := updated_columns req (columns_of workflowID st) in
            let s := store_row workflowID w (service st) in
            let '(r, s) := if attached st then Scheduler.UpdateSchedule workflowID w s else (Ok tt, s) in
            let warning := match r with Err e => Some e | _ => None end in
            (Success 200 (schedule_response workflowID w c, warning),
             MkState s (attached st) (<[workflowID := c]> (columns st)))
      end
  end.

(** The write of the row is not checked. *)
Definition EnableSchedule (saved : bool) (workflowID : string) (st : ScheduleState) : Reply bool * ScheduleState :=
  match workflows (service st) !! workflowID with
  | None => (workflow_not_found, st)
  | Some w =>
      if negb (WType w =? "batch") then (only_batch, st)
      else if ScheduleCron w =? "" then (Failure 400 ErrCodeValidationFailed "No cron expression configured", st)
      else
        let w' := with_enabled true w in
        let s := if saved then store_row workflowID w' (service st) else service st in
        let s := if attached st then (AddSchedule workflowID w' s).2 else s in
        (Success 200 true, set_service s st)
  end.

Definition DisableSchedule (saved : bool) (workflowID : string) (st : ScheduleState) : Reply bool * ScheduleState :=
  match workflows (service st) !! workflowID with
  | None => (workflow_not_found, st)
  | Some w =>
      let s := if saved then store_row workflowID (with_enabled false w) (service st) else service st in
      let s := if attached st then RemoveSchedule workflowID s else s in
      (Success 200 false, set_service s st)
  end.

Definition TriggerNow (c : Ctx) (healthy : bool) (workflowID uuid : string) (now : Z) (st : ScheduleState)
  : Reply string * ScheduleState :=
  match user_id_string (ctx_user c) with
  | None => (HandlerPanic, st)
  | Some userID =>
      if negb (attached st) then (Failure 503 ErrCodeExternalService "Scheduler service is not available", st)
      else
        match Scheduler.TriggerNow pipelines_ok healthy workflowID userID uuid now (service st) with
        | (Ok _, s) => (Success 200 uuid, set_service s st)
        | (Err e, s) => (Failure 400 ErrCodeBadRequest e, set_service s st)
        | (Panic, s) => (HandlerPanic, set_service s st)
        end
  end.

Definition ListSchedules (enabled project : string) (st : ScheduleState) : Reply (list ScheduleResponse) :=
  let wanted '(id, w) :=
    (WType w =? "batch") && (negb (enabled =? "true") || ScheduleEnabled w) &&
    ((project =? "") || (WProject (columns_of id st) =? project)) in
  Success 200 ((fun '(id, w) => schedule_response id w (columns_of id st)) <$> List.filter wanted (select (workflows (service st)))).
End Handlers.
Arguments ScheduleState L : clear implicits.

(** ** Jobs and rows *)

Section Proofs.
Context {L : CronLib} (pipelines_ok valid_zone : string -> bool).
Context (select : gmap string Workflow -> list (string * Workflow)).
Hypothesis select_rows : forall ws id w, (id, w) ∈ select ws -> ws !! id = Some w.
Implicit Types (s : SchedulerService L) (st : ScheduleState L).

Definition schedulable (w : Workflow) : bool := ScheduleEnabled w && negb (ScheduleCron w =? "").

(** A workflow has a job only if its row has an enabled schedule. *)
Definition jobs_are_enabled s : Prop :=
  forall id n, jobs s !! id = Some n -> exists w, workflows s !! id = Some w /\ schedulable w = true.

(** A change of the rows that keeps the schedules. *)
Definition rows_keep s s' : Prop :=
  forall id w, workflows s !! id = Some w -> exists w', workflows s' !! id = Some w' /\ (schedulable w = true -> schedulable w' = true).

Lemma rows_keep_refl s : rows_keep s s.
Proof. intros id w Hw. eauto. Qed.

Lemma enabled_transfer s s' :
  (forall id n, jobs s' !! id = Some n -> exists n', jobs s !! id = Some n') -> rows_keep s s' ->
  jobs_are_enabled s -> jobs_are_enabled s'.
Proof. intros Hj Hr HI id n [n' Hn]%Hj. destruct (HI id n' Hn) as (w & Hw & Hs). destruct (Hr id w Hw) as (w' & ? & ?). eauto. Qed.

Lemma alter_keeps f id s :
  (forall w, schedulable (f w) = schedulable w) -> rows_keep s (set_workflows (alter f id (workflows s)) s).
Proof.
  intros Hf id' w Hw. cbn. destruct (decide (id = id')) as [<-|Hn].
  - exists (f w). rewrite lookup_alter_eq, Hw. by rewrite Hf.
  - exists w. by rewrite lookup_alter_ne.
Qed.

Lemma remove_jobs id s : jobs (RemoveSchedule id s) = delete id (jobs s).
Proof.
  unfold RemoveSchedule. destruct (jobs s !! id) eqn:E; [done|]. by rewrite delete_id.
Qed.
Lemma remove_rows id s : workflows (RemoveSchedule id s) = workflows s.
Proof. unfold RemoveSchedule. by destruct (jobs s !! id). Qed.

Lemma remove_enabled id s : jobs_are_enabled s -> jobs_are_enabled (RemoveSchedule id s).
Proof.
  apply enabled_transfer.
  - intros id' n. rewrite remove_jobs. intros [_ ?]%lookup_delete_Some. eauto.
  - unfold rows_keep. rewrite remove_rows. eauto.
Qed.

(** Registering a schedule, when the row says the same. *)
Lemma add_enabled id w s :
  (schedulable w = true -> exists w', workflows s !! id = Some w' /\ schedulable w' = true) ->
  jobs_are_enabled (RemoveSchedule id s) -> jobs_are_enabled (addScheduleInternal id w s).2.
Proof.
  intros Hw HI. unfold addScheduleInternal. destruct (_ || _) eqn:E; [done|]. apply orb_false_iff in E as [E1 E2].
  destruct (cron_AddJob _ _ _) as [[n c]|]; [|done]. cbn [snd].
  assert (Hs : schedulable w = true) by (unfold schedulable; rewrite E2; by apply negb_false_iff in E1 as ->).
  destruct (Hw Hs) as (w' & Hw' & Hsw').
  intros id' m Hm. cbn in Hm. apply lookup_insert_Some in Hm as [[<- _]|[Hne Hm]].
  - exists (set_next (cron_Next n c) w'). cbn. rewrite lookup_alter_eq, remove_rows, Hw'. done.
  - destruct (HI id' m) as (x & Hx & Hsx); [done|]. exists x. cbn. by rewrite lookup_alter_ne.
Qed.

Lemma store_row_enabled id w s :
  schedulable w = true \/ jobs s !! id = None -> jobs_are_enabled s -> jobs_are_enabled (store_row id w s).
Proof.
  intros Hw HI id' n Hn. cbn in *. destruct (decide (id = id')) as [<-|Hne].
  - rewrite lookup_insert_eq. exists w. split; [done|]. destruct Hw as [|Hw]; [done|congruence].
  - rewrite lookup_insert_ne by done. by eapply HI.
Qed.

Lemma remove_store id w s : RemoveSchedule id (store_row id w s) = store_row id w (RemoveSchedule id s).
Proof. unfold RemoveSchedule, store_row. cbn. by destruct (jobs s !! id). Qed.

Lemma removed_store_enabled id w s : jobs_are_enabled s -> jobs_are_enabled (RemoveSchedule id (store_row id w s)).
Proof.
  intros HI. rewrite remove_store. apply store_row_enabled; [|by apply remove_enabled].
  right. by rewrite remove_jobs, lookup_delete_eq.
Qed.

Lemma store_add_enabled id w s : jobs_are_enabled s -> jobs_are_enabled (addScheduleInternal id w (store_row id w s)).2.
Proof.
  intros HI. apply add_enabled; [|by apply removed_store_enabled].
  intros Hs. exists w. cbn. by rewrite lookup_insert_eq.
Qed.

(** The requests and the events of the scheduler while every write is stored. *)
Inductive schedule_step : ScheduleState L -> ScheduleState L -> Prop :=
| on_update id req st : schedule_step st (UpdateSchedule valid_zone true id req st).2
| on_enable id st : schedule_step st (EnableSchedule true id st).2
| on_disable id st : schedule_step st (DisableSchedule true id st).2
| on_trigger c h id uuid now st : schedule_step st (TriggerNow pipelines_ok c h id uuid now st).2
| on_start st : schedule_step st (set_service (Start select (service st)) st)
| on_stop st : schedule_step st (set_service (Stop (service st)) st)
| on_fire h id uuid now st : schedule_step st (set_service (Run pipelines_ok h id uuid now (service st)) st)
| on_create id w st : jobs (service st) !! id = None ->
    schedule_step st (set_service (store_row id w (service st)) st).

Lemma publish_same_jobs h wid w uuid t u s :
  jobs (publishWorkflowExecution pipelines_ok h wid w uuid t u s) = jobs s /\
  workflows (publishWorkflowExecution pipelines_ok h wid w uuid t u s) = workflows s.
Proof. unfold publishWorkflowExecution. by destruct (_ && _). Qed.

Lemma same_enabled s s' : jobs s' = jobs s -> workflows s' = workflows s -> jobs_are_enabled s -> jobs_are_enabled s'.
Proof. unfold jobs_are_enabled. by intros -> ->. Qed.

Lemma create_enabled uuid wid now t u s s' :
  create_execution uuid wid now t u s = Some s' -> jobs_are_enabled s -> jobs_are_enabled s'.
Proof.
  unfold create_execution. destruct (executions s !! uuid); [done|]. intros [= <-]. apply enabled_transfer; [eauto|].
  by apply (alter_keeps (set_status "running" (Some now)) wid s).
Qed.

Lemma publish_enabled h wid w uuid t u s :
  jobs_are_enabled s -> jobs_are_enabled (publishWorkflowExecution pipelines_ok h wid w uuid t u s).
Proof. destruct (publish_same_jobs h wid w uuid t u s). by apply same_enabled. Qed.

Lemma trigger_enabled h wid uid uuid now s :
  jobs_are_enabled s -> jobs_are_enabled (Scheduler.TriggerNow pipelines_ok h wid uid uuid now s).2.
Proof.
  intros HI. unfold Scheduler.TriggerNow, trigger_commit. destruct (trigger_check wid s) as [w|e|]; try done.
  destruct (create_execution _ _ _ _ _ _) as [s'|] eqn:E; [|done]. apply publish_enabled. by eapply create_enabled.
Qed.

Lemma run_enabled h wid uuid now s : jobs_are_enabled s -> jobs_are_enabled (Run pipelines_ok h wid uuid now s).
Proof.
  intros HI. unfold Run, job_commit. destruct (workflows s !! wid) as [w|]; [|done].
  destruct (negb _); [by apply remove_enabled|]. destruct (_ =? _); [done|].
  destruct (create_execution _ _ _ _ _ _) as [s'|] eqn:E; [|done]. apply publish_enabled.
  apply create_enabled in E; [|done]. destruct (jobs s' !! wid); [|done].
  revert E. apply enabled_transfer; [eauto|]. by apply alter_keeps.
Qed.

Lemma add_rows id w s x w0 :
  workflows s !! x = Some w0 ->
  exists w1, workflows (addScheduleInternal id w s).2 !! x = Some w1 /\ schedulable w1 = schedulable w0.
Proof.
  intros Hx. unfold addScheduleInternal. destruct (_ || _); [|destruct (cron_AddJob _ _ _) as [[n c]|]]; cbn;
    rewrite ?remove_rows; eauto.
  destruct (decide (id = x)) as [<-|Hn].
  - rewrite lookup_alter_eq, Hx. by eexists.
  - rewrite lookup_alter_ne by done. eauto.
Qed.

Lemma load_enabled l s :
  Forall (fun x => exists w, workflows s !! x.1 = Some w /\ schedulable w = schedulable x.2) l -> jobs_are_enabled s ->
  jobs_are_enabled (foldl (fun s x => (addScheduleInternal x.1 x.2 s).2) s l).
Proof.
  revert s. induction l as [|[id w] l IH]; intros s Hl HI; cbn; [done|].
  apply Forall_cons in Hl as [(w0 & Hw0 & Es) Hl]. apply IH.
  - eapply Forall_impl; [exact Hl|]. intros [id' w'] (w1 & Hw1 & E1).
    destruct (add_rows id w s id' w1 Hw1) as (w2 & ? & E2). exists w2. split; [done|congruence].
  - apply add_enabled; [|by apply remove_enabled]. intros Hs. exists w0. split; [done|]. cbn in Es. congruence.
Qed.

Lemma start_enabled s : jobs_are_enabled s -> jobs_are_enabled (Start select s).
Proof.
  intros HI. unfold Start. destruct (running s); [done|].
  apply (same_enabled (loadSchedules select (set_flag true s))); [done|done|].
  apply load_enabled; [|done]. apply Forall_forall. intros [id w] [Hin _]%elem_of_bfilter.
  apply select_rows in Hin. by exists w.
Qed.

Lemma schedule_step_enabled st st' :
  schedule_step st st' -> jobs_are_enabled (service st) /\ attached st = true -> jobs_are_enabled (service st') /\ attached st' = true.
Proof.
  intros Hs [HI Ha]. destruct Hs.
  - unfold UpdateSchedule. destruct req as [req|]; [|done]. destruct (workflows _ !! id) as [w|]; [|done].
    destruct (negb _); [done|]. destruct (_ && _); [done|]. cbn [negb]. rewrite Ha.
    destruct (Scheduler.UpdateSchedule _ _ _) as [r s] eqn:E. cbn. split; [|done].
    change s with (r, s).2. rewrite <- E. by apply store_add_enabled.
  - unfold EnableSchedule. destruct (workflows _ !! id) as [w|]; [|done]. destruct (negb _); [done|].
    destruct (_ =? _); [done|]. rewrite Ha. split; [by apply store_add_enabled | done].
  - unfold DisableSchedule. destruct (workflows _ !! id) as [w|]; [|done]. rewrite Ha. split; [by apply removed_store_enabled | done].
  - unfold TriggerNow. destruct (user_id_string _) as [u|]; [|done]. rewrite Ha. cbn [negb].
    pose proof (trigger_enabled h id u uuid now (service st) HI) as Ht.
    destruct (Scheduler.TriggerNow _ _ _ _ _ _ _) as [[] s]; by split.
  - split; [by apply start_enabled | done].
  - split; [|done]. cbn. unfold Stop. by destruct (running _).
  - split; [by apply run_enabled | done].
  - split; [|done]. apply store_row_enabled; [by right | done].
Qed.
End Proofs.

(** ** What the handlers promise *)

(** As long as the writes are stored, only workflows whose row has an enabled schedule have
    a job, whatever requests and events come in. *)
Theorem scheduled_workflows_are_enabled {L : CronLib} (pipelines_ok valid_zone : string -> bool)
  (select : gmap string Workflow -> list (string * Workflow)) ws cols st :
  (forall ws id w, (id, w) ∈ select ws -> ws !! id = Some w) ->
  rtc (schedule_step pipelines_ok valid_zone select) (MkState (NewSchedulerService ws) true cols) st ->
  forall id, is_Some (jobs (service st) !! id) ->
  exists w, workflows (service st) !! id = Some w /\ ScheduleEnabled w = true /\ ScheduleCron w <> "".
Proof.
  intros Hsel Hr id [n Hn].
  assert (HI : jobs_are_enabled (service st) /\ attached st = true).
  { assert (H0 : jobs_are_enabled (service (MkState (NewSchedulerService ws) true cols)) /\
                 attached (MkState (L := L) (NewSchedulerService ws) true cols) = true) by (split; [by intros id' m | done]).
    clear Hn. induction Hr as [|a b c Hs _ IH]; [done|]. apply IH. by eapply schedule_step_enabled. }
  destruct (proj1 HI id n Hn) as (w & Hw & [? ?]%andb_prop). exists w. repeat split; [done|done|]. by bool_props.
Qed.

(** Enabling registers the schedule exactly when the cron library takes the expression, and
    answers the same either way; disabling removes it. *)
Theorem enable_registers {L : CronLib} saved id w (st : ScheduleState L) :
  attached st = true -> workflows (service st) !! id = Some w -> WType w = "batch" -> ScheduleCron w <> "" ->
  let '(r, st') := EnableSchedule saved id st in
  r = Success 200 true /\
  jobs (service st') !! id = fst <$> cron_AddJob (ScheduleCron w) id (cron (RemoveSchedule id (service st))) /\
  (exists w', workflows (service st') !! id = Some w' /\ ScheduleEnabled w' = (saved || ScheduleEnabled w)%bool) /\
  jobs (service (DisableSchedule saved id st').2) !! id = None.
Proof.
  intros Ha Hw Ht Hc. unfold EnableSchedule. rewrite Hw, Ht, Ha. apply String.eqb_neq in Hc. change (negb ("batch" =? "batch")) with false. cbn match. rewrite Hc.
  set (s0 := if saved then store_row id (with_enabled true w) (service st) else service st).
  assert (Hcron : cron (RemoveSchedule id s0) = cron (RemoveSchedule id (service st))).
  { unfold s0. destruct saved; [|done]. by rewrite remove_store. }
  assert (Hrow : exists w', workflows s0 !! id = Some w' /\ ScheduleEnabled w' = (saved || ScheduleEnabled w)%bool).
  { unfold s0. destruct saved; [|by exists w]. exists (with_enabled true w). cbn. by rewrite lookup_insert_eq. }
  assert (Hadd : jobs (AddSchedule id (with_enabled true w) s0).2 !! id =
      fst <$> cron_AddJob (ScheduleCron w) id (cron (RemoveSchedule id (service st))) /\
    exists w', workflows (AddSchedule id (with_enabled true w) s0).2 !! id = Some w' /\ ScheduleEnabled w' = (saved || ScheduleEnabled w)%bool).
  { unfold AddSchedule, addScheduleInternal. cbn [with_enabled ScheduleEnabled ScheduleCron negb orb]. rewrite Hc, Hcron.
    destruct Hrow as (w' & Hw' & He). destruct (cron_AddJob _ _ _) as [[n c]|]; cbn [snd fst fmap option_fmap option_map].
    - split; [cbn; by rewrite lookup_insert_eq|]. exists (set_next (cron_Next n c) w'). cbn.
      by rewrite lookup_alter_eq, remove_rows, Hw'.
    - split; [by rewrite remove_jobs, lookup_delete_eq|]. exists w'. by rewrite remove_rows. }
  destruct Hadd as [Hj (w' & Hw' & He)]. repeat split; [done | by exists w' |].
  unfold DisableSchedule. cbn [service set_service attached]. rewrite Hw', Ha. cbn.
  by rewrite remove_jobs, lookup_delete_eq.
Qed.

(** The answer to an update shows the next run of before the update. *)
Theorem update_answers_the_old_next_run {L : CronLib} valid_zone id req w (st : ScheduleState L) resp warning st' :
  workflows (service st) !! id = Some w ->
  UpdateSchedule valid_zone true id (Some req) st = (Success 200 (resp, warning), st') ->
  RNextRunAt resp = NextRunAt w.
Proof.
  intros Hw. unfold UpdateSchedule. rewrite Hw. destruct (negb _); [done|]. destruct (_ && _); [done|]. cbn [negb].
  destruct (if attached st then _ else _) as [r s]. by intros [= <- _ _].
Qed.

(** A schedule of another type than cron is registered by the handler and forgotten at the
    next start of the service. *)
Theorem other_types_do_not_survive_a_restart {L : CronLib} id w n c (st : ScheduleState L) select cols :
  attached st = true -> workflows (service st) = {[id := w]} -> jobs (service st) = ∅ -> WType w = "batch" ->
  ScheduleCron w <> "" -> ScheduleType w <> "cron" -> cron_AddJob (ScheduleCron w) id (cron (service st)) = Some (n, c) ->
  (forall ws x, x ∈ select ws -> ws !! x.1 = Some x.2) ->
  let st' := (EnableSchedule true id st).2 in
  jobs (service st') !! id = Some n /\
  jobs (Start select (service (MkState (NewSchedulerService (workflows (service st'))) true cols) : SchedulerService L)) !! id = None.
Proof.
  intros Ha Hw Hj Ht Hc Hty Hadd Hsel.
  assert (Hrm : RemoveSchedule id (service st) = service st) by (unfold RemoveSchedule; by rewrite Hj, lookup_empty).
  unfold EnableSchedule. rewrite Hw, lookup_singleton_eq, Ht, Ha. apply String.eqb_neq in Hc. change (negb ("batch" =? "batch")) with false. cbn match. rewrite Hc.
  unfold AddSchedule, addScheduleInternal. cbn [with_enabled ScheduleEnabled ScheduleCron negb orb]. rewrite Hc, remove_store, Hrm.
  cbn [store_row set_workflows cron]. rewrite Hadd. cbn [snd set_service service set_cron set_workflows jobs workflows].
  split; [cbn; by rewrite lookup_insert_eq|]. unfold Start. cbn [NewSchedulerService running jobs set_cron].
  unfold loadSchedules. rewrite bfilter_none; [done|]. intros [id' x] Hx%Hsel. revert Hx.
  cbn [NewSchedulerService set_flag workflows store_row set_workflows set_cron fst snd].
  destruct (decide (id = id')) as [<-|Hne].
  - rewrite lookup_alter_eq, lookup_insert_eq. cbn. intros [= <-]. unfold is_scheduled. cbn.
    apply String.eqb_neq in Hty as ->. apply andb_false_r.
  - rewrite lookup_alter_ne, lookup_insert_ne by done. by rewrite Hw, lookup_singleton_ne.
Qed.
