(* ===== verification/PipelineApi.v ===== *)
(** * Pipelines and provisioning (handlers/pipeline.go, handlers/provisioning.go, shared/types/sink.go)

    The handlers that keep pipelines and their runs, and those that ask for the preparation
    of a store and record its outcome, over the tables of [Table]. What Redis knows of a
    pipeline is an argument. The times of updates are left out. *)

From Stdlib Require Import String.
From S2P Require Import Prelude GoString GoValue Api WorkflowApi Auth Users Table Projects DataTypes.
Local Open Scope string_scope.
Local Open Scope list_scope.

(** ** Rows *)

Record PipelineRun := MkRun {
  RunID : string;
  RunPipeline : string;
  RunStatus : string;
  RunAgent : string;
  RunStartedAt : option Z;
  RunEndedAt : option Z;
  ProcessedCount : Z;
  ErrorCount : Z;
  RunErrorMessage : string;
  RunCreatedAt : Z
}.

#[export] Instance run_row : Row PipelineRun := {| row_id := RunID; live _ := true; clash _ _ := false |}.

Record ProvisioningRequest := MkProvisioning {
  PVID : string;
  PVPipeline : string;
  PVSinkType : string;
  PVSinkName : string;
  PVType : string;
  PVConfig : option Data;
  PVExternalURL : string;
  PVCallbackURL : string;
  PVStatus : string;
  PVRequestedBy : string;
  PVCreatedAt : Z
}.

#[export] Instance provisioning_row : Row ProvisioningRequest := {| row_id := PVID; live _ := true; clash _ _ := false |}.

(** The names the external side reports: table, topic, index, bucket, path, endpoint, key. *)
Record CompleteProvisioningRequest := MkComplete {
  CQ_Status : string;
  CQ_TableName : string;
  CQ_TopicName : string;
  CQ_IndexName : string;
  CQ_BucketName : string;
  CQ_FilePath : string;
  CQ_APIEndpoint : string;
  CQ_APIKey : string;
  CQ_Metadata : option Data;
  CQ_Message : string;
  CQ_ErrorDetail : string;
  CQ_CompletedBy : string
}.

Record ProvisioningResult := MkResult {
  RSID : string;
  RSRequest : string;
  RSPipeline : string;
  RSSinkType : string;
  RSStatus : string;
  ResultTableName : string;
  ResultTopicName : string;
  ResultIndexName : string;
  ResultBucketName : string;
  ResultFilePath : string;
  ResultAPIEndpoint : string;
  ResultAPIKey : string;
  RSMessage : string;
  RSErrorDetail : string;
  RSCompletedAt : option Z;
  RSCompletedBy : string
}.

#[export] Instance result_row : Row ProvisioningResult := {| row_id := RSID; live _ := true; clash _ _ := false |}.

Record PipelineDB := MkPipelineDB {
  pl_rows : list Pipeline;
  pl_runs : list PipelineRun;
  pv_requests : list ProvisioningRequest;
  pv_results : list ProvisioningResult
}.

Definition set_pipelines (t : list Pipeline) (db : PipelineDB) : PipelineDB :=
  MkPipelineDB t (pl_runs db) (pv_requests db) (pv_results db).
Definition set_requests (t : list ProvisioningRequest) (db : PipelineDB) : PipelineDB :=
  MkPipelineDB (pl_rows db) (pl_runs db) t (pv_results db).
Definition set_results (t : list ProvisioningResult) (db : PipelineDB) : PipelineDB :=
  MkPipelineDB (pl_rows db) (pl_runs db) (pv_requests db) t.

Definition pipeline_not_found {A} : Reply A := Failure 404 ErrCodeNotFound "Pipeline not found".

(** ** Pipelines *)

Record PaginatedPipelines := MkPaginated { Items : list Pipeline; PgTotal : Z; PgPage : Z; PgSize : Z; PgPages : Z }.

(** The page is always the first one, of twenty rows. *)
Definition List_ `{Query} (db : PipelineDB) : Reply PaginatedPipelines :=
  let page := 1%Z in
  let pageSize := 20%Z in
  let total := count (fun _ => true) (pl_rows db) in
  Success 200 (MkPaginated (window ((page - 1) * pageSize) pageSize (rows (fun _ => true) (pl_rows db))) total page pageSize
    (Z.quot (total + pageSize - 1) pageSize)).

Definition Get (id : string) (db : PipelineDB) : Reply Pipeline :=
  match first (has_id id) (pl_rows db) with
  | None => pipeline_not_found
  | Some p => Success 200 p
  end.

Record PipelineRequest := MkPipelineRequest { RQ_Name : string; RQ_Description : string; RQ_ConfigYAML : string }.

Definition Create (c : Ctx) (e : Env) (req : option PipelineRequest) (db : PipelineDB) : Reply Pipeline * PipelineDB :=
  match req with
  | None => (Failure 400 ErrCodeInvalidJSON "", db)
  | Some req =>
      match ctx_user c with
      | Some (VString user) =>
          let p := MkPipelineRow (fresh e 0) (RQ_Name req) (RQ_Description req) (RQ_ConfigYAML req) "" user false in
          match create (writes e 0) p (pl_rows db) with
          | None => (Failure 500 ErrCodeDatabaseError "", db)
          | Some t => (Success 201 p, set_pipelines t db)
          end
      | _ => (HandlerPanic, db)
      end
  end.

Definition Update (e : Env) (id : string) (req : option PipelineRequest) (db : PipelineDB) : Reply Pipeline * PipelineDB :=
  match first (has_id id) (pl_rows db) with
  | None => (pipeline_not_found, db)
  | Some p =>
      match req with
      | None => (Failure 400 ErrCodeInvalidJSON "", db)
      | Some req =>
          let p := MkPipelineRow (PLID p) (given (RQ_Name req) (PLName p)) (given (RQ_Description req) (PLDescription p))
                     (given (RQ_ConfigYAML req) (ConfigYAML p)) (DataTypeID p) (PLCreatedBy p) (PLDeleted p) in
          match save (writes e 0) p (pl_rows db) with
          | None => (Failure 500 ErrCodeDatabaseError "", db)
          | Some t => (Success 200 p, set_pipelines t db)
          end
      end
  end.

Definition bury_pipeline (p : Pipeline) : Pipeline :=
  MkPipelineRow (PLID p) (PLName p) (PLDescription p) (ConfigYAML p) (DataTypeID p) (PLCreatedBy p) true.

(** [RowsAffected] is the number of live rows the deletion hit. *)
Definition Delete (e : Env) (id : string) (db : PipelineDB) : Reply unit * PipelineDB :=
  match soft_delete bury_pipeline (writes e 0) (has_id id) (pl_rows db) with
  | None => (Failure 500 ErrCodeDatabaseError "", db)
  | Some t =>
      if (count (has_id id) (pl_rows db) =? 0)%Z then (pipeline_not_found, set_pipelines t db)
      else (Success 200 tt, set_pipelines t db)
  end.

Definition runs_of (id : string) (r : PipelineRun) : bool := RunPipeline r =? id.
Definition newest_run (x y : PipelineRun) : bool := (RunCreatedAt y <=? RunCreatedAt x)%Z.
Definition latest_run `{Sql} (id : string) (db : PipelineDB) : option PipelineRun :=
  head (order_by newest_run (rows (runs_of id) (pl_runs db))).

(** The status of the latest run, or the text stopped. *)
Definition GetStatus `{Sql} (id : string) (db : PipelineDB) : Reply (string + PipelineRun) :=
  match latest_run id db with
  | None => Success 200 (inl "stopped")
  | Some r => Success 200 (inr r)
  end.

Definition GetHistory `{Sql} `{Query} (id : string) (db : PipelineDB) : Reply (list PipelineRun) :=
  Success 200 (window 0 50 (order_by newest_run (rows (runs_of id) (pl_runs db)))).

Record PipelineMetrics := MkMetrics {
  MPipeline : string;
  EventsIn : Z;
  EventsOut : Z;
  BytesIn : Z;
  BytesOut : Z;
  ErrorsTotal : Z;
  ProcessingTimeMs : Z;
  LastUpdated : Z
}.

(** The metrics without Redis: a count of events and one of errors. *)
Definition basic_metrics (id : string) (events errors now : Z) : PipelineMetrics := MkMetrics id events 0 0 0 errors 0 now.

(** [redis] is [None] without a healthy service, else what it answers. *)
Definition GetMetrics `{Sql} (redis : option (option PipelineMetrics)) (now : Z) (id : string) (db : PipelineDB)
  : Reply PipelineMetrics :=
  match redis with
  | Some (Some m) => Success 200 m
  | Some None => Success 200 (basic_metrics id 0 0 now)
  | None =>
      match latest_run id db with
      | Some r => Success 200 (basic_metrics id (ProcessedCount r) (ErrorCount r) now)
      | None => Success 200 (basic_metrics id 0 0 now)
      end
  end.

(** ** What the kinds of sinks need *)

Record SinkRequirement := MkRequirement {
  SRType : string;
  SRDisplay : string;
  SRDescription : string;
  RequiresProvisioning : bool;
  ProvisioningTypes : list string
}.

Definition ProvisioningTypeExternal := "external".

Definition GetSinkRequirements : list SinkRequirement := [
  MkRequirement "file" "File" "로컬 파일 시스템에 저장" false [];
  MkRequirement "kafka" "Kafka" "Apache Kafka 토픽으로 전송" true ["topic_creation"; ProvisioningTypeExternal];
  MkRequirement "hdfs" "HDFS" "Hadoop HDFS에 저장" true [ProvisioningTypeExternal];
  MkRequirement "sql" "SQL Database" "SQL 데이터베이스 (MySQL, PostgreSQL 등)" true ["table_creation"; ProvisioningTypeExternal];
  MkRequirement "mongodb" "MongoDB" "MongoDB 컬렉션에 저장" true ["table_creation"; ProvisioningTypeExternal];
  MkRequirement "hbase" "HBase" "Apache HBase 테이블에 저장" true ["table_creation"; ProvisioningTypeExternal];
  MkRequirement "elasticsearch" "Elasticsearch" "Elasticsearch 인덱스에 저장" true ["index_creation"; ProvisioningTypeExternal];
  MkRequirement "s3" "Amazon S3" "AWS S3 버킷에 저장" true ["bucket_setup"; ProvisioningTypeExternal];
  MkRequirement "rest_api" "REST API" "외부 REST API로 전송" true ["api_setup"; ProvisioningTypeExternal] ].

Definition GetSinkRequirement (sinkType : string) : Reply SinkRequirement :=
  match List.find (fun r => SRType r =? sinkType) GetSinkRequirements with
  | Some r => Success 200 r
  | None => Failure 404 ErrCodeNotFound "Sink type not found"
  end.

(** ** Provisioning *)

Definition ProvisioningStatusPending := "pending".
Definition ProvisioningStatusInProgress := "in_progress".
Definition ProvisioningStatusCompleted := "completed".
Definition ProvisioningStatusFailed := "failed".

Record StartProvisioningRequest := MkStart {
  ST_Pipeline : string;
  ST_SinkType : string;
  ST_SinkName : string;
  ST_Type : string;
  ST_Config : option Data;
  ST_ExternalURL : string
}.

Record StartedProvisioning := MkStarted {
  SP_ID : string;
  SP_Status : string;
  SP_CallbackURL : string;
  SP_RedirectURL : option string
}.

Definition StartProvisioning (c : Ctx) (host : string) (e : Env) (req : option StartProvisioningRequest) (db : PipelineDB)
  : Reply StartedProvisioning * PipelineDB :=
  match req with
  | None => (Failure 400 ErrCodeInvalidJSON "", db)
  | Some req =>
      match first (has_id (ST_Pipeline req)) (pl_rows db) with
      | None => (pipeline_not_found, db)
      | Some _ =>
          match user_id_string (ctx_user c) with
          | None => (HandlerPanic, db)
          | Some user =>
              let id := fresh e 0 in
              let callbackURL := host +:+ "/api/v1/provisioning/callback/" +:+ id in
              (* the record is built without the configuration of the request *)
              let record := MkProvisioning id (ST_Pipeline req) (ST_SinkType req) (ST_SinkName req) (ST_Type req) None
                              (ST_ExternalURL req) callbackURL ProvisioningStatusPending user (now e) in
              match create (writes e 0) record (pv_requests db) with
              | None => (Failure 500 ErrCodeDatabaseError "Failed to create provisioning request", db)
              | Some t =>
                  let redirect :=
                    if (ST_Type req =? ProvisioningTypeExternal) && negb (ST_ExternalURL req =? "")
                    then Some (ST_ExternalURL req +:+ "?provisioning_id=" +:+ id +:+ "&pipeline_id=" +:+ ST_Pipeline req +:+
                               "&sink_name=" +:+ ST_SinkName req +:+ "&callback_url=" +:+ callbackURL)
                    else None in
                  (Success 202 (MkStarted id ProvisioningStatusPending callbackURL redirect), set_requests t db)
              end
          end
      end
  end.

(** The statuses after which a request takes no more results. *)
Definition closed (status : string) : bool := (status =? ProvisioningStatusCompleted) || (status =? ProvisioningStatusFailed).

Definition result_of (e : Env) (r : ProvisioningRequest) (req : CompleteProvisioningRequest) : ProvisioningResult :=
  MkResult (fresh e 0) (PVID r) (PVPipeline r) (PVSinkType r) (CQ_Status req) (CQ_TableName req) (CQ_TopicName req)
    (CQ_IndexName req) (CQ_BucketName req) (CQ_FilePath req) (CQ_APIEndpoint req) (CQ_APIKey req) (CQ_Message req)
    (CQ_ErrorDetail req) (Some (now e)) (CQ_CompletedBy req).

Definition with_pv_status (s : string) (r : ProvisioningRequest) : ProvisioningRequest :=
  MkProvisioning (PVID r) (PVPipeline r) (PVSinkType r) (PVSinkName r) (PVType r) (PVConfig r) (PVExternalURL r)
    (PVCallbackURL r) s (PVRequestedBy r) (PVCreatedAt r).

(** The two writes are not in a transaction. *)
Definition CompleteProvisioning (e : Env) (id : string) (req : option CompleteProvisioningRequest) (db : PipelineDB)
  : Reply (string * string) * PipelineDB :=
  match req with
  | None => (Failure 400 ErrCodeInvalidJSON "", db)
  | Some req =>
      match first (has_id id) (pv_requests db) with
      | None => (Failure 404 ErrCodeNotFound "Provisioning request not found", db)
      | Some r =>
          if closed (PVStatus r) then (Failure 409 ErrCodeConflict "Provisioning already completed", db)
          else
            let result := result_of e r req in
            match create (writes e 0) result (pv_results db) with
            | None => (Failure 500 ErrCodeDatabaseError "Failed to save provisioning result", db)
            | Some t =>
                let db := set_results t db in
                match save (writes e 1) (with_pv_status (CQ_Status req) r) (pv_requests db) with
                | None => (Failure 500 ErrCodeDatabaseError "Failed to update provisioning status", db)
                | Some t => (Success 200 (CQ_Status req, RSID result), set_requests t db)
                end
            end
      end
  end.

Definition results_of (id : string) (r : ProvisioningResult) : bool := RSRequest r =? id.

Definition GetProvisioningStatus (id : string) (db : PipelineDB) : Reply (ProvisioningRequest * option ProvisioningResult) :=
  match first (has_id id) (pv_requests db) with
  | None => Failure 404 ErrCodeNotFound "Provisioning request not found"
  | Some r => Success 200 (r, if closed (PVStatus r) then first (results_of id) (pv_results db) else None)
  end.

Definition ListPipelineProvisioning `{Sql} (pipeline : string) (db : PipelineDB) : Reply (list ProvisioningRequest) :=
  Success 200 (order_by (fun x y => (PVCreatedAt y <=? PVCreatedAt x)%Z) (rows (fun r => PVPipeline r =? pipeline) (pv_requests db))).

(** ** Pipelines come and go *)

#[export] Instance pipeline_laws : RowLaws Pipeline.
Proof. by split. Qed.
#[export] Instance provisioning_laws : RowLaws ProvisioningRequest.
Proof. by split. Qed.
#[export] Instance result_laws : RowLaws ProvisioningResult.
Proof. by split. Qed.

Inductive pipeline_step : PipelineDB -> PipelineDB -> Prop :=
| pl_create c e req db : pipeline_step db (Create c e req db).2
| pl_update e id req db : pipeline_step db (Update e id req db).2
| pl_delete e id db : pipeline_step db (Delete e id db).2
| pl_start c host e req db : pipeline_step db (StartProvisioning c host e req db).2
| pl_complete e id req db : pipeline_step db (CompleteProvisioning e id req db).2.

Definition no_pipelines : PipelineDB := MkPipelineDB [] [] [] [].

Definition pipelines_ok (t : list Pipeline) : Prop := indexed t /\ forall p, p ∈ t -> DataTypeID p = "".

Lemma soft_delete_elem {A} `{Row A} bury ok (p : A -> bool) t t' x :
  soft_delete bury ok p t = Some t' -> x ∈ t' -> x ∈ t \/ exists y, y ∈ t /\ x = bury y.
Proof.
  unfold soft_delete. destruct ok; [|done]. intros [= <-] (y & -> & Hy)%list_elem_of_fmap. destruct (_ && _); eauto.
Qed.

Lemma pipeline_step_ok db db' : pipeline_step db db' -> pipelines_ok (pl_rows db) -> pipelines_ok (pl_rows db').
Proof.
  intros [c e req db0|e id req db0|e id db0|c host e req db0|e id req db0] [Hi Hd].
  - unfold Create. destruct req as [req|]; [|done]. destruct (ctx_user c) as [[]|]; try done.
    destruct (create _ _ _) as [t|] eqn:Hc; [|done]. split; [by eapply create_indexed|].
    intros p [->|Hp]%(create_elem _ _ _ _ _ Hc); auto.
  - unfold Update. destruct (first _ _) as [p|] eqn:Hf; [|done]. destruct req as [req|]; [|done].
    destruct (save _ _ _) as [t|] eqn:Hs; [|done]. split; [by eapply save_indexed|].
    apply first_some in Hf as (Hin & _). intros q [->|[Hq _]]%(save_elem _ _ _ _ _ Hs); [by apply (Hd p) | auto].
  - unfold Delete. destruct (soft_delete _ _ _ _) as [t|] eqn:Hs; [|done].
    assert (pipelines_ok t) by (split; [by eapply (soft_delete_indexed bury_pipeline) |
      intros p [Hp|(y & Hy & ->)]%(soft_delete_elem _ _ _ _ _ _ Hs); [auto | by apply (Hd y)]]).
    by destruct (_ =? _)%Z.
  - unfold StartProvisioning. destruct req as [req|]; [|done]. destruct (first _ _); [|done].
    destruct (user_id_string _); [|done]. by destruct (create _ _ _).
  - unfold CompleteProvisioning. destruct req as [req|]; [|done]. destruct (first _ _) as [r|]; [|done].
    destruct (closed _); [done|]. destruct (create _ _ _); [|done]. by destruct (save _ _ _).
Qed.

Lemma pipelines_reachable_ok db : rtc pipeline_step no_pipelines db -> pipelines_ok (pl_rows db).
Proof.
  intros Hr. assert (H0 : pipelines_ok (pl_rows no_pipelines)) by (split; [apply indexed_nil | by intros p ?%not_elem_of_nil]).
  induction Hr as [|a b c Hs _ IH]; [done|]. apply IH. by eapply pipeline_step_ok.
Qed.

(** No request ever says which data type a pipeline has, so the check that keeps a data type
    in use from being deleted never refuses a deletion. *)
Theorem data_types_are_never_in_use db lang e id ddb :
  rtc pipeline_step no_pipelines db -> d_pipelines ddb = pl_rows db -> id <> "" ->
  (forall n, writes e n = true) -> (DeleteDataType lang e id ddb).1 = Success 200 tt.
Proof.
  intros [_ Hd]%pipelines_reachable_ok Ep Hne Hw. unfold DeleteDataType. rewrite Ep.
  assert (count (uses id) (pl_rows db) = 0%Z) as ->.
  { apply count_zero. intros p Hp _. apply String.eqb_neq. by rewrite (Hd p Hp). }
  cbn [Z.ltb Z.compare]. unfold remove. by rewrite !Hw.
Qed.

Definition a_pipeline : PipelineRequest := MkPipelineRequest "orders" "" "type: flat".
Definition used_db : PipelineDB := (Create alice calm (Some a_pipeline) no_pipelines).2.

Lemma data_types_are_never_in_use_witness :
  List.length (pl_rows used_db) = 1 /\
  (DeleteDataType "en" calm "t1" (MkDataTypeDB (d_projects board_db) (d_types board_db) [] (pl_rows used_db) [])).1 = Success 200 tt.
Proof.
  split; [reflexivity|].
  apply (data_types_are_never_in_use used_db "en" calm "t1" _ (rtc_once _ _ (pl_create alice calm (Some a_pipeline) no_pipelines))); done.
Defined.

(** A pipeline that was created is read back until it is deleted; afterwards its id is
    unknown to every request, and creating it does not fail for its name. *)
Theorem pipeline_lifecycle c e req e' p db db1 :
  pipelines_ok (pl_rows db) -> Create c e (Some req) db = (Success 201 p, db1) -> writes e' 0 = true ->
  Get (PLID p) db1 = Success 200 p /\
  let '(r, db2) := Delete e' (PLID p) db1 in
  r = Success 200 tt /\ Get (PLID p) db2 = pipeline_not_found /\
  (Delete e' (PLID p) db2).1 = pipeline_not_found /\ forall u, (Update e' (PLID p) u db2).1 = pipeline_not_found.
Proof.
  intros [Hi _]. unfold Create. destruct (ctx_user c) as [[| | | | |user| | |]|]; try done.
  destruct (create _ _ _) as [t|] eqn:Hc; [|done]. intros [= <- <-] Hw.
  set (p := MkPipelineRow _ _ _ _ _ _ _) in *.
  assert (Ht : indexed t) by by eapply create_indexed.
  assert (Hin : p ∈ t) by (eapply create_elem; [done | by left]).
  assert (Hf : first (has_id (PLID p)) t = Some p) by exact (first_by_id t p Ht Hin eq_refl).
  split; [unfold Get; cbn [set_pipelines pl_rows]; by rewrite Hf|].
  unfold Delete at 1. cbn [set_pipelines pl_rows]. unfold soft_delete. rewrite Hw.
  set (t2 := _ <$> t).
  assert (Hno : first (has_id (PLID p)) t2 = None).
  { destruct (first (has_id (PLID p)) t2) as [q|] eqn:E; [|done]. apply first_some in E as (Hq & Hl & Hid).
    apply list_elem_of_fmap in Hq as (y & -> & _). destruct (live y && has_id (PLID p) y) eqn:E; [done|].
    apply andb_false_iff in E as [E|E]; congruence. }
  assert (Hz : count (has_id (PLID p)) t2 = 0%Z).
  { apply count_zero. intros r Hr Hl. by eapply first_none. }
  assert (Hnz : (count (has_id (PLID p)) t =? 0)%Z = false).
  { apply Z.eqb_neq. intros E. rewrite count_zero in E. specialize (E p Hin eq_refl). unfold has_id in E. cbn in E.
    by rewrite String.eqb_refl in E. }
  rewrite Hnz. repeat split.
  - unfold Get. cbn [set_pipelines pl_rows]. by rewrite Hno.
  - unfold Delete. cbn [set_pipelines pl_rows]. unfold soft_delete. rewrite Hw. by rewrite Hz.
  - intros u. unfold Update. cbn [set_pipelines pl_rows]. by rewrite Hno.
Qed.

(** ** A request for provisioning is closed once *)

Definition closing (id : string) (r : ProvisioningResult) : bool := results_of id r && closed (RSStatus r).

Record provisioning_inv (db : PipelineDB) : Prop := {
  vi_requests : indexed (pv_requests db);
  vi_results : forall r, r ∈ pv_requests db ->
    List.length (List.filter (closing (PVID r)) (pv_results db)) = if closed (PVStatus r) then 1 else 0;
  vi_known : forall x, x ∈ pv_results db -> exists r, r ∈ pv_requests db /\ PVID r = RSRequest x
}.

Lemma complete_inv e id req db :
  (forall n, writes e n = true) -> provisioning_inv db -> provisioning_inv (CompleteProvisioning e id req db).2.
Proof.
  intros Hw HI. unfold CompleteProvisioning. destruct req as [req|]; [|done].
  destruct (first _ _) as [r|] eqn:Hf; [|done]. destruct (closed (PVStatus r)) eqn:Hcl; [done|].
  destruct (create _ _ _) as [t|] eqn:Hc; [|done]. cbn [set_results pv_requests].
  apply first_some in Hf as (Hin & _ & _). set (r' := with_pv_status (CQ_Status req) r).
  assert (Hs : save (writes e 1) r' (pv_requests db) = Some (replace_row r' <$> pv_requests db)).
  { unfold save. rewrite Hw. assert (replaceable r' (pv_requests db) = true) as ->; [|done].
    apply replaceable_spec. done. }
  rewrite Hs. cbn [snd]. assert (HP : t ≡ₚ result_of e r req :: pv_results db).
  { apply create_spec in Hc as [_ ->]. apply insert_row_Permutation. }
  assert (Hself : PVID r' = PVID r) by done.
  split; cbn [set_requests set_results pv_requests pv_results].
  - eapply save_indexed; [exact Hs | apply HI].
  - intros q Hq. rewrite (Permutation_length (filter_Permutation _ _ _ HP)). cbn [List.filter].
    unfold closing at 1, results_of. cbn [result_of RSRequest RSStatus].
    apply (save_elem _ _ _ _ _ Hs) in Hq as [->|[Hq Hn]].
    + rewrite Hself, String.eqb_refl. cbn [andb]. pose proof (vi_results db HI r Hin) as Hr. rewrite Hcl in Hr.
      cbn [with_pv_status r' PVStatus]. destruct (closed (CQ_Status req)); cbn; by rewrite Hr.
    + assert ((PVID r =? PVID q) = false) as -> by (apply String.eqb_neq; intros E; by apply Hn). by apply HI.
  - intros x Hx. rewrite HP in Hx. apply elem_of_cons in Hx as [->|Hx].
    + exists r'. split; [exact (save_elem_self _ _ _ _ _ Hs Hin Hself) | done].
    + destruct (vi_known db HI x Hx) as (q & Hq & E). destruct (decide (PVID q = PVID r')) as [Eq|Hn].
      * exists r'. split; [exact (save_elem_self _ _ _ _ _ Hs Hq Eq) | congruence].
      * exists q. split; [exact (save_elem_other _ _ _ _ _ Hs Hq Hn) | done].
Qed.

Lemma start_inv c host e req db : provisioning_inv db -> provisioning_inv (StartProvisioning c host e req db).2.
Proof.
  intros HI. unfold StartProvisioning. destruct req as [req|]; [|done]. destruct (first _ _); [|done].
  destruct (user_id_string _); [|done]. destruct (create _ _ _) as [t|] eqn:Hc; [|done].
  pose proof (create_spec _ _ _ _ Hc) as [Hnew _]. split; cbn [snd set_requests pv_requests pv_results].
  - eapply create_indexed; [done | apply HI].
  - intros q [->|Hq]%(create_elem _ _ _ _ _ Hc); [|by apply HI]. cbn.
    rewrite bfilter_none; [done|]. intros x Hx. apply andb_false_iff. left. apply String.eqb_neq.
    destruct (vi_known db HI x Hx) as (r & Hr & <-). by apply (Hnew r).
  - intros x Hx. destruct (vi_known db HI x Hx) as (r & Hr & E). exists r. split; [|done].
    eapply create_elem; [done | by right].
Qed.

(** The requests while the database takes every write. *)
Inductive provisioning_step : PipelineDB -> PipelineDB -> Prop :=
| pv_start c host e req db : provisioning_step db (StartProvisioning c host e req db).2
| pv_complete e id req db : (forall n, writes e n = true) -> provisioning_step db (CompleteProvisioning e id req db).2
| pv_pipelines t db : provisioning_step db (set_pipelines t db).

(** While the database takes every write, a request has exactly one closing result once its
    status says completed or failed, and none before. *)
Theorem provisioning_is_closed_once db r :
  rtc provisioning_step no_pipelines db -> r ∈ pv_requests db ->
  List.length (List.filter (closing (PVID r)) (pv_results db)) = if closed (PVStatus r) then 1 else 0.
Proof.
  intros Hr Hin. assert (HI : provisioning_inv db).
  { assert (H0 : provisioning_inv no_pipelines) by (split; cbn; [apply indexed_nil | |]; by intros x ?%not_elem_of_nil).
    clear Hin. induction Hr as [|a b c Hs _ IH]; [done|]. apply IH. destruct Hs.
    - by apply start_inv.
    - by apply complete_inv.
    - split; apply H0. }
  by apply HI.
Qed.

Definition ask : StartProvisioningRequest := MkStart "p1" "kafka" "events" "external" None "https://setup".
Definition outcome (status table : string) : CompleteProvisioningRequest :=
  MkComplete status table "" "" "" "" "" "" None "" "" "".
Definition ids (l : list string) : Env := MkEnv (fun _ => true) true (fun n => nth n l "x") 0.
Definition asked_db : PipelineDB := (StartProvisioning alice "cp" (ids ["v1"]) (Some ask) used_db).2.
Definition reported_db : PipelineDB := (CompleteProvisioning (ids ["r5"]) "v1" (Some (outcome "in_progress" "")) asked_db).2.
Definition closed_db : PipelineDB := (CompleteProvisioning (ids ["r7"]) "v1" (Some (outcome "completed" "orders")) reported_db).2.

Lemma provisioning_is_closed_once_witness :
  List.length (List.filter (closing "v1") (pv_results closed_db)) = 1 /\ List.length (pv_results closed_db) = 2.
Proof.
  split; [|reflexivity].
  refine (provisioning_is_closed_once closed_db (with_pv_status "completed" (nth 0 (pv_requests asked_db) (MkProvisioning "" "" "" "" "" None "" "" "" "" 0))) _ _).
  - apply (rtc_l _ _ used_db); [apply (pv_pipelines (pl_rows used_db) no_pipelines)|].
    apply (rtc_l _ _ asked_db); [apply (pv_start alice "cp" (ids ["v1"]) (Some ask) used_db)|].
    apply (rtc_l _ _ reported_db); [by apply (pv_complete (ids ["r5"]) "v1" (Some (outcome "in_progress" "")) asked_db)|].
    apply rtc_once. by apply (pv_complete (ids ["r7"]) "v1" (Some (outcome "completed" "orders")) reported_db).
  - apply list_elem_of_singleton. reflexivity.
Defined.

(** The status of a closed request shows the result with the smallest id, which need not be
    the one that closed it. *)
Example status_shows_another_result :
  match GetProvisioningStatus "v1" closed_db with
  | Success _ (r, Some x) => PVStatus r = "completed" /\ RSStatus x = "in_progress" /\ ResultTableName x = ""
  | _ => False
  end.
Proof. vm_compute. done. Qed.

(** When the second write fails the result is stored and the request stays open: the next
    callback stores a second closing result. *)
Example failed_status_write_doubles_the_result :
  let e := MkEnv (fun n => (n =? 0)%nat) true (fun _ => "r1") 0 in
  let '(r, db) := CompleteProvisioning e "v1" (Some (outcome "completed" "a")) asked_db in
  succeeds r = false /\
  List.length (List.filter (closing "v1") (pv_results (CompleteProvisioning (ids ["r2"]) "v1" (Some (outcome "completed" "b")) db).2)) = 2.
Proof. vm_compute. done. Qed.
