(* ===== verification/StatsApi.v ===== *)
(** * Statistics (handlers/stats_handler.go, shared/types/statistics.go)

    What the API answers about the executions of batch pipelines and the hours of realtime
    ones. A time in a query is given by what [time.Parse] makes of it. The column with the
    counts per stage is given by what [encoding/json] decodes from it. The sums of the
    database are exact; those of the handler wrap around. *)

From Stdlib Require Import String.
From S2P Require Import Prelude GoString GoValue GoTime Api WorkflowApi Users Table Projects.
Local Open Scope string_scope.
Local Open Scope list_scope.

(** ** Rows *)

(** What was decoded before an error, and whether there was none. *)
Record StageCounts := MkCounts { decoded : gmap string Z; decodes : bool }.

Record PipelineExecutionStats := MkExecStats {
  ESID : string;
  ESExecution : string;
  ESPipeline : string;
  ESPipelineName : string;
  ESWorkflow : string;
  ESCollected : Z;
  ESProcessed : Z;
  ESStages : StageCounts;
  ESCollectionErrors : Z;
  ESProcessingErrors : Z;
  ESStartedAt : Z;
  ESCompletedAt : option Z;
  ESDurationMs : Z
}.

#[export] Instance exec_stats_row : Row PipelineExecutionStats := {| row_id := ESID; live _ := true; clash _ _ := false |}.

Record PipelineHourlyStats := MkHourly {
  HSID : string;
  HSPipeline : string;
  HSPipelineName : string;
  HSWorkflow : string;
  BucketHour : Z;
  HSCollected : Z;
  HSProcessed : Z;
  HSStages : StageCounts;
  HSCollectionErrors : Z;
  HSProcessingErrors : Z
}.

#[export] Instance hourly_row : Row PipelineHourlyStats := {|
  row_id := HSID; live _ := true; clash x y := (HSPipeline x =? HSPipeline y) && (BucketHour x =? BucketHour y)%Z
|}.

Record StatsDB := MkStatsDB {
  s_workflows : list WorkflowRow;
  s_execs : list PipelineExecutionStats;
  s_hours : list PipelineHourlyStats
}.

Record PipelineStatistics := MkPipelineStats {
  PSPipeline : string;
  PSPipelineName : string;
  PSCollected : Z;
  PSProcessed : Z;
  PSStages : gmap string Z;
  PSCollectionErrors : Z;
  PSProcessingErrors : Z;
  PSStartedAt : Z;
  PSCompletedAt : option Z;
  PSDurationMs : Z
}.

Record WorkflowStatistics := MkWorkflowStats {
  WSWorkflow : string;
  WSName : string;
  WSType : string;
  TotalRecordsCollected : Z;
  TotalRecordsProcessed : Z;
  TotalCollectionErrors : Z;
  TotalProcessingErrors : Z;
  PipelineStats : list PipelineStatistics;
  Period : string;
  StartTime : Z;
  EndTime : Z
}.

(** ** Times of a query *)

Inductive TimeParam := NotGiven | NotATime | At (t : Z).

(** The zero [time.Time], the first of January of the year 1. *)
Definition zero_time : Z := -62135596800 * Second.

(** [Where("c >= ?", from)] and [Where("c <= ?", to)] when they parse. *)
Definition from_ok (from : TimeParam) (t : Z) : bool := match from with At x => (x <=? t)%Z | _ => true end.
Definition to_ok (to : TimeParam) (t : Z) : bool := match to with At x => (t <=? x)%Z | _ => true end.
Definition given_time (p : TimeParam) : bool := match p with NotGiven => false | _ => true end.

(** The error of [time.Parse] is not looked at. *)
Definition time_or (p : TimeParam) (def : Z) : Z :=
  match p with NotGiven => def | NotATime => zero_time | At t => t end.

(** ** Pipelines *)

Section Stats.
Context `{Sql} `{Query}.

Definition newest_exec (x y : PipelineExecutionStats) : bool := (ESStartedAt y <=? ESStartedAt x)%Z.
Definition newest_hour (x y : PipelineHourlyStats) : bool := (BucketHour y <=? BucketHour x)%Z.

Definition getBatchPipelineStats (pipelineID : string) (from to : TimeParam) (db : StatsDB) : list PipelineExecutionStats :=
  window 0 50 (order_by newest_exec
    (rows (fun r => (ESPipeline r =? pipelineID) && from_ok from (ESStartedAt r) && to_ok to (ESStartedAt r)) (s_execs db))).

Definition getRealtimePipelineStats (now : Z) (pipelineID : string) (from to : TimeParam) (db : StatsDB)
  : list PipelineHourlyStats :=
  let lastDay := negb (given_time from) && negb (given_time to) in
  order_by newest_hour
    (rows (fun r => (HSPipeline r =? pipelineID) && from_ok from (BucketHour r) && to_ok to (BucketHour r) &&
                    (negb lastDay || (now - 24 * Hour <=? BucketHour r)%Z)) (s_hours db)).

Definition GetPipelineStats (now : Z) (groupType pipelineID : string) (from to : TimeParam) (db : StatsDB)
  : Reply (list PipelineExecutionStats + list PipelineHourlyStats) :=
  if groupType =? "realtime" then Success 200 (inr (getRealtimePipelineStats now pipelineID from to db))
  else Success 200 (inl (getBatchPipelineStats pipelineID from to db)).

Definition GetExecutionStats (executionID : string) (db : StatsDB) : Reply (list PipelineExecutionStats) :=
  Success 200 (rows (fun r => ESExecution r =? executionID) (s_execs db)).

(** ** Workflows *)

Fixpoint sum_of {A} (f : A -> Z) (l : list A) : Z :=
  match l with [] => 0%Z | x :: l' => (f x + sum_of f l')%Z end.

Definition exec_statistics (r : PipelineExecutionStats) : PipelineStatistics :=
  MkPipelineStats (ESPipeline r) (ESPipelineName r) (ESCollected r) (ESProcessed r) (decoded (ESStages r))
    (ESCollectionErrors r) (ESProcessingErrors r) (ESStartedAt r) (ESCompletedAt r) (ESDurationMs r).

(** [week_ago] is [time.Now().AddDate(0, 0, -7)]. *)
Definition getBatchWorkflowStats (now week_ago : Z) (workflowID workflowName : string) (from to : TimeParam) (db : StatsDB)
  : WorkflowStatistics :=
  let fromTime := time_or from week_ago in
  let toTime := time_or to now in
  let found := rows (fun r => (ESWorkflow r =? workflowID) && (fromTime <=? ESStartedAt r)%Z && (ESStartedAt r <=? toTime)%Z) (s_execs db) in
  MkWorkflowStats workflowID workflowName "batch" (sum_of ESCollected found) (sum_of ESProcessed found)
    (sum_of ESCollectionErrors found) (sum_of ESProcessingErrors found)
    (exec_statistics <$> window 0 100 (order_by newest_exec found)) "execution" fromTime toTime.

Definition merge_counts (counts : StageCounts) (m : gmap string Z) : gmap string Z :=
  if decodes counts
  then foldl (fun m '(k, v) => <[k := int64_wrap (default 0%Z (m !! k) + v)]> m) m (map_to_list (decoded counts))
  else m.

(** The body of the loop over the hours. *)
Definition add_hour (fromTime : Z) (m : gmap string PipelineStatistics) (hs : PipelineHourlyStats)
  : gmap string PipelineStatistics :=
  let ps := default (MkPipelineStats (HSPipeline hs) (HSPipelineName hs) 0 0 ∅ 0 0 fromTime None 0) (m !! HSPipeline hs) in
  <[HSPipeline hs :=
      MkPipelineStats (PSPipeline ps) (PSPipelineName ps) (int64_wrap (PSCollected ps + HSCollected hs))
        (int64_wrap (PSProcessed ps + HSProcessed hs)) (merge_counts (HSStages hs) (PSStages ps))
        (int64_wrap (PSCollectionErrors ps + HSCollectionErrors hs))
        (int64_wrap (PSProcessingErrors ps + HSProcessingErrors hs)) (PSStartedAt ps) (PSCompletedAt ps) (PSDurationMs ps)]> m.

Definition completed_at (now : Z) (ps : PipelineStatistics) : PipelineStatistics :=
  MkPipelineStats (PSPipeline ps) (PSPipelineName ps) (PSCollected ps) (PSProcessed ps) (PSStages ps) (PSCollectionErrors ps)
    (PSProcessingErrors ps) (PSStartedAt ps) (Some now) (PSDurationMs ps).

(** The pipelines come in the order Go walks the map. *)
Definition getRealtimeWorkflowStats (now : Z) (workflowID workflowName : string) (from to : TimeParam) (db : StatsDB)
  : WorkflowStatistics :=
  let fromTime := time_or from (now - 24 * Hour) in
  let toTime := time_or to now in
  let found := rows (fun r => (HSWorkflow r =? workflowID) && (fromTime <=? BucketHour r)%Z && (BucketHour r <=? toTime)%Z) (s_hours db) in
  let pipelineMap := foldl (add_hour fromTime) ∅ (order_by newest_hour found) in
  MkWorkflowStats workflowID workflowName "realtime" (sum_of HSCollected found) (sum_of HSProcessed found)
    (sum_of HSCollectionErrors found) (sum_of HSProcessingErrors found)
    (completed_at now ∘ snd <$> map_to_list pipelineMap) "hourly" fromTime toTime.

Definition GetWorkflowStats (now week_ago : Z) (workflowID : string) (from to : TimeParam) (db : StatsDB)
  : Reply WorkflowStatistics :=
  match first (has_id workflowID) (s_workflows db) with
  | None => Failure 404 ErrCodeNotFound "Workflow not found"
  | Some w =>
      if WType (WF w) =? "realtime" then Success 200 (getRealtimeWorkflowStats now workflowID (WName (WF w)) from to db)
      else Success 200 (getBatchWorkflowStats now week_ago workflowID (WName (WF w)) from to db)
  end.
End Stats.

(** ** Sums *)

Lemma stats_sum_of_app {A} (f : A -> Z) l l' : sum_of f (l ++ l') = (sum_of f l + sum_of f l')%Z.
Proof. induction l as [|x l IH]; cbn; [done|]. rewrite IH. lia. Qed.

#[export] Instance sum_of_Permutation {A} (f : A -> Z) : Proper ((≡ₚ) ==> (=)) (sum_of f).
Proof. induction 1; cbn; lia. Qed.

Lemma sum_of_fmap {A B} (f : B -> Z) (g : A -> B) l : sum_of f (g <$> l) = sum_of (f ∘ g) l.
Proof. induction l as [|x l IH]; csimpl; [done|]. by rewrite IH. Qed.

(** The sum over a map changes by what changes at a key. *)
Lemma sum_of_insert {A} (f : A -> Z) k v (m : gmap string A) :
  sum_of (f ∘ snd) (map_to_list (<[k := v]> m)) =
  (sum_of (f ∘ snd) (map_to_list m) + f v - from_option f 0 (m !! k))%Z.
Proof.
  destruct (m !! k) as [x|] eqn:E; cbn.
  - rewrite <- (map_to_list_delete m k x E). rewrite <- insert_delete_eq.
    rewrite map_to_list_insert by apply lookup_delete_eq. cbn. lia.
  - rewrite map_to_list_insert by done. cbn. lia.
Qed.

(** ** The hours of a realtime workflow *)

(** A counter of the statistics and the column it adds up. *)
Definition counts_column (get : PipelineStatistics -> Z) (col : PipelineHourlyStats -> Z) : Prop :=
  forall fromTime m hs,
    exists ps, add_hour fromTime m hs = <[HSPipeline hs := ps]> m /\
      get ps = int64_wrap (from_option get 0%Z (m !! HSPipeline hs) + col hs).

Ltac counter := intros fromTime m hs; eexists; split; [reflexivity|]; by destruct (m !! HSPipeline hs).

Lemma collected_column : counts_column PSCollected HSCollected.
Proof. counter. Qed.
Lemma processed_column : counts_column PSProcessed HSProcessed.
Proof. counter. Qed.
Lemma collection_errors_column : counts_column PSCollectionErrors HSCollectionErrors.
Proof. counter. Qed.
Lemma processing_errors_column : counts_column PSProcessingErrors HSProcessingErrors.
Proof. counter. Qed.

Lemma hours_sum get col fromTime l m :
  counts_column get col ->
  eqm (sum_of (get ∘ snd) (map_to_list (foldl (add_hour fromTime) m l))) (sum_of (get ∘ snd) (map_to_list m) + sum_of col l).
Proof.
  intros Hc. revert m. induction l as [|hs l IH]; intros m; cbn [foldl]; [exists 0%Z; cbn; lia|].
  rewrite IH. destruct (Hc fromTime m hs) as (ps & -> & Hps). rewrite sum_of_insert, Hps. cbn [sum_of].
  destruct (wrap_eqm (from_option get 0%Z (m !! HSPipeline hs) + col hs)) as [k ->]. exists k. lia.
Qed.

(** The counter of one pipeline. *)
Lemma hours_of_pipeline get col fromTime l m p :
  counts_column get col ->
  eqm (from_option get 0%Z (foldl (add_hour fromTime) m l !! p))
      (from_option get 0%Z (m !! p) + sum_of col (List.filter (fun hs => HSPipeline hs =? p) l)).
Proof.
  intros Hc. revert m. induction l as [|hs l IH]; intros m; cbn [foldl List.filter]; [exists 0%Z; cbn; lia|].
  rewrite IH. destruct (Hc fromTime m hs) as (ps & -> & Hps). destruct (String.eqb_spec (HSPipeline hs) p) as [<-|Hn].
  - rewrite lookup_insert_eq. cbn [from_option]. rewrite Hps. cbn [sum_of].
    destruct (wrap_eqm (from_option get 0%Z (m !! HSPipeline hs) + col hs)) as [k ->]. exists k. lia.
  - by rewrite lookup_insert_ne.
Qed.

(** ** What the handlers promise *)

(** The totals of a realtime workflow are the sums of its pipelines, up to the width of the
    counters. *)
Theorem realtime_totals_agree `{SqlLaws} now workflowID name from to db :
  let s := getRealtimeWorkflowStats now workflowID name from to db in
  eqm (sum_of PSCollected (PipelineStats s)) (TotalRecordsCollected s) /\
  eqm (sum_of PSProcessed (PipelineStats s)) (TotalRecordsProcessed s) /\
  eqm (sum_of PSCollectionErrors (PipelineStats s)) (TotalCollectionErrors s) /\
  eqm (sum_of PSProcessingErrors (PipelineStats s)) (TotalProcessingErrors s).
Proof.
  assert (Hall : forall get col found fromTime, counts_column get col -> (forall t ps, get (completed_at t ps) = get ps) ->
    eqm (sum_of get (completed_at now ∘ snd <$> map_to_list (foldl (add_hour fromTime) ∅ (order_by newest_hour found)))) (sum_of col found)).
  { intros get col found fromTime Hc Hg. rewrite sum_of_fmap.
    replace (sum_of (get ∘ (completed_at now ∘ snd)) _) with
      (sum_of (get ∘ snd) (map_to_list (foldl (add_hour fromTime) ∅ (order_by newest_hour found)))).
    - rewrite (hours_sum get col) by done. rewrite map_to_list_empty, (order_by_Permutation newest_hour found). by cbn.
    - induction (map_to_list _) as [|x l IH]; cbn; [done|]. by rewrite Hg, IH. }
  unfold getRealtimeWorkflowStats. cbn. repeat split; apply Hall; try done;
    [apply collected_column | apply processed_column | apply collection_errors_column | apply processing_errors_column].
Qed.

(** Those of a batch workflow are the sums of the executions it lists, when there are no
    more than a hundred. *)
Theorem batch_totals_agree `{SqlLaws} `{QueryLaws} now week_ago workflowID name from to db :
  let s := getBatchWorkflowStats now week_ago workflowID name from to db in
  let found := rows (fun r => (ESWorkflow r =? workflowID) && (StartTime s <=? ESStartedAt r)%Z && (ESStartedAt r <=? EndTime s)%Z) (s_execs db) in
  List.length (PipelineStats s) = Nat.min 100 (List.length found) /\
  (List.length found <= 100 ->
   sum_of PSCollected (PipelineStats s) = TotalRecordsCollected s /\ sum_of PSProcessed (PipelineStats s) = TotalRecordsProcessed s).
Proof.
  unfold getBatchWorkflowStats. cbn [StartTime EndTime PipelineStats TotalRecordsCollected TotalRecordsProcessed].
  set (found := rows _ _). rewrite window_spec by lia. change (Z.to_nat 0) with 0. change (Z.to_nat 100) with 100.
  pose proof (order_by_Permutation newest_exec found) as HP. pose proof (Permutation_length HP) as Hlen. split.
  - rewrite length_fmap, length_take, drop_0. lia.
  - intros Hle. rewrite drop_0, take_ge by lia. by rewrite !sum_of_fmap, HP.
Qed.

(** An end that is not a time counts as the year 1: the statistics are all zero and the
    request succeeds. *)
Theorem unparsed_end_hides_everything `{SqlLaws} now workflowID name from db :
  (forall r, r ∈ s_hours db -> (zero_time < BucketHour r)%Z) ->
  let s := getRealtimeWorkflowStats now workflowID name from NotATime db in
  TotalRecordsCollected s = 0%Z /\ TotalProcessingErrors s = 0%Z /\ PipelineStats s = [].
Proof.
  intros Hr. unfold getRealtimeWorkflowStats. cbn [time_or].
  assert (E : forall fromTime, rows (fun r => (HSWorkflow r =? workflowID) && (fromTime <=? BucketHour r)%Z && (BucketHour r <=? zero_time)%Z) (s_hours db) = []).
  { intros fromTime. apply bfilter_none. intros r Hin. apply Hr in Hin. cbn. apply andb_false_iff. right. by apply Z.leb_gt. }
  rewrite E. pose proof (order_by_Permutation newest_hour ([] : list PipelineHourlyStats)) as HP.
  apply Permutation_nil_r in HP. rewrite HP. repeat split.
Qed.
