(* ===== verification/FilterApi.v ===== *)
(** * The filter API (handlers/filter_handlers.go)

    Listing the operators, validating, converting and testing filters, on top of [Filter],
    [FilterEval], [FilterConv] and [FilterRegistry]. A body that does not decode is [None].
    The texts of errors are left to the components that make them. *)

From Stdlib Require Import String.
From S2P Require Import Prelude GoString GoValue Filter FilterEval FilterConv FilterRoundTrip FilterRegistry.
Local Open Scope string_scope.
Local Open Scope list_scope.

(** A plain text with a status, a JSON document, or a panic of the handler. *)
Inductive Response (A : Type) :=
| HttpError (status : Z) (message : string)
| Json (document : A)
| HandlerPanics.
Arguments HttpError {A}.
Arguments Json {A}.
Arguments HandlerPanics {A}.

Definition GetOperators (r : FilterRegistry) : Response (list OperatorDef * list string) :=
  Json (List_ r, Categories r).

Definition GetOperatorsByCategory (r : FilterRegistry) (category : string) : Response (list OperatorDef * string) :=
  if category =? "" then HttpError 400 "category is required" else Json (ListByCategory r category, category).

(** The document tells whether the filter is valid, and if not why. *)
Definition ValidateFilter (body : option (option Filter)) : Response (option FilterError) :=
  match body with
  | None => HttpError 400 "invalid request body"
  | Some None => HttpError 400 "filter is required"
  | Some (Some f) =>
      match FilterValidate f with
      | Ok _ => Json None
      | Err e => Json (Some e)
      | Panic => HandlerPanics
      end
  end.

Record ConvertRequest := MkConvert { CvExpression : string; CvFilter : option Filter; CvTo : string }.

Definition document {E A} (m : res E A) : Response (E + A) :=
  match m with Ok a => Json (inr a) | Err e => Json (inl e) | Panic => HandlerPanics end.

Section Handlers.
Context `{GoRuntime} (newID : nat -> string).

Definition ConvertFilter (body : option ConvertRequest) : Response (ConvError + (string + Filter)) :=
  match body with
  | None => HttpError 400 "invalid request body"
  | Some req =>
      if CvTo req =? "expression" then
        match CvFilter req with
        | None => HttpError 400 "filter is required for conversion to expression"
        | Some f => document (inl <$> StructuredToExpression (Some f))
        end
      else if CvTo req =? "structured" then
        if CvExpression req =? "" then HttpError 400 "expression is required for conversion to structured"
        else document (inr <$> ExpressionToStructured newID (CvExpression req))
      else HttpError 400 "to must be 'expression' or 'structured'"
  end.

Record TestResult := MkTestResult { Index : nat; TestData : Data; Passed : bool; TestError : option EvalError }.
Record TestReport := MkReport { Results : list TestResult; RTotal : Z; RPassed : Z; RFailed : Z }.

(** The loop over the data; the result of an evaluation that fails is false. *)
Fixpoint test_all (f : Filter) (i : nat) (l : list Data) : option (list TestResult * Z) :=
  match l with
  | [] => Some ([], 0%Z)
  | d :: rest =>
      match Evaluate (Some f) d with
      | Panic => None
      | Ok b => '(rs, n) ← test_all f (S i) rest; Some (MkTestResult i d b None :: rs, if b then (n + 1)%Z else n)
      | Err e => '(rs, n) ← test_all f (S i) rest; Some (MkTestResult i d false (Some e) :: rs, n)
      end
  end.

Definition TestFilter (body : option (option Filter * list Data)) : Response TestReport :=
  match body with
  | None => HttpError 400 "invalid request body"
  | Some (None, _) => HttpError 400 "filter is required"
  | Some (Some f, data) =>
      match data with
      | [] => HttpError 400 "data is required"
      | _ =>
          match test_all f 0 data with
          | None => HandlerPanics
          | Some (rs, passCount) =>
              let total := Z.of_nat (List.length data) in
              Json (MkReport rs total passCount (total - passCount))
          end
      end
  end.
End Handlers.

(** ** What the handlers promise *)

Section Promises.
Context `{GoRuntime}.

Lemma test_all_spec f i l rs n :
  test_all f i l = Some (rs, n) ->
  map TestData rs = l /\ n = Z.of_nat (List.length (List.filter Passed rs)) /\
  forall r, r ∈ rs -> Passed r = true <-> Evaluate (Some f) (TestData r) = Ok true.
Proof.
  revert i rs n. induction l as [|d l IH]; intros i rs n; cbn [test_all].
  - intros [= <- <-]. split; [done|]. split; [done|]. by intros r ?%not_elem_of_nil.
  - destruct (Evaluate (Some f) d) as [b|e|] eqn:E; [| |done].
    all: destruct (test_all f (S i) l) as [[rs' n']|] eqn:Er; [|done]; intros [= <- <-];
      destruct (IH _ _ _ Er) as (Hd & Hn & Hp); cbn [map TestData]; rewrite Hd; split; [done|].
    + split; [destruct b; cbn [List.filter Passed List.length]; lia|].
      intros r [->|Hr]%elem_of_cons; [cbn [Passed TestData]; rewrite E; split; congruence | by apply Hp].
    + split; [done|]. intros r [->|Hr]%elem_of_cons; [cbn [Passed TestData]; rewrite E; done | by apply Hp].
Qed.

Lemma test_all_total f i l :
  (forall d, Evaluate (Some f) d <> Panic) -> is_Some (test_all f i l).
Proof.
  intros Hf. revert i. induction l as [|d l IH]; intros i; cbn [test_all]; [done|].
  destruct (IH (S i)) as [[rs n] ->]. specialize (Hf d). by destruct (Evaluate (Some f) d).
Qed.

Lemma filter_valid_settled f d : FilterValidate f = Ok tt -> Evaluate (Some f) d <> Panic.
Proof.
  unfold FilterValidate, Evaluate. intros Hv. destruct (Root f) as [r|].
  - apply evaluateNode_valid, NodeValidate_valid.
    rewrite bool_decide_eq_true_2 in Hv by done. by destruct (Expression f =? "").
  - destruct (Expression f =? ""); [done|]. apply evaluateExpression_settled.
Qed.

(** A filter the API finds valid can be tested on any data: the answer has a result for
    every record in order, a record counts as passed exactly when the filter accepts it,
    and the numbers add up. *)
Theorem valid_filters_can_be_tested f data :
  ValidateFilter (Some (Some f)) = Json None -> data <> [] ->
  exists report, TestFilter (Some (Some f, data)) = Json report /\
    map TestData (Results report) = data /\
    (forall r, r ∈ Results report -> Passed r = true <-> Evaluate (Some f) (TestData r) = Ok true) /\
    RPassed report = Z.of_nat (List.length (List.filter Passed (Results report))) /\
    (RPassed report + RFailed report = RTotal report)%Z /\ RTotal report = Z.of_nat (List.length data).
Proof.
  intros Hv Hd. assert (Hf : FilterValidate f = Ok tt).
  { cbn in Hv. by destruct (FilterValidate f) as [[]| |]. }
  destruct (test_all_total f 0 data) as [[rs n] Hr]; [intros d; by apply filter_valid_settled|].
  unfold TestFilter. destruct data as [|d data]; [done|]. rewrite Hr. eexists. split; [done|]. cbn.
  destruct (test_all_spec _ _ _ _ _ Hr) as (H1 & -> & H3). repeat split; try done; [by apply H3 | by apply H3 | lia].
Qed.

(** Testing does not validate: a filter with a condition node that has no condition is
    answered with a panic. *)
Theorem unchecked_filters_panic data d :
  TestFilter (Some (Some (MkFilter "1" (Some (MkFilterNode "condition" None None)) ""), d :: data)) = HandlerPanics.
Proof. reflexivity. Qed.

(** Converting a filter to text and back through the API gives it back, up to the ids, for
    the filters the text can express. *)
Theorem convert_round_trip newID n :
  printable n = true ->
  exists e n', ConvertFilter newID (Some (MkConvert "" (Some (MkFilter "1" (Some n) "")) "expression")) = Json (inr (inl e)) /\
    ConvertFilter newID (Some (MkConvert e None "structured")) = Json (inr (inr (MkFilter "1" (Some n') ""))) /\ erase n' = erase n.
Proof.
  intros Hp. destruct (node_round_trip newID n Hp) as (e & He & [Hs Hend _ Hr] & _).
  destruct (Hr (parse_fuel e) 0) as (n' & st' & Hparse & Hn'); [unfold parse_fuel; lia|].
  assert (Hne : (e =? "") = false) by (apply String.eqb_neq; intros ->; done).
  exists e, n'. unfold ConvertFilter. cbn [CvTo CvFilter CvExpression]. split; [|split; [|done]].
  - change ("expression" =? "expression") with true. cbn match.
    assert (StructuredToExpression (Some (MkFilter "1" (Some n) "")) = Ok e) as -> by done. done.
  - change ("structured" =? "expression") with false. change ("structured" =? "structured") with true. cbn match.
    rewrite Hne. unfold ExpressionToStructured. rewrite TrimSpace_solid by done. rewrite Hne. by rewrite Hparse.
Qed.
End Promises.

Lemma valid_filters_can_be_tested_witness :
  exists report, @TestFilter demo_runtime (Some (Some demo_filter, [demo_data; ∅])) = Json report /\
    RPassed report = 1%Z /\ RFailed report = 1%Z.
Proof.
  destruct (@valid_filters_can_be_tested demo_runtime demo_filter [demo_data; ∅]) as (report & Hr & _ & _ & _ & _ & Ht);
    [vm_compute; reflexivity | done|].
  exists report. split; [done|]. vm_compute in Hr. injection Hr as <-. done.
Defined.
