(* ===== verification/Sources.v ===== *)
(** * Sources of records (pkg/source/source.go, file.go, http.go, sql.go, pkg/executor/config_helper.go)

    The sources a pipeline reads to their end: files, HTTP with its pages and tokens, and SQL
    queries, with their construction from a configuration and from the map of a group.
    What a file holds is given by what the decoders of the standard library make of it; the
    server, the database and the file system are arguments. Reading is followed to its end:
    a cancelled context cuts it short. *)

From Stdlib Require Import String Ascii SpecFloat.
From stdpp Require Import pretty.
From S2P Require Import Prelude GoString GoValue GoTime ConfigV2 Processor.
Local Open Scope string_scope.
Local Open Scope list_scope.

(** ** The map of a group as a configuration (config_helper.go) *)

Definition str_field (cfg : Data) (k : string) : string :=
  match cfg !! k with Some (VString s) => s | _ => "" end.

(** The texts of a [[]any]; what is not a text is passed over. *)
Definition texts (l : list GoValue) : list string := omap (fun v => match v with VString s => Some s | _ => None end) l.

Definition strs_field (cfg : Data) (k : string) : list string :=
  match cfg !! k with Some (VSlice l) => texts l | _ => [] end.

(** [int(f)] for a [float64]: towards zero. A value out of range depends on the processor. *)
Definition int_of_float (f : spec_float) : Z :=
  match f with
  | S754_finite s m e => cond_Zopp s (if (0 <=? e)%Z then Zpos m * 2 ^ e else Zpos m / 2 ^ (- e))
  | _ => 0
  end.

Definition int_field (cfg : Data) (k : string) : Z :=
  match cfg !! k with Some (VFloat64 f) => int_of_float f | _ => 0 end.

Definition headers_field (cfg : Data) : gmap string string :=
  match cfg !! "headers" with
  | Some (VMap m) => omap (fun v => match v with VString s => Some s | _ => None end) m
  | _ => ∅
  end.

Definition auth_field (cfg : Data) : option AuthConfig :=
  match cfg !! "auth" with
  | Some (VMap a) =>
      Some (MkAuth (str_field a "type") (str_field a "username") (str_field a "password") (str_field a "token")
              (str_field a "client_id") (str_field a "client_secret") (str_field a "token_url") [])
  | _ => None
  end.

Definition uint32_field (cfg : Data) (k : string) : Z := (int_field cfg k mod 2 ^ 32)%Z.

Definition configToSourceV2 (cfg : Data) : SourceV2 :=
  MkSource (str_field cfg "type") (str_field cfg "path") (strs_field cfg "paths") (str_field cfg "format")
    (str_field cfg "driver") (str_field cfg "dsn") (str_field cfg "query") (strs_field cfg "params") None
    (str_field cfg "url") (str_field cfg "method") (headers_field cfg) (str_field cfg "body") (auth_field cfg) None
    (strs_field cfg "brokers") (strs_field cfg "topics") (str_field cfg "group_id") (str_field cfg "start_offset")
    (int_field cfg "min_bytes") (int_field cfg "max_bytes") (int_field cfg "max_wait") (int_field cfg "commit_interval")
    (str_field cfg "table") (str_field cfg "id_column") (str_field cfg "timestamp_column") (strs_field cfg "columns")
    (str_field cfg "where") (str_field cfg "order_by") (int_field cfg "batch_size") (int_field cfg "poll_interval")
    (str_field cfg "host") (int_field cfg "port") (str_field cfg "username") (str_field cfg "password")
    (str_field cfg "database") (strs_field cfg "tables") (uint32_field cfg "server_id") (str_field cfg "slot_name").

(** ** Files *)

Record FileSource := MkFileSource { f_paths : list string; f_format : string }.

(** What reading a line gives: the decoded object, or [None]. *)
Definition Line := option Data.

(** A file as the decoders see it. [JsonArray] has the elements up to one that does not
    decode, if there is one; [JsonOther] the lines the scanner finds; a scanner may end at
    a line that is too long. A CSV file has its header and its rows up to an error. *)
Inductive Content :=
| JsonEmpty
| JsonArray (elements : list Data) (ends : bool)
| JsonOther (lines : list Line) (scan_ok : bool)
| Csv (header : option (list string)) (rows : list (list string)) (ends : bool)
| TextLines (lines : list string) (scan_ok : bool).

Section Files.
(** [filepath.Glob]; [None] for a malformed pattern. *)
Context (glob : string -> option (list string)).
(** [os.Stat], and the file behind a path; [None] if it cannot be opened. *)
Context (exists_ : string -> bool) (open_file : string -> option Content).

Fixpoint expand (paths : list string) : res string (list string) :=
  match paths with
  | [] => Ok []
  | p :: rest =>
      match glob p with
      | None => Err ("invalid glob pattern " +:+ p)
      | Some matches =>
          expand rest ≫= fun l => Ok ((match matches with [] => [p] | _ => matches end) ++ l)
      end
  end.

Definition NewFileSource (cfg : SourceV2) : res string FileSource :=
  let paths := (if Path cfg =? "" then [] else [Path cfg]) ++ Paths cfg in
  expand paths ≫= fun expanded =>
  Ok (MkFileSource expanded (if Format cfg =? "" then "json" else Format cfg)).

Definition file_Open (s : FileSource) : res string unit :=
  for_each (fun p => if exists_ p then Ok tt else Err ("file not found: " +:+ p)) (f_paths s).

Definition file_record (path : string) (now : Z) (d : Data) : SrcRecord := MkRecord d (MkMetadata "file" path "" now).

(** [data[header] = row[i]] for the columns the row has. *)
Fixpoint csv_row (headers row : list string) (data : Data) : Data :=
  match headers, row with
  | h :: hs, v :: vs => csv_row hs vs (<[h := VString v]> data)
  | _, _ => data
  end.

Fixpoint number_lines (n : nat) (lines : list string) : list Data :=
  match lines with
  | [] => []
  | l :: rest => <["line" := VString l]> {["line_no" := VInt KInt (Z.of_nat (S n))]} :: number_lines (S n) rest
  end.

(** What a file yields, and whether an error ends it. A decoder of another format finds
    nothing it can use. *)
Definition readFile (format : string) (c : Content) : list Data * bool :=
  if format =? "json" then
    match c with
    | JsonArray l ends => (l, negb ends)
    | JsonOther lines _ => (omap id lines, false)
    | _ => ([], true)
    end
  else if format =? "csv" then
    match c with
    | Csv (Some h) rows ends => ((fun r => csv_row h r ∅) <$> rows, negb ends)
    | _ => ([], true)
    end
  else if format =? "lines" then
    match c with
    | TextLines lines scan_ok => (number_lines 0 lines, negb scan_ok)
    | _ => ([], true)
    end
  else ([], true).

(** The loop over the paths: the first error ends it. *)
Fixpoint read_files (format : string) (now : Z) (paths : list string) : list SrcRecord * option string :=
  match paths with
  | [] => ([], None)
  | p :: rest =>
      match open_file p with
      | None => ([], Some p)
      | Some c =>
          let '(l, failed) := readFile format c in
          let rs := file_record p now <$> l in
          if failed then (rs, Some p)
          else let '(more, e) := read_files format now rest in (rs ++ more, e)
      end
  end.

Definition file_Read (now : Z) (s : FileSource) : list SrcRecord * option string := read_files (f_format s) now (f_paths s).
End Files.

(** ** SQL *)

(** A value of a row as the driver gives it. *)
Inductive Cell := Bytes (s : string) | Val (v : GoValue).

Definition cell (c : Cell) : GoValue := match c with Bytes s => VString s | Val v => v end.

Fixpoint row_data (columns : list string) (row : list Cell) (data : Data) : Data :=
  match columns, row with
  | c :: cs, v :: vs => row_data cs vs (<[c := cell v]> data)
  | _, _ => data
  end.

Record SQLSource := MkSQLSource {
  q_driver : string;
  q_dsn : string;
  q_query : string;
  q_params : list string;
  q_incremental : option IncrementalConfig;
  q_open : bool
}.

Definition NewSQLSource (cfg : SourceV2) : SQLSource :=
  MkSQLSource (Driver cfg) (DSN cfg) (Query cfg) (Params cfg) (Incremental cfg) false.

(** The result of a query: its columns, its rows and the error that ends them. *)
Record Rows := MkRows { r_columns : list string; r_rows : list (list Cell); r_error : option string }.

Section SQL.
Context (connect : string -> string -> option string).
Context (run_query : string -> list string -> res string Rows).

Definition sql_Open (s : SQLSource) : res string SQLSource :=
  match connect (q_driver s) (q_dsn s) with
  | Some e => Err e
  | None => Ok (MkSQLSource (q_driver s) (q_dsn s) (q_query s) (q_params s) (q_incremental s) true)
  end.

Definition sql_record (s : SQLSource) (now : Z) (columns : list string) (row : list Cell) : SrcRecord :=
  MkRecord (row_data columns row ∅) (MkMetadata "sql" (q_dsn s) "" now).

(** [Panic] is the query on a source that was not opened. *)
Definition sql_Read (now : Z) (s : SQLSource) : res string (list SrcRecord * option string) :=
  if negb (q_open s) then Panic
  else
    match run_query (q_query s) (q_params s) with
    | Err e => Ok ([], Some ("query failed: " +:+ e))
    | Panic => Panic
    | Ok r => Ok (sql_record s now (r_columns r) <$> r_rows r, String.append "rows error: " <$> r_error r)
    end.
End SQL.

(** ** HTTP *)

Record HTTPSource := MkHTTPSource {
  h_url : string;
  h_method : string;
  h_headers : gmap string string;
  h_body : string;
  h_auth : option AuthConfig;
  h_pagination : option PaginationConfig;
  accessToken : string;
  tokenExpiry : Z
}.

Definition NewHTTPSource (cfg : SourceV2) : HTTPSource :=
  MkHTTPSource (URL cfg) (Method cfg) (Headers cfg) (Body cfg) (Auth cfg) (Pagination cfg) "" 0.

Definition set_token (t : string) (e : Z) (s : HTTPSource) : HTTPSource :=
  MkHTTPSource (h_url s) (h_method s) (h_headers s) (h_body s) (h_auth s) (h_pagination s) t e.

Record HTTPRequest := MkRequest { rq_method : string; rq_url : string; rq_headers : gmap string string; rq_body : string }.

(** An answer: its status, its body, and the object it decodes to. *)
Record HTTPResponse := MkResponse { rs_status : Z; rs_body : string; rs_json : option Data }.

(** The answer of a token endpoint, as far as it is read. *)
Definition token_answer (d : Data) : string * Z :=
  (str_field d "access_token", int_field d "expires_in").

Section HTTP.
(** The other side, asked with the number of requests so far; [None] if it cannot be reached.
    [base64] and [encode_form] are [encoding/base64] and [url.Values.Encode]. *)
Context (server : nat -> HTTPRequest -> option HTTPResponse).
Context (base64 : string -> string) (encode_form : list (string * string) -> string).

(** The source with its cached token, and the number of requests made. *)
Record Session := MkSession { src : HTTPSource; asked : nat }.

Definition ask (r : HTTPRequest) (st : Session) : option HTTPResponse * Session :=
  (server (asked st) r, MkSession (src st) (S (asked st))).

Definition token_request (a : AuthConfig) : HTTPRequest :=
  MkRequest "POST" (TokenURL a) {["Content-Type" := "application/x-www-form-urlencoded"]}
    (encode_form ([("client_id", ClientID a); ("client_secret", ClientSecret a); ("grant_type", "client_credentials")] ++
       match Scopes a with [] => [] | l => [("scope", Join l " ")] end)).

Definition getOAuth2Token (now : Z) (a : AuthConfig) (st : Session) : res string string * Session :=
  if negb (accessToken (src st) =? "") && (now <? tokenExpiry (src st))%Z then (Ok (accessToken (src st)), st)
  else
    let '(answer, st) := ask (token_request a) st in
    match answer with
    | None => (Err "token request failed", st)
    | Some r =>
        if negb (rs_status r =? 200)%Z then (Err ("token request failed " +:+ pretty (rs_status r) +:+ ": " +:+ rs_body r), st)
        else
          match rs_json r with
          | None => (Err "failed to decode token response", st)
          | Some d =>
              let '(token, expiresIn) := token_answer d in
              let expiry := (now + int64_wrap (int64_wrap (expiresIn - 60) * Second))%Z in
              (Ok token, MkSession (set_token token expiry (src st)) (asked st))
          end
    end.

(** [setAuth]: the header it adds. *)
Definition setAuth (now : Z) (st : Session) : res string (option string) * Session :=
  match h_auth (src st) with
  | None => (Ok None, st)
  | Some a =>
      if AuthType a =? "basic" then (Ok (Some ("Basic " +:+ base64 (AuthUsername a +:+ ":" +:+ AuthPassword a))), st)
      else if AuthType a =? "bearer" then (Ok (Some ("Bearer " +:+ Token a)), st)
      else if AuthType a =? "oauth2" then
        let '(r, st) := getOAuth2Token now a st in
        (match r with Ok t => Ok (Some ("Bearer " +:+ t)) | Err e => Err e | Panic => Panic end, st)
      else (Ok None, st)
  end.

(** The headers of a request; those of the configuration come after the fixed ones, the
    authorization comes last. The names are in their canonical form. *)
Definition request_headers (s : HTTPSource) (authorization : option string) : gmap string string :=
  let h := {["Accept" := "application/json"]} in
  let h := if h_body s =? "" then h else <["Content-Type" := "application/json"]> h in
  let h := h_headers s ∪ h in
  match authorization with Some a => <["Authorization" := a]> h | None => h end.

Definition doRequest (now : Z) (requestURL : string) (st : Session) : res string Data * Session :=
  let '(auth, st) := setAuth now st in
  match auth with
  | Err e => (Err e, st)
  | Panic => (Panic, st)
  | Ok auth =>
      let s := src st in
      let '(answer, st) := ask (MkRequest (h_method s) requestURL (request_headers s auth) (h_body s)) st in
      match answer with
      | None => (Err "request failed", st)
      | Some r =>
          if (400 <=? rs_status r)%Z then (Err ("http error " +:+ pretty (rs_status r) +:+ ": " +:+ rs_body r), st)
          else match rs_json r with
               | None => (Err "failed to decode response", st)
               | Some d => (Ok d, st)
               end
      end
  end.

Definition http_record (origin : string) (now : Z) (d : Data) : SrcRecord := MkRecord d (MkMetadata "http" origin "" now).

(** The items that are objects. *)
Definition objects (items : list GoValue) : list Data := omap (fun v => match v with VMap m => Some m | _ => None end) items.

Definition emitRecords (now : Z) (origin : string) (d : Data) : list SrcRecord :=
  match d !! "data" with
  | Some (VSlice arr) => http_record origin now <$> objects arr
  | _ => [http_record origin now d]
  end.

Definition readSingle (now : Z) (st : Session) : list SrcRecord * option string * Session :=
  let '(r, st) := doRequest now (h_url (src st)) st in
  match r with
  | Ok d => (emitRecords now (h_url (src st)) d, None, st)
  | Err e => ([], Some e, st)
  | Panic => ([], None, st)
  end.

(** The items of a page and the address of the next one, empty at the end. *)
Definition page_items (p : PaginationConfig) (d : Data) : list GoValue :=
  if DataField p =? "" then [VMap d]
  else match d !! DataField p with Some (VSlice l) => l | _ => [] end.
Definition next_page (p : PaginationConfig) (d : Data) : string :=
  if NextField p =? "" then "" else str_field d (NextField p).

Definition max_pages (p : PaginationConfig) : Z := if (MaxPages p =? 0)%Z then 100%Z else MaxPages p.

(** The loop; [remaining] is [maxPages - pageCount], [clock] the time of a page. *)
Fixpoint read_pages (p : PaginationConfig) (clock : nat -> Z) (page remaining : nat) (currentURL : string) (st : Session)
  : list SrcRecord * option string * Session :=
  match remaining with
  | O => ([], None, st)
  | S remaining =>
      if currentURL =? "" then ([], None, st)
      else
        let '(r, st) := doRequest (clock page) currentURL st in
        match r with
        | Err e => ([], Some ("page " +:+ pretty (S page) +:+ ": " +:+ e), st)
        | Panic => ([], None, st)
        | Ok d =>
            let rs := http_record currentURL (clock page) <$> objects (page_items p d) in
            let '(more, e, st) := read_pages p clock (S page) remaining (next_page p d) st in
            (rs ++ more, e, st)
        end
  end.

Definition http_Open (now : Z) (st : Session) : res string unit * Session :=
  match h_auth (src st) with
  | Some a =>
      if AuthType a =? "oauth2" then
        let '(r, st) := getOAuth2Token now a st in
        (match r with Ok _ => Ok tt | Err e => Err ("failed to get oauth2 token: " +:+ e) | Panic => Panic end, st)
      else (Ok tt, st)
  | None => (Ok tt, st)
  end.

Definition http_Read (clock : nat -> Z) (st : Session) : list SrcRecord * option string * Session :=
  match h_pagination (src st) with
  | Some p => read_pages p clock 0 (Z.to_nat (max_pages p)) (h_url (src st)) st
  | None => readSingle (clock 0) st
  end.
End HTTP.

(** ** Rows as records *)

Lemma row_data_ext columns row d k :
  k ∉ columns -> row_data columns row d !! k = d !! k.
Proof.
  revert row d. induction columns as [|c cs IH]; intros row d Hk; [by destruct row|].
  destruct row as [|v vs]; [done|]. cbn. rewrite IH by set_solver. rewrite lookup_insert_ne; [done|set_solver].
Qed.

(** With distinct columns a record has the value of every column of its row. *)
Lemma row_data_lookup columns row d i c v :
  NoDup columns -> columns !! i = Some c -> row !! i = Some v -> row_data columns row d !! c = Some (cell v).
Proof.
  revert row d i. induction columns as [|c0 cs IH]; intros row d i Hnd Hc Hv; [done|].
  apply NoDup_cons in Hnd as [Hnot Hnd]. destruct row as [|v0 vs]; [done|].
  destruct i as [|i]; cbn in *; [|by eapply IH].
  injection Hc as ->. injection Hv as ->. rewrite row_data_ext by done. apply lookup_insert_eq.
Qed.

Lemma csv_row_data headers row d : csv_row headers row d = row_data headers ((fun s => Val (VString s)) <$> row) d.
Proof. revert row d. induction headers as [|h hs IH]; intros [|v vs] d; csimpl; try done. Qed.

(** ** What the sources promise *)

(** The records of a CSV file are its rows, in order, each with the value of every column. *)
Theorem csv_is_read_faithfully path now h rows open_file i j row c v :
  open_file path = Some (Csv (Some h) rows true) -> NoDup h ->
  rows !! i = Some row -> h !! j = Some c -> row !! j = Some v ->
  let '(rs, e) := file_Read open_file now (MkFileSource [path] "csv") in
  e = None /\ List.length rs = List.length rows /\
  exists r, rs !! i = Some r /\ RecData r !! c = Some (VString v) /\ MdOrigin (RecMetadata r) = path.
Proof.
  intros Ho Hnd Hr Hc Hv. unfold file_Read. cbn. rewrite Ho. cbn. rewrite app_nil_r. split; [done|].
  split; [by rewrite !length_fmap|]. exists (file_record path now (csv_row h row ∅)).
  rewrite !list_lookup_fmap, Hr. split; [done|]. split; [|done]. cbn. rewrite csv_row_data.
  refine (row_data_lookup h _ ∅ j c (Val (VString v)) Hnd Hc _). by rewrite list_lookup_fmap, Hv.
Qed.

Lemma csv_is_read_faithfully_witness :
  let open_file (_ : string) := Some (Csv (Some ["id"; "name"]) [["1"; "kim"]; ["2"; "lee"]] true) in
  exists r, (file_Read open_file 0 (MkFileSource ["u.csv"] "csv")).1 !! 1 = Some r /\ RecData r !! "name" = Some (VString "lee").
Proof.
  intros open_file.
  destruct (csv_is_read_faithfully "u.csv" 0 ["id"; "name"] [["1"; "kim"]; ["2"; "lee"]] open_file 1 1 ["2"; "lee"] "name" "lee")
    as (_ & _ & r & H1 & H2 & _); try reflexivity; [repeat constructor; set_solver|].
  exists r. split; [exact H1 | exact H2].
Defined.

(** The files are read in order until one fails: what came before is delivered. *)
Theorem files_are_read_in_order open_file format now before p after :
  Forall (fun q => exists c, open_file q = Some c /\ (readFile format c).2 = false) before ->
  (open_file p = None \/ exists c, open_file p = Some c /\ (readFile format c).2 = true) ->
  exists rs, read_files open_file format now (before ++ p :: after) = (rs, Some p) /\
    rs = (before ++ [p]) ≫= fun q => from_option (fun c => file_record q now <$> (readFile format c).1) [] (open_file q).
Proof.
  intros Hb Hp. induction Hb as [|q before (c & Hc & Hok) _ IH]; cbn.
  - destruct Hp as [Hp|(c & Hp & Hf)]; rewrite Hp; cbn; [by eexists|].
    destruct (readFile format c) as [l f]. cbn in *. subst f. eexists. split; [done|]. by rewrite app_nil_r.
  - rewrite Hc. destruct IH as (rs & -> & ->). destruct (readFile format c) as [l f] eqn:E. cbn in *. subst f.
    eexists. split; [reflexivity|]. by rewrite E.
Qed.

(** A JSON file that is neither an array nor one object per line yields nothing and no
    error, and so does the rest of a file after a line that is too long. *)
Theorem unreadable_json_is_silent open_file now path lines scan_ok :
  open_file path = Some (JsonOther lines scan_ok) -> Forall (eq None) lines ->
  file_Read open_file now (MkFileSource [path] "json") = ([], None).
Proof.
  intros Ho Hl. unfold file_Read. cbn. rewrite Ho. cbn.
  assert (omap id lines = []) as ->; [|done]. clear Ho. induction Hl as [|x l <- _ IH]; [done|]. exact IH.
Qed.

Section HTTPPromises.
Context (server : nat -> HTTPRequest -> option HTTPResponse).
Context (base64 : string -> string) (encode_form : list (string * string) -> string).
#[local] Abbreviation doRequest := (doRequest server base64 encode_form).
#[local] Abbreviation read_pages := (read_pages server base64 encode_form).
#[local] Abbreviation getOAuth2Token := (getOAuth2Token server encode_form).

Lemma token_asks now a st : asked st <= asked (getOAuth2Token now a st).2 <= S (asked st).
Proof.
  unfold Sources.getOAuth2Token, ask. destruct (_ && _); [cbn; lia|].
  destruct (server _ _) as [r|]; [|cbn; lia]. destruct (negb _); [cbn; lia|]. destruct (rs_json r) as [d|]; cbn; lia.
Qed.

Lemma auth_asks now st : asked st <= asked (setAuth server base64 encode_form now st).2 <= S (asked st).
Proof.
  unfold setAuth. destruct (h_auth (src st)) as [a|]; [|cbn; lia].
  destruct (_ =? _); [cbn; lia|]. destruct (_ =? _); [cbn; lia|]. destruct (_ =? _); [|cbn; lia].
  pose proof (token_asks now a st). destruct (getOAuth2Token now a st) as [r st']. done.
Qed.

Lemma request_asks now url st : asked st <= asked (doRequest now url st).2 <= 2 + asked st.
Proof.
  unfold Sources.doRequest. pose proof (auth_asks now st) as Ha.
  destruct (setAuth _ _ _ now st) as [[auth|e|] st']; cbn in *; [|lia|lia].
  destruct (server _ _) as [r|]; cbn; [|lia]. destruct (400 <=? _)%Z; cbn; [lia|]. destruct (rs_json r); cbn; lia.
Qed.

(** Reading ends whatever the server answers: a run makes at most two requests for each of
    the pages it may read, one of them for a token. *)
Theorem pages_are_bounded p clock page n url st :
  asked st <= asked (read_pages p clock page n url st).2 <= asked st + 2 * n.
Proof.
  revert page url st. induction n as [|n IH]; intros page url st; cbn [Sources.read_pages]; [cbn; lia|].
  destruct (url =? ""); [cbn; lia|]. pose proof (request_asks (clock page) url st) as Hr.
  destruct (doRequest (clock page) url st) as [[d|e|] st']; cbn in *; [|lia|lia].
  specialize (IH (S page) (next_page p d) st'). destruct (read_pages p clock (S page) n (next_page p d) st') as [[rs e] st2].
  cbn in *. lia.
Qed.

(** The pages of a server that answers by address. *)
Fixpoint linked (p : PaginationConfig) (page_at : string -> option Data) (url : string) (l : list (string * Data)) : Prop :=
  match l with
  | [] => url = ""
  | (u, d) :: rest => url = u /\ u <> "" /\ page_at u = Some d /\ linked p page_at (next_page p d) rest
  end.

(** Against a server that answers by address, a source without a login reads all linked
    pages, when there are no more than it may read, and delivers their objects in order. *)
Theorem linked_pages_are_read p page_at clock page n url l st :
  (forall k r, server k r = (fun d => MkResponse 200 "" (Some d)) <$> page_at (rq_url r)) ->
  h_auth (src st) = None -> linked p page_at url l -> List.length l <= n ->
  (read_pages p clock page n url st).1 =
    (concat (imap (fun i '(u, d) => http_record u (clock (page + i)) <$> objects (page_items p d)) l), None).
Proof.
  intros Hs. revert page n url st. induction l as [|[u d] l IH]; intros page n url st Ha Hl Hn.
  - cbn in Hl. subst url. by destruct n.
  - destruct Hl as (-> & Hne & Hd & Hl). destruct n as [|n]; [cbn in Hn; lia|]. cbn [Sources.read_pages].
    apply String.eqb_neq in Hne as ->. unfold Sources.doRequest, setAuth. rewrite Ha. cbn [ask]. rewrite Hs. cbn [rq_url].
    rewrite Hd. cbn [fmap option_fmap option_map rs_status rs_json]. change (400 <=? 200)%Z with false. cbn match.
    specialize (IH (S page) n (next_page p d) (MkSession (src st) (S (asked st))) Ha Hl ltac:(cbn in Hn; lia)).
    destruct (read_pages p clock (S page) n (next_page p d) _) as [[rs e] st2]. cbn [fst] in *. injection IH as -> ->.
    cbn [imap concat]. rewrite Nat.add_0_r. f_equal. f_equal. f_equal. apply imap_ext. intros i [u' d'] _.
    unfold compose. by rewrite Nat.add_succ_r.
Qed.

(** A token is asked for once and used until a minute before it expires. *)
Theorem token_is_reused now now' a st token st' d :
  getOAuth2Token now a st = (Ok token, st') -> asked st' = S (asked st) -> token <> "" ->
  server (asked st) (token_request encode_form a) = Some (MkResponse 200 "" (Some d)) ->
  int64_ok (int_field d "expires_in" - 60) -> int64_ok ((int_field d "expires_in" - 60) * Second) ->
  (now' < now + (int_field d "expires_in" - 60) * Second)%Z ->
  getOAuth2Token now' a st' = (Ok token, st').
Proof.
  intros Hg Has Hne Hsrv H1 H2 Hlt. revert Hg. unfold Sources.getOAuth2Token at 1. destruct (_ && _) eqn:E.
  - intros [= _ <-]. lia.
  - unfold ask. rewrite Hsrv. cbn [rs_status rs_json]. change (negb (200 =? 200)%Z) with false. cbn match. unfold token_answer.
    rewrite (int64_wrap_small (int_field d "expires_in" - 60)) by done. rewrite int64_wrap_small by done.
    intros [= <- <-]. unfold Sources.getOAuth2Token. cbn [src accessToken tokenExpiry set_token].
    apply String.eqb_neq in Hne as ->.
    destruct (Z.ltb_spec now' (now + (int_field d "expires_in" - 60) * Second)); [done|lia].
Qed.

(** A source made from the map of a group asks one page only: the map has no pagination. *)
Theorem group_sources_do_not_paginate cfg clock :
  http_Read server base64 encode_form clock (MkSession (NewHTTPSource (configToSourceV2 cfg)) 0) =
  readSingle server base64 encode_form (clock 0) (MkSession (NewHTTPSource (configToSourceV2 cfg)) 0).
Proof. reflexivity. Qed.
End HTTPPromises.
