(* ===== verification/EventSources.v ===== *)
(** * Sources of events (pkg/source/sql_event.go, cdc.go, kafka.go, and the factories)

    The sources that do not end: a polled event table, change data capture from MySQL and
    Kafka, and the two factories of sources. The database, the replication client and the
    Kafka client are arguments: what a query answers, which row events arrive and which
    messages are fetched. *)

From Stdlib Require Import String Ascii SpecFloat.
From stdpp Require Import pretty.
From S2P Require Import Prelude GoString GoValue GoTime ConfigV2 Processor Sources.
Local Open Scope string_scope.
Local Open Scope list_scope.

(** ** A polled event table (sql_event.go) *)

Record SQLEventSource := MkEventSource {
  ev_driver : string;
  ev_dsn : string;
  ev_table : string;
  idColumn : string;
  timestampCol : string;
  ev_columns : list string;
  whereClause : string;
  orderBy : string;
  batchSize : Z;
  pollInterval : Z;
  ev_open : bool;
  lastID : Z;
  lastTimestamp : Z;
  ev_running : bool
}.

(** The zero time of Go. *)
Definition no_time : Z := -62135596800 * Second.

Definition NewSQLEventSource (cfg : SourceV2) : SQLEventSource :=
  let id := if IDColumn cfg =? "" then "id" else IDColumn cfg in
  MkEventSource (Driver cfg) (DSN cfg) (Table cfg) id (TimestampColumn cfg) (Columns cfg) (Where cfg)
    (if OrderBy cfg =? "" then id +:+ " ASC" else OrderBy cfg)
    (if (BatchSize cfg <=? 0)%Z then 1000%Z else BatchSize cfg)
    (if (0 <? PollInterval cfg)%Z then int64_wrap (PollInterval cfg * Millisecond) else Second)
    false 0 no_time false.

Definition set_event_state (open running : bool) (last : Z) (ts : Z) (s : SQLEventSource) : SQLEventSource :=
  MkEventSource (ev_driver s) (ev_dsn s) (ev_table s) (idColumn s) (timestampCol s) (ev_columns s) (whereClause s) (orderBy s)
    (batchSize s) (pollInterval s) open last ts running.

Definition event_Open (connect : string -> string -> option string) (s : SQLEventSource) : res string SQLEventSource :=
  match connect (ev_driver s) (ev_dsn s) with
  | Some e => Err e
  | None => Ok (set_event_state true (ev_running s) (lastID s) (lastTimestamp s) s)
  end.

Definition event_Close (s : SQLEventSource) : SQLEventSource :=
  set_event_state false false (lastID s) (lastTimestamp s) s.

Definition buildQuery (s : SQLEventSource) (last : Z) : string :=
  "SELECT " +:+ (match ev_columns s with [] => "*" | l => Join l ", " end) +:+ " FROM " +:+ ev_table s +:+
  " WHERE " +:+ idColumn s +:+ " > " +:+ pretty last +:+
  (if whereClause s =? "" then "" else " AND (" +:+ whereClause s +:+ ")") +:+
  " ORDER BY " +:+ orderBy s +:+ " LIMIT " +:+ pretty (batchSize s).

(** [toInt64]; the small integers are not among its cases. *)
Definition toInt64 (v : GoValue) : option Z :=
  match v with
  | VInt KInt z | VInt KInt32 z | VInt KInt64 z | VInt KUint z | VInt KUint32 z | VInt KUint64 z => Some (int64_wrap z)
  | VFloat32 f | VFloat64 f => Some (int_of_float f)
  | _ => None
  end.

(** The largest id among a row's columns of the id's name and [m]. *)
Fixpoint row_max_id (id : string) (columns : list string) (row : list Cell) (m : Z) : Z :=
  match columns, row with
  | c :: cs, v :: vs =>
      let m := if c =? id then match toInt64 (cell v) with Some n => if (m <? n)%Z then n else m | None => m end else m in
      row_max_id id cs vs m
  | _, _ => m
  end.

(** [fmt.Sprintf("%v", id)] of the id of a record; [format] prints a value. *)
Definition event_record (format : GoValue -> string) (s : SQLEventSource) (now : Z) (columns : list string) (row : list Cell) : SrcRecord :=
  let data := row_data columns row ∅ in
  MkRecord data (MkMetadata "sql_event" (ev_table s) (match data !! idColumn s with Some v => format v | None => "" end) now).

(** The end of a poll whose rows were all delivered. *)
Definition finish_poll (s : SQLEventSource) (r : Rows) (records : list SrcRecord) : list SrcRecord * option string * SQLEventSource :=
  match r_error r with
  | Some e => (records, Some ("rows error: " +:+ e), s)
  | None =>
      let maxID := foldl (fun m row => row_max_id (idColumn s) (r_columns r) row m) 0%Z (r_rows r) in
      let last := if (0 <? maxID)%Z && (lastID s <? maxID)%Z then maxID else lastID s in
      (records, None, set_event_state (ev_open s) (ev_running s) last (lastTimestamp s) s)
  end.

(** One poll: the records it delivers, its error, and the source afterwards. [cancelled] is
    the number of records after which the context is done, if it gets done. *)
Definition poll (format : GoValue -> string) (run_query : string -> res string Rows) (now : Z) (cancelled : option nat)
  (s : SQLEventSource) : list SrcRecord * option string * SQLEventSource :=
  if negb (ev_open s) then ([], Some "database not connected", s)
  else
    match run_query (buildQuery s (lastID s)) with
    | Err e => ([], Some ("query failed: " +:+ e), s)
    | Panic => ([], None, s)
    | Ok r =>
        let records := event_record format s now (r_columns r) <$> r_rows r in
        match cancelled with
        | Some k => if (k <? List.length records)%nat then (take k records, Some "context canceled", s)
                    else finish_poll s r records
        | None => finish_poll s r records
        end
    end.

(** What a tick of the loop meets: whether the source was closed before it, what the
    database answers, when the context gets done, and whether the channel of errors has room. *)
Record TickEnv := MkTick {
  t_closed : bool;
  t_query : string -> res string Rows;
  t_now : Z;
  t_cancelled : option nat;
  t_room : bool
}.

Definition poll_tick (format : GoValue -> string) (t : TickEnv) (s : SQLEventSource) : list SrcRecord * list string * SQLEventSource :=
  let '(rs, e, s) := poll format (t_query t) (t_now t) (t_cancelled t) s in
  (rs, match e with Some e => if t_room t then [e] else [] | None => [] end, s).

(** The ticks of the loop: it ends at the first one that finds the source closed. *)
Fixpoint event_ticks (format : GoValue -> string) (l : list TickEnv) (s : SQLEventSource) : list SrcRecord * list string * SQLEventSource :=
  match l with
  | [] => ([], [], s)
  | t :: l =>
      let s := if t_closed t then event_Close s else s in
      if negb (ev_running s) then ([], [], s)
      else
        let '(rs, es, s) := poll_tick format t s in
        let '(rs', es', s) := event_ticks format l s in
        (rs ++ rs', es ++ es', s)
  end.

(** [Read]: one poll at once, whatever the source's state, then one at each tick. *)
Definition event_Read (format : GoValue -> string) (first : TickEnv) (l : list TickEnv) (s : SQLEventSource)
  : list SrcRecord * list string * SQLEventSource :=
  let s := set_event_state (ev_open s) true (lastID s) (lastTimestamp s) s in
  let s := if t_closed first then event_Close s else s in
  let '(rs, es, s) := poll_tick format first s in
  let '(rs', es', s) := event_ticks format l s in
  (rs ++ rs', es ++ es', s).

(** A value of a checkpoint; a time is a value of its own. *)
Inductive Mark := MarkValue (v : GoValue) | MarkTime (t : Z).

Definition event_GetCheckpoint (s : SQLEventSource) : gmap string Mark :=
  <["last_id" := MarkValue (VInt KInt64 (lastID s))]> {["last_timestamp" := MarkTime (lastTimestamp s)]}.

Definition event_SetCheckpoint (c : gmap string Mark) (s : SQLEventSource) : SQLEventSource :=
  let last := match c !! "last_id" with
              | Some (MarkValue v) => default (lastID s) (toInt64 v)
              | _ => lastID s
              end in
  let ts := match c !! "last_timestamp" with Some (MarkTime t) => t | _ => lastTimestamp s end in
  set_event_state (ev_open s) (ev_running s) last ts s.

(** ** Change data capture (cdc.go) *)

Definition CDCEventInsert := "insert".
Definition CDCEventUpdate := "update".
Definition CDCEventDelete := "delete".

Record CDCEvent := MkCDCEvent {
  CE_Type : string;
  CE_Database : string;
  CE_Table : string;
  CE_Timestamp : Z;
  CE_Data : Data;
  CE_OldData : option Data;
  CE_PrimaryKey : list GoValue
}.

(** A position in the binary log. *)
Record Position := MkPosition { PosName : string; PosPos : Z }.

Record CDCSource := MkCDCSource {
  c_driver : string;
  c_host : string;
  c_port : Z;
  c_username : string;
  c_password : string;
  c_database : string;
  c_tables : list string;
  c_serverID : Z;
  c_slotName : string;
  c_canal : bool;
  c_running : bool;
  position : Position;
  eventCh : list CDCEvent
}.

Definition event_capacity : nat := 1000.

Definition NewCDCSource (cfg : SourceV2) : CDCSource :=
  MkCDCSource (Driver cfg) (Host cfg) (if (0 <? Port cfg)%Z then (Port cfg mod 2 ^ 16)%Z else 3306%Z) (Username cfg) (Password cfg)
    (Database cfg) (Tables cfg) (if (0 <? ServerID cfg)%Z then ServerID cfg else 101%Z) (SlotName cfg) false false
    (MkPosition "" 0) [].

Definition set_cdc (canal running : bool) (pos : Position) (q : list CDCEvent) (s : CDCSource) : CDCSource :=
  MkCDCSource (c_driver s) (c_host s) (c_port s) (c_username s) (c_password s) (c_database s) (c_tables s) (c_serverID s)
    (c_slotName s) canal running pos q.

(** [new_canal] is the error of the replication client for these settings, if any. *)
Definition cdc_Open (new_canal : CDCSource -> option string) (s : CDCSource) : res string CDCSource :=
  if c_driver s =? "mysql" then
    match new_canal s with
    | Some e => Err ("failed to create canal: " +:+ e)
    | None => Ok (set_cdc true (c_running s) (position s) (eventCh s) s)
    end
  else if c_driver s =? "postgres" then Err "PostgreSQL CDC not implemented yet - use pglogrepl library"
  else Err ("unsupported CDC driver: " +:+ c_driver s).

Definition cdc_Close (s : CDCSource) : CDCSource := set_cdc false false (position s) (eventCh s) s.

(** A table and the rows of an event as the client gives them. *)
Record RowsEvent := MkRowsEvent {
  Action : string;
  ESchema : string;
  ETable : string;
  EColumns : list string;
  PKColumns : list nat;
  ERows : list (list Cell)
}.

Definition rowToMap (columns : list string) (row : list Cell) : Data := row_data columns row ∅.

(** The key keeps byte slices as they are; [bytes_value] is such a value. *)
Definition getPrimaryKeyValues (bytes_value : string -> GoValue) (pk : list nat) (row : list Cell) : list GoValue :=
  omap (fun i => (fun c => match c with Bytes b => bytes_value b | Val v => v end) <$> row !! i) pk.

(** A send that does not wait: a full channel drops the event. *)
Definition offer (q : list CDCEvent) (e : CDCEvent) : list CDCEvent :=
  if (List.length q <? event_capacity)%nat then q ++ [e] else q.

Section CDC.
Context (bytes_value : string -> GoValue) (now : Z).

(** The rows of an update come in pairs, the old one first; a last row without its pair
    is passed over. *)
Fixpoint update_events (e : RowsEvent) (rows : list (list Cell)) : list CDCEvent :=
  match rows with
  | old :: new :: rest =>
      MkCDCEvent CDCEventUpdate (ESchema e) (ETable e) now (rowToMap (EColumns e) new) (Some (rowToMap (EColumns e) old))
        (getPrimaryKeyValues bytes_value (PKColumns e) new) :: update_events e rest
  | _ => []
  end.

Definition row_event (type : string) (e : RowsEvent) (row : list Cell) : CDCEvent :=
  let m := rowToMap (EColumns e) row in
  MkCDCEvent type (ESchema e) (ETable e) now (if type =? CDCEventDelete then ∅ else m)
    (if type =? CDCEventDelete then Some m else None) (getPrimaryKeyValues bytes_value (PKColumns e) row).

Definition events_of (e : RowsEvent) : list CDCEvent :=
  if Action e =? "update" then update_events e (ERows e)
  else if Action e =? "insert" then row_event CDCEventInsert e <$> ERows e
  else if Action e =? "delete" then row_event CDCEventDelete e <$> ERows e
  else [].

Definition OnRow (e : RowsEvent) (s : CDCSource) : CDCSource :=
  if c_running s then set_cdc (c_canal s) (c_running s) (position s) (foldl offer (eventCh s) (events_of e)) s else s.
End CDC.

Definition OnPosSynced (p : Position) (s : CDCSource) : CDCSource := set_cdc (c_canal s) (c_running s) p (eventCh s) s.

(** [time_value] is a time as a value of a record. *)
Definition convertEventToRecord (time_value : Z -> GoValue) (e : CDCEvent) : SrcRecord :=
  let data : Data := <["_cdc_type" := VString (CE_Type e)]> (<["_database" := VString (CE_Database e)]>
    (<["_table" := VString (CE_Table e)]> {["_timestamp" := time_value (CE_Timestamp e)]})) in
  let data := CE_Data e ∪ data in
  let data := match CE_OldData e with Some old => <["_old_data" := VMap old]> data | None => data end in
  let data := match CE_PrimaryKey e with [] => data | pk => <["_primary_key" := VSlice pk]> data end in
  MkRecord data (MkMetadata "cdc" (CE_Database e +:+ "." +:+ CE_Table e) "" (CE_Timestamp e / Millisecond)).

Definition cdc_GetCheckpoint (s : CDCSource) : Data :=
  <["binlog_file" := VString (PosName (position s))]> {["binlog_pos" := VInt KUint32 (PosPos (position s))]}.

Definition cdc_SetCheckpoint (c : Data) (s : CDCSource) : CDCSource :=
  let name := match c !! "binlog_file" with Some (VString n) => n | _ => PosName (position s) end in
  let pos := match c !! "binlog_pos" with
             | Some (VInt KUint32 p) => p
             | Some (VFloat64 f) => (int_of_float f mod 2 ^ 32)%Z
             | _ => PosPos (position s)
             end in
  set_cdc (c_canal s) (c_running s) (MkPosition name pos) (eventCh s) s.

(** The two goroutines of [Read] and the channels they share. The first one starts the
    client or gives up, the second one forwards events until the context is done. *)
Record ReadState := MkRead { starter_done : bool; forwarder_done : bool; records_open : bool; errs_open : bool; crashed : bool }.

Definition read_started : ReadState := MkRead false false true true false.

(** [close(records)] and [close(errs)]: closing a closed channel panics. *)
Definition close_both (st : ReadState) : ReadState :=
  MkRead (starter_done st) (forwarder_done st) false false (crashed st || negb (records_open st) || negb (errs_open st)).

(** [ready]: the canal is there and its position could be read. *)
Inductive read_step (ready : bool) : ReadState -> ReadState -> Prop :=
| starter_runs st : starter_done st = false -> crashed st = false ->
    read_step ready st
      (let st := MkRead true (forwarder_done st) (records_open st) (errs_open st) (crashed st) in
       if ready then st else close_both st)
| forwarder_sends st : forwarder_done st = false -> crashed st = false ->
    read_step ready st (MkRead (starter_done st) false (records_open st) (errs_open st) (negb (records_open st)))
| forwarder_ends st : forwarder_done st = false -> crashed st = false ->
    read_step ready st (close_both (MkRead (starter_done st) true (records_open st) (errs_open st) (crashed st))).

(** ** Kafka (kafka.go) *)

Inductive StartOffset := FirstOffset | LastOffset.

Record ReaderConfig := MkReader {
  rd_brokers : list string;
  rd_topic : string;
  rd_group : string;
  rd_minBytes : Z;
  rd_maxBytes : Z;
  rd_maxWait : Z;
  rd_start : StartOffset;
  rd_commitInterval : Z
}.

Record KafkaSource := MkKafkaSource {
  k_brokers : list string;
  k_topics : list string;
  groupID : string;
  startOffset : StartOffset;
  minBytes : Z;
  maxBytes : Z;
  maxWait : Z;
  commitInterval : Z;
  readers : list ReaderConfig;
  checkpoints : gmap string Z
}.

Definition positive_or (n def : Z) : Z := if (0 <? n)%Z then n else def.
Definition millis_or (n def : Z) : Z := if (0 <? n)%Z then int64_wrap (n * Millisecond) else def.

Definition NewKafkaSource (cfg : SourceV2) : KafkaSource :=
  MkKafkaSource (Brokers cfg) (Topics cfg) (ConsumerGroup cfg)
    (if (ConfigV2.StartOffset cfg =? "earliest") || (ConfigV2.StartOffset cfg =? "beginning") then FirstOffset else LastOffset)
    (positive_or (MinBytes cfg) 1) (positive_or (MaxBytes cfg) (10 * 1024 * 1024))
    (millis_or (MaxWait cfg) (500 * Millisecond)) (millis_or (CommitInterval cfg) Second) [] ∅.

Definition set_readers (l : list ReaderConfig) (s : KafkaSource) : KafkaSource :=
  MkKafkaSource (k_brokers s) (k_topics s) (groupID s) (startOffset s) (minBytes s) (maxBytes s) (maxWait s) (commitInterval s)
    l (checkpoints s).
Definition set_checkpoints (m : gmap string Z) (s : KafkaSource) : KafkaSource :=
  MkKafkaSource (k_brokers s) (k_topics s) (groupID s) (startOffset s) (minBytes s) (maxBytes s) (maxWait s) (commitInterval s)
    (readers s) m.

Definition reader_for (s : KafkaSource) (topic : string) : ReaderConfig :=
  MkReader (k_brokers s) topic (groupID s) (minBytes s) (maxBytes s) (maxWait s) (startOffset s) (commitInterval s).

Definition kafka_Open (s : KafkaSource) : KafkaSource := set_readers (readers s ++ (reader_for s <$> k_topics s)) s.

(** [refused] are the errors of the readers that do not close. *)
Definition kafka_Close (refused : ReaderConfig -> option string) (s : KafkaSource) : list string * KafkaSource :=
  (omap refused (readers s), set_readers [] s).

Definition checkpoint_key (topic : string) (partition : Z) : string := topic +:+ "-" +:+ pretty partition.

Definition updateCheckpoint (topic : string) (partition offset : Z) (s : KafkaSource) : KafkaSource :=
  set_checkpoints (<[checkpoint_key topic partition := offset]> (checkpoints s)) s.

Definition GetCheckpoints (s : KafkaSource) : gmap string Z := checkpoints s.
Definition SetCheckpoints (m : gmap string Z) (s : KafkaSource) : KafkaSource := set_checkpoints (m ∪ checkpoints s) s.

(** A message; its value as [json.Unmarshal] reads it into a map, where [null] gives a nil map. *)
Inductive Decoded := NotAnObject | JsonNull | JsonObject (d : Data).

Record Message := MkMessage {
  Topic : string;
  Partition : Z;
  Offset : Z;
  Key : string;
  MsgValue : string;
  MsgJson : Decoded;
  MsgHeaders : list (string * string);
  MsgTime : Z
}.

Definition message_headers (m : Message) : gmap string GoValue :=
  foldl (fun h '(k, v) => <[k := VString v]> h) ∅ (MsgHeaders m).

(** [None] is the assignment to an entry of a nil map. *)
Definition message_data (m : Message) : option Data :=
  let data := match MsgJson m with
              | NotAnObject => Some (<["key" := VString (Key m)]> {["value" := VString (MsgValue m)]} : Data)
              | JsonNull => None
              | JsonObject d => Some d
              end in
  match data with
  | None => if (match MsgHeaders m with [] => true | _ => false end) && (Key m =? "") then Some ∅ else None
  | Some d =>
      let d := match MsgHeaders m with [] => d | _ => <["_headers" := VMap (message_headers m)]> d end in
      Some (if Key m =? "" then d else <["_key" := VString (Key m)]> d)
  end.

Definition message_record (m : Message) (d : Data) : SrcRecord :=
  MkRecord d (MkMetadata "kafka" (Topic m) (pretty (Partition m) +:+ ":" +:+ pretty (Offset m)) (MsgTime m / Millisecond)).

(** What a reader fetches next: a message, delivered unless the context is done at the
    send, the end of the context, or an error. *)
Inductive Fetch := Fetched (m : Message) (delivered : bool) | ContextDone | ReadError (e : string).

(** The loop over one reader: records, the error it reports, the source; [None] is the panic. *)
Fixpoint readFromReader (l : list Fetch) (s : KafkaSource) : option (list SrcRecord * option string * KafkaSource) :=
  match l with
  | [] => Some ([], None, s)
  | ContextDone :: _ => Some ([], None, s)
  | ReadError e :: _ => Some ([], Some ("read message: " +:+ e), s)
  | Fetched m delivered :: rest =>
      let s := updateCheckpoint (Topic m) (Partition m) (Offset m) s in
      d ← message_data m;
      if delivered then
        '(rs, e, s) ← readFromReader rest s;
        Some (message_record m d :: rs, e, s)
      else Some ([], None, s)
  end.

(** ** The factories *)

Inductive Source :=
| SrcFile (s : FileSource)
| SrcSQL (s : SQLSource)
| SrcHTTP (s : HTTPSource)
| SrcKafka (s : KafkaSource)
| SrcSQLEvent (s : SQLEventSource)
| SrcCDC (s : CDCSource).

Definition NewSource (glob : string -> option (list string)) (cfg : SourceV2) : res string Source :=
  if SrcType cfg =? "file" then SrcFile <$> NewFileSource glob cfg
  else if SrcType cfg =? "sql" then Ok (SrcSQL (NewSQLSource cfg))
  else if (SrcType cfg =? "http") || (SrcType cfg =? "rest_api") then Ok (SrcHTTP (NewHTTPSource cfg))
  else if SrcType cfg =? "kafka" then Ok (SrcKafka (NewKafkaSource cfg))
  else if SrcType cfg =? "sql_event" then Ok (SrcSQLEvent (NewSQLEventSource cfg))
  else if SrcType cfg =? "cdc" then Ok (SrcCDC (NewCDCSource cfg))
  else Err ("unsupported source type: " +:+ SrcType cfg).

(** The factory of the group executor; [marshal] is the JSON of the map. *)
Definition createSource (glob : string -> option (list string)) (marshal : Data -> string) (type : string) (config : Data)
  : res string Source :=
  let cfg := configToSourceV2 config in
  if type =? "kafka" then Ok (SrcKafka (NewKafkaSource cfg))
  else if (type =? "rest_api") || (type =? "http") then Ok (SrcHTTP (NewHTTPSource cfg))
  else if type =? "sql" then Ok (SrcSQL (NewSQLSource cfg))
  else if type =? "sql_event" then Ok (SrcSQLEvent (NewSQLEventSource cfg))
  else if type =? "cdc" then Ok (SrcCDC (NewCDCSource cfg))
  else if type =? "file" then SrcFile <$> NewFileSource glob cfg
  else Err ("unsupported source type: " +:+ type +:+ " (config: " +:+ marshal config +:+ ")").

Record PartitionConfig := MkPartition { PartID : string; PartName : string; PartConfig : Data; PartEnabled : bool }.

(** The sources of a partitioned source: one for each enabled partition, with the
    configuration of the partition over that of the source. *)
Definition partition_sources (glob : string -> option (list string)) (marshal : Data -> string) (type : string) (config : Data)
  (l : list PartitionConfig) : list (res string Source) :=
  (fun p => createSource glob marshal type (PartConfig p ∪ config)) <$> List.filter PartEnabled l.

(** ** Polling an append-only table

    The rows of a table that only grows, in the order of positive ids that only grow. *)

Section Polling.
Context (format : GoValue -> string) (columns : list string) (id : string).

Definition row_id (row : list Cell) : Z := row_max_id id columns row 0.

(** *** The database

    The statements a source may send differ in the comparison with the last id, in the
    order and in the limit, and the database takes each of them as SQL does: without
    [ORDER BY] the rows come in any order, without [LIMIT] all of them come. [wanted] is
    what the additional condition says of a row. *)
Inductive Comparison := Above | AtLeast.
Inductive Direction := ASC | DESC.

Definition select_text (s : SQLEventSource) (cmp : Comparison) (order : option Direction) (limited : bool) : string :=
  "SELECT " +:+ (match ev_columns s with [] => "*" | l => Join l ", " end) +:+ " FROM " +:+ ev_table s +:+
  " WHERE " +:+ idColumn s +:+ (match cmp with Above => " > " | AtLeast => " >= " end) +:+ pretty (lastID s) +:+
  (if whereClause s =? "" then "" else " AND (" +:+ whereClause s +:+ ")") +:+
  (match order with
   | None => ""
   | Some ASC => " ORDER BY " +:+ (idColumn s +:+ " ASC")
   | Some DESC => " ORDER BY " +:+ (idColumn s +:+ " DESC")
   end) +:+
  (if limited then " LIMIT " +:+ pretty (batchSize s) else "").

Context (wanted : list Cell -> bool).

(** The rows of a table that satisfy the additional condition. *)
Definition visible (s : SQLEventSource) (table : list (list Cell)) : list (list Cell) :=
  List.filter (fun row => (whereClause s =? "") || wanted row) table.

Definition compares (cmp : Comparison) (last : Z) (row : list Cell) : bool :=
  match cmp with Above => (last <? row_id row)%Z | AtLeast => (last <=? row_id row)%Z end.

Definition ordered (order : option Direction) (rows : list (list Cell)) : Prop :=
  match order with
  | None => True
  | Some ASC => StronglySorted Z.le (row_id <$> rows)
  | Some DESC => StronglySorted Z.ge (row_id <$> rows)
  end.

Definition selects (s : SQLEventSource) (cmp : Comparison) (order : option Direction) (limited : bool)
    (table rows : list (list Cell)) : Prop :=
  exists all, all ≡ₚ List.filter (compares cmp (lastID s)) (visible s table) /\ ordered order all /\
    rows = if limited then take (Z.to_nat (batchSize s)) all else all.

Definition answers (s : SQLEventSource) (run_query : string -> res string Rows) (table : list (list Cell)) : Prop :=
  forall cmp order limited, exists rows,
    run_query (select_text s cmp order limited) = Ok (MkRows columns rows None) /\
    selects s cmp order limited table rows.

(** Polls of a table seen at different times. *)
Inductive polls : SQLEventSource -> list (list (list Cell)) -> list SrcRecord -> SQLEventSource -> Prop :=
| polls_none s : polls s [] [] s
| polls_one s now run_query table tables rs s' rs' s'' :
    answers s run_query table ->
    poll format run_query now None s = (rs, None, s') ->
    polls s' tables rs' s'' ->
    polls s (table :: tables) (rs ++ rs') s''.

(** The ids of a table grow. *)
Definition ascending (table : list (list Cell)) : Prop := StronglySorted Z.lt (0%Z :: (row_id <$> table)).

(** How many rows were delivered when [k] were before. *)
Definition progress (batch : nat) (k : nat) (tables : list (list (list Cell))) : nat :=
  foldl (fun k table => Nat.max k (Nat.min (List.length table) (k + batch))) k tables.

(** The last delivered id. *)
Definition mark (table : list (list Cell)) (k : nat) : Z := default 0%Z (last (row_id <$> take k table)).

Lemma row_max_id_max cols row m :
  (0 <= m)%Z -> row_max_id id cols row m = Z.max m (row_max_id id cols row 0).
Proof.
  revert row m. induction cols as [|c cs IH]; intros [|v vs] m Hm; cbn; try lia.
  destruct (c =? id); [|by apply IH]. destruct (toInt64 (cell v)) as [n|]; [|by apply IH].
  destruct (Z.ltb_spec m n), (Z.ltb_spec 0 n); try lia; [| |by apply IH].
  - rewrite (IH vs n) by lia. lia.
  - rewrite (IH vs m), (IH vs n) by lia. lia.
Qed.

Lemma fold_row_max rows m :
  (0 <= m)%Z -> foldl (fun m row => row_max_id id columns row m) m rows = foldl Z.max m (row_id <$> rows).
Proof.
  revert m. induction rows as [|r rs IH]; intros m Hm; csimpl; [done|].
  rewrite row_max_id_max by done. apply IH. lia.
Qed.

Lemma foldl_max_sorted m l : StronglySorted Z.lt (m :: l) -> foldl Z.max m l = default m (last l).
Proof.
  revert m. induction l as [|x l IH]; intros m Hs; [done|]. cbn [foldl].
  apply StronglySorted_inv in Hs as [Hs Hf]. inversion Hf as [|? ? Hx _]; subst. rewrite Z.max_r by lia.
  rewrite IH, last_cons by done. by destruct (last l).
Qed.

Lemma filter_all {A} (p : A -> bool) l : Forall (fun x => p x = true) l -> List.filter p l = l.
Proof. induction 1 as [|x l Hx _ IH]; cbn; [done|]. by rewrite Hx, IH. Qed.

Lemma sorted_default x l : StronglySorted Z.lt (x :: l) -> (x <= default x (last l))%Z.
Proof.
  intros [_ Hf]%StronglySorted_inv. destruct (last l) as [y|] eqn:Hl; cbn; [|lia].
  rewrite Forall_forall in Hf. apply last_Some_elem_of in Hl. specialize (Hf y Hl). lia.
Qed.

Lemma StronglySorted_take {A} (R : relation A) k l : StronglySorted R l -> StronglySorted R (take k l).
Proof.
  intros H. revert k. induction H as [|x l _ IH Hf]; intros [|k]; cbn; constructor; [done|]. by apply Forall_take.
Qed.

(** After [k] delivered rows the database answers with the next ones. *)
Lemma newer_after x table k :
  StronglySorted Z.lt (x :: (row_id <$> table)) ->
  List.filter (fun row => default x (last (row_id <$> take k table)) <? row_id row)%Z table = drop k table.
Proof.
  revert x k. induction table as [|r t IH]; intros x k Hs; [by destruct k|].
  assert (Hs' := Hs). apply StronglySorted_inv in Hs' as [Hs' Hf]. destruct k as [|k]; cbn [take drop].
  - apply filter_all. rewrite Forall_fmap in Hf. eapply Forall_impl; [done|]. cbn. intros row Hr. by apply Z.ltb_lt.
  - csimpl. replace (default x _) with (default (row_id r) (last (row_id <$> take k t))).
    + rewrite (proj2 (Z.ltb_ge _ _)); [by apply IH|]. apply sorted_default. rewrite fmap_take.
      by apply (StronglySorted_take _ (S k)) in Hs'.
    + rewrite last_cons. by destruct (last _).
Qed.

Lemma newer_seen final k table :
  ascending final -> table `prefix_of` final ->
  List.filter (fun row => mark final k <? row_id row)%Z table = drop k table.
Proof.
  intros Hs [u ->]. unfold mark. destruct (decide (k <= List.length table)) as [Hk|Hk].
  - rewrite take_app_le by done. apply newer_after. unfold ascending in Hs. rewrite fmap_app in Hs.
    by apply (StronglySorted_app_1_l _ (0%Z :: _)) in Hs.
  - pose proof (newer_after 0 (take k (table ++ u)) k) as H. rewrite take_take, Nat.min_id in H.
    rewrite (drop_ge (take k _)) in H by (rewrite length_take; lia). rewrite take_app_ge in H |- * by lia.
    rewrite List.filter_app in H. rewrite (drop_ge table) by lia.
    refine (proj1 (proj1 (app_nil _ _) (H _))). unfold ascending in Hs. rewrite <- (take_drop (k - List.length table) u) in Hs.
    rewrite app_assoc, fmap_app in Hs. by apply (StronglySorted_app_1_l _ (0%Z :: _)) in Hs.
Qed.

(** The rows of a poll extend the delivered prefix. *)
Lemma batch_extends (final : list (list Cell)) k b table :
  table `prefix_of` final ->
  take (Nat.max k (Nat.min (List.length table) (k + b))) final = take k final ++ take b (drop k table).
Proof.
  intros [u ->]. destruct (decide (k <= List.length table)) as [Hk|Hk].
  - rewrite Nat.max_r, !take_app_le by lia. rewrite take_take_drop.
    destruct (decide (List.length table <= k + b)); [|by rewrite Nat.min_r by lia].
    rewrite Nat.min_l by lia. by rewrite !take_ge by lia.
  - rewrite Nat.max_l, (drop_ge table) by lia. by rewrite take_nil, app_nil_r.
Qed.

Lemma mark_extends final k b table :
  ascending final -> table `prefix_of` final ->
  let delivered := row_id <$> take b (drop k table) in
  let maxID := foldl Z.max 0%Z delivered in
  (if (0 <? maxID)%Z && (mark final k <? maxID)%Z then maxID else mark final k) =
  mark final (Nat.max k (Nat.min (List.length table) (k + b))).
Proof.
  intros Hs Hp delivered maxID. unfold mark at 3. rewrite batch_extends, fmap_app by done. fold delivered.
  assert (Hd : StronglySorted Z.lt (0%Z :: (row_id <$> take k final) ++ delivered)).
  { apply (StronglySorted_take _ (S (Nat.max k (Nat.min (List.length table) (k + b))))) in Hs. cbn [take] in Hs.
    by rewrite <- fmap_take, batch_extends, fmap_app in Hs. }
  assert (Hm : StronglySorted Z.lt (mark final k :: delivered)).
  { unfold mark. clearbody delivered. clear -Hd. revert Hd. generalize 0%Z.
    induction (row_id <$> take k final) as [|x l IH]; intros z Hz; [done|].
    rewrite last_cons. apply StronglySorted_inv in Hz as [Hz _]. specialize (IH x Hz). by destruct (last l). }
  assert (H0 : StronglySorted Z.lt (0%Z :: delivered)).
  { apply StronglySorted_cons in Hd as [Hf Hd]. apply Forall_app in Hf as [_ Hf].
    apply StronglySorted_cons. split; [done|]. by apply StronglySorted_cons in Hm as [_ Hm]. }
  unfold maxID. rewrite foldl_max_sorted by done. clearbody delivered. rewrite last_app.
  destruct (last delivered) as [y|] eqn:Hy; [|done]. cbn. apply last_Some_elem_of in Hy.
  apply StronglySorted_inv in Hm as [_ Hm], H0 as [_ H0]. rewrite Forall_forall in Hm, H0.
  specialize (Hm y Hy). specialize (H0 y Hy). by rewrite !(proj2 (Z.ltb_lt _ _)) by lia.
Qed.

Lemma sorted_rows_unique l l' :
  StronglySorted Z.lt (row_id <$> l) -> StronglySorted Z.le (row_id <$> l') -> l' ≡ₚ l -> l' = l.
Proof.
  revert l'. induction l as [|x l IH]; intros l' Hl Hl' Hp; [by apply Permutation_nil_r in Hp|].
  destruct l' as [|y l']; [by apply Permutation_nil_l in Hp|].
  rewrite fmap_cons in Hl, Hl'. apply StronglySorted_inv in Hl as [Hl Hx], Hl' as [Hl' Hy]. rewrite Forall_fmap, Forall_forall in Hx, Hy.
  assert (y = x) as ->; [|f_equal; apply IH; [done..|]; by apply Permutation_cons_inv in Hp].
  assert (y ∈ x :: l) as [?|Hin]%elem_of_cons by (rewrite <- Hp; apply list_elem_of_here); [done|].
  assert (x ∈ y :: l') as [?|Hin']%elem_of_cons by (rewrite Hp; apply list_elem_of_here); [done|].
  specialize (Hx _ Hin). specialize (Hy _ Hin'). cbn in *. lia.
Qed.

Lemma SSorted_filter (p : list Cell -> bool) l :
  StronglySorted Z.lt (row_id <$> l) -> StronglySorted Z.lt (row_id <$> List.filter p l).
Proof.
  induction l as [|x l IH]; [done|]. rewrite fmap_cons. intros [Hl Hf]%StronglySorted_inv. cbn [List.filter].
  destruct (p x); [|by apply IH]. rewrite fmap_cons. constructor; [by apply IH|].
  rewrite Forall_fmap, Forall_forall in Hf |- *. intros y Hy. apply Hf.
  apply list_elem_of_In in Hy. apply list_elem_of_In. by apply List.filter_In in Hy as [? _].
Qed.

Lemma ascending_visible s l : ascending l -> ascending (visible s l).
Proof.
  unfold ascending, visible. intros [Hl Hf]%StronglySorted_inv. constructor; [by apply SSorted_filter|].
  rewrite Forall_fmap, Forall_forall in Hf |- *. intros y Hy. apply Hf.
  apply list_elem_of_In in Hy. apply list_elem_of_In. by apply List.filter_In in Hy as [? _].
Qed.

Lemma prefix_visible s l l' : l `prefix_of` l' -> visible s l `prefix_of` visible s l'.
Proof. intros [u ->]. unfold visible. rewrite List.filter_app. by apply prefix_app_r. Qed.

(** The query a source with the default order sends, and its answer. *)
Lemma buildQuery_text s :
  orderBy s = idColumn s +:+ " ASC" -> buildQuery s (lastID s) = select_text s Above (Some ASC) true.
Proof. intros H. unfold buildQuery, select_text. by rewrite H. Qed.

Lemma query_answer s run_query table :
  orderBy s = idColumn s +:+ " ASC" -> StronglySorted Z.lt (row_id <$> visible s table) ->
  answers s run_query table ->
  run_query (buildQuery s (lastID s)) =
    Ok (MkRows columns (take (Z.to_nat (batchSize s))
          (List.filter (fun row => lastID s <? row_id row)%Z (visible s table))) None).
Proof.
  intros Ho Hs Ha. rewrite (buildQuery_text s Ho).
  destruct (Ha Above (Some ASC) true) as (rows & -> & all & Hp & Hord & ->). do 3 f_equal.
  apply sorted_rows_unique; [by apply SSorted_filter|done|done].
Qed.

Lemma poll_delivers run_query now s final table k :
  ascending final -> visible s table `prefix_of` final -> ev_open s = true -> idColumn s = id ->
  orderBy s = idColumn s +:+ " ASC" -> answers s run_query table -> lastID s = mark final k ->
  poll format run_query now None s =
    (event_record format s now columns <$> take (Z.to_nat (batchSize s)) (drop k (visible s table)), None,
     set_event_state true (ev_running s)
       (mark final (Nat.max k (Nat.min (List.length (visible s table)) (k + Z.to_nat (batchSize s)))))
       (lastTimestamp s) s).
Proof.
  intros Hs Hp Ho Hid Hord Ha Hl. unfold poll. rewrite Ho. cbn match.
  rewrite (query_answer s run_query table); [|done| |done].
  2: { destruct Hp as [u ->]. unfold ascending in Hs. rewrite fmap_app in Hs.
       apply StronglySorted_inv in Hs as [Hs _]. by apply StronglySorted_app_1_l in Hs. }
  cbn [r_columns r_rows]. rewrite Hl, newer_seen by done. unfold finish_poll. cbn [r_error r_rows r_columns].
  rewrite Hid, Ho, fold_row_max by lia. do 2 f_equal. rewrite Hl. by apply mark_extends.
Qed.

(** C36: Polling an append-only table whose ids are positive numbers that grow, with the
    default order and polls that do not fail: whatever states of the table the polls see, and
    whichever of the answers the text of the query allows the database gives, the records
    delivered are exactly the rows of the table that satisfy the additional condition, up to
    the progress of the polls, each once and in the order of their ids, and the checkpoint is
    the id of the last one. *)
Theorem polled_rows_are_delivered_once s tables final k rs s' :
  ascending final -> Forall (fun t => t `prefix_of` final) tables -> ev_open s = true -> idColumn s = id ->
  orderBy s = idColumn s +:+ " ASC" -> lastID s = mark (visible s final) k -> polls s tables rs s' ->
  let k' := progress (Z.to_nat (batchSize s)) k (visible s <$> tables) in
  let data row := row_data columns row ∅ in
  (data <$> take k (visible s final)) ++ (RecData <$> rs) = data <$> take k' (visible s final) /\
  lastID s' = mark (visible s final) k'.
Proof.
  intros Hs Hp Ho Hid Hord Hl Hpolls. apply (ascending_visible s) in Hs.
  assert (Hv : Forall (fun t => visible s t `prefix_of` visible s final) tables).
  { eapply Forall_impl; [exact Hp|]. intros t. apply prefix_visible. }
  clear Hp. revert Hs Hl Hv. generalize (visible s final) as all. clear final.
  intros final Hs. revert k Ho Hid Hord.
  induction Hpolls as [s|s now rq table tables rs s' rs' s'' Ha Hpoll _ IH]; intros k Ho Hid Hord Hl Hp; cbn.
  - by rewrite app_nil_r.
  - apply Forall_cons in Hp as [Ht Hp]. rewrite (poll_delivers rq now s final table k) in Hpoll by done.
    injection Hpoll as <- <-. set (k1 := Nat.max k _). destruct (IH k1) as [IHd IHl]; [done..|].
    cbn [batchSize set_event_state] in IHd, IHl. split; [|done].
    change (foldl _ k1 _) with (progress (Z.to_nat (batchSize s)) k1 (visible s <$> tables)).
    change (visible (set_event_state _ _ _ _ s)) with (visible s) in IHd.
    rewrite <- IHd. unfold k1. rewrite batch_extends by done.
    by rewrite !fmap_app, <- app_assoc, <- list_fmap_compose.
Qed.
End Polling.

Definition demo_row (n : Z) : list Cell := [Val (VInt KInt64 n); Bytes "x"].
Definition demo_event_source : SQLEventSource :=
  MkEventSource "mysql" "dsn" "orders" "id" "" [] "v = 'x'" "id ASC" 2 Second true 0 no_time true.
Definition demo_columns : list string := ["id"; "v"].
Definition demo_wanted (row : list Cell) : bool := match row with [_; Bytes v] => v =? "x" | _ => false end.

(** A database that knows the statements and answers in the order of the table. *)
Definition statements : list (Comparison * option Direction * bool) :=
  cmp ← [Above; AtLeast]; order ← [None; Some ASC; Some DESC]; limited ← [true; false]; [(cmp, order, limited)].

Definition demo_rows (s : SQLEventSource) (table : list (list Cell)) (q : Comparison * option Direction * bool) : list (list Cell) :=
  let '(cmp, order, limited) := q in
  let l := List.filter (compares demo_columns "id" cmp (lastID s)) (visible demo_wanted s table) in
  let l := match order with Some DESC => reverse l | _ => l end in
  if limited then take (Z.to_nat (batchSize s)) l else l.

Definition demo_database (s : SQLEventSource) (table : list (list Cell)) (text : string) : res string Rows :=
  match List.find (fun '(cmp, order, limited) => select_text s cmp order limited =? text) statements with
  | Some q => Ok (MkRows demo_columns (demo_rows s table q) None)
  | None => Err "syntax error"
  end.

(** *** Two polls of a table that grows between them *)
Definition demo_early : list (list Cell) := [demo_row 1].
Definition demo_final : list (list Cell) := [demo_row 1; [Val (VInt KInt64 2); Bytes "y"]; demo_row 4; demo_row 7; demo_row 9].
Definition demo_polled : SQLEventSource := (poll (fun _ => "") (demo_database demo_event_source demo_early) 0 None demo_event_source).2.

Lemma demo_selects s table cmp order limited :
  StronglySorted Z.le (row_id demo_columns "id" <$> List.filter (compares demo_columns "id" cmp (lastID s)) (visible demo_wanted s table)) ->
  StronglySorted Z.ge (row_id demo_columns "id" <$> reverse (List.filter (compares demo_columns "id" cmp (lastID s)) (visible demo_wanted s table))) ->
  selects demo_columns "id" demo_wanted s cmp order limited table (demo_rows s table (cmp, order, limited)).
Proof.
  intros Ha Hd. unfold selects, demo_rows.
  set (l := List.filter _ _) in *. exists (match order with Some DESC => reverse l | _ => l end).
  split; [|split; [by destruct order as [[]|]|by destruct limited]].
  destruct order as [[]|]; [done|by rewrite reverse_Permutation|done].
Qed.

(** Every statement is found by its text; the rows of the demonstration are sorted. *)
Ltac demo_answers s table :=
  intros cmp order limited; exists (demo_rows s table (cmp, order, limited)); split;
  [destruct cmp, order as [[]|], limited; vm_compute; reflexivity
  |apply demo_selects; destruct cmp; vm_compute; repeat constructor; discriminate].

Lemma demo_early_answers :
  answers demo_columns "id" demo_wanted demo_event_source (demo_database demo_event_source demo_early) demo_early.
Proof. demo_answers demo_event_source demo_early. Qed.

Lemma demo_final_answers :
  answers demo_columns "id" demo_wanted demo_polled (demo_database demo_polled demo_final) demo_final.
Proof. demo_answers demo_polled demo_final. Qed.

Lemma polled_rows_are_delivered_once_witness :
  exists rs s', RecData <$> rs = (fun row => row_data demo_columns row ∅) <$> [demo_row 1; demo_row 4; demo_row 7] /\
    lastID s' = 7%Z /\
    polls (fun _ => "") demo_columns "id" demo_wanted demo_event_source [demo_early; demo_final] rs s'.
Proof.
  assert (Hp : exists rs s', polls (fun _ => "") demo_columns "id" demo_wanted demo_event_source [demo_early; demo_final] rs s').
  { do 2 eexists. eapply polls_one with (now := 0%Z); [exact demo_early_answers|vm_compute; reflexivity|].
    eapply polls_one with (now := 0%Z); [exact demo_final_answers|vm_compute; reflexivity|]. constructor. }
  destruct Hp as (rs & s' & Hp). exists rs, s'.
  destruct (polled_rows_are_delivered_once (fun _ => "") demo_columns "id" demo_wanted demo_event_source
    [demo_early; demo_final] demo_final 0 rs s') as [Hd Hl]; [| |reflexivity..|exact Hp|].
  - unfold ascending. repeat constructor.
  - constructor; [by eexists|]. constructor; [exists []; reflexivity|constructor].
  - split; [exact Hd|]. split; [exact Hl|exact Hp].
Defined.

(** ** Polls that do not move

    An id that the driver hands over as bytes or text is no number to [toInt64]. *)

Definition numberless (id : string) (columns : list string) (row : list Cell) : Prop :=
  forall i c v, columns !! i = Some c -> row !! i = Some v -> c = id -> toInt64 (cell v) = None.

Lemma row_max_id_numberless id columns row m : numberless id columns row -> row_max_id id columns row m = m.
Proof.
  revert row. induction columns as [|c cs IH]; intros [|v vs] H; cbn; try done.
  assert (Ht : numberless id cs vs) by (intros i c' v'; apply (H (S i))).
  destruct (String.eqb_spec c id) as [->|]; [rewrite (H 0 id v) by done|]; by apply IH.
Qed.

(** Rows whose id is not one of the integer and float types leave the source where it was:
    every poll asks the same query again and delivers its rows again. *)
Theorem text_ids_repeat format run_query now cancelled s r :
  ev_open s = true -> run_query (buildQuery s (lastID s)) = Ok r ->
  Forall (numberless (idColumn s) (r_columns r)) (r_rows r) ->
  (poll format run_query now cancelled s).2 = s.
Proof.
  intros Ho Hq Hn. unfold poll. rewrite Ho, Hq. cbn match.
  assert (Hf : forall rs, (finish_poll s r rs).2 = s); 
    [|destruct cancelled as [k|]; [destruct (k <? _)%nat; [done|]|]; apply Hf].
  intros rs. unfold finish_poll. destruct (r_error r); [done|].
  replace (foldl _ _ _) with 0%Z; [by destruct s|].
  induction Hn as [|row rows Hr _ IH]; cbn [foldl]; [done|]. by rewrite row_max_id_numberless.
Qed.

Lemma text_ids_repeat_witness :
  let s := demo_event_source in
  let r := MkRows ["id"] [[Bytes "1"]; [Bytes "2"]] None in
  (poll (fun _ => "") (fun _ => Ok r) 0 None s).2 = s.
Proof.
  intros s r. apply (text_ids_repeat (fun _ => "") (fun _ => Ok r) 0 None s r); [reflexivity..|].
  repeat constructor; intros [|[|i]] c v; intros; simplify_eq/=; reflexivity.
Defined.

(** A poll that fails or is cancelled after some records keeps the checkpoint: those
    records are delivered again by the next poll. *)
Theorem interrupted_polls_repeat format run_query now cancelled s :
  (poll format run_query now cancelled s).1.2 <> None -> (poll format run_query now cancelled s).2 = s.
Proof.
  unfold poll. destruct (negb _); [done|]. destruct (run_query _) as [r|e|]; [|done|done].
  unfold finish_poll. destruct cancelled as [k|]; [destruct (k <? _)%nat; [done|]|]; by destruct (r_error r).
Qed.

(** A source that is closed delivers nothing more: the loop ends, whatever ticks follow. *)
Theorem closed_source_is_silent format before t after s :
  t_closed t = true ->
  let '(rs, es, s1) := event_ticks format before s in
  (event_ticks format (before ++ t :: after) s).1 = (rs, es) /\
  ev_running (event_ticks format (before ++ t :: after) s).2 = false.
Proof.
  intros Ht. revert s. induction before as [|t0 l IH]; intros s; cbn [event_ticks app]; [by rewrite Ht|].
  set (s0 := if t_closed t0 then _ else s). destruct (ev_running s0) eqn:Hr; cbn [negb]; [|done].
  destruct (poll_tick format t0 s0) as [[rs es] s1]. specialize (IH s1).
  destruct (event_ticks format l s1) as [[rs1 es1] s2], (event_ticks format (l ++ t :: after) s1) as [[rs2 es2] s3].
  cbn in *. destruct IH as [IH ?]. by simplify_eq.
Qed.

(** Restoring a checkpoint the source gave restores its position. *)
Theorem event_checkpoint_round_trip s s' :
  int64_ok (lastID s) ->
  let t := event_SetCheckpoint (event_GetCheckpoint s) s' in
  lastID t = lastID s /\ lastTimestamp t = lastTimestamp s.
Proof.
  intros H. unfold event_SetCheckpoint, event_GetCheckpoint. rewrite lookup_insert_eq, lookup_insert_ne by done.
  rewrite lookup_singleton_eq. cbn. by rewrite int64_wrap_small.
Qed.

(** ** What change data capture promises *)

(** What happens to a source while it reads: a row event and a synced position from the
    client, and an event taken by the forwarding goroutine. *)
Inductive CDCInput := InRow (now : Z) (e : RowsEvent) | InSynced (p : Position) | InTaken.

Section CDCRuns.
Context (bytes_value : string -> GoValue).

Definition cdc_input (i : CDCInput) (s : CDCSource) : list CDCEvent * CDCSource :=
  match i with
  | InRow now e => ([], OnRow bytes_value now e s)
  | InSynced p => ([], OnPosSynced p s)
  | InTaken => match eventCh s with
               | [] => ([], s)
               | e :: q => ([e], set_cdc (c_canal s) (c_running s) (position s) q s)
               end
  end.

Fixpoint cdc_run (l : list CDCInput) (s : CDCSource) : list CDCEvent * CDCSource :=
  match l with
  | [] => ([], s)
  | i :: l => let '(out, s) := cdc_input i s in let '(out', s) := cdc_run l s in (out ++ out', s)
  end.

(** The events the client reported. *)
Definition reported (l : list CDCInput) : list CDCEvent :=
  mjoin ((fun i => match i with InRow now e => events_of bytes_value now e | _ => [] end) <$> l).

Lemma offer_all q l :
  List.length q <= event_capacity -> foldl offer q l = q ++ take (event_capacity - List.length q) l.
Proof.
  revert q. induction l as [|e l IH]; intros q Hq; cbn [foldl]; [by rewrite take_nil, app_nil_r|].
  unfold offer at 2. destruct (Nat.ltb_spec (List.length q) event_capacity) as [Hlt|Hge].
  - rewrite IH by (rewrite length_app; cbn; lia). rewrite length_app, <- app_assoc. cbn [List.length app].
    replace (event_capacity - List.length q) with (S (event_capacity - (List.length q + 1))) by lia. done.
  - rewrite IH by lia. replace (event_capacity - List.length q) with 0 by lia. by rewrite !take_0.
Qed.

(** A row event adds its events to the queue, in order, up to the capacity of the channel. *)
Lemma OnRow_queue now e s :
  List.length (eventCh s) <= event_capacity ->
  eventCh (OnRow bytes_value now e s) =
    eventCh s ++ (if c_running s then take (event_capacity - List.length (eventCh s)) (events_of bytes_value now e) else []).
Proof. intros Hq. unfold OnRow. destruct (c_running s); cbn; [by apply offer_all|by rewrite app_nil_r]. Qed.

Lemma cdc_input_queue i s :
  List.length (eventCh s) <= event_capacity ->
  let '(out, s') := cdc_input i s in
  List.length (eventCh s') <= event_capacity /\ c_running s' = c_running s /\
  exists kept, out ++ eventCh s' = eventCh s ++ kept /\ kept `sublist_of` reported [i] /\
    (c_running s = true -> List.length (eventCh s) + List.length (reported [i]) <= event_capacity -> kept = reported [i]).
Proof.
  intros Hq. destruct i as [now e|p|]; unfold reported; cbn [cdc_input fmap list_fmap mjoin list_join].
  - rewrite OnRow_queue, app_nil_r by done. split; [|split].
    + rewrite length_app. destruct (c_running s); [rewrite length_take|cbn]; lia.
    + unfold OnRow. by destruct (c_running s) eqn:H.
    + eexists. split; [reflexivity|]. destruct (c_running s); (split; [|intros; try done]).
      * apply sublist_take.
      * apply take_ge. lia.
      * apply sublist_nil_l.
  - split; [done|]. split; [done|]. exists []. by rewrite app_nil_r.
  - destruct (eventCh s) as [|e q] eqn:H; cbn in *.
    + rewrite H. split; [cbn; lia|]. split; [done|]. by exists [].
    + split; [lia|]. split; [done|]. exists []. by rewrite app_nil_r.
Qed.

(** Whatever row events, synced positions and deliveries follow each other, the delivered
    events and those still queued are among the reported ones in their order, and the queue
    never exceeds its capacity. *)
Theorem cdc_events_keep_their_order l s :
  List.length (eventCh s) <= event_capacity ->
  let '(out, s') := cdc_run l s in
  List.length (eventCh s') <= event_capacity /\
  exists kept, out ++ eventCh s' = eventCh s ++ kept /\ kept `sublist_of` reported l.
Proof.
  revert s. induction l as [|i l IH]; intros s Hq; cbn [cdc_run]; [split; [done|exists []; by rewrite app_nil_r]|].
  pose proof (cdc_input_queue i s Hq) as Hi. destruct (cdc_input i s) as [out s1]. destruct Hi as (Hq1 & _ & kept & Hk & Hsub & _).
  specialize (IH s1 Hq1). destruct (cdc_run l s1) as [out' s2]. destruct IH as (Hq2 & kept' & Hk' & Hsub').
  split; [done|]. exists (kept ++ kept'). rewrite <- app_assoc, Hk', !app_assoc, Hk. split; [done|].
  change (reported (i :: l)) with (reported ([i] ++ l)). unfold reported in *. rewrite fmap_app, join_app. by apply sublist_app.
Qed.

(** Of a running source that reports no more events than its channel holds, none is lost. *)
Theorem few_cdc_events_are_kept l s :
  c_running s = true -> List.length (eventCh s) + List.length (reported l) <= event_capacity ->
  let '(out, s') := cdc_run l s in out ++ eventCh s' = eventCh s ++ reported l.
Proof.
  revert s. induction l as [|i l IH]; intros s Hr Hq; cbn [cdc_run]; [by rewrite app_nil_r|].
  assert (Hsplit : reported (i :: l) = reported [i] ++ reported l)
    by (unfold reported; by rewrite <- join_app, <- fmap_app).
  rewrite Hsplit, length_app in Hq.
  pose proof (cdc_input_queue i s) as Hi. destruct (cdc_input i s) as [out s1].
  destruct Hi as (_ & Hr1 & kept & Hk & _ & Hall); [lia|]. rewrite Hall in Hk by (done || lia).
  specialize (IH s1). destruct (cdc_run l s1) as [out' s2]. rewrite <- app_assoc, IH, !app_assoc, Hk, Hsplit; [by rewrite app_assoc|congruence|].
  apply (f_equal List.length) in Hk. rewrite !length_app in Hk. lia.
Qed.

(** With the channel full, the events of a row are dropped while the position moves on: the
    checkpoint is past events that were never delivered. *)
Theorem full_channel_loses_events now e p s :
  List.length (eventCh s) = event_capacity ->
  let s' := OnPosSynced p (OnRow bytes_value now e s) in
  eventCh s' = eventCh s /\ position (cdc_SetCheckpoint (cdc_GetCheckpoint s') s) = p.
Proof.
  intros Hq. cbn. split.
  - rewrite OnRow_queue, Hq, Nat.sub_diag, take_0 by lia. destruct (c_running s); by rewrite app_nil_r.
  - unfold cdc_SetCheckpoint, cdc_GetCheckpoint. cbn. rewrite lookup_insert_eq, lookup_insert_ne, lookup_singleton_eq by done. by destruct p.
Qed.
End CDCRuns.

Definition demo_cdc (q : list CDCEvent) : CDCSource :=
  MkCDCSource "mysql" "h" 3306 "u" "p" "d" [] 101 "" true true (MkPosition "" 0) q.

Lemma few_cdc_events_are_kept_witness :
  let e := MkRowsEvent "update" "shop" "orders" ["id"] [0] [[Val (VInt KInt64 1)]; [Val (VInt KInt64 2)]] in
  let '(out, s') := cdc_run VString [InRow 5 e; InTaken; InSynced (MkPosition "b" 9)] (demo_cdc []) in
  out ++ eventCh s' = events_of VString 5 e.
Proof.
  intros e. apply (few_cdc_events_are_kept VString [InRow 5 e; InTaken; InSynced (MkPosition "b" 9)] (demo_cdc []));
    [reflexivity|]. apply Nat.leb_le. vm_compute. reflexivity.
Defined.

(** The columns of a row are in the record under their names, the previous row and the key
    apart; the four fields of the event are there unless a column has their name. *)
Theorem cdc_record_spec time_value e k v :
  k <> "_old_data" -> k <> "_primary_key" ->
  let d := RecData (convertEventToRecord time_value e) in
  (CE_Data e !! k = Some v -> d !! k = Some v) /\
  (CE_Data e !! "_cdc_type" = None -> d !! "_cdc_type" = Some (VString (CE_Type e))) /\
  (CE_Data e !! "_table" = None -> d !! "_table" = Some (VString (CE_Table e))).
Proof.
  intros Hk1 Hk2. cbn.
  assert (H : forall k', k' <> "_old_data" -> k' <> "_primary_key" -> forall m : Data,
    (match CE_PrimaryKey e with [] => match CE_OldData e with Some old => <["_old_data" := VMap old]> m | None => m end
     | pk => <["_primary_key" := VSlice pk]> (match CE_OldData e with Some old => <["_old_data" := VMap old]> m | None => m end) end) !! k' = m !! k').
  { intros k' H1 H2 m. destruct (CE_PrimaryKey e), (CE_OldData e); by rewrite ?lookup_insert_ne. }
  split_and!; intros Hd; rewrite H by done; [by apply lookup_union_Some_l|..]; by rewrite lookup_union_r.
Qed.

(** Reading before the client is ready: in every run in which both goroutines get to their
    end, a channel was closed twice or written after its closing, which panics. *)
Theorem unready_cdc_panics st :
  rtc (read_step false) read_started st -> starter_done st = true -> forwarder_done st = true -> crashed st = true.
Proof.
  intros Hr.
  assert (Hinv : crashed st = true \/ (records_open st = negb (starter_done st || forwarder_done st) /\
    errs_open st = records_open st /\ starter_done st && forwarder_done st = false)).
  { revert Hr. apply (rtc_ind_r (fun st => crashed st = true \/ (records_open st = negb (starter_done st || forwarder_done st) /\
      errs_open st = records_open st /\ starter_done st && forwarder_done st = false))); [by right|].
    intros x y _ Hs [Hc|(H1 & H2 & H3)]; [inversion Hs; congruence|].
    destruct x as [[] [] ro eo c]; cbn in *; subst; inversion Hs; cbn in *; subst; try discriminate; auto. }
  intros Hs Hf. destruct Hinv as [?|(_ & _ & H)]; [done|]. by rewrite Hs, Hf in H.
Qed.

(** Once the client is ready, no run panics. *)
Theorem ready_cdc_never_panics st : rtc (read_step true) read_started st -> crashed st = false.
Proof.
  intros Hr. assert (Hinv : crashed st = false /\ records_open st = negb (forwarder_done st) /\ errs_open st = records_open st).
  { revert Hr. apply (rtc_ind_r (fun st => crashed st = false /\ records_open st = negb (forwarder_done st) /\ errs_open st = records_open st)); [done|].
    intros x y _ Hs (H1 & H2 & H3).
    destruct x as [? [] ro eo c]; cbn in *; subst; inversion Hs; cbn in *; subst; try discriminate; auto. }
  tauto.
Qed.

(** ** What the Kafka source promises *)

(** The messages the loop over a reader fetches, and those it hands over. *)
Fixpoint fetched (l : list Fetch) : list Message :=
  match l with
  | Fetched m sent :: rest => m :: (if sent then fetched rest else [])
  | _ => []
  end.
Fixpoint handed_over (l : list Fetch) : list Message :=
  match l with
  | Fetched m true :: rest => m :: handed_over rest
  | _ => []
  end.

Definition record_of (m : Message) : option SrcRecord := message_record m <$> message_data m.

Definition mark_offsets (l : list Message) (c : gmap string Z) : gmap string Z :=
  foldl (fun c m => <[checkpoint_key (Topic m) (Partition m) := Offset m]> c) c l.

Lemma fetched_handed_over l : fetched l = handed_over l \/ exists m, fetched l = handed_over l ++ [m].
Proof.
  induction l as [|[m []| |] l IH]; cbn; try by left.
  - destruct IH as [->|[m' ->]]; [by left|right; by exists m'].
  - right. by exists m.
Qed.

(** The loop over a reader hands over the messages it fetches one by one in their order,
    with the checkpoint at the last one fetched; when the context ends at a send, that one
    message is marked as read and was not handed over. *)
Theorem kafka_delivers_in_order l s rs e s' :
  readFromReader l s = Some (rs, e, s') ->
  mapM record_of (handed_over l) = Some rs /\ checkpoints s' = mark_offsets (fetched l) (checkpoints s) /\
  (fetched l = handed_over l \/ exists m, fetched l = handed_over l ++ [m]).
Proof.
  intros H. split; [apply mapM_Some|split; [|apply fetched_handed_over]]; revert rs s H;
    induction l as [|[m []| |] l IH]; intros rs s H; cbn in H; simplify_eq/=; try done;
    destruct (message_data m) as [d|] eqn:Hd; cbn in H; simplify_eq/=; try done;
    destruct (readFromReader l _) as [[[rs' e'] s1]|] eqn:Hr; simplify_eq/=; specialize (IH _ _ Hr).
  - constructor; [|done]. unfold record_of. by rewrite Hd.
  - by rewrite IH.
Qed.

Lemma kafka_delivers_in_order_witness :
  let m i v := MkMessage "orders" 0 i "" v NotAnObject [] 0 in
  exists rs s', readFromReader [Fetched (m 4%Z "a") true; Fetched (m 5%Z "b") false] (NewKafkaSource (configToSourceV2 ∅)) = Some (rs, None, s') /\
    mapM record_of [m 4%Z "a"] = Some rs /\ checkpoints s' !! "orders-0" = Some 5%Z.
Proof.
  intros m. do 2 eexists. split; [reflexivity|].
  edestruct (kafka_delivers_in_order [Fetched (m 4%Z "a") true; Fetched (m 5%Z "b") false] (NewKafkaSource (configToSourceV2 ∅)))
    as (H & Hc & _); [reflexivity|]. split; [exact H|]. rewrite Hc. reflexivity.
Defined.

(** The loop panics exactly when it fetches a message whose value is the JSON [null] and
    which has a key or a header. *)
Theorem kafka_panics_on_null l s :
  readFromReader l s = None <->
  exists m, m ∈ fetched l /\ MsgJson m = JsonNull /\ (MsgHeaders m <> [] \/ Key m <> "").
Proof.
  assert (Hm : forall m, message_data m = None <-> MsgJson m = JsonNull /\ (MsgHeaders m <> [] \/ Key m <> "")).
  { intros m. unfold message_data. destruct (MsgJson m); [split; [done|by intros []]| |split; [done|by intros []]].
    destruct (MsgHeaders m), (String.eqb_spec (Key m) ""); cbn; naive_solver. }
  setoid_rewrite <- Hm. clear Hm. revert s. induction l as [|[m sent| |] l IH]; intros s; cbn;
    [split; [done|by intros (m & Hin%elem_of_nil & _)]| |split; [done|by intros (m' & Hin%elem_of_nil & _)]..].
  setoid_rewrite elem_of_cons. destruct (message_data m) as [d|] eqn:Hd; cbn; [|split; [|done]; intros _; exists m; auto].
  destruct sent; cbn.
  - destruct (readFromReader l _) as [[[rs e] s1]|] eqn:Hr; cbn.
    + split; [done|]. intros (m' & [->|Hin] & Hn); [congruence|].
      assert (Hx : readFromReader l (updateCheckpoint (Topic m) (Partition m) (Offset m) s) = None) by (apply IH; eauto).
      congruence.
    + split; [|done]. intros _. apply IH in Hr as (m' & Hin & Hn). eauto.
  - split; [done|]. intros (m' & [->|Hin%elem_of_nil] & Hn); [congruence|done].
Qed.

(** Checkpoints given back to the source do not change where its readers start. *)
Theorem restored_offsets_are_not_used m s : readers (kafka_Open (SetCheckpoints m s)) = readers (kafka_Open s).
Proof. reflexivity. Qed.

(** ** The factories agree *)

Lemma str_field_ne cfg v k : k <> "type" -> str_field (<["type" := v]> cfg) k = str_field cfg k.
Proof. intros H. unfold str_field. by rewrite lookup_insert_ne. Qed.
Lemma strs_field_ne cfg v k : k <> "type" -> strs_field (<["type" := v]> cfg) k = strs_field cfg k.
Proof. intros H. unfold strs_field. by rewrite lookup_insert_ne. Qed.
Lemma int_field_ne cfg v k : k <> "type" -> int_field (<["type" := v]> cfg) k = int_field cfg k.
Proof. intros H. unfold int_field. by rewrite lookup_insert_ne. Qed.

(** The factory of the group executor and that of the pipelines make the same source of a
    configuration that names its type, and refuse the same types. *)
Theorem factories_agree glob marshal type config src :
  createSource glob marshal type config = Ok src <->
  NewSource glob (configToSourceV2 (<["type" := VString type]> config)) = Ok src.
Proof.
  set (c := configToSourceV2 (<["type" := VString type]> config)).
  assert (Ht : SrcType c = type) by (unfold c; cbn; unfold str_field; by rewrite lookup_insert_eq).
  assert (Hf : NewFileSource glob c = NewFileSource glob (configToSourceV2 config) /\ NewSQLSource c = NewSQLSource (configToSourceV2 config) /\
    NewHTTPSource c = NewHTTPSource (configToSourceV2 config) /\ NewKafkaSource c = NewKafkaSource (configToSourceV2 config) /\
    NewSQLEventSource c = NewSQLEventSource (configToSourceV2 config) /\ NewCDCSource c = NewCDCSource (configToSourceV2 config)).
  { unfold c, configToSourceV2, uint32_field, headers_field, auth_field.
    generalize (str_field (<["type" := VString type]> config) "type"). intros t.
    rewrite !str_field_ne, !strs_field_ne, !int_field_ne, !lookup_insert_ne by done. by repeat split. }
  destruct Hf as (Hf & Hs & Hh & Hk & He & Hc). unfold createSource, NewSource. rewrite Ht, Hf, Hs, Hh, Hk, He, Hc.
  clear. repeat (match goal with |- context [type =? ?t] => destruct (String.eqb_spec type t) as [->|]; cbn; [done|] end). split; discriminate.
Qed.
