(* ===== verification/Provisioners.v ===== *)
(** * Provisioners (pkg/provisioner)

    The preparation of a sink before its first record: a table, a topic, an index, a
    collection or an endpoint. What the outside answers is a [World]; each provisioner parses
    its configuration, asks the world and reports a result. *)

From Stdlib Require Import String Ascii.
From stdpp Require Import pretty.
From S2P Require Import Prelude GoString GoValue GoTime Sources PipelineApi.
Local Open Scope string_scope.
Local Open Scope list_scope.

(** ** Requests and results (shared/types/sink.go) *)

Definition ProvisioningTypeNone := "none".
Definition ProvisioningTypeTableCreation := "table_creation".
Definition ProvisioningTypeTopicCreation := "topic_creation".
Definition ProvisioningTypeIndexCreation := "index_creation".
Definition ProvisioningTypeAPISetup := "api_setup".
Definition ProvisioningStatusSkipped := "skipped".

Record ProvisioningRequest := MkProvRequest {
  PRID : string;
  PRPipeline : string;
  PRSinkType : string;
  PRSinkName : string;
  PRType : string;
  PRConfig : Data;
  PRExternalURL : string;
  PRCallbackURL : string
}.

(** The names of what was made. *)
Record Made := MkMade {
  MTableName : string;
  MTopicName : string;
  MIndexName : string;
  MBucketName : string;
  MFilePath : string;
  MAPIEndpoint : string;
  MAPIKey : string
}.

Definition nothing_made : Made := MkMade "" "" "" "" "" "" "".

Record ProvisioningResult := MkProvResult {
  PSID : string;
  PSRequest : string;
  PSPipeline : string;
  PSSinkType : string;
  PSStatus : string;
  PSMade : Made;
  PSMetadata : option Data;
  PSMessage : string;
  PSErrorDetail : string;
  PSCompletedAt : option Z;
  PSCompletedBy : string
}.

Section Results.
(** The new identifier and the time. *)
Context (id : string) (now : Z) (req : ProvisioningRequest).

Definition pending_result (message : string) (external_url : string) : ProvisioningResult :=
  MkProvResult id (PRID req) (PRPipeline req) (PRSinkType req) ProvisioningStatusPending nothing_made
    (Some (<["external_url" := VString external_url]> {["callback_url" := VString (PRCallbackURL req)]})) message "" None "".

Definition failed_result (message error : string) : ProvisioningResult :=
  MkProvResult id (PRID req) (PRPipeline req) (PRSinkType req) ProvisioningStatusFailed nothing_made None message error (Some now) "".

Definition completed_result (made : Made) (message : string) (metadata : Data) : ProvisioningResult :=
  MkProvResult id (PRID req) (PRPipeline req) (PRSinkType req) ProvisioningStatusCompleted made (Some metadata) message ""
    (Some now) "".
End Results.

(** ** Fields of a configuration *)

Definition text_or (c : Data) (k def : string) : string := match c !! k with Some (VString s) => s | _ => def end.
Definition nonempty_or (c : Data) (k def : string) : string := if str_field c k =? "" then def else str_field c k.
Definition required (c : Data) (k : string) : res string string :=
  if str_field c k =? "" then Err (k +:+ " is required") else Ok (str_field c k).
Definition bool_field (c : Data) (k : string) : bool := match c !! k with Some (VBool b) => b | _ => false end.
(** [float64], as JSON has it, or [int]. *)
Definition int_or (c : Data) (k : string) (def : Z) : Z :=
  match c !! k with Some (VFloat64 f) => int_of_float f | Some (VInt KInt n) => n | _ => def end.
Definition int64_or (c : Data) (k : string) (def : Z) : Z :=
  match c !! k with Some (VFloat64 f) => int_of_float f | Some (VInt KInt64 n) => n | _ => def end.
(** A list that must not be empty, of any values or of texts. *)
Definition required_list (c : Data) (k : string) : res string (list string) :=
  match (match c !! k with Some (VSlice l) => texts l | Some (VStrings l) => l | _ => [] end) with
  | [] => Err (k +:+ " is required")
  | l => Ok l
  end.
Definition string_map (c : Data) (k : string) : gmap string string :=
  match c !! k with Some (VMap m) => omap (fun v => match v with VString s => Some s | _ => None end) m | _ => ∅ end.
Definition map_field (c : Data) (k : string) : option Data := match c !! k with Some (VMap m) => Some m | _ => None end.

(** ** SQL tables (sql_provisioner.go) *)

Record SQLColumn := MkColumn { ColName : string; ColType : string; Nullable : bool; PrimaryKey : bool; ColDefault : string }.

Record SQLProvisioningConfig := MkSQLConfig {
  SDriver : string;
  SHost : string;
  SPort : Z;
  SDatabase : string;
  SUsername : string;
  SPassword : string;
  STableName : string;
  SColumns : list SQLColumn;
  SSLMode : string;
  SCharset : string
}.

Definition getDefaultColumns : list SQLColumn := [
  MkColumn "id" "VARCHAR(36)" false true "";
  MkColumn "data" "JSON" true false "";
  MkColumn "created_at" "TIMESTAMP" false false "CURRENT_TIMESTAMP";
  MkColumn "source" "VARCHAR(255)" true false "";
  MkColumn "pipeline_id" "VARCHAR(36)" true false "" ].

Definition parse_column (m : Data) : SQLColumn :=
  MkColumn (str_field m "name") (str_field m "type") (bool_field m "nullable") (bool_field m "primary_key") (str_field m "default").

Definition parse_columns (c : Data) : list SQLColumn :=
  match (match c !! "columns" with Some (VSlice l) => parse_column <$> objects l | _ => [] end) with
  | [] => getDefaultColumns
  | l => l
  end.

Definition sql_parseConfig (c : Data) : res string SQLProvisioningConfig :=
  let driver := nonempty_or c "driver" "mysql" in
  host ← required c "host";
  database ← required c "database";
  username ← required c "username";
  table ← required c "table_name";
  Ok (MkSQLConfig driver host (int_or c "port" (if driver =? "postgres" then 5432%Z else 3306%Z)) database username
        (str_field c "password") table (parse_columns c) (text_or c "ssl_mode" "disable") (text_or c "charset" "utf8mb4")).

Definition buildDSN (c : SQLProvisioningConfig) : string :=
  if SDriver c =? "mysql" then
    SUsername c +:+ ":" +:+ SPassword c +:+ "@tcp(" +:+ SHost c +:+ ":" +:+ pretty (SPort c) +:+ ")/" +:+ SDatabase c +:+
    "?charset=" +:+ SCharset c +:+ "&parseTime=true"
  else if SDriver c =? "postgres" then
    "host=" +:+ SHost c +:+ " port=" +:+ pretty (SPort c) +:+ " user=" +:+ SUsername c +:+ " password=" +:+ SPassword c +:+
    " dbname=" +:+ SDatabase c +:+ " sslmode=" +:+ SSLMode c
  else "".

(** [strings.ToUpper(s) == t] for a [t] of upper-case ASCII: beside the letters, the dotless i
    and the long s have an ASCII upper case. *)
Definition upper_ascii (a : ascii) : ascii :=
  let n := nat_of_ascii a in if ((97 <=? n) && (n <=? 122))%nat then ascii_of_nat (n - 32) else a.

Fixpoint upper_is (s t : string) : bool :=
  match s, t with
  | EmptyString, EmptyString => true
  | String a s', String b t' =>
      (Ascii.eqb (upper_ascii a) b && upper_is s' t') ||
      match s' with
      | String a2 s2 =>
          ((nat_of_ascii a =? 196)%nat && (nat_of_ascii a2 =? 177)%nat && Ascii.eqb b "I" && upper_is s2 t') ||
          ((nat_of_ascii a =? 197)%nat && (nat_of_ascii a2 =? 191)%nat && Ascii.eqb b "S" && upper_is s2 t')
      | EmptyString => false
      end
  | _, _ => false
  end.

Definition newline : string := String "010" "".

Definition column_def (c : SQLColumn) : string :=
  "  " +:+ ColName c +:+ " " +:+ ColType c +:+ (if Nullable c then "" else " NOT NULL") +:+
  (if ColDefault c =? "" then ""
   else if upper_is (ColDefault c) "CURRENT_TIMESTAMP" then " DEFAULT CURRENT_TIMESTAMP"
   else " DEFAULT '" +:+ ColDefault c +:+ "'").

Definition primary_keys (l : list SQLColumn) : list string := ColName <$> List.filter PrimaryKey l.

Definition buildCreateTableSQL (c : SQLProvisioningConfig) : string :=
  "CREATE TABLE IF NOT EXISTS " +:+ STableName c +:+ " (" +:+ newline +:+ Join (column_def <$> SColumns c) ("," +:+ newline) +:+
  (match primary_keys (SColumns c) with [] => "" | l => "," +:+ newline +:+ "  PRIMARY KEY (" +:+ Join l ", " +:+ ")" end) +:+
  newline +:+ ")" +:+ (if SDriver c =? "mysql" then " ENGINE=InnoDB DEFAULT CHARSET=" +:+ SCharset c else "").

(** ** Kafka topics (kafka_provisioner.go) *)

Record KafkaProvisioningConfig := MkKafkaConfig {
  KBrokers : list string;
  KTopicName : string;
  NumPartitions : Z;
  ReplicationFactor : Z;
  RetentionMs : Z
}.

Definition kafka_parseConfig (c : Data) : res string KafkaProvisioningConfig :=
  brokers ← required_list c "brokers";
  topic ← required c "topic_name";
  Ok (MkKafkaConfig brokers topic (int_or c "num_partitions" 3) (int_or c "replication_factor" 1)
        (int64_or c "retention_ms" (7 * 24 * 60 * 60 * 1000))).

(** [kafka.TopicConfig]. *)
Record TopicConfig := MkTopic { TTopic : string; TPartitions : Z; TReplication : Z; TEntries : list (string * string) }.

Definition topic_config (c : KafkaProvisioningConfig) : TopicConfig :=
  MkTopic (KTopicName c) (NumPartitions c) (ReplicationFactor c) [("retention.ms", pretty (RetentionMs c))].

(** ** Elasticsearch indexes (elasticsearch_provisioner.go) *)

Record ElasticsearchProvisioningConfig := MkESConfig {
  Addresses : list string;
  EUsername : string;
  EPassword : string;
  EAPIKey : string;
  EIndexName : string;
  NumberOfShards : Z;
  NumberOfReplicas : Z;
  Mappings : option Data;
  Settings : option Data;
  Aliases : list string
}.

Definition es_parseConfig (c : Data) : res string ElasticsearchProvisioningConfig :=
  addresses ← required_list c "addresses";
  index ← required c "index_name";
  Ok (MkESConfig addresses (str_field c "username") (str_field c "password") (str_field c "api_key") index
        (int_or c "number_of_shards" 1) (int_or c "number_of_replicas" 0) (map_field c "mappings") (map_field c "settings")
        (strs_field c "aliases")).

(** The client's settings: addresses, key, user and password. *)
Record ESClient := MkESClient { esAddresses : list string; esKey : string; esUser : string; esPassword : string }.

Definition client_config (c : ElasticsearchProvisioningConfig) : ESClient :=
  if negb (EAPIKey c =? "") then MkESClient (Addresses c) (EAPIKey c) "" ""
  else if negb (EUsername c =? "") && negb (EPassword c =? "") then MkESClient (Addresses c) "" (EUsername c) (EPassword c)
  else MkESClient (Addresses c) "" "" "".

Definition typed (t : string) : GoValue := VMap {["type" := VString t]}.
Definition getDefaultMappings : Data :=
  {["properties" := VMap (<["id" := typed "keyword"]>
     (<["data" := VMap (<["type" := VString "object"]> {["enabled" := VBool true]})]>
     (<["source" := typed "keyword"]> (<["pipeline_id" := typed "keyword"]>
     (<["created_at" := typed "date"]> {["@timestamp" := typed "date"]})))))]}.

(** The settings of the configuration replace the two fixed ones of the same name. *)
Definition index_settings (c : ElasticsearchProvisioningConfig) : Data :=
  default ∅ (Settings c) ∪
  <["number_of_shards" := VInt KInt (NumberOfShards c)]> {["number_of_replicas" := VInt KInt (NumberOfReplicas c)]}.

Definition index_body (c : ElasticsearchProvisioningConfig) : Data :=
  let body : Data := <["settings" := VMap (index_settings c)]> {["mappings" := VMap (default getDefaultMappings (Mappings c))]} in
  match Aliases c with
  | [] => body
  | l => <["aliases" := VMap (foldl (fun m a => <[a := VMap ∅]> m) ∅ l)]> body
  end.

(** The answer to the creation of an index; a refusal has its status and its body, if that is
    an object. *)
Inductive ESAnswer := ESCreated | ESFailed (e : string) | ESRefused (status : string) (body : option Data).

(** ** MongoDB collections (mongodb_provisioner.go) *)

Record MongoDBIndex := MkMongoIndex { IKeys : gmap string Z; IName : string; IUnique : bool; ISparse : bool; ITTL : Z }.

Record MongoDBProvisioningConfig := MkMongoConfig {
  MURI : string;
  MDatabase : string;
  CollectionName : string;
  Capped : bool;
  SizeInBytes : Z;
  MaxDocuments : Z;
  Indexes : list MongoDBIndex
}.

Definition index_keys (m : Data) : gmap string Z :=
  match m !! "keys" with
  | Some (VMap k) => omap (fun v => match v with VFloat64 f => Some (int_of_float f) | VInt KInt n => Some n | _ => None end) k
  | _ => ∅
  end.

Definition int32_wrap (z : Z) : Z := ((z + 2 ^ 31) mod 2 ^ 32 - 2 ^ 31)%Z.

Definition parse_index (m : Data) : MongoDBIndex :=
  MkMongoIndex (index_keys m) (str_field m "name") (bool_field m "unique") (bool_field m "sparse") (int32_wrap (int_field m "ttl")).

Definition mongo_parseConfig (c : Data) : res string MongoDBProvisioningConfig :=
  uri ← required c "uri";
  database ← required c "database";
  collection ← required c "collection_name";
  Ok (MkMongoConfig uri database collection (bool_field c "capped") (int64_or c "size_in_bytes" 0) (int64_or c "max_documents" 0)
        (match c !! "indexes" with Some (VSlice l) => parse_index <$> objects l | _ => [] end)).

(** The options of a collection: the size and the number of documents of a capped one. *)
Definition collection_options (c : MongoDBProvisioningConfig) : option (Z * option Z) :=
  if Capped c then
    Some (if (0 <? SizeInBytes c)%Z then SizeInBytes c else (10 * 1024 * 1024)%Z,
          if (0 <? MaxDocuments c)%Z then Some (MaxDocuments c) else None)
  else None.

(** [mongo.IndexModel]; the keys in the order the loop over the map meets them. *)
Record IndexModel := MkIndexModel { XKeys : list (string * Z); XName : option string; XUnique : bool; XSparse : bool; XExpire : option Z }.

Definition index_model (order : gmap string Z -> list (string * Z)) (i : MongoDBIndex) : IndexModel :=
  MkIndexModel (order (IKeys i)) (if IName i =? "" then None else Some (IName i)) (IUnique i) (ISparse i)
    (if (0 <? ITTL i)%Z then Some (ITTL i) else None).

(** The error of creating a collection: whether the driver calls it a duplicate key, and its text. *)
Inductive MongoAnswer := MongoCreated | MongoRefused (duplicate : bool) (text : string).

(** ** REST endpoints (restapi_provisioner.go) *)

Record RestAPIProvisioningConfig := MkRestConfig {
  BaseURL : string;
  Endpoint : string;
  RMethod : string;
  RAuthType : string;
  RAuthConfig : gmap string string;
  RHeaders : gmap string string;
  ValidateEndpoint : string;
  Timeout : Z;
  RetryCount : Z;
  RetryDelay : Z
}.

Definition rest_parseConfig (c : Data) : res string RestAPIProvisioningConfig :=
  base ← required c "base_url";
  endpoint ← required c "endpoint";
  Ok (MkRestConfig base endpoint (nonempty_or c "method" "POST") (text_or c "auth_type" "none") (string_map c "auth_config")
        (string_map c "headers") (str_field c "validate_endpoint") (int_or c "timeout" 30) (int_or c "retry_count" 3)
        (int_or c "retry_delay" 1)).

Definition auth_value (c : RestAPIProvisioningConfig) (k : string) : string := default "" (RAuthConfig c !! k).

(** The headers of a request, with names in canonical form; [base64] encodes the credentials. *)
Definition rest_headers (base64 : string -> string) (c : RestAPIProvisioningConfig) : gmap string string :=
  let h := RHeaders c ∪ {["Content-Type" := "application/json"]} in
  if RAuthType c =? "basic" then
    <["Authorization" := "Basic " +:+ base64 (auth_value c "username" +:+ ":" +:+ auth_value c "password")]> h
  else if RAuthType c =? "bearer" then <["Authorization" := "Bearer " +:+ auth_value c "token"]> h
  else if RAuthType c =? "api_key" then
    <[(if auth_value c "header_name" =? "" then "X-API-Key" else auth_value c "header_name") := auth_value c "api_key"]> h
  else h.

Definition createRequest (base64 : string -> string) (method url body : string) (c : RestAPIProvisioningConfig) : HTTPRequest :=
  MkRequest method url (rest_headers base64 c) body.

(** ** The outside *)

(** What the systems answer; [None] is success where an error is expected. The requests of a
    loop are told apart by their number, and [w_bad_request] is the error of a request that
    cannot be formed. *)
Record World := MkWorld {
  w_sql_open : string -> string -> option string;
  w_sql_ping : string -> option string;
  w_sql_exec : string -> string -> option string;
  w_kafka_dial : string -> option string;
  w_kafka_controller : string -> string + string;
  w_kafka_create : string -> TopicConfig -> option string;
  w_es_client : ESClient -> option string;
  w_es_create : ESClient -> string -> Data -> ESAnswer;
  w_mongo_connect : string -> option string;
  w_mongo_ping : string -> option string;
  w_mongo_create : string -> string -> string -> option (Z * option Z) -> MongoAnswer;
  w_mongo_index : string -> string -> string -> IndexModel -> option string;
  w_map_order : gmap string Z -> list (string * Z);
  w_bad_request : string -> string -> option string;
  w_http : nat -> HTTPRequest -> string + (Z * string);
  w_base64 : string -> string;
  w_print : Data -> string
}.

Definition checked (e : option string) : res string unit := match e with Some e => Err e | None => Ok tt end.

(** A step that must not fail: its error under a text. *)
Definition must (what : string) (e : option string) : res string unit :=
  match e with Some e => Err (what +:+ e) | None => Ok tt end.

Section Outside.
Context (w : World).

Definition createTable (c : SQLProvisioningConfig) : res string unit :=
  let dsn := buildDSN c in
  if dsn =? "" then Err ("unsupported driver: " +:+ SDriver c)
  else
    must "failed to connect to database: " (w_sql_open w (SDriver c) dsn);;
    must "failed to ping database: " (w_sql_ping w dsn);;
    must "failed to create table: " (w_sql_exec w dsn (buildCreateTableSQL c)).

(** The broker asked is the first one; the list is not empty after parsing. *)
Definition createTopic (c : KafkaProvisioningConfig) : res string unit :=
  match KBrokers c with
  | [] => Panic
  | broker :: _ =>
      must "failed to connect to kafka: " (w_kafka_dial w broker);;
      match w_kafka_controller w broker with
      | inl e => Err ("failed to get controller: " +:+ e)
      | inr controller =>
          must "failed to connect to controller: " (w_kafka_dial w controller);;
          must "failed to create topic: " (w_kafka_create w controller (topic_config c))
      end
  end.

(** An index that is already there counts as created. The type of the error is read from an
    object under [error]: anything else there panics. *)
Definition createIndex (c : ElasticsearchProvisioningConfig) : res string unit :=
  let client := client_config c in
  must "failed to create elasticsearch client: " (w_es_client w client);;
  match w_es_create w client (EIndexName c) (index_body c) with
  | ESCreated => Ok tt
  | ESFailed e => Err ("failed to create index: " +:+ e)
  | ESRefused status None => Err ("failed to create index: " +:+ status)
  | ESRefused _ (Some body) =>
      match body !! "error" with
      | Some (VMap m) =>
          if str_field m "type" =? "resource_already_exists_exception" then Ok tt
          else Err ("failed to create index: " +:+ w_print w body)
      | _ => Panic
      end
  end.

Definition createIndexes (c : MongoDBProvisioningConfig) : res string unit :=
  for_each (fun i => must "" (w_mongo_index w (MURI c) (MDatabase c) (CollectionName c) (index_model (w_map_order w) i))) (Indexes c).

Definition createCollection (c : MongoDBProvisioningConfig) : res string unit :=
  must "failed to connect to mongodb: " (w_mongo_connect w (MURI c));;
  must "failed to ping mongodb: " (w_mongo_ping w (MURI c));;
  match w_mongo_create w (MURI c) (MDatabase c) (CollectionName c) (collection_options c) with
  | MongoRefused false text =>
      if text =? "NamespaceExists" then wrap_err (fun e => "failed to create indexes: " +:+ e) (createIndexes c)
      else Err ("failed to create collection: " +:+ text)
  | _ => wrap_err (fun e => "failed to create indexes: " +:+ e) (createIndexes c)
  end.

(** The loop of attempts: [n] are left, [i] were made; [last] is the error of the last one. *)
Fixpoint attempts (c : RestAPIProvisioningConfig) (url : string) (n i : nat) (last : option string) : option string * nat :=
  match n with
  | O => (last, i)
  | S n =>
      match w_bad_request w "GET" url with
      | Some e => attempts c url n (S i) (Some e)
      | None =>
      match w_http w i (createRequest (w_base64 w) "GET" url "" c) with
      | inl e => attempts c url n (S i) (Some ("failed to connect to API: " +:+ e))
      | inr (code, status) =>
          if ((200 <=? code) && (code <? 300))%Z then (None, S i)
          else if (code =? 404)%Z && (ValidateEndpoint c =? "") then (None, S i)
          else if ((code =? 401) || (code =? 403))%Z then (Some ("authentication failed: " +:+ status), S i)
          else attempts c url n (S i) (Some ("unexpected status code: " +:+ status))
      end
      end
  end.

(** [for i := 0; i <= RetryCount; i++]; the error, if any, and the number of requests. *)
Definition validateEndpoint (c : RestAPIProvisioningConfig) : option string * nat :=
  attempts c (BaseURL c +:+ ValidateEndpoint c) (Z.to_nat (RetryCount c + 1)) 0 None.

Definition TestEndpoint (payload : string) (body_of : nat -> string) (c : RestAPIProvisioningConfig) : res string unit :=
  checked (w_bad_request w (RMethod c) (BaseURL c +:+ Endpoint c));;
  match w_http w 0 (createRequest (w_base64 w) (RMethod c) (BaseURL c +:+ Endpoint c) payload c) with
  | inl e => Err ("failed to send test request: " +:+ e)
  | inr (code, status) => if (400 <=? code)%Z then Err ("test request failed: " +:+ status +:+ " - " +:+ body_of 0) else Ok tt
  end.
End Outside.

Definition GetEndpointInfo (c : RestAPIProvisioningConfig) : Data :=
  <["full_url" := VString (BaseURL c +:+ Endpoint c)]> (<["method" := VString (RMethod c)]>
    (<["auth_type" := VString (RAuthType c)]> {["timeout" := VInt KInt (Timeout c)]})).

(** ** Looking up and removing what was made *)

Section Removal.
Context (w : World).
(** A query for one row ([inr false] for none), the partitions of a topic, the removal of a
    topic, a call of the index interface with its status, the collections of a name and the
    removal of one. *)
Context (sql_row : string -> string -> string + bool).
Context (kafka_partitions : string -> string -> string + nat) (kafka_delete : string -> string -> option string).
Context (es_call : ESClient -> string -> string -> Data -> string + (Z * string)).
Context (mongo_list : string -> string -> string -> string + nat) (mongo_drop : string -> string -> string -> option string).

Definition exists_query (c : SQLProvisioningConfig) : string :=
  if SDriver c =? "mysql" then
    "SELECT 1 FROM information_schema.tables WHERE table_schema = '" +:+ SDatabase c +:+ "' AND table_name = '" +:+ STableName c +:+ "'"
  else if SDriver c =? "postgres" then
    "SELECT 1 FROM information_schema.tables WHERE table_catalog = '" +:+ SDatabase c +:+ "' AND table_name = '" +:+ STableName c +:+ "'"
  else "".

Definition of_sum {A} (x : string + A) : res string A := match x with inl e => Err e | inr a => Ok a end.

Definition CheckTableExists (c : SQLProvisioningConfig) : res string bool :=
  checked (w_sql_open w (SDriver c) (buildDSN c));; of_sum (sql_row (buildDSN c) (exists_query c)).

Definition DropTable (c : SQLProvisioningConfig) : res string unit :=
  checked (w_sql_open w (SDriver c) (buildDSN c));;
  checked (w_sql_exec w (buildDSN c) ("DROP TABLE IF EXISTS " +:+ STableName c)).

(** [Panic] is the first element of an empty list. *)
Definition CheckTopicExists (brokers : list string) (topic : string) : res string bool :=
  match brokers with
  | [] => Panic
  | b :: _ =>
      must "failed to connect to kafka: " (w_kafka_dial w b);;
      Ok (match kafka_partitions b topic with inl _ => false | inr n => (0 <? n)%nat end)
  end.

Definition DeleteTopic (brokers : list string) (topic : string) : res string unit :=
  match brokers with
  | [] => Panic
  | b :: _ =>
      must "failed to connect to kafka: " (w_kafka_dial w b);;
      match w_kafka_controller w b with
      | inl e => Err ("failed to get controller: " +:+ e)
      | inr controller =>
          must "failed to connect to controller: " (w_kafka_dial w controller);; checked (kafka_delete controller topic)
      end
  end.

Definition CheckIndexExists (c : ElasticsearchProvisioningConfig) : res string bool :=
  checked (w_es_client w (client_config c));;
  a ← of_sum (es_call (client_config c) "exists" (EIndexName c) ∅);
  Ok (a.1 =? 200)%Z.

(** A call that must be answered with a status up to 299. *)
Definition es_must (c : ElasticsearchProvisioningConfig) (call what : string) (body : Data) : res string unit :=
  checked (w_es_client w (client_config c));;
  a ← of_sum (es_call (client_config c) call (EIndexName c) body);
  if (299 <? a.1)%Z then Err (what +:+ a.2) else Ok tt.

Definition DeleteIndex (c : ElasticsearchProvisioningConfig) : res string unit := es_must c "delete" "failed to delete index: " ∅.
Definition UpdateMapping (c : ElasticsearchProvisioningConfig) (mappings : Data) : res string unit :=
  es_must c "put_mapping" "failed to update mapping: " mappings.

Definition CheckCollectionExists (c : MongoDBProvisioningConfig) : res string bool :=
  checked (w_mongo_connect w (MURI c));;
  n ← of_sum (mongo_list (MURI c) (MDatabase c) (CollectionName c));
  Ok (0 <? n)%nat.

Definition DropCollection (c : MongoDBProvisioningConfig) : res string unit :=
  checked (w_mongo_connect w (MURI c));; checked (mongo_drop (MURI c) (MDatabase c) (CollectionName c)).
End Removal.

(** ** The interface *)

Record Provisioner := MkProvisioner {
  SinkType : string;
  SupportedTypes : list string;
  Provision : World -> string -> Z -> ProvisioningRequest -> res string ProvisioningResult;
  Validate : Data -> res string unit;
  RequiresExternalSetup : bool;
  GetExternalSetupURL : ProvisioningRequest -> string
}.

Definition NoopProvisioner (sink : string) : Provisioner := {|
  SinkType := sink;
  SupportedTypes := [ProvisioningTypeNone];
  Provision _ id now req :=
    Ok (MkProvResult id (PRID req) (PRPipeline req) (PRSinkType req) ProvisioningStatusSkipped nothing_made None
          "No provisioning required for this sink type" "" (Some now) "");
  Validate _ := Ok tt;
  RequiresExternalSetup := false;
  GetExternalSetupURL _ := ""
|}.

Definition external_url (base : string) (req : ProvisioningRequest) : string :=
  if negb (PRExternalURL req =? "") then PRExternalURL req
  else if negb (base =? "") then
    base +:+ "?pipeline_id=" +:+ PRPipeline req +:+ "&sink=" +:+ PRSinkName req +:+ "&callback=" +:+ PRCallbackURL req
  else "".

Definition NewExternalProvisioner (sink base : string) : Provisioner := {|
  SinkType := sink;
  SupportedTypes := [ProvisioningTypeExternal];
  Provision _ id _ req :=
    Ok (pending_result id req ("Waiting for external provisioning. Redirect to: " +:+ external_url base req) (external_url base req));
  Validate _ := Ok tt;
  RequiresExternalSetup := true;
  GetExternalSetupURL := external_url base
|}.

(** The common shape of the five others: wait for an external result, or parse, make and report. *)
Section Automatic.
Context {C : Type} (sink type what waiting failure : string) (parse : Data -> res string C) (make : World -> C -> res string unit)
  (made : C -> Made) (message : C -> string) (metadata : C -> Data).

Definition automatic_Provision (w : World) (id : string) (now : Z) (req : ProvisioningRequest) : res string ProvisioningResult :=
  if PRType req =? ProvisioningTypeExternal then Ok (pending_result id req waiting (PRExternalURL req))
  else
    match parse (PRConfig req) with
    | Err e => Err ("invalid " +:+ what +:+ " config: " +:+ e)
    | Panic => Panic
    | Ok c =>
        match make w c with
        | Err e => Ok (failed_result id now req failure e)
        | Panic => Panic
        | Ok _ => Ok (completed_result id now req (made c) (message c) (metadata c))
        end
    end.

Definition automatic : Provisioner := {|
  SinkType := sink;
  SupportedTypes := [type; ProvisioningTypeExternal];
  Provision := automatic_Provision;
  Validate c := parse c ≫= fun _ => Ok tt;
  RequiresExternalSetup := false;
  GetExternalSetupURL := PRExternalURL
|}.
End Automatic.

Definition sql_provisioner : Provisioner :=
  automatic "sql" ProvisioningTypeTableCreation "sql" "Waiting for external SQL table provisioning" "Failed to create SQL table"
    sql_parseConfig createTable (fun c => MkMade (STableName c) "" "" "" "" "" "")
    (fun c => "SQL table '" +:+ STableName c +:+ "' created successfully in database '" +:+ SDatabase c +:+ "'")
    (fun c => <["driver" := VString (SDriver c)]> (<["host" := VString (SHost c)]> (<["port" := VInt KInt (SPort c)]>
       (<["database" := VString (SDatabase c)]> {["columns" := VInt KInt (Z.of_nat (List.length (SColumns c)))]})))).

Definition kafka_provisioner : Provisioner :=
  automatic "kafka" ProvisioningTypeTopicCreation "kafka" "Waiting for external Kafka topic provisioning" "Failed to create Kafka topic"
    kafka_parseConfig createTopic (fun c => MkMade "" (KTopicName c) "" "" "" "" "")
    (fun c => "Kafka topic '" +:+ KTopicName c +:+ "' created successfully")
    (fun c => <["brokers" := VStrings (KBrokers c)]> (<["num_partitions" := VInt KInt (NumPartitions c)]>
       {["replication_factor" := VInt KInt (ReplicationFactor c)]})).

Definition es_provisioner : Provisioner :=
  automatic "elasticsearch" ProvisioningTypeIndexCreation "elasticsearch" "Waiting for external Elasticsearch index provisioning"
    "Failed to create Elasticsearch index" es_parseConfig createIndex (fun c => MkMade "" "" (EIndexName c) "" "" "" "")
    (fun c => "Elasticsearch index '" +:+ EIndexName c +:+ "' created successfully")
    (fun c => <["addresses" := VStrings (Addresses c)]> (<["number_of_shards" := VInt KInt (NumberOfShards c)]>
       (<["number_of_replicas" := VInt KInt (NumberOfReplicas c)]> {["aliases" := VStrings (Aliases c)]}))).

Definition mongo_provisioner : Provisioner :=
  automatic "mongodb" ProvisioningTypeTableCreation "mongodb" "Waiting for external MongoDB collection provisioning"
    "Failed to create MongoDB collection" mongo_parseConfig createCollection (fun c => MkMade (CollectionName c) "" "" "" "" "" "")
    (fun c => "MongoDB collection '" +:+ CollectionName c +:+ "' created successfully in database '" +:+ MDatabase c +:+ "'")
    (fun c => <["database" := VString (MDatabase c)]> (<["collection" := VString (CollectionName c)]>
       (<["capped" := VBool (Capped c)]> {["indexes" := VInt KInt (Z.of_nat (List.length (Indexes c)))]}))).

Definition rest_provisioner : Provisioner :=
  automatic "rest_api" ProvisioningTypeAPISetup "rest api" "Waiting for external REST API provisioning"
    "Failed to validate REST API endpoint" rest_parseConfig (fun w c => checked (validateEndpoint w c).1)
    (fun c => MkMade "" "" "" "" "" (BaseURL c +:+ Endpoint c) "")
    (fun c => "REST API endpoint '" +:+ BaseURL c +:+ Endpoint c +:+ "' validated successfully")
    (fun c => <["base_url" := VString (BaseURL c)]> (<["endpoint" := VString (Endpoint c)]>
       (<["method" := VString (RMethod c)]> {["auth_type" := VString (RAuthType c)]}))).

(** ** The registry and the manager (provisioner.go) *)

Definition Registry := gmap string Provisioner.

Definition Register (p : Provisioner) (r : Registry) : Registry := <[SinkType p := p]> r.

Definition Global : Registry :=
  foldl (fun r p => Register p r) ∅
    [NoopProvisioner "stub"; NoopProvisioner "file"; NoopProvisioner "stdout";
     kafka_provisioner; sql_provisioner; mongo_provisioner; es_provisioner; rest_provisioner;
     NewExternalProvisioner "hbase" ""; NewExternalProvisioner "hdfs" ""; NewExternalProvisioner "s3" ""].

(** The results are shared: the caller of [StartProvisioning] and the manager hold the same
    one. [results] is the store, [pendingResults] has the places of those not yet closed. *)
Record Manager := MkManager {
  registry : Registry;
  results : list ProvisioningResult;
  pendingResults : gmap string nat
}.

Definition NewManager : Manager := MkManager Global [] ∅.

Definition StartProvisioning (w : World) (id : string) (now : Z) (req : ProvisioningRequest) (m : Manager) : res string nat * Manager :=
  match registry m !! PRSinkType req with
  | None => (Err ("no provisioner found for sink type: " +:+ PRSinkType req), m)
  | Some p =>
      match Validate p (PRConfig req) with
      | Err e => (Err ("invalid config: " +:+ e), m)
      | Panic => (Panic, m)
      | Ok _ =>
          match Provision p w id now req with
          | Err e => (Err ("provisioning failed: " +:+ e), m)
          | Panic => (Panic, m)
          | Ok r =>
              let a := List.length (results m) in
              (Ok a, MkManager (registry m) (results m ++ [r])
                       (if PSStatus r =? ProvisioningStatusPending then <[PRID req := a]> (pendingResults m) else pendingResults m))
          end
      end
  end.

(** The fields a completion overwrites; the identifiers stay. *)
Definition complete_with (now : Z) (r pending : ProvisioningResult) : ProvisioningResult :=
  MkProvResult (PSID pending) (PSRequest pending) (PSPipeline pending) (PSSinkType pending) (PSStatus r) (PSMade r) (PSMetadata r)
    (PSMessage r) (PSErrorDetail r) (Some now) (PSCompletedBy r).

Definition closes (status : string) : bool :=
  (status =? ProvisioningStatusCompleted) || (status =? ProvisioningStatusFailed).

Definition CompleteProvisioning (now : Z) (requestID : string) (r : ProvisioningResult) (m : Manager) : res string unit * Manager :=
  match pendingResults m !! requestID with
  | None => (Err ("no pending provisioning found for request: " +:+ requestID), m)
  | Some a =>
      (Ok tt, MkManager (registry m) (alter (complete_with now r) a (results m))
                (if closes (PSStatus r) then delete requestID (pendingResults m) else pendingResults m))
  end.

Definition GetPendingResult (requestID : string) (m : Manager) : option ProvisioningResult :=
  pendingResults m !! requestID ≫= fun a => results m !! a.

Definition GetRequirements (sinkType : string) : option SinkRequirement :=
  List.find (fun r => SRType r =? sinkType) GetSinkRequirements.

(** ** What a provisioner promises *)

Class ProvisionerLaws (p : Provisioner) : Prop := {
  (** A configuration that passes [Validate] is not refused by [Provision]. *)
  validated_runs w id now req e : Validate p (PRConfig req) = Ok tt -> Provision p w id now req <> Err e;
  (** A result belongs to its request. *)
  result_of_request w id now req r :
    Provision p w id now req = Ok r -> PSID r = id /\ PSRequest r = PRID req /\ PSPipeline r = PRPipeline req /\ PSSinkType r = PRSinkType req;
  (** Only a pending result has no time of completion. *)
  pending_is_open w id now req r :
    Provision p w id now req = Ok r -> (PSStatus r = ProvisioningStatusPending <-> PSCompletedAt r = None);
  validate_total c : Validate p c <> Panic
}.

#[export] Instance noop_laws sink : ProvisionerLaws (NoopProvisioner sink).
Proof. split; cbn; try done; intros; by simplify_eq/=. Qed.

#[export] Instance external_laws sink base : ProvisionerLaws (NewExternalProvisioner sink base).
Proof. split; cbn; try done; intros; by simplify_eq/=. Qed.

Lemma automatic_laws {C} sink type what waiting failure parse (make : World -> C -> res string unit) made message metadata :
  (forall c, parse c <> Panic) -> ProvisionerLaws (automatic sink type what waiting failure parse make made message metadata).
Proof.
  intros Hp. split; cbn; unfold automatic_Provision.
  - intros w id now req e Hv. destruct (PRType req =? _); [done|]. destruct (parse (PRConfig req)); [|done|done].
    by destruct (make w _).
  - intros w id now req r H. destruct (PRType req =? _); [by simplify_eq/=|].
    destruct (parse (PRConfig req)); [|done|done]. destruct (make w _); by simplify_eq/=.
  - intros w id now req r H. destruct (PRType req =? _); [by simplify_eq/=|].
    destruct (parse (PRConfig req)); [|done|done]. destruct (make w _); by simplify_eq/=.
  - intros c H. specialize (Hp c). by destruct (parse c).
Qed.

Lemma required_total c k : required c k <> Panic.
Proof. unfold required. by destruct (_ =? _). Qed.
Lemma required_list_total c k : required_list c k <> Panic.
Proof. unfold required_list. by case_match. Qed.

(** Parsing never panics: it is a chain of required fields. *)
Ltac parses :=
  intros c; cbn;
  repeat match goal with
  | |- context [required c ?k] => pose proof (required_total c k); destruct (required c k); cbn; try done
  | |- context [required_list c ?k] => pose proof (required_list_total c k); destruct (required_list c k); cbn; try done
  end.

#[export] Instance sql_laws : ProvisionerLaws sql_provisioner.
Proof. apply automatic_laws. unfold sql_parseConfig. parses. Qed.
#[export] Instance kafka_laws : ProvisionerLaws kafka_provisioner.
Proof. apply automatic_laws. unfold kafka_parseConfig. parses. Qed.
#[export] Instance es_laws : ProvisionerLaws es_provisioner.
Proof. apply automatic_laws. unfold es_parseConfig. parses. Qed.
#[export] Instance mongo_laws : ProvisionerLaws mongo_provisioner.
Proof. apply automatic_laws. unfold mongo_parseConfig. parses. Qed.
#[export] Instance rest_laws : ProvisionerLaws rest_provisioner.
Proof. apply automatic_laws. unfold rest_parseConfig. parses. Qed.

(** Provisioning an index panics exactly when it is refused with an object whose [error] is
    not an object, as a request for a wrong address is. *)
Lemma es_error_text_panics w c :
  createIndex w c = Panic <->
  w_es_client w (client_config c) = None /\
  exists status body, w_es_create w (client_config c) (EIndexName c) (index_body c) = ESRefused status (Some body) /\
    forall m, body !! "error" <> Some (VMap m).
Proof.
  unfold createIndex. destruct (w_es_client w _); cbn; [naive_solver|].
  destruct (w_es_create w _ _ _) as [|e|status [body|]]; [naive_solver..| |naive_solver].
  destruct (body !! "error") as [v|] eqn:Hb; [|naive_solver].
  destruct v; try naive_solver. destruct (_ =? _); naive_solver.
Qed.

(** ** Which provisioners panic *)

(** Provisioning that does not wait for an external result and is answered by
    Elasticsearch with a refusal whose [error] is not an object. *)
Definition index_refused_in_text (w : World) (req : ProvisioningRequest) : Prop :=
  PRSinkType req = "elasticsearch" /\ PRType req <> ProvisioningTypeExternal /\
  exists c, es_parseConfig (PRConfig req) = Ok c /\ w_es_client w (client_config c) = None /\
    exists status body,
      w_es_create w (client_config c) (EIndexName c) (index_body c) = ESRefused status (Some body) /\
      forall m, body !! "error" <> Some (VMap m).

Definition panics_in_text (k : string) (p : Provisioner) : Prop :=
  forall w id now req, PRSinkType req = k ->
    (Provision p w id now req = Panic <-> index_refused_in_text w req).

Lemma panics_never k p :
  k <> "elasticsearch" -> (forall w id now req, Provision p w id now req <> Panic) -> panics_in_text k p.
Proof. intros Hk Hp w id now req E. split; [by intros ?%Hp|]. intros [? _]. congruence. Qed.

Lemma automatic_panics {C} sink type what waiting failure parse (make : World -> C -> res string unit) made message metadata
    w id now req :
  (forall c, parse c <> Panic) ->
  Provision (automatic sink type what waiting failure parse make made message metadata) w id now req = Panic <->
  PRType req <> ProvisioningTypeExternal /\ exists c, parse (PRConfig req) = Ok c /\ make w c = Panic.
Proof.
  intros Hp. cbn. unfold automatic_Provision. destruct (String.eqb_spec (PRType req) ProvisioningTypeExternal); [naive_solver|].
  specialize (Hp (PRConfig req)). destruct (parse (PRConfig req)) as [c| |]; [|naive_solver|done].
  destruct (make w c) eqn:E; split; try done.
  - intros (_ & c' & [= <-] & H). congruence.
  - intros (_ & c' & [= <-] & H). congruence.
  - intros _. split; [done|]. by exists c.
Qed.

Lemma automatic_never {C} sink type what waiting failure parse (make : World -> C -> res string unit) made message metadata :
  sink <> "elasticsearch" -> (forall c, parse c <> Panic) ->
  (forall w c x, parse c = Ok x -> make w x <> Panic) ->
  panics_in_text sink (automatic sink type what waiting failure parse make made message metadata).
Proof.
  intros Hs Hp Hm. apply panics_never; [done|]. intros w id now req H.
  apply automatic_panics in H as (_ & c & Hc & H); [|done]. by apply (Hm w _ _ Hc).
Qed.

Lemma must_total what e : must what e <> Panic.
Proof. by destruct e. Qed.

Lemma seq_total {E A} (m : res E unit) (k : unit -> res E A) : m <> Panic -> (forall u, k u <> Panic) -> m ≫= k <> Panic.
Proof. intros Hm Hk. destruct m; cbn; [apply Hk|done|done]. Qed.

Lemma createTable_total w c : createTable w c <> Panic.
Proof. unfold createTable. destruct (_ =? _); [done|]. repeat (apply seq_total; [apply must_total|intros _]). apply must_total. Qed.

Lemma required_list_nonempty c k : required_list c k <> Ok [].
Proof. unfold required_list. by case_match. Qed.

Lemma createTopic_total w c x : kafka_parseConfig c = Ok x -> createTopic w x <> Panic.
Proof.
  unfold kafka_parseConfig. intros H. apply bind_ok in H as (brokers & Hb & H). apply bind_ok in H as (topic & _ & [= <-]).
  unfold createTopic. cbn [KBrokers]. destruct brokers as [|b brokers].
  { by apply required_list_nonempty in Hb. }
  apply seq_total; [apply must_total|intros _]. destruct (w_kafka_controller w b); [done|].
  apply seq_total; [apply must_total|intros _]. apply must_total.
Qed.

Lemma createIndexes_total w c : createIndexes w c <> Panic.
Proof.
  unfold createIndexes. induction (Indexes c) as [|i l IH]; [done|]. cbn [for_each].
  apply seq_total; [apply must_total|intros _; exact IH].
Qed.

Lemma createCollection_total w c : createCollection w c <> Panic.
Proof.
  unfold createCollection. do 2 (apply seq_total; [apply must_total|intros _]).
  pose proof (createIndexes_total w c). destruct (createIndexes w c); repeat case_match; done.
Qed.

Lemma es_panics : panics_in_text "elasticsearch" es_provisioner.
Proof.
  intros w id now req E. unfold es_provisioner. rewrite automatic_panics by (unfold es_parseConfig; parses).
  unfold index_refused_in_text. setoid_rewrite es_error_text_panics. naive_solver.
Qed.

Lemma panics_register p r :
  panics_in_text (SinkType p) p -> map_Forall panics_in_text r -> map_Forall panics_in_text (Register p r).
Proof. intros Hp Hr. by apply map_Forall_insert_2. Qed.

Lemma global_panics : map_Forall panics_in_text Global.
Proof.
  unfold Global. cbn [foldl]. do 3 (apply panics_register; [by apply panics_never|]).
  apply panics_register.
  { apply automatic_never; [done|unfold rest_parseConfig; parses|]. intros w c x _. cbn. by destruct (validateEndpoint w x).1. }
  apply panics_register; [apply es_panics|]. apply panics_register.
  { apply automatic_never; [done|unfold mongo_parseConfig; parses|]. intros. apply createCollection_total. }
  apply panics_register.
  { apply automatic_never; [done|unfold sql_parseConfig; parses|]. intros. apply createTable_total. }
  apply panics_register.
  { apply automatic_never; [done|unfold kafka_parseConfig; parses|]. intros w c x. apply createTopic_total. }
  do 3 (apply panics_register; [by apply panics_never|]). apply map_Forall_empty.
Qed.

(** ** The manager against the interface *)

Definition lawful (r : Registry) : Prop := map_Forall (fun k p => SinkType p = k /\ ProvisionerLaws p) r.

Lemma lawful_register p r : ProvisionerLaws p -> lawful r -> lawful (Register p r).
Proof. intros Hp Hr. by apply map_Forall_insert_2. Qed.

Lemma lawful_global : lawful Global.
Proof. unfold Global. cbn [foldl]. repeat (apply lawful_register; [apply _|]). apply map_Forall_empty. Qed.

(** The pending results have places of their own, belong to the request they are stored
    under and are not closed. *)
Record manager_ok (m : Manager) : Prop := {
  ok_registry : registry m = Global;
  ok_pending : forall rid a, pendingResults m !! rid = Some a ->
    exists r, results m !! a = Some r /\ PSRequest r = rid /\ closes (PSStatus r) = false;
}.

Inductive ManagerCall :=
| CallStart (w : World) (id : string) (now : Z) (req : ProvisioningRequest)
| CallComplete (now : Z) (requestID : string) (r : ProvisioningResult).

Definition manager_call (c : ManagerCall) (m : Manager) : Manager :=
  match c with
  | CallStart w id now req => (StartProvisioning w id now req m).2
  | CallComplete now rid r => (CompleteProvisioning now rid r m).2
  end.

Lemma new_manager_ok : manager_ok NewManager.
Proof. by split. Qed.

Lemma manager_start_ok w id now req m : manager_ok m -> manager_ok (StartProvisioning w id now req m).2.
Proof.
  intros [Hr Hp]. unfold StartProvisioning. destruct (registry m !! PRSinkType req) as [p|] eqn:Hreg; [|done].
  destruct (Validate p _) as [[]|e|]; [|done|done]. destruct (Provision p w id now req) as [r|e|] eqn:Hprov; [|done|done].
  cbn zeta. split; [done|]. cbn [pendingResults results snd]. intros rid a Ha.
  assert (Hold : pendingResults m !! rid = Some a -> exists r', (results m ++ [r]) !! a = Some r' /\ PSRequest r' = rid /\ closes (PSStatus r') = false).
  { intros (r' & ? & ?)%Hp. exists r'. split; [|done]. by apply lookup_app_l_Some. }
  destruct (String.eqb_spec (PSStatus r) ProvisioningStatusPending) as [Hs|]; [|by apply Hold].
  apply lookup_insert_Some in Ha as [[<- <-]|[_ Ha]]; [|by apply Hold].
  exists r. rewrite list_lookup_middle by done. split; [done|]. rewrite Hs. split; [|done].
  rewrite Hr in Hreg. destruct (lawful_global _ _ Hreg) as [_ Hl]. by apply result_of_request in Hprov as (_ & ? & _).
Qed.

Lemma manager_complete_ok now rid r m : manager_ok m -> manager_ok (CompleteProvisioning now rid r m).2.
Proof.
  intros [Hr Hp]. unfold CompleteProvisioning. destruct (pendingResults m !! rid) as [a|] eqn:Ha; [|done].
  split; [done|]. cbn [pendingResults results snd]. intros rid' a' Ha'.
  assert (Hin : pendingResults m !! rid' = Some a').
  { destruct (closes (PSStatus r)); [by apply lookup_delete_Some in Ha' as [_ ?]|done]. }
  destruct (Hp _ _ Hin) as (r' & Hr' & Hid & Hc). destruct (decide (a = a')) as [<-|Hne].
  - exists (complete_with now r r'). rewrite list_lookup_alter_eq, Hr'. split; [done|]. split; [done|]. cbn.
    destruct (closes (PSStatus r)); [|done]. exfalso. destruct (Hp _ _ Ha) as (r2 & Hr2 & Hid2 & _).
    apply lookup_delete_Some in Ha' as [Hneq _]. congruence.
  - exists r'. by rewrite list_lookup_alter_ne.
Qed.

Lemma manager_calls_ok l : manager_ok (foldl (fun m c => manager_call c m) NewManager l).
Proof.
  generalize new_manager_ok. generalize NewManager.
  induction l as [|c l IH]; intros m Hm; cbn [foldl]; [done|].
  apply IH. destruct c; [by apply manager_start_ok|by apply manager_complete_ok].
Qed.

(** C35: Through every sequence of started and completed provisionings each pending entry refers
    to a stored result of its own request that is not closed. Every outcome of starting one is
    determined: an error, with the manager unchanged, exactly for an unknown sink type and for a
    configuration that does not validate; a panic, with the manager unchanged, exactly when
    Elasticsearch refuses an index with an [error] that is not an object; in every other case a
    result of that request is stored and handed to the caller, however the outside world
    answers. *)
Theorem provisioning_manager_invariant l w id now req :
  let m := foldl (fun m c => manager_call c m) NewManager l in
  let '(o, m') := StartProvisioning w id now req m in
  manager_ok m /\
  match Global !! PRSinkType req with
  | None => o = Err ("no provisioner found for sink type: " +:+ PRSinkType req) /\ m' = m
  | Some p =>
      match Validate p (PRConfig req) with
      | Err e => o = Err ("invalid config: " +:+ e) /\ m' = m
      | Panic => False
      | Ok _ =>
          (index_refused_in_text w req /\ o = Panic /\ m' = m) \/
          (~ index_refused_in_text w req /\
           exists a r, o = Ok a /\ results m' = results m ++ [r] /\ results m' !! a = Some r /\
             PSID r = id /\ PSRequest r = PRID req /\
             pendingResults m' = (if PSStatus r =? ProvisioningStatusPending
                                  then <[PRID req := a]> (pendingResults m) else pendingResults m))
      end
  end.
Proof.
  intros m. pose proof (manager_calls_ok l) as Hm. fold m in Hm. unfold StartProvisioning.
  rewrite (ok_registry _ Hm). destruct (Global !! PRSinkType req) as [p|] eqn:Hreg; [|done].
  destruct (lawful_global _ _ Hreg) as [_ Hl].
  pose proof (global_panics _ _ Hreg w id now req eq_refl) as Hpanic.
  pose proof (validate_total (PRConfig req)) as Hvt. pose proof (validated_runs w id now req) as Hrun.
  destruct (Validate p (PRConfig req)) as [[]|e'|] eqn:Hv; [|done|done].
  pose proof (result_of_request w id now req) as Hres.
  destruct (Provision p w id now req) as [r|e'|]; [|by destruct (Hrun e' eq_refl)|].
  - split; [done|]. right. split; [by intros ?%Hpanic|].
    exists (List.length (results m)), r. destruct (Hres r eq_refl) as (? & ? & _).
    split_and!; try done. cbn. by rewrite list_lookup_middle.
  - split; [done|]. left. split; [by apply Hpanic|done].
Qed.

(** The result a caller was given is the one a completion closes, and it is closed once. *)
Theorem completion_reaches_the_caller w id now req m a m1 t t' r r' :
  manager_ok m -> StartProvisioning w id now req m = (Ok a, m1) -> pendingResults m1 !! PRID req = Some a ->
  closes (PSStatus r) = true ->
  let '(o, m2) := CompleteProvisioning t (PRID req) r m1 in
  o = Ok tt /\ PSStatus <$> results m2 !! a = Some (PSStatus r) /\ GetPendingResult (PRID req) m2 = None /\
  exists e, (CompleteProvisioning t' (PRID req) r' m2).1 = Err e.
Proof.
  intros Hm Hs Ha Hc. unfold CompleteProvisioning at 1. rewrite Ha. cbn zeta. split; [done|]. cbn [results pendingResults].
  pose proof (manager_start_ok w id now req m Hm) as Hm1. rewrite Hs in Hm1. cbn in Hm1. destruct (ok_pending _ Hm1 _ _ Ha) as (r0 & Hr0 & _).
  rewrite list_lookup_alter_eq, Hr0. split; [done|]. rewrite Hc. unfold GetPendingResult, CompleteProvisioning. cbn.
  rewrite lookup_delete_eq. eauto.
Qed.

(** A world in which nothing is refused. *)
Definition willing : World := {|
  w_sql_open _ _ := None; w_sql_ping _ := None; w_sql_exec _ _ := None;
  w_kafka_dial _ := None; w_kafka_controller b := inr b; w_kafka_create _ _ := None;
  w_es_client _ := None; w_es_create _ _ _ := ESCreated;
  w_mongo_connect _ := None; w_mongo_ping _ := None; w_mongo_create _ _ _ _ := MongoCreated; w_mongo_index _ _ _ _ := None;
  w_map_order m := map_to_list m; w_bad_request _ _ := None; w_http _ _ := inr (200%Z, "200 OK"); w_base64 s := s; w_print _ := ""
|}.

Definition demo_request (sink type : string) (c : Data) : ProvisioningRequest :=
  MkProvRequest "q" "p" sink "out" type c "" "https://cb".

Lemma completion_reaches_the_caller_witness :
  let m1 := (StartProvisioning willing "r" 5 (demo_request "s3" "bucket_setup" ∅) NewManager).2 in
  let done := MkProvResult "" "" "" "" "completed" nothing_made None "" "" None "kim" in
  let '(o, m2) := CompleteProvisioning 9 "q" done m1 in
  o = Ok tt /\ PSStatus <$> results m2 !! 0 = Some "completed".
Proof.
  intros m1 done.
  pose proof (completion_reaches_the_caller willing "r" 5 (demo_request "s3" "bucket_setup" ∅) NewManager 0 m1 9 10 done done
    new_manager_ok eq_refl eq_refl eq_refl) as H.
  change (PRID (demo_request "s3" "bucket_setup" ∅)) with "q" in H.
  destruct (CompleteProvisioning 9 "q" done m1) as [o m2]. destruct H as (H1 & H2 & _). split; [exact H1|exact H2].
Defined.

(** A result with another status than completed or failed is stored with a time of
    completion and stays pending: it can be completed again. *)
Theorem in_progress_stays_pending t rid r m a r0 :
  pendingResults m !! rid = Some a -> results m !! a = Some r0 -> closes (PSStatus r) = false ->
  GetPendingResult rid (CompleteProvisioning t rid r m).2 = Some (complete_with t r r0) /\
  PSCompletedAt (complete_with t r r0) = Some t.
Proof.
  intros Ha Hr Hc. unfold CompleteProvisioning, GetPendingResult. rewrite Ha, Hc. cbn. rewrite Ha. cbn.
  by rewrite list_lookup_alter_eq, Hr.
Qed.

(** ** What each provisioner does *)

Section AutomaticSpec.
Context {C : Type} (sink type what waiting failure : string) (parse : Data -> res string C) (make : World -> C -> res string unit)
  (made : C -> Made) (message : C -> string) (metadata : C -> Data).
Let p := automatic sink type what waiting failure parse make made message metadata.

(** A result is completed exactly when the configuration parses and the outside accepted what
    it asks for; its names are those of the configuration. *)
Lemma completed_iff_made w id now req r :
  PRType req <> ProvisioningTypeExternal ->
  Provision p w id now req = Ok r /\ PSStatus r = ProvisioningStatusCompleted <->
  exists c, parse (PRConfig req) = Ok c /\ make w c = Ok tt /\ r = completed_result id now req (made c) (message c) (metadata c).
Proof.
  intros Ht%String.eqb_neq. cbn. unfold automatic_Provision. rewrite Ht.
  destruct (parse (PRConfig req)) as [c|e|]; [|split; [by intros [? _]|by intros (? & ? & _)]..].
  destruct (make w c) as [[]|e|] eqn:Hm; split.
  - intros [[= <-] _]. eauto.
  - by intros (c' & [= <-] & _ & ->).
  - intros [[= <-] Hs]. discriminate.
  - intros (c' & [= <-] & Hm' & _). congruence.
  - by intros [? _].
  - intros (c' & [= <-] & Hm' & _). congruence.
Qed.
End AutomaticSpec.

Lemma must_ok what e : must what e = Ok tt <-> e = None.
Proof. by destruct e. Qed.

Lemma must_then what e (k : res string unit) : (must what e;; k) = Ok tt <-> e = None /\ k = Ok tt.
Proof. destruct e; cbn; naive_solver. Qed.

(** A table is reported as created exactly when the database could be opened and reached and
    took the statement for the columns of the configuration. *)
Theorem sql_table_is_created w id now req c :
  PRType req <> ProvisioningTypeExternal -> sql_parseConfig (PRConfig req) = Ok c ->
  (exists r, Provision sql_provisioner w id now req = Ok r /\ PSStatus r = ProvisioningStatusCompleted /\
             MTableName (PSMade r) = STableName c) <->
  (SDriver c = "mysql" \/ SDriver c = "postgres") /\ w_sql_open w (SDriver c) (buildDSN c) = None /\
  w_sql_ping w (buildDSN c) = None /\ w_sql_exec w (buildDSN c) (buildCreateTableSQL c) = None.
Proof.
  intros Ht Hc.
  assert (Hd : (buildDSN c =? "") = negb ((SDriver c =? "mysql") || (SDriver c =? "postgres"))).
  { unfold buildDSN. destruct (SDriver c =? "mysql"); cbn; [by destruct (SUsername c)|]. by destruct (SDriver c =? "postgres"). }
  assert (Hmk : createTable w c = Ok tt <-> (SDriver c = "mysql" \/ SDriver c = "postgres") /\ w_sql_open w (SDriver c) (buildDSN c) = None /\
    w_sql_ping w (buildDSN c) = None /\ w_sql_exec w (buildDSN c) (buildCreateTableSQL c) = None).
  { unfold createTable. rewrite Hd. rewrite <- !String.eqb_eq, <- orb_true_iff.
    destruct (_ || _); cbn [negb]; [|naive_solver]. rewrite !must_then, must_ok. tauto. }
  rewrite <- Hmk. split.
  - intros (r & Hr & Hs & _). apply (conj Hr) in Hs. apply completed_iff_made in Hs as (c' & Hc' & Hm & _); [|done]. congruence.
  - intros Hm. apply String.eqb_neq in Ht. cbn. unfold automatic_Provision. rewrite Ht, Hc, Hm. by eexists.
Qed.

Definition sql_demo : Data :=
  <["host" := VString "db"]> (<["database" := VString "shop"]> (<["username" := VString "root"]> {["table_name" := VString "orders"]})).
Definition sql_demo_config : SQLProvisioningConfig :=
  MkSQLConfig "mysql" "db" 3306 "shop" "root" "" "orders" getDefaultColumns "disable" "utf8mb4".

Lemma sql_table_is_created_witness :
  exists r, Provision sql_provisioner willing "r" 5 (demo_request "sql" "table_creation" sql_demo) = Ok r /\
    PSStatus r = ProvisioningStatusCompleted /\ MTableName (PSMade r) = "orders".
Proof.
  apply (proj2 (sql_table_is_created willing "r" 5 (demo_request "sql" "table_creation" sql_demo) sql_demo_config
    ltac:(discriminate) ltac:(vm_compute; reflexivity))).
  split; [left; reflexivity|]. repeat split; reflexivity.
Defined.

(** A configuration that parses names its host, database, user and table and has columns. *)
Theorem sql_config_is_complete c cfg :
  sql_parseConfig c = Ok cfg ->
  SHost cfg <> "" /\ SDatabase cfg <> "" /\ SUsername cfg <> "" /\ STableName cfg <> "" /\ SColumns cfg <> [] /\ SDriver cfg <> "".
Proof.
  unfold sql_parseConfig. intros H. apply bind_ok in H as (h & Hh & H). apply bind_ok in H as (d & Hd & H).
  apply bind_ok in H as (u & Hu & H). apply bind_ok in H as (t & Ht & [= <-]). cbn.
  assert (Hreq : forall k v, required c k = Ok v -> v <> "").
  { intros k v. unfold required. destruct (String.eqb_spec (str_field c k) ""); by intros [= <-]. }
  split_and!; [by eapply Hreq..| |].
  - unfold parse_columns. by case_match.
  - unfold nonempty_or. by destruct (String.eqb_spec (str_field c "driver") "").
Qed.

(** The settings of the configuration win over the numbers of shards and replicas. *)
Theorem es_settings_win c s k v :
  Settings c = Some s -> s !! k = Some v -> index_settings c !! k = Some v.
Proof. intros Hs Hk. unfold index_settings. rewrite Hs. by apply lookup_union_Some_l. Qed.

(** ** Attempts to reach an endpoint *)

(** An answer that ends the loop, and whether it is a success. *)
Definition verdict (c : RestAPIProvisioningConfig) (a : string + (Z * string)) : option bool :=
  match a with
  | inl _ => None
  | inr (code, _) =>
      if ((200 <=? code) && (code <? 300))%Z then Some true
      else if (code =? 404)%Z && (ValidateEndpoint c =? "") then Some true
      else if ((code =? 401) || (code =? 403))%Z then Some false else None
  end.

Definition attempt (w : World) (c : RestAPIProvisioningConfig) (url : string) (k : nat) : option bool :=
  match w_bad_request w "GET" url with
  | Some _ => None
  | None => verdict c (w_http w k (createRequest (w_base64 w) "GET" url "" c))
  end.

(** Of [n] attempts from the [i]-th on: one ends the loop, or all are made. *)
Definition outcome (ask : nat -> option bool) (n i : nat) (last e : option string) (used : nat) : Prop :=
  (exists k, i <= k < i + n /\ used = S k /\ (forall j, i <= j < k -> ask j = None) /\
             ask k = Some (match e with None => true | Some _ => false end)) \/
  (used = i + n /\ (forall j, i <= j < used -> ask j = None) /\ (n = 0 /\ e = last \/ 0 < n /\ e <> None)).

Lemma outcome_now ask n i last e :
  ask i = Some (match e with None => true | Some _ => false end) -> outcome ask (S n) i last e (S i).
Proof. intros H. left. exists i. split; [lia|]. split; [done|]. split; [lia|done]. Qed.

Lemma outcome_later ask n i last l e used :
  ask i = None -> l <> None -> outcome ask n (S i) l e used -> outcome ask (S n) i last e used.
Proof.
  intros Hi Hl [(k & Hk & -> & Hb & Ha)|(-> & Hb & Hz)].
  - left. exists k. split; [lia|]. split; [done|]. split; [|done]. intros j Hj.
    destruct (decide (j = i)) as [->|]; [done|]. apply Hb. lia.
  - right. split; [lia|]. split; [|right; split; [lia|destruct Hz as [[_ ->]|[_ ?]]; done]].
    intros j Hj. destruct (decide (j = i)) as [->|]; [done|]. apply Hb. lia.
Qed.

Lemma attempts_spec w c url n i last :
  let '(e, used) := attempts w c url n i last in outcome (attempt w c url) n i last e used.
Proof.
  revert i last. induction n as [|n IH]; intros i last; cbn [attempts].
  { right. split; [lia|]. split; [lia|by left]. }
  assert (Hask : attempt w c url i = match w_bad_request w "GET" url with
    | Some _ => None | None => verdict c (w_http w i (createRequest (w_base64 w) "GET" url "" c)) end) by done.
  assert (Hgo : forall l, attempt w c url i = None -> l <> None ->
    let '(e, used) := attempts w c url n (S i) l in outcome (attempt w c url) (S n) i last e used).
  { intros l Hi Hl. specialize (IH (S i) l). destruct (attempts w c url n (S i) l). by eapply outcome_later. }
  destruct (w_bad_request w "GET" url); [by apply Hgo|].
  destruct (w_http w i _) as [e|[code status]]; [by apply Hgo|]. cbn [verdict] in Hask.
  destruct (_ && (code <? 300)%Z); [by apply outcome_now|].
  destruct ((code =? 404)%Z && _); [by apply outcome_now|].
  destruct ((code =? 401)%Z || _); [by apply outcome_now|]. by apply Hgo.
Qed.

(** Validating an endpoint makes at most one request more than the retries, and for a retry
    count that is not negative it succeeds exactly when some attempt is answered by a success
    and no earlier one by a success or a refusal of the credentials. *)
Theorem endpoint_is_validated w c :
  let ask := attempt w c (BaseURL c +:+ ValidateEndpoint c) in
  let '(e, used) := validateEndpoint w c in
  (Z.of_nat used <= Z.max 0 (RetryCount c + 1))%Z /\
  ((0 <= RetryCount c)%Z ->
    (e = None <-> exists k, (Z.of_nat k <= RetryCount c)%Z /\ ask k = Some true /\ forall j, j < k -> ask j = None)).
Proof.
  cbn zeta. unfold validateEndpoint.
  pose proof (attempts_spec w c (BaseURL c +:+ ValidateEndpoint c) (Z.to_nat (RetryCount c + 1)) 0 None) as H.
  set (ask := attempt w c _) in *. destruct (attempts _ _ _ _ _ _) as [e used]. cbn in H.
  split; [destruct H as [(k & ? & -> & _)|(-> & _)]; lia|]. intros Hr. split.
  - intros ->. destruct H as [(k & ? & -> & Hb & Ha)|(_ & _ & [[? _]|[_ ?]])]; [|lia|done].
    exists k. split; [lia|]. split; [done|]. intros j Hj. apply Hb. lia.
  - intros (k & Hk & Ha & Hb). destruct H as [(k' & _ & -> & Hb' & Ha')|(-> & Hb' & _)].
    + assert (k = k') as ->.
      { destruct (lt_eq_lt_dec k k') as [[?|?]|?]; [|done|].
        - rewrite Hb' in Ha by lia. done.
        - rewrite Hb in Ha' by lia. done. }
      rewrite Ha in Ha'. by destruct e.
    + rewrite Hb' in Ha by lia. done.
Qed.

(** With a negative retry count no request is made and the endpoint counts as validated. *)
Theorem negative_retries_validate_nothing w c :
  (RetryCount c < 0)%Z -> validateEndpoint w c = (None, 0).
Proof. intros H. unfold validateEndpoint. by replace (Z.to_nat _) with 0 by lia. Qed.

(** ** The registry and the list of requirements *)

Definition supports (sink type : string) : bool :=
  match Global !! sink with Some p => bool_decide (type ∈ SupportedTypes p) | None => false end.

(** Every sink with requirements has a provisioner, which supports the types the requirements
    name, except for the tables of HBase and the buckets of S3. *)
Theorem requirements_are_supported :
  forall r type, r ∈ GetSinkRequirements -> type ∈ ProvisioningTypes r ->
    supports (SRType r) type = negb (((SRType r =? "hbase") && (type =? "table_creation")) || ((SRType r =? "s3") && (type =? "bucket_setup"))).
Proof.
  assert (H : Forall (fun r => Forall (fun type => supports (SRType r) type =
    negb (((SRType r =? "hbase") && (type =? "table_creation")) || ((SRType r =? "s3") && (type =? "bucket_setup")))) (ProvisioningTypes r))
    GetSinkRequirements) by (repeat constructor).
  intros r type Hr Ht. rewrite Forall_forall in H. specialize (H r Hr). rewrite Forall_forall in H. by apply H.
Qed.

(** A request for external provisioning of a sink with an automatic provisioner is refused
    unless it has the configuration of an automatic one: the configuration is checked first. *)
Theorem external_requests_need_a_configuration w id now m :
  registry m = Global ->
  (StartProvisioning w id now (demo_request "sql" ProvisioningTypeExternal ∅) m).1 = Err "invalid config: host is required".
Proof. intros H. unfold StartProvisioning. rewrite H. reflexivity. Qed.
