(* ===== verification/KafkaService.v ===== *)
(** * The Kafka service of the control plane (internal/services/kafka_service.go)

    The topics between the pipelines of a workflow, over the calls to Kafka that the
    provisioner of topics uses too. *)

From Stdlib Require Import String.
From stdpp Require Import pretty.
From S2P Require Import Prelude GoString GoValue Provisioners.
Local Open Scope string_scope.
Local Open Scope list_scope.

Record KafkaServiceConfig := MkServiceConfig {
  SC_Brokers : list string;
  SC_NumPartitions : Z;
  SC_ReplicationFactor : Z;
  SC_RetentionMs : Z
}.

Record KafkaService := MkKafkaService {
  brokers : list string;
  numPartitions : Z;
  replicationFactor : Z;
  retentionMs : Z
}.

Definition no_config : KafkaServiceConfig := MkServiceConfig [] 0 0 0.

Definition or_positive (n def : Z) : Z := if (n <=? 0)%Z then def else n.

(** [env] is the value of [KAFKA_BROKERS], empty when it is not set. *)
Definition NewKafkaService (env : string) (cfg : option KafkaServiceConfig) : KafkaService :=
  let cfg := default no_config cfg in
  MkKafkaService
    (match SC_Brokers cfg with
     | [] => if env =? "" then ["localhost:9092"] else Split env ","
     | l => l
     end)
    (or_positive (SC_NumPartitions cfg) 3) (or_positive (SC_ReplicationFactor cfg) 1)
    (or_positive (SC_RetentionMs cfg) (7 * 24 * 60 * 60 * 1000)).

Section Calls.
Context (w : World).
(** The partitions of a topic and the removal of one. *)
Context (kafka_partitions : string -> string -> string + nat) (kafka_delete : string -> string -> option string).

Definition service_topic (s : KafkaService) (topicName : string) : TopicConfig :=
  MkTopic topicName (numPartitions s) (replicationFactor s) [("retention.ms", pretty (retentionMs s))].

(** The connection to the controller, through the first broker. *)
Definition with_controller {A} (s : KafkaService) (f : string -> res string A) : res string A :=
  match brokers s with
  | [] => Err "no kafka brokers configured"
  | b :: _ =>
      must "failed to connect to kafka: " (w_kafka_dial w b);;
      match w_kafka_controller w b with
      | inl e => Err ("failed to get controller: " +:+ e)
      | inr controller => must "failed to connect to controller: " (w_kafka_dial w controller);; f controller
      end
  end.

Definition CreateTopic (s : KafkaService) (topicName : string) : res string unit :=
  with_controller s (fun controller => must "failed to create topic: " (w_kafka_create w controller (service_topic s topicName))).

Definition DeleteTopic (s : KafkaService) (topicName : string) : res string unit :=
  with_controller s (fun controller => must "failed to delete topic: " (kafka_delete controller topicName)).

(** An error of the lookup counts as an absent topic. *)
Definition TopicExists (s : KafkaService) (topicName : string) : res string bool :=
  match brokers s with
  | [] => Err "no kafka brokers configured"
  | b :: _ =>
      must "failed to connect to kafka: " (w_kafka_dial w b);;
      Ok (match kafka_partitions b topicName with inl _ => false | inr n => (0 <? n)%nat end)
  end.
End Calls.

(** ** What the service promises *)

(** A service has a broker, and positive numbers of partitions, copies and milliseconds,
    whatever it is configured with. *)
Theorem kafka_service_is_well_formed env cfg :
  let s := NewKafkaService env cfg in
  brokers s <> [] /\ (0 < numPartitions s)%Z /\ (0 < replicationFactor s)%Z /\ (0 < retentionMs s)%Z.
Proof.
  assert (Hpos : forall n d, (0 < d)%Z -> (0 < or_positive n d)%Z)
    by (intros n d; unfold or_positive; destruct (Z.leb_spec n 0); lia).
  cbn. split; [|split_and!; apply Hpos; lia].
  destruct (SC_Brokers _); [|done]. destruct (env =? ""); [done|]. unfold Split.
  destruct (String.length env); cbn; [done|]. by destruct (cut _ _) as [[]|].
Qed.

(** On the same brokers the service and the provisioner create the same topic, and succeed
    and fail alike. *)
Theorem topic_creation_agrees w env cfg topic :
  let s := NewKafkaService env cfg in
  CreateTopic w s topic =
  createTopic w (MkKafkaConfig (brokers s) topic (numPartitions s) (replicationFactor s) (retentionMs s)).
Proof.
  intros s. unfold CreateTopic, with_controller, createTopic. cbn [KBrokers].
  destruct (kafka_service_is_well_formed env cfg) as [Hb _]. fold s in Hb. destruct (brokers s); [done|reflexivity].
Qed.
