(* ===== verification/Subscriptions.v ===== *)
(** * Subscriptions of the Redis client (shared/redis/resilient_client.go)

    Each subscription has a goroutine that waits for the connection, listens, and starts over
    when its connection is lost. The goroutines are kept in a list and step between the calls;
    [info.cancel] and the context of the caller are one flag of a subscription. *)

From Stdlib Require Import String.
From S2P Require Import Prelude GoString GoValue Schema ResilientClient.
Local Open Scope string_scope.
Local Open Scope list_scope.

(** Where the goroutine is: at the head of its loop, waiting for the connection, receiving,
    sleeping before the next attempt, or over. *)
Inductive Phase := Looping | Waiting | Receiving | Sleeping | Over.

#[export] Instance Phase_eq_dec : EqDecision Phase.
Proof. solve_decision. Defined.

Record subscriptionInfo := MkSub {
  channel : string;
  done_ : bool;              (* its context is done *)
  pubsub : option bool;      (* whether the connection of the subscription is open *)
  attempts : nat;
  phase : Phase;
  backoff : Z;
  handled : list string
}.

Record SubClient := MkSubClient {
  goroutines : list subscriptionInfo;
  subscriptions : gmap string nat;
  connected_ : bool;
  client_closed : bool
}.

Definition set_sub (d : bool) (p : option bool) (ph : Phase) (i : subscriptionInfo) : subscriptionInfo :=
  MkSub (channel i) d p (attempts i) ph (backoff i) (handled i).

Definition set_goroutines (l : list subscriptionInfo) (rc : SubClient) : SubClient :=
  MkSubClient l (subscriptions rc) (connected_ rc) (client_closed rc).

Section Subscriptions.
Context (config : Config) {arch : GoArch}.

Definition Subscribe (ch : string) (rc : SubClient) : res string unit * SubClient :=
  match subscriptions rc !! ch with
  | Some _ => (Err ("already subscribed to channel: " +:+ ch), rc)
  | None =>
      (Ok tt, MkSubClient (goroutines rc ++ [MkSub ch false None 0 Looping (InitialBackoff config) []])
                (<[ch := List.length (goroutines rc)]> (subscriptions rc)) (connected_ rc) (client_closed rc))
  end.

(** [info.pubsub.Close()]: the channel the goroutine reads is closed. *)
Definition close_pubsub (i : subscriptionInfo) : subscriptionInfo := set_sub (done_ i) ((fun _ => false) <$> pubsub i) (phase i) i.
Definition cancel (i : subscriptionInfo) : subscriptionInfo := set_sub true ((fun _ => false) <$> pubsub i) (phase i) i.

Definition Unsubscribe (ch : string) (rc : SubClient) : res string unit * SubClient :=
  match subscriptions rc !! ch with
  | None => (Err ("not subscribed to channel: " +:+ ch), rc)
  | Some a =>
      (Ok tt, MkSubClient (alter cancel a (goroutines rc)) (delete ch (subscriptions rc)) (connected_ rc) (client_closed rc))
  end.

(** The two loops over the map of subscriptions. *)
Definition on_subscribed (f : subscriptionInfo -> subscriptionInfo) (rc : SubClient) : list subscriptionInfo :=
  imap (fun a i => if bool_decide (subscriptions rc !! channel i = Some a) then f i else i) (goroutines rc).

Definition resubscribeAll (rc : SubClient) : SubClient := set_goroutines (on_subscribed close_pubsub rc) rc.

Definition Close (rc : SubClient) : SubClient := MkSubClient (on_subscribed cancel rc) ∅ (connected_ rc) true.

(** What the goroutine meets when it runs: time passes, a message arrives, the channel turns
    out closed, or it notices that its context is done. *)
Inductive Met := Timer | Message (m : string) | Lost | Cancelled.

(** A step of [subscribeLoop]; [None] if the goroutine cannot move that way. *)
Definition subscribe_step (rc : SubClient) (met : Met) (i : subscriptionInfo) : option subscriptionInfo :=
  match phase i, met with
  | Looping, Cancelled => if done_ i || client_closed rc then Some (set_sub (done_ i) (pubsub i) Over i) else None
  | Looping, Timer => if done_ i || client_closed rc then None else Some (set_sub (done_ i) (pubsub i) Waiting i)
  | Waiting, Timer =>
      if connected_ rc then Some (MkSub (channel i) (done_ i) (Some true) (S (attempts i)) Receiving (backoff i) (handled i))
      else Some i
  | Waiting, Cancelled => if done_ i && negb (connected_ rc) then Some (set_sub (done_ i) (pubsub i) Over i) else None
  | Receiving, Message m =>
      Some (MkSub (channel i) (done_ i) (pubsub i) (attempts i) Receiving (InitialBackoff config) (handled i ++ [m]))
  | Receiving, Lost => Some (set_sub (done_ i) (Some false) Sleeping i)
  | Receiving, Cancelled => if done_ i then Some (set_sub true (Some false) Over i) else None
  | Sleeping, Timer => Some (MkSub (channel i) (done_ i) (pubsub i) (attempts i) Looping (next_backoff config (backoff i)) (handled i))
  | Sleeping, Cancelled => if done_ i then Some (set_sub (done_ i) (pubsub i) Over i) else None
  | _, _ => None
  end.

(** The client seen from outside: calls, changes of the connection, steps of goroutines, and
    the end of the context a caller gave to [Subscribe]. *)
Inductive sub_step : SubClient -> SubClient -> Prop :=
| do_subscribe rc ch : sub_step rc (Subscribe ch rc).2
| do_unsubscribe rc ch : sub_step rc (Unsubscribe ch rc).2
| do_resubscribe rc : sub_step rc (resubscribeAll rc)
| do_close rc : sub_step rc (Close rc)
| do_connection rc b : sub_step rc (MkSubClient (goroutines rc) (subscriptions rc) b (client_closed rc))
| do_run rc met a i i' : goroutines rc !! a = Some i -> subscribe_step rc met i = Some i' ->
    sub_step rc (set_goroutines (<[a := i']> (goroutines rc)) rc).

Definition no_subscriptions : SubClient := MkSubClient [] ∅ false false.

(** ** What the subscriptions promise *)

(** A subscription is registered exactly when it is not cancelled, and a goroutine that is
    over was cancelled or belongs to a closed client. *)
Record subs_ok (rc : SubClient) : Prop := {
  so_registered : forall ch a, subscriptions rc !! ch = Some a -> exists i, goroutines rc !! a = Some i /\ channel i = ch /\ done_ i = false;
  so_live : forall a i, goroutines rc !! a = Some i -> done_ i = false -> subscriptions rc !! channel i = Some a;
  so_over : forall a i, goroutines rc !! a = Some i -> phase i = Over -> done_ i = true \/ client_closed rc = true;
}.

Lemma subscribe_step_keeps rc met i i' :
  subscribe_step rc met i = Some i' ->
  channel i' = channel i /\ done_ i' = done_ i /\ (phase i' = Over -> done_ i = true \/ client_closed rc = true).
Proof.
  unfold subscribe_step. destruct (phase i) eqn:Hp, met; intros H; try discriminate;
    repeat case_match; try discriminate; injection H as <-; cbn;
    (split; [done|split; [congruence|try (by rewrite ?Hp)]]); intros _; bool_props; tauto.
Qed.

Lemma no_subscriptions_ok : subs_ok no_subscriptions.
Proof. split; done. Qed.

Lemma on_subscribed_lookup f rc a i' :
  on_subscribed f rc !! a = Some i' <->
  exists i, goroutines rc !! a = Some i /\ i' = if bool_decide (subscriptions rc !! channel i = Some a) then f i else i.
Proof.
  unfold on_subscribed. rewrite list_lookup_imap. destruct (goroutines rc !! a) as [i|]; cbn; [|naive_solver].
  split; [intros [= <-]; eauto|by intros (? & [= <-] & ->)].
Qed.

Lemma sub_step_ok rc rc' : sub_step rc rc' -> subs_ok rc -> subs_ok rc'.
Proof.
  intros Hs [Hr Hl Ho]. destruct Hs as [rc ch|rc ch|rc|rc|rc b|rc met a i i' Hi Hstep].
  - unfold Subscribe. destruct (subscriptions rc !! ch) as [?|] eqn:Hch; [done|]. set (n := List.length (goroutines rc)). split; cbn.
    + intros ch' a [[<- <-]|[Hne Ha]]%lookup_insert_Some.
      * eexists. split; [by apply list_lookup_middle|done].
      * destruct (Hr _ _ Ha) as (i & Hi & ?). exists i. split; [by apply lookup_app_l_Some|done].
    + intros a i [[_ Hi]|[-> <-]]%lookup_snoc_Some Hd; [|by rewrite lookup_insert_eq].
      rewrite lookup_insert_ne; [by apply Hl|]. intros ->. specialize (Hl _ _ Hi Hd). congruence.
    + intros a i [[_ Hi]|[_ <-]]%lookup_snoc_Some Hp; [by eapply Ho|done].
  - unfold Unsubscribe. destruct (subscriptions rc !! ch) as [a|] eqn:Hch; [|done]. split; cbn.
    + intros ch' a' [Hne Ha']%lookup_delete_Some. destruct (Hr _ _ Ha') as (i & Hi & Hc & Hd). exists i.
      split; [|done]. rewrite list_lookup_alter_ne; [done|]. intros ->.
      destruct (Hr _ _ Hch) as (i2 & Hi2 & Hc2 & _). congruence.
    + intros a' i Hi Hd. destruct (decide (a = a')) as [<-|Hne].
      * rewrite list_lookup_alter_eq in Hi. destruct (goroutines rc !! a); by simplify_eq/=.
      * rewrite list_lookup_alter_ne in Hi by done. rewrite lookup_delete_ne; [by apply Hl|].
        intros Hc. specialize (Hl _ _ Hi Hd). congruence.
    + intros a' i Hi Hp. destruct (decide (a = a')) as [<-|Hne].
      * rewrite list_lookup_alter_eq in Hi. destruct (goroutines rc !! a); simplify_eq/=. by left.
      * rewrite list_lookup_alter_ne in Hi by done. by eapply Ho.
  - split; cbn.
    + intros ch a Ha. destruct (Hr _ _ Ha) as (i & Hi & Hc & Hd). exists (close_pubsub i). split; [|done].
      apply on_subscribed_lookup. exists i. split; [done|]. by rewrite bool_decide_true by congruence.
    + intros a i' (i & Hi & ->)%on_subscribed_lookup Hd. case_bool_decide; cbn in *; by apply Hl.
    + intros a i' (i & Hi & ->)%on_subscribed_lookup Hp. case_bool_decide; cbn in *; by eapply Ho.
  - split; cbn.
    + done.
    + intros a i' (i & Hi & ->)%on_subscribed_lookup Hd. case_bool_decide as Hb; [done|]. by destruct (Hb (Hl _ _ Hi Hd)).
    + auto.
  - by split.
  - apply subscribe_step_keeps in Hstep as (Hc & Hd & Hp). pose proof (lookup_lt_Some _ _ _ Hi) as Hlt. split; cbn.
    + intros ch a' Ha'. destruct (Hr _ _ Ha') as (i0 & Hi0 & Hc0 & Hd0). destruct (decide (a = a')) as [<-|Hne].
      * exists i'. rewrite list_lookup_insert_eq by done. split; [done|]. split; congruence.
      * exists i0. by rewrite list_lookup_insert_ne.
    + intros a' i0 Hi0 Hd0. destruct (decide (a = a')) as [<-|Hne].
      * rewrite list_lookup_insert_eq in Hi0 by done. simplify_eq. rewrite Hc. apply Hl; [done|congruence].
      * rewrite list_lookup_insert_ne in Hi0 by done. by apply Hl.
    + intros a' i0 Hi0 Hp0. destruct (decide (a = a')) as [<-|Hne].
      * rewrite list_lookup_insert_eq in Hi0 by done. simplify_eq. rewrite Hd. by apply Hp.
      * rewrite list_lookup_insert_ne in Hi0 by done. by eapply Ho.
Qed.

(** Through every interleaving of calls, changes of the connection and steps of the
    goroutines, each registered channel has exactly one goroutine that is not cancelled, it
    is at work as long as the client is open, and no other goroutine is left uncancelled. *)
Theorem subscriptions_are_tracked rc :
  rtc sub_step no_subscriptions rc ->
  subs_ok rc /\
  forall ch, is_Some (subscriptions rc !! ch) <->
    exists a i, goroutines rc !! a = Some i /\ channel i = ch /\ done_ i = false /\
      (client_closed rc = false -> phase i <> Over) /\
      forall a' i', goroutines rc !! a' = Some i' -> channel i' = ch -> done_ i' = false -> a' = a.
Proof.
  intros Hr. assert (Hok : subs_ok rc).
  { pose proof no_subscriptions_ok as H0. induction Hr as [|x y z Hs _ IH]; [done|]. apply IH. by eapply sub_step_ok. }
  split; [done|]. intros ch. destruct Hok as [Hreg Hl Ho]. split.
  - intros [a Ha]. destruct (Hreg _ _ Ha) as (i & Hi & Hc & Hd). exists a, i. do 3 (split; [done|]). split.
    + intros Hcl Hp. destruct (Ho _ _ Hi Hp); congruence.
    + intros a' i' Hi' Hc' Hd'. specialize (Hl _ _ Hi' Hd'). congruence.
  - intros (a & i & Hi & Hc & Hd & _). specialize (Hl _ _ Hi Hd). rewrite Hc in Hl. by eexists.
Qed.

(** A cancelled goroutine can end in at most two steps of its own, whatever the connection is. *)
Theorem cancelled_subscriptions_end rc i :
  done_ i = true -> phase i <> Over ->
  exists met i', subscribe_step rc met i = Some i' /\ done_ i' = true /\
    (phase i' = Over \/ exists i'', subscribe_step rc Cancelled i' = Some i'' /\ phase i'' = Over).
Proof.
  intros Hd Hp. destruct (phase i) eqn:Hph; [| | | |done].
  - exists Cancelled. eexists. unfold subscribe_step. rewrite Hph, Hd. cbn. split; [done|]. cbn. auto.
  - destruct (connected_ rc) eqn:Hc.
    + exists Timer. eexists. unfold subscribe_step at 1. rewrite Hph, Hc. split; [done|]. cbn. split; [done|]. right.
      unfold subscribe_step. cbn. rewrite Hd. eauto.
    + exists Cancelled. eexists. unfold subscribe_step. rewrite Hph, Hd, Hc. cbn. split; [done|]. cbn. auto.
  - exists Cancelled. eexists. unfold subscribe_step. rewrite Hph, Hd. split; [done|]. cbn. auto.
  - exists Cancelled. eexists. unfold subscribe_step. rewrite Hph, Hd. split; [done|]. cbn. auto.
Qed.

(** A subscription whose caller's context ends is over but stays registered: subscribing to
    its channel again is refused. *)
Theorem ended_context_blocks_the_channel ch rc a i :
  subscriptions rc !! ch = Some a -> goroutines rc !! a = Some i -> phase i = Looping ->
  let rc1 := set_goroutines (<[a := cancel i]> (goroutines rc)) rc in
  exists i', subscribe_step rc1 Cancelled (cancel i) = Some i' /\ phase i' = Over /\
  let rc2 := set_goroutines (<[a := i']> (goroutines rc1)) rc1 in
  (Subscribe ch rc2).1 = Err ("already subscribed to channel: " +:+ ch).
Proof.
  intros Ha Hi Hp rc1. eexists. unfold subscribe_step. cbn [phase cancel set_sub]. rewrite Hp. cbn. split; [done|]. split; [done|].
  unfold Subscribe. cbn. by rewrite Ha.
Qed.

(** Subscribing to a closed client succeeds, and the goroutine ends at once without
    listening. *)
Theorem closed_client_subscribes_in_vain ch rc :
  client_closed rc = true -> subscriptions rc !! ch = None ->
  exists i i', (Subscribe ch rc).1 = Ok tt /\ goroutines (Subscribe ch rc).2 !! List.length (goroutines rc) = Some i /\
    (forall met j, subscribe_step (Subscribe ch rc).2 met i = Some j -> j = i') /\ phase i' = Over /\ handled i' = [].
Proof.
  intros Hc Hs. unfold Subscribe. rewrite Hs. cbn. eexists. exists (MkSub ch false None 0 Over (InitialBackoff config) []).
  split; [done|]. split; [by apply list_lookup_middle|]. split; [|done]. intros met j. unfold subscribe_step. cbn. rewrite Hc. cbn.
  destruct met; by intros [= <-].
Qed.
End Subscriptions.
