(* ===== verification/FanIn.v ===== *)
(** * Joining goroutines into one channel

    The pattern of [runMultiPartitionSource] (pkg/executor/group_executor.go) and of the Kafka
    source's [Read] (pkg/source/kafka.go): a goroutine for each source forwards its records to
    a shared channel and its errors to another one, and when all are done both are closed. The
    consumer reads both until the records end; the context may be cancelled, and then the
    consumer leaves at some point and reads no more. Every interleaving is a run of [step],
    with rounds in between in which a goroutine receives nil from a closed channel. *)

From S2P Require Import Prelude.

Section FanIn.
Context {R E : Type}.

(** Where a goroutine is: before its source is made and opened, in the [select] of its loop,
    at the send of a record or of an error (after which it may return), or done. *)
Inductive Stage := Starting | Selecting | SendingRecord (r : R) | SendingError (e : E) (returns : bool) | Finished.

(** [todo] and [etodo] are what the source still delivers before it closes its channels,
    [refusal] is the error of making or opening it. *)
Record Worker := MkWorker { todo : list R; etodo : list E; refusal : option E; stage : Stage }.

(** The sizes of the two channels, whether records and errors of a source compete in one
    [select], and whether an error that finds no room is dropped. *)
Record Policy := MkPolicy { capacity : nat; error_capacity : nat; competing : bool; dropping : bool }.

(** The channels hold what was sent and not yet received, each item with its goroutine;
    [gone] tells that the consumer has left. *)
Record Join := MkJoin {
  workers : list Worker;
  records : list (nat * R);
  errors : list (nat * E);
  received : list (nat * R);
  reported : list (nat * E);
  closed : bool;
  cancelled : bool;
  gone : bool;
  panicked : bool
}.

Definition start (ws : list Worker) : Join := MkJoin ws [] [] [] [] false false false false.

Definition with_stage (s : Stage) (w : Worker) : Worker := MkWorker (todo w) (etodo w) (refusal w) s.

Definition set_worker (i : nat) (w : Worker) (st : Join) : Join :=
  MkJoin (<[i := w]> (workers st)) (records st) (errors st) (received st) (reported st) (closed st) (cancelled st) (gone st) (panicked st).

(** A send on a closed channel panics. *)
Definition send_record (i : nat) (r : R) (st : Join) : Join :=
  MkJoin (workers st) (records st ++ [(i, r)]) (errors st) (received st) (reported st) (closed st) (cancelled st) (gone st) (panicked st || closed st).
Definition send_error (i : nat) (e : E) (st : Join) : Join :=
  MkJoin (workers st) (records st) (errors st ++ [(i, e)]) (received st) (reported st) (closed st) (cancelled st) (gone st) (panicked st || closed st).

Definition all_finished (ws : list Worker) : Prop := Forall (fun w => stage w = Finished) ws.

Context (p : Policy).

Inductive step : Join -> Join -> Prop :=
| refuses st i w e : workers st !! i = Some w -> stage w = Starting -> refusal w = Some e ->
    step st (set_worker i (with_stage (SendingError e true) w) st)
| opens st i w : workers st !! i = Some w -> stage w = Starting -> refusal w = None ->
    step st (set_worker i (with_stage Selecting w) st)
| takes st i w r l : workers st !! i = Some w -> stage w = Selecting -> todo w = r :: l ->
    step st (set_worker i (MkWorker l (etodo w) (refusal w) (SendingRecord r)) st)
| takes_error st i w e l : workers st !! i = Some w -> stage w = Selecting -> etodo w = e :: l ->
    (competing p = true \/ todo w = []) ->
    step st (set_worker i (MkWorker (todo w) l (refusal w) (SendingError e false)) st)
| sees_end st i w : workers st !! i = Some w -> stage w = Selecting -> todo w = [] ->
    (competing p = true \/ etodo w = []) ->
    step st (set_worker i (with_stage Finished w) st)
| sees_cancel st i w : workers st !! i = Some w -> (stage w = Selecting \/ exists r, stage w = SendingRecord r) ->
    cancelled st = true ->
    step st (set_worker i (with_stage Finished w) st)
| sends st i w r : workers st !! i = Some w -> stage w = SendingRecord r -> length (records st) < capacity p ->
    step st (set_worker i (with_stage Selecting w) (send_record i r st))
| sends_error st i w e b : workers st !! i = Some w -> stage w = SendingError e b -> length (errors st) < error_capacity p ->
    step st (set_worker i (with_stage (if b then Finished else Selecting) w) (send_error i e st))
| drops_error st i w e b : workers st !! i = Some w -> stage w = SendingError e b -> dropping p = true ->
    error_capacity p <= length (errors st) ->
    step st (set_worker i (with_stage (if b then Finished else Selecting) w) st)
| closes st : all_finished (workers st) -> closed st = false ->
    step st (MkJoin (workers st) (records st) (errors st) (received st) (reported st) true (cancelled st) (gone st) (panicked st))
| receives st x l : gone st = false -> records st = x :: l ->
    step st (MkJoin (workers st) l (errors st) (received st ++ [x]) (reported st) (closed st) (cancelled st) (gone st) (panicked st))
| receives_error st x l : gone st = false -> errors st = x :: l ->
    step st (MkJoin (workers st) (records st) l (received st) (reported st ++ [x]) (closed st) (cancelled st) (gone st) (panicked st))
| cancels st : cancelled st = false ->
    step st (MkJoin (workers st) (records st) (errors st) (received st) (reported st) (closed st) true (gone st) (panicked st))
| leaves st : gone st = false -> (cancelled st = true \/ (closed st = true /\ records st = [])) ->
    step st (MkJoin (workers st) (records st) (errors st) (received st) (reported st) (closed st) (cancelled st) true (panicked st)).

(** A source that has no more errors has closed its channel of errors: the [select] of the
    loop then keeps receiving nil, which the loop ignores. *)
Inductive spins : Join -> Prop :=
| nil_error st i w : workers st !! i = Some w -> stage w = Selecting -> etodo w = [] -> competing p = true ->
    spins st.

(** A run with [n] steps and any number of such rounds. *)
Inductive runs : nat -> Join -> Join -> Prop :=
| runs_refl st : runs 0 st st
| runs_step n st st1 st' : step st st1 -> runs n st1 st' -> runs (S n) st st'
| runs_spin n st st' : spins st -> runs n st st' -> runs n st st'.

Lemma runs_steps n st st' : runs n st st' -> nsteps step n st st'.
Proof. induction 1; [constructor|by econstructor|done]. Qed.

(** ** The invariant *)

(** What came from the [i]-th goroutine. *)
Definition from {A} (i : nat) (l : list (nat * A)) : list A := (filter (fun x => x.1 = i) l).*2.

Definition held (w : Worker) : list R := match stage w with SendingRecord r => [r] | _ => [] end.

(** A goroutine and what it started as: its records are split in order into those that left
    it, the one it holds and those to come; one that is done has handed over all of them
    unless it was cancelled or its source refused. *)
Record accounts (cancelled : bool) (w0 w : Worker) (sent : list R) : Prop := {
  ac_refusal : refusal w = refusal w0;
  ac_refused : refusal w0 <> None -> sent = [] /\ stage w <> Selecting /\ forall r, stage w <> SendingRecord r;
  ac_start : stage w = Starting -> sent = [];
  ac_error e b : stage w = SendingError e b -> b = bool_decide (is_Some (refusal w0));
  ac_order : stage w <> Finished -> sent ++ held w ++ todo w = todo w0;
  ac_done : stage w = Finished -> sent `prefix_of` todo w0 /\ (cancelled = false -> refusal w0 = None -> sent = todo w0)
}.

Record join_ok (ws : list Worker) (st : Join) : Prop := {
  jo_workers : Forall2 (fun _ _ => True) ws (workers st);
  jo_accounts : forall i w0 w, ws !! i = Some w0 -> workers st !! i = Some w ->
    accounts (cancelled st) w0 w (from i (received st) ++ from i (records st));
  jo_closed : closed st = true -> all_finished (workers st);
  jo_tags : Forall (fun x => x.1 < length ws) (received st ++ records st);
  jo_gone : gone st = true -> cancelled st = true \/ (closed st = true /\ records st = []);
  jo_bounded : length (records st) <= capacity p;
  jo_safe : panicked st = false
}.

Lemma from_app {A} i (l k : list (nat * A)) : from i (l ++ k) = from i l ++ from i k.
Proof. unfold from. by rewrite filter_app, fmap_app. Qed.
Lemma from_one {A} i (r : A) : from i [(i, r)] = [r].
Proof. unfold from. by rewrite filter_cons_True. Qed.
Lemma from_other {A} i j (r : A) : i <> j -> from i [(j, r)] = [].
Proof. intros Hne. unfold from. by rewrite filter_cons_False by (cbn; congruence). Qed.

Lemma set_worker_lookup i w st j :
  i < length (workers st) -> workers (set_worker i w st) !! j = if decide (i = j) then Some w else workers st !! j.
Proof. intros Hi. cbn. destruct (decide (i = j)) as [->|Hne]; [by rewrite list_lookup_insert_eq|by rewrite list_lookup_insert_ne]. Qed.

(** A step of one goroutine: the others keep their account. *)
Lemma one_worker ws st st1 i w w' :
  join_ok ws st -> workers st !! i = Some w -> workers st1 = workers st -> closed st1 = closed st -> cancelled st1 = cancelled st ->
  gone st1 = gone st -> stage w <> Finished ->
  (forall j, j <> i -> from j (received st1) ++ from j (records st1) = from j (received st) ++ from j (records st)) ->
  (forall w0, accounts (cancelled st) w0 w (from i (received st) ++ from i (records st)) ->
              accounts (cancelled st) w0 w' (from i (received st1) ++ from i (records st1))) ->
  (i < length ws -> Forall (fun x => x.1 < length ws) (received st ++ records st) ->
   Forall (fun x => x.1 < length ws) (received st1 ++ records st1)) ->
  length (records st1) <= capacity p -> (closed st = false -> panicked st1 = false) ->
  join_ok ws (set_worker i w' st1).
Proof.
  intros [Hw Ha Hc Ht Hg Hb Hs] Hi Ew Ec Ex Eg Hnf Hother Hacc Htag Hlen Hp.
  assert (Hlt : i < length (workers st)) by by apply lookup_lt_Some in Hi.
  assert (Hopen : closed st = false).
  { destruct (closed st); [|done]. specialize (Hc eq_refl). unfold all_finished in Hc. rewrite Forall_lookup in Hc. by destruct Hnf; eapply Hc. }
  split; cbn [workers records received closed cancelled gone panicked set_worker].
  - rewrite Ew. apply Forall2_same_length_lookup. split; [|done]. rewrite length_insert. by apply Forall2_length in Hw.
  - intros j w0 wj Hw0. rewrite Ew, Ex. destruct (decide (i = j)) as [<-|Hne].
    + rewrite list_lookup_insert_eq by done. intros [= <-]. apply Hacc. by apply Ha.
    + rewrite list_lookup_insert_ne by done. intros Hj. rewrite Hother by done. by apply Ha.
  - rewrite Ec, Hopen. done.
  - apply Htag; [|done]. apply Forall2_length in Hw. lia.
  - rewrite Eg, Ex, Ec. intros Hgone. left. destruct (Hg Hgone) as [?|[? _]]; [done|congruence].
  - done.
  - by apply Hp.
Qed.

(** A step that touches no goroutine. *)
Lemma no_worker ws st st' :
  join_ok ws st -> workers st' = workers st ->
  (forall j, from j (received st') ++ from j (records st') = from j (received st) ++ from j (records st)) ->
  received st' ++ records st' = received st ++ records st ->
  (cancelled st = true -> cancelled st' = true) -> (closed st' = true -> all_finished (workers st)) ->
  (gone st' = true -> cancelled st' = true \/ (closed st' = true /\ records st' = [])) ->
  length (records st') <= capacity p -> panicked st' = panicked st -> join_ok ws st'.
Proof.
  intros [Hw Ha Hc Ht Hg Hb Hs] Ew Ef Et Hx Hcl Hg' Hlen Hp. split; [by rewrite Ew| |by rewrite Ew|by rewrite Et|done|done|congruence].
  intros i w0 w Hw0. rewrite Ew, Ef. intros Hi. destruct (Ha _ _ _ Hw0 Hi) as [H1 H2 H3 H4 H5 H6].
  split; [done..|]. intros Hf. destruct (H6 Hf) as [? H7]. split; [done|]. intros Hn. apply H7.
  destruct (cancelled st); [by rewrite Hx in Hn|done].
Qed.

(** The account of a goroutine through each of its own steps. *)
Lemma account_refuse c w0 w sent e :
  stage w = Starting -> refusal w = Some e -> accounts c w0 w sent -> accounts c w0 (with_stage (SendingError e true) w) sent.
Proof.
  intros Hs Hr [H1 H2 H3 H4 H5 H6]. rewrite H3 in * by done. unfold held in H5. rewrite Hs in H5.
  split; cbn; try done.
  - intros e' b [= <- <-]. rewrite <- H1, Hr. by rewrite bool_decide_true by eauto.
  - intros _. by apply H5.
Qed.

Lemma account_open c w0 w sent :
  stage w = Starting -> refusal w = None -> accounts c w0 w sent -> accounts c w0 (with_stage Selecting w) sent.
Proof.
  intros Hs Hr [H1 H2 H3 H4 H5 H6]. rewrite H3 in * by done. unfold held in H5. rewrite Hs in H5.
  split; cbn; try done; [by rewrite <- H1, Hr|]. intros _. by apply H5.
Qed.

Lemma account_take c w0 w sent r l :
  stage w = Selecting -> todo w = r :: l ->
  accounts c w0 w sent -> accounts c w0 (MkWorker l (etodo w) (refusal w) (SendingRecord r)) sent.
Proof.
  intros Hs Ht [H1 H2 H3 H4 H5 H6]. unfold held in H5. rewrite Hs, Ht in *. split; cbn; try done.
  - intros Hr. by destruct (H2 Hr) as (_ & ? & _).
  - intros _. by apply H5.
Qed.

Lemma account_take_error c w0 w sent e l :
  stage w = Selecting -> accounts c w0 w sent -> accounts c w0 (MkWorker (todo w) l (refusal w) (SendingError e false)) sent.
Proof.
  intros Hs [H1 H2 H3 H4 H5 H6]. unfold held in H5. rewrite Hs in *. split; cbn; try done.
  - intros Hr. by destruct (H2 Hr) as (_ & ? & _).
  - intros e' b [= <- <-]. destruct (refusal w0); [|done]. by destruct H2 as (_ & ? & _).
  - intros _. by apply H5.
Qed.

Lemma account_end c w0 w sent :
  stage w = Selecting -> todo w = [] -> accounts c w0 w sent -> accounts c w0 (with_stage Finished w) sent.
Proof.
  intros Hs Ht [H1 H2 H3 H4 H5 H6]. unfold held in H5. rewrite Hs, Ht, ?app_nil_r in *. split; cbn; try done.
  - intros Hr. by destruct (H2 Hr) as (_ & ? & _).
  - intros _. by rewrite H5.
Qed.

Lemma account_cancel w0 w sent :
  stage w <> Finished -> accounts true w0 w sent -> accounts true w0 (with_stage Finished w) sent.
Proof.
  intros Hs [H1 H2 H3 H4 H5 H6]. split; cbn; try done.
  - intros Hr. by destruct (H2 Hr) as (-> & _).
  - intros _. split; [|done]. rewrite <- H5 by done. by eexists.
Qed.

Lemma account_send c w0 w sent r :
  stage w = SendingRecord r -> accounts c w0 w sent -> accounts c w0 (with_stage Selecting w) (sent ++ [r]).
Proof.
  intros Hs [H1 H2 H3 H4 H5 H6]. unfold held in H5. rewrite Hs in *. split; cbn; try done.
  - intros Hr. destruct (H2 Hr) as (_ & _ & H). by destruct (H r).
  - intros _. rewrite <- app_assoc. by apply H5.
Qed.

Lemma account_sent_error c w0 w sent e b :
  stage w = SendingError e b -> accounts c w0 w sent -> accounts c w0 (with_stage (if b then Finished else Selecting) w) sent.
Proof.
  intros Hs [H1 H2 H3 H4 H5 H6]. unfold held in H5. pose proof (H4 _ _ Hs) as Hb. rewrite Hs in *. destruct b; split; cbn; try done.
  - intros Hr. by destruct (H2 Hr) as (-> & _).
  - intros _. symmetry in Hb. apply bool_decide_eq_true in Hb as [x Hx]. destruct H2 as (-> & _); [by rewrite Hx|].
    split; [apply prefix_nil|]. by rewrite Hx.
  - intros Hr. symmetry in Hb. apply bool_decide_eq_false in Hb. destruct Hb. by destruct (refusal w0).
  - intros _. by apply H5.
Qed.

Lemma join_step_ok ws st st' : step st st' -> join_ok ws st -> join_ok ws st'.
Proof.
  intros Hs Hok. assert (Hb := jo_bounded _ _ Hok). assert (Hsafe := jo_safe _ _ Hok).
  destruct Hs as [st i w e Hi Hw He|st i w Hi Hw He|st i w r l Hi Hw Ht|st i w e l Hi Hw Ht Hc|st i w Hi Hw Ht Hc|st i w Hi Hw Hc
    |st i w r Hi Hw Hl|st i w e b Hi Hw Hl|st i w e b Hi Hw Hd Hl|st Hf Hc|st x l Hg Hx|st x l Hg Hx|st Hc|st Hg Hl].
  - eapply one_worker; try done; [congruence|]. intros w0. by apply account_refuse.
  - eapply one_worker; try done; [congruence|]. intros w0. by apply account_open.
  - eapply one_worker; try done; [congruence|]. intros w0. by apply account_take.
  - eapply one_worker; try done; [congruence|]. intros w0. by apply account_take_error.
  - eapply one_worker; try done; [congruence|]. intros w0. by apply account_end.
  - assert (Hnf : stage w <> Finished) by (destruct Hw as [->|[r ->]]; done).
    eapply one_worker; try done. intros w0. rewrite Hc. by apply account_cancel.
  - eapply (one_worker ws st (send_record i r st)); try done; [congruence| | | | |].
    + intros j Hj. cbn [received records send_record]. by rewrite from_app, from_other, app_nil_r.
    + intros w0 Ha. cbn [received records send_record]. rewrite from_app, from_one, app_assoc. by apply account_send.
    + intros Hlt Ht. cbn [received records send_record]. rewrite app_assoc. apply Forall_app_2; [done|by constructor].
    + cbn. rewrite length_app. cbn. lia.
    + intros Hopen. cbn. by rewrite Hopen, Hsafe.
  - eapply (one_worker ws st (send_error i e st)); try done; [congruence| |].
    + intros w0. by eapply account_sent_error.
    + intros Hopen. cbn. by rewrite Hopen, Hsafe.
  - eapply one_worker; try done; [congruence|]. intros w0. by eapply account_sent_error.
  - apply (no_worker ws st); try done. cbn. intros Hgone.
    destruct (jo_gone _ _ Hok Hgone) as [?|[? _]]; [by left|congruence].
  - apply (no_worker ws st); try done; cbn [received records workers closed gone].
    + intros j. by rewrite from_app, Hx, <- app_assoc, <- from_app.
    + by rewrite Hx, <- app_assoc.
    + apply (jo_closed _ _ Hok).
    + by rewrite Hg.
    + rewrite Hx in Hb. cbn in Hb. lia.
  - apply (no_worker ws st); try done; [apply (jo_closed _ _ Hok)|apply (jo_gone _ _ Hok)].
  - apply (no_worker ws st); try done; [apply (jo_closed _ _ Hok)|]. cbn. by left.
  - apply (no_worker ws st); try done. apply (jo_closed _ _ Hok).
Qed.

(** ** What a join promises *)

Definition fresh (w : Worker) : Prop := stage w = Starting \/ stage w = Selecting /\ refusal w = None.

Lemma join_start_ok ws : Forall fresh ws -> join_ok ws (start ws).
Proof.
  intros Hf. split; cbn; try lia; try done.
  - by apply Forall2_same_length_lookup.
  - intros i w0 w H0 Hi. assert (w = w0) as -> by congruence. rewrite Forall_lookup in Hf. specialize (Hf i w0 Hi).
    unfold from. cbn. destruct Hf as [Hs|[Hs Hr]]; split; try done; unfold held; rewrite ?Hs, ?Hr; try done.
Qed.

Lemma join_run_ok ws st : Forall fresh ws -> rtc step (start ws) st -> join_ok ws st.
Proof.
  intros Hf Hr. pose proof (join_start_ok ws Hf) as Hok. induction Hr as [|x y z Hs _ IH]; [done|]. apply IH. by eapply join_step_ok.
Qed.

(** The consumer gets from each goroutine a prefix of its records, in order and each once; once
    the channel is closed and empty, and nothing was cancelled, all of them. No goroutine
    sends on a closed channel, and the channel stays within its size. *)
Theorem join_delivers ws st :
  Forall fresh ws -> rtc step (start ws) st ->
  panicked st = false /\ length (records st) <= capacity p /\
  forall i w, ws !! i = Some w ->
    from i (received st) `prefix_of` todo w /\
    (closed st = true -> records st = [] -> cancelled st = false -> refusal w = None -> from i (received st) = todo w).
Proof.
  intros Hf Hr. pose proof (join_run_ok ws st Hf Hr) as [Hw Ha Hc _ _ Hb Hs]. split; [done|]. split; [done|].
  intros i w0 Hi. destruct (Forall2_lookup_l _ _ _ _ _ Hw Hi) as (w & Hwi & _). destruct (Ha _ _ _ Hi Hwi) as [_ _ _ _ Ho Hd]. split.
  - trans (from i (received st) ++ from i (records st)); [by eexists|].
    destruct (stage w) eqn:Hst; try (rewrite <- Ho by done; by eexists). by apply Hd.
  - intros Hcl Hrec Hn Href. rewrite Hrec in Hd. unfold from in Hd at 2 4. cbn in Hd. rewrite app_nil_r in Hd.
    assert (Hfin : stage w = Finished).
    { specialize (Hc Hcl). unfold all_finished in Hc. rewrite Forall_lookup in Hc. by eapply Hc. }
    by apply Hd.
Qed.

(** What carries a tag below [n] is, up to the order, what came from each of [n] goroutines. *)
Lemma from_all {A} n (l : list (nat * A)) :
  Forall (fun x => x.1 < n) l -> l.*2 ≡ₚ mjoin ((fun i => from i l) <$> seq 0 n).
Proof.
  intros Hl. induction Hl as [|[i r] l Hi _ IH].
  - unfold from. cbn. induction (seq 0 n); by csimpl.
  - change (((i, r) :: l).*2) with (r :: l.*2). cbn in Hi. rewrite IH. replace n with (i + S (n - S i)) by lia. rewrite seq_app, !fmap_app, !join_app. cbn [seq fmap list_fmap mjoin list_join].
    assert (Hsame : forall j, j <> i -> from j ((i, r) :: l) = from j l).
    { intros j Hj. unfold from. by rewrite filter_cons_False by (cbn; congruence). }
    assert (Hthis : from i ((i, r) :: l) = r :: from i l) by (unfold from; by rewrite filter_cons_True).
    change (0 + i) with i. rewrite Hthis.
    rewrite (list_fmap_ext (fun j => from j ((i, r) :: l)) (fun j => from j l) (seq 0 i)).
    2: { intros k j Hj. apply Hsame. apply lookup_seq in Hj as [-> ?]. lia. }
    rewrite (list_fmap_ext (fun j => from j ((i, r) :: l)) (fun j => from j l) (seq (S i) _)).
    2: { intros k j Hj. apply Hsame. apply lookup_seq in Hj as [-> ?]. lia. }
    cbn [app]. by rewrite <- Permutation_middle.
Qed.

(** A join that is closed, emptied and was not cancelled, of sources that all opened, has
    handed over exactly the records of its sources: none lost, doubled or made up. *)
Theorem join_is_complete ws st :
  Forall fresh ws -> rtc step (start ws) st -> closed st = true -> records st = [] -> cancelled st = false ->
  Forall (fun w => refusal w = None) ws -> (received st).*2 ≡ₚ mjoin (todo <$> ws).
Proof.
  intros Hf Hr Hc He Hn Href. destruct (join_delivers ws st Hf Hr) as (_ & _ & Hd).
  pose proof (jo_tags _ _ (join_run_ok ws st Hf Hr)) as Ht. rewrite He, app_nil_r in Ht. rewrite (from_all _ _ Ht).
  replace ((fun i => from i (received st)) <$> seq 0 (length ws)) with (todo <$> ws); [done|].
  apply list_eq. intros i. rewrite !list_lookup_fmap.
  destruct (ws !! i) as [w|] eqn:Hw.
  - rewrite (lookup_seq_lt 0 (length ws) i) by by apply lookup_lt_Some in Hw. rewrite Forall_lookup in Href.
    change (Some (todo w) = Some (from i (received st))). f_equal. symmetry. apply (Hd i w Hw); try done. by eapply Href.
  - rewrite lookup_seq_ge by by apply lookup_ge_None in Hw. done.
Qed.

(** ** Every run ends *)

Definition stage_work (s : Stage) : nat :=
  match s with Starting => 4 | Selecting => 1 | SendingRecord _ => 3 | SendingError _ true => 2 | SendingError _ false => 3 | Finished => 0 end.
Definition worker_work (w : Worker) : nat := 4 * length (todo w) + 4 * length (etodo w) + stage_work (stage w).
Definition work (st : Join) : nat :=
  sum_list (worker_work <$> workers st) + length (records st) + length (errors st) +
  (if closed st then 0 else 1) + (if cancelled st then 0 else 1) + (if gone st then 0 else 1).

Lemma sum_insert i w w' (l : list Worker) :
  l !! i = Some w -> sum_list (worker_work <$> <[i := w']> l) + worker_work w = sum_list (worker_work <$> l) + worker_work w'.
Proof.
  revert i. induction l as [|x l IH]; intros [|i] H; simplify_eq/=; csimpl; [lia|]. specialize (IH i H). lia.
Qed.

Lemma work_set st st1 i w w' k :
  workers st !! i = Some w -> workers st1 = workers st -> closed st1 = closed st -> cancelled st1 = cancelled st -> gone st1 = gone st ->
  length (records st1) + length (errors st1) = length (records st) + length (errors st) + k ->
  worker_work w' + k < worker_work w -> work (set_worker i w' st1) < work st.
Proof.
  intros Hi Ew Ec Ex Eg El Hlt. unfold work. cbn [workers records errors closed cancelled gone set_worker]. rewrite Ew, Ec, Ex, Eg.
  pose proof (sum_insert i w w' _ Hi). lia.
Qed.

Lemma step_works st st' : step st st' -> work st' < work st.
Proof.
  intros Hs. destruct Hs as [st i w e Hi Hw He|st i w Hi Hw He|st i w r l Hi Hw Ht|st i w e l Hi Hw Ht Hc|st i w Hi Hw Ht Hc|st i w Hi Hw Hc
    |st i w r Hi Hw Hl|st i w e b Hi Hw Hl|st i w e b Hi Hw Hd Hl|st Hf Hc|st x l Hg Hx|st x l Hg Hx|st Hc|st Hg Hl].
  - eapply (work_set st st) with (k := 0); [done..|lia|]. unfold worker_work. cbn. rewrite Hw. cbn. lia.
  - eapply (work_set st st) with (k := 0); [done..|lia|]. unfold worker_work. cbn. rewrite Hw. cbn. lia.
  - eapply (work_set st st) with (k := 0); [done..|lia|]. unfold worker_work. cbn. rewrite Hw, Ht. cbn. lia.
  - eapply (work_set st st) with (k := 0); [done..|lia|]. unfold worker_work. cbn. rewrite Hw, Ht. cbn. lia.
  - eapply (work_set st st) with (k := 0); [done..|lia|]. unfold worker_work. cbn. rewrite Hw. cbn. lia.
  - eapply (work_set st st) with (k := 0); [done..|lia|]. unfold worker_work. cbn. destruct Hw as [->|[r ->]]; cbn; lia.
  - eapply (work_set st (send_record i r st)) with (k := 1); [done..|cbn; rewrite length_app; cbn; lia|].
    unfold worker_work. cbn. rewrite Hw. cbn. lia.
  - eapply (work_set st (send_error i e st)) with (k := 1); [done..|cbn; rewrite length_app; cbn; lia|].
    unfold worker_work. cbn. rewrite Hw. destruct b; cbn; lia.
  - eapply (work_set st st) with (k := 0); [done..|lia|]. unfold worker_work. cbn. rewrite Hw. destruct b; cbn; lia.
  - unfold work. cbn. rewrite Hc. lia.
  - unfold work. cbn. rewrite Hx. cbn. lia.
  - unfold work. cbn. rewrite Hx. cbn. lia.
  - unfold work. cbn. rewrite Hc. lia.
  - unfold work. cbn. rewrite Hg. lia.
Qed.

(** A goroutine that is not done and cannot move has an error that finds no room, or a
    record that finds none while nothing is cancelled. *)
Lemma worker_moves st i w :
  workers st !! i = Some w -> stage w <> Finished -> (forall st', ~ step st st') ->
  (exists e b, stage w = SendingError e b /\ error_capacity p <= length (errors st)) \/
  (cancelled st = false /\ capacity p <= length (records st)).
Proof.
  intros Hi Hw Hstuck. destruct (stage w) eqn:Hs; [| | | |done].
  - exfalso. destruct (refusal w) eqn:Href; eapply Hstuck; [by eapply refuses|by eapply opens].
  - exfalso. destruct (todo w) eqn:Ht; [|eapply Hstuck; by eapply takes].
    destruct (etodo w) eqn:Het; eapply Hstuck; [eapply sees_end; eauto|eapply takes_error; eauto].
  - right. split.
    + destruct (cancelled st) eqn:Hc; [|done]. exfalso. eapply Hstuck. eapply (sees_cancel st i w); eauto.
    + destruct (decide (capacity p <= length (records st))) as [|Hlt]; [done|].
      exfalso. eapply Hstuck. eapply sends; [done|done|lia].
  - left. exists e, returns. split; [done|].
    destruct (decide (error_capacity p <= length (errors st))) as [|Hlt]; [done|].
    exfalso. eapply Hstuck. eapply sends_error; [done|done|lia].
Qed.

Lemma finished_or_not (ws : list Worker) : all_finished ws \/ exists i w, ws !! i = Some w /\ stage w <> Finished.
Proof.
  induction ws as [|w ws [IH|(i & w' & Hi & Hw)]]; [by left; constructor| |right; by exists (S i), w'].
  destruct (stage w) eqn:Hs; try (right; exists 0, w; by rewrite Hs). left. by constructor.
Qed.

(** Every run of a join is finite, with a bound known from its start. A run that cannot go on
    and was not cancelled has closed the channels and handed over all records; one that was
    cancelled has closed the channels too, or is left with a goroutine whose error finds no
    room. *)
Theorem join_ends ws n st :
  Forall fresh ws -> nsteps step n (start ws) st ->
  n <= work (start ws) /\
  (0 < capacity p -> 0 < error_capacity p -> (forall st', ~ step st st') ->
   gone st = true /\
   if cancelled st then
     closed st = true \/
     exists i w e b, workers st !! i = Some w /\ stage w = SendingError e b /\ error_capacity p <= length (errors st)
   else closed st = true /\ records st = []).
Proof.
  intros Hf Hn. split.
  - assert (H : n + work st <= work (start ws)); [|lia]. clear Hf. generalize dependent (start ws). intros s0 Hn.
    induction Hn as [|m x y z Hs _ IH]; [lia|]. apply step_works in Hs. lia.
  - intros Hc He Hstuck.
    pose proof (join_run_ok ws st Hf ltac:(by eapply rtc_nsteps_2)) as [_ _ _ _ Hgone _ _].
    assert (Hempty : gone st = false -> records st = [] /\ errors st = []).
    { intros Hg. destruct (records st) as [|x l] eqn:Hr; [|by destruct (Hstuck _ (receives st x l Hg Hr))].
      split; [done|]. destruct (errors st) as [|x l] eqn:Her; [done|].
      by destruct (Hstuck _ (receives_error st x l Hg Her)). }
    destruct (finished_or_not (workers st)) as [Hall|(i & w & Hi & Hw)].
    + assert (Hclosed : closed st = true)
        by (destruct (closed st) eqn:Hcl; [done|]; by destruct (Hstuck _ (closes st Hall Hcl))).
      assert (Hg : gone st = true).
      { destruct (gone st) eqn:Hg; [done|]. exfalso. apply (Hstuck _ (leaves st Hg ltac:(right; split; [done|by apply Hempty]))). }
      split; [done|]. destruct (cancelled st) eqn:Hx; [by left|].
      destruct (Hgone Hg) as [?|[? ?]]; done.
    + assert (Hsend := worker_moves st i w Hi Hw Hstuck).
      assert (Hg : gone st = true).
      { destruct (gone st) eqn:Hg; [done|]. destruct (Hempty eq_refl) as [H1 H2]. rewrite H1, H2 in Hsend.
        destruct Hsend as [(e & b & _ & ?)|[_ ?]]; cbn in *; lia. }
      split; [done|]. destruct (cancelled st) eqn:Hx.
      * right. destruct Hsend as [(e & b & ? & ?)|[? _]]; [|congruence]. by exists i, w, e, b.
      * destruct (Hgone Hg) as [?|[? ?]]; done.
Qed.

(** ** A consumer that went away *)

(** A step in which the consumer does not read the channel of errors. *)
Definition unread (st st' : Join) : Prop := step st st' /\ reported st' = reported st.

Lemma unread_keeps st st' i w e b :
  dropping p = false -> workers st !! i = Some w -> stage w = SendingError e b -> error_capacity p <= length (errors st) ->
  unread st st' ->
  workers st' !! i = Some w /\ error_capacity p <= length (errors st') /\ (closed st = false -> closed st' = false).
Proof.
  intros Hd Hi Hw Hfull [Hs Hrep].
  assert (Hother : forall j w' w1 st1, workers st !! j = Some w' -> stage w' <> SendingError e b -> workers st1 = workers st ->
    workers (set_worker j w1 st1) !! i = Some w).
  { intros j w' w1 st1 Hj Hne Ew. cbn. rewrite Ew, list_lookup_insert_ne; [done|]. intros ->. congruence. }
  destruct Hs as [st j w' e' Hj Hw' He|st j w' Hj Hw' He|st j w' r l Hj Hw' Ht|st j w' e' l Hj Hw' Ht Hc|st j w' Hj Hw' Ht Hc|st j w' Hj Hw' Hc
    |st j w' r Hj Hw' Hl|st j w' e' b' Hj Hw' Hl|st j w' e' b' Hj Hw' Hd' Hl|st Hf Hc|st x l Hg Hx|st x l Hg Hx|st Hc|st Hg Hl];
    try (split; [eapply Hother; [done|by rewrite Hw'|done]|done]); try congruence; try lia; try done.
  - split; [|done]. eapply Hother; [done|by destruct Hw' as [->|[r ->]]|done].
  - exfalso. unfold all_finished in Hf. rewrite Forall_lookup in Hf. rewrite (Hf i w Hi) in Hw. done.
  - exfalso. cbn in Hrep. apply (f_equal length) in Hrep. rewrite length_app in Hrep. cbn in Hrep. lia.
Qed.

(** Errors are sent without regard to the context: once the channel of errors is full and the
    consumer has gone, a goroutine with an error never ends, and the channels are never
    closed. *)
Theorem abandoned_errors_leak st st' i w e b :
  dropping p = false -> workers st !! i = Some w -> stage w = SendingError e b -> error_capacity p <= length (errors st) ->
  closed st = false -> rtc unread st st' -> workers st' !! i = Some w /\ closed st' = false.
Proof.
  intros Hd Hi Hw Hfull Hc Hr. revert Hi Hfull Hc. induction Hr as [|x y z Hs _ IH]; intros Hi Hfull Hc; [done|].
  destruct (unread_keeps _ _ _ _ _ _ Hd Hi Hw Hfull Hs) as (Hi' & Hf' & Hc'). by apply IH; auto.
Qed.
End FanIn.
