(* ===== verification/Partitions.v ===== *)
(** * Sources of a group at work (pkg/executor/group_executor.go, pkg/source/kafka.go)

    [createAndRunSource]: one source, or one for each enabled partition, joined as in [FanIn].
    What a source yields is what [Sources] says of files, queries and pages; the sources that
    do not end yield what they deliver until the run is over. *)

From Stdlib Require Import String.
From S2P Require Import Prelude GoString GoValue ConfigV2 Processor Sources EventSources FanIn.
Local Open Scope string_scope.
Local Open Scope list_scope.

(** The outside of the sources. *)
Record Outside := MkOutside {
  o_glob : string -> option (list string);
  o_marshal : Data -> string;
  o_exists : string -> bool;
  o_open_file : string -> option Content;
  o_connect : string -> string -> option string;
  o_query : string -> list string -> res string Rows;
  o_server : nat -> HTTPRequest -> option HTTPResponse;
  o_base64 : string -> string;
  o_form : list (string * string) -> string;
  o_now : Z;
  o_stream : Source -> string + (list SrcRecord * list string)
}.

(** The source of a pipeline of a group: its type, name, configuration and partitions. *)
Record GroupedSource := MkGrouped { GSType : string; GSName : string; GSConfig : Data; GSPartitions : list PartitionConfig }.

Section Running.
Context (o : Outside).

(** [Open] and [Read]: the error of opening, or the records and errors of reading. *)
Definition yields (s : Source) : string + (list SrcRecord * list string) :=
  match s with
  | SrcFile s =>
      match file_Open (o_exists o) s with
      | Err e => inl e
      | _ => let '(rs, e) := file_Read (o_open_file o) (o_now o) s in inr (rs, option_list e)
      end
  | SrcSQL s =>
      match sql_Open (o_connect o) s with
      | Ok s => match sql_Read (o_query o) (o_now o) s with Ok (rs, e) => inr (rs, option_list e) | _ => inr ([], []) end
      | Err e => inl e
      | Panic => inr ([], [])
      end
  | SrcHTTP s =>
      let '(r, st) := http_Open (o_server o) (o_form o) (o_now o) (MkSession s 0) in
      match r with
      | Err e => inl e
      | _ => let '(rs, e, _) := http_Read (o_server o) (o_base64 o) (o_form o) (fun _ => o_now o) st in inr (rs, option_list e)
      end
  | s => o_stream o s
  end.

(** The configuration of a partition over that of the source. *)
Definition partition_source (gs : GroupedSource) (p : PartitionConfig) : GroupedSource :=
  MkGrouped (GSType gs) (GSName gs +:+ "-" +:+ PartID p) (PartConfig p ∪ GSConfig gs) [].

(** What a grouped source without partitions comes to. *)
Definition run_source (gs : GroupedSource) : string + (list SrcRecord * list string) :=
  match createSource (o_glob o) (o_marshal o) (GSType gs) (GSConfig gs) with
  | Ok s => yields s
  | Err e => inl e
  | Panic => inr ([], [])
  end.

Definition partition_worker (gs : GroupedSource) (p : PartitionConfig) : Worker :=
  match run_source (partition_source gs p) with
  | inl e => MkWorker [] [] (Some e) Starting
  | inr (rs, es) => MkWorker rs es None Starting
  end.

Definition enabled (gs : GroupedSource) : list PartitionConfig := List.filter PartEnabled (GSPartitions gs).

(** The channels of [runMultiPartitionSource]. *)
Definition partition_policy (gs : GroupedSource) : Policy := MkPolicy 1000 (List.length (GSPartitions gs)) true false.

Definition runMultiPartitionSource (gs : GroupedSource) : Join := start (partition_worker gs <$> enabled gs).

(** A consumer of a single source gets what it yields, one of several a run of the join. *)
Inductive createAndRunSource (gs : GroupedSource) : res string (list SrcRecord * list string) -> Prop :=
| run_single e : GSPartitions gs = [] -> run_source gs = inl e -> createAndRunSource gs (Err e)
| run_single_ok rs es : GSPartitions gs = [] -> run_source gs = inr (rs, es) -> createAndRunSource gs (Ok (rs, es))
| run_partitions st : GSPartitions gs <> [] ->
    rtc (step (partition_policy gs)) (runMultiPartitionSource gs) st -> closed st = true -> records st = [] ->
    createAndRunSource gs (Ok ((received st).*2, (reported st).*2)).
End Running.

(** [Read] of the Kafka source: a goroutine for each reader, which sends its records and at
    last its error, if there is room for it. [None] is the panic of a reader's loop. *)
Definition reader_worker (l : list Fetch) (s : KafkaSource) : option Worker :=
  (fun '(rs, e, _) => MkWorker rs (option_list e) None Selecting) <$> readFromReader l s.

Definition kafka_policy : Policy := MkPolicy 100 1 false true.

Definition kafka_Read (fetches : list (list Fetch)) (s : KafkaSource) : option Join :=
  start <$> mapM (fun l => reader_worker l s) fetches.

(** ** What the joined sources promise *)

Lemma partition_fresh o gs : Forall fresh (partition_worker o gs <$> enabled gs).
Proof.
  apply Forall_fmap, Forall_true. intros x. unfold partition_worker, compose. left. by destruct (run_source o _) as [|[]].
Qed.


(** A consumer of a partitioned source whose partitions all open, and which is not cancelled,
    gets exactly the records of the enabled partitions, in some order. *)
Theorem partitions_are_complete o gs st :
  rtc (step (partition_policy gs)) (runMultiPartitionSource o gs) st -> closed st = true -> records st = [] -> cancelled st = false ->
  (forall p, p ∈ enabled gs -> exists y, run_source o (partition_source gs p) = inr y) ->
  (received st).*2 ≡ₚ mjoin ((fun p => match run_source o (partition_source gs p) with inr (rs, _) => rs | inl _ => [] end) <$> enabled gs).
Proof.
  intros Hr Hc He Hn Hall. rewrite (join_is_complete (partition_policy gs) (partition_worker o gs <$> enabled gs) st); try done.
  - rewrite <- list_fmap_compose. erewrite list_fmap_ext; [done|]. intros i p Hp. cbn. unfold partition_worker.
    by destruct (run_source o _) as [|[]].
  - apply partition_fresh.
  - apply Forall_fmap, Forall_forall. intros p Hp. unfold compose, partition_worker. by destruct (Hall p Hp) as [[rs es] ->].
Qed.

(** The goroutines of a Kafka source hand over, each in order, what the loops over their
    readers deliver; no send finds the channel closed and every run ends. *)
Theorem kafka_readers_are_joined fetches s st0 n st :
  kafka_Read fetches s = Some st0 -> nsteps (step kafka_policy) n st0 st ->
  panicked st = false /\ n <= work st0 /\
  forall i l rs e s', fetches !! i = Some l -> readFromReader l s = Some (rs, e, s') ->
    from i (received st) `prefix_of` rs /\
    (closed st = true -> records st = [] -> cancelled st = false -> from i (received st) = rs).
Proof.
  unfold kafka_Read. intros (ws & Hws & ->)%fmap_Some Hn. apply mapM_Some in Hws.
  assert (Hfresh : Forall fresh ws).
  { clear Hn. induction Hws as [|l w ls ws Hw _ IH]; constructor; [|done]. unfold reader_worker in Hw.
    apply fmap_Some in Hw as ([[rs e] s'] & _ & ->). by right. }
  destruct (join_delivers kafka_policy ws st Hfresh) as (H1 & _ & H2); [by eapply rtc_nsteps_2|].
  destruct (join_ends kafka_policy ws n st Hfresh Hn) as [H3 _]. split; [done|]. split; [done|].
  intros i l rs e s' Hl Hr. destruct (Forall2_lookup_l _ _ _ _ _ Hws Hl) as (w & Hw & Hrw).
  unfold reader_worker in Hrw. rewrite Hr in Hrw. injection Hrw as <-. destruct (H2 i _ Hw) as [H4 H5]. auto.
Qed.

(** ** What can go wrong *)

Definition demo_rec (k : string) : SrcRecord := MkRecord {["k" := VString k]} (MkMetadata "sql_event" "" "" 0).

(** A world in which each streaming source yields one record and then two errors. *)
Definition failing : Outside := {|
  o_glob _ := Some []; o_marshal _ := ""; o_exists _ := true; o_open_file _ := None; o_connect _ _ := None;
  o_query _ _ := Ok (MkRows [] [] None); o_server _ _ := None; o_base64 t := t; o_form _ := ""; o_now := 0;
  o_stream _ := inr ([demo_rec "a"], ["e1"; "e2"])
|}.
Definition one_partition : GroupedSource := MkGrouped "sql_event" "s" ∅ [MkPartition "p" "" ∅ true].

(** The end of the records hides errors that are still waiting: a partition that failed is
    reported as complete. *)
Theorem errors_can_be_lost :
  exists st, rtc (step (partition_policy one_partition)) (runMultiPartitionSource failing one_partition) st /\
    closed st = true /\ records st = [] /\ errors st = [] /\ cancelled st = false /\
    (received st).*2 = [demo_rec "a"] /\ reported st = [].
Proof.
  eexists. split.
  - eapply rtc_l; [eapply (opens _ _ 0); reflexivity|]. eapply rtc_l; [eapply (takes _ _ 0); reflexivity|].
    eapply rtc_l; [eapply (sends _ _ 0); [reflexivity..|cbn; lia]|].
    eapply rtc_l; [eapply (sees_end _ _ 0); [reflexivity..|by left]|].
    eapply rtc_l; [eapply closes; [by repeat constructor|reflexivity]|].
    eapply rtc_l; [eapply receives; reflexivity|].
    eapply rtc_l; [eapply leaves; [reflexivity|by right]|]. apply rtc_refl.
  - done.
Qed.

(** The state of [one_partition] after its two errors and a cancellation: the second error
    waits behind the first. *)
Definition stranded_worker : Worker (R := SrcRecord) (E := string) := MkWorker [demo_rec "a"] [] None (SendingError "e2" false).
Definition stranded : Join := MkJoin [stranded_worker] [] [(0, "e1")] [] [] false true false false.

Lemma stranded_reached : rtc (step (partition_policy one_partition)) (runMultiPartitionSource failing one_partition) stranded.
Proof.
  eapply rtc_l; [eapply (opens _ _ 0); reflexivity|].
  eapply rtc_l; [eapply (takes_error _ _ 0); [reflexivity..|by left]|].
  eapply rtc_l; [eapply (sends_error _ _ 0); [reflexivity..|cbn; lia]|].
  eapply rtc_l; [eapply (takes_error _ _ 0); [reflexivity..|by left]|].
  eapply rtc_l; [eapply cancels; reflexivity|]. apply rtc_refl.
Qed.

(** After a cancellation a goroutine can be left for good at the send of an error: however the
    run goes on, if nobody reads the errors it never ends and the channels stay open. *)
Theorem cancelled_partition_can_leak :
  exists st w, rtc (step (partition_policy one_partition)) (runMultiPartitionSource failing one_partition) st /\
    cancelled st = true /\
    forall st', rtc (unread (partition_policy one_partition)) st st' -> workers st' !! 0 = Some w /\ stage w <> Finished /\ closed st' = false.
Proof.
  exists stranded, stranded_worker. split; [apply stranded_reached|]. split; [done|]. intros st' Hr.
  destruct (abandoned_errors_leak (partition_policy one_partition) stranded st' 0 stranded_worker "e2" false) as [H1 H2]; try done.
Qed.

(** The state of [one_partition] once its source is open. *)
Definition opened_partition : Join :=
  MkJoin [MkWorker [demo_rec "a"] ["e1"; "e2"] None Selecting] [] [] [] [] false false false false.

