(* ===== verification/Monitoring.v ===== *)
(** * Monitoring through Redis (control-plane/internal/services/redis_service.go)

    Checkpoints, metrics and heartbeats are JSON texts under a key of their own, read and
    written through the client of [ResilientClient], which keeps a copy of each text it has
    written or read. What Redis answers is an argument of each call. *)

From Stdlib Require Import String.
From S2P Require Import Prelude GoString GoValue GoTime Execution Agent PipelineApi RedisService Subscriptions ResilientClient.
Local Open Scope string_scope.
Local Open Scope Z_scope.
Local Open Scope list_scope.

(** [Checkpoint] of shared/types. *)
Record Checkpoint := MkCheckpoint {
  CPipelineID : string;
  ActorPath : string;
  COffsets : Data;
  CProcessed : Z;
  CState : Data;
  CTimestamp : Z;
  CVersion : Z;
  CMetadata : gmap string string
}.

(** [json.Marshal] and [json.Unmarshal] of a type. *)
Class Codec (A : Type) := { marshal : A -> option string; unmarshal : string -> option A }.

(** What a type of messages promises: what was encoded is decoded to the same value. *)
Class CodecOk (A : Type) `{Codec A} := unmarshal_marshal x t : marshal x = Some t -> unmarshal t = Some x.

Inductive ReadError := FailedToGet (e : RequestError) | FailedToUnmarshal.

Definition heartbeat_key (agentID : string) : string := "agent:" +:+ agentID +:+ ":heartbeat".
Definition checkpoint_key (pipelineID : string) : string := "pipeline:" +:+ pipelineID +:+ ":checkpoint".
Definition metrics_key (pipelineID : string) : string := "pipeline:" +:+ pipelineID +:+ ":metrics".

(** The lifetime of stored metrics, five minutes. *)
Definition metrics_ttl : Z := 300000 * millisecond.

Section Monitoring.
Context (config : Config) (first_key : gmap string cacheEntry -> option string).

(** The common part of the three reads. *)
Definition read_value {A} `{Codec A} (now latency : Z) (key : string) (reply : GetReply) (rc : ResilientClient)
  : res ReadError A * ResilientClient :=
  let '(r, rc, _) := Get config first_key now latency key reply rc in
  match r with
  | Ok data => match unmarshal data with Some x => (Ok x, rc) | None => (Err FailedToUnmarshal, rc) end
  | Err e => (Err (FailedToGet e), rc)
  | Panic => (Panic, rc)
  end.

(** The common part of the two writes. *)
Definition write_value {A} `{Codec A} (now latency : Z) (key : string) (x : A) (ttl : Z) (reply : WriteReply)
  (rc : ResilientClient) : res RequestError unit * ResilientClient :=
  let '(r, rc, _) := Set_ config first_key now latency key (marshal x) ttl reply rc in (r, rc).

Definition GetAgentHeartbeat `{Codec AgentHeartbeat} now latency (agentID : string) reply rc
  : res ReadError AgentHeartbeat * ResilientClient :=
  read_value now latency (heartbeat_key agentID) reply rc.

Definition GetAllAgentHeartbeats : res string (gmap string AgentHeartbeat) :=
  Err "not implemented - use database query with last_heartbeat".

Definition SetPipelineCheckpoint `{Codec Checkpoint} now latency (pipelineID : string) (c : Checkpoint) reply rc
  : res RequestError unit * ResilientClient :=
  write_value now latency (checkpoint_key pipelineID) c 0 reply rc.

Definition GetPipelineCheckpoint `{Codec Checkpoint} now latency (pipelineID : string) reply rc
  : res ReadError Checkpoint * ResilientClient :=
  read_value now latency (checkpoint_key pipelineID) reply rc.

Definition SetPipelineMetrics `{Codec PipelineMetrics} now latency (pipelineID : string) (m : PipelineMetrics) reply rc
  : res RequestError unit * ResilientClient :=
  write_value now latency (metrics_key pipelineID) m metrics_ttl reply rc.

Definition GetPipelineMetrics `{Codec PipelineMetrics} now latency (pipelineID : string) reply rc
  : res ReadError PipelineMetrics * ResilientClient :=
  read_value now latency (metrics_key pipelineID) reply rc.

(** A value of its own is stored as the JSON text of a text, and read as it is stored. *)
Definition service_Set now latency (key value : string) (expiration : Z) reply rc : res RequestError unit * ResilientClient :=
  let '(r, rc, _) := Set_ config first_key now latency key (Some (json_string value)) expiration reply rc in (r, rc).
Definition service_Get now latency (key : string) reply rc : res RequestError string * ResilientClient :=
  let '(r, rc, _) := Get config first_key now latency key reply rc in (r, rc).

(** Whether the command was published on the channel of workflow executions. *)
Definition PublishWorkflowExecution {C} `{Codec C} now (cmd : C) reply rc : res string unit * ResilientClient :=
  let '(r, rc, _) := Publish config now (marshal cmd) reply rc in
  match r with
  | Ok _ => (Ok tt, rc)
  | Err _ => (Err "failed to publish workflow execution", rc)
  | Panic => (Panic, rc)
  end.
Definition PublishGroupExecution {C} `{Codec C} now (cmd : C) reply rc : res string unit * ResilientClient :=
  PublishWorkflowExecution now cmd reply rc.

(** What the service says of itself, and its end: the subscriptions of the client are closed. *)
Definition service_IsHealthy (s : RedisService) : bool := isHealthy s.
Definition GetPendingCommandCount (s : RedisService) : nat := size (pendingCommands s).
Definition service_Close (c : SubClient) : SubClient := Subscriptions.Close c.

(** The metrics handler with a service: a reading that fails counts as no metrics. *)
Definition metrics_reading `{Codec PipelineMetrics} now latency (healthy : bool) (id : string) reply rc
  : option (option PipelineMetrics) :=
  if healthy then Some (match (GetPipelineMetrics now latency id reply rc).1 with Ok m => Some m | _ => None end)
  else None.

(** ** What the cache holds *)

(** What a request leaves in the cache for a key: a text and when it expires, or that there is
    none, unless it leaves what was there. *)
Definition leaves (key : string) (rc : ResilientClient) (op : cache_op) : option (option cacheEntry) :=
  match op with
  | OpSet now _ k (Some d) ttl _ =>
      if (k =? key)%string then Some (Some (MkEntry d (if ttl =? 0 then now + LocalCacheTTL config else now + ttl))) else None
  | OpGet now _ k (Found v) =>
      let '(ok, rc) := canExecute config now (count_total rc) in
      if (k =? key)%string && (ok && connected rc) then Some (Some (MkEntry v (now + LocalCacheTTL config))) else None
  | OpDel _ ks _ => if bool_decide (key ∈ ks) then Some None else None
  | _ => None
  end.

(** The last text for a key that a sequence of requests wrote or read. *)
Fixpoint last_seen (key : string) (seen : option cacheEntry) (rc : ResilientClient) (ops : list cache_op) : option cacheEntry :=
  match ops with
  | [] => seen
  | op :: ops => last_seen key (default seen (leaves key rc op)) (apply_op config first_key rc op) ops
  end.

(** A copy that is in the cache is the last text seen. *)
Definition tracks (key : string) (seen : option cacheEntry) (rc : ResilientClient) : Prop :=
  forall e, localCache rc !! key = Some e -> seen = Some e.

Lemma tracks_same key seen rc rc' : localCache rc' = localCache rc -> tracks key seen rc -> tracks key seen rc'.
Proof. unfold tracks. by intros ->. Qed.

Lemma tracks_less key seen rc rc' : localCache rc' ⊆ localCache rc -> tracks key seen rc -> tracks key seen rc'.
Proof. unfold tracks. intros Hsub Ht e He. apply Ht. by eapply lookup_weaken. Qed.

Lemma setLocalCache_tracks now k v ttl key seen rc :
  tracks key seen rc ->
  tracks key (if (k =? key)%string then Some (MkEntry v (if ttl =? 0 then now + LocalCacheTTL config else now + ttl)) else seen)
    (setLocalCache config first_key now k v ttl rc).
Proof.
  intros Ht e. unfold setLocalCache. cbn [localCache set_cache]. destruct (String.eqb_spec k key) as [->|Hne].
  - by rewrite lookup_insert_eq.
  - rewrite lookup_insert_ne by done. destruct (_ <=? _); [|apply Ht]. unfold evict.
    destruct (first_key _); [|apply Ht]. intros [_ He]%lookup_delete_Some. by apply Ht.
Qed.

Lemma deletes_lookup (c : gmap string cacheEntry) keys :
  foldl (fun c k => delete k c) c keys ⊆ c /\ forall k, k ∈ keys -> foldl (fun c k => delete k c) c keys !! k = None.
Proof.
  revert c. induction keys as [|k keys IH]; intros c; cbn; [split; [done|set_solver]|].
  destruct (IH (delete k c)) as [H1 H2]. split; [etrans; [exact H1|apply delete_subseteq]|].
  intros k' [->|Hk]%elem_of_cons; [|by apply H2].
  destruct (foldl _ _ _ !! k) as [e|] eqn:He; [|done]. eapply lookup_weaken in He; [|exact H1].
  by rewrite lookup_delete_eq in He.
Qed.

Lemma op_tracks key seen rc op :
  EnableLocalCache config = true -> tracks key seen rc ->
  tracks key (default seen (leaves key rc op)) (apply_op config first_key rc op).
Proof.
  intros He Ht. destruct op as [now latency k [d|] ttl reply|now latency k reply|now ks reply|now];
    cbn [leaves apply_op].
  - unfold Set_. rewrite He. set (rc1 := setLocalCache _ _ _ _ _ _ _).
    assert (H1 := setLocalCache_tracks now k d ttl key seen (count_total rc) Ht). fold rc1 in H1.
    pose proof (canExecute_cache config now rc1) as Hc. destruct (canExecute config now rc1) as [ok rc2]. cbn in Hc.
    replace (default seen _) with (if (k =? key)%string then Some (MkEntry d (if ttl =? 0 then now + LocalCacheTTL config else now + ttl)) else seen)
      by by destruct (k =? key)%string.
    eapply tracks_same; [|exact H1]. destruct (negb ok); [done|]. destruct (negb (connected rc2)); [done|].
    destruct reply; cbn; by rewrite ?recordSuccess_cache, ?recordFailure_cache.
  - done.
  - unfold Get. pose proof (canExecute_cache config now (count_total rc)) as Hc.
    destruct (canExecute config now (count_total rc)) as [ok rc2]. cbn in Hc.
    assert (H2 : tracks key seen rc2) by by eapply tracks_same.
    destruct (ok && connected rc2); [destruct reply as [v| |e]|destruct reply]; rewrite ?andb_false_r, ?andb_true_r, ?He; cbn.
    2-6: eapply tracks_same; [|exact H2]; by rewrite get_fallback_cache, ?recordFailure_cache.
    assert (H3 : tracks key seen (recordSuccess config (recordLatency latency rc2)))
      by (eapply tracks_same; [|exact H2]; by rewrite recordSuccess_cache).
    pose proof (setLocalCache_tracks now k v (LocalCacheTTL config) key seen _ H3) as H4.
    destruct (k =? key)%string; [|exact H4]. by destruct (LocalCacheTTL config =? 0).
  - unfold Del. rewrite He. destruct (deletes_lookup (localCache rc) ks) as [H1 H2].
    set (rc1 := set_cache _ rc). assert (H3 : tracks key (default seen (if bool_decide (key ∈ ks) then Some None else None)) rc1).
    { case_bool_decide as Hk; [|by eapply tracks_less]. intros e. cbn. by rewrite H2. }
    pose proof (canExecute_cache config now rc1) as Hc. destruct (canExecute config now rc1) as [ok rc2]. cbn in Hc.
    eapply tracks_same; [|exact H3]. destruct (negb ok || negb (connected rc2)); [done|].
    destruct reply; cbn; by rewrite ?recordSuccess_cache, ?recordFailure_cache.
  - eapply tracks_less; [|exact Ht]. apply map_filter_subseteq.
Qed.

Lemma ops_track key seen rc ops :
  EnableLocalCache config = true -> tracks key seen rc ->
  tracks key (last_seen key seen rc ops) (foldl (apply_op config first_key) rc ops).
Proof. intros He. revert seen rc. induction ops as [|op ops IH]; intros seen rc Ht; [done|]. by apply IH, op_tracks. Qed.

(** A request that is answered from the cache returns an entry that has not expired. *)
Lemma Get_answer now latency key reply rc v :
  (Get config first_key now latency key reply rc).1.1 = Ok v ->
  reply = Found v \/ exists e, localCache rc !! key = Some e /\ now <= expiresAt e /\ value e = v.
Proof.
  unfold Get. pose proof (canExecute_cache config now (count_total rc)) as Hc.
  destruct (canExecute config now (count_total rc)) as [ok rc2]. cbn in Hc.
  assert (Hf : forall rc3, localCache rc3 = localCache rc -> (get_fallback config now key rc3).1 = Ok v ->
    exists e, localCache rc !! key = Some e /\ now <= expiresAt e /\ value e = v).
  { intros rc3 E. unfold get_fallback, getLocalCache. rewrite E. destruct (EnableLocalCache config); [|done].
    destruct (localCache rc !! key) as [e|]; [|done]. destruct (Z.ltb_spec (expiresAt e) now); [done|]. intros [= <-]. by exists e. }
  destruct (ok && connected rc2); [destruct reply as [w| |e]|]; cbn; intros H.
  - left. congruence.
  - right. by eapply Hf; [|exact H].
  - right. eapply Hf; [|exact H]. by rewrite recordFailure_cache.
  - right. by eapply Hf; [|exact H].
Qed.

(** A copy that has not expired is returned unless Redis answers with another text. *)
Lemma Get_copy now latency key reply rc e :
  EnableLocalCache config = true -> localCache rc !! key = Some e -> now <= expiresAt e ->
  (forall v, reply = Found v -> v = value e) -> (Get config first_key now latency key reply rc).1.1 = Ok (value e).
Proof.
  intros He Hc Ht Hr. unfold Get. pose proof (canExecute_cache config now (count_total rc)) as Hcan.
  destruct (canExecute config now (count_total rc)) as [ok rc2]. cbn in Hcan.
  assert (Hf : forall rc3, localCache rc3 = localCache rc -> (get_fallback config now key rc3).1 = Ok (value e)).
  { intros rc3 E. unfold get_fallback, getLocalCache. rewrite He, E, Hc. by destruct (Z.ltb_spec (expiresAt e) now); [lia|]. }
  destruct (ok && connected rc2); [destruct reply as [v| |e']|]; cbn.
  - by rewrite (Hr v eq_refl).
  - by apply Hf.
  - apply Hf. by rewrite recordFailure_cache.
  - by apply Hf.
Qed.
End Monitoring.

(** ** What monitoring promises *)

(** A reading is what Redis answers, or else the last text for its key that this process wrote
    or read, while it has not expired: whatever requests were made before, with Redis reachable
    or not, and whatever was evicted from the cache, no older text is ever returned. *)
Theorem readings_are_current {A} `{Codec A} (config : Config) first_key rc ops now latency key reply (x : A) :
  EnableLocalCache config = true -> localCache rc = ∅ ->
  (read_value config first_key now latency key reply (foldl (apply_op config first_key) rc ops)).1 = Ok x ->
  (exists v, reply = Found v /\ unmarshal v = Some x) \/
  (exists e, last_seen config first_key key None rc ops = Some e /\ now <= expiresAt e /\ unmarshal (value e) = Some x).
Proof.
  intros He Hc. unfold read_value. destruct (Get _ _ _ _ _ _ _) as [[r rc'] b] eqn:Hg.
  destruct r as [v|e|]; [|done..]. destruct (unmarshal v) as [y|] eqn:Hu; [|done]. intros [= <-].
  destruct (Get_answer config first_key now latency key reply (foldl (apply_op config first_key) rc ops) v) as [->|(e & Hl & Ht & <-)].
  - by rewrite Hg.
  - left. by exists v.
  - right. exists e. split; [|done]. eapply (ops_track config first_key key None rc ops He); [|exact Hl].
    intros e'. by rewrite Hc.
Qed.

(** A checkpoint that was stored is read back as it was, whatever became of the write and of
    the connection, for as long as the copy lives, unless Redis answers with another text. *)
Theorem checkpoint_survives_outage `{CodecOk Checkpoint} (config : Config) first_key rc now latency now' latency' id c t w reply :
  EnableLocalCache config = true -> marshal c = Some t -> now' <= now + LocalCacheTTL config ->
  (forall v, reply = Found v -> v = t) ->
  (GetPipelineCheckpoint config first_key now' latency' id reply
     (SetPipelineCheckpoint config first_key now latency id c w rc).2).1 = Ok c.
Proof.
  intros He Hm Ht Hr. unfold GetPipelineCheckpoint, SetPipelineCheckpoint, read_value, write_value.
  pose proof (Set_caches config first_key now latency (checkpoint_key id) t 0 w rc He) as Hc. rewrite Hm.
  destruct (Set_ config first_key now latency (checkpoint_key id) (Some t) 0 w rc) as [[r rc1] b]. cbn in Hc |- *.
  assert (Hg : (Get config first_key now' latency' (checkpoint_key id) reply rc1).1.1 = Ok t) by exact (Get_copy config first_key now' latency' _ reply rc1 _ He Hc Ht Hr).
  destruct (Get _ _ _ _ _ _ _) as [[r2 rc2] b2]. cbn in Hg. subst r2. by rewrite (unmarshal_marshal _ _ Hm).
Qed.

(** ** Plain values *)

Lemma json_char_length c : (1 <= String.length (json_char c))%nat.
Proof. unfold json_char. repeat case_match; rewrite ?str_length_app; cbn; lia. Qed.

Lemma json_string_length v : (String.length v + 2 <= String.length (json_string v))%nat.
Proof.
  unfold json_string, quoted. rewrite !str_length_app. change (String.length (bytes [34%nat])) with 1%nat. enough (String.length v <= String.length (json_chars v))%nat by lia.
  induction v as [|c v IH]; [done|]. cbn [json_chars String.length]. rewrite str_length_app. pose proof (json_char_length c). lia.
Qed.

(** A plain value does not come back: what is read is its encoding, which is longer. *)
Theorem plain_values_come_back_quoted (config : Config) first_key rc now latency now' latency' key v w reply :
  EnableLocalCache config = true -> now' <= now + LocalCacheTTL config -> (forall u, reply = Found u -> u = json_string v) ->
  exists u, (service_Get config first_key now' latency' key reply (service_Set config first_key now latency key v 0 w rc).2).1 = Ok u /\
            u = json_string v /\ u <> v.
Proof.
  intros He Ht Hr. exists (json_string v). split; [|split; [done|]].
  - unfold service_Get, service_Set. pose proof (Set_caches config first_key now latency key (json_string v) 0 w rc He) as Hc.
    destruct (Set_ config first_key now latency key (Some (json_string v)) 0 w rc) as [[r rc1] b]. cbn in Hc |- *.
    assert (Hg : (Get config first_key now' latency' key reply rc1).1.1 = Ok (json_string v)) by exact (Get_copy config first_key now' latency' _ reply rc1 _ He Hc Ht Hr).
    by destruct (Get _ _ _ _ _ _ _) as [[r2 rc2] b2].
  - intros E. pose proof (json_string_length v). rewrite E in H. lia.
Qed.
