(* ===== verification/BentoAdapter.v ===== *)
(** * Adapters around Bento components (pkg/adapter/bento/adapter.go)

    Messages, inputs, outputs and processors are objects of the Bento library: an interface
    with the laws the adapters rely on. The adapters' own state is a flag, and writers and
    stops interleave. *)

From Stdlib Require Import String.
From S2P Require Import Prelude GoString GoValue.
Local Open Scope string_scope.
Local Open Scope list_scope.

Definition ErrAdapterClosed := "adapter is closed".
Definition ErrNotInitialized := "adapter not initialized".

(** A message of the library: its contents as a JSON document or as bytes, and its metadata.
    [None] as a document is a failure to parse. *)
Class BentoMessage (M : Type) := {
  NewMessage : string -> M;
  MetaSet : string -> string -> M -> M;
  AsStructured : M -> option GoValue;
  AsBytes : M -> res string string;
  MetaWalk : M -> gmap string GoValue
}.

(** What the adapters use of [encoding/json]: the encoding of a map, the document of a text, and
    what a text leaves in a map that is decoded into: an error, nil for [null], or a map. *)
Class Json := {
  marshal_map : Data -> option string;
  document : string -> option GoValue;
  unmarshal_map : string -> option (option Data)
}.

(** A new message holds its bytes, and its document is that of the bytes; setting metadata
    changes only that. *)
Class BentoMessageOk (M : Type) `{Json} `{BentoMessage M} := {
  bytes_new t : AsBytes (NewMessage t) = Ok t;
  document_new t : AsStructured (NewMessage t) = document t;
  meta_new t : MetaWalk (NewMessage t) = ∅;
  document_set k v m : AsStructured (MetaSet k v m) = AsStructured m;
  bytes_set k v m : AsBytes (MetaSet k v m) = AsBytes m;
  meta_set k v m : MetaWalk (MetaSet k v m) = <[k := VString v]> (MetaWalk m)
}.

Definition meta_prefix : string := "_meta_".

Section Converter.
Context {M : Type} `{Json} `{BentoMessage M}.

(** Metadata goes into the record under prefixed keys. *)
Definition with_meta (meta : gmap string GoValue) (d : Data) : Data := kmap (String.append meta_prefix) meta ∪ d.

(** A nil map is [None]: copying metadata into it panics. *)
Definition ToMap (now : string) (msg : M) : res string (option Data) :=
  match AsStructured msg with
  | Some (VMap m) => Ok (Some m)
  | _ =>
      match AsBytes msg with
      | Err e => Err e
      | Panic => Panic
      | Ok data =>
          match unmarshal_map data with
          | None => Ok (Some (with_meta (MetaWalk msg) {["message" := VString data; "timestamp" := VString now]}))
          | Some (Some m) => Ok (Some (with_meta (MetaWalk msg) m))
          | Some None => if bool_decide (MetaWalk msg = ∅) then Ok None else Panic
          end
      end
  end.

(** The entry of the metadata a key and value of a record give, if any. *)
Definition meta_entry (kv : string * GoValue) : option (string * string) :=
  match strip_prefix meta_prefix kv.1, kv.2 with
  | Some k, VString v => if k =? "" then None else Some (k, v)
  | _, _ => None
  end.

(** The order in which Go ranges over a map. *)
Context (range : Data -> list (string * GoValue)).

Definition FromMap (data : Data) : M :=
  foldl (fun m kv => MetaSet kv.1 kv.2 m) (NewMessage (default "" (marshal_map data))) (omap meta_entry (range data)).

(** ** Processors *)

(** The results are converted in order; those that cannot be are left out. *)
Fixpoint convert_all (now : string) (ms : list M) : res string (list (option Data)) :=
  match ms with
  | [] => Ok []
  | m :: ms =>
      match ToMap now m with
      | Panic => Panic
      | r =>
          match convert_all now ms with
          | Ok l => Ok (match r with Ok d => d :: l | _ => l end)
          | r => r
          end
      end
  end.

(** [ProcessBatch] is the processor of the library. *)
Definition Process (ProcessBatch : list M -> res string (list (list M))) (now : string) (data : Data)
  : res string (list (option Data)) :=
  match ProcessBatch [FromMap data] with
  | Ok results => convert_all now (mjoin results)
  | Err e => Err e
  | Panic => Panic
  end.

(** ** Outputs *)

(** What the library is asked to do. *)
Inductive Asked := AskedWrite (m : M) | AskedBatch (ms : list M) | AskedClose.

(** A call of [Write] or [WriteBatch] reads the flag, releases the lock and then writes. *)
Inductive Call := CallWrite (d : Data) | CallBatch (ds : list Data).
Inductive WriterStage := Entering (c : Call) | Passed (c : Call) | Refused | Asking.

Definition asked_by (c : Call) : Asked :=
  match c with CallWrite d => AskedWrite (FromMap d) | CallBatch ds => AskedBatch (FromMap <$> ds) end.

(** [OutputAdapter] with the calls in progress and what its output was asked for. *)
Record OutputAdapter := MkOutput { out_running : bool; out_calls : list WriterStage; out_log : list Asked }.

Definition NewOutputAdapter : OutputAdapter := MkOutput true [] [].

Definition output_Stop (a : OutputAdapter) : OutputAdapter :=
  if out_running a then MkOutput false (out_calls a) (out_log a ++ [AskedClose]) else a.

Inductive output_step : OutputAdapter -> OutputAdapter -> Prop :=
| output_call a c : output_step a (MkOutput (out_running a) (out_calls a ++ [Entering c]) (out_log a))
| output_check a i c : out_calls a !! i = Some (Entering c) ->
    output_step a (MkOutput (out_running a) (<[i := if out_running a then Passed c else Refused]> (out_calls a)) (out_log a))
| output_ask a i c : out_calls a !! i = Some (Passed c) ->
    output_step a (MkOutput (out_running a) (<[i := Asking]> (out_calls a)) (out_log a ++ [asked_by c]))
| output_stop a : output_step a (output_Stop a).

(** A call on its own, from its start to its end. *)
Definition Write (write : Asked -> res string unit) (d : Data) (a : OutputAdapter) : res string unit :=
  if out_running a then write (asked_by (CallWrite d)) else Err ErrAdapterClosed.
Definition WriteBatch (write : Asked -> res string unit) (ds : list Data) (a : OutputAdapter) : res string unit :=
  if out_running a then write (asked_by (CallBatch ds)) else Err ErrAdapterClosed.
End Converter.

(** ** Inputs *)

(** [InputAdapter]: the flag, the contexts of the goroutines it started (whether each is
    cancelled, the latest last), and how often the input was closed. [readLoop] waits for its
    context and reads nothing. *)
Record InputAdapter := MkInput { in_running : bool; in_contexts : list bool; in_closed : nat }.

Definition NewInputAdapter : InputAdapter := MkInput false [] 0.

Definition input_Start (a : InputAdapter) : InputAdapter :=
  if in_running a then a else MkInput true (in_contexts a ++ [false]) (in_closed a).

Definition cancel_last (l : list bool) : list bool :=
  match last l with Some _ => take (pred (List.length l)) l ++ [true] | None => l end.

(** [close] is what closing the input gives. *)
Definition input_Stop (close : res string unit) (a : InputAdapter) : res string unit * InputAdapter :=
  if in_running a then (close, MkInput false (cancel_last (in_contexts a)) (S (in_closed a))) else (Ok tt, a).

(** ** What the adapters promise *)

Section Facts.
Context {M : Type} `{BentoMessageOk M}.
Context (range : Data -> list (string * GoValue)) (range_ok : forall d, range d ≡ₚ map_to_list d).

Lemma FromMap_keeps t l :
  let m := foldl (fun m kv => MetaSet kv.1 kv.2 m) (NewMessage t) l in
  AsStructured m = document t /\ AsBytes m = Ok t.
Proof.
  cbn. pose proof (document_new (M := M) t) as Hd. pose proof (bytes_new (M := M) t) as Hb. revert Hd Hb. generalize (NewMessage (M := M) t).
  induction l as [|kv l IH]; intros m Hd Hb; [done|]. cbn. apply IH; [by rewrite document_set|by rewrite bytes_set].
Qed.

(** A record that its encoding determines comes back from a message as it was. *)
Theorem to_map_from_map (now t : string) (d : Data) :
  marshal_map d = Some t -> document t = Some (VMap d) -> ToMap now (FromMap range d) = Ok (Some d).
Proof. intros Hm Hd. unfold ToMap, FromMap. rewrite Hm. cbn. destruct (FromMap_keeps t (omap meta_entry (range d))) as [-> _]. by rewrite Hd. Qed.

Lemma foldl_meta k (l : list (string * string)) m :
  NoDup l.*1 ->
  MetaWalk (foldl (fun m kv => MetaSet kv.1 kv.2 m) m l) !! k =
  match list_to_map (M := gmap string string) l !! k with Some v => Some (VString v) | None => MetaWalk m !! k end.
Proof.
  revert m. induction l as [|[k' v] l IH]; intros m Hnd; [done|]. cbn in Hnd. apply NoDup_cons in Hnd as [Hk Hnd].
  cbn. rewrite IH by done. destruct (decide (k = k')) as [->|Hne].
  - rewrite lookup_insert_eq, (not_elem_of_list_to_map_1 l k') by done. by rewrite meta_set, lookup_insert_eq.
  - rewrite lookup_insert_ne by done. rewrite meta_set, lookup_insert_ne by done. done.
Qed.

Lemma meta_entry_spec k k' v x : meta_entry (k, x) = Some (k', v) <-> k = meta_prefix +:+ k' /\ x = VString v /\ k' <> "".
Proof.
  unfold meta_entry. cbn [fst snd]. destruct (strip_prefix meta_prefix k) as [r|] eqn:Hs.
  - apply strip_prefix_Some in Hs as ->. destruct x; try (split; [done|by intros (_ & ? & _)]).
    destruct (String.eqb_spec r "") as [->|Hr]; split; try done.
    + intros (E & _ & Hne). destruct Hne. by apply (inj (String.append meta_prefix)) in E.
    + by intros [= -> ->].
    + intros (E%(inj (String.append meta_prefix)) & [= ->] & _). by subst.
  - split; [done|]. intros (-> & _). by rewrite (proj2 (strip_prefix_Some _ _ k') eq_refl) in Hs.
Qed.

Lemma meta_entries_nodup (l : list (string * GoValue)) : NoDup l.*1 -> NoDup (omap meta_entry l).*1.
Proof.
  induction l as [|[k x] l IH]; [done|]. cbn [fmap list_fmap]. intros [Hk Hnd]%NoDup_cons. cbn.
  destruct (meta_entry (k, x)) as [[k' v]|] eqn:He; [|by apply IH]. cbn. apply NoDup_cons. split; [|by apply IH].
  apply meta_entry_spec in He as (-> & _). intros ([k2 v2] & -> & ([k3 x3] & Hin & He3)%list_elem_of_omap)%list_elem_of_fmap.
  apply meta_entry_spec in He3 as (-> & _). apply Hk. apply list_elem_of_fmap. by exists (meta_prefix +:+ k2, x3).
Qed.

(** The metadata of a message are the texts of the record under prefixed, otherwise nonempty
    keys, in whatever order the record is gone through. *)
Theorem from_map_metadata (d : Data) k x :
  MetaWalk (FromMap (M := M) range d) !! k = Some x <-> k <> "" /\ exists v, x = VString v /\ d !! (meta_prefix +:+ k) = Some (VString v).
Proof.
  unfold FromMap. assert (Hnd : NoDup (range d).*1) by (rewrite range_ok; apply NoDup_fst_map_to_list).
  pose proof (meta_entries_nodup _ Hnd) as Hnd'. rewrite foldl_meta by done. rewrite meta_new, lookup_empty.
  assert (Hin : forall v, (k, v) ∈ omap meta_entry (range d) <-> k <> "" /\ d !! (meta_prefix +:+ k) = Some (VString v)).
  { intros v. rewrite list_elem_of_omap. split.
    - intros ([k' x'] & Hin & (-> & -> & Hne)%meta_entry_spec). rewrite range_ok in Hin. by apply elem_of_map_to_list in Hin.
    - intros [Hne Hl]. exists (meta_prefix +:+ k, VString v). rewrite range_ok, elem_of_map_to_list. split; [done|]. by apply meta_entry_spec. }
  destruct (list_to_map (omap meta_entry (range d)) !! k) as [v|] eqn:Hl.
  - apply elem_of_list_to_map in Hl; [|done]. apply Hin in Hl as [Hne Hl]. split.
    + intros [= <-]. eauto.
    + intros (_ & v' & -> & Hv). congruence.
  - apply not_elem_of_list_to_map in Hl. split; [done|]. intros (Hne & v & -> & Hv). destruct Hl. apply list_elem_of_fmap.
    exists (k, v). split; [done|]. by apply Hin.
Qed.

(** A message panics its conversion exactly when its bytes are a JSON null and it has metadata. *)
Theorem to_map_panics (now : string) (m : M) :
  AsBytes m <> Panic ->
  ToMap now m = Panic <->
  (forall d, AsStructured m <> Some (VMap d)) /\ (exists t, AsBytes m = Ok t /\ unmarshal_map t = Some None) /\ MetaWalk m <> ∅.
Proof.
  intros Hb. unfold ToMap. split.
  - destruct (AsStructured m) as [[]|] eqn:Hs; try done.
    all: destruct (AsBytes m) as [t| |]; try done; destruct (unmarshal_map t) as [[|]|] eqn:Hu; try done.
    all: case_bool_decide; [done|]; intros _; repeat split; try done; by exists t.
  - intros (Hs & (t & -> & ->) & Hm). rewrite bool_decide_false by done. destruct (AsStructured m) as [[]|]; try done. by destruct (Hs m0).
Qed.

(** ** Outputs in every interleaving *)

Definition is_close (x : Asked (M := M)) : bool := match x with AskedClose => true | _ => false end.

(** How many calls have passed the check and not yet asked. *)
Definition passed (a : OutputAdapter (M := M)) : nat :=
  List.length (List.filter (fun s => match s with Passed _ => true | _ => false end) (out_calls a)).

Definition output_ok (a : OutputAdapter (M := M)) : Prop :=
  List.length (List.filter is_close (out_log a)) = if out_running a then 0 else 1.

Lemma filter_snoc_length {A} (f : A -> bool) l x :
  List.length (List.filter f (l ++ [x])) = List.length (List.filter f l) + if f x then 1 else 0.
Proof. rewrite List.filter_app, length_app. cbn. by destruct (f x). Qed.

Lemma output_step_ok a a' : output_step range a a' -> output_ok a -> output_ok a'.
Proof.
  unfold output_ok. intros Hs Hc. destruct Hs as [a c|a i c Hi|a i c Hi|a]; cbn [out_log out_running]; try done.
  - rewrite filter_snoc_length, Hc. destruct c; cbn; by destruct (out_running a).
  - unfold output_Stop. destruct (out_running a) eqn:Hr; cbn; [by rewrite filter_snoc_length, Hc|by rewrite Hr].
Qed.

Lemma passed_insert l i s s' :
  l !! i = Some s ->
  (forall c, s' <> Passed c) ->
  List.length (List.filter (fun s => match s with Passed _ => true | _ => false end) (<[i := s']> l)) +
    (match s with Passed _ => 1 | _ => 0 end) =
  List.length (List.filter (fun s => match s with Passed _ => true | _ => false end) l).
Proof.
  intros Hi Hs'. revert i Hi. induction l as [|x l IH]; intros [|i] Hi; simplify_eq/=.
  - destruct s'; try by destruct s; cbn; lia. by destruct (Hs' c).
  - specialize (IH i Hi). destruct x; cbn; lia.
Qed.

(** Once an output is stopped only the calls that passed the check before still reach it. *)
Lemma stopped_output_step a a' :
  output_step range a a' -> out_running a = false ->
  out_running a' = false /\ List.length (out_log a') + passed a' = List.length (out_log a) + passed a.
Proof.
  intros Hs Hr. unfold passed. destruct Hs as [a c|a i c Hi|a i c Hi|a]; cbn [out_running out_calls out_log].
  - split; [done|]. rewrite filter_snoc_length. lia.
  - rewrite Hr. split; [done|]. rewrite <- (passed_insert (out_calls a) i (Entering c) Refused Hi); [lia|done].
  - split; [done|]. rewrite length_app. rewrite <- (passed_insert (out_calls a) i (Passed c) Asking Hi) by done. cbn. lia.
  - unfold output_Stop. by rewrite Hr.
Qed.

(** However calls and stops interleave, the output is closed at most once, exactly when the
    adapter is stopped; and from then on it gets no more requests than there were calls
    between their check and their write. *)
Theorem output_is_closed_once a a' :
  rtc (output_step range) NewOutputAdapter a -> rtc (output_step range) a a' ->
  List.length (List.filter is_close (out_log a)) = (if out_running a then 0 else 1) /\
  (out_running a = false -> List.length (out_log a') <= List.length (out_log a) + passed a).
Proof.
  intros Ha Ha'. assert (Hok : output_ok a).
  { remember NewOutputAdapter as a0 eqn:E. assert (Hok : output_ok a0) by by subst. clear E.
    induction Ha as [|x y z Hs _ IH]; [done|]. apply IH; [done|]. by eapply output_step_ok. }
  split; [done|]. intros Hr.
  enough (out_running a' = false /\ List.length (out_log a') + passed a' = List.length (out_log a) + passed a) by lia.
  clear Ha Hok. induction Ha' as [|x y z Hs _ IH]; [done|]. destruct (stopped_output_step _ _ Hs Hr) as [Hr' <-]. by apply IH.
Qed.
End Facts.

(** A call that passed the check writes to an output that was closed in between. *)
Theorem write_after_close {M : Type} `{BentoMessage M} `{Json} range d :
  exists a, rtc (output_step (M := M) range) NewOutputAdapter a /\
    out_log a = [AskedClose; AskedWrite (FromMap range d)].
Proof.
  eexists. split.
  - eapply rtc_l; [apply (output_call _ _ (CallWrite d))|]. eapply rtc_l; [by apply (output_check _ _ 0)|].
    eapply rtc_l; [apply output_stop|]. eapply rtc_l; [by apply (output_ask _ _ 0 (CallWrite d))|]. apply rtc_refl.
  - done.
Qed.

(** ** Inputs *)

Definition input_call (a : InputAdapter) (start : bool) : InputAdapter := if start then input_Start a else (input_Stop (Ok tt) a).2.

(** At most one goroutine of an input waits at any time, the latest, and only while the
    adapter runs; and the input is closed once for each time it was stopped, though it is
    the same input that is started again. *)
Theorem input_has_one_loop (calls : list bool) :
  let a := foldl input_call NewInputAdapter calls in
  in_contexts a = replicate (in_closed a) true ++ (if in_running a then [false] else []).
Proof.
  cbn. induction calls as [|c calls IH] using rev_ind; [done|]. rewrite foldl_app. cbn.
  set (a := foldl input_call NewInputAdapter calls) in *. clearbody a. unfold input_call, input_Start, input_Stop.
  destruct c, (in_running a) eqn:Hr; cbn [in_contexts in_closed in_running snd]; rewrite ?Hr, IH, ?app_nil_r; try done.
  unfold cancel_last. rewrite last_app. cbn. rewrite length_app, length_replicate. cbn.
  replace (pred (in_closed a + 1)) with (in_closed a) by lia. rewrite take_app_length' by (symmetry; apply length_replicate).
  by rewrite <- replicate_S_end.
Qed.

(** ** An instance *)

(** Messages as a text and a map, with the JSON of the empty record and of null only. *)
Record TextMessage := MkText { text : string; meta : gmap string GoValue }.

Definition small_json : Json := {|
  marshal_map d := if bool_decide (dom d = ∅) then Some "{}" else None;
  document t := if t =? "{}" then Some (VMap ∅) else if t =? "null" then Some VNil else None;
  unmarshal_map t := if t =? "{}" then Some (Some ∅) else if t =? "null" then Some None else None
|}.

Definition text_message : @BentoMessage TextMessage := {|
  NewMessage t := MkText t ∅;
  MetaSet k v m := MkText (text m) (<[k := VString v]> (meta m));
  AsStructured m := document (Json := small_json) (text m);
  AsBytes m := Ok (text m);
  MetaWalk := meta
|}.

Lemma text_message_ok : @BentoMessageOk TextMessage small_json text_message.
Proof. by split. Qed.

(** The empty record comes back; a null with metadata panics; a text becomes a record of its
    own, with its metadata. *)
Example small_conversions :
  let ToMap := ToMap (M := TextMessage) (H := small_json) (H0 := text_message) in
  ToMap "t" (FromMap (H := small_json) (H0 := text_message) map_to_list ∅) = Ok (Some ∅) /\
  ToMap "t" (MkText "null" {["k" := VString "v"]}) = Panic /\ ToMap "t" (MkText "null" ∅) = Ok None /\
  ToMap "t" (MkText "hi" {["k" := VString "v"]}) =
    Ok (Some {["_meta_k" := VString "v"; "message" := VString "hi"; "timestamp" := VString "t"]}).
Proof.
  split; [|by vm_compute].
  apply (to_map_from_map (H1 := text_message_ok) map_to_list "t" "{}" ∅); by vm_compute.
Qed.
