(* ===== verification/ActorContext.v ===== *)
(** * Contexts of actors and questions (pkg/actor/actor.go, pkg/actor/system.go)

    What an actor can do through its context besides spawning (in [ActorSystem]): look at its
    children, stop an actor, watch one, save and load a checkpoint under its path. And [Ask]: a
    message with a channel for one reply, which the loop of the actor answers when the actor
    does not. *)

From Stdlib Require Import String.
From S2P Require Import Prelude GoString GoValue Mailbox Supervisor ActorSystem.
Local Open Scope string_scope.
Local Open Scope list_scope.

(** ** Contexts *)

(** [Checkpointer], with what it stores as its state. *)
Class Checkpointer (S : Type) := {
  Save : string -> Data -> S -> res string unit * S;
  Load : string -> S -> res string (option Data)
}.

(** What a checkpointer promises: a saved record is loaded under its path, and saving under one
    path leaves the others. *)
Class CheckpointerOk (S : Type) `{Checkpointer S} := {
  load_saved p d s : (Save p d s).1 = Ok tt -> Load p (Save p d s).2 = Ok (Some d);
  load_other p q d s : p <> q -> Load q (Save p d s).2 = Load q s
}.

Section Context.
(** The order in which Go ranges over the children. *)
Context (range_refs : gmap string ActorRef -> list (string * ActorRef)).

(** The context of [self] with the actors it watches; [watchers] is never written. *)
Record ActorContext := MkContext { self : ActorRef; watching : gmap string ActorRef }.

Definition newActorContext (r : ActorRef) : ActorContext := MkContext r ∅.

Definition Self (c : ActorContext) : ActorRef := self c.
Definition Parent (c : ActorContext) : act (option ActorRef) := let* i := deref (self c) in ret (ai_parent i).
Definition Children (c : ActorContext) : act (list ActorRef) := let* i := deref (self c) in ret (range_refs (ai_children i)).*2.
Definition ctx_Stop (c : ActorContext) (ref : ActorRef) : act unit := stop ref.

Definition Watch (ref : ActorRef) (path : string) (c : ActorContext) : ActorContext := MkContext (self c) (<[path := ref]> (watching c)).
Definition Unwatch (path : string) (c : ActorContext) : ActorContext := MkContext (self c) (delete path (watching c)).

(** [saveCheckpoint] and [getCheckpoint]: a system without a checkpointer saves nothing and has
    nothing. *)
Definition saveCheckpoint {S} `{Checkpointer S} (path : string) (d : Data) (cp : option S) : res string unit * option S :=
  match cp with
  | None => (Ok tt, None)
  | Some s => let '(r, s) := Save path d s in (r, Some s)
  end.
Definition getCheckpoint {S} `{Checkpointer S} (path : string) (cp : option S) : res string (option Data) :=
  match cp with None => Ok None | Some s => Load path s end.

(** [Checkpoint] and [GetCheckpoint] of a context; [None] when the actor is not in the heap. *)
Definition Checkpoint {S} `{Checkpointer S} (sys : System) (c : ActorContext) (d : Data) (cp : option S)
  : option (res string unit * option S) := (fun i => saveCheckpoint (ai_path i) d cp) <$> heap sys !! self c.
Definition GetCheckpoint {S} `{Checkpointer S} (sys : System) (c : ActorContext) (cp : option S)
  : option (res string (option Data)) := (fun i => getCheckpoint (ai_path i) cp) <$> heap sys !! self c.

(** *** What contexts promise *)

(** In every state a system can reach, an actor loads the checkpoint it saved, and no other
    running actor's checkpoint changes: running actors have paths of their own. *)
Theorem checkpoints_are_private {S} `{CheckpointerOk S} range_children name config sys (c c' : ActorContext) i i' d (s : S) :
  (forall m x, x ∈ range_children m -> m !! x.1 = Some x.2) ->
  (forall m x, x ∈ range_refs m -> m !! x.1 = Some x.2) ->
  sys_reachable range_children range_refs name config sys ->
  heap sys !! self c = Some i -> heap sys !! self c' = Some i' -> ai_running i = true -> ai_running i' = true -> self c <> self c' ->
  exists r cp, Checkpoint sys c d (Some s) = Some (r, Some cp) /\
    (r = Ok tt -> GetCheckpoint sys c (Some cp) = Some (Ok (Some d))) /\
    GetCheckpoint sys c' (Some cp) = GetCheckpoint sys c' (Some s).
Proof.
  intros Hrc Hrr Hreach Hi Hi' Hr Hr' Hne. apply sys_reachable_ok in Hreach; [|done..].
  unfold Checkpoint, GetCheckpoint. rewrite Hi, Hi'. cbn. destruct (Save (ai_path i) d s) as [r cp] eqn:Hs. exists r, cp.
  pose proof (load_saved (ai_path i) d s) as H1. pose proof (load_other (ai_path i) (ai_path i') d s) as H2. rewrite Hs in H1, H2. cbn in H1, H2.
  split; [done|]. split; [intros Hok; by rewrite H1|]. rewrite H2; [done|]. intros E. apply Hne.
  pose proof (so_running _ Hreach _ _ Hi Hr) as Ha. pose proof (so_running _ Hreach _ _ Hi' Hr') as Ha'. congruence.
Qed.

(** Without a checkpointer, which is how every system here is made, saving reports success and
    nothing can be loaded. *)
Theorem checkpoints_without_checkpointer {S} `{Checkpointer S} sys c d i :
  heap sys !! self c = Some i ->
  Checkpoint (S := S) sys c d None = Some (Ok tt, None) /\ GetCheckpoint (S := S) sys c None = Some (Ok None).
Proof. intros Hi. unfold Checkpoint, GetCheckpoint. by rewrite Hi. Qed.

(** A child that is stopped stays among the children of its parent. *)
Theorem stopped_children_stay (c : ActorContext) ref sys sys' r l :
  self c <> ref -> (forall j, heap sys !! ref = Some j -> actors sys !! ai_path j = Some ref) ->
  ctx_Stop c ref sys = Returns r sys' -> Children c sys = Returns (inr l) sys -> Children c sys' = Returns (inr l) sys'.
Proof.
  intros Hne Hreg Hstop. unfold ctx_Stop, stop, bind, deref, get, put, update, fail in Hstop.
  destruct (heap sys !! ref) as [j|] eqn:Hj; [|done]. specialize (Hreg j eq_refl). rewrite Hreg in Hstop.
  injection Hstop as _ <-. unfold Children, bind, deref, ret. cbn. do 3 rewrite lookup_alter_ne by done.
  destruct (heap sys !! self c) as [i|]; [|done]. by intros [= <-].
Qed.
End Context.

(** ** Questions *)

Section Ask.
Context {R : Type} (default_reply : R).

(** Where the message of a question is: in the mailbox, with the actor (which has some replies
    still to send), at the default reply, done, or dropped by a full mailbox. *)
Inductive Handling := Queued | Receiving (todo : list R) | Defaulting | Handled | Dropped.

(** The asker waits, has a reply, or gave up when its context ended. *)
Inductive Asker := Waiting | Got (r : R) | GaveUp.

Record Question := MkQuestion { replyChan : list R; handling : Handling; asker : Asker }.

(** [Ask] after the message is in the mailbox. *)
Definition Ask : Question := MkQuestion [] Queued Waiting.

(** [replies] is what the actor's [Receive] sends to [ReplyTo]; the channel holds one. *)
Inductive ask_step (replies : list R) : Question -> Question -> Prop :=
| ask_receive ch a : ask_step replies (MkQuestion ch Queued a) (MkQuestion ch (Receiving replies) a)
| ask_dropped ch a : ask_step replies (MkQuestion ch Queued a) (MkQuestion ch Dropped a)
| ask_reply r l a : ask_step replies (MkQuestion [] (Receiving (r :: l)) a) (MkQuestion [r] (Receiving l) a)
| ask_returned ch a : ask_step replies (MkQuestion ch (Receiving []) a) (MkQuestion ch Defaulting a)
| ask_default ch a : ask_step replies (MkQuestion ch Defaulting a) (MkQuestion (match ch with [] => [default_reply] | _ => ch end) Handled a)
| ask_got r ch h : ask_step replies (MkQuestion (r :: ch) h Waiting) (MkQuestion ch h (Got r))
| ask_gave_up ch h : ask_step replies (MkQuestion ch h Waiting) (MkQuestion ch h GaveUp).

(** The reply an asker gets: the first of the actor's own, or the default. *)
Definition answer (replies : list R) : R := default default_reply (head replies).

(** No reply yet. *)
Definition unanswered (q : Question) : Prop := replyChan q = [] /\ forall r, asker q <> Got r.

(** The answer was sent first: it is with the asker or alone in the channel. *)
Definition answered (replies : list R) (q : Question) : Prop :=
  List.length (replyChan q) <= 1 /\
  match asker q with Got r => r = answer replies | _ => replyChan q = [answer replies] end.

Definition ask_ok (replies : list R) (q : Question) : Prop :=
  match handling q with
  | Queued | Dropped => unanswered q
  | Receiving l => l = replies /\ unanswered q \/ List.length l < List.length replies /\ answered replies q
  | Defaulting => replies = [] /\ unanswered q \/ answered replies q
  | Handled => answered replies q
  end.

Lemma answered_moves replies q q' :
  answered replies q -> asker q = Waiting -> (exists r, replyChan q = r :: replyChan q' /\ asker q' = Got r) -> answered replies q'.
Proof.
  unfold answered. intros [Hl Ha] Hw (r & Hc & ->). rewrite Hw, Hc in *. injection Ha as -> ->. cbn. split; [lia|done].
Qed.

Lemma ask_step_ok replies q q' : ask_step replies q q' -> ask_ok replies q -> ask_ok replies q'.
Proof.
  intros Hs. destruct Hs as [ch a|ch a|r l a|ch a|ch a|r ch h|ch h]; unfold ask_ok, unanswered; cbn.
  - auto.
  - done.
  - intros [[<- [_ Hn]]|[Hlt Ha]]; right.
    + cbn. split; [lia|]. split; [cbn; lia|]. cbn. destruct a; try done. by destruct (Hn r0).
    + split; [lia|]. split; [cbn; lia|]. destruct Ha as [_ Ha]. cbn in *. by destruct a.
  - intros [[<- H]|[_ H]]; auto.
  - intros [[-> [-> Hn]]|H]; unfold answered in *; cbn in *.
    + split; [lia|]. destruct a; try done. by destruct (Hn r).
    + by destruct H as [Hl H], ch, a.
  - destruct h; try by intros [? _]. 1: intros [[_ [? _]]|[Hlt H]]; [done|right; split; [done|]].
    2: intros [[_ [? _]]|H]; [done|right]. 3: intros H. all: eapply answered_moves; [exact H|done|cbn; eauto].
  - unfold answered. cbn. destruct h; naive_solver.
Qed.

(** How long a question can go on. *)
Definition ask_work (replies : list R) (q : Question) : nat :=
  match handling q with
  | Queued => 3 + List.length replies
  | Receiving l => 2 + List.length l
  | Defaulting => 1
  | Handled | Dropped => 0
  end + match asker q with Waiting => 1 | _ => 0 end.

Lemma ask_step_works replies q q' : ask_step replies q q' -> ask_work replies q' < ask_work replies q.
Proof. intros Hs. destruct Hs as [ch a|ch a|r l a|ch a|ch a|r ch h|ch h]; unfold ask_work; cbn; try destruct h; cbn; lia. Qed.

Lemma ask_run replies n q q' :
  nsteps (ask_step replies) n q q' -> ask_ok replies q -> ask_ok replies q' /\ n + ask_work replies q' <= ask_work replies q.
Proof.
  induction 1 as [|n x y z Hs _ IH]; intros Hok; [by split|]. apply ask_step_works in Hs as Hw.
  destruct IH as [H1 H2]; [by eapply ask_step_ok|]. split; [done|lia].
Qed.

(** An asker never gets anything but the first reply of the actor, or the default one when the
    actor gives none. An actor that gives at most one reply is never held up by a question:
    every run is finite, and where it ends the message is handled or was dropped and the asker
    has gone on; and an asker that still waits when the message is handled finds the answer. *)
Theorem ask_is_answered replies n q :
  nsteps (ask_step replies) n Ask q ->
  n <= 4 + List.length replies /\ (forall r, asker q = Got r -> r = answer replies) /\
  (List.length replies <= 1 -> (forall q', ~ ask_step replies q q') ->
     (handling q = Handled \/ handling q = Dropped) /\ asker q <> Waiting) /\
  (handling q = Handled -> asker q = Waiting -> ask_step replies q (MkQuestion [] Handled (Got (answer replies)))).
Proof.
  intros Hn. destruct (ask_run _ _ _ _ Hn) as [Hok Hw]; [by split|]. split; [unfold ask_work in Hw at 2; cbn in Hw; lia|].
  destruct q as [ch h a]. unfold ask_ok, unanswered, answered in Hok. cbn in *. split; [|split].
  - intros r ->. destruct h; naive_solver.
  - intros Hl Hstuck. split; [|intros ->; by apply (Hstuck _ (ask_gave_up _ ch h))].
    destruct h as [|[|r l]| | |]; auto; exfalso.
    + by apply (Hstuck _ (ask_receive _ ch a)).
    + by apply (Hstuck _ (ask_returned _ ch a)).
    + destruct Hok as [[_ [-> _]]|[Hlt _]]; [by apply (Hstuck _ (ask_reply _ r l a))|cbn in Hlt; lia].
    + by apply (Hstuck _ (ask_default _ ch a)).
  - intros -> ->. destruct Hok as [_ ->]. constructor.
Qed.

(** An actor that gives two replies to an asker that went away waits for ever. *)
Theorem second_reply_can_block r1 r2 :
  exists q, rtc (ask_step [r1; r2]) Ask q /\ handling q = Receiving [r2] /\ forall q', ~ ask_step [r1; r2] q q'.
Proof.
  exists (MkQuestion [r1] (Receiving [r2]) GaveUp). split; [|split; [done|by inversion 1]].
  eapply rtc_l; [apply ask_gave_up|]. eapply rtc_l; [apply ask_receive|]. eapply rtc_l; [apply ask_reply|]. apply rtc_refl.
Qed.
End Ask.
