(* ===== verification/RegistryLock.v ===== *)
(** * The lock of the operator registry and its exports (pkg/filter/registry.go)

    The calls on a registry as the sequences of operations on its [sync.RWMutex], in every
    interleaving of any number of goroutines; and the texts the registry exports. A pending
    writer keeps new readers out, as the documentation of the mutex says. *)

From Stdlib Require Import Ascii String.
From S2P Require Import Prelude GoString FilterRegistry.
Local Open Scope string_scope.
Local Open Scope list_scope.

(** ** The lock *)

Inductive LockOp := RLock | RUnlock | Lock | Unlock.

(** No writer, one that waits for the readers to leave, or one at work. *)
Inductive Writer := Free | Pending (i : nat) | Active (i : nat).

(** The goroutines with what they still do, the readers inside, and the writer. *)
Record Mutex := MkMutex { threads : list (list LockOp); readers : nat; writer : Writer }.

Definition idle_mutex (l : list (list LockOp)) : Mutex := MkMutex l 0 Free.

Inductive lock_step : Mutex -> Mutex -> Prop :=
| do_rlock l n i p : l !! i = Some (RLock :: p) -> lock_step (MkMutex l n Free) (MkMutex (<[i := p]> l) (S n) Free)
| do_runlock l n w i p : l !! i = Some (RUnlock :: p) -> lock_step (MkMutex l (S n) w) (MkMutex (<[i := p]> l) n w)
| do_announce l n i p : l !! i = Some (Lock :: p) -> lock_step (MkMutex l n Free) (MkMutex l n (Pending i))
| do_lock l i p : l !! i = Some (Lock :: p) -> lock_step (MkMutex l 0 (Pending i)) (MkMutex (<[i := p]> l) 0 (Active i))
| do_unlock l n i p : l !! i = Some (Unlock :: p) -> lock_step (MkMutex l n (Active i)) (MkMutex (<[i := p]> l) n Free).

(** What the calls on a registry do with the lock. *)
Definition reads : list LockOp := [RLock; RUnlock].
Definition writes : list LockOp := [Lock; Unlock].
Definition call_lock (c : RegistryCall) : list LockOp := writes.
Inductive RegistryOp := DoCall (c : RegistryCall) | DoGet | DoList | DoListByCategory | DoCategories | DoIsValid.
Definition op_lock (o : RegistryOp) : list LockOp := match o with DoCall c => call_lock c | _ => reads end.
(** A goroutine that makes some of these calls, one after the other. *)
Definition goroutine (ops : list RegistryOp) : list LockOp := mjoin (op_lock <$> ops).
(** [ToJSON] and [ToTypeScript] call [List] and [Categories] while they hold the lock. *)
Definition ToJSON_lock : list LockOp := RLock :: reads ++ reads ++ [RUnlock].
Definition ToTypeScript_lock : list LockOp := RLock :: reads ++ [RUnlock].

(** *** Calls that take the lock once *)

(** A sequence of calls, each of which takes the lock once. *)
Inductive plain : list LockOp -> Prop :=
| plain_nil : plain []
| plain_reads p : plain p -> plain (RLock :: RUnlock :: p)
| plain_writes p : plain p -> plain (Lock :: Unlock :: p).

Definition reading (p : list LockOp) : bool := match p with RUnlock :: _ => true | _ => false end.
Definition number (l : list (list LockOp)) : nat := List.length (List.filter reading l).
Arguments number : simpl never.

(** Between calls, reading, or writing. *)
Definition thread_ok (w : Writer) (i : nat) (p : list LockOp) : Prop :=
  plain p \/ (exists q, p = RUnlock :: q /\ plain q) \/ (exists q, p = Unlock :: q /\ plain q /\ w = Active i).

Record mutex_ok (m : Mutex) : Prop := {
  mo_threads i p : threads m !! i = Some p -> thread_ok (writer m) i p;
  mo_readers : readers m = number (threads m);
  mo_pending i : writer m = Pending i -> exists p, threads m !! i = Some (Lock :: p);
  mo_active i : writer m = Active i -> readers m = 0 /\ exists p, threads m !! i = Some (Unlock :: p)
}.

Lemma number_insert l i p q :
  l !! i = Some p -> number (<[i := q]> l) + (if reading p then 1 else 0) = number l + (if reading q then 1 else 0).
Proof.
  unfold number. revert i. induction l as [|x l IH]; intros [|i] Hi; simplify_eq/=.
  - destruct (reading p), (reading q); cbn; lia.
  - specialize (IH i Hi). destruct (reading x); cbn; lia.
Qed.

Lemma plain_tail_r p : plain (RLock :: p) -> exists q, p = RUnlock :: q /\ plain q.
Proof. inversion 1; eauto. Qed.
Lemma plain_tail_w p : plain (Lock :: p) -> exists q, p = Unlock :: q /\ plain q.
Proof. inversion 1; eauto. Qed.

Lemma plain_not_reading p : plain p -> reading p = false.
Proof. by destruct 1. Qed.

Lemma thread_ok_insert (l : list (list LockOp)) w w' i p j q :
  (forall i p, l !! i = Some p -> thread_ok w i p) -> (forall k, k <> i -> w = Active k -> w' = Active k) -> thread_ok w' i p ->
  <[i := p]> l !! j = Some q -> thread_ok w' j q.
Proof.
  intros Hl Hw Hnew Hj. apply list_lookup_insert_Some in Hj as [(-> & -> & _)|(Hne & Hj)]; [done|].
  destruct (Hl j q Hj) as [?|[?|(q' & ? & ? & ?)]]; [by left|by right; left|]. right. right. exists q'. naive_solver.
Qed.

Lemma lock_step_ok m m' : lock_step m m' -> mutex_ok m -> mutex_ok m'.
Proof.
  intros Hs [Ht Hr Hp Ha].
  destruct Hs as [l n i p Hi|l n w i p Hi|l n i p Hi|l i p Hi|l n i p Hi]; cbn in *.
  - destruct (Ht i _ Hi) as [(q & -> & Hq)%plain_tail_r|[(? & ? & _)|(? & ? & _)]]; [|done..].
    split; cbn; try done.
    + intros j p'. apply (thread_ok_insert l Free Free i); [done|done|unfold thread_ok; eauto].
    + pose proof (number_insert l i _ (RUnlock :: q) Hi) as Hnum. cbn in Hnum. lia.
  - destruct (Ht i _ Hi) as [Hpl%plain_not_reading|[(q & [= ->] & Hq)|(? & ? & _)]]; [done| |done].
    pose proof (number_insert l i _ q Hi) as Hnum. rewrite (plain_not_reading q Hq) in Hnum. cbn in Hnum. split; cbn.
    + intros j p'. apply (thread_ok_insert l w w i); [done|done|by left].
    + lia.
    + intros j Hj. destruct (Hp j Hj) as [p' Hp']. exists p'. rewrite list_lookup_insert_ne; [done|]. intros ->. congruence.
    + intros j Hj. destruct (Ha j Hj) as [? _]. lia.
  - split; cbn; try done.
    + intros j p' Hj. destruct (Ht j p' Hj) as [?|[?|(? & ? & ? & ?)]]; [by left|by right; left|done].
    + intros j [= <-]. eauto.
  - destruct (Ht i _ Hi) as [(q & -> & Hq)%plain_tail_w|[(? & ? & _)|(? & ? & _)]]; [|done..].
    split; cbn; try done.
    + intros j p'. apply (thread_ok_insert l (Pending i) (Active i) i); [done|done|]. right. right. eauto.
    + pose proof (number_insert l i _ (Unlock :: q) Hi) as Hnum. cbn in Hnum. lia.
    + intros j [= <-]. split; [done|]. exists q. apply list_lookup_insert_eq. by apply lookup_lt_Some in Hi.
  - destruct (Ha i eq_refl) as [-> _]. destruct (Ht i _ Hi) as [Hpl|[(? & ? & _)|(q & [= ->] & Hq & _)]]; [by inversion Hpl|done|].
    split; cbn; try done.
    + intros j p'. apply (thread_ok_insert l (Active i) Free i); [done|intros k Hk; congruence|by left].
    + pose proof (number_insert l i _ q Hi) as Hnum. rewrite (plain_not_reading q Hq) in Hnum. cbn in Hnum. lia.
Qed.

(** A reader that is counted is one of the goroutines. *)
Lemma number_pos l : 0 < number l -> exists i p, l !! i = Some (RUnlock :: p).
Proof.
  unfold number. induction l as [|x l IH]; cbn; [lia|]. destruct (reading x) eqn:Hx.
  - intros _. destruct x as [|[] p]; try done. by exists 0, p.
  - intros H. destruct (IH H) as (i & p & Hi). by exists (S i), p.
Qed.

Definition finished (m : Mutex) : Prop := Forall (fun p => p = []) (threads m).

Lemma unfinished l : Forall (fun p : list LockOp => p = []) l \/ exists i x p, l !! i = Some (x :: p).
Proof.
  induction l as [|[|x p] l [IH|(i & y & q & Hi)]]; [by left| | | |]; [by left; constructor|right; by exists (S i), y, q|right; by exists 0, x, p..].
Qed.

Lemma plain_progress m : mutex_ok m -> finished m \/ exists m', lock_step m m'.
Proof.
  intros [Ht Hr Hp Ha]. destruct m as [l n w]. cbn in *. destruct w as [|i|i].
  - destruct (unfinished l) as [?|(i & x & p & Hi)]; [by left|right]. destruct x.
    + eexists. by eapply do_rlock.
    + pose proof (number_insert l i _ [] Hi) as Hnum. cbn in Hnum. destruct n as [|n]; [lia|]. eexists. by eapply do_runlock.
    + eexists. by eapply do_announce.
    + destruct (Ht i _ Hi) as [Hpl|[(? & ? & _)|(? & _ & _ & ?)]]; [by inversion Hpl|done..].
  - right. destruct (Hp i eq_refl) as [p Hi]. destruct n as [|n]; [eexists; by eapply do_lock|].
    destruct (number_pos l) as (j & q & Hj); [lia|]. eexists. by eapply do_runlock.
  - right. destruct (Ha i eq_refl) as [_ [p Hi]]. eexists. by eapply do_unlock.
Qed.

(** What is left to do: each operation, and announcing a writer. *)
Definition lock_work (m : Mutex) : nat :=
  2 * sum_list (List.length <$> threads m) + match writer m with Free => 1 | _ => 0 end.

Lemma sum_lengths_insert (l : list (list LockOp)) i x p :
  l !! i = Some (x :: p) -> sum_list (List.length <$> l) = S (sum_list (List.length <$> <[i := p]> l)).
Proof.
  revert i. induction l as [|y l IH]; intros [|i] Hi; simplify_eq/=; [done|]. rewrite (IH i Hi). lia.
Qed.

Lemma lock_step_works m m' : lock_step m m' -> lock_work m' < lock_work m.
Proof.
  intros Hs. destruct Hs as [l n i p Hi|l n w i p Hi|l n i p Hi|l i p Hi|l n i p Hi]; unfold lock_work; cbn [threads writer];
    try rewrite (sum_lengths_insert _ _ _ _ Hi); try destruct w; lia.
Qed.

Lemma lock_run n m m' : nsteps lock_step n m m' -> mutex_ok m -> mutex_ok m' /\ n + lock_work m' <= lock_work m.
Proof.
  induction 1 as [|n x y z Hs _ IH]; intros Hok; [by split|]. apply lock_step_works in Hs as Hw.
  destruct IH as [H1 H2]; [by eapply lock_step_ok|]. split; [done|lia].
Qed.

Lemma idle_ok l : Forall plain l -> mutex_ok (idle_mutex l).
Proof.
  intros Hl. split; cbn; try done.
  - intros i p Hi. left. rewrite Forall_lookup in Hl. eauto.
  - induction Hl as [|p l Hp _ IH]; [done|]. unfold number in *. cbn. by rewrite (plain_not_reading p Hp).
Qed.

Lemma goroutine_plain ops : plain (goroutine ops).
Proof. induction ops as [|o ops IH]; [constructor|]. unfold goroutine in *. cbn. by destruct o; constructor. Qed.

(** C29: Goroutines that register, unregister, list and look up operators, in any number and in any
    interleaving, never deadlock: every run is finite, and where it ends all are done. No
    writer is ever inside together with a reader. *)
Theorem registry_calls_never_deadlock (calls : list (list RegistryOp)) n m :
  nsteps lock_step n (idle_mutex (goroutine <$> calls)) m ->
  n <= 2 * sum_list (List.length <$> (goroutine <$> calls)) + 1 /\
  (forall i, writer m = Active i -> readers m = 0) /\
  ((forall m', ~ lock_step m m') -> finished m).
Proof.
  intros Hn. destruct (lock_run _ _ _ Hn) as [Hok Hw].
  { apply idle_ok, Forall_fmap, Forall_true. apply goroutine_plain. }
  split; [unfold lock_work in Hw at 2; cbn [writer threads idle_mutex] in Hw; lia|].
  split; [intros i Hi; by apply (mo_active _ Hok i)|]. intros Hstuck.
  destruct (plain_progress m Hok) as [|[m' Hm]]; [done|by destruct (Hstuck m')].
Qed.

Lemma registry_calls_never_deadlock_witness :
  let m := MkMutex [[RUnlock]; writes] 1 Free in
  1 <= 2 * sum_list (List.length <$> (goroutine <$> [[DoList]; [DoCall (CallUnregister "eq")]])) + 1 /\
  (forall i, writer m = Active i -> readers m = 0) /\ ((forall m', ~ lock_step m m') -> finished m).
Proof.
  apply (registry_calls_never_deadlock [[DoList]; [DoCall (CallUnregister "eq")]] 1).
  apply nsteps_once. exact (do_rlock [reads; writes] 0 0 [RUnlock] eq_refl).
Defined.

(** The exports take the lock again while they hold it: with one registration in between, an
    export and the registration wait for each other for ever, and with them every later call. *)
Theorem export_can_deadlock (rest : list (list LockOp)) :
  exists m, rtc lock_step (idle_mutex (ToJSON_lock :: writes :: rest)) m /\
    (forall i p, threads m !! i = Some p -> i < 2 -> p <> []) /\
    (Forall (fun p => reading p = false) rest -> forall m', ~ lock_step m m').
Proof.
  exists (MkMutex ((reads ++ reads ++ [RUnlock]) :: writes :: rest) 1 (Pending 1)). split; [|split].
  - eapply rtc_l; [by eapply (do_rlock _ _ 0)|]. eapply rtc_l; [by eapply (do_announce _ _ 1)|]. apply rtc_refl.
  - intros [|[|i]] p; cbn; [by intros [= <-]|by intros [= <-]|lia].
  - intros Hr m' Hs. inversion Hs; simplify_eq. destruct i as [|[|i]]; cbn in *; [done..|].
    rewrite Forall_lookup in Hr. by eapply Hr in H3.
Qed.

(** The same for the export as TypeScript. *)
Theorem typescript_export_can_deadlock :
  exists m, rtc lock_step (idle_mutex [ToTypeScript_lock; writes]) m /\ ~ finished m /\ forall m', ~ lock_step m m'.
Proof.
  exists (MkMutex [reads ++ [RUnlock]; writes] 1 (Pending 1)). split; [|split].
  - eapply rtc_l; [by eapply (do_rlock _ _ 0)|]. eapply rtc_l; [by eapply (do_announce _ _ 1)|]. apply rtc_refl.
  - unfold finished. cbn. by inversion 1.
  - intros m' Hs. inversion Hs; simplify_eq. by destruct i as [|[|[|i]]].
Qed.

(** ** Exports *)

Definition nl : string := bytes [10].

(** What [ToJSON] encodes: the operators and the categories, in the order of registration. *)
Definition ToJSON (r : FilterRegistry) : list OperatorDef * list string := (List_ r, Categories r).

(** The helpers for operators of one's own, on the global registry. *)
Definition RegisterCustom (id label description : string) (needsValue : bool) (valueType category : string) (r : FilterRegistry)
  : res RegistryError FilterRegistry := Register r (MkOperatorDef id label description needsValue valueType category).
Definition UnregisterCustom (id : string) (r : FilterRegistry) : res RegistryError FilterRegistry := Unregister r id.

(** The members of a union type, one to a line, the last one with a semicolon. *)
Fixpoint union_text (tail : string) (ids : list string) : string :=
  match ids with
  | [] => ""
  | [id] => "  | '" +:+ id +:+ "';" +:+ tail
  | id :: ids => "  | '" +:+ id +:+ "'" +:+ nl +:+ union_text tail ids
  end.

Definition operator_line (op : OperatorDef) : string :=
  let valueType := if ValueType op =? "" then "" else ", valueType: '" +:+ ValueType op +:+ "'" in
  "  { id: '" +:+ ID op +:+ "', label: '" +:+ Label op +:+ "', description: '" +:+ Description op +:+ "', needsValue: " +:+
  (if NeedsValue op then "true" else "false") +:+ valueType +:+ ", category: '" +:+ Category op +:+ "' }," +:+ nl.

Definition typescript_head : string :=
  "// 자동 생성됨 - 직접 수정하지 마세요" +:+ nl +:+ "// go generate로 생성됨" +:+ nl +:+ nl +:+ "export type Operator =" +:+ nl.
Definition typescript_meta : string :=
  "export interface OperatorMeta {" +:+ nl +:+ "  id: Operator;" +:+ nl +:+ "  label: string;" +:+ nl +:+ "  description: string;" +:+ nl +:+
  "  needsValue: boolean;" +:+ nl +:+ "  valueType?: 'string' | 'number' | 'boolean' | 'array' | 'regex';" +:+ nl +:+
  "  category: string;" +:+ nl +:+ "}" +:+ nl +:+ nl +:+ "export const OPERATORS: OperatorMeta[] = [" +:+ nl.

Definition ToTypeScript (r : FilterRegistry) : string :=
  typescript_head +:+ union_text (nl +:+ nl) (order r) +:+ typescript_meta +:+
  String.concat "" (operator_line <$> List_ r) +:+ "];" +:+ nl +:+ nl +:+
  "export type OperatorCategory =" +:+ nl +:+ union_text nl (Categories r).

(** The text up to a quote, and the rest. *)
Fixpoint until_quote (s : string) : option (string * string) :=
  match s with
  | "" => None
  | String c s => if Ascii.eqb c "'"%char then Some ("", s) else (fun '(a, b) => (String c a, b)) <$> until_quote s
  end.

(** A reader of union types: the members up to the semicolon. *)
Fixpoint read_union (fuel : nat) (s : string) : option (list string) :=
  match fuel with
  | 0 => None
  | S fuel =>
      s ← strip_prefix "  | '" s;
      '(id, s) ← until_quote s;
      match strip_prefix ";" s with
      | Some _ => Some [id]
      | None => s ← strip_prefix nl s; (id ::.) <$> read_union fuel s
      end
  end.

Definition read_operators (fuel : nat) (s : string) : option (list string) := strip_prefix typescript_head s ≫= read_union fuel.

Lemma until_quote_app a b : until_quote a = None -> until_quote (a +:+ "'" +:+ b) = Some (a, b).
Proof.
  induction a as [|c a IH]; [done|]. rewrite str_app_cons. cbn. destruct (Ascii.eqb c "'"%char); [done|].
  intros H. destruct (until_quote a) as [[]|]; [done|]. by rewrite IH.
Qed.

Lemma newline_no_semicolon s : strip_prefix ";" (nl +:+ s) = None.
Proof. done. Qed.

Lemma union_cons tail id id' ids : union_text tail (id :: id' :: ids) = "  | '" +:+ id +:+ "'" +:+ nl +:+ union_text tail (id' :: ids).
Proof. done. Qed.

Lemma read_union_text tail ids rest :
  ids <> [] -> Forall (fun id => until_quote id = None) ids -> read_union (List.length ids) (union_text tail ids +:+ rest) = Some ids.
Proof.
  induction ids as [|id ids IH]; [done|]. intros _ [Hid Hids]%Forall_cons.
  destruct ids as [|id' ids].
  - cbn [List.length read_union union_text]. rewrite !str_app_assoc. rewrite (proj2 (strip_prefix_Some _ _ _) eq_refl). cbn [mbind option_bind].
    change ("';" +:+ tail +:+ rest) with ("'" +:+ (";" +:+ tail +:+ rest)). rewrite until_quote_app by done. cbn [mbind option_bind].
    by rewrite (proj2 (strip_prefix_Some _ _ _) eq_refl).
  - change (List.length (id :: id' :: ids)) with (S (List.length (id' :: ids))). set (n := List.length (id' :: ids)) in *.
    cbn [read_union]. rewrite union_cons, !str_app_assoc. rewrite (proj2 (strip_prefix_Some _ _ _) eq_refl). cbn [mbind option_bind].
    rewrite until_quote_app by done. cbn [mbind option_bind]. rewrite newline_no_semicolon. rewrite (proj2 (strip_prefix_Some _ _ _) eq_refl). cbn [mbind option_bind].
    by rewrite IH.
Qed.

(** The operators of the generated union type are the registered ones, in their order, as long
    as there are some and no identifier has a quote in it. *)
Theorem typescript_lists_the_registry r :
  order r <> [] -> Forall (fun id => until_quote id = None) (order r) ->
  read_operators (List.length (order r)) (ToTypeScript r) = Some (order r).
Proof.
  intros Hne Hq. unfold read_operators, ToTypeScript. rewrite (proj2 (strip_prefix_Some _ _ _) eq_refl). cbn [mbind option_bind].
  by apply read_union_text.
Qed.

(** An operator that was registered with a quote in its identifier breaks the type. *)
Example quoted_operator_breaks_typescript :
  let r := run NewRegistry [CallRegister (MkOperatorDef "it's" "l" "d" true "string" "c")] in
  IsValid r "it's" = true /\ read_operators (List.length (order r)) (ToTypeScript r) = None.
Proof. split; vm_compute; reflexivity. Qed.
