(* ===== verification/Startup.v ===== *)
(** * Starting the control plane (control-plane/cmd/server/main.go, pkg/config, pkg/database)

    From a parsed configuration to a server with its users, its login providers and its
    services, and the way down again. The environment, the files, the YAML decoder and whether
    the services can be reached are arguments. *)

From Stdlib Require Import String.
From stdpp Require Import pretty.
From S2P Require Import Prelude GoString GoValue Api Auth.
Local Open Scope string_scope.
Local Open Scope list_scope.

(** [Config] after the environment and the flags were read. *)
Record ServerConfig := MkServerConfig {
  DBHost : string;
  DBPort : Z;
  DBUser : string;
  DBPassword : string;
  DBName : string;
  RedisAddr : string;
  RedisPassword : string;
  RedisDB : Z;
  Port : Z;
  JWTSecret : string;
  OAuthConfigPath : string;
  OAuthDefaultRedirect : string;
  UsersConfigPath : string;
  FrontendURL : string;
  AutoMigrate : bool;
  MigrateFlag : bool;
  ShowVersion : bool
}.

Inductive FileRead := FileMissing | FileFailed (e : string) | FileContent (data : string).

(** A decoded file of providers: an entry without a body is a nil pointer. *)
Abbreviation ProviderFile := (gmap string (option OAuthProviderConfig)) (only parsing).

Record Surroundings := MkSurroundings {
  getenv : string -> string;
  read_file : string -> FileRead;
  yaml_users : string -> option UsersConfig;
  yaml_providers : string -> option ProviderFile;
  to_upper : string -> string;
  to_lower : string -> string;
  connects : string -> bool;
  migrates : bool;
  redis_starts : bool;
  scheduler_starts : bool
}.

Section Startup.
Context (w : Surroundings).

(** ** Users *)

Definition LoadUsersConfig (path : string) : res string UsersConfig :=
  match read_file w path with
  | FileMissing => Ok (MkUsersConfig [] [])
  | FileFailed e => Err e
  | FileContent data =>
      match yaml_users w data with
      | Some c => Ok (normalize_config (to_lower w) c)
      | None => Err "yaml"
      end
  end.

(** The users of the environment and of the file; a file that cannot be read is left out. *)
Definition load_users (cfg : ServerConfig) : UsersConfig :=
  let users := LoadUsersConfigFromEnv (to_lower w) (getenv w "CONDUIX_ADMIN_EMAILS") (getenv w "CONDUIX_OPERATOR_EMAILS") in
  if UsersConfigPath cfg =? "" then users
  else match LoadUsersConfig (UsersConfigPath cfg) with Ok f => Merge users (Some f) | _ => users end.

(** ** Login providers *)

Definition GetDefaultOAuthConfig : gmap string OAuthProviderConfig := {[
  "github" := MkProvider "GitHub" "https://github.com/login/oauth/authorize" "https://github.com/login/oauth/access_token"
    "https://api.github.com/user" ["user:email"; "read:user"] (MkMapping "id" "email" "name" "avatar_url") "" "" "";
  "google" := MkProvider "Google" "https://accounts.google.com/o/oauth2/v2/auth" "https://oauth2.googleapis.com/token"
    "https://www.googleapis.com/oauth2/v2/userinfo" ["openid"; "profile"; "email"] (MkMapping "id" "email" "name" "picture") "" "" "";
  "naver" := MkProvider "Naver" "https://nid.naver.com/oauth2.0/authorize" "https://nid.naver.com/oauth2.0/token"
    "https://openapi.naver.com/v1/nid/me" [] (MkMapping "response.id" "response.email" "response.name" "response.profile_image") "" "" ""
]}.

(** The credentials of a provider from the environment. *)
Definition inject (redirect id : string) (p : OAuthProviderConfig) : OAuthProviderConfig :=
  let up := to_upper w id in
  let url := getenv w (up +:+ "_REDIRECT_URL") in
  MkProvider (ProvName p) (ProvAuthURL p) (ProvTokenURL p) (ProvUserInfoURL p) (Scopes p) (UserMapping p)
    (getenv w (up +:+ "_CLIENT_ID")) (getenv w (up +:+ "_CLIENT_SECRET")) (if url =? "" then redirect else url).

Definition LoadOAuthConfig (path : string) : res string ProviderFile :=
  match read_file w path with
  | FileContent data => match yaml_providers w data with Some c => Ok c | None => Err "failed to parse oauth config" end
  | _ => Err "failed to read oauth config file"
  end.

(** Every entry, unless one of them is nil. *)
Definition all_present (c : ProviderFile) : option (gmap string OAuthProviderConfig) :=
  if bool_decide (map_Forall (fun _ p => is_Some p) c) then Some (omap id c) else None.

(** Writing to a nil entry panics. *)
Definition LoadOAuthConfigWithEnv (path redirect : string) : res string (gmap string OAuthProviderConfig) :=
  match LoadOAuthConfig path with
  | Ok c => match all_present c with Some c => Ok (map_imap (fun id p => Some (inject redirect id p)) c) | None => Panic end
  | Err e => Err e
  | Panic => Panic
  end.

(** The providers [main] registers: of the file, or the default ones. The credentials of the
    environment are given to the default ones only when no file was named. *)
Definition load_providers (cfg : ServerConfig) : option (gmap string OAuthProviderConfig) :=
  if OAuthConfigPath cfg =? ""
  then Some (map_imap (fun id p => Some (inject (OAuthDefaultRedirect cfg) id p)) GetDefaultOAuthConfig)
  else match LoadOAuthConfigWithEnv (OAuthConfigPath cfg) (OAuthDefaultRedirect cfg) with
       | Ok c => Some c
       | Err _ => Some GetDefaultOAuthConfig
       | Panic => None
       end.

(** ** The way up and down *)

Definition dsn (cfg : ServerConfig) : string :=
  DBUser cfg +:+ ":" +:+ DBPassword cfg +:+ "@tcp(" +:+ DBHost cfg +:+ ":" +:+ pretty (DBPort cfg) +:+ ")/" +:+ DBName cfg +:+
  "?charset=utf8mb4&parseTime=True&loc=Local".

Inductive Resource := Database | Redis | SchedulerRun.

(** A started server: who may log in and how, and what was opened, the latest first. *)
Record Started := MkStarted {
  st_users : UsersConfig;
  st_providers : gmap string OAuthProviderConfig;
  st_redis : bool;
  st_opened : list Resource
}.

Inductive StartResult := Exits (code : Z) | Crashes | Serves (s : Started).

Definition main (cfg : ServerConfig) : StartResult :=
  if ShowVersion cfg then Exits 0 else
  let users := load_users cfg in
  if negb (connects w (dsn cfg)) then Exits 1
  else if (AutoMigrate cfg || MigrateFlag cfg) && negb (migrates w) then Exits 1
  else
    let opened := [Database] in
    let opened := if redis_starts w then Redis :: opened else opened in
    let opened := if scheduler_starts w then SchedulerRun :: opened else opened in
    match load_providers cfg with
    | None => Crashes
    | Some oauth => Serves (MkStarted users (RegisterProvidersFromConfig oauth ∅) (redis_starts w) opened)
    end.

(** A signal runs the deferred calls: what was opened last is closed first. *)
Definition shutdown (s : Started) : list Resource := st_opened s.

(** ** What the start promises *)

Lemma registered_lookup (oauth : gmap string OAuthProviderConfig) : RegisterProvidersFromConfig oauth ∅ = GetEnabledProviders oauth.
Proof.
  unfold RegisterProvidersFromConfig, GetEnabledProviders.
  apply (map_fold_weak_ind (fun r m => r = filter (fun kv => has_credentials kv.2 = true) m)); [done|].
  intros i p m r Hi ->. unfold RegisterProvider. destruct (has_credentials p) eqn:Hp.
  - by rewrite map_filter_insert_True.
  - rewrite map_filter_insert_False by (cbn; congruence). by rewrite delete_id.
Qed.

Lemma inject_credentials redirect id p :
  has_credentials (inject redirect id p) =
  negb (getenv w (to_upper w id +:+ "_CLIENT_ID") =? "") && negb (getenv w (to_upper w id +:+ "_CLIENT_SECRET") =? "").
Proof. done. Qed.

(** Without a file, the providers one can log in with are those of the three built-in ones whose
    identifier and secret are in the environment, with the redirect address of the environment
    or the default one. *)
Theorem default_providers_from_environment cfg oauth id p :
  OAuthConfigPath cfg = "" -> load_providers cfg = Some oauth ->
  RegisterProvidersFromConfig oauth ∅ !! id = Some p <->
  exists p0, GetDefaultOAuthConfig !! id = Some p0 /\ p = inject (OAuthDefaultRedirect cfg) id p0 /\
    getenv w (to_upper w id +:+ "_CLIENT_ID") <> "" /\ getenv w (to_upper w id +:+ "_CLIENT_SECRET") <> "".
Proof.
  intros Hpath. unfold load_providers. rewrite Hpath. cbn [String.eqb]. intros <-%(inj Some).
  rewrite registered_lookup. unfold GetEnabledProviders. rewrite map_lookup_filter_Some, map_lookup_imap. cbn [snd].
  destruct (GetDefaultOAuthConfig !! id) as [p0|]; cbn [mbind option_bind]; [|split; [by intros [? _]|by intros (? & ? & _)]]. split.
  - intros [[= <-] Hc]. rewrite inject_credentials in Hc. exists p0. split; [done|]. split; [done|].
    apply andb_true_iff in Hc as [H1 H2]. by split; intros E; rewrite E in *.
  - intros (p1 & [= <-] & -> & H1 & H2). split; [done|]. rewrite inject_credentials. apply andb_true_iff.
    split; apply negb_true_iff; by apply String.eqb_neq.
Qed.

(** When the file of providers cannot be read or decoded, nobody can log in, whatever the
    environment holds: the default providers are used without their credentials. *)
Theorem broken_provider_file_locks_everyone_out cfg e s :
  OAuthConfigPath cfg <> "" -> LoadOAuthConfig (OAuthConfigPath cfg) = Err e -> main cfg = Serves s -> st_providers s = ∅.
Proof.
  intros Hp He. unfold main. destruct (ShowVersion cfg); [done|]. destruct (negb (connects w (dsn cfg))); [done|]. destruct (_ && negb (migrates w)); [done|].
  unfold load_providers, LoadOAuthConfigWithEnv. rewrite He. destruct (String.eqb_spec (OAuthConfigPath cfg) ""); [done|].
  intros [= <-]. cbn. rewrite registered_lookup. by vm_compute.
Qed.

(** A provider without a body in the file stops the server before it serves. *)
Theorem empty_provider_entry_crashes cfg c id s :
  OAuthConfigPath cfg <> "" -> LoadOAuthConfig (OAuthConfigPath cfg) = Ok c -> c !! id = Some None -> main cfg <> Serves s.
Proof.
  intros Hp Hc Hid. unfold main. destruct (ShowVersion cfg); [done|]. destruct (negb (connects w (dsn cfg))); [done|]. destruct (_ && negb (migrates w)); [done|].
  unfold load_providers, LoadOAuthConfigWithEnv, all_present. rewrite Hc. destruct (String.eqb_spec (OAuthConfigPath cfg) ""); [done|].
  rewrite bool_decide_false; [done|]. intros Hall. by destruct (Hall _ _ Hid).
Qed.

(** An administrator of the environment or of a file that can be read is one of the server, and
    nobody else is; a file that cannot be read takes nothing from the environment. *)
Theorem administrators_of_both_sources cfg email :
  IsAdmin (to_lower w) (load_users cfg) email = true <->
  normalize (to_lower w) email ∈ env_emails (to_lower w) (getenv w "CONDUIX_ADMIN_EMAILS") \/
  UsersConfigPath cfg <> "" /\ exists f, LoadUsersConfig (UsersConfigPath cfg) = Ok f /\ normalize (to_lower w) email ∈ AdminEmails f.
Proof.
  assert (Hex : forall l, existsb (String.eqb (normalize (to_lower w) email)) l = true <-> normalize (to_lower w) email ∈ l).
  { intros l. rewrite existsb_exists. setoid_rewrite list_elem_of_In. split; [by intros (x & Hx & ->%String.eqb_eq)|].
    intros H. exists (normalize (to_lower w) email). by rewrite String.eqb_refl. }
  unfold IsAdmin, load_users. destruct (String.eqb_spec (UsersConfigPath cfg) "") as [->|Hp].
  - rewrite Hex. cbn. naive_solver.
  - destruct (LoadUsersConfig (UsersConfigPath cfg)) as [f|e|] eqn:Hf; cbn [Merge AdminEmails LoadUsersConfigFromEnv]; rewrite Hex.
    + rewrite elem_of_app. naive_solver.
    + naive_solver.
    + naive_solver.
Qed.

(** The database is open as long as anything else is: it is opened first and closed last, and
    every other resource is open exactly when it could be started. *)
Theorem database_outlives_services cfg s :
  main cfg = Serves s ->
  exists l, shutdown s = l ++ [Database] /\ ~ (Database ∈ l) /\ NoDup l /\
    (Redis ∈ l <-> redis_starts w = true) /\ (SchedulerRun ∈ l <-> scheduler_starts w = true).
Proof.
  unfold main. destruct (ShowVersion cfg); [done|]. destruct (negb (connects w (dsn cfg))); [done|]. destruct (_ && negb (migrates w)); [done|].
  destruct (load_providers cfg); [|done]. intros [= <-]. unfold shutdown. cbn.
  exists ((if scheduler_starts w then [SchedulerRun] else []) ++ (if redis_starts w then [Redis] else [])).
  destruct (redis_starts w), (scheduler_starts w); cbn; (split; [done|]); (split; [set_solver|]);
    (split; [repeat (apply NoDup_cons; split; [set_solver|]); apply NoDup_nil; done|]); split; set_solver.
Qed.
End Startup.
