(* ===== verification/ConfigText.v ===== *)
(** * Configurations as texts (pkg/config, pkg/filter/model.go)

    The reading of a configuration file: the substitution of environment variables
    ([os.ExpandEnv]), the YAML decoder (an argument), and the validation of [ConfigV2] and
    [ConfigV1]; and the encodings of filters, which are a text or a structure. *)

From Stdlib Require Import Ascii String.
From S2P Require Import Prelude GoString GoValue Filter ConfigV1 ConfigV2.
Local Open Scope string_scope.
Local Open Scope list_scope.

(** ** Environment variables *)

Definition char_in (lo hi : nat) (c : ascii) : bool := ((lo <=? nat_of_ascii c) && (nat_of_ascii c <=? hi))%nat.
Definition is_digit (c : ascii) : bool := char_in 48 57 c.
Definition is_alnum (c : ascii) : bool := is_digit c || char_in 65 90 c || char_in 97 122 c || Ascii.eqb c "_".
(** [isShellSpecialVar] *)
Definition is_special (c : ascii) : bool := is_digit c || existsb (Ascii.eqb c) ["*"; "#"; "$"; "@"; "!"; "?"; "-"]%char.

(** The longest prefix of name characters, and the rest. *)
Fixpoint span_name (s : string) : string * string :=
  match s with
  | String c s' => if is_alnum c then let '(n, r) := span_name s' in (String c n, r) else ("", s)
  | "" => ("", "")
  end.

Fixpoint until_brace (s : string) : option (string * string) :=
  match s with
  | "" => None
  | String c s => if Ascii.eqb c "}" then Some ("", s) else (fun '(a, b) => (String c a, b)) <$> until_brace s
  end.

(** [getShellName] on what follows a dollar: the name, and the rest after it. No name is a
    dollar that stands for itself, or a syntax that is left out. *)
Inductive ShellName := Named (n rest : string) | LoneDollar | BadSyntax (rest : string).

Definition getShellName (s : string) : ShellName :=
  match s with
  | String c s' =>
      if Ascii.eqb c "{" then
        match until_brace s' with
        | Some ("", rest) => BadSyntax rest
        | Some (n, rest) => Named n rest
        | None => BadSyntax s'
        end
      else if is_special c then Named (String c "") s'
      else match span_name s with ("", _) => LoneDollar | (n, rest) => Named n rest end
  | "" => LoneDollar
  end.

Section Env.
Context (getenv : string -> string).

(** [os.Expand]; the length of the text is fuel enough. *)
Fixpoint expand (fuel : nat) (s : string) : string :=
  match fuel, s with
  | S fuel, String c s' =>
      if Ascii.eqb c "$" then
        match s', getShellName s' with
        | "", _ => s
        | _, Named n rest => getenv n +:+ expand fuel rest
        | _, BadSyntax rest => expand fuel rest
        | _, LoneDollar => String c (expand fuel s')
        end
      else String c (expand fuel s')
  | _, _ => s
  end.

Definition ExpandEnv (s : string) : string := expand (String.length s) s.
End Env.

Fixpoint no_dollar (s : string) : bool :=
  match s with "" => true | String c s => negb (Ascii.eqb c "$") && no_dollar s end.

(** What follows a name is shorter than what it was looked for in. *)
Lemma span_name_length s : String.length (span_name s).2 + String.length (span_name s).1 = String.length s.
Proof. induction s as [|c s IH]; [done|]. cbn. destruct (is_alnum c); [|done]. destruct (span_name s) as [n r]. cbn in *. lia. Qed.

Lemma until_brace_length s n r : until_brace s = Some (n, r) -> String.length r < String.length s.
Proof.
  revert n. induction s as [|c s IH]; intros n; cbn; [done|]. destruct (Ascii.eqb c "}"); [intros [= <- <-]; lia|].
  destruct (until_brace s) as [[a b]|]; [|done]. intros [= <- <-]. specialize (IH a eq_refl). lia.
Qed.

Lemma shell_name_length s n r : getShellName s = Named n r -> String.length r < String.length s.
Proof.
  destruct s as [|c s]; [done|]. unfold getShellName. destruct (Ascii.eqb c "{").
  - destruct (until_brace s) as [[a b]|] eqn:Hu; [|done]. apply until_brace_length in Hu.
    destruct a; [done|]. intros [= <- <-]. cbn. lia.
  - destruct (is_special c); [intros [= <- <-]; cbn; lia|]. pose proof (span_name_length (String c s)) as Hl.
    destruct (span_name (String c s)) as [a b]. cbn in Hl. destruct a; [done|]. intros [= <- <-]. cbn in *. lia.
Qed.

Lemma bad_syntax_length s r : getShellName s = BadSyntax r -> String.length r < String.length s.
Proof.
  destruct s as [|c s]; [done|]. unfold getShellName. destruct (Ascii.eqb c "{").
  - destruct (until_brace s) as [[a b]|] eqn:Hu; [apply until_brace_length in Hu|intros [= <-]; cbn; lia].
    destruct a; [|done]. intros [= <-]. cbn. lia.
  - destruct (is_special c); [done|]. by destruct (span_name (String c s)) as [[] ?].
Qed.

(** More fuel than the length of the text changes nothing. *)
Lemma expand_fuel getenv n m s : String.length s <= n -> String.length s <= m -> expand getenv n s = expand getenv m s.
Proof.
  revert m s. induction n as [|n IH]; intros [|m] [|c s] Hn Hm; cbn [expand String.length] in *; try done; try lia.
  destruct (Ascii.eqb c "$"); [|f_equal; apply IH; lia]. destruct s as [|c' s]; [done|].
  destruct (getShellName (String c' s)) as [v r| |r] eqn:Hg.
  - apply shell_name_length in Hg. f_equal. cbn [String.length] in *. apply IH; lia.
  - f_equal. apply IH; lia.
  - apply bad_syntax_length in Hg. cbn [String.length] in *. apply IH; lia.
Qed.

Lemma expand_prefix getenv a b : no_dollar a = true -> ExpandEnv getenv (a +:+ b) = a +:+ ExpandEnv getenv b.
Proof.
  induction a as [|c a IH]; [done|]. cbn [no_dollar]. intros [Hc Ha]%andb_true_iff. rewrite !str_app_cons. unfold ExpandEnv. cbn [String.length expand].
  apply negb_true_iff in Hc. rewrite Hc. f_equal. by apply IH.
Qed.

(** A text without a dollar is left as it is, whatever the environment. *)
Theorem expand_plain getenv s : no_dollar s = true -> ExpandEnv getenv s = s.
Proof. intros H. rewrite <- (str_app_nil_r s) at 1. rewrite expand_prefix by done. apply str_app_nil_r. Qed.

Lemma until_brace_app n b : until_brace n = None -> until_brace (n +:+ "}" +:+ b) = Some (n, b).
Proof.
  induction n as [|c n IH]; [done|]. rewrite str_app_cons. cbn. destruct (Ascii.eqb c "}"); [done|].
  intros H. destruct (until_brace n) as [[]|]; [done|]. by rewrite IH.
Qed.

Lemma shell_name_brace n b : until_brace n = None -> n <> "" -> getShellName (String "{" (n +:+ "}" +:+ b)) = Named n b.
Proof. intros Hn Hne. unfold getShellName. cbn [Ascii.eqb Bool.eqb]. rewrite until_brace_app by done. by destruct n. Qed.

Lemma expand_named getenv fuel c s n r :
  getShellName (String c s) = Named n r -> expand getenv (S fuel) (String "$" (String c s)) = getenv n +:+ expand getenv fuel r.
Proof. intros H. cbn [expand]. rewrite H. done. Qed.

(** A variable in braces is replaced by its value, and the value is not looked at again. *)
Theorem expand_variable getenv a n b :
  no_dollar a = true -> until_brace n = None -> n <> "" ->
  ExpandEnv getenv (a +:+ "${" +:+ n +:+ "}" +:+ b) = a +:+ getenv n +:+ ExpandEnv getenv b.
Proof.
  intros Ha Hn Hne. rewrite expand_prefix by done. f_equal. unfold ExpandEnv at 1.
  change ("${" +:+ n +:+ "}" +:+ b) with (String "$" (String "{" (n +:+ "}" +:+ b))).
  change (String.length (String "$" ?x)) with (S (String.length x)).
  rewrite (expand_named getenv _ "{" (n +:+ "}" +:+ b) n b) by by apply shell_name_brace. f_equal.
  apply expand_fuel; [|done]. cbn [String.length]. rewrite !str_length_app. lia.
Qed.

(** A dollar before a digit is taken for a variable, which is seldom set: texts and patterns of
    a configuration lose it. *)
Example prices_are_expanded : ExpandEnv (fun _ => "") (".price == " +:+ quoted "$5") = ".price == " +:+ quoted "".
Proof. reflexivity. Qed.

(** ** Files *)

Section Files.
(** The files, the environment and the YAML decoders. *)
Context (read_file : string -> option string) (getenv : string -> string).
Context (yaml_v2 : string -> option PipelineConfigV2) (yaml_v1 : string -> option PipelineConfig).
Context (yaml_simple : string -> option SimplePipelineConfig).

Inductive LoadError := ReadFailed | DecodeFailed | Invalid (e : ConfigError) | InvalidSimple (e : string).

Definition ParseConfigV2 (data : string) : res LoadError PipelineConfigV2 :=
  match yaml_v2 (ExpandEnv getenv data) with
  | None => Err DecodeFailed
  | Some c => match ConfigV2.Validate c with (Ok _, c) => Ok c | (Err e, _) => Err (Invalid e) | (Panic, _) => Panic end
  end.

Definition LoadConfigV2 (path : string) : res LoadError PipelineConfigV2 :=
  match read_file path with None => Err ReadFailed | Some data => ParseConfigV2 data end.

Definition ParseSimpleConfig (data : string) : res LoadError SimplePipelineConfig :=
  match yaml_simple data with
  | None => Err DecodeFailed
  | Some c => match simple_Validate c with Ok c => Ok c | Err e => Err (InvalidSimple e) | Panic => Panic end
  end.

Definition LoadSimpleConfig (path : string) : res LoadError SimplePipelineConfig :=
  match read_file path with None => Err ReadFailed | Some data => ParseSimpleConfig data end.

(** [Load] of version 1, which does not validate. *)
Definition Load (path : string) : res LoadError PipelineConfig :=
  match read_file path with
  | None => Err ReadFailed
  | Some data => match yaml_v1 data with None => Err DecodeFailed | Some c => Ok (Parse c) end
  end.
End Files.

(** ** Filters of version 2 *)

(** A node of YAML where a filter is expected. *)
Inductive FilterNodeYAML := ScalarFilter (s : string) | StructuredFilter (root : option ConfigV2.FilterNode) | BadFilter.

(** Decoding into a filter sets one of its two fields and keeps the other. *)
Definition v2_UnmarshalYAML (fc : ConfigV2.FilterConfig) (n : FilterNodeYAML) : res unit ConfigV2.FilterConfig :=
  match n with
  | ScalarFilter s => Ok (ConfigV2.MkFilterConfig s (ConfigV2.Root fc))
  | StructuredFilter r => Ok (ConfigV2.MkFilterConfig (ConfigV2.Expression fc) r)
  | BadFilter => Err tt
  end.

Definition v2_MarshalYAML (fc : ConfigV2.FilterConfig) : option FilterNodeYAML :=
  match ConfigV2.Root fc with
  | None => if negb (ConfigV2.Expression fc =? "") then Some (ScalarFilter (ConfigV2.Expression fc)) else None
  | Some r => Some (StructuredFilter (Some r))
  end.

(** A filter is read back as it was written, unless it has both forms: then its expression is
    lost. An empty one is written as nothing. *)
Theorem v2_filter_round_trip fc :
  match v2_MarshalYAML fc with
  | None => FilterConfig_IsEmpty fc = true
  | Some n =>
      exists fc', v2_UnmarshalYAML (ConfigV2.MkFilterConfig "" None) n = Ok fc' /\ ConfigV2.Root fc' = ConfigV2.Root fc /\
        (fc' = fc <-> ConfigV2.Root fc = None \/ ConfigV2.Expression fc = "")
  end.
Proof.
  unfold v2_MarshalYAML, FilterConfig_IsEmpty. destruct fc as [e [r|]]; cbn.
  - eexists. split; [done|]. split; [done|]. split; [intros [= <-]; by right|]. by intros [?| ->].
  - destruct (String.eqb_spec e ""); cbn; [done|]. eexists. split; [done|]. split; [done|]. split; [by left|done].
Qed.

(** ** Filters as JSON *)

(** A JSON document where a filter is expected; what is neither is not decoded. *)
Inductive FilterDoc := TextDoc (s : string) | NullDoc | ObjectDoc (f : Filter) | BadDoc.

(** A null is decoded as an empty text. *)
Definition UnmarshalJSON (fc : Filter.FilterConfig) (d : FilterDoc) : res unit Filter.FilterConfig :=
  match d with
  | TextDoc s => Ok (Filter.MkFilterConfig (Some (MkFilter "" None s)) s)
  | NullDoc => Ok (Filter.MkFilterConfig (Some (MkFilter "" None "")) "")
  | ObjectDoc f => Ok (Filter.MkFilterConfig (Some f) (fc_raw fc))
  | BadDoc => Err tt
  end.

Definition MarshalJSON (fc : Filter.FilterConfig) : FilterDoc :=
  match fc_filter fc with Some f => ObjectDoc f | None => NullDoc end.

Definition GetFilter (fc : Filter.FilterConfig) : option Filter := fc_filter fc.

(** A filter survives JSON; one that was never set comes back as one that is invalid. *)
Theorem json_filter_round_trip fc fc0 :
  exists fc', UnmarshalJSON fc0 (MarshalJSON fc) = Ok fc' /\
    match GetFilter fc with
    | Some f => GetFilter fc' = Some f
    | None => exists f, GetFilter fc' = Some f /\ FilterValidate f = Err ErrNeitherExpressionNorRoot
    end.
Proof.
  unfold MarshalJSON, GetFilter. destruct (fc_filter fc) as [f|] eqn:Hf; eexists; (split; [done|]); [done|]. by eexists.
Qed.

(** A file of version 2 without a dollar means the same in every environment. *)
Theorem plain_config_ignores_environment env env' yaml data :
  no_dollar data = true -> ParseConfigV2 env yaml data = ParseConfigV2 env' yaml data.
Proof. intros H. unfold ParseConfigV2. by rewrite !expand_plain. Qed.
