(* ===== verification/ServerShell.v ===== *)
(** * The shell around the handlers (control-plane/internal/api)

    The middleware every request passes before it is dispatched ([Auth]), the envelope of a
    response, the probes, the list of login providers, and the query of the list of workflows,
    whose conditions are texts with bound arguments. *)

From Stdlib Require Import String.
From S2P Require Import Prelude GoString GoValue Api Auth WorkflowApi.
Local Open Scope string_scope.
Local Open Scope list_scope.

(** ** Middleware *)

Definition RequestIDKey : string := "request_id".

Record Request := MkRequest { req_method : string; req_headers : gmap string string }.

(** The keys of the context and the headers of the response. *)
Record Exchange := MkExchange { ctx_keys : gmap string string; out_headers : gmap string string }.

Definition empty_exchange : Exchange := MkExchange ∅ ∅.

Definition cors_headers : list (string * string) := [
  ("Access-Control-Allow-Origin", "*");
  ("Access-Control-Allow-Credentials", "true");
  ("Access-Control-Allow-Headers", "Content-Type, Content-Length, Accept-Encoding, X-CSRF-Token, Authorization, accept, origin, Cache-Control, X-Requested-With");
  ("Access-Control-Allow-Methods", "POST, OPTIONS, GET, PUT, DELETE, PATCH")].

(** A middleware goes on, or answers with a status. *)
Definition CORSMiddleware (r : Request) (x : Exchange) : (Z + unit) * Exchange :=
  let x := MkExchange (ctx_keys x) (list_to_map cors_headers ∪ out_headers x) in
  if req_method r =? "OPTIONS" then (inl 204%Z, x) else (inr tt, x).

Definition RequestIDMiddleware (uuid : string) (r : Request) (x : Exchange) : (Z + unit) * Exchange :=
  let given := default "" (req_headers r !! "X-Request-ID") in
  let requestID := if given =? "" then uuid else given in
  (inr tt, MkExchange (<[RequestIDKey := requestID]> (ctx_keys x)) (<["X-Request-ID" := requestID]> (out_headers x))).

Definition GetRequestID (x : Exchange) : string := default "" (ctx_keys x !! RequestIDKey).

(** ** Envelopes *)

Record APIResponse (A : Type) := MkResponse {
  ResSuccess : bool;
  ResData : option A;
  ResError : option (ErrorCode * string * gmap string string);
  ResMessage : string;
  ResRequestID : string
}.
Arguments MkResponse {A}.
Arguments ResSuccess {A}.
Arguments ResData {A}.
Arguments ResError {A}.
Arguments ResMessage {A}.
Arguments ResRequestID {A}.

Definition ErrorResponseWithDetails {A} (x : Exchange) (status : Z) (code : ErrorCode) (message : string) (details : gmap string string)
  : Z * APIResponse A := (status, MkResponse false None (Some (code, message, details)) "" (GetRequestID x)).
Definition ErrorResponseWithCode {A} (x : Exchange) (status : Z) (code : ErrorCode) (message : string) : Z * APIResponse A :=
  ErrorResponseWithDetails x status code message ∅.
Definition ErrorResponse {A} (x : Exchange) (status : Z) (message : string) : Z * APIResponse A :=
  ErrorResponseWithCode x status ErrCodeInternalError message.
Definition SuccessResponseWithMessage {A} (x : Exchange) (data : A) (message : string) : Z * APIResponse A :=
  (200%Z, MkResponse true (Some data) None message (GetRequestID x)).
Definition SuccessResponse {A} (x : Exchange) (data : A) : Z * APIResponse A := SuccessResponseWithMessage x data "".

(** *** A request on its way *)

(** The middleware in the order of [setupRoutes], and then the guard of the route and its
    handler. A preflight request gets a status and no body. *)
Definition serve {A} `{Jwt} (now : Z) (uuid : string) (r : Request) (route : Route) (handler : option Ctx -> Exchange -> Z * APIResponse A)
  : Z * option (APIResponse A) * Exchange :=
  match CORSMiddleware r empty_exchange with
  | (inl status, x) => (status, None, x)
  | (inr _, x) =>
      let x := (RequestIDMiddleware uuid r x).2 in
      match dispatch now (default "" (req_headers r !! "Authorization")) route with
      | inr c => let '(status, body) := handler c x in (status, Some body, x)
      | inl (Failure status code message) => let '(status, body) := ErrorResponseWithCode x status code message in (status, Some body, x)
      | inl _ => (500%Z, None, x)
      end
  end.

(** ** Probes *)

Record HealthStatus := MkHealth { HStatus : string; Checks : gmap string string }.

Definition health : Z * HealthStatus := (200%Z, MkHealth "healthy" ∅).

(** [ping] is the error of the database, if any. *)
Definition ready (ping : option string) : Z * HealthStatus :=
  match ping with
  | Some e => (503%Z, MkHealth "not ready" {["database" := e]})
  | None => (200%Z, MkHealth "ready" {["database" := "ok"]})
  end.

(** ** Login providers *)

Record AvailableProvider := MkAvailable { AvID : string; AvName : string; AvEnabled : bool }.

Definition GetProviders (range : gmap string OAuthProviderConfig -> list (string * OAuthProviderConfig)) (ps : gmap string OAuthProviderConfig)
  : Reply (list AvailableProvider) := Success 200 ((fun '(id, p) => MkAvailable id (ProvName p) true) <$> range ps).

(** ** The list of workflows *)

(** A condition with its bound arguments. *)
Record Condition := MkCondition { clause : string; arguments : list string }.

Definition when (v clause : string) (arguments : list string) : list Condition := if v =? "" then [] else [MkCondition clause arguments].

(** The query parameters of the request; [None] is a parameter that is not there. *)
Record ListQuery := MkListQuery {
  q_project : string;
  q_type : string;
  q_status : string;
  q_search : string;
  q_order_by : option string;
  q_order_dir : option string
}.

Definition list_conditions (q : ListQuery) : list Condition :=
  when (q_project q) "project_id = ?" [q_project q] ++
  when (q_type q) "type = ?" [q_type q] ++
  when (q_status q) "status = ?" [q_status q] ++
  when (q_search q) "name LIKE ? OR description LIKE ?" ["%" +:+ q_search q +:+ "%"; "%" +:+ q_search q +:+ "%"].

Definition list_order (q : ListQuery) : string := default "created_at" (q_order_by q) +:+ " " +:+ default "desc" (q_order_dir q).

(** [find] runs a query with an order, which the database may refuse. *)
Definition ListWorkflows (find : list Condition -> string -> option (list Workflow)) (x : Exchange) (q : ListQuery)
  : Z * APIResponse (list Workflow) :=
  match find (list_conditions q) (list_order q) with
  | Some ws => SuccessResponse x ws
  | None => ErrorResponseWithCode x 500 ErrCodeDatabaseError "Failed to fetch workflows"
  end.

(** ** What the shell promises *)

(** A handler is faithful to the exchange when its answers carry the identifier of the request. *)
Definition carries {A} (handler : option Ctx -> Exchange -> Z * APIResponse A) : Prop :=
  forall c x, ResRequestID (handler c x).2 = GetRequestID x.

(** Every request that is not a preflight one has an identifier, its own or a new one, which is
    in the header of the response and in every body, also when the request is refused; and
    a handler runs only when the guard of its route lets the request pass. *)
Theorem requests_are_identified {A} `{Jwt} now uuid r route (handler : option Ctx -> Exchange -> Z * APIResponse A) status body x :
  carries handler -> req_method r <> "OPTIONS" -> uuid <> "" -> serve now uuid r route handler = (status, body, x) ->
  exists id, id <> "" /\ out_headers x !! "X-Request-ID" = Some id /\ GetRequestID x = id /\
    (req_headers r !! "X-Request-ID" = Some id \/ id = uuid) /\ (forall b, body = Some b -> ResRequestID b = id) /\
    (forall b, body = Some b -> ResSuccess b = true -> exists c, dispatch now (default "" (req_headers r !! "Authorization")) route = inr c).
Proof.
  intros Hc Hm Hu. unfold serve, CORSMiddleware. destruct (String.eqb_spec (req_method r) "OPTIONS"); [done|].
  set (x0 := MkExchange _ _). set (id := if default "" (req_headers r !! "X-Request-ID") =? "" then uuid else default "" (req_headers r !! "X-Request-ID")).
  set (x1 := (RequestIDMiddleware uuid r x0).2).
  assert (Hid : GetRequestID x1 = id) by (unfold GetRequestID, x1; cbn; by rewrite lookup_insert_eq).
  assert (Hh : out_headers x1 !! "X-Request-ID" = Some id) by (unfold x1; cbn; by rewrite lookup_insert_eq).
  assert (Hne : id <> "" /\ (req_headers r !! "X-Request-ID" = Some id \/ id = uuid)).
  { unfold id. destruct (req_headers r !! "X-Request-ID") as [g|]; cbn; [destruct (String.eqb_spec g "")|]; eauto. }
  clearbody x1 id.
  destruct (dispatch now _ route) as [[s0 d0|s0 e0 m0|]|c] eqn:Hd; cbn.
  - intros [= <- <- <-]. exists id. naive_solver.
  - intros [= <- <- <-]. exists id. naive_solver.
  - intros [= <- <- <-]. exists id. naive_solver.
  - destruct (handler c x1) as [s b] eqn:Hb. intros [= <- <- <-]. exists id. specialize (Hc c x1). rewrite Hb in Hc. cbn in Hc. naive_solver.
Qed.

(** The values of a request reach the conditions only as bound arguments: their texts are among
    four fixed ones. *)
Theorem conditions_are_bound q :
  Forall (fun c => clause c ∈ ["project_id = ?"; "type = ?"; "status = ?"; "name LIKE ? OR description LIKE ?"]) (list_conditions q).
Proof.
  unfold list_conditions, when. repeat apply Forall_app_2; destruct (_ =? ""); try apply Forall_nil; try done; apply Forall_singleton; cbn; set_solver.
Qed.

(** The order is not: every text can be made the order of the query. *)
Theorem order_is_not_checked t q :
  exists q', list_conditions q' = list_conditions q /\ list_order q' = t +:+ " ".
Proof. exists (MkListQuery (q_project q) (q_type q) (q_status q) (q_search q) (Some t) (Some "")). done. Qed.
